(* ===== verification/_CoqProject ===== *)
-Q . S2P
Prelude.v
Kinds.v
Num.v
Fixed.v
Price.v
Params.v
Pool.v
Market.v
TestMarket.v
MarketFacts.v
Swap.v
Deposit.v
Withdraw.v
UpdateStates.v
Funding.v
Position.v
Ledger.v
CollateralProcessor.v
IncreasePosition.v
DecreasePosition.v
Revertible.v
Constants.v
CoreErrors.v
MapSum.v
FixedMap.v
Flags.v
Config.v
Roles.v
Decimal.v
TokenConfig.v
Oracle.v
Users.v
Gt.v
StoreState.v
SwapPath.v
Tokens.v
MarketAccount.v
MarketOps.v
Actions.v
Exchange.v
ExchangeFacts.v
Lifecycle.v
Timelock.v
Orders.v
OrderOps.v
OrderFacts.v
OrderSafety.v
