(* ===== verification/Prelude.v ===== *)
(** * GMX-Solana: the perpetual exchange, its store, and its timelock

    The repository is a port of a perpetual exchange to Solana. Its arithmetic and its
    state transitions are in the crate [crates/gmsol-model], generic over the integer
    width; the store program ([programs/gmsol-store]) instantiates it with [u128] amounts of
    20 decimals, keeps its state in accounts, and adds everything around it: access control,
    configuration, prices, the life of a user's action, and the movement of tokens. The timelock
    program ([programs/gmsol-timelock]) owns the store. This development models the crate, the parts
    of the store program listed below, and the timelock.

    ** The parts and the files

    Shared:

    - [Prelude] (this file): outcomes of fallible code ([Result], with a third outcome for a
      Rust panic), the state and error monad [ST] and its notations, inversion lemmas and
      tactics, division lemmas.
    - [CoreErrors], [Constants]: the errors and the constants of the store program ([lib.rs],
      [constants/]). [MapSum]: sums over finite maps.
    - [FixedMap], [Flags], [Decimal]: the crate [crates/gmsol-utils]: the map of fixed capacity as the
      sorted array it is, flags in bitmaps (the crate [bitmaps] is the interface [BitmapOps] with
      [BitmapLaws]), and stored decimal prices.

    The model crate ([crates/gmsol-model/src]):

    - [Kinds]: the shared enumerations and the error type ([error.rs], [pool/mod.rs],
      [clock.rs]). [calm] errors are those that are not turned into an insolvent close.
    - [Num], [Fixed], [Price], [Params]: the machine integers as [Z] with their bounds (class
      [UInt], instances [u64] and [u128]; [num.rs]), the fixed-point operations
      ([fixed.rs], [utils.rs]), prices ([price.rs]), and parameters with their fee functions
      ([params/]).
    - [Pool]: a pool of two token amounts. The traits [Balance] and [Pool] are the class
      [PoolOps], what implementations promise is the class [PoolLaws]; both the pool of the
      crate's tests and the pool of the store program ([states/market/pool.rs], in the Module
      [OnChain]) are instances, and all that follows is proved from the laws.
    - [Market]: a market is a record of its pools by kind, its parameters, its clocks, its
      funding factor, the supply of market tokens (class [SupplyOps] with [SupplyLaws]) and the
      current time. The getters and elementary updates of the traits of [market/] are
      functions and [ST] computations on it. [Moved m c m'] says that the pools of a market
      changed by exactly [c] and nothing else did; the actions are specified with it.
      [TestMarket] is the crate's test market, on which the examples run; [MarketFacts]
      has what the reads guarantee.
    - [Swap], [Deposit], [Withdraw], [UpdateStates], [Funding]: the actions on a market
      ([action/swap.rs], [deposit.rs], [withdraw.rs], [distribute_position_impact.rs],
      [update_borrowing_state.rs], [update_funding_state.rs]). [X::try_new] is [x_try_new] and
      [X::execute] is [x_execute]; [swap], [deposit], ... compose the two as the traits do.
    - [Position], [Ledger], [CollateralProcessor], [IncreasePosition], [DecreasePosition]:
      positions ([position.rs]) and the two actions on them ([action/increase_position.rs],
      [action/decrease_position/]). [Ledger] states what the pools of a market say about its
      positions ([Tracks]).

    The store program ([programs/gmsol-store/src]):

    - [Roles], [StoreState]: the access control of a store ([states/roles.rs]) and its account
      with the instructions that administrate it ([states/store.rs], [states/feature.rs],
      [instructions/store.rs], [roles.rs], [config.rs], [feature.rs]). [May] says who may act with a
      role; every other part asks the store through [only_role].
    - [Users], [Gt]: users, referral codes and referrers, the GT token and its exchange vaults
      ([states/user.rs], [states/gt.rs], [instructions/user.rs], [gt.rs]).
    - [Config]: the named factors of a market and the parameters of the model they stand for
      ([states/market/config.rs], [model.rs]).
    - [TokenConfig], [Oracle]: the token map, price feeds, the prices of the providers, and the oracle
      that validates and holds them while an instruction runs ([states/token_config.rs],
      [states/oracle/]).
    - [Revertible]: how the program keeps a market ([states/market/revertible/]):
      storage and buffer, commit and revert, recorded token balances and their validation
      ([states/market/utils.rs]), and the supply with its pending mints and burns.
    - [SwapPath]: swaps over several markets, one of which may be the current one
      ([revertible/swap_market.rs], [states/common/swap.rs]).
    - [Tokens]: the token program, as an interface ([TokenProgram] with [TokenProgramLaws]).
    - [MarketAccount]: the account of a market and its instructions ([states/market/mod.rs],
      [instructions/market.rs]); [StoredMarket.World] has the store, the markets, the config buffers and
      the tokens.
    - [MarketOps]: an operation on the opened markets, from opening them to their commit
      ([ops/market.rs]).
    - [Actions], [Exchange]: deposits, withdrawals and shifts: what actions share (header, execution
      fee, escrows), and their creation, execution, cancellation and closing
      ([states/common/action.rs], [ops/deposit.rs], [withdrawal.rs], [shift.rs],
      [instructions/exchange/]). [ExchangeFacts] has what an execution does to the world, stated on the
      action as it is stored ([DepositOutcome], [WithdrawalOutcome], [ShiftOutcome]), [Lifecycle] the
      creations and closings, and the histories of the exchange.
    - [Orders], [OrderOps]: orders and positions as accounts ([states/order.rs], [states/position.rs],
      [revertible/revertible_position.rs]), and their operations ([ops/order.rs]): creation,
      execution of every kind of order, payment of its outputs, liquidation and
      auto-deleveraging. [OrderFacts] has what a run does to the opened markets, [OrderSafety] what an
      execution does to the accounts.

    The timelock program ([programs/gmsol-timelock/src]): [Timelock].

    A handler is one function of the accounts it is given, which first checks the constraints of its
    accounts, then the access, then does its work on an explicit state. A state that several handlers
    share is a record ([Store], [GtWorld], [StoredMarket.World], [Exchange], [Timelock.World]), the
    instructions are an inductive type with a function that runs them, an instruction that fails
    changes nothing, and the theorems about states quantify over all histories of instructions.

    ** What the theorems show

    - The exchange: over every history the vaults hold what the markets record, and the recorded
      balances cover the pools; an action is settled at most once, by an order keeper, is closed
      by its owner or after it is settled, and pays out its escrows to those whom the action names,
      whatever accounts the closing is given; an execution takes the
      action's tokens out of the action's own escrows and puts the results into them, or nothing moves,
      whatever accounts the keeper gives. The hypotheses on addresses are that the associated token
      accounts are injective in owner and mint, that vaults are not among them, and that none of
      these accounts is the default key ([KeysOk]); the examples instantiate them.
    - Orders: an execution keeps every token backed, and what is to leave the market is covered beyond
      its pools; every market goes on tracking its positions; an executed order met its conditions
      (market, times, trigger price, minimum output of a swap, and what liquidations and
      auto-deleveraging ask for), and one that is not executed leaves the accounts as they were, but
      for an empty position, and has expired or has failed.
    - Conservation: swaps (in one market or over many), deposits, withdrawals, increases and
      decreases of positions neither create nor lose tokens; what the token pools of a market hold
      (liquidity, swap impact and claimable fees) changes by exactly what comes in and goes out, per
      token when the pools are not pure and in total always.
    - Value: a swap pays out at most what it takes in plus the price impact, a deposit
      does not dilute the holders of market tokens, a withdrawal takes at most its share, fees
      included, so it does not dilute those who stay either, a
      price impact cannot be earned by going back and forth, and the funding that payers are
      charged covers what receivers may claim.
    - Ledger: the open interest, the collateral sums and the total borrowing stay the sums over
      the positions; closing all of a position's size closes all its tokens; the books of GT
      balance; referrals are consistent.
    - Safety of positions: what an increase leaves is open, within the limits and not
      liquidatable; when a position is liquidatable and why; how a decrease can end.
    - Access: who may change what in a store and in its markets; roles are exactly what was granted
      and not revoked; after a restart of the cluster the store is frozen until an administrator
      has acknowledged it; what a timelocked wallet signs was buffered, approved and has waited for the
      delay, and what little may bypass that.
    - Prices: an instruction sees only prices that passed the validation, which are sound for the
      model, and leaves none behind; how accurate the stored prices are.
    - Refinement: a revertible market implements the market of the model, commits what it
      shows and reverts without a trace; the fixed map implements a finite map.
    - Functional behaviour and bounds: the updates of the borrowing, funding and impact
      states, the caps on pnl and price impact, the kink model, fees and their rounding, the
      conversions and the rounding of the arithmetic.

    ** Conventions

    An integer of width [w] is a [Z] and every operation that can overflow is written with
    its check. A method with [&mut self] returns the state also when it fails, so partial
    writes of a failing action are visible. [debug_assert]s are not part of the model.
    Theorems quantify over the integer class, the fixed-point operations, the pools and the
    supply, under their laws ([UIntOk], [FixedPointOk], [PoolLaws], [SupplyLaws]). The power of
    a fractional exponent is computed by the crate [rust_decimal]; it is a parameter of the
    instances of [FixedPointOps], and the only thing used of it is that it fits its type. Hashes,
    addresses derived of seeds, rents, the token program, and the accounts of the price providers are
    parameters, with what is used of them as laws ([TokenProgramLaws], [BitmapLaws]); the examples
    instantiate all of them.

    All functions are total. The loops run over data ([sfor_each] and structural recursion); the
    bisection of the fixed map runs on the size of the array and is shown to find what it looks
    for, and the power by repeated multiplication ([pow_loop]) runs for the whole units of the
    exponent, so no fuel has to be chosen. The examples are evaluated in the kernel with [u64] values
    of nine decimals, as the crate's own tests are, or with the [u128] values of the store; each theorem
    with hypotheses has a witness.

    ** Not modelled

    - GLV ([states/glv.rs], [ops/glv.rs], [instructions/glv]), baskets of market tokens.
    - The account constraints of the instructions on orders ([instructions/exchange/order.rs],
      [execute_order.rs], [position_cut.rs]): which escrows, vaults and positions belong to an order. The
      operations that they call are modelled ([OrderOps]). So orders are not among the histories of
      [Lifecycle]; their theorems are about one execution, from any state in which markets and vaults are
      sound.
    - The hooks of a position ([on_increased], [on_decreased], [on_swapped], [on_swap_error]) do nothing in
      the model of the actions, as in the crate's tests. In the store program the first two record the
      time and a trade id, which [OrderOps.on_trade] does after the action; the others emit events.
    - The treasury program, a client of the GT exchange vaults and of the claimable fees, both of
      which are modelled.
    - Events and logs, the parsing and the ownership checks of accounts that Anchor generates, and
      cross-program calls as such: a call of the store program by the timelock is the call of the
      handler.
    - The decoding of Chainlink reports and of the accounts of other programs.
    - The SDK, the command line tool, the decoder and the bindings, which only build and read
      transactions, the mock verifier, and the tests.

    ** What the models showed

    In the model crate: [bound_magnitude] accepts one bound that its documentation says is an error
    ([bound_magnitude_spec]). The last step of a payment rounds the rest of a cost down to the
    pnl token and may call it paid, after which the fee pools are credited in full
    ([fees_credited_beyond_payment]); the conservation theorems of decreases carry this
    shortfall, less than one unit of that token. A partial decrease of a position whose
    closed tokens round to all its tokens removes the position but leaves the rest of its
    size in the open interest ([rounded_removal_leaves_open_interest]); the ledger theorem of
    decreases ([decrease_position_ledger]) says that this is the only case in which anything is left.

    In the utilities: removing from a full map panics ([remove_from_full_panics]), and a stored price
    is narrowed to 32 bits without a check ([stored_price_accuracy]).

    In the store program: names that fill their buffer are accepted and can not be read back, of roles
    ([longest_name_unusable]) and of markets ([full_name_unreadable]); a new market has no negative swap
    impact factor, and the default of another factor as its reserve factor ([init_config_defaults]); the
    table of disabled features has fewer places than there are features ([toggle_feature_spec]); the
    creation of a withdrawal does not check its execution fee, and that of a shift checks one
    mint twice and another not at all.

    In the timelock: only instructions without accounts can be buffered
    ([buffered_without_accounts]). *)
From Stdlib Require Export ZArith Lia.
From stdpp Require Export base decidable option numbers list strings.

#[export] Set Default Goal Selector "!".
Open Scope Z_scope.

(** ** Outcomes of fallible Rust code

    [Ok]/[Err] are Rust's [Result]; [Panic] is a run-time panic ([expect],
    [unreachable!]), which no caller can catch. *)
Inductive Result (E A : Type) : Type :=
| Ok (a : A)
| Err (e : E)
| Panic (msg : string).
Arguments Ok {E A} a.
Arguments Err {E A} e.
Arguments Panic {E A} msg.

Definition rbind {E A B} (m : Result E A) (f : A -> Result E B) : Result E B :=
  match m with
  | Ok a => f a
  | Err e => Err e
  | Panic s => Panic s
  end.

Definition obind {A B} (m : option A) (f : A -> option B) : option B :=
  match m with
  | Some a => f a
  | None => None
  end.

(** Rust's [Option::ok_or]. *)
Definition ok_or {E A} (o : option A) (e : E) : Result E A :=
  match o with
  | Some a => Ok a
  | None => Err e
  end.

(** Rust's [Option::expect]. *)
Definition expect {E A} (o : option A) (msg : string) : Result E A :=
  match o with
  | Some a => Ok a
  | None => Panic msg
  end.

(** Rust's [Result::ok]; a panic is not a value and stays out of it. *)
Definition is_ok {E A} (r : Result E A) : bool :=
  match r with Ok _ => true | _ => false end.

Definition panics {E A} (r : Result E A) : bool :=
  match r with Panic _ => true | _ => false end.

(** ** Stateful fallible code

    A Rust method with [&mut self] and a [Result]: the state it leaves is
    observable also when it fails, so it is returned in every outcome. *)
Definition ST (S E A : Type) : Type := S -> S * Result E A.

Definition sret {S E A} (a : A) : ST S E A := fun s => (s, Ok a).

Definition sbind {S E A B} (m : ST S E A) (f : A -> ST S E B) : ST S E B :=
  fun s =>
    match m s with
    | (s', Ok a) => f a s'
    | (s', Err e) => (s', Err e)
    | (s', Panic msg) => (s', Panic msg)
    end.

(** A computation that reads the state but does not change it. *)
Definition sread {S E A} (f : S -> Result E A) : ST S E A := fun s => (s, f s).

Definition slift {S E A} (r : Result E A) : ST S E A := fun s => (s, r).

Definition sget {S E} : ST S E S := fun s => (s, Ok s).

Definition smodify {S E} (f : S -> S) : ST S E unit := fun s => (f s, Ok tt).

(** An update that may fail; on failure the state is as before. *)
Definition supdate {S E} (f : S -> Result E S) : ST S E unit :=
  fun s =>
    match f s with
    | Ok s' => (s', Ok tt)
    | Err e => (s, Err e)
    | Panic msg => (s, Panic msg)
    end.

(** Running an action and matching on its result; a panic cannot be caught. *)
Definition stry {S E A} (m : ST S E A) : ST S E (Result E A) :=
  fun s =>
    match m s with
    | (s', Ok a) => (s', Ok (Ok a))
    | (s', Err e) => (s', Ok (Err e))
    | (s', Panic msg) => (s', Panic msg)
    end.
(** Running an action on a component of a larger state. *)
Definition szoom {S T E A} (get : S -> T) (set : T -> S -> S) (m : ST T E A) : ST S E A :=
  fun s => let (t, r) := m (get s) in (set t s, r).

(** Rust's [for x in xs { f(x)?; }]. *)
Fixpoint sfor_each {S E A} (f : A -> ST S E unit) (xs : list A) : ST S E unit :=
  match xs with
  | [] => sret tt
  | x :: xs => sbind (f x) (fun _ => sfor_each f xs)
  end.

(** The first of some values that has a name: Rust's [from_str] of an enumeration, where
    [to_string] gives the names. *)
Definition from_name {A} (to_string : A -> string) (all : list A) (s : string) : option A :=
  list_find (fun a => to_string a = s) all ≫= fun p => Some (snd p).

Declare Scope rust_scope.
Delimit Scope rust_scope with rust.

Notation "'let?' x := m 'in' k" := (obind m (fun x => k))
  (at level 10, x pattern, m at level 100, k at level 200,
   format "'[v' 'let?'  x  :=  m  'in' '/' k ']'") : rust_scope.
Notation "'let!' x := m 'in' k" := (rbind m (fun x => k))
  (at level 10, x pattern, m at level 100, k at level 200,
   format "'[v' 'let!'  x  :=  m  'in' '/' k ']'") : rust_scope.
Notation "'do!' x := m 'in' k" := (sbind m (fun x => k))
  (at level 10, x pattern, m at level 100, k at level 200,
   format "'[v' 'do!'  x  :=  m  'in' '/' k ']'") : rust_scope.
Open Scope rust_scope.

(** ** Inversion of successful runs *)
Section Inversion.
Context {S E A B : Type}.

Lemma rbind_ok (m : Result E A) (f : A -> Result E B) b :
  rbind m f = Ok b <-> exists a, m = Ok a /\ f a = Ok b.
Proof.
  split; [|by intros (a & -> & ?)].
  destruct m; simpl; try discriminate. eauto.
Qed.

Lemma rbind_assoc {C} (m : Result E A) (f : A -> Result E B) (g : B -> Result E C) :
  rbind (rbind m f) g = rbind m (fun a => rbind (f a) g).
Proof. by destruct m. Qed.

Lemma obind_some (m : option A) (f : A -> option B) b :
  obind m f = Some b <-> exists a, m = Some a /\ f a = Some b.
Proof.
  split; [|by intros (a & -> & ?)].
  destruct m; simpl; try discriminate. eauto.
Qed.

Lemma ok_or_ok (o : option A) (e : E) a : ok_or o e = Ok a <-> o = Some a.
Proof. destruct o; simpl; split; congruence. Qed.

Lemma expect_ok (o : option A) msg a : expect (E:=E) o msg = Ok a <-> o = Some a.
Proof. destruct o; simpl; split; congruence. Qed.

Lemma sbind_ok (m : ST S E A) (f : A -> ST S E B) s s' b :
  sbind m f s = (s', Ok b) <-> exists s1 a, m s = (s1, Ok a) /\ f a s1 = (s', Ok b).
Proof.
  unfold sbind. split; [|by intros (s1 & a & -> & ?)].
  destruct (m s) as [s1 []]; try discriminate. eauto.
Qed.

Lemma sret_ok (a a' : A) (s s' : S) :
  sret (E:=E) a s = (s', Ok a') <-> s' = s /\ a' = a.
Proof. unfold sret. split; [by intros [= <- <-]|by intros [-> ->]]. Qed.

Lemma sread_ok (f : S -> Result E A) s s' a :
  sread f s = (s', Ok a) <-> s' = s /\ f s = Ok a.
Proof. unfold sread. split; [by intros [= <- <-]|by intros [-> ->]]. Qed.

Lemma slift_ok (r : Result E A) (s s' : S) a :
  slift r s = (s', Ok a) <-> s' = s /\ r = Ok a.
Proof. unfold slift. split; [by intros [= <- <-]|by intros [-> ->]]. Qed.

Lemma smodify_ok (f : S -> S) s s' u :
  smodify (E:=E) f s = (s', Ok u) <-> s' = f s.
Proof. unfold smodify. destruct u. split; [by intros [= <-]|by intros ->]. Qed.

Lemma supdate_ok (f : S -> Result E S) s s' u :
  supdate f s = (s', Ok u) <-> f s = Ok s'.
Proof. unfold supdate. destruct u, (f s); split; congruence. Qed.

Lemma sget_ok (s s' a : S) : sget (E:=E) s = (s', Ok a) <-> s' = s /\ a = s.
Proof. unfold sget. split; [by intros [= <- <-]|by intros [-> ->]]. Qed.
End Inversion.

Lemma stry_ok {S E A} (m : ST S E A) s s' r :
  stry m s = (s', Ok r) <-> m s = (s', r) /\ panics r = false.
Proof.
  unfold stry. destruct (m s) as [s1 [a|e|msg]]; split; intros Hr.
  - by injection Hr as <- <-.
  - by destruct Hr as [[= <- <-] _].
  - by injection Hr as <- <-.
  - by destruct Hr as [[= <- <-] _].
  - discriminate.
  - by destruct Hr as [[= <- <-] ?].
Qed.

Lemma szoom_ok {S T E A} (get : S -> T) (set : T -> S -> S) (m : ST T E A) s s' a :
  szoom get set m s = (s', Ok a) <-> exists t, m (get s) = (t, Ok a) /\ s' = set t s.
Proof.
  unfold szoom. destruct (m (get s)) as [t r]. split.
  - intros [= <- ->]. eauto.
  - by intros (? & [= <- ->] & ->).
Qed.

(** A run that is known to succeed, for examples. *)
Lemma run_ok {S E A} (p : S * Result E A) a : snd p = Ok a -> p = (fst p, Ok a).
Proof. destruct p. simpl. by intros ->. Qed.

Arguments rbind : simpl never.
Arguments obind : simpl never.
Arguments ok_or : simpl never.
Arguments expect : simpl never.
Arguments sbind : simpl never.
Arguments sret : simpl never.
Arguments sread : simpl never.
Arguments slift : simpl never.
Arguments sget : simpl never.
Arguments smodify : simpl never.
Arguments supdate : simpl never.
Arguments szoom : simpl never.
Arguments stry : simpl never.

(** One step of inverting a hypothesis that says some code succeeded. *)
Ltac inv_ok_step :=
  match goal with
  | H : rbind _ _ = Ok _ |- _ =>
      apply rbind_ok in H; let a := fresh "v" in let Ha := fresh "Hv" in
      destruct H as (a & Ha & H)
  | H : obind _ _ = Some _ |- _ =>
      apply obind_some in H; let a := fresh "v" in let Ha := fresh "Hv" in
      destruct H as (a & Ha & H)
  | H : ok_or _ _ = Ok _ |- _ => apply ok_or_ok in H
  | H : expect _ _ = Ok _ |- _ => apply expect_ok in H
  | H : sbind _ _ _ = (_, Ok _) |- _ =>
      apply sbind_ok in H; let s := fresh "s" in let a := fresh "v" in let Ha := fresh "Hv" in
      destruct H as (s & a & Ha & H)
  | H : sret _ _ = (_, Ok _) |- _ => apply sret_ok in H; destruct H; subst
  | H : sread _ _ = (_, Ok _) |- _ => apply sread_ok in H; destruct H; subst
  | H : slift _ _ = (_, Ok _) |- _ => apply slift_ok in H; destruct H; subst
  | H : sget _ = (_, Ok _) |- _ => apply sget_ok in H; destruct H; subst
  | H : smodify _ _ = (_, Ok _) |- _ => apply smodify_ok in H; subst
  | H : supdate _ _ = (_, Ok _) |- _ => apply supdate_ok in H
  | H : szoom _ _ _ _ = (_, Ok _) |- _ =>
      apply szoom_ok in H; let t := fresh "t" in let Ha := fresh "Hv" in
      destruct H as (t & Ha & H); subst
  | H : Ok _ = Ok _ |- _ => injection H as H; subst
  | H : Some _ = Some _ |- _ => injection H as H; subst
  | H : (_, _) = (_, _) |- _ => injection H as ? ?; subst
  | H : Err _ = Ok _ |- _ => discriminate H
  | H : Panic _ = Ok _ |- _ => discriminate H
  | H : None = Some _ |- _ => discriminate H
  | H : (if ?b then _ else _) = Ok _ |- _ => let Hb := fresh "Hb" in destruct b eqn:Hb
  | H : (if ?b then _ else _) = Some _ |- _ => let Hb := fresh "Hb" in destruct b eqn:Hb
  | H : (if ?b then _ else _) _ = (_, Ok _) |- _ => let Hb := fresh "Hb" in destruct b eqn:Hb
  end.
Ltac inv_ok := repeat (inv_ok_step; try discriminate).

(** ** Runs without a panic *)
Lemma panics_bind {E A B} (m : Result E A) (f : A -> Result E B) :
  panics m = false -> (forall a, m = Ok a -> panics (f a) = false) -> panics (rbind m f) = false.
Proof. destruct m; simpl; intros Hm Hf; [by apply Hf|done|done]. Qed.

Lemma panics_ok_or {E A} (o : option A) (e : E) : panics (ok_or o e) = false.
Proof. by destruct o. Qed.
Create HintDb no_panic.
#[export] Hint Resolve panics_bind panics_ok_or : no_panic.

(** Goes through the [?] operators of some code. *)
Ltac no_panic :=
  repeat first
    [ done
    | apply panics_ok_or
    | apply panics_bind; [|intros ? ?]
    | match goal with |- panics (if ?b then _ else _) = false => destruct b end
    | progress eauto 2 with no_panic ].

(** Boolean tests of the code as propositions. *)
Ltac bool_to_prop :=
  repeat match goal with
  | H : (_ && _)%bool = true |- _ => apply andb_true_iff in H; destruct H
  | H : (_ || _)%bool = false |- _ => apply orb_false_iff in H; destruct H
  | H : negb _ = true |- _ => apply negb_true_iff in H
  | H : negb _ = false |- _ => apply negb_false_iff in H
  | H : (_ <? _) = true |- _ => apply Z.ltb_lt in H
  | H : (_ <? _) = false |- _ => apply Z.ltb_ge in H
  | H : (_ <=? _) = true |- _ => apply Z.leb_le in H
  | H : (_ <=? _) = false |- _ => apply Z.leb_gt in H
  | H : (_ =? _) = true |- _ => apply Z.eqb_eq in H
  | H : (_ =? _) = false |- _ => apply Z.eqb_neq in H
  end.

(** Case analysis on a test of the goal, keeping the equation. *)
Ltac case_if Hb :=
  match goal with
  | |- context [if ?b then _ else _] => destruct b eqn:Hb
  end.

Ltac case_if_in H Hb :=
  match type of H with
  | (if ?b then _ else _) = _ => destruct b eqn:Hb
  | (if ?b then _ else _) _ = _ => destruct b eqn:Hb
  end.

(** Case analysis on a comparison in the goal. *)
Ltac case_bool :=
  match goal with
  | |- context [?a <? ?b] => destruct (Z.ltb_spec a b)
  | |- context [?a <=? ?b] => destruct (Z.leb_spec a b)
  | |- context [?a =? ?b] => destruct (Z.eqb_spec a b)
  end.

(** ** Floor division facts shared by the components *)
Lemma div_mul_le a b : 0 < b -> a / b * b <= a.
Proof. intros. rewrite Z.mul_comm. by apply Z.mul_div_le. Qed.

Lemma div_mul_gt a b : 0 < b -> a < (a / b + 1) * b.
Proof. intros. pose proof (Z.mul_succ_div_gt a b). lia. Qed.

Lemma div_nonneg a b : 0 <= a -> 0 < b -> 0 <= a / b.
Proof. intros. by apply Z.div_pos. Qed.

Lemma div_le_mono a b c : 0 < c -> a <= b -> a / c <= b / c.
Proof. intros. by apply Z.div_le_mono. Qed.

(** Rust's [if max < x { max } else { x }]. *)
Lemma if_ltb_min a b : (if a <? b then a else b) = Z.min b a.
Proof. destruct (Z.ltb_spec a b); lia. Qed.

(** Ceiling division of Rust's [div_ceil] on unsigned operands. *)
Definition div_ceil (a b : Z) : Z := if a mod b =? 0 then a / b else a / b + 1.

Lemma div_ceil_spec a b : 0 < b -> a <= div_ceil a b * b /\ (div_ceil a b - 1) * b < a.
Proof.
  intros Hb. unfold div_ceil. pose proof (Z.div_mod a b ltac:(lia)) as Hd.
  pose proof (Z.mod_pos_bound a b Hb).
  destruct (Z.eqb_spec (a mod b) 0); nia.
Qed.

Lemma div_ceil_nonneg a b : 0 <= a -> 0 < b -> 0 <= div_ceil a b.
Proof.
  intros Ha Hb. unfold div_ceil. pose proof (div_nonneg a b Ha Hb).
  destruct (_ =? _); lia.
Qed.

Lemma div_le_div_ceil a b : a / b <= div_ceil a b.
Proof. unfold div_ceil. destruct (_ =? _); lia. Qed.

(** The increment of a floored linear function grows with the slope, up to
    the one unit the two floors can differ by. *)
Lemma floor_increment_slope x y p n c :
  0 < c -> 0 <= y <= x -> 0 <= p <= n ->
  x * p / c - y * p / c <= x * n / c - y * n / c + 1.
Proof.
  intros Hc Hxy Hpn.
  pose proof (div_mul_le (x * p) c Hc). pose proof (div_mul_gt (y * p) c Hc).
  pose proof (div_mul_gt (x * n) c Hc). pose proof (div_mul_le (y * n) c Hc).
  assert ((x - y) * p <= (x - y) * n) by nia. nia.
Qed.

Create HintDb rust.
#[export] Hint Resolve div_nonneg div_ceil_nonneg : rust.
