(* ===== verification/Kinds.v ===== *)
(** * Kinds and errors

    The enumerations that the components share ([PoolKind], [ClockKind],
    [PnlFactorKind], ...) and the error type of [crates/gmsol-model/src/error.rs].
    Rust's [String] payloads that only print a number carry the number. *)
From S2P Require Import Prelude.

(** [pool/mod.rs]: the pools of a market. *)
Inductive PoolKind : Type :=
| Primary
| SwapImpact
| ClaimableFee
| OpenInterestForLong
| OpenInterestForShort
| OpenInterestInTokensForLong
| OpenInterestInTokensForShort
| PositionImpact
| BorrowingFactor
| FundingAmountPerSizeForLong
| FundingAmountPerSizeForShort
| ClaimableFundingAmountPerSizeForLong
| ClaimableFundingAmountPerSizeForShort
| CollateralSumForLong
| CollateralSumForShort
| TotalBorrowing.

#[export] Instance PoolKind_eq_dec : EqDecision PoolKind.
Proof. solve_decision. Defined.

(** The declaration order, which is the order [PoolKind::iter] enumerates. *)
Definition PoolKind_iter : list PoolKind :=
  [Primary; SwapImpact; ClaimableFee; OpenInterestForLong; OpenInterestForShort;
   OpenInterestInTokensForLong; OpenInterestInTokensForShort; PositionImpact;
   BorrowingFactor; FundingAmountPerSizeForLong; FundingAmountPerSizeForShort;
   ClaimableFundingAmountPerSizeForLong; ClaimableFundingAmountPerSizeForShort;
   CollateralSumForLong; CollateralSumForShort; TotalBorrowing].

Lemma PoolKind_iter_complete (k : PoolKind) : k ∈ PoolKind_iter.
Proof. destruct k; apply (bool_decide_unpack _); vm_compute; exact I. Qed.

Lemma PoolKind_iter_NoDup : NoDup PoolKind_iter.
Proof. apply (bool_decide_unpack _). vm_compute. exact I. Qed.

(** [clock.rs]. *)
Inductive ClockKind : Type :=
| PriceImpactDistribution
| Borrowing
| Funding
| AdlForLong
| AdlForShort.

#[export] Instance ClockKind_eq_dec : EqDecision ClockKind.
Proof. solve_decision. Defined.

(** [market/base.rs]. *)
Inductive PnlFactorKind : Type :=
| MaxAfterDeposit
| MaxAfterWithdrawal
| MaxForTrader
| ForAdl
| MinAfterAdl.

#[export] Instance PnlFactorKind_eq_dec : EqDecision PnlFactorKind.
Proof. solve_decision. Defined.

(** [position.rs]: the step at which an insolvent close stopped. *)
Inductive InsolventCloseStep : Type :=
| StepPnl
| StepFees
| StepFunding
| StepImpact
| StepDiff.

#[export] Instance InsolventCloseStep_eq_dec : EqDecision InsolventCloseStep.
Proof. solve_decision. Defined.

(** [position.rs]. *)
Inductive LiquidatableReason : Type :=
| MinCollateral
| NotPositive
| MinCollateralForLeverage.

#[export] Instance LiquidatableReason_eq_dec : EqDecision LiquidatableReason.
Proof. solve_decision. Defined.

(** [error.rs]. *)
Inductive Error : Type :=
| Unimplemented
| InvalidArgument (msg : string)
| EmptyDeposit
| EmptyWithdrawal
| EmptySwap
| InvalidPrices
| Computation (msg : string)
| PoolComputation (kind : PoolKind) (msg : string)
| PowComputation
| Overflow
| DividedByZero
| InvalidPoolValue (msg : string)
| Convert
| Solana (code : Z)
| BuildParams (msg : string)
| MissingPoolKind (kind : PoolKind)
| MissingClockKind (kind : ClockKind)
| MintReceiverNotSet
| WithdrawalVaultNotSet
| InsufficientFundsToPayForCosts (step : InsolventCloseStep)
| InvalidPosition (msg : string)
| Liquidatable (reason : LiquidatableReason)
| NotLiquidatable
| UnableToGetBorrowingFactorEmptyPoolValue
| InsufficientReserve (required max : Z)
| InsufficientReserveForOpenInterest (required max : Z)
| PnlFactorExceededErr (kind : PnlFactorKind) (side : string)
| MaxPoolAmountExceeded (side : string)
| MaxPoolValueExceeded (side : string)
| MaxOpenInterestExceeded
| InvalidTokenBalance (msg : string) (expected balance : Z)
| UnableToGetFundingFactorEmptyOpenInterest.

(** The crate's alias [Result<T>]. *)
Abbreviation result A := (Result Error A).

(** Code that does not itself report insufficient funds; only the payment of costs does. *)
Definition is_insufficient_funds (e : Error) : bool :=
  match e with InsufficientFundsToPayForCosts _ => true | _ => false end.
Definition calm {A} (r : result A) : bool :=
  match r with Err e => negb (is_insufficient_funds e) | _ => true end.

Lemma calm_bind {A B} (m : result A) (f : A -> result B) :
  calm m = true -> (forall a, calm (f a) = true) -> calm (rbind m f) = true.
Proof. destruct m as [a|e|s]; intros Hm Hf; [apply Hf|exact Hm|done]. Qed.

Lemma calm_ok_or {A} (o : option A) (e : Error) :
  is_insufficient_funds e = false -> calm (ok_or o e) = true.
Proof. intros He. destruct o; simpl; [done|by rewrite He]. Qed.

Create HintDb calm.
#[export] Hint Resolve calm_bind calm_ok_or : calm.

(** Goes through the [?] operators of some code. *)
Ltac calm :=
  repeat first
    [ done
    | apply calm_ok_or; done
    | apply calm_bind; [|intros ?]
    | match goal with |- calm (if ?b then _ else _) = true => destruct b end
    | match goal with |- calm (match ?o with _ => _ end) = true => destruct o end
    | progress eauto 2 with calm ].
