(* ===== verification/Num.v ===== *)
(** * Machine integers of the model ([crates/gmsol-model/src/num.rs])

    The crate is generic over an unsigned type with its signed companion; it is
    used at [u64]/[i64] and at [u128]/[i128]. Both are instances of the class
    [UInt]: integers are [Z] with the bounds of the width written out in every
    checked operation. The methods of [Unsigned] and [MulDiv] follow. *)
From S2P Require Import Prelude Kinds.

(** An unsigned type with its signed companion, given by its width. *)
Class UInt : Type := { BITS : Z }.

(** What the components rely on: a real width. *)
Class UIntOk (I : UInt) : Prop := { bits_large : 8 <= BITS }.

Definition u64 : UInt := {| BITS := 64 |}.
#[export] Instance u64_ok : UIntOk u64.
Proof. split; simpl; lia. Qed.
Definition u128 : UInt := {| BITS := 128 |}.
#[export] Instance u128_ok : UIntOk u128.
Proof. split; simpl; lia. Qed.

Section Num.
Context `{UInt}.

Definition u_max : Z := 2 ^ BITS - 1.
Definition i_max : Z := 2 ^ (BITS - 1) - 1.
Definition i_min : Z := - 2 ^ (BITS - 1).

Definition in_u (z : Z) : Prop := 0 <= z <= u_max.
Definition in_i (z : Z) : Prop := i_min <= z <= i_max.

(** [try_into] to the unsigned and to the signed type. *)
Definition try_u (z : Z) : option Z := if (0 <=? z) && (z <=? u_max) then Some z else None.
Definition try_i (z : Z) : option Z := if (i_min <=? z) && (z <=? i_max) then Some z else None.

(** The checked operations of the unsigned type. *)
Definition uadd (a b : Z) : option Z := try_u (a + b).
Definition usub (a b : Z) : option Z := try_u (a - b).
Definition umul (a b : Z) : option Z := try_u (a * b).
Definition udiv (a b : Z) : option Z := if b =? 0 then None else try_u (a / b).

(** The checked operations of the signed type; [/] truncates towards zero. *)
Definition iadd (a b : Z) : option Z := try_i (a + b).
Definition isub (a b : Z) : option Z := try_i (a - b).
Definition ineg (a : Z) : option Z := try_i (- a).
Definition idiv (a b : Z) : option Z := if b =? 0 then None else try_i (Z.quot a b).

(** [FromPrimitive::from_u64]. *)
Definition from_u64 (z : Z) : option Z := try_u z.

Definition unsigned_abs (s : Z) : Z := Z.abs s.
Definition is_positive (s : Z) : bool := 0 <? s.
Definition is_negative (s : Z) : bool := s <? 0.
Definition is_zero (s : Z) : bool := s =? 0.

(** ** Trait [Unsigned] *)

Definition to_signed (self : Z) : result Z := ok_or (try_i self) Convert.

Definition to_opposite_signed (self : Z) : result Z :=
  let! s := to_signed self in
  ok_or (ineg s) (Computation "to opposite signed").

Definition to_signed_with_sign (self : Z) (negative : bool) : result Z :=
  if negative then to_opposite_signed self else to_signed self.

Definition diff (self other : Z) : Z := Z.abs (self - other).

Definition checked_signed_sub (self other : Z) : result Z :=
  if other <=? self then to_signed (diff self other)
  else to_opposite_signed (diff self other).

Definition checked_add_with_signed (self other : Z) : option Z :=
  let value := unsigned_abs other in
  if is_positive other then uadd self value else usub self value.

Definition checked_sub_with_signed (self other : Z) : option Z :=
  let value := unsigned_abs other in
  if is_positive other then usub self value else uadd self value.

Definition checked_mul_with_signed (self other : Z) : option Z :=
  let value := unsigned_abs other in
  if is_negative other then
    let? p := umul self value in
    let? s := try_i p in
    ineg s
  else
    let? p := umul self value in
    try_i p.

Definition as_divisor_to_round_up_magnitude_div (self dividend : Z) : option Z :=
  if is_zero self then None
  else
    let? divisor := try_i self in
    if is_negative dividend then
      let? a := isub dividend divisor in
      let? b := iadd a 1 in
      idiv b divisor
    else
      let? a := iadd dividend divisor in
      let? b := isub a 1 in
      idiv b divisor.

Definition checked_round_up_div (self divisor : Z) : option Z :=
  if is_zero divisor then None
  else
    let? a := uadd self divisor in
    let? b := usub a 1 in
    udiv b divisor.

Definition bound_magnitude (value min max : Z) : result Z :=
  if max <? min then Err (InvalidArgument "min > max")
  else
    let magnitude := unsigned_abs value in
    let negative := is_negative value in
    if magnitude <? min then to_signed_with_sign min negative
    else if max <? magnitude then to_signed_with_sign max negative
    else Ok value.

(** ** Trait [MulDiv]

    [u64] multiplies in [u128] and [u128] in [U256], where the product of two
    in-range operands cannot overflow ([mul_fits_double_width]), so the
    product is exact and only the quotient is narrowed. *)

Definition checked_mul_div (self numerator denominator : Z) : option Z :=
  if denominator =? 0 then None
  else
    let ans := self * numerator / denominator in
    try_u ans.

Definition checked_mul_div_ceil (self numerator denominator : Z) : option Z :=
  if denominator =? 0 then None
  else
    let ans := div_ceil (self * numerator) denominator in
    try_u ans.

Definition checked_mul_div_with_signed_numerator (self numerator denominator : Z) : option Z :=
  let? q := checked_mul_div self (unsigned_abs numerator) denominator in
  let? ans := try_i q in
  if is_positive numerator then Some ans else ineg ans.

End Num.

(** ** Inversion lemmas: a checked operation succeeds iff its exact result fits *)
Section NumFacts.
Context `{UInt}.

Lemma try_u_some z r : try_u z = Some r <-> r = z /\ in_u z.
Proof.
  unfold try_u, in_u. destruct (_ && _) eqn:E.
  - bool_to_prop. split; [intros [= <-]; lia|intros [-> _]; done].
  - split; [done|]. intros [-> ?]. apply andb_false_iff in E as [E|E]; lia.
Qed.

Lemma try_i_some z r : try_i z = Some r <-> r = z /\ in_i z.
Proof.
  unfold try_i, in_i. destruct (_ && _) eqn:E.
  - bool_to_prop. split; [intros [= <-]; lia|intros [-> _]; done].
  - split; [done|]. intros [-> ?]. apply andb_false_iff in E as [E|E]; lia.
Qed.

Lemma uadd_some a b r : uadd a b = Some r <-> r = a + b /\ in_u (a + b).
Proof. apply try_u_some. Qed.
Lemma usub_some a b r : usub a b = Some r <-> r = a - b /\ in_u (a - b).
Proof. apply try_u_some. Qed.
Lemma umul_some a b r : umul a b = Some r <-> r = a * b /\ in_u (a * b).
Proof. apply try_u_some. Qed.
Lemma udiv_some a b r : udiv a b = Some r <-> b <> 0 /\ r = a / b /\ in_u (a / b).
Proof.
  unfold udiv. destruct (Z.eqb_spec b 0); [by split; [|intros [? _]]|].
  rewrite try_u_some. tauto.
Qed.
Lemma iadd_some a b r : iadd a b = Some r <-> r = a + b /\ in_i (a + b).
Proof. apply try_i_some. Qed.
Lemma isub_some a b r : isub a b = Some r <-> r = a - b /\ in_i (a - b).
Proof. apply try_i_some. Qed.
Lemma ineg_some a r : ineg a = Some r <-> r = - a /\ in_i (- a).
Proof. apply try_i_some. Qed.
Lemma idiv_some a b r :
  idiv a b = Some r <-> b <> 0 /\ r = Z.quot a b /\ in_i (Z.quot a b).
Proof.
  unfold idiv. destruct (Z.eqb_spec b 0); [by split; [|intros [? _]]|].
  rewrite try_i_some. tauto.
Qed.
Lemma from_u64_some a r : from_u64 a = Some r <-> r = a /\ in_u a.
Proof. apply try_u_some. Qed.

Lemma to_signed_ok u s : to_signed u = Ok s <-> s = u /\ in_i u.
Proof. unfold to_signed. rewrite ok_or_ok. apply try_i_some. Qed.

Lemma to_opposite_signed_ok u s :
  to_opposite_signed u = Ok s <-> s = - u /\ in_i u /\ in_i (- u).
Proof.
  unfold to_opposite_signed. rewrite rbind_ok. split.
  - intros (v & [-> ?]%to_signed_ok & [-> ?]%ok_or_ok%ineg_some). done.
  - intros (-> & ? & ?). exists u. by rewrite to_signed_ok, ok_or_ok, ineg_some.
Qed.

Lemma checked_mul_div_some a n d r :
  checked_mul_div a n d = Some r <-> d <> 0 /\ r = a * n / d /\ in_u r.
Proof.
  unfold checked_mul_div. destruct (Z.eqb_spec d 0); [by split; [|intros [? _]]|].
  rewrite try_u_some. split; [by intros [-> ?]|by intros (_ & -> & ?)].
Qed.

Lemma checked_mul_div_ceil_some a n d r :
  checked_mul_div_ceil a n d = Some r <-> d <> 0 /\ r = div_ceil (a * n) d /\ in_u r.
Proof.
  unfold checked_mul_div_ceil. destruct (Z.eqb_spec d 0); [by split; [|intros [? _]]|].
  rewrite try_u_some. split; [by intros [-> ?]|by intros (_ & -> & ?)].
Qed.

End NumFacts.

(** Inversion of the checked arithmetic in the hypotheses. *)
Ltac num_inv_step :=
  match goal with
  | H : try_u _ = Some _ |- _ => apply try_u_some in H as [-> H]
  | H : try_i _ = Some _ |- _ => apply try_i_some in H as [-> H]
  | H : uadd _ _ = Some _ |- _ => apply uadd_some in H as [-> H]
  | H : usub _ _ = Some _ |- _ => apply usub_some in H as [-> H]
  | H : umul _ _ = Some _ |- _ => apply umul_some in H as [-> H]
  | H : udiv _ _ = Some _ |- _ => apply udiv_some in H as (? & -> & H)
  | H : iadd _ _ = Some _ |- _ => apply iadd_some in H as [-> H]
  | H : isub _ _ = Some _ |- _ => apply isub_some in H as [-> H]
  | H : ineg _ = Some _ |- _ => apply ineg_some in H as [-> H]
  | H : idiv _ _ = Some _ |- _ => apply idiv_some in H as (? & -> & H)
  | H : from_u64 _ = Some _ |- _ => apply from_u64_some in H as [-> H]
  | H : to_signed _ = Ok _ |- _ => apply to_signed_ok in H as [-> H]
  | H : to_opposite_signed _ = Ok _ |- _ => apply to_opposite_signed_ok in H as (-> & ? & H)
  | H : checked_mul_div _ _ _ = Some _ |- _ => apply checked_mul_div_some in H as (? & -> & H)
  | H : checked_mul_div_ceil _ _ _ = Some _ |- _ =>
      apply checked_mul_div_ceil_some in H as (? & -> & H)
  end.
Ltac num_inv := repeat (inv_ok_step || num_inv_step); bool_to_prop.

Ltac unfold_num_tests :=
  unfold is_positive, is_negative, is_zero, unsigned_abs, diff in *.

Section NumSpecs.
Context {I : UInt} {IOk : UIntOk I}.

Lemma pow_bits_half : 2 ^ BITS = 2 * 2 ^ (BITS - 1).
Proof.
  pose proof bits_large. replace BITS with (Z.succ (BITS - 1)) at 1 by lia.
  rewrite Z.pow_succ_r; lia.
Qed.

Lemma half_pos : 128 <= 2 ^ (BITS - 1).
Proof.
  pose proof bits_large. change 128 with (2 ^ 7). apply Z.pow_le_mono_r; lia.
Qed.

(** The bounds of the two types, as linear facts over one constant. *)
Lemma bounds_linear :
  exists h, 128 <= h /\ u_max = 2 * h - 1 /\ i_max = h - 1 /\ i_min = - h.
Proof.
  exists (2 ^ (BITS - 1)). pose proof pow_bits_half. pose proof half_pos.
  unfold u_max, i_max, i_min. lia.
Qed.

Lemma mul_fits_double_width a b : in_u a -> in_u b -> 0 <= a * b < 2 ^ (2 * BITS).
Proof.
  unfold in_u, u_max. intros. pose proof bits_large.
  replace (2 * BITS) with (BITS + BITS) by lia. rewrite Z.pow_add_r by lia. nia.
Qed.

Lemma in_i_nonneg_in_u z : 0 <= z -> in_i z -> in_u z.
Proof. unfold in_i, in_u. destruct bounds_linear as (h & ? & -> & -> & ->). lia. Qed.

Lemma abs_in_u z : in_i z -> in_u (Z.abs z).
Proof. unfold in_i, in_u. destruct bounds_linear as (h & ? & -> & -> & ->). lia. Qed.

Lemma checked_add_with_signed_some a s r :
  checked_add_with_signed a s = Some r <-> r = a + s /\ in_u (a + s).
Proof.
  unfold checked_add_with_signed. unfold_num_tests.
  destruct (Z.ltb_spec 0 s).
  - rewrite uadd_some. by rewrite Z.abs_eq by lia.
  - rewrite usub_some. rewrite Z.abs_neq by lia.
    by replace (a - - s) with (a + s) by lia.
Qed.

Lemma checked_sub_with_signed_some a s r :
  checked_sub_with_signed a s = Some r <-> r = a - s /\ in_u (a - s).
Proof.
  unfold checked_sub_with_signed. unfold_num_tests.
  destruct (Z.ltb_spec 0 s).
  - rewrite usub_some. by rewrite Z.abs_eq by lia.
  - rewrite uadd_some. rewrite Z.abs_neq by lia.
    by replace (a + - s) with (a - s) by lia.
Qed.

Lemma checked_mul_with_signed_some a s r :
  0 <= a -> checked_mul_with_signed a s = Some r -> r = a * s /\ in_i (a * s).
Proof.
  unfold checked_mul_with_signed. unfold_num_tests. intros Ha.
  destruct (Z.ltb_spec s 0); intros Hr; num_inv.
  - rewrite Z.abs_neq in * by lia. by replace (- (a * - s)) with (a * s) in * by lia.
  - by rewrite Z.abs_eq in * by lia.
Qed.

Lemma checked_signed_sub_ok a b r :
  checked_signed_sub a b = Ok r -> r = a - b /\ in_i (a - b).
Proof.
  unfold checked_signed_sub, diff. destruct (Z.leb_spec b a); intros Hr; num_inv.
  - rewrite Z.abs_eq in * by lia. auto.
  - rewrite Z.abs_neq in * by lia. by replace (- - (a - b)) with (a - b) in * by lia.
Qed.

(** Division of a signed numerator by magnitude and sign is truncated division. *)
Lemma sgn_div_quot a n d : 0 <= a -> 0 < d -> Z.sgn n * (a * Z.abs n / d) = Z.quot (a * n) d.
Proof.
  intros Ha Hd. destruct (Z.lt_trichotomy n 0) as [Hn|[->|Hn]].
  - rewrite Z.sgn_neg, Z.abs_neq by lia.
    replace (a * n) with (- (a * - n)) by lia. rewrite Z.quot_opp_l by lia.
    rewrite Z.quot_div_nonneg by nia. lia.
  - change (Z.sgn 0) with 0. rewrite Z.mul_0_l, Z.mul_0_r, Z.quot_0_l by lia. done.
  - rewrite Z.sgn_pos, Z.abs_eq by lia. rewrite Z.quot_div_nonneg by nia. lia.
Qed.

Lemma signed_numerator_some a n d r :
  checked_mul_div_with_signed_numerator a n d = Some r ->
  d <> 0 /\ r = Z.sgn n * (a * Z.abs n / d) /\ in_i r.
Proof.
  unfold checked_mul_div_with_signed_numerator. unfold_num_tests.
  intros Hr. num_inv; (split; [done|]).
  - rewrite Z.sgn_pos by done. by rewrite Z.mul_1_l.
  - destruct (Z.eq_dec n 0) as [->|].
    + by rewrite !Z.mul_0_r, Z.div_0_l in *.
    + rewrite Z.sgn_neg by lia. split; [lia|]. by destruct Hr.
Qed.
End NumSpecs.

(** ** The promises of the number layer *)
Section NumTheorems.
Context {I : UInt} {IOk : UIntOk I}.

(** [MulDiv::checked_mul_div] computes [floor(self * numerator / denominator)]
    with full precision, and [checked_mul_div_ceil] the ceiling: on in-range operands
    each returns a value exactly when the denominator is non-zero and the rounded
    quotient fits the type, and that value is the correctly rounded one. *)
Theorem checked_mul_div_rounding a n d :
  in_u a -> in_u n -> in_u d ->
  (forall r, checked_mul_div a n d = Some r <->
     0 < d /\ r * d <= a * n < (r + 1) * d /\ r <= u_max) /\
  (forall r, checked_mul_div_ceil a n d = Some r <->
     0 < d /\ (r - 1) * d < a * n <= r * d /\ r <= u_max).
Proof.
  intros Ha Hn Hd. unfold in_u in Ha, Hn, Hd. assert (0 <= a * n) by lia.
  split; intros r; [rewrite checked_mul_div_some|rewrite checked_mul_div_ceil_some]; unfold in_u.
  - split.
    + intros (? & -> & ?). pose proof (div_mul_le (a * n) d). pose proof (div_mul_gt (a * n) d). lia.
    + intros (? & ? & ?). assert (r = a * n / d) as ->.
      { apply Z.div_unique with (a * n - d * r); lia. }
      pose proof (div_nonneg (a * n) d). lia.
  - split.
    + intros (? & -> & ?). pose proof (div_ceil_spec (a * n) d). lia.
    + intros (? & ? & ?). pose proof (div_ceil_spec (a * n) d ltac:(lia)).
      pose proof (div_ceil_nonneg (a * n) d ltac:(lia) ltac:(lia)).
      assert (r = div_ceil (a * n) d) as -> by nia. lia.
Qed.

Lemma quot_round_up a b : 0 < b -> 0 < a ->
  (Z.quot (a + b - 1) b - 1) * b < a <= Z.quot (a + b - 1) b * b.
Proof.
  intros. rewrite Z.quot_div_nonneg by lia.
  pose proof (div_mul_le (a + b - 1) b). pose proof (div_mul_gt (a + b - 1) b). lia.
Qed.

(** The rounding of [as_divisor_to_round_up_magnitude_div], for its callers. *)
Lemma round_up_magnitude_div_some self dividend r :
  in_u self ->
  as_divisor_to_round_up_magnitude_div self dividend = Some r ->
  Z.abs r * self >= Z.abs dividend /\ (Z.abs r - 1) * self < Z.abs dividend
  /\ 0 <= r * dividend.
Proof.
  unfold as_divisor_to_round_up_magnitude_div. unfold_num_tests. intros Hs Hr.
  unfold in_u in Hs. num_inv.
  - assert (Z.quot (dividend - self + 1) self = - Z.quot (- dividend + self - 1) self) as ->.
    { rewrite <- Z.quot_opp_l by lia. f_equal. lia. }
    pose proof (quot_round_up (- dividend) self ltac:(lia) ltac:(lia)).
    assert (0 <= Z.quot (- dividend + self - 1) self) by (apply Z.quot_pos; lia).
    rewrite (Z.abs_neq dividend), Z.abs_opp, Z.abs_eq by lia. nia.
  - assert (0 <= Z.quot (dividend + self - 1) self) by (apply Z.quot_pos; lia).
    destruct (Z.eq_dec dividend 0) as [->|].
    + rewrite Z.quot_small by lia. simpl. lia.
    + pose proof (quot_round_up dividend self ltac:(lia) ltac:(lia)).
      rewrite !Z.abs_eq by lia. nia.
Qed.

(** [as_divisor_to_round_up_magnitude_div] divides rounding away from zero: the
    magnitude of the result is the ceiling of [|dividend| / self] and the result
    has the dividend's sign. *)
Theorem round_up_magnitude_div_spec self dividend r :
  in_u self ->
  as_divisor_to_round_up_magnitude_div self dividend = Some r ->
  Z.abs r * self >= Z.abs dividend /\ (Z.abs r - 1) * self < Z.abs dividend
  /\ 0 <= r * dividend.
Proof. apply round_up_magnitude_div_some. Qed.

(** The clamp of [bound_magnitude], for its callers. *)
Lemma bound_magnitude_clamp value min max r :
  in_i value -> in_u min -> in_u max ->
  bound_magnitude value min max = Ok r ->
  min <= Z.abs r <= max
  /\ (min <= Z.abs value <= max -> r = value)
  /\ (value < 0 -> r <= 0) /\ (0 <= value -> 0 <= r)
  /\ Z.abs r = Z.max min (Z.min max (Z.abs value)).
Proof.
  unfold bound_magnitude, to_signed_with_sign. unfold_num_tests. intros Hv Hmin Hmax Hr.
  unfold in_u in Hmin, Hmax. num_inv; lia.
Qed.

(** [Unsigned::bound_magnitude] clamps the magnitude of a value into [min, max] and
    keeps its sign (zero counts as positive); a value already within the bounds is
    returned as it is. It fails exactly for [min > max] or when the bound it has to return
    cannot be represented by the signed type; but, against its documentation ("return error if min is greater than the
    maximum value representable by Self::Signed"), the least signed value with [min]
    one above the signed maximum is accepted, because no conversion is needed. *)
Theorem bound_magnitude_spec value min max :
  in_i value -> in_u min -> in_u max ->
  (forall r, bound_magnitude value min max = Ok r ->
     min <= Z.abs r <= max
     /\ (min <= Z.abs value <= max -> r = value)
     /\ (value < 0 -> r <= 0) /\ (0 <= value -> 0 <= r)
     /\ Z.abs r = Z.max min (Z.min max (Z.abs value)))
  /\ (is_ok (bound_magnitude value min max) = false <->
     max < min \/ (min <= max /\ Z.abs value < min /\ i_max < min))
  /\ bound_magnitude i_min (i_max + 1) u_max = Ok i_min.
Proof.
  intros Hv Hmin Hmax. split; [intros r; by apply bound_magnitude_clamp|]. revert Hv Hmin Hmax.
  unfold in_i, in_u. destruct bounds_linear as (h & ? & Hu & Hi & Hm).
  intros Hv Hmin Hmax. split.
  - unfold bound_magnitude, to_signed_with_sign, to_opposite_signed, to_signed, ineg, try_i.
    unfold_num_tests. rewrite Hu, Hi, Hm in *.
    repeat match goal with
    | |- context [?a <? ?b] => destruct (Z.ltb_spec a b); simpl; try lia
    end; unfold rbind, ok_or;
    repeat match goal with
    | |- context [?a <=? ?b] => destruct (Z.leb_spec a b); simpl; try lia
    end.
  - unfold bound_magnitude. unfold_num_tests. rewrite Hu, Hi, Hm.
    repeat match goal with
    | |- context [?a <? ?b] => destruct (Z.ltb_spec a b); try lia
    end. done.
Qed.
End NumTheorems.

Example checked_mul_div_rounding_example : @checked_mul_div_ceil u64 10 7 3 = Some 24.
Proof.
  apply (checked_mul_div_rounding (I:=u64) 10 7 3); vm_compute; repeat split; discriminate.
Defined.

Example round_up_magnitude_div_spec_example : Z.abs (-2) * 3 >= Z.abs (-4).
Proof.
  apply (round_up_magnitude_div_spec (I:=u64) 3 (-4) (-2)); vm_compute; repeat split; discriminate.
Defined.

Example bound_magnitude_spec_example :
  124 <= Z.abs (-124) <= 256
  /\ @bound_magnitude u64 (- 2 ^ 63) (2 ^ 63) (2 ^ 64 - 1) = Ok (- 2 ^ 63).
Proof.
  destruct (bound_magnitude_spec (I:=u64) (-123) 124 256) as (Hr & _ & He);
    [vm_compute; repeat split; discriminate..|].
  split; [apply Hr; vm_compute; reflexivity|exact He].
Defined.
