(* ===== verification/Fixed.v ===== *)
(** * Fixed-point arithmetic ([crates/gmsol-model/src/fixed.rs], [utils.rs])

    The unit of [DECIMALS] decimals, the power of the two number types, and
    the conversions between amounts, values and factors. The fractional power
    is computed by the third-party crate [rust_decimal]; it is the parameter
    [powd] of the two instances. *)
From S2P Require Import Prelude Kinds Num.

(** Trait [FixedPointOps]. *)
Class FixedPointOps (I : UInt) : Type := {
  DECIMALS : Z;
  checked_pow_fixed : Z -> Z -> option Z;
}.

Definition UNIT {I : UInt} {F : FixedPointOps I} : Z := 10 ^ DECIMALS.

(** What the components rely on: the unit fits the signed type and a power of
    in-range operands is in range. *)
Class FixedPointOk {I : UInt} (F : FixedPointOps I) : Prop := {
  decimals_nonneg : 0 <= DECIMALS;
  unit_fits : UNIT <= i_max;
  pow_in_range a e r : in_u a -> in_u e -> checked_pow_fixed a e = Some r -> in_u r;
}.

(** ** The power of [u64] and of [u128] *)

(** The loop [for _ in 0..exp { ans = ans.checked_mul(&base)?; }]. *)
Fixpoint pow_loop `{UInt} (exp : nat) (unit base ans : Z) : option Z :=
  match exp with
  | O => Some ans
  | S n => let? ans' := checked_mul_div ans base unit in pow_loop n unit base ans'
  end.

Section Pow.
(** [powd scale value exponent]: [rust_decimal]'s [checked_powd] of the
    decimals with these mantissas, rescaled to [scale], its mantissa. *)
Variable powd : Z -> Z -> Z -> option Z.

Definition checked_pow_fixed_u64 (decimals self exponent : Z) : option Z :=
  let unit := 10 ^ decimals in
  if exponent mod unit =? 0 then
    @pow_loop u64 (Z.to_nat (exponent / unit)) unit self unit
  else if 28 <? decimals then None
  else
    let? value := @try_i u64 self in
    let? exponent := @try_i u64 exponent in
    let? mantissa := powd decimals value exponent in
    @try_u u64 mantissa.

(** The decimals of [Convert = U64D9]. *)
Definition CONVERT_DECIMALS : Z := 9.

Definition convert_to (decimals value : Z) : option Z :=
  if CONVERT_DECIMALS <? decimals then
    @try_u u64 (value / 10 ^ (decimals - CONVERT_DECIMALS))
  else if decimals <? CONVERT_DECIMALS then
    let? v := @umul u128 value (10 ^ (CONVERT_DECIMALS - decimals)) in
    @try_u u64 v
  else @try_u u64 value.

Definition convert_from (decimals value : Z) : option Z :=
  if CONVERT_DECIMALS <? decimals then
    @umul u128 value (10 ^ (decimals - CONVERT_DECIMALS))
  else if decimals <? CONVERT_DECIMALS then
    Some (value / 10 ^ (CONVERT_DECIMALS - decimals))
  else Some value.

Definition checked_pow_fixed_u128 (decimals self exponent : Z) : option Z :=
  let unit := 10 ^ decimals in
  if exponent mod unit =? 0 then
    @pow_loop u128 (Z.to_nat (exponent / unit)) unit self unit
  else
    let? value := convert_to decimals self in
    let? exponent := convert_to decimals exponent in
    let? ans := checked_pow_fixed_u64 CONVERT_DECIMALS value exponent in
    convert_from decimals ans.

Definition u64_fixed (decimals : Z) : FixedPointOps u64 := {|
  DECIMALS := decimals;
  checked_pow_fixed := checked_pow_fixed_u64 decimals;
|}.

Definition u128_fixed (decimals : Z) : FixedPointOps u128 := {|
  DECIMALS := decimals;
  checked_pow_fixed := checked_pow_fixed_u128 decimals;
|}.
End Pow.

(** ** [utils.rs] *)
Section Utils.
Context {I : UInt} {F : FixedPointOps I}.

(** [Fixed::checked_mul] and [Fixed::checked_pow] on the inner integers. *)
Definition fixed_checked_mul (self v : Z) : option Z := checked_mul_div self v UNIT.
Definition fixed_checked_pow (self exponent : Z) : option Z := checked_pow_fixed self exponent.

Definition usd_to_market_token_amount
    (usd_value pool_value supply usd_to_amount_divisor : Z) : option Z :=
  if is_zero usd_to_amount_divisor then None
  else if is_zero supply && is_zero pool_value then
    udiv usd_value usd_to_amount_divisor
  else if is_zero supply && negb (is_zero pool_value) then
    let? total := uadd pool_value usd_value in
    udiv total usd_to_amount_divisor
  else checked_mul_div supply usd_value pool_value.

Definition market_token_amount_to_usd (amount pool_value supply : Z) : option Z :=
  checked_mul_div pool_value amount supply.

Definition apply_exponent_factor_wrapped (value exponent : Z) : option Z :=
  match value ?= UNIT with
  | Lt => Some 0
  | Eq => Some UNIT
  | Gt =>
      if is_zero exponent then Some UNIT
      else if exponent =? UNIT then Some value
      else fixed_checked_pow value exponent
  end.

Definition apply_exponent_factor (value exponent_factor : Z) : option Z :=
  apply_exponent_factor_wrapped value exponent_factor.

Definition apply_factors (value factor exponent_factor : Z) : result Z :=
  let! p := ok_or (apply_exponent_factor_wrapped value exponent_factor) PowComputation in
  ok_or (fixed_checked_mul p factor) Overflow.

Definition apply_factor (value factor : Z) : option Z := checked_mul_div value factor UNIT.

Definition div_to_factor (value divisor : Z) (round_up_magnitude : bool) : option Z :=
  if is_zero divisor then Some 0
  else if round_up_magnitude then checked_mul_div_ceil value UNIT divisor
  else checked_mul_div value UNIT divisor.

Definition div_to_factor_signed (value divisor : Z) : option Z :=
  if is_zero divisor then Some 0
  else checked_mul_div_with_signed_numerator UNIT value divisor.
End Utils.

(** ** Facts about the unit and the conversions *)
Section FixedFacts.
Context {I : UInt} {IOk : UIntOk I} {F : FixedPointOps I} {FOk : FixedPointOk F}.

Lemma unit_pos : 0 < UNIT.
Proof. unfold UNIT. apply Z.pow_pos_nonneg; [lia|apply decimals_nonneg]. Qed.

Lemma unit_in_u : in_u UNIT.
Proof.
  pose proof unit_pos. pose proof unit_fits.
  unfold in_u. destruct bounds_linear as (h & ? & -> & Hi & _). lia.
Qed.

Lemma apply_factor_some v f r :
  apply_factor v f = Some r <-> r = v * f / UNIT /\ in_u r.
Proof.
  unfold apply_factor. rewrite checked_mul_div_some. pose proof unit_pos.
  split; [tauto|]. intros [? ?]. split; [lia|tauto].
Qed.

Lemma apply_exponent_factor_in_range v e r :
  in_u v -> in_u e -> apply_exponent_factor_wrapped v e = Some r -> in_u r.
Proof.
  unfold apply_exponent_factor_wrapped. pose proof unit_in_u. intros Hv He Hr.
  destruct (_ ?= _).
  - by injection Hr as <-.
  - injection Hr as <-. unfold in_u in *. lia.
  - inv_ok; try done. eapply (pow_in_range v e); eauto.
Qed.

(** The factor of a value is a floored multiple of a power that does not depend
    on the factor. *)
Lemma apply_factors_ok v f e r :
  in_u v -> in_u e -> apply_factors v f e = Ok r ->
  exists p, apply_exponent_factor_wrapped v e = Some p /\ in_u p /\ r = p * f / UNIT /\ in_u r.
Proof.
  unfold apply_factors, fixed_checked_mul. intros Hv He Hr. num_inv.
  exists v0. split_and!; try done. eapply (apply_exponent_factor_in_range v e); eauto.
Qed.

Lemma div_to_factor_some v d up r :
  0 <= v -> 0 <= d -> div_to_factor v d up = Some r -> 0 <= r /\ (d = 0 -> r = 0) /\
  (up = false -> d <> 0 -> r = v * UNIT / d).
Proof.
  unfold div_to_factor. unfold_num_tests. intros ?? Hr. pose proof unit_pos.
  num_inv; split_and!; try lia; try done; unfold in_u in *; lia.
Qed.
End FixedFacts.

Ltac fixed_inv_step :=
  match goal with
  | H : apply_factor _ _ = Some _ |- _ => apply apply_factor_some in H as [-> H]
  | H : checked_add_with_signed _ _ = Some _ |- _ =>
      apply checked_add_with_signed_some in H as [-> H]
  | H : checked_sub_with_signed _ _ = Some _ |- _ =>
      apply checked_sub_with_signed_some in H as [-> H]
  | H : checked_signed_sub _ _ = Ok _ |- _ => apply checked_signed_sub_ok in H as [-> H]
  end.
Ltac code_inv := repeat (inv_ok_step || num_inv_step || fixed_inv_step); bool_to_prop.

(** ** The two number types satisfy the interface *)
Section Instances.
Variable powd : Z -> Z -> Z -> option Z.

Lemma pow_loop_in_range `{UInt} n unit base ans r :
  in_u ans -> pow_loop n unit base ans = Some r -> in_u r.
Proof.
  revert ans. induction n as [|n IH]; simpl; intros ans Ha Hr; num_inv; [done|].
  eapply IH; [|done]. done.
Qed.

Lemma unit_in_range `{UInt} D : 0 <= D -> 10 ^ D <= u_max -> in_u (10 ^ D).
Proof. intros. unfold in_u. split; [|done]. apply Z.pow_nonneg. lia. Qed.

Lemma checked_pow_fixed_u64_in_range D a e r :
  0 <= D -> 10 ^ D <= @u_max u64 -> checked_pow_fixed_u64 powd D a e = Some r -> @in_u u64 r.
Proof.
  unfold checked_pow_fixed_u64. intros HD HU Hr. num_inv; [|done].
  eapply pow_loop_in_range; [|done]. by apply unit_in_range.
Qed.

Lemma u64_fixed_ok D : 0 <= D -> 10 ^ D <= @i_max u64 -> FixedPointOk (u64_fixed powd D).
Proof.
  intros HD HU. split; [done|done|]. simpl. intros a e r _ _. apply checked_pow_fixed_u64_in_range; [done|].
  etransitivity; [exact HU|]. by vm_compute.
Qed.

Lemma u128_fixed_ok D : 0 <= D -> 10 ^ D <= @i_max u128 -> FixedPointOk (u128_fixed powd D).
Proof.
  intros HD HU. split; [done|done|]. simpl. unfold checked_pow_fixed_u128, convert_from.
  assert (10 ^ D <= @u_max u128) by (etransitivity; [exact HU|]; by vm_compute).
  intros a e r _ _ Hr. num_inv; [|done|..].
  - eapply pow_loop_in_range; [|done]. by apply unit_in_range.
  - apply checked_pow_fixed_u64_in_range in Hv1; [|done|by vm_compute].
    assert (Hm : @u_max u64 <= @u_max u128) by by vm_compute. unfold in_u in *.
    assert (0 < 10 ^ (CONVERT_DECIMALS - D)) by (apply Z.pow_pos_nonneg; lia).
    split; [by apply div_nonneg; lia|].
    assert (v1 / 10 ^ (CONVERT_DECIMALS - D) <= v1) by (apply Z.div_le_upper_bound; nia). lia.
  - apply checked_pow_fixed_u64_in_range in Hv1; [|done|by vm_compute].
    assert (Hm : @u_max u64 <= @u_max u128) by by vm_compute. unfold in_u in *. lia.
Qed.

(** The instances the crate's tests and the program use. *)
#[export] Instance u64_9_ok : FixedPointOk (u64_fixed powd 9).
Proof. apply u64_fixed_ok; [lia|by vm_compute]. Qed.
#[export] Instance u128_20_ok : FixedPointOk (u128_fixed powd 20).
Proof. apply u128_fixed_ok; [lia|by vm_compute]. Qed.

(** ** Specification of the power at unit exponents *)
Lemma pow_loop_bound `{UInt} n unit base ans r :
  0 < unit -> 0 <= base -> 0 <= ans -> pow_loop n unit base ans = Some r ->
  0 <= r /\ r * unit ^ Z.of_nat n <= ans * base ^ Z.of_nat n.
Proof.
  intros Hu Hb. revert ans. induction n as [|n IH]; intros ans Ha Hr; cbn [pow_loop] in Hr.
  - num_inv. change (Z.of_nat 0) with 0. rewrite !Z.pow_0_r. lia.
  - num_inv. rewrite !Nat2Z.inj_succ, !Z.pow_succ_r by lia.
    apply IH in Hr as [? Hr]; [|unfold in_u in *; lia]. split; [done|].
    pose proof (div_mul_le (ans * base) unit Hu).
    assert (0 <= base ^ Z.of_nat n) by (apply Z.pow_nonneg; lia).
    assert (0 <= unit ^ Z.of_nat n) by (apply Z.pow_nonneg; lia).
    transitivity (unit * (ans * base / unit * base ^ Z.of_nat n)); nia.
Qed.

Lemma pow_loop_integer_base `{UInt} n unit b ans r :
  0 < unit -> pow_loop n unit (b * unit) ans = Some r -> r = ans * b ^ Z.of_nat n.
Proof.
  intros Hu. revert ans. induction n as [|n IH]; intros ans Hr; cbn [pow_loop] in Hr.
  - num_inv. change (Z.of_nat 0) with 0. rewrite Z.pow_0_r. lia.
  - num_inv. rewrite Nat2Z.inj_succ, Z.pow_succ_r by lia. apply IH in Hr as ->.
    rewrite Z.mul_assoc, Z.div_mul by lia. lia.
Qed.

(** At an exponent of [k] whole units, both [checked_pow_fixed] implementations
    return a value that never exceeds the true power [unit * (self/unit)^k], and that
    is exact when the base is a whole number of units; they do not call [rust_decimal]. *)
Theorem pow_unit_exponent D k self r :
  0 <= D -> 0 <= k -> 0 <= self ->
  checked_pow_fixed_u64 powd D self (k * 10 ^ D) = Some r \/
  checked_pow_fixed_u128 powd D self (k * 10 ^ D) = Some r ->
  0 <= r /\ r * (10 ^ D) ^ k <= 10 ^ D * self ^ k /\
  (forall b, self = b * 10 ^ D -> r = 10 ^ D * b ^ k).
Proof.
  intros HD Hk Hs Hr. assert (Hu : 0 < 10 ^ D) by (apply Z.pow_pos_nonneg; lia).
  assert (exists J : UInt, pow_loop (Z.to_nat k) (10 ^ D) self (10 ^ D) = Some r) as [J HJ].
  { unfold checked_pow_fixed_u64, checked_pow_fixed_u128 in Hr.
    rewrite Z.mod_mul, Z.div_mul in Hr by lia.
    change (0 =? 0) with true in Hr. destruct Hr as [Hr|Hr]; eauto. }
  pose proof (pow_loop_bound _ _ _ _ _ Hu Hs (Z.lt_le_incl _ _ Hu) HJ) as [? Hle].
  rewrite Z2Nat.id in Hle by done. split_and!; [done|done|].
  intros b ->. apply pow_loop_integer_base in HJ; [|done]. by rewrite Z2Nat.id in HJ.
Qed.

End Instances.

(** The square of 1.5 with 20 decimals, whatever [rust_decimal] would do. *)
Example pow_unit_exponent_example :
  225 * 10 ^ 18 * (10 ^ 20) ^ 2 <= 10 ^ 20 * (15 * 10 ^ 19) ^ 2.
Proof.
  apply (pow_unit_exponent (fun _ _ _ => None) 20 2 (15 * 10 ^ 19) (225 * 10 ^ 18));
    [lia|lia|lia|right; vm_compute; reflexivity].
Defined.

(** ** Conversions between values and market tokens *)
Section Conversions.
Context {I : UInt} {IOk : UIntOk I} {F : FixedPointOps I} {FOk : FixedPointOk F}.

(** A conversion to market tokens and back does not gain. *)
Lemma market_token_round_trip usd pool supply divisor amount usd' :
  0 <= usd -> 0 < pool -> 0 < supply ->
  usd_to_market_token_amount usd pool supply divisor = Some amount ->
  market_token_amount_to_usd amount pool supply = Some usd' ->
  usd' <= usd /\ (usd - usd') * supply < pool + supply.
Proof.
  unfold usd_to_market_token_amount, market_token_amount_to_usd. unfold_num_tests.
  intros ??? Ha Hu. num_inv; try lia.
  set (a := supply * usd / pool) in *.
  pose proof (div_mul_le (supply * usd) pool). pose proof (div_mul_gt (supply * usd) pool).
  pose proof (div_mul_le (pool * a) supply). pose proof (div_mul_gt (pool * a) supply).
  fold a in H4, H5. split; nia.
Qed.

(** The first tokens of a market. *)
Lemma first_market_tokens usd pool divisor :
  in_u usd -> in_u pool -> in_u divisor ->
  usd_to_market_token_amount usd pool 0 divisor =
    (if divisor =? 0 then None
     else if u_max <? pool + usd then None else Some ((pool + usd) / divisor)).
Proof.
  unfold usd_to_market_token_amount, udiv, uadd, try_u, in_u. unfold_num_tests. intros Hu Hp Hd.
  change (0 =? 0) with true. cbn [andb negb].
  destruct (Z.eqb_spec divisor 0); [done|].
  pose proof (div_nonneg (pool + usd) divisor ltac:(lia) ltac:(lia)).
  assert ((pool + usd) / divisor <= pool + usd) by (apply Z.div_le_upper_bound; nia).
  destruct (Z.eqb_spec pool 0) as [->|]; cbn [negb].
  - rewrite Z.add_0_l in *. destruct (Z.ltb_spec u_max usd); [lia|].
    destruct (Z.leb_spec 0 (usd / divisor)); [|lia].
    destruct (Z.leb_spec (usd / divisor) u_max); [done|lia].
  - destruct (Z.ltb_spec u_max (pool + usd)).
    + destruct (Z.leb_spec 0 (pool + usd)), (Z.leb_spec (pool + usd) u_max); try lia; done.
    + destruct (Z.leb_spec 0 (pool + usd)), (Z.leb_spec (pool + usd) u_max); try lia.
      unfold obind; cbn [andb]. destruct (Z.eqb_spec divisor 0); [done|].
      destruct (Z.leb_spec 0 ((pool + usd) / divisor)), (Z.leb_spec ((pool + usd) / divisor) u_max);
        try lia; done.
Qed.

(** The conversion of value to market tokens. With a supply and a positive pool value, a
    value converted to tokens by [usd_to_market_token_amount] and back by
    [market_token_amount_to_usd] is never worth more than it was, and it loses less than the
    value of one market token. In an empty market the first tokens are issued at the fixed
    rate [usd_to_amount_divisor], on top of whatever value the pool already holds, and a zero
    divisor is refused rather than divided by. *)
Theorem market_token_conversion usd pool supply divisor :
  in_u usd -> in_u pool -> in_u divisor ->
  (forall amount usd', 0 < pool -> 0 < supply ->
     usd_to_market_token_amount usd pool supply divisor = Some amount ->
     market_token_amount_to_usd amount pool supply = Some usd' ->
     usd' <= usd /\ (usd - usd') * supply < pool + supply)
  /\ usd_to_market_token_amount usd pool 0 divisor =
      (if divisor =? 0 then None
       else if u_max <? pool + usd then None else Some ((pool + usd) / divisor)).
Proof.
  intros Hu Hp Hd. split; [|by apply first_market_tokens].
  intros amount usd' ??. apply market_token_round_trip; [apply Hu|done..].
Qed.
End Conversions.

Example market_token_conversion_example :
  (99 <= 100 /\ (100 - 99) * 777 < 1000 + 777)
  /\ @usd_to_market_token_amount u64 100 1000 0 10 = Some 110.
Proof.
  destruct (market_token_conversion (I:=u64) 100 1000 777 10) as [Hr Hf];
    [vm_compute; split; discriminate..|].
  split; [|rewrite Hf; reflexivity].
  apply (Hr 77 99); [lia|lia|vm_compute; reflexivity|vm_compute; reflexivity].
Defined.
