(* ===== verification/Price.v ===== *)
(** * Prices ([crates/gmsol-model/src/price.rs])

    A price is a [min, max] pair; the side that is picked decides who bears
    the spread. [mid] panics when it cannot be computed, as in the source. *)
From S2P Require Import Prelude Kinds Num.

Record Price : Type := mkPrice { price_min : Z; price_max : Z }.

Record Prices : Type := mkPrices {
  index_token_price : Price;
  long_token_price : Price;
  short_token_price : Price;
}.

Definition pick_price_for_pnl (self : Price) (is_long maximize : bool) : Z :=
  if xorb is_long maximize then price_min self else price_max self.

Definition pick_price (self : Price) (maximize : bool) : Z :=
  if maximize then price_max self else price_min self.

Definition has_zero (self : Price) : bool :=
  is_zero (price_min self) || is_zero (price_max self).

Section Price.
Context {I : UInt}.

Definition checked_mid (self : Price) : option Z :=
  let? two := uadd 1 1 in
  let? p := uadd (price_min self) (price_max self) in
  udiv p two.

Definition mid (self : Price) : result Z :=
  expect (checked_mid self) "cannot calculate the mid price".

Definition price_is_valid (self : Price) : bool :=
  negb (is_zero (price_min self)) && negb (is_zero (price_max self))
  && match checked_mid self with Some _ => true | None => false end.

Definition collateral_token_price (self : Prices) (is_long : bool) : Price :=
  if is_long then long_token_price self else short_token_price self.

Definition prices_is_valid (self : Prices) : bool :=
  price_is_valid (index_token_price self)
  && price_is_valid (long_token_price self)
  && price_is_valid (short_token_price self).

Definition validate_prices (self : Prices) : result unit :=
  if prices_is_valid self then Ok tt else Err (InvalidArgument "invalid prices").

(** The representation invariant: both ends are values of the unsigned type. *)
Definition price_in_range (p : Price) : Prop := in_u (price_min p) /\ in_u (price_max p).
Definition prices_in_range (p : Prices) : Prop :=
  price_in_range (index_token_price p) /\ price_in_range (long_token_price p)
  /\ price_in_range (short_token_price p).

Lemma checked_mid_some p r :
  checked_mid p = Some r ->
  r = (price_min p + price_max p) / 2 /\ in_u (price_min p + price_max p).
Proof. unfold checked_mid. intros Hr. num_inv. done. Qed.

Lemma price_valid_pos p :
  price_in_range p -> price_is_valid p = true ->
  0 < price_min p /\ 0 < price_max p /\
  mid p = Ok ((price_min p + price_max p) / 2) /\ in_u (price_min p + price_max p).
Proof.
  unfold price_in_range, price_is_valid, mid, in_u. unfold_num_tests. intros Hp Hv.
  destruct (checked_mid p) as [m|] eqn:Hm; [|by rewrite andb_false_r in Hv].
  bool_to_prop. apply checked_mid_some in Hm as [-> Hm]. unfold in_u in Hm.
  split_and!; try lia. done.
Qed.

Lemma validate_prices_ok p u :
  validate_prices p = Ok u ->
  price_is_valid (index_token_price p) = true /\
  price_is_valid (long_token_price p) = true /\
  price_is_valid (short_token_price p) = true.
Proof. unfold validate_prices, prices_is_valid. intros Hv. num_inv. done. Qed.

Lemma pick_price_pos p b : 0 < price_min p -> 0 < price_max p -> 0 < pick_price p b.
Proof. unfold pick_price. by destruct b. Qed.

Lemma has_zero_false p : has_zero p = false -> price_min p <> 0 /\ price_max p <> 0.
Proof. unfold has_zero. unfold_num_tests. intros Hz. num_inv. done. Qed.
End Price.
