(* ===== verification/Params.v ===== *)
(** * Market parameters and fees ([crates/gmsol-model/src/params])

    The parameter records of a market, the fee computations on them and the
    records in which fees are reported. Amounts are split between the pool and
    the fee receiver; the theorems state that the split loses nothing. *)
From S2P Require Import Prelude Kinds Num Fixed Price.

(** [params/price_impact.rs]. *)
Record PriceImpactParams : Type := mkPriceImpactParams {
  impact_exponent : Z;
  impact_positive_factor : Z;
  impact_negative_factor : Z;
}.

Definition adjusted_factors (self : PriceImpactParams) : Z * Z :=
  if impact_negative_factor self <? impact_positive_factor self then
    (impact_negative_factor self, impact_negative_factor self)
  else (impact_positive_factor self, impact_negative_factor self).

(** [params/position.rs]. *)
Record PositionParams : Type := mkPositionParams {
  min_position_size_usd : Z;
  min_collateral_value : Z;
  min_collateral_factor : Z;
  max_positive_position_impact_factor : Z;
  max_negative_position_impact_factor : Z;
  max_position_impact_factor_for_liquidations : Z;
}.

Record PositionImpactDistributionParams : Type := mkPositionImpactDistributionParams {
  distribute_factor : Z;
  min_position_impact_pool_amount : Z;
}.

(** [params/fee.rs]. *)
Record FeeParams : Type := mkFeeParams {
  positive_impact_fee_factor : Z;
  negative_impact_fee_factor : Z;
  fee_receiver_factor : Z;
  fee_discount_factor : option Z;
}.

Record BorrowingFeeParams : Type := mkBorrowingFeeParams {
  borrowing_receiver_factor : Z;
  exponent_for_long : Z;
  exponent_for_short : Z;
  factor_for_long : Z;
  factor_for_short : Z;
  skip_borrowing_fee_for_smaller_side : bool;
}.

Record BorrowingFeeKinkModelParamsForOneSide : Type := mkKinkOneSide {
  kink_optimal_usage_factor : Z;
  kink_base_borrowing_factor : Z;
  kink_above_optimal_usage_borrowing_factor : Z;
}.

Record BorrowingFeeKinkModelParams : Type := mkKink {
  kink_long : BorrowingFeeKinkModelParamsForOneSide;
  kink_short : BorrowingFeeKinkModelParamsForOneSide;
}.

Record FundingFeeParams : Type := mkFundingFeeParams {
  funding_exponent : Z;
  funding_factor : Z;
  increase_factor_per_second : Z;
  decrease_factor_per_second : Z;
  max_factor_per_second : Z;
  min_factor_per_second : Z;
  threshold_for_stable_funding : Z;
  threshold_for_decrease_funding : Z;
}.

Record LiquidationFeeParams : Type := mkLiquidationFeeParams {
  liquidation_factor : Z;
  liquidation_receiver_factor : Z;
}.

(** The amounts in which fees are reported. *)
Record Fees : Type := mkFees {
  fee_amount_for_receiver : Z;
  fee_amount_for_pool : Z;
}.
Definition Fees_default : Fees := mkFees 0 0.

Record OrderFees : Type := mkOrderFees {
  order_base : Fees;
  order_fee_value : Z;
}.
Definition OrderFees_default : OrderFees := mkOrderFees Fees_default 0.

Record BorrowingFees : Type := mkBorrowingFees {
  borrowing_fee_amount : Z;
  borrowing_fee_amount_for_receiver : Z;
}.
Definition BorrowingFees_default : BorrowingFees := mkBorrowingFees 0 0.

Record FundingFees : Type := mkFundingFees {
  funding_fee_amount : Z;
  claimable_long_token_amount : Z;
  claimable_short_token_amount : Z;
}.
Definition FundingFees_default : FundingFees := mkFundingFees 0 0 0.

Record LiquidationFees : Type := mkLiquidationFees {
  liquidation_fee_value : Z;
  liquidation_fee_amount : Z;
  liquidation_fee_amount_for_receiver : Z;
}.
Definition LiquidationFees_default : LiquidationFees := mkLiquidationFees 0 0 0.

Record PositionFees : Type := mkPositionFees {
  paid_order_fee_value : Z;
  fees_order : OrderFees;
  fees_borrowing : BorrowingFees;
  fees_funding : FundingFees;
  fees_liquidation : option LiquidationFees;
}.

Definition borrowing_exponent (self : BorrowingFeeParams) (is_long : bool) : Z :=
  if is_long then exponent_for_long self else exponent_for_short self.

Definition borrowing_factor_param (self : BorrowingFeeParams) (is_long : bool) : Z :=
  if is_long then factor_for_long self else factor_for_short self.

Definition params_for_one_side (self : BorrowingFeeKinkModelParams) (is_long : bool)
    : BorrowingFeeKinkModelParamsForOneSide :=
  if is_long then kink_long self else kink_short self.

Inductive FundingRateChangeType : Type := NoChange | Increase | Decrease.

(** [FundingFeeParams::change]. *)
Definition funding_change (self : FundingFeeParams)
    (funding_factor_per_second long_open_interest short_open_interest diff_factor : Z)
    : FundingRateChangeType :=
  let is_skew_the_same_direction_as_funding :=
    (is_positive funding_factor_per_second && (short_open_interest <? long_open_interest))
    || (is_negative funding_factor_per_second && (long_open_interest <? short_open_interest)) in
  if is_skew_the_same_direction_as_funding then
    if threshold_for_stable_funding self <? diff_factor then Increase
    else if diff_factor <? threshold_for_decrease_funding self then Decrease
    else NoChange
  else Increase.

Definition with_discount_factor (self : FeeParams) (factor : Z) : FeeParams :=
  mkFeeParams (positive_impact_fee_factor self) (negative_impact_fee_factor self)
    (fee_receiver_factor self) (Some factor).

Definition fee_factor (self : FeeParams) (is_positive_impact : bool) : Z :=
  if is_positive_impact then positive_impact_fee_factor self
  else negative_impact_fee_factor self.

Definition discount_factor (self : FeeParams) : Z :=
  match fee_discount_factor self with Some f => f | None => 0 end.

Section Params.
Context {I : UInt} {F : FixedPointOps I}.

Definition fee (self : FeeParams) (is_positive_impact : bool) (amount : Z) : option Z :=
  let factor := fee_factor self is_positive_impact in
  let? fee := apply_factor amount factor in
  let? discount := apply_factor fee (discount_factor self) in
  usub fee discount.

Definition receiver_fee (self : FeeParams) (fee_amount : Z) : option Z :=
  apply_factor fee_amount (fee_receiver_factor self).

Definition apply_fees (self : FeeParams) (is_positive_impact : bool) (amount : Z)
    : option (Z * Fees) :=
  let? fee_amount := fee self is_positive_impact amount in
  let? fee_receiver_amount := receiver_fee self fee_amount in
  let? fee_amount_for_pool := usub fee_amount fee_receiver_amount in
  let fees := mkFees fee_receiver_amount fee_amount_for_pool in
  let? amount_after_fees := usub amount fee_amount in
  Some (amount_after_fees, fees).

Definition order_fees (self : FeeParams) (collateral_token_price : Price)
    (size_delta_usd : Z) (is_positive_impact : bool) : result OrderFees :=
  if has_zero collateral_token_price then Err InvalidPrices
  else
    let! fee_value := ok_or (fee self is_positive_impact size_delta_usd)
                        (Computation "calculating order fee value") in
    let! fee_amount := ok_or (udiv fee_value (pick_price collateral_token_price false))
                         (Computation "calculating order fee amount") in
    let! receiver_fee_amount := ok_or (receiver_fee self fee_amount)
                                  (Computation "calculating order receiver fee") in
    let! for_pool := ok_or (usub fee_amount receiver_fee_amount)
                       (Computation "calculating order fee for pool") in
    Ok (mkOrderFees (mkFees receiver_fee_amount for_pool) fee_value).

Definition base_position_fees (self : FeeParams) (collateral_token_price : Price)
    (size_delta_usd : Z) (is_positive_impact : bool) : result PositionFees :=
  let! order_fees := order_fees self collateral_token_price size_delta_usd is_positive_impact in
  (* [liquidation: Default::default()] of an [Option] is [None] *)
  Ok (mkPositionFees (order_fee_value order_fees) order_fees
        BorrowingFees_default FundingFees_default None).

Definition liquidation_fee (self : LiquidationFeeParams) (size_delta_usd : Z)
    (collateral_token_price : Price) : result LiquidationFees :=
  if is_zero (liquidation_factor self) then Ok LiquidationFees_default
  else
    let! fee_value := ok_or (apply_factor size_delta_usd (liquidation_factor self))
                        (Computation "liquidation fee: calculating fee value") in
    let! fee_amount :=
      ok_or (checked_round_up_div fee_value (pick_price collateral_token_price false))
        (Computation "liquidation fee: calculating fee amount") in
    let! fee_amount_for_receiver :=
      ok_or (apply_factor fee_amount (liquidation_receiver_factor self))
        (Computation "liquidation fee: calculating fee amount for receiver") in
    Ok (mkLiquidationFees fee_value fee_amount fee_amount_for_receiver).

Definition borrowing_fee_amount_for_pool (self : BorrowingFees) : result Z :=
  ok_or (usub (borrowing_fee_amount self) (borrowing_fee_amount_for_receiver self))
    (Computation "borrowing fee: calculating fee for pool").

Definition liquidation_fee_amount_for_pool (self : LiquidationFees) : result Z :=
  ok_or (usub (liquidation_fee_amount self) (liquidation_fee_amount_for_receiver self))
    (Computation "liquidation fee: calculating fee for pool").

(** ** [PositionFees] *)

Definition for_receiver (self : PositionFees) : result Z :=
  ok_or
    (let? total := uadd (fee_amount_for_receiver (order_base (fees_order self)))
                     (borrowing_fee_amount_for_receiver (fees_borrowing self)) in
     match fees_liquidation self with
     | Some fees => uadd total (liquidation_fee_amount_for_receiver fees)
     | None => Some total
     end)
    (Computation "calculating fee for receiver").

Definition for_pool (self : PositionFees) : result Z :=
  let! borrowing := borrowing_fee_amount_for_pool (fees_borrowing self) in
  let! total := ok_or (uadd (fee_amount_for_pool (order_base (fees_order self))) borrowing)
                  (Computation "adding borrowing fee for pool") in
  match fees_liquidation self with
  | Some fees =>
      let! l := liquidation_fee_amount_for_pool fees in
      ok_or (uadd total l) (Computation "adding liquidation fee for pool")
  | None => Ok total
  end.

Definition total_cost_excluding_funding (self : PositionFees) : result Z :=
  ok_or
    (let? acc := uadd (fee_amount_for_pool (order_base (fees_order self)))
                   (fee_amount_for_receiver (order_base (fees_order self))) in
     let? acc := uadd acc (borrowing_fee_amount (fees_borrowing self)) in
     match fees_liquidation self with
     | Some fees => uadd acc (liquidation_fee_amount fees)
     | None => Some acc
     end)
    (Computation "overflow while calculating total cost excluding funding").

Definition total_cost_amount (self : PositionFees) : result Z :=
  let! cost := total_cost_excluding_funding self in
  ok_or (uadd cost (funding_fee_amount (fees_funding self))) Overflow.

Definition set_paid_order_fee_value (self : PositionFees) (v : Z) : PositionFees :=
  mkPositionFees v (fees_order self) (fees_borrowing self) (fees_funding self)
    (fees_liquidation self).

Definition clear_fees_excluding_funding (self : PositionFees) : PositionFees :=
  mkPositionFees (paid_order_fee_value self) OrderFees_default BorrowingFees_default
    (fees_funding self) None.

Definition set_borrowing_fees (self : PositionFees) (receiver_factor : Z) (price : Price)
    (value : Z) : result PositionFees :=
  let price := pick_price price false in
  let! amount := ok_or (udiv value price) (Computation "calculating borrowing amount") in
  let! fee_amount_for_receiver :=
    ok_or (apply_factor amount receiver_factor)
      (Computation "calculating borrowing fee amount for receiver") in
  Ok (mkPositionFees (paid_order_fee_value self) (fees_order self)
        (mkBorrowingFees amount fee_amount_for_receiver)
        (fees_funding self) (fees_liquidation self)).

Definition set_funding_fees (self : PositionFees) (fees : FundingFees) : PositionFees :=
  mkPositionFees (paid_order_fee_value self) (fees_order self) (fees_borrowing self) fees
    (fees_liquidation self).

Definition set_liquidation_fees (self : PositionFees) (fees : option LiquidationFees)
    : PositionFees :=
  mkPositionFees (paid_order_fee_value self) (fees_order self) (fees_borrowing self)
    (fees_funding self) fees.
End Params.

Section ParamsFacts.
Context {I : UInt} {IOk : UIntOk I} {F : FixedPointOps I} {FOk : FixedPointOk F}.

Lemma adjusted_factors_le p f g :
  adjusted_factors p = (f, g) -> f <= g /\ g = impact_negative_factor p /\ f <= impact_positive_factor p.
Proof.
  unfold adjusted_factors.
  destruct (Z.ltb_spec (impact_negative_factor p) (impact_positive_factor p));
    intros [= <- <-]; lia.
Qed.

Lemma fee_some p pos amount r :
  fee p pos amount = Some r ->
  exists f d, f = amount * fee_factor p pos / UNIT /\ d = f * discount_factor p / UNIT /\
    r = f - d /\ in_u f /\ in_u d /\ in_u r.
Proof. unfold fee. intros Hr. code_inv. eauto 10. Qed.

Lemma checked_round_up_div_some a d r :
  0 <= a -> 0 <= d -> checked_round_up_div a d = Some r ->
  0 < d /\ a <= r * d /\ (r - 1) * d < a /\ in_u r.
Proof.
  unfold checked_round_up_div. unfold_num_tests. intros ?? Hr. code_inv.
  pose proof (div_mul_le (a + d - 1) d ltac:(lia)).
  pose proof (div_mul_gt (a + d - 1) d ltac:(lia)). split_and!; [lia|lia|lia|done].
Qed.

Lemma order_fees_ok p price size pos o :
  order_fees p price size pos = Ok o ->
  has_zero price = false
  /\ fee p pos size = Some (order_fee_value o)
  /\ fee_amount_for_pool (order_base o) + fee_amount_for_receiver (order_base o)
     = order_fee_value o / price_min price
  /\ in_u (fee_amount_for_pool (order_base o)) /\ in_u (fee_amount_for_receiver (order_base o)).
Proof.
  unfold order_fees, receiver_fee, pick_price. unfold_num_tests. intros Ho.
  destruct (has_zero price) eqn:Hz; [discriminate|].
  inv_ok_step. apply ok_or_ok in Hv. rewrite Hv. code_inv. simpl in *. split_and!; auto. lia.
Qed.

Lemma liquidation_fee_ok l size price lf :
  liquidation_fee l size price = Ok lf ->
  lf = LiquidationFees_default
  \/ liquidation_fee_value lf = size * liquidation_factor l / UNIT
     /\ checked_round_up_div (liquidation_fee_value lf) (price_min price)
        = Some (liquidation_fee_amount lf)
     /\ in_u (liquidation_fee_value lf).
Proof.
  unfold liquidation_fee, pick_price. unfold_num_tests. intros Hf. inv_ok_step; inv_ok_step; [auto|].
  right. do 2 inv_ok_step. apply ok_or_ok in Hv, Hv0. apply apply_factor_some in Hv as [-> Hv].
  code_inv. simpl. auto.
Qed.

(** The split of [apply_fees], for its callers. *)
Lemma apply_fees_split p pos amount after fees :
  apply_fees p pos amount = Some (after, fees) ->
  amount = after + fee_amount_for_pool fees + fee_amount_for_receiver fees
  /\ 0 <= after /\ 0 <= fee_amount_for_pool fees /\ 0 <= fee_amount_for_receiver fees
  /\ (let f := amount * fee_factor p pos / UNIT in
      fee_amount_for_pool fees + fee_amount_for_receiver fees
      = f - f * discount_factor p / UNIT).
Proof.
  unfold apply_fees, receiver_fee. intros Hr. inv_ok. apply fee_some in Hv as (f & d & -> & -> & -> & Hv).
  code_inv. unfold in_u in *. simpl. lia.
Qed.

(** [FeeParams::apply_fees] splits an amount without losing or creating anything: what
    remains plus the fee for the pool plus the fee for the receiver is the amount, and
    the charged fee is the fee factor's share less the discounted part. *)
Theorem apply_fees_conserves p pos amount after fees :
  apply_fees p pos amount = Some (after, fees) ->
  amount = after + fee_amount_for_pool fees + fee_amount_for_receiver fees
  /\ 0 <= after /\ 0 <= fee_amount_for_pool fees /\ 0 <= fee_amount_for_receiver fees
  /\ (let f := amount * fee_factor p pos / UNIT in
      fee_amount_for_pool fees + fee_amount_for_receiver fees
      = f - f * discount_factor p / UNIT).
Proof. apply apply_fees_split. Qed.

(** The split of the cost of a position, for its callers. *)
Lemma position_fees_split fees cost total pool receiver :
  total_cost_excluding_funding fees = Ok cost ->
  total_cost_amount fees = Ok total ->
  for_pool fees = Ok pool ->
  for_receiver fees = Ok receiver ->
  cost = pool + receiver /\ total = pool + receiver + funding_fee_amount (fees_funding fees).
Proof.
  unfold total_cost_amount. intros Hc Ht Hp Hr. inv_ok_step. rewrite Hv in Hc. injection Hc as ->.
  unfold total_cost_excluding_funding, for_pool, for_receiver, liquidation_fee_amount_for_pool,
    borrowing_fee_amount_for_pool in *.
  destruct (fees_liquidation fees); code_inv; lia.
Qed.

(** C40: the two ways the fees of a position leave it agree: the cost charged to the position
    (excluding funding) is exactly what is credited to the pool plus what is credited
    to the receiver; and including funding it is that plus the funding fee. *)
Theorem position_fees_conserve fees cost total pool receiver :
  total_cost_excluding_funding fees = Ok cost ->
  total_cost_amount fees = Ok total ->
  for_pool fees = Ok pool ->
  for_receiver fees = Ok receiver ->
  cost = pool + receiver /\ total = pool + receiver + funding_fee_amount (fees_funding fees).
Proof. apply position_fees_split. Qed.

(** Rounding of the fees of an order: the charged token amount is worth at most the fee
    value (order fees round down), while the liquidation fee amount is worth at least
    its value (liquidation fees round up), each by less than one token. *)
Theorem fee_rounding_direction p l price size pos o lf :
  0 <= size -> 0 <= liquidation_factor l -> price_in_range price -> has_zero price = false ->
  order_fees p price size pos = Ok o ->
  liquidation_fee l size price = Ok lf ->
  let amount := fee_amount_for_pool (order_base o) + fee_amount_for_receiver (order_base o) in
  amount * price_min price <= order_fee_value o < (amount + 1) * price_min price
  /\ liquidation_fee_value lf <= liquidation_fee_amount lf * price_min price
  /\ (liquidation_fee_amount lf - 1) * price_min price < Z.max 1 (liquidation_fee_value lf).
Proof.
  intros Hs Hl [Hp _] Hz Ho Hf amount.
  apply has_zero_false in Hz as [Hz _]. unfold in_u in Hp.
  apply order_fees_ok in Ho as (_ & _ & Ha & _). subst amount. rewrite Ha. split.
  - pose proof (div_mul_le (order_fee_value o) (price_min price) ltac:(lia)).
    pose proof (div_mul_gt (order_fee_value o) (price_min price) ltac:(lia)). lia.
  - apply liquidation_fee_ok in Hf as [->|(-> & Hr & Hv)]; simpl; [lia|].
    unfold in_u in Hv. apply checked_round_up_div_some in Hr; lia.
Qed.
End ParamsFacts.

Definition example_fee_params : FeeParams := mkFeeParams 500000 700000 370000000 None.
Definition example_num := u64_fixed (fun _ _ _ => None) 9.

Example apply_fees_conserves_example :
  1000000 = 999300 + 441 + 259.
Proof.
  apply (apply_fees_conserves (F:=example_num) example_fee_params false 1000000 999300
    (mkFees 259 441)). reflexivity.
Defined.

Definition example_position_fees : PositionFees :=
  mkPositionFees 70 (mkOrderFees (mkFees 3 4) 70) (mkBorrowingFees 9 2) (mkFundingFees 5 0 0)
    (Some (mkLiquidationFees 11 6 1)).

Lemma position_fees_conserve_witness : 22 = 16 + 6 /\ 27 = 16 + 6 + 5.
Proof.
  apply (position_fees_conserve (I:=u64) example_position_fees 22 27 16 6); reflexivity.
Defined.

Example fee_rounding_direction_example : 583 * 12 <= 7000 < (583 + 1) * 12.
Proof.
  apply (fee_rounding_direction (F:=example_num) example_fee_params
    (mkLiquidationFeeParams 2000000 370000000) (mkPrice 12 13) 10000000 false
    (mkOrderFees (mkFees 215 368) 7000) (mkLiquidationFees 20000 1667 616));
    first [reflexivity | vm_compute; repeat split; discriminate].
Defined.
