(* ===== verification/Pool.v ===== *)
(** * Pools ([crates/gmsol-model/src/pool], [programs/gmsol-store/src/states/market/pool.rs])

    A pool keeps a long and a short amount. The traits [Balance] and [Pool] are the
    classes [Balance] and [PoolOps]; what their implementations promise to the
    rest of the model is the class [PoolLaws], proved for the crate's [TestPool]
    and for the store program's [Pool], whose pure form keeps the two sides in
    one field. [PoolDelta] and its price impact follow. *)
From S2P Require Import Prelude Kinds Num Fixed Params.

(** ** [pool/delta.rs]: [Delta] *)
Record Delta : Type := mkDelta { delta_long : option Z; delta_short : option Z }.

Definition new_with_long (amount : Z) : Delta := mkDelta (Some amount) None.
Definition new_with_short (amount : Z) : Delta := mkDelta None (Some amount).
Definition new_one_side (is_long : bool) (amount : Z) : Delta :=
  if is_long then new_with_long amount else new_with_short amount.
Definition new_both_sides (is_long_first : bool) (first second : Z) : Delta :=
  let (long, short) := if is_long_first then (first, second) else (second, first) in
  mkDelta (Some long) (Some short).

(** ** The traits [Balance] and [Pool] *)
Class Balance (B : Type) : Type := {
  long_amount : B -> result Z;
  short_amount : B -> result Z;
}.

(** A method that changes the pool returns the new pool; on an error the pool is
    unchanged. *)
Class PoolOps (P : Type) : Type := {
  #[global] pool_balance :: Balance P;
  apply_delta_to_long_amount : P -> Z -> result P;
  apply_delta_to_short_amount : P -> Z -> result P;
  checked_apply_delta : P -> Delta -> result P;
}.

Definition balance_amount {B} `{Balance B} (self : B) (is_long : bool) : result Z :=
  if is_long then long_amount self else short_amount self.

Definition apply_delta_amount {P} `{PoolOps P} (self : P) (is_long : bool) (delta : Z)
    : result P :=
  if is_long then apply_delta_to_long_amount self delta
  else apply_delta_to_short_amount self delta.

(** What a pool promises: it holds two amounts, the getters return them, and applying a
    delta changes the total by exactly the delta; unless the pool is pure it changes
    exactly the side the delta names. *)
Definition moved {P} (wf : P -> Prop) (pure : P -> bool) (amount : P -> bool -> Z)
    (p : P) (long short : Z) (p' : P) : Prop :=
  wf p' /\ pure p' = pure p
  /\ amount p' true + amount p' false = amount p true + amount p false + long + short
  /\ (pure p = false ->
      amount p' true = amount p true + long /\ amount p' false = amount p false + short).

Class PoolLaws (I : UInt) (P : Type) {O : PoolOps P} : Type := {
  pool_wf : P -> Prop;
  pool_pure : P -> bool;
  pool_amount : P -> bool -> Z;
  pool_long_amount p : pool_wf p -> long_amount p = Ok (pool_amount p true);
  pool_short_amount p : pool_wf p -> short_amount p = Ok (pool_amount p false);
  pool_amount_in_u p b : pool_wf p -> in_u (pool_amount p b);
  apply_long_moves p d p' : pool_wf p -> apply_delta_to_long_amount p d = Ok p' ->
    moved pool_wf pool_pure pool_amount p d 0 p';
  apply_short_moves p d p' : pool_wf p -> apply_delta_to_short_amount p d = Ok p' ->
    moved pool_wf pool_pure pool_amount p 0 d p';
  apply_delta_moves p d p' : pool_wf p -> checked_apply_delta p d = Ok p' ->
    moved pool_wf pool_pure pool_amount p (default 0 (delta_long d)) (default 0 (delta_short d)) p';
  apply_long_calm p d : calm (apply_delta_to_long_amount p d) = true;
  apply_short_calm p d : calm (apply_delta_to_short_amount p d) = true;
}.
#[export] Hint Resolve apply_long_calm apply_short_calm : calm.

Definition pool_moved {I P} {O : PoolOps P} {L : PoolLaws I P} : P -> Z -> Z -> P -> Prop :=
  moved pool_wf pool_pure pool_amount.

Section PoolFacts.
Context {I : UInt} {P : Type} {O : PoolOps P} {L : PoolLaws I P}.
Implicit Types p q : P.

Lemma balance_amount_ok p b : pool_wf p -> balance_amount p b = Ok (pool_amount p b).
Proof. destruct b; [apply pool_long_amount|apply pool_short_amount]. Qed.

Lemma pool_moved_refl p : pool_wf p -> pool_moved p 0 0 p.
Proof. unfold pool_moved, moved. intros. split_and!; auto; lia. Qed.

Lemma pool_moved_trans p l s q l' s' r :
  pool_moved p l s q -> pool_moved q l' s' r -> pool_moved p (l + l') (s + s') r.
Proof.
  unfold pool_moved, moved. intros (? & Hp & ? & Hs) (? & Hp' & ? & Hs').
  split_and!; [done|congruence|lia|]. intros Hpure.
  specialize (Hs Hpure). rewrite <- Hp in Hpure. specialize (Hs' Hpure). lia.
Qed.

Lemma pool_moved_wf p l s q : pool_moved p l s q -> pool_wf q.
Proof. by intros (? & _). Qed.

Lemma apply_delta_amount_moves p b d q :
  pool_wf p -> apply_delta_amount p b d = Ok q ->
  pool_moved p (if b then d else 0) (if b then 0 else d) q.
Proof. destruct b; [apply apply_long_moves|apply apply_short_moves]. Qed.

Lemma apply_delta_amount_calm p b d : calm (apply_delta_amount p b d) = true.
Proof. unfold apply_delta_amount. calm. Qed.

(** A move by equal amounts, written in another way. *)
Lemma pool_moved_eq p l s q l' s' :
  pool_moved p l s q -> l = l' -> s = s' -> pool_moved p l' s' q.
Proof. by intros ? <- <-. Qed.
End PoolFacts.
#[export] Hint Resolve pool_moved_refl pool_moved_wf : rust.

(** ** The pool of the crate's test market ([test.rs]) *)
Record TestPool : Type := mkTestPool { tp_long_amount : Z; tp_short_amount : Z }.

Section TestPool.
Context {I : UInt}.

Definition tp_apply_delta_to_long_amount (self : TestPool) (delta : Z) : result TestPool :=
  let! a :=
    if is_positive delta then ok_or (uadd (tp_long_amount self) (unsigned_abs delta)) Overflow
    else ok_or (usub (tp_long_amount self) (unsigned_abs delta))
           (Computation "decreasing long amount") in
  Ok (mkTestPool a (tp_short_amount self)).

Definition tp_apply_delta_to_short_amount (self : TestPool) (delta : Z) : result TestPool :=
  let! a :=
    if is_positive delta then ok_or (uadd (tp_short_amount self) (unsigned_abs delta)) Overflow
    else ok_or (usub (tp_short_amount self) (unsigned_abs delta))
           (Computation "decreasing short amount") in
  Ok (mkTestPool (tp_long_amount self) a).

Definition tp_checked_apply_delta (self : TestPool) (delta : Delta) : result TestPool :=
  let! ans := match delta_long delta with
              | Some amount => tp_apply_delta_to_long_amount self amount
              | None => Ok self
              end in
  match delta_short delta with
  | Some amount => tp_apply_delta_to_short_amount ans amount
  | None => Ok ans
  end.

#[export] Instance TestPool_ops : PoolOps TestPool := {|
  pool_balance := {|
    long_amount self := Ok (tp_long_amount self);
    short_amount self := Ok (tp_short_amount self) |};
  apply_delta_to_long_amount := tp_apply_delta_to_long_amount;
  apply_delta_to_short_amount := tp_apply_delta_to_short_amount;
  checked_apply_delta := tp_checked_apply_delta;
|}.

Definition tp_wf (p : TestPool) : Prop := in_u (tp_long_amount p) /\ in_u (tp_short_amount p).
Definition tp_amount (p : TestPool) (b : bool) : Z :=
  if b then tp_long_amount p else tp_short_amount p.

Lemma tp_long_moves p d p' :
  tp_wf p -> tp_apply_delta_to_long_amount p d = Ok p' ->
  moved tp_wf (fun _ => false) tp_amount p d 0 p'.
Proof.
  unfold tp_apply_delta_to_long_amount, moved, tp_wf. unfold_num_tests.
  intros Hwf Hr. destruct p, Hwf; num_inv; simpl in *; split_and!; auto; lia.
Qed.

Lemma tp_short_moves p d p' :
  tp_wf p -> tp_apply_delta_to_short_amount p d = Ok p' ->
  moved tp_wf (fun _ => false) tp_amount p 0 d p'.
Proof.
  unfold tp_apply_delta_to_short_amount, moved, tp_wf. unfold_num_tests.
  intros Hwf Hr. destruct p, Hwf; num_inv; simpl in *; split_and!; auto; lia.
Qed.
End TestPool.

(** [checked_apply_delta] is the two one-sided updates in sequence, in both pools. *)
Lemma two_sided_moves {P} wf pure amount (long short : P -> Z -> result P) p d p' :
  (forall p d p', wf p -> long p d = Ok p' -> moved wf pure amount p d 0 p') ->
  (forall p d p', wf p -> short p d = Ok p' -> moved wf pure amount p 0 d p') ->
  wf p ->
  rbind (match delta_long d with Some a => long p a | None => Ok p end)
    (fun ans => match delta_short d with Some a => short ans a | None => Ok ans end) = Ok p' ->
  moved wf pure amount p (default 0 (delta_long d)) (default 0 (delta_short d)) p'.
Proof.
  intros Hl Hs Hwf Hr. destruct d as [dl ds]. simpl in *. inv_ok_step.
  assert (H1 : moved wf pure amount p (default 0 dl) 0 v).
  { destruct dl; [eauto|]. injection Hv as <-. unfold moved. simpl. split_and!; auto; lia. }
  destruct H1 as (Hwf' & Hp & ? & Hi).
  destruct ds as [s|]; simpl.
  - apply Hs in Hr as (? & Hp' & ? & Hi'); [|done]. unfold moved.
    split_and!; [done|congruence|lia|]. intros Hpure. specialize (Hi Hpure).
    rewrite <- Hp in Hpure. specialize (Hi' Hpure). lia.
  - injection Hr as <-. unfold moved. split_and!; auto.
Qed.

#[export] Instance TestPool_laws {I : UInt} : PoolLaws I TestPool.
Proof.
  refine {| pool_wf := tp_wf; pool_pure _ := false; pool_amount := tp_amount |}.
  - done.
  - done.
  - intros p [] [??]; done.
  - exact tp_long_moves.
  - exact tp_short_moves.
  - intros p d p'. apply two_sided_moves; [exact tp_long_moves|exact tp_short_moves].
  - intros p d. simpl. unfold tp_apply_delta_to_long_amount. calm.
  - intros p d. simpl. unfold tp_apply_delta_to_short_amount. calm.
Defined.

(** ** [Merged], [PoolValue] and [PoolDelta] *)
Record Merged (A B : Type) : Type := mkMerged { merged_long : A; merged_short : B }.
Arguments mkMerged {A B}.
Arguments merged_long {A B}.
Arguments merged_short {A B}.

Record PoolValue : Type := mkPoolValue {
  long_token_usd_value : Z;
  short_token_usd_value : Z;
}.

Record PoolDelta : Type := mkPoolDelta {
  pd_current : PoolValue;
  pd_next : PoolValue;
  pd_delta : PoolValue;
}.

Section PoolDelta.
Context {I : UInt}.

#[export] Instance Merged_balance {A B} `{Balance A} `{Balance B} : Balance (Merged A B) := {|
  long_amount self :=
    let! l := long_amount (merged_long self) in
    let! s := short_amount (merged_long self) in
    ok_or (uadd l s) Overflow;
  short_amount self :=
    let! l := long_amount (merged_short self) in
    let! s := short_amount (merged_short self) in
    ok_or (uadd l s) Overflow;
|}.

Definition long_usd_value {B} `{Balance B} (self : B) (price : Z) : result Z :=
  let! a := long_amount self in
  ok_or (umul a price) Overflow.

Definition short_usd_value {B} `{Balance B} (self : B) (price : Z) : result Z :=
  let! a := short_amount self in
  ok_or (umul a price) Overflow.

Definition diff_value (self : PoolValue) : Z :=
  diff (long_token_usd_value self) (short_token_usd_value self).

(** [PoolValue::try_new]. *)
Definition pool_value_try_new {B} `{Balance B} (pool : B)
    (long_token_price short_token_price : Z) : result PoolValue :=
  let! long_token_usd_value := long_usd_value pool long_token_price in
  let! short_token_usd_value := short_usd_value pool short_token_price in
  Ok (mkPoolValue long_token_usd_value short_token_usd_value).

(** [PoolDelta::try_new]; [BalanceExt::pool_delta_with_values] calls it. *)
Definition pool_delta_try_new {B} `{Balance B} (pool : B)
    (delta_long_token_usd_value delta_short_token_usd_value : Z)
    (long_token_price short_token_price : Z) : result PoolDelta :=
  let! current := pool_value_try_new pool long_token_price short_token_price in
  let! next_long :=
    ok_or (checked_add_with_signed (long_token_usd_value current) delta_long_token_usd_value)
      (Computation "next delta long usd value") in
  let! next_short :=
    ok_or (checked_add_with_signed (short_token_usd_value current) delta_short_token_usd_value)
      (Computation "next delta short usd value") in
  Ok (mkPoolDelta current (mkPoolValue next_long next_short)
        (mkPoolValue delta_long_token_usd_value delta_short_token_usd_value)).

(** [PoolDelta::try_from_delta_amounts]; [BalanceExt::pool_delta_with_amounts] calls it. *)
Definition pool_delta_with_amounts {B} `{Balance B} (pool : B)
    (long_delta_amount short_delta_amount : Z)
    (long_token_price short_token_price : Z) : result PoolDelta :=
  let! delta_long_token_usd_value :=
    ok_or (checked_mul_with_signed long_token_price long_delta_amount)
      (Computation "delta long token usd value") in
  let! delta_short_token_usd_value :=
    ok_or (checked_mul_with_signed short_token_price short_delta_amount)
      (Computation "delta short token usd value") in
  pool_delta_try_new pool delta_long_token_usd_value delta_short_token_usd_value
    long_token_price short_token_price.

Definition initial_diff_value (self : PoolDelta) : Z := diff_value (pd_current self).
Definition next_diff_value (self : PoolDelta) : Z := diff_value (pd_next self).

Definition is_same_side_rebalance (self : PoolDelta) : bool :=
  Bool.eqb
    (long_token_usd_value (pd_current self) <=? short_token_usd_value (pd_current self))
    (long_token_usd_value (pd_next self) <=? short_token_usd_value (pd_next self)).

Context {F : FixedPointOps I}.

Definition price_impact_for_same_side_rebalance (self : PoolDelta) (params : PriceImpactParams)
    : result Z :=
  let initial := initial_diff_value self in
  let next := next_diff_value self in
  let has_positive_impact := next <? initial in
  let (positive_factor, negative_factor) := adjusted_factors params in
  let factor := if has_positive_impact then positive_factor else negative_factor in
  let exponent_factor := impact_exponent params in
  let! initial := apply_factors initial factor exponent_factor in
  let! next := apply_factors next factor exponent_factor in
  let! delta := ok_or (try_i (diff initial next)) Convert in
  if has_positive_impact then Ok delta
  else ok_or (ineg delta) (Computation "same side rebalance: negating delta").

Definition price_impact_for_cross_over_rebalance (self : PoolDelta) (params : PriceImpactParams)
    : result Z :=
  let initial := initial_diff_value self in
  let next := next_diff_value self in
  let (positive_factor, negative_factor) := adjusted_factors params in
  let exponent_factor := impact_exponent params in
  let! positive_impact := apply_factors initial positive_factor exponent_factor in
  let! negative_impact := apply_factors next negative_factor exponent_factor in
  let has_positive_impact := negative_impact <? positive_impact in
  let! delta := ok_or (try_i (diff positive_impact negative_impact)) Convert in
  if has_positive_impact then Ok delta
  else ok_or (ineg delta) (Computation "cross over rebalance: negating delta").

Definition price_impact (self : PoolDelta) (params : PriceImpactParams) : result Z :=
  if is_same_side_rebalance self then price_impact_for_same_side_rebalance self params
  else price_impact_for_cross_over_rebalance self params.
End PoolDelta.

(** ** The pool of the store program *)
Module OnChain.

(** [is_pure] is the byte of the account: any non-zero value means pure. *)
Record Pool : Type := mkPool {
  is_pure_byte : Z;
  long_token_amount : Z;
  short_token_amount : Z;
}.

Record PoolStorage : Type := mkPoolStorage { storage_rev : Z; storage_pool : Pool }.

Definition PURE_VALUE : Z := 1.

Definition set_is_pure (self : Pool) (is_pure : bool) : Pool :=
  mkPool (if is_pure then PURE_VALUE else 0) (long_token_amount self) (short_token_amount self).

Definition is_pure (self : Pool) : bool := negb (is_pure_byte self =? 0).

(** The amounts are [u128]. *)
Local Existing Instance u128.

Definition pool_long_amount (self : Pool) : result Z :=
  if is_pure self then Ok (div_ceil (long_token_amount self) 2)
  else Ok (long_token_amount self).

Definition pool_short_amount (self : Pool) : result Z :=
  if is_pure self then Ok (long_token_amount self / 2)
  else Ok (short_token_amount self).

Definition pool_apply_delta_to_long_amount (self : Pool) (delta : Z) : result Pool :=
  let! a := ok_or (try_u (long_token_amount self + delta))
              (Computation "apply delta to long amount") in
  Ok (mkPool (is_pure_byte self) a (short_token_amount self)).

Definition pool_apply_delta_to_short_amount (self : Pool) (delta : Z) : result Pool :=
  if is_pure self then
    let! a := ok_or (try_u (long_token_amount self + delta))
                (Computation "apply delta to short amount") in
    Ok (mkPool (is_pure_byte self) a (short_token_amount self))
  else
    let! a := ok_or (try_u (short_token_amount self + delta))
                (Computation "apply delta to short amount") in
    Ok (mkPool (is_pure_byte self) (long_token_amount self) a).

Definition pool_checked_apply_delta (self : Pool) (delta : Delta) : result Pool :=
  let! ans := match delta_long delta with
              | Some amount => pool_apply_delta_to_long_amount self amount
              | None => Ok self
              end in
  match delta_short delta with
  | Some amount => pool_apply_delta_to_short_amount ans amount
  | None => Ok ans
  end.

#[export] Instance Pool_ops : PoolOps Pool := {|
  pool_balance := {| long_amount := pool_long_amount; short_amount := pool_short_amount |};
  apply_delta_to_long_amount := pool_apply_delta_to_long_amount;
  apply_delta_to_short_amount := pool_apply_delta_to_short_amount;
  checked_apply_delta := pool_checked_apply_delta;
|}.

(** The [debug_assert_eq]s of the getters: a pure pool has no short amount. *)
Definition wf (p : Pool) : Prop :=
  in_u (long_token_amount p) /\ in_u (short_token_amount p)
  /\ (is_pure p = true -> short_token_amount p = 0).

Definition amount (p : Pool) (is_long : bool) : Z :=
  if is_pure p then
    if is_long then div_ceil (long_token_amount p) 2 else long_token_amount p / 2
  else if is_long then long_token_amount p else short_token_amount p.

(** The rounding comment of [long_amount]: the two halves add up. *)
Lemma halves_total a : div_ceil a 2 + a / 2 = a.
Proof.
  unfold div_ceil. pose proof (Z.div_mod a 2 ltac:(lia)). pose proof (Z.mod_pos_bound a 2).
  destruct (Z.eqb_spec (a mod 2) 0); lia.
Qed.

Lemma total_amount p :
  wf p -> amount p true + amount p false = long_token_amount p + short_token_amount p.
Proof.
  intros (_ & _ & Hp). unfold amount. destruct (is_pure p); [|done].
  rewrite Hp by done. rewrite halves_total. lia.
Qed.

Lemma long_moves p d p' :
  wf p -> pool_apply_delta_to_long_amount p d = Ok p' -> moved wf is_pure amount p d 0 p'.
Proof.
  unfold pool_apply_delta_to_long_amount. intros Hwf Hr. num_inv.
  assert (Hwf' : wf (mkPool (is_pure_byte p) (long_token_amount p + d) (short_token_amount p)))
    by (destruct Hwf as (? & ? & ?); done).
  split_and!; [done|done|rewrite !total_amount by done; simpl; lia|].
  unfold amount, is_pure. simpl. intros ->. lia.
Qed.

Lemma short_moves p d p' :
  wf p -> pool_apply_delta_to_short_amount p d = Ok p' -> moved wf is_pure amount p 0 d p'.
Proof.
  unfold pool_apply_delta_to_short_amount. intros Hwf Hr.
  assert (Hwf' : wf p' /\ is_pure p' = is_pure p /\
    long_token_amount p' + short_token_amount p' = long_token_amount p + short_token_amount p + d).
  { destruct Hwf as (? & ? & Hp), p. unfold wf, is_pure in *. num_inv; simpl in *; try done.
    - split_and!; auto; lia.
    - split_and!; auto; first [lia|congruence]. }
  destruct Hwf' as (? & ? & ?).
  split_and!; [done|done|rewrite !total_amount by done; lia|].
  unfold amount. intros Hpure. rewrite Hpure in Hr. num_inv. unfold is_pure in *. simpl.
  rewrite Hpure. lia.
Qed.

#[export] Instance Pool_laws : PoolLaws u128 Pool.
Proof.
  refine {| pool_wf := wf; pool_pure := is_pure; pool_amount := amount |}.
  - intros p _. simpl. unfold pool_long_amount, amount. by destruct (is_pure p).
  - intros p _. simpl. unfold pool_short_amount, amount. by destruct (is_pure p).
  - intros p b (Hl & Hs & _). unfold amount. destruct (is_pure p), b; try done.
    + pose proof (halves_total (long_token_amount p)) as He.
      pose proof (div_nonneg (long_token_amount p) 2).
      pose proof (div_ceil_nonneg (long_token_amount p) 2). unfold in_u in *. lia.
    + pose proof (halves_total (long_token_amount p)) as He.
      pose proof (div_nonneg (long_token_amount p) 2).
      pose proof (div_ceil_nonneg (long_token_amount p) 2). unfold in_u in *. lia.
  - exact long_moves.
  - exact short_moves.
  - intros p d p'. apply two_sided_moves; [exact long_moves|exact short_moves].
  - intros p d. simpl. unfold pool_apply_delta_to_long_amount. calm.
  - intros p d. simpl. unfold pool_apply_delta_to_short_amount. calm.
Defined.

(** The pool of the store program. Applying a delta to a side succeeds exactly when the
    field it is kept in stays a [u128]; then the sum of the two reported amounts changes
    by exactly the delta, and in an impure pool only the named side changes. A pure
    pool reports the two halves of its single field, the odd unit on the long side, so
    both sides are within one of each other and add up to the field. *)
Theorem pool_apply_delta_spec p is_long d :
  wf p ->
  (is_ok (apply_delta_amount p is_long d) = true <->
     0 <= (if is_pure p || is_long then long_token_amount p else short_token_amount p) + d <= u_max)
  /\ (forall p', apply_delta_amount p is_long d = Ok p' ->
        wf p' /\ is_pure p' = is_pure p
        /\ amount p' true + amount p' false = amount p true + amount p false + d
        /\ (is_pure p = false ->
            amount p' is_long = amount p is_long + d
            /\ amount p' (negb is_long) = amount p (negb is_long)))
  /\ (is_pure p = true -> amount p false <= amount p true <= amount p false + 1).
Proof.
  intros Hwf. split_and!.
  - unfold apply_delta_amount. destruct is_long; simpl.
    + rewrite orb_true_r. unfold pool_apply_delta_to_long_amount, ok_or, rbind, try_u.
      destruct (_ && _) eqn:E; simpl; split; try done; intros; bool_to_prop; [lia|].
      apply andb_false_iff in E as [E|E]; lia.
    + rewrite orb_false_r. unfold pool_apply_delta_to_short_amount, ok_or, rbind, try_u.
      destruct (is_pure p); destruct (_ && _) eqn:E; simpl; split; try done; intros; bool_to_prop;
        try lia; apply andb_false_iff in E as [E|E]; lia.
  - intros p' Hr. apply apply_delta_amount_moves in Hr as (? & ? & ? & Hi); [|done].
    split_and!; [done|done|destruct is_long; simpl in *; lia|].
    intros Hp. specialize (Hi Hp). destruct is_long; simpl in *; lia.
  - unfold amount. intros ->. pose proof (halves_total (long_token_amount p)).
    unfold div_ceil in *. destruct (_ =? _); lia.
Qed.

Example pool_apply_delta_spec_example :
  amount (mkPool 1 7 0) false <= amount (mkPool 1 7 0) true <= amount (mkPool 1 7 0) false + 1.
Proof.
  apply (pool_apply_delta_spec (mkPool 1 7 0) true 3); [|reflexivity].
  vm_compute. repeat split; try discriminate.
Defined.
End OnChain.

(** ** The price impact cannot be farmed *)
Section PriceImpact.
Context {I : UInt} {IOk : UIntOk I} {F : FixedPointOps I} {FOk : FixedPointOk F}.

Definition pool_value_in_range (v : PoolValue) : Prop :=
  in_u (long_token_usd_value v) /\ in_u (short_token_usd_value v).

Lemma diff_value_in_u v : pool_value_in_range v -> in_u (diff_value v).
Proof. unfold pool_value_in_range, in_u, diff_value, diff. lia. Qed.

(** The reverse of a rebalance: back from the next to the current state. *)
Definition pool_delta_reverse (d : PoolDelta) : PoolDelta :=
  mkPoolDelta (pd_next d) (pd_current d)
    (mkPoolValue (- long_token_usd_value (pd_delta d)) (- short_token_usd_value (pd_delta d))).

Lemma is_same_side_reverse d :
  is_same_side_rebalance (pool_delta_reverse d) = is_same_side_rebalance d.
Proof. unfold is_same_side_rebalance. simpl. by destruct (_ <=? _), (_ <=? _). Qed.

Lemma same_side_ok d params r :
  pool_value_in_range (pd_current d) -> pool_value_in_range (pd_next d) ->
  in_u (impact_exponent params) ->
  price_impact_for_same_side_rebalance d params = Ok r ->
  let (p, n) := adjusted_factors params in
  exists x y,
    apply_exponent_factor_wrapped (initial_diff_value d) (impact_exponent params) = Some x /\
    apply_exponent_factor_wrapped (next_diff_value d) (impact_exponent params) = Some y /\
    in_u x /\ in_u y /\
    r = if next_diff_value d <? initial_diff_value d
        then Z.abs (x * p / UNIT - y * p / UNIT)
        else - Z.abs (x * n / UNIT - y * n / UNIT).
Proof.
  unfold price_impact_for_same_side_rebalance. intros Hc Hn He.
  destruct (adjusted_factors params) as [p n]. intros Hr. unfold diff in Hr.
  do 2 inv_ok_step.
  apply apply_factors_ok in Hv as (x & Hx & Hxu & -> & _); [|by apply diff_value_in_u|done].
  apply apply_factors_ok in Hv0 as (y & Hy & Hyu & -> & _); [|by apply diff_value_in_u|done].
  exists x, y. split_and!; try done. destruct (_ <? _); num_inv; done.
Qed.

Lemma cross_over_ok d params r :
  pool_value_in_range (pd_current d) -> pool_value_in_range (pd_next d) ->
  in_u (impact_exponent params) ->
  price_impact_for_cross_over_rebalance d params = Ok r ->
  let (p, n) := adjusted_factors params in
  exists x y,
    apply_exponent_factor_wrapped (initial_diff_value d) (impact_exponent params) = Some x /\
    apply_exponent_factor_wrapped (next_diff_value d) (impact_exponent params) = Some y /\
    in_u x /\ in_u y /\ r = x * p / UNIT - y * n / UNIT.
Proof.
  unfold price_impact_for_cross_over_rebalance. intros Hc Hn He.
  destruct (adjusted_factors params) as [p n]. intros Hr. unfold diff in Hr.
  do 2 inv_ok_step.
  apply apply_factors_ok in Hv as (x & Hx & Hxu & -> & _); [|by apply diff_value_in_u|done].
  apply apply_factors_ok in Hv0 as (y & Hy & Hyu & -> & _); [|by apply diff_value_in_u|done].
  exists x, y. split_and!; try done. destruct (Z.ltb_spec (y * n / UNIT) (x * p / UNIT)); num_inv; lia.
Qed.

(** C39: a rebalance followed by its reverse never earns price impact: across the balance
    point the two impacts sum to at most zero, and on one side of it to at most one
    unit of value, the rounding of the two floors. It holds for every power function,
    because the positive factor in use never exceeds the negative one. *)
Theorem price_impact_round_trip d params r r' :
  pool_value_in_range (pd_current d) -> pool_value_in_range (pd_next d) ->
  in_u (impact_exponent params) -> 0 <= impact_positive_factor params ->
  0 <= impact_negative_factor params ->
  price_impact d params = Ok r ->
  price_impact (pool_delta_reverse d) params = Ok r' ->
  r + r' <= if is_same_side_rebalance d then 1 else 0.
Proof.
  intros Hc Hn He Hp0 Hn0 Hr Hr'. unfold price_impact in *. rewrite is_same_side_reverse in Hr'.
  pose proof unit_pos as HU.
  destruct (adjusted_factors params) as [p n] eqn:Hpn. pose proof Hpn as Hle.
  apply adjusted_factors_le in Hle as (? & ? & ?).
  assert (0 <= p) by (unfold adjusted_factors in Hpn; destruct (_ <? _); injection Hpn; lia).
  destruct (is_same_side_rebalance d).
  - apply same_side_ok in Hr; [|done..]. apply same_side_ok in Hr'; [|done..].
    rewrite Hpn in Hr, Hr'. destruct Hr as (x & y & Hx & Hy & ? & ? & ->).
    destruct Hr' as (y' & x' & Hy' & Hx' & _ & _ & ->).
    change (initial_diff_value (pool_delta_reverse d)) with (next_diff_value d) in *.
    change (next_diff_value (pool_delta_reverse d)) with (initial_diff_value d) in *.
    rewrite Hx in Hx'. injection Hx' as <-. rewrite Hy in Hy'. injection Hy' as <-.
    unfold in_u in *.
    pose proof (floor_increment_slope x y p n UNIT HU) as Hup.
    pose proof (floor_increment_slope y x p n UNIT HU) as Hdown.
    pose proof (div_le_mono (x * p) (y * p) UNIT HU). pose proof (div_le_mono (y * p) (x * p) UNIT HU).
    pose proof (div_le_mono (x * n) (y * n) UNIT HU). pose proof (div_le_mono (y * n) (x * n) UNIT HU).
    destruct (Z.le_ge_cases x y);
      destruct (Z.ltb_spec (next_diff_value d) (initial_diff_value d)),
        (Z.ltb_spec (initial_diff_value d) (next_diff_value d)); nia.
  - apply cross_over_ok in Hr; [|done..]. apply cross_over_ok in Hr'; [|done..].
    rewrite Hpn in Hr, Hr'. destruct Hr as (x & y & Hx & Hy & ? & ? & ->).
    destruct Hr' as (y' & x' & Hy' & Hx' & _ & _ & ->).
    change (initial_diff_value (pool_delta_reverse d)) with (next_diff_value d) in *.
    change (next_diff_value (pool_delta_reverse d)) with (initial_diff_value d) in *.
    rewrite Hx in Hx'. injection Hx' as <-. rewrite Hy in Hy'. injection Hy' as <-.
    unfold in_u in *. pose proof (div_le_mono (x * p) (x * n) UNIT HU ltac:(nia)).
    pose proof (div_le_mono (y * p) (y * n) UNIT HU ltac:(nia)). lia.
Qed.

(** On one side of the balance point the impact has the sign of the rebalance: bringing
    the two values closer is never charged, and moving them apart is never paid. *)
Theorem price_impact_sign d params r :
  pool_value_in_range (pd_current d) -> pool_value_in_range (pd_next d) ->
  in_u (impact_exponent params) ->
  is_same_side_rebalance d = true ->
  price_impact d params = Ok r ->
  (next_diff_value d < initial_diff_value d -> 0 <= r)
  /\ (initial_diff_value d <= next_diff_value d -> r <= 0)
  /\ (initial_diff_value d = next_diff_value d -> r = 0).
Proof.
  intros Hc Hn He Hs Hr. unfold price_impact in Hr. rewrite Hs in Hr.
  apply same_side_ok in Hr; [|done..]. destruct (adjusted_factors params) as [p n].
  destruct Hr as (x & y & Hx & Hy & _ & _ & ->).
  destruct (Z.ltb_spec (next_diff_value d) (initial_diff_value d)); split_and!; intros Heq; try lia.
  rewrite Heq, Hy in Hx. injection Hx as <-. lia.
Qed.
End PriceImpact.

(** Linear impact ([exponent] one unit) with positive factor 0.4 and negative 0.5. *)
Definition example_impact_params : PriceImpactParams :=
  mkPriceImpactParams 1000000000 400000000 500000000.
Definition example_pool_delta : PoolDelta :=
  mkPoolDelta (mkPoolValue 9000000005 1000000000) (mkPoolValue 7000000000 3000000000)
    (mkPoolValue (-2000000005) 2000000000).

Lemma price_impact_round_trip_witness : 1600000002 + -2000000002 <= 1.
Proof.
  apply (price_impact_round_trip (F:=u64_fixed (fun _ _ _ => None) 9)
    example_pool_delta example_impact_params);
    try (vm_compute; repeat split; discriminate); reflexivity.
Defined.

Example price_impact_sign_example : 0 <= 1600000002.
Proof.
  apply (price_impact_sign (F:=u64_fixed (fun _ _ _ => None) 9)
    example_pool_delta example_impact_params);
    try (vm_compute; repeat split; discriminate); reflexivity.
Defined.
