(* ===== verification/Market.v ===== *)
(** * Markets ([crates/gmsol-model/src/market])

    The state of a market and the read-only and elementary mutable methods of the
    traits [BaseMarket], [SwapMarket], [PositionImpactMarket],
    [BorrowingFeeMarket], [LiquidityMarket] and [PerpMarket] with their
    extension traits. A trait's getters are the fields of the records below: the
    pools by kind ([Pools]), the parameters ([MarketConfig]), the clocks and the
    supply of market tokens (class [SupplyOps]). *)
From S2P Require Import Prelude Kinds Num Fixed Price Params Pool.

(** ** The pools of a market ([states/market/pool.rs]) *)
Record Pools (P : Type) : Type := mkPools {
  primary : P;
  swap_impact : P;
  claimable_fee : P;
  open_interest_for_long : P;
  open_interest_for_short : P;
  open_interest_in_tokens_for_long : P;
  open_interest_in_tokens_for_short : P;
  position_impact : P;
  borrowing_factor : P;
  funding_amount_per_size_for_long : P;
  funding_amount_per_size_for_short : P;
  claimable_funding_amount_per_size_for_long : P;
  claimable_funding_amount_per_size_for_short : P;
  collateral_sum_for_long : P;
  collateral_sum_for_short : P;
  total_borrowing : P;
}.

(** [Pools::get]. *)
Definition pools_get {P} (self : Pools P) (kind : PoolKind) : P :=
  match kind with
  | Primary => primary P self
  | SwapImpact => swap_impact P self
  | ClaimableFee => claimable_fee P self
  | OpenInterestForLong => open_interest_for_long P self
  | OpenInterestForShort => open_interest_for_short P self
  | OpenInterestInTokensForLong => open_interest_in_tokens_for_long P self
  | OpenInterestInTokensForShort => open_interest_in_tokens_for_short P self
  | PositionImpact => position_impact P self
  | BorrowingFactor => borrowing_factor P self
  | FundingAmountPerSizeForLong => funding_amount_per_size_for_long P self
  | FundingAmountPerSizeForShort => funding_amount_per_size_for_short P self
  | ClaimableFundingAmountPerSizeForLong => claimable_funding_amount_per_size_for_long P self
  | ClaimableFundingAmountPerSizeForShort => claimable_funding_amount_per_size_for_short P self
  | CollateralSumForLong => collateral_sum_for_long P self
  | CollateralSumForShort => collateral_sum_for_short P self
  | TotalBorrowing => total_borrowing P self
  end.

(** The table with the given pools; [pools_set] is a write through [Pools::get_mut]. *)
Definition pools_of {P} (f : PoolKind -> P) : Pools P :=
  mkPools P (f Primary) (f SwapImpact) (f ClaimableFee) (f OpenInterestForLong)
    (f OpenInterestForShort) (f OpenInterestInTokensForLong) (f OpenInterestInTokensForShort)
    (f PositionImpact) (f BorrowingFactor) (f FundingAmountPerSizeForLong)
    (f FundingAmountPerSizeForShort) (f ClaimableFundingAmountPerSizeForLong)
    (f ClaimableFundingAmountPerSizeForShort) (f CollateralSumForLong)
    (f CollateralSumForShort) (f TotalBorrowing).

Definition pools_set {P} (self : Pools P) (kind : PoolKind) (p : P) : Pools P :=
  pools_of (fun k => if decide (k = kind) then p else pools_get self k).

Lemma pools_get_of {P} (f : PoolKind -> P) k : pools_get (pools_of f) k = f k.
Proof. by destruct k. Qed.

Lemma pools_get_set {P} (s : Pools P) k p k' :
  pools_get (pools_set s k p) k' = if decide (k' = k) then p else pools_get s k'.
Proof. unfold pools_set. by rewrite pools_get_of. Qed.

Lemma pools_ext {P} (s s' : Pools P) : (forall k, pools_get s k = pools_get s' k) -> s = s'.
Proof.
  intros Hk. destruct s, s'. f_equal;
    [exact (Hk Primary)|exact (Hk SwapImpact)|exact (Hk ClaimableFee)|exact (Hk OpenInterestForLong)
    |exact (Hk OpenInterestForShort)|exact (Hk OpenInterestInTokensForLong)
    |exact (Hk OpenInterestInTokensForShort)|exact (Hk PositionImpact)|exact (Hk BorrowingFactor)
    |exact (Hk FundingAmountPerSizeForLong)|exact (Hk FundingAmountPerSizeForShort)
    |exact (Hk ClaimableFundingAmountPerSizeForLong)
    |exact (Hk ClaimableFundingAmountPerSizeForShort)|exact (Hk CollateralSumForLong)
    |exact (Hk CollateralSumForShort)|exact (Hk TotalBorrowing)].
Qed.

(** ** The parameters a market gives to the traits *)
Record MarketConfig : Type := mkMarketConfig {
  usd_to_amount_divisor : Z;
  max_pool_amount : bool -> Z;
  pnl_factor_config : PnlFactorKind -> bool -> Z;
  reserve_factor : Z;
  open_interest_reserve_factor : Z;
  max_open_interest : bool -> Z;
  ignore_open_interest_for_usage_factor : bool;
  swap_impact_params : PriceImpactParams;
  swap_fee_params : FeeParams;
  position_impact_params : PriceImpactParams;
  position_impact_distribution_params : PositionImpactDistributionParams;
  borrowing_fee_params : BorrowingFeeParams;
  borrowing_fee_kink_model_params : BorrowingFeeKinkModelParams;
  funding_amount_per_size_adjustment : Z;
  funding_fee_params : FundingFeeParams;
  position_params : PositionParams;
  order_fee_params : FeeParams;
  min_collateral_factor_for_open_interest_multiplier : bool -> Z;
  liquidation_fee_params : LiquidationFeeParams;
  max_pool_value_for_deposit : bool -> Z;
}.

(** ** Clocks ([states/market/clock.rs]): the last update in Unix seconds ([i64]). *)
Record Clocks : Type := mkClocks {
  clock_price_impact_distribution : Z;
  clock_borrowing : Z;
  clock_funding : Z;
}.

Definition i64_saturating_sub (a b : Z) : Z :=
  Z.max (- 2 ^ 63) (Z.min (2 ^ 63 - 1) (a - b)).

(** [AsClock::passed_in_seconds]; [current] is the cluster's [Clock::get()]. *)
Definition clock_passed_in_seconds (current last : Z) : Z :=
  let duration := i64_saturating_sub current last in
  if 0 <? duration then duration else 0.

(** [AsClockMut::just_passed_in_seconds]: the new clock and the duration. *)
Definition clock_just_passed_in_seconds (current last : Z) : Z * Z :=
  let duration := i64_saturating_sub current last in
  if 0 <? duration then (current, duration) else (last, 0).

(** ** The supply of market tokens *)
Class SupplyOps (T : Type) : Type := {
  supply_total : T -> Z;
  supply_mint : T -> Z -> result T;
  supply_burn : T -> Z -> result T;
}.

Class SupplyLaws (T : Type) {O : SupplyOps T} : Type := {
  supply_wf : T -> Prop;
  supply_nonneg s : supply_wf s -> 0 <= supply_total s;
  supply_mint_law s a s' : supply_wf s -> 0 <= a -> supply_mint s a = Ok s' ->
    supply_wf s' /\ supply_total s' = supply_total s + a;
  supply_burn_law s a s' : supply_wf s -> 0 <= a -> supply_burn s a = Ok s' ->
    supply_wf s' /\ supply_total s' = supply_total s - a;
}.

(** ** The market *)
Record Market (P T : Type) : Type := mkMarket {
  m_config : MarketConfig;
  m_pools : Pools P;
  m_supply : T;
  m_clocks : Clocks;
  m_funding_factor_per_second : Z;
  m_now : Z;
}.
Arguments mkMarket {P T}.
Arguments m_config {P T}.
Arguments m_pools {P T}.
Arguments m_supply {P T}.
Arguments m_clocks {P T}.
Arguments m_funding_factor_per_second {P T}.
Arguments m_now {P T}.

Definition OpenInterest (is_long : bool) : PoolKind :=
  if is_long then OpenInterestForLong else OpenInterestForShort.
Definition OpenInterestInTokens (is_long : bool) : PoolKind :=
  if is_long then OpenInterestInTokensForLong else OpenInterestInTokensForShort.
Definition CollateralSum (is_long : bool) : PoolKind :=
  if is_long then CollateralSumForLong else CollateralSumForShort.
Definition FundingAmountPerSize (is_long : bool) : PoolKind :=
  if is_long then FundingAmountPerSizeForLong else FundingAmountPerSizeForShort.
Definition ClaimableFundingAmountPerSize (is_long : bool) : PoolKind :=
  if is_long then ClaimableFundingAmountPerSizeForLong
  else ClaimableFundingAmountPerSizeForShort.

(** [market/mod.rs]: [get_msg_by_side]. *)
Definition get_msg_by_side (is_long : bool) : string :=
  if is_long then "for long"%string else "for short"%string.

Record PnlFactorExceeded : Type := mkPnlFactorExceeded {
  exceeded_pnl_factor : Z;
  exceeded_max_pnl_factor : Z;
  exceeded_pool_value : Z;
}.

Section MarketReads.
Context {I : UInt} {F : FixedPointOps I} {P T : Type} {O : PoolOps P} {S : SupplyOps T}.
Implicit Type self : Market P T.

(** ** [market/base.rs] *)
Definition pool_of (self : Market P T) (kind : PoolKind) : P := pools_get (m_pools self) kind.

Definition liquidity_pool self : P := pool_of self Primary.
Definition claimable_fee_pool self : P := pool_of self ClaimableFee.
Definition swap_impact_pool self : P := pool_of self SwapImpact.
Definition open_interest_pool self (is_long : bool) : P := pool_of self (OpenInterest is_long).
Definition open_interest_in_tokens_pool self (is_long : bool) : P :=
  pool_of self (OpenInterestInTokens is_long).
Definition collateral_sum_pool self (is_long : bool) : P := pool_of self (CollateralSum is_long).

Definition pool_value_without_pnl_for_one_side self (prices : Prices) (is_long maximize : bool)
    : result Z :=
  if is_long then
    long_usd_value (liquidity_pool self) (pick_price (long_token_price prices) maximize)
  else
    short_usd_value (liquidity_pool self) (pick_price (short_token_price prices) maximize).

Definition open_interest self : Merged P P :=
  mkMerged (open_interest_pool self true) (open_interest_pool self false).

Definition open_interest_in_tokens self : Merged P P :=
  mkMerged (open_interest_in_tokens_pool self true) (open_interest_in_tokens_pool self false).

Definition pnl self (index_token_price : Price) (is_long maximize : bool) : result Z :=
  let! open_interest := balance_amount (open_interest self) is_long in
  let! open_interest_in_tokens := balance_amount (open_interest_in_tokens self) is_long in
  if is_zero open_interest && is_zero open_interest_in_tokens then Ok 0
  else
    let price := pick_price_for_pnl index_token_price is_long maximize in
    let! open_interest_value := ok_or (umul open_interest_in_tokens price)
                                  (Computation "calculating open interest value") in
    if is_long then
      let! a := to_signed open_interest_value in
      let! b := to_signed open_interest in
      ok_or (isub a b) (Computation "calculating pnl for long")
    else
      let! a := to_signed open_interest in
      let! b := to_signed open_interest_value in
      ok_or (isub a b) (Computation "calculating pnl for short").

Definition pnl_factor_with_pool_value self (prices : Prices) (is_long maximize : bool)
    : result (Z * Z) :=
  let! pool_value := pool_value_without_pnl_for_one_side self prices is_long (negb maximize) in
  let! pnl := pnl self (index_token_price prices) is_long maximize in
  let! factor := ok_or (div_to_factor_signed pnl pool_value)
                   (Computation "calculating pnl factor") in
  Ok (factor, pool_value).

Definition pnl_factor self (prices : Prices) (is_long maximize : bool) : result Z :=
  let! p := pnl_factor_with_pool_value self prices is_long maximize in
  Ok (fst p).

Definition validate_pool_amount self (is_long_token : bool) : result unit :=
  let! amount := balance_amount (liquidity_pool self) is_long_token in
  let max_pool_amount := max_pool_amount (m_config self) is_long_token in
  if max_pool_amount <? amount then Err (MaxPoolAmountExceeded (get_msg_by_side is_long_token))
  else Ok tt.

Definition pnl_factor_exceeded self (prices : Prices) (kind : PnlFactorKind) (is_long : bool)
    : result (option PnlFactorExceeded) :=
  let! p := pnl_factor_with_pool_value self prices is_long true in
  let (pnl_factor, pool_value) := p in
  let max_pnl_factor := pnl_factor_config (m_config self) kind is_long in
  let is_exceeded := is_positive pnl_factor && (max_pnl_factor <? unsigned_abs pnl_factor) in
  Ok (if is_exceeded then Some (mkPnlFactorExceeded pnl_factor max_pnl_factor pool_value)
      else None).

Definition validate_pnl_factor self (prices : Prices) (kind : PnlFactorKind) (is_long : bool)
    : result unit :=
  let! e := pnl_factor_exceeded self prices kind is_long in
  match e with
  | Some _ => Err (PnlFactorExceededErr kind (get_msg_by_side is_long))
  | None => Ok tt
  end.

Definition validate_max_pnl self (prices : Prices) (long_kind short_kind : PnlFactorKind)
    : result unit :=
  let! _ := validate_pnl_factor self prices long_kind true in
  validate_pnl_factor self prices short_kind false.

Definition exceeded_pnl (self : PnlFactorExceeded) : option Z :=
  if negb (is_positive (exceeded_pnl_factor self)) || is_zero (exceeded_pool_value self) then None
  else
    let pnl_factor := unsigned_abs (exceeded_pnl_factor self) in
    let? diff_factor := usub pnl_factor (exceeded_max_pnl_factor self) in
    apply_factor (exceeded_pool_value self) diff_factor.

Definition reserved_value self (index_token_price : Price) (is_long : bool) : result Z :=
  if is_long then
    long_usd_value (open_interest_in_tokens self) (pick_price index_token_price true)
  else short_amount (open_interest self).

Definition validate_reserve self (prices : Prices) (is_long : bool) : result unit :=
  let! pool_value := pool_value_without_pnl_for_one_side self prices is_long false in
  let! max_reserved_value := ok_or (apply_factor pool_value (reserve_factor (m_config self)))
                               (Computation "calculating max reserved value") in
  let! reserved_value := reserved_value self (index_token_price prices) is_long in
  if max_reserved_value <? reserved_value then
    Err (InsufficientReserve reserved_value max_reserved_value)
  else Ok tt.

Definition expected_min_token_balance_excluding_collateral_amount_for_one_token_side self
    (is_long_side : bool) : result Z :=
  let! balance := balance_amount (liquidity_pool self) is_long_side in
  let! si := balance_amount (swap_impact_pool self) is_long_side in
  let! balance := ok_or (uadd balance si)
                    (Computation "overflow adding swap impact pool amount") in
  let! cf := balance_amount (claimable_fee_pool self) is_long_side in
  ok_or (uadd balance cf) (Computation "overflow adding claimable fee amount").

Definition total_collateral_amount_for_one_token_side self (is_long_side : bool) : result Z :=
  let! collateral_amount := balance_amount (collateral_sum_pool self true) is_long_side in
  let! other := balance_amount (collateral_sum_pool self false) is_long_side in
  ok_or (uadd collateral_amount other)
    (Computation "calculating total collateral sum for one side").

(** ** [market/utils.rs] *)
Definition usage_factor self (is_long : bool) (reserved_value pool_value : Z) : result Z :=
  let reserve_factor := open_interest_reserve_factor (m_config self) in
  let! max_reserved_value :=
    ok_or (apply_factor pool_value reserve_factor)
      (Computation "usage factor: calculating max reserved factor") in
  let! reserve_usage_factor :=
    ok_or (div_to_factor reserved_value max_reserved_value false)
      (Computation "usage factor: calculating reserve usage factor") in
  if ignore_open_interest_for_usage_factor (m_config self) then Ok reserve_usage_factor
  else
    let max_open_interest := max_open_interest (m_config self) is_long in
    let! open_interest := balance_amount (open_interest self) is_long in
    let! open_interest_usage_factor :=
      ok_or (div_to_factor open_interest max_open_interest false)
        (Computation "usage factor: calculating open interest usage factor") in
    if open_interest_usage_factor <? reserve_usage_factor then Ok reserve_usage_factor
    else Ok open_interest_usage_factor.

Definition cap_pnl self (is_long : bool) (pnl pool_value : Z) (kind : PnlFactorKind) : result Z :=
  if is_positive pnl then
    let max_pnl_factor := pnl_factor_config (m_config self) kind is_long in
    let! max_pnl := ok_or (apply_factor pool_value max_pnl_factor)
                      (Computation "calculating max pnl") in
    let! max_pnl := to_signed max_pnl in
    if max_pnl <? pnl then Ok max_pnl else Ok pnl
  else Ok pnl.

(** ** [market/position_impact.rs] *)
Definition position_impact_pool self : P := pool_of self PositionImpact.

Definition passed_in_seconds_for_position_impact_distribution self : Z :=
  clock_passed_in_seconds (m_now self) (clock_price_impact_distribution (m_clocks self)).

Definition position_impact_pool_amount self : result Z := long_amount (position_impact_pool self).

Definition pending_position_impact_pool_distribution_amount self (duration_in_secs : Z)
    : result (Z * Z) :=
  let! current_amount := position_impact_pool_amount self in
  let params := position_impact_distribution_params (m_config self) in
  let min_amount := min_position_impact_pool_amount params in
  if is_zero (distribute_factor params) || (current_amount <=? min_amount) then
    Ok (0, current_amount)
  else
    let! max_distribution_amount :=
      ok_or (usub current_amount min_amount)
        (Computation "calculating max distribution amount") in
    let! duration_value := ok_or (from_u64 duration_in_secs) Convert in
    let! distribution_amount :=
      ok_or (apply_factor duration_value (distribute_factor params))
        (Computation "calculating distribution amount") in
    let distribution_amount :=
      if max_distribution_amount <? distribution_amount then max_distribution_amount
      else distribution_amount in
    let! next_amount :=
      ok_or (usub current_amount distribution_amount)
        (Computation "calculating next position impact amount") in
    Ok (distribution_amount, next_amount).

(** ** [market/swap.rs] *)

(** The inlined round-up division of a negative impact by the price. *)
Definition swap_impact_amount_with_cap self (is_long_token : bool) (price : Price)
    (usd_impact : Z) : result (Z * Z) :=
  if has_zero price then Err DividedByZero
  else if is_positive usd_impact then
    let! max_price := to_signed (pick_price price true) in
    let! amount := ok_or (idiv usd_impact max_price)
                     (Computation "calculating swap impact amount") in
    let! max_amount :=
      (if is_long_token then long_amount (swap_impact_pool self)
       else short_amount (swap_impact_pool self)) in
    let! max_amount := to_signed max_amount in
    if max_amount <? amount then
      let! capped_diff_value :=
        ok_or
          (let? diff_amount := isub amount max_amount in
           umul (unsigned_abs diff_amount) (pick_price price true))
          (Computation "calculating capped diff value") in
      Ok (max_amount, capped_diff_value)
    else Ok (amount, 0)
  else if is_negative usd_impact then
    let! price := to_signed (pick_price price false) in
    let! amount :=
      ok_or
        (let? a := isub usd_impact price in
         let? b := iadd a 1 in
         idiv b price)
        (Computation "calculating round up swap impact amount") in
    Ok (amount, 0)
  else Ok (0, 0).

(** ** [market/borrowing.rs] and the kink model of [params/fee.rs] *)
Definition borrowing_factor_pool self : P := pool_of self BorrowingFactor.
Definition total_borrowing_pool self : P := pool_of self TotalBorrowing.

Definition passed_in_seconds_for_borrowing self : Z :=
  clock_passed_in_seconds (m_now self) (clock_borrowing (m_clocks self)).

Definition cumulative_borrowing_factor self (is_long : bool) : result Z :=
  balance_amount (borrowing_factor_pool self) is_long.

(** [BorrowingFeeKinkModelParams::borrowing_factor_per_second]. *)
Definition kink_borrowing_factor_per_second (params : BorrowingFeeKinkModelParams) self
    (is_long : bool) (reserved_value pool_value : Z) : result (option Z) :=
  let side := params_for_one_side params is_long in
  let optimal_usage_factor := kink_optimal_usage_factor side in
  if is_zero optimal_usage_factor then Ok None
  else
    let! usage_factor := usage_factor self is_long reserved_value pool_value in
    let base_borrowing_factor := kink_base_borrowing_factor side in
    let! borrowing_factor_per_second :=
      ok_or (apply_factor usage_factor base_borrowing_factor)
        (Computation "borrowing fee kink model: calculating borrowing factor per second") in
    if (optimal_usage_factor <? usage_factor) && (optimal_usage_factor <? UNIT) then
      let! diff := ok_or (usub usage_factor optimal_usage_factor)
                     (Computation "borrowing fee kink model: calculating diff") in
      let above := kink_above_optimal_usage_borrowing_factor side in
      let! additional :=
        (if base_borrowing_factor <? above then
           ok_or (usub above base_borrowing_factor)
             (Computation "borrowing fee kink model: calculating additional factor")
         else Ok 0) in
      let! divisor := ok_or (usub UNIT optimal_usage_factor)
                        (Computation "borrowing fee kink model: calculating divisor") in
      let! factor :=
        ok_or
          (let? a := checked_mul_div additional diff divisor in
           uadd borrowing_factor_per_second a)
          (Computation
             "borrowing fee kink model: increasing borrowing factor per second") in
      Ok (Some factor)
    else Ok (Some borrowing_factor_per_second).

Definition borrowing_factor_per_second self (is_long : bool) (prices : Prices) : result Z :=
  let! reserved_value := reserved_value self (index_token_price prices) is_long in
  if is_zero reserved_value then Ok 0
  else
    let params := borrowing_fee_params (m_config self) in
    let! skipped :=
      (if skip_borrowing_fee_for_smaller_side params then
         let! long_interest := long_amount (open_interest self) in
         let! short_interest := short_amount (open_interest self) in
         Ok ((is_long && (long_interest <? short_interest))
             || (negb is_long && (short_interest <? long_interest)))
       else Ok false) in
    if (skipped : bool) then Ok 0
    else
      let! pool_value := pool_value_without_pnl_for_one_side self prices is_long false in
      if is_zero pool_value then Err UnableToGetBorrowingFactorEmptyPoolValue
      else
        let! kink := kink_borrowing_factor_per_second
                       (borrowing_fee_kink_model_params (m_config self)) self is_long
                       reserved_value pool_value in
        match kink with
        | Some factor => Ok factor
        | None =>
            let! reserved_value_after_exponent :=
              ok_or (apply_exponent_factor reserved_value (borrowing_exponent params is_long))
                (Computation "calculating reserved value after exponent") in
            let! reserved_value_to_pool_factor :=
              ok_or (div_to_factor reserved_value_after_exponent pool_value false)
                (Computation "calculating reserved value to pool factor") in
            ok_or (apply_factor reserved_value_to_pool_factor (borrowing_factor_param params is_long))
              (Computation "calculating borrowing factor per second")
        end.

Definition next_cumulative_borrowing_factor self (is_long : bool) (prices : Prices)
    (duration_in_second : Z) : result (Z * Z) :=
  let! borrowing_factor_per_second := borrowing_factor_per_second self is_long prices in
  let! current_factor := cumulative_borrowing_factor self is_long in
  let! duration_value := ok_or (from_u64 duration_in_second) Convert in
  let! delta := ok_or (umul borrowing_factor_per_second duration_value)
                  (Computation "calculating borrowing factor delta") in
  let! next_cumulative_borrowing_factor :=
    ok_or (uadd current_factor delta) (Computation "calculating next borrowing factor") in
  Ok (next_cumulative_borrowing_factor, delta).

Definition total_pending_borrowing_fees self (prices : Prices) (is_long : bool) : result Z :=
  let! open_interest := balance_amount (open_interest self) is_long in
  let duration_in_second := passed_in_seconds_for_borrowing self in
  let! next := next_cumulative_borrowing_factor self is_long prices duration_in_second in
  let next_cumulative_borrowing_factor := fst next in
  let! total_borrowing := balance_amount (total_borrowing_pool self) is_long in
  ok_or
    (let? total := apply_factor open_interest next_cumulative_borrowing_factor in
     usub total total_borrowing)
    (Computation "calculating total pending borrowing fees").

(** ** [market/liquidity.rs] *)
Definition total_supply self : Z := supply_total (m_supply self).

Definition validate_pool_value_for_deposit self (prices : Prices) (is_long_token : bool)
    : result unit :=
  let! pool_value := pool_value_without_pnl_for_one_side self prices is_long_token true in
  let max_pool_value := max_pool_value_for_deposit (m_config self) is_long_token in
  if max_pool_value <? pool_value then Err (MaxPoolValueExceeded (get_msg_by_side is_long_token))
  else Ok tt.

(** The three parts of [pool_value]: the fees for the pool, the capped net pnl, and the
    value of the position impact pool. *)
Definition total_borrowing_fees_for_pool self (prices : Prices) : result Z :=
  let! for_long := total_pending_borrowing_fees self prices true in
  let! for_short := total_pending_borrowing_fees self prices false in
  let! total_borrowing_fees :=
    ok_or (uadd for_long for_short)
      (Computation "calculating total pending borrowing fees for pool value") in
  let! amount :=
    ok_or
      (let? factor := usub UNIT (borrowing_receiver_factor (borrowing_fee_params (m_config self))) in
       apply_factor total_borrowing_fees factor)
      (Computation "calculating total borrowing fees for pool") in
  to_signed amount.

Definition net_pnl self (prices : Prices) (pnl_factor : PnlFactorKind) (maximize : bool)
    (long_value short_value : Z) : result Z :=
  let! long := pnl self (index_token_price prices) true (negb maximize) in
  let! long_pnl := cap_pnl self true long long_value pnl_factor in
  let! short := pnl self (index_token_price prices) false (negb maximize) in
  let! short_pnl := cap_pnl self false short short_value pnl_factor in
  ok_or (iadd long_pnl short_pnl) (Computation "calculating net pnl").

Definition impact_pool_value self (prices : Prices) (maximize : bool) : result Z :=
  let duration := passed_in_seconds_for_position_impact_distribution self in
  let! p := pending_position_impact_pool_distribution_amount self duration in
  let amount := snd p in
  let price := pick_price (index_token_price prices) (negb maximize) in
  let! v := ok_or (umul amount price) (Computation "calculating impact pool value") in
  to_signed v.

Definition pool_value self (prices : Prices) (pnl_factor : PnlFactorKind) (maximize : bool)
    : result Z :=
  let! long_value := pool_value_without_pnl_for_one_side self prices true maximize in
  let! short_value := pool_value_without_pnl_for_one_side self prices false maximize in
  let! sum := ok_or (uadd long_value short_value) Overflow in
  let! pool_value := to_signed sum in
  let! total_borrowing_fees_for_pool := total_borrowing_fees_for_pool self prices in
  let! pool_value := ok_or (iadd pool_value total_borrowing_fees_for_pool)
                       (Computation "adding total borrowing fees for pool") in
  let! net_pnl := net_pnl self prices pnl_factor maximize long_value short_value in
  let! pool_value := ok_or (isub pool_value net_pnl) (Computation "deducting net pnl") in
  let! impact_pool_value := impact_pool_value self prices maximize in
  ok_or (isub pool_value impact_pool_value) (Computation "deducting impact pool value").

Definition market_token_price self (prices : Prices) (pnl_factor : PnlFactorKind)
    (maximize : bool) : result Z :=
  let supply := total_supply self in
  if is_zero supply then Ok UNIT
  else
    let! pool_value := pool_value self prices pnl_factor maximize in
    if is_negative pool_value then
      Err (InvalidPoolValue "the pool value is negative. Calculation of the market token price is currently unsupported when the pool value is negative.")
    else
      let! one := ok_or (udiv UNIT (usd_to_amount_divisor (m_config self)))
                    (Computation "calculating one market token") in
      ok_or (market_token_amount_to_usd one (unsigned_abs pool_value) supply)
        (Computation "calculating market token price").

(** ** [market/perp.rs] *)
Definition funding_amount_per_size_pool self (is_long : bool) : P :=
  pool_of self (FundingAmountPerSize is_long).
Definition claimable_funding_amount_per_size_pool self (is_long : bool) : P :=
  pool_of self (ClaimableFundingAmountPerSize is_long).

Definition funding_fee_amount_per_size self (is_long is_long_collateral : bool) : result Z :=
  balance_amount (funding_amount_per_size_pool self is_long) is_long_collateral.

Definition claimable_funding_fee_amount_per_size self (is_long is_long_collateral : bool)
    : result Z :=
  balance_amount (claimable_funding_amount_per_size_pool self is_long) is_long_collateral.

Definition validate_open_interest_reserve self (prices : Prices) (is_long : bool) : result unit :=
  let! pool_value := pool_value_without_pnl_for_one_side self prices is_long false in
  let! max_reserved_value :=
    ok_or (apply_factor pool_value (open_interest_reserve_factor (m_config self)))
      (Computation "calculating max reserved value") in
  let! reserved_value := reserved_value self (index_token_price prices) is_long in
  if max_reserved_value <? reserved_value then
    Err (InsufficientReserveForOpenInterest reserved_value max_reserved_value)
  else Ok tt.

Definition min_collateral_factor_for_open_interest self (delta : Z) (is_long : bool) : result Z :=
  let! oi := balance_amount (open_interest self) is_long in
  let! next_open_interest :=
    ok_or (checked_add_with_signed oi delta)
      (Computation "calculating next OI for min collateral factor") in
  let factor := min_collateral_factor_for_open_interest_multiplier (m_config self) is_long in
  ok_or (apply_factor next_open_interest factor)
    (Computation "calculating min collateral factor for OI").

(** The two caps return the new [impact] that the source writes in place. *)
Definition cap_positive_position_price_impact self (index_token_price : Price)
    (size_delta_usd impact : Z) : result Z :=
  if is_positive impact then
    let! impact_pool_amount := position_impact_pool_amount self in
    let! max_impact :=
      ok_or (umul impact_pool_amount (pick_price index_token_price false))
        (Computation
           "overflow calculating max positive position impact based on pool amount") in
    let! max_impact := to_signed max_impact in
    let impact := if max_impact <? impact then max_impact else impact in
    let max_impact_factor :=
      max_positive_position_impact_factor (position_params (m_config self)) in
    let! max_impact :=
      ok_or (apply_factor (unsigned_abs size_delta_usd) max_impact_factor)
        (Computation "calculating max positive position impact based on max factor") in
    let! max_impact := to_signed max_impact in
    Ok (if max_impact <? impact then max_impact else impact)
  else Ok impact.

Definition cap_negative_position_price_impact self (size_delta_usd : Z) (for_liquidations : bool)
    (impact : Z) : result (Z * Z) :=
  if is_negative impact then
    let params := position_params (m_config self) in
    let max_impact_factor :=
      if for_liquidations then max_position_impact_factor_for_liquidations params
      else max_negative_position_impact_factor params in
    let! min_impact :=
      ok_or (apply_factor (unsigned_abs size_delta_usd) max_impact_factor)
        (Computation "calculating max negative position impact based on max factor") in
    let! min_impact := to_opposite_signed min_impact in
    if impact <? min_impact then
      let! impact_diff := ok_or (isub min_impact impact)
                            (Computation "overflow calculating impact diff") in
      Ok (unsigned_abs impact_diff, min_impact)
    else Ok (0, impact)
  else Ok (0, impact).
End MarketReads.

(** ** The elementary mutable methods *)
Definition set_pools {P T} (self : Market P T) (ps : Pools P) : Market P T :=
  mkMarket (m_config self) ps (m_supply self) (m_clocks self)
    (m_funding_factor_per_second self) (m_now self).
Definition set_supply {P T} (self : Market P T) (s : T) : Market P T :=
  mkMarket (m_config self) (m_pools self) s (m_clocks self)
    (m_funding_factor_per_second self) (m_now self).
Definition set_clocks {P T} (self : Market P T) (c : Clocks) : Market P T :=
  mkMarket (m_config self) (m_pools self) (m_supply self) c
    (m_funding_factor_per_second self) (m_now self).
Definition set_funding_factor_per_second {P T} (self : Market P T) (f : Z) : Market P T :=
  mkMarket (m_config self) (m_pools self) (m_supply self) (m_clocks self) f (m_now self).

Section MarketMut.
Context {I : UInt} {F : FixedPointOps I} {P T : Type} {O : PoolOps P} {S : SupplyOps T}.

(** The methods with [&mut self] on a market. *)
Definition MM (A : Type) : Type := ST (Market P T) Error A.

(** A [..._pool_mut()?.apply_...(delta)?] call. *)
Definition update_pool (kind : PoolKind) (f : P -> result P) : MM unit :=
  supdate (fun m =>
    let! p := f (pool_of m kind) in
    Ok (set_pools m (pools_set (m_pools m) kind p))).

(** [BaseMarketMutExt::apply_delta]. *)
Definition apply_delta (is_long_token : bool) (delta : Z) : MM unit :=
  if is_long_token then update_pool Primary (fun p => apply_delta_to_long_amount p delta)
  else update_pool Primary (fun p => apply_delta_to_short_amount p delta).

Definition apply_delta_to_claimable_fee_pool (is_long_token : bool) (delta : Z) : MM unit :=
  update_pool ClaimableFee (fun p => apply_delta_amount p is_long_token delta).

Definition apply_delta_to_position_impact_pool (delta : Z) : MM unit :=
  update_pool PositionImpact (fun p => apply_delta_to_long_amount p delta).

Definition apply_swap_impact_value_with_cap (is_long_token : bool) (price : Price)
    (usd_impact : Z) : MM Z :=
  do! r := sread (fun m => swap_impact_amount_with_cap m is_long_token price usd_impact) in
  let amount := fst r in
  do! delta := slift (ok_or (ineg amount) (Computation "negating swap impact delta")) in
  do! _ :=
    (if is_long_token then update_pool SwapImpact (fun p => apply_delta_to_long_amount p delta)
     else update_pool SwapImpact (fun p => apply_delta_to_short_amount p delta)) in
  sret (unsigned_abs delta).

Definition apply_delta_to_funding_amount_per_size (is_long is_long_collateral : bool) (delta : Z)
    : MM unit :=
  update_pool (FundingAmountPerSize is_long) (fun p => apply_delta_amount p is_long_collateral delta).

Definition apply_delta_to_claimable_funding_amount_per_size (is_long is_long_collateral : bool)
    (delta : Z) : MM unit :=
  update_pool (ClaimableFundingAmountPerSize is_long)
    (fun p => apply_delta_amount p is_long_collateral delta).

Definition mint (amount : Z) : MM unit :=
  supdate (fun m => let! s := supply_mint (m_supply m) amount in Ok (set_supply m s)).

Definition burn (amount : Z) : MM unit :=
  supdate (fun m => let! s := supply_burn (m_supply m) amount in Ok (set_supply m s)).

(** The three [just_passed_in_seconds_for_...] methods. *)
Definition just_passed_in_seconds_for_position_impact_distribution : MM Z := fun m =>
  let (last, d) :=
    clock_just_passed_in_seconds (m_now m) (clock_price_impact_distribution (m_clocks m)) in
  (set_clocks m (mkClocks last (clock_borrowing (m_clocks m)) (clock_funding (m_clocks m))), Ok d).

Definition just_passed_in_seconds_for_borrowing : MM Z := fun m =>
  let (last, d) := clock_just_passed_in_seconds (m_now m) (clock_borrowing (m_clocks m)) in
  (set_clocks m (mkClocks (clock_price_impact_distribution (m_clocks m)) last
                   (clock_funding (m_clocks m))), Ok d).

Definition just_passed_in_seconds_for_funding : MM Z := fun m =>
  let (last, d) := clock_just_passed_in_seconds (m_now m) (clock_funding (m_clocks m)) in
  (set_clocks m (mkClocks (clock_price_impact_distribution (m_clocks m))
                   (clock_borrowing (m_clocks m)) last), Ok d).
End MarketMut.
Arguments MM : clear implicits.

(** ** How a market moves

    Every operation of a market changes its pools by known amounts; [Moved m c m']
    says that the pools of [m'] are those of [m] changed by [c] (by kind and side)
    and that nothing else differs. *)
Definition Change : Type := PoolKind -> bool -> Z.
Definition no_change : Change := fun _ _ => 0.
Definition change_at (kind : PoolKind) (is_long : bool) (x : Z) : Change :=
  fun k b => if decide (k = kind) then if Bool.eqb b is_long then x else 0 else 0.
Definition change_plus (c c' : Change) : Change := fun k b => c k b + c' k b.

Lemma change_at_same k b x : change_at k b x k b = x.
Proof. unfold change_at. rewrite decide_True by done. by destruct b. Qed.

Lemma change_at_other_side k b x : change_at k b x k (negb b) = 0.
Proof. unfold change_at. rewrite decide_True by done. by destruct b. Qed.

Lemma change_at_other k b x k' b' : k' <> k -> change_at k b x k' b' = 0.
Proof. intros. unfold change_at. by rewrite decide_False. Qed.

Lemma change_at_zero k b k' b' : change_at k b 0 k' b' = 0.
Proof. unfold change_at. destruct (decide _); [|done]. by destruct (Bool.eqb _ _). Qed.

Lemma change_at_minus k b x y k' b' :
  change_at k b (x - y) k' b' = change_at k b x k' b' - change_at k b y k' b'.
Proof. unfold change_at. destruct (decide _); [|done]. destruct (Bool.eqb _ _); lia. Qed.

Declare Scope change_scope.
Delimit Scope change_scope with change.
Infix "+" := change_plus : change_scope.

Section Moved.
Context {I : UInt} {IOk : UIntOk I} {P T : Type} {O : PoolOps P} {L : PoolLaws I P}
  {S : SupplyOps T} {SL : SupplyLaws T}.
Implicit Types m : Market P T.

Definition market_wf m : Prop :=
  (forall k, pool_wf (pool_of m k)) /\ supply_wf (m_supply m).

(** The amount of a pool, its total, and whether it is pure. *)
Definition amt m (kind : PoolKind) (is_long : bool) : Z := pool_amount (pool_of m kind) is_long.
Definition total_amt m (kind : PoolKind) : Z := amt m kind true + amt m kind false.

Record Moved m (c : Change) m' : Prop := {
  moved_pools k : pool_moved (pool_of m k) (c k true) (c k false) (pool_of m' k);
  moved_rest : m' = set_pools m (m_pools m');
}.

Lemma moved_wf m c m' : market_wf m -> Moved m c m' -> market_wf m'.
Proof.
  intros [_ Hs] [Hp Hr]. split.
  - intros k. eapply (pool_moved_wf _ _ _ _ (Hp k)).
  - by rewrite Hr.
Qed.

Lemma moved_refl m : market_wf m -> Moved m no_change m.
Proof. intros [Hp _]. split; [|by destruct m]. intros k. by apply pool_moved_refl. Qed.

Lemma moved_trans m c m1 c' m' :
  Moved m c m1 -> Moved m1 c' m' -> Moved m (c + c')%change m'.
Proof.
  intros [Hp Hr] [Hp' Hr']. split.
  - intros k. unfold change_plus. eapply (pool_moved_trans _ _ _ _ _ _ _ (Hp k) (Hp' k)).
  - rewrite Hr', Hr. done.
Qed.

Lemma moved_ext m c m' c' : Moved m c m' -> (forall k b, c k b = c' k b) -> Moved m c' m'.
Proof. intros [Hp Hr] He. split; [|done]. intros k. rewrite <- !He. apply Hp. Qed.

(** What a move says about the amounts. *)
Lemma moved_total m c m' k :
  Moved m c m' -> total_amt m' k = total_amt m k + c k true + c k false.
Proof. intros [Hp _]. destruct (Hp k) as (_ & _ & Ht & _). exact Ht. Qed.

Lemma moved_amt m c m' k b :
  Moved m c m' -> pool_pure (pool_of m k) = false -> amt m' k b = amt m k b + c k b.
Proof.
  intros [Hp _] Hi. destruct (Hp k) as (_ & _ & _ & Ha). specialize (Ha Hi).
  unfold amt. destruct b; lia.
Qed.

Lemma moved_pure m c m' k : Moved m c m' -> pool_pure (pool_of m' k) = pool_pure (pool_of m k).
Proof. intros [Hp _]. by destruct (Hp k) as (_ & ? & _). Qed.

Lemma moved_supply m c m' : Moved m c m' -> m_supply m' = m_supply m.
Proof. intros [_ ->]. done. Qed.
Lemma moved_config m c m' : Moved m c m' -> m_config m' = m_config m.
Proof. intros [_ ->]. done. Qed.

Lemma amt_ok m k b : market_wf m -> balance_amount (pool_of m k) b = Ok (amt m k b).
Proof. intros [Hp _]. by apply balance_amount_ok. Qed.

Lemma amt_in_u m k b : market_wf m -> in_u (amt m k b).
Proof. intros [Hp _]. by apply pool_amount_in_u. Qed.

(** ** Each elementary method as a move *)
Lemma pool_of_set_pools m k p k' :
  pool_of (set_pools m (pools_set (m_pools m) k p)) k' =
  if decide (k' = k) then p else pool_of m k'.
Proof. unfold pool_of. simpl. apply pools_get_set. Qed.

Lemma update_pool_inv m k f m' u :
  update_pool k f m = (m', Ok u) ->
  exists p, f (pool_of m k) = Ok p /\ m' = set_pools m (pools_set (m_pools m) k p).
Proof. unfold update_pool. intros Hr. inv_ok. eauto. Qed.

Lemma update_pool_moved m k f l s m' u :
  market_wf m ->
  (forall p, f (pool_of m k) = Ok p -> pool_moved (pool_of m k) l s p) ->
  update_pool k f m = (m', Ok u) ->
  Moved m (change_at k true l + change_at k false s)%change m'.
Proof.
  intros [Hp _] Hf Hr. unfold update_pool in Hr. inv_ok. split.
  - intros k'. rewrite pool_of_set_pools. unfold change_plus, change_at.
    destruct (decide (k' = k)) as [->|]; simpl; [|by apply pool_moved_refl].
    eapply pool_moved_eq; [eauto|lia|lia].
  - done.
Qed.

Lemma update_pool_amount_moved m k b d m' u :
  market_wf m -> update_pool k (fun p => apply_delta_amount p b d) m = (m', Ok u) ->
  Moved m (change_at k b d) m'.
Proof.
  intros Hwf Hr. eapply moved_ext.
  - eapply update_pool_moved; [done| |exact Hr].
    intros p Hp. eapply apply_delta_amount_moves; [apply Hwf|exact Hp].
  - intros k' b'. unfold change_plus, change_at. destruct (decide (k' = k)); [|lia].
    destruct b, b'; simpl; lia.
Qed.

Lemma update_pool_side (m : Market P T) k (b : bool) d :
  (if b return MM P T unit then update_pool k (fun p : P => apply_delta_to_long_amount p d)
   else update_pool k (fun p : P => apply_delta_to_short_amount p d)) m
  = update_pool k (fun p : P => apply_delta_amount p b d) m.
Proof. by destruct b. Qed.

Lemma apply_delta_moved m b d m' u :
  market_wf m -> apply_delta b d m = (m', Ok u) -> Moved m (change_at Primary b d) m'.
Proof.
  intros Hwf Hr. eapply update_pool_amount_moved; [done|].
  rewrite <- update_pool_side. by destruct b.
Qed.

Lemma apply_delta_to_claimable_fee_pool_moved m b d m' u :
  market_wf m -> apply_delta_to_claimable_fee_pool b d m = (m', Ok u) ->
  Moved m (change_at ClaimableFee b d) m'.
Proof. apply update_pool_amount_moved. Qed.

Lemma apply_delta_to_position_impact_pool_moved m d m' u :
  market_wf m -> apply_delta_to_position_impact_pool d m = (m', Ok u) ->
  Moved m (change_at PositionImpact true d) m'.
Proof. intros Hwf Hr. by eapply (update_pool_amount_moved m PositionImpact true). Qed.

Lemma apply_delta_to_funding_amount_per_size_moved m b c d m' u :
  market_wf m -> apply_delta_to_funding_amount_per_size b c d m = (m', Ok u) ->
  Moved m (change_at (FundingAmountPerSize b) c d) m'.
Proof. apply update_pool_amount_moved. Qed.

Lemma apply_delta_to_claimable_funding_amount_per_size_moved m b c d m' u :
  market_wf m -> apply_delta_to_claimable_funding_amount_per_size b c d m = (m', Ok u) ->
  Moved m (change_at (ClaimableFundingAmountPerSize b) c d) m'.
Proof. apply update_pool_amount_moved. Qed.

Lemma mint_supply m a m' u : mint a m = (m', Ok u) -> supply_mint (m_supply m) a = Ok (m_supply m').
Proof. intros Hr. unfold mint in Hr. by inv_ok. Qed.

Lemma burn_supply m a m' u : burn a m = (m', Ok u) -> supply_burn (m_supply m) a = Ok (m_supply m').
Proof. intros Hr. unfold burn in Hr. by inv_ok. Qed.

Lemma mint_ok m a m' u :
  market_wf m -> 0 <= a -> mint a m = (m', Ok u) ->
  market_wf m' /\ m' = set_supply m (m_supply m') /\
  total_supply m' = total_supply m + a.
Proof.
  intros [Hp Hs] Ha Hr. unfold mint in Hr. inv_ok.
  apply supply_mint_law in Hv as [??]; [|done..]. by split_and!.
Qed.

Lemma burn_ok m a m' u :
  market_wf m -> 0 <= a -> burn a m = (m', Ok u) ->
  market_wf m' /\ m' = set_supply m (m_supply m') /\
  total_supply m' = total_supply m - a.
Proof.
  intros [Hp Hs] Ha Hr. unfold burn in Hr. inv_ok.
  apply supply_burn_law in Hv as [??]; [|done..]. by split_and!.
Qed.
End Moved.
