(* ===== verification/TestMarket.v ===== *)
(** * The crate's test market ([crates/gmsol-model/src/test.rs])

    The market the crate tests itself with: [u64] values with nine decimals, the default
    configuration, [TestPool]s and a checked supply. The examples of the development
    run the model on it. *)
From S2P Require Import Prelude Kinds Num Fixed Price Params Pool Market.

Section Supply.
Context {I : UInt}.

(** [TestMarket]'s [total_supply] with its [mint] and [burn]. *)
Definition test_mint (self amount : Z) : result Z := ok_or (uadd self amount) Overflow.
Definition test_burn (self amount : Z) : result Z :=
  ok_or (usub self amount) (Computation "burning market tokens").

#[export] Instance test_supply : SupplyOps Z := {|
  supply_total s := s; supply_mint := test_mint; supply_burn := test_burn |}.

#[export] Instance test_supply_laws : SupplyLaws Z.
Proof.
  refine {| supply_wf := in_u |}.
  - intros s [??]. done.
  - unfold supply_mint, supply_total; simpl. unfold test_mint. intros s a s' _ _ Hr. num_inv. done.
  - unfold supply_burn, supply_total; simpl. unfold test_burn. intros s a s' _ _ Hr. num_inv. done.
Defined.
End Supply.

(** [u64] with nine decimals; the examples use whole exponents, for which [rust_decimal] is
    not called. *)
#[local] Existing Instance u64.
Definition test_num : FixedPointOps u64 := u64_fixed (fun _ _ _ => None) 9.

Definition SECONDS_PER_YEAR : Z := 365 * 24 * 3600.

Definition default_kink : BorrowingFeeKinkModelParamsForOneSide :=
  mkKinkOneSide 750000000 (600000000 / SECONDS_PER_YEAR) (1500000000 / SECONDS_PER_YEAR).

(** [TestMarketConfig::<u64, 9>::default] and the divisor and adjustment of [with_config]. *)
Definition default_config : MarketConfig := {|
  usd_to_amount_divisor := 1;
  max_pool_amount _ := 1000000000 * 1000000000;
  pnl_factor_config kind _ :=
    match kind with
    | MaxAfterDeposit => 600000000
    | MaxAfterWithdrawal => 300000000
    | MaxForTrader => 500000000
    | ForAdl => 500000000
    | MinAfterAdl => 0
    end;
  reserve_factor := 1000000000;
  open_interest_reserve_factor := 1000000000;
  max_open_interest _ := 2 ^ 64 - 1;
  ignore_open_interest_for_usage_factor := false;
  swap_impact_params := mkPriceImpactParams 2000000000 4 8;
  swap_fee_params := mkFeeParams 500000 700000 370000000 None;
  position_impact_params := mkPriceImpactParams 2000000000 1 2;
  position_impact_distribution_params := mkPositionImpactDistributionParams 1000000000 1000000000;
  borrowing_fee_params := mkBorrowingFeeParams 370000000 1000000000 1000000000 28 28 false;
  borrowing_fee_kink_model_params := mkKink default_kink default_kink;
  funding_amount_per_size_adjustment := 10000;
  funding_fee_params := mkFundingFeeParams 1000000000 20 10 0 10 1 50000000 0;
  position_params :=
    mkPositionParams 1000000000 1000000000 10000000 5000000 5000000 2500000;
  order_fee_params := mkFeeParams 500000 700000 370000000 None;
  min_collateral_factor_for_open_interest_multiplier _ := 5 * 10 ^ 6 / 83000000;
  liquidation_fee_params := mkLiquidationFeeParams 2000000 370000000;
  max_pool_value_for_deposit _ := 2 ^ 64 - 1;
|}.

(** A market in use: liquidity on both sides, open interest, an impact pool and fees. *)
Definition example_pools : Pools TestPool :=
  pools_of (fun k =>
    match k with
    | Primary => mkTestPool 10000000000 1200000000000
    | SwapImpact => mkTestPool 1000 120000
    | OpenInterestForLong => mkTestPool 400000000000 100000000000
    | OpenInterestForShort => mkTestPool 0 300000000000
    | OpenInterestInTokensForLong => mkTestPool 3400000000 850000000
    | OpenInterestInTokensForShort => mkTestPool 0 2500000000
    | PositionImpact => mkTestPool 2000000000 0
    | CollateralSumForLong => mkTestPool 400000000 10000000000
    | CollateralSumForShort => mkTestPool 0 30000000000
    | _ => mkTestPool 0 0
    end).

Definition example_market : Market TestPool Z :=
  mkMarket default_config example_pools 2400000000000 (mkClocks 1000 1000 1000) 0 1060.

Definition example_prices : Prices := mkPrices (mkPrice 119 121) (mkPrice 119 121) (mkPrice 1 1).

Lemma example_market_wf : market_wf example_market.
Proof.
  split.
  - intros k. destruct k; vm_compute; repeat split; discriminate.
  - vm_compute. split; discriminate.
Qed.

Lemma example_prices_in_range : prices_in_range example_prices.
Proof. vm_compute. repeat split; discriminate. Qed.
