(* ===== verification/MarketFacts.v ===== *)
(** * What the reads of a market guarantee ([crates/gmsol-model/src/market])

    The functional behaviour of the pure methods: open interest and pnl, the
    value of the pool and its spread, the caps on price impact, and the kink
    model of the borrowing fees. *)
From S2P Require Import Prelude Kinds Num Fixed Price Params Pool Market TestMarket.

#[export] Hint Resolve moved_wf : rust.

Section MarketFacts.
Context {I : UInt} {IOk : UIntOk I} {F : FixedPointOps I} {FOk : FixedPointOk F}
  {P T : Type} {O : PoolOps P} {L : PoolLaws I P} {S : SupplyOps T} {SL : SupplyLaws T}.
Implicit Types m : Market P T.

(** ** Balances *)
Definition open_interest_amt m (b : bool) : Z := total_amt m (OpenInterest b).
Definition open_interest_in_tokens_amt m (b : bool) : Z := total_amt m (OpenInterestInTokens b).

Lemma merged_amount_ok m k k' b r :
  market_wf m ->
  balance_amount (mkMerged (pool_of m k) (pool_of m k')) b = Ok r ->
  r = total_amt m (if b then k else k') /\ in_u r.
Proof.
  intros [Hp _] Hr. unfold total_amt, amt.
  destruct b; simpl in Hr; rewrite pool_long_amount, pool_short_amount in Hr by done;
    unfold rbind in Hr; num_inv; done.
Qed.

Lemma open_interest_ok m b r :
  market_wf m -> balance_amount (open_interest m) b = Ok r ->
  r = open_interest_amt m b /\ in_u r.
Proof. intros Hwf Hr. apply merged_amount_ok in Hr; [|done]. by destruct b. Qed.

Lemma open_interest_in_tokens_ok m b r :
  market_wf m -> balance_amount (open_interest_in_tokens m) b = Ok r ->
  r = open_interest_in_tokens_amt m b /\ in_u r.
Proof. intros Hwf Hr. apply merged_amount_ok in Hr; [|done]. by destruct b. Qed.

Lemma pool_side_value_ok m prices b mx r :
  market_wf m -> pool_value_without_pnl_for_one_side m prices b mx = Ok r ->
  r = amt m Primary b * pick_price (collateral_token_price prices b) mx /\ in_u r.
Proof.
  intros [Hp _] Hr. unfold pool_value_without_pnl_for_one_side, long_usd_value, short_usd_value,
    liquidity_pool, collateral_token_price, amt in *.
  destruct b; rewrite ?pool_long_amount, ?pool_short_amount in Hr by done; unfold rbind in Hr;
    num_inv; done.
Qed.

Lemma pick_price_spread p : price_min p <= price_max p -> pick_price p false <= pick_price p true.
Proof. done. Qed.

(** The tokens a market holds apart from collateral: what the source adds up in
    [expected_min_token_balance_excluding_collateral_amount_for_one_token_side]. *)
Definition held m (b : bool) : Z := amt m Primary b + amt m SwapImpact b + amt m ClaimableFee b.

Lemma expected_min_token_balance_ok m b r :
  market_wf m ->
  expected_min_token_balance_excluding_collateral_amount_for_one_token_side m b = Ok r ->
  r = held m b /\ in_u (held m b).
Proof.
  intros Hwf Hr. unfold expected_min_token_balance_excluding_collateral_amount_for_one_token_side,
    liquidity_pool, swap_impact_pool, claimable_fee_pool in Hr.
  rewrite !amt_ok in Hr by done. unfold held. code_inv. done.
Qed.

(** None of the token pools is pure. *)
Definition tokens_impure m : Prop :=
  pool_pure (pool_of m Primary) = false /\ pool_pure (pool_of m SwapImpact) = false
  /\ pool_pure (pool_of m ClaimableFee) = false.

Definition held_change (c : Change) (b : bool) : Z :=
  c Primary b + c SwapImpact b + c ClaimableFee b.

Definition is_token_pool (k : PoolKind) : bool :=
  match k with Primary | SwapImpact | ClaimableFee => true | _ => false end.

(** A change that only concerns the token pools. *)
Definition token_change (c : Change) : Prop := forall k b, is_token_pool k = false -> c k b = 0.

Lemma held_change_plus c c' b : held_change (c + c')%change b = held_change c b + held_change c' b.
Proof. unfold held_change, change_plus. lia. Qed.

Lemma held_change_at k b x b' :
  held_change (change_at k b x) b' = if is_token_pool k && Bool.eqb b' b then x else 0.
Proof. unfold held_change, change_at. destruct k, b, b'; vm_compute (decide _); simpl; lia. Qed.

Lemma token_change_plus c c' : token_change c -> token_change c' -> token_change (c + c')%change.
Proof. intros Hc Hc' k b Hk. unfold change_plus. by rewrite Hc, Hc'. Qed.

Lemma token_change_at k b x : is_token_pool k = true -> token_change (change_at k b x).
Proof.
  intros Hk k' b' Hk'. unfold change_at. destruct (decide (k' = k)) as [->|]; [congruence|done].
Qed.

Lemma token_no_change : token_change no_change.
Proof. done. Qed.

Lemma held_total m c m' :
  Moved m c m' ->
  held m' true + held m' false
  = held m true + held m false + held_change c true + held_change c false.
Proof.
  intros Hm. pose proof (moved_total _ _ _ Primary Hm). pose proof (moved_total _ _ _ SwapImpact Hm).
  pose proof (moved_total _ _ _ ClaimableFee Hm). unfold held, held_change, total_amt in *. lia.
Qed.

Lemma held_side m c m' b : Moved m c m' -> tokens_impure m -> held m' b = held m b + held_change c b.
Proof.
  intros Hm (Hp & Hs & Hf). unfold held, held_change.
  rewrite (moved_amt _ _ _ _ _ Hm Hp), (moved_amt _ _ _ _ _ Hm Hs), (moved_amt _ _ _ _ _ Hm Hf). lia.
Qed.

(** ** Pnl *)
Lemma pnl_ok m price b mx r :
  market_wf m -> pnl m price b mx = Ok r ->
  let v := open_interest_in_tokens_amt m b * pick_price_for_pnl price b mx in
  r = (if b then v - open_interest_amt m b else open_interest_amt m b - v) /\ in_i r.
Proof.
  intros Hwf Hr. unfold pnl in Hr. unfold_num_tests. do 2 inv_ok_step.
  apply open_interest_ok in Hv as [-> ?]; [|done].
  apply open_interest_in_tokens_ok in Hv0 as [-> ?]; [|done].
  destruct bounds_linear as (h & ? & ? & ? & ?).
  inv_ok_step.
  - bool_to_prop. destruct b; num_inv; subst; unfold in_i; (split; [nia|lia]).
  - destruct b; num_inv; done.
Qed.

(** The pending pnl of a side. For longs it is the tokens owed at the index price less
    the open interest, for shorts the reverse, exactly (or an error); and the price that
    is picked makes the maximized pnl never less than the minimized one. *)
Lemma pnl_spec m price b lo hi :
  market_wf m -> price_min price <= price_max price ->
  pnl m price b false = Ok lo -> pnl m price b true = Ok hi ->
  let sign := if b then 1 else -1 in
  let worst := if b then price_min price else price_max price in
  let best := if b then price_max price else price_min price in
  lo = sign * (open_interest_in_tokens_amt m b * worst - open_interest_amt m b)
  /\ hi = sign * (open_interest_in_tokens_amt m b * best - open_interest_amt m b)
  /\ lo <= hi.
Proof.
  intros Hwf Hp Hlo Hhi. apply pnl_ok in Hlo as [-> _]; [|done]. apply pnl_ok in Hhi as [-> _]; [|done].
  assert (0 <= open_interest_in_tokens_amt m b).
  { unfold open_interest_in_tokens_amt, total_amt.
    pose proof (amt_in_u m (OpenInterestInTokens b) true Hwf).
    pose proof (amt_in_u m (OpenInterestInTokens b) false Hwf). unfold in_u in *. lia. }
  unfold pick_price_for_pnl. destruct b; simpl; split_and!; nia.
Qed.

Lemma cap_pnl_ok m b p v k r :
  cap_pnl m b p v k = Ok r ->
  r = (if 0 <? p then Z.min p (v * pnl_factor_config (m_config m) k b / UNIT) else p).
Proof.
  unfold cap_pnl. unfold_num_tests. intros Hr. code_inv; lia.
Qed.

(** ** The pending distribution of the position impact pool *)
Lemma pending_distribution_ok m d a n :
  market_wf m ->
  pending_position_impact_pool_distribution_amount m d = Ok (a, n) ->
  let params := position_impact_distribution_params (m_config m) in
  let current := amt m PositionImpact true in
  a + n = current /\ 0 <= n <= current /\ 0 <= a /\
  (a <> 0 -> min_position_impact_pool_amount params <= n) /\
  a = (if (distribute_factor params =? 0) || (current <=? min_position_impact_pool_amount params)
       then 0
       else Z.min (current - min_position_impact_pool_amount params)
              (d * distribute_factor params / UNIT)).
Proof.
  intros Hwf Hr. pose proof (amt_in_u m PositionImpact true Hwf) as Hu. unfold in_u in Hu.
  unfold pending_position_impact_pool_distribution_amount, position_impact_pool_amount,
    position_impact_pool in Hr.
  pose proof (amt_ok m PositionImpact true Hwf) as Ha. cbn [balance_amount] in Ha.
  rewrite Ha in Hr. unfold rbind at 1 in Hr. unfold_num_tests. pose proof unit_pos.
  cbv zeta. destruct (_ || _) eqn:Hoff.
  - num_inv. split_and!; lia.
  - code_inv. unfold in_u in *. rewrite if_ltb_min in *. split_and!; lia.
Qed.

(** ** Swap impact *)
Lemma swap_impact_pool_side m (b : bool) :
  market_wf m ->
  (if b then long_amount (swap_impact_pool m) else short_amount (swap_impact_pool m))
  = Ok (amt m SwapImpact b).
Proof. intros Hwf. rewrite <- amt_ok by done. by destruct b. Qed.

Lemma swap_impact_positive m b price usd a c :
  market_wf m -> 0 < price_max price -> 0 < usd ->
  swap_impact_amount_with_cap m b price usd = Ok (a, c) ->
  0 <= a <= amt m SwapImpact b /\ 0 <= c /\ (0 < c -> a = amt m SwapImpact b)
  /\ usd - price_max price < a * price_max price + c <= usd.
Proof.
  intros Hwf Hp Hu Hr. unfold swap_impact_amount_with_cap, pick_price in Hr.
  pose proof (amt_in_u m SwapImpact b Hwf) as Ha.
  unfold_num_tests. inv_ok_step; [discriminate|].
  destruct (Z.ltb_spec 0 usd); [|lia]. rewrite swap_impact_pool_side in Hr by done.
  code_inv. all: rewrite Z.quot_div_nonneg in * by lia; unfold in_u in *.
  all: pose proof (div_mul_le usd (price_max price) Hp); pose proof (div_mul_gt usd (price_max price) Hp);
    pose proof (div_nonneg usd (price_max price)).
  - rewrite Z.abs_eq in * by lia. split_and!; nia.
  - split_and!; nia.
Qed.

Lemma swap_impact_negative m b price usd a c :
  0 < price_min price -> usd < 0 ->
  swap_impact_amount_with_cap m b price usd = Ok (a, c) ->
  a <= 0 /\ c = 0 /\ (- a - 1) * price_min price < - usd <= - a * price_min price.
Proof.
  intros Hp Hu Hr. unfold swap_impact_amount_with_cap, pick_price in Hr.
  unfold_num_tests. inv_ok_step; [discriminate|].
  destruct (Z.ltb_spec 0 usd); [lia|]. destruct (Z.ltb_spec usd 0); [|lia].
  code_inv.
  assert (Z.quot (usd - price_min price + 1) (price_min price)
    = - Z.quot (- usd + price_min price - 1) (price_min price)) as ->
    by (rewrite <- Z.quot_opp_l by lia; f_equal; lia).
  pose proof (quot_round_up (- usd) (price_min price) ltac:(lia) ltac:(lia)).
  assert (0 <= Z.quot (- usd + price_min price - 1) (price_min price)) by (apply Z.quot_pos; lia).
  lia.
Qed.

(** [swap_impact_amount_with_cap] turns a value into tokens against the trader: a positive
    impact is rounded down, paid at the high price and never exceeds the impact pool, and
    what the cap withholds is reported so that payment plus capped value misses the
    impact by less than one token; a negative impact is rounded up at the low price, and
    zero impact costs nothing. *)
Lemma swap_impact_amount_with_cap_spec m b price usd a c :
  market_wf m -> price_in_range price ->
  swap_impact_amount_with_cap m b price usd = Ok (a, c) ->
  0 < price_min price /\ 0 < price_max price
  /\ (0 < usd -> 0 <= a <= amt m SwapImpact b /\ 0 <= c /\ (0 < c -> a = amt m SwapImpact b)
                 /\ usd - price_max price < a * price_max price + c <= usd)
  /\ (usd < 0 -> a <= 0 /\ c = 0 /\ (- a - 1) * price_min price < - usd <= - a * price_min price)
  /\ (usd = 0 -> a = 0 /\ c = 0).
Proof.
  intros Hwf [Hmin Hmax] Hr. unfold in_u in Hmin, Hmax.
  destruct (has_zero price) eqn:Hz.
  { unfold swap_impact_amount_with_cap in Hr. by rewrite Hz in Hr. }
  apply has_zero_false in Hz as Hz'. split_and!; [lia|lia|..]; intros Hu.
  - eapply swap_impact_positive; eauto; lia.
  - eapply swap_impact_negative; eauto; lia.
  - subst usd. unfold swap_impact_amount_with_cap in Hr. rewrite Hz in Hr. by injection Hr as <- <-.
Qed.

(** The mutable method: the impact pool moves by the negated amount, whose magnitude is
    returned. *)
Lemma apply_swap_impact_ok m b price usd m' r :
  market_wf m -> price_in_range price ->
  apply_swap_impact_value_with_cap b price usd m = (m', Ok r) ->
  exists a c, swap_impact_amount_with_cap m b price usd = Ok (a, c)
    /\ Moved m (change_at SwapImpact b (- a)) m' /\ r = Z.abs a /\ in_i (- a).
Proof.
  intros Hwf Hp Hr. unfold apply_swap_impact_value_with_cap in Hr.
  apply sbind_ok in Hr as (s & [a c] & Hs & Hr). apply sread_ok in Hs as [-> Hs].
  apply sbind_ok in Hr as (s & d & Hd & Hr). apply slift_ok in Hd as [-> Hd].
  apply ok_or_ok, ineg_some in Hd as [-> Hin]. cbn [fst] in *.
  apply sbind_ok in Hr as (s & u & Hu & Hr). apply sret_ok in Hr as [-> ->].
  exists a, c. split_and!; [done| |unfold unsigned_abs; lia|done].
  eapply update_pool_amount_moved; [done|]. rewrite <- update_pool_side. destruct b; exact Hu.
Qed.

(** ** The value of the pool *)
Definition price_ordered (p : Price) : Prop := 0 <= price_min p <= price_max p.
Definition prices_ordered (p : Prices) : Prop :=
  price_ordered (index_token_price p) /\ price_ordered (long_token_price p)
  /\ price_ordered (short_token_price p).

Definition capped (p v f : Z) : Z := if 0 <? p then Z.min p (v * f / UNIT) else p.

(** What remains of a side after its capped pnl grows with the value of the side and
    shrinks with the pnl, as long as the cap is at most the whole side. *)
Lemma capped_side_mono v v' p p' f :
  0 <= f <= UNIT -> 0 <= v <= v' -> p' <= p ->
  v - capped p v f <= v' - capped p' v' f.
Proof.
  intros Hf Hv Hp. unfold capped. pose proof unit_pos as HU.
  assert (0 <= v * f / UNIT) by (apply div_nonneg; nia).
  assert (0 <= v' * f / UNIT) by (apply div_nonneg; nia).
  assert (v' * f / UNIT <= v * f / UNIT + (v' - v)).
  { transitivity ((v * f + (v' - v) * UNIT) / UNIT); [apply div_le_mono; nia|].
    rewrite Z.div_add by lia. lia. }
  do 2 case_bool; lia.
Qed.

Lemma pool_value_ok m prices k mx r :
  market_wf m -> pool_value m prices k mx = Ok r ->
  exists fees n pl ps,
    total_borrowing_fees_for_pool m prices = Ok fees
    /\ pnl m (index_token_price prices) true (negb mx) = Ok pl
    /\ pnl m (index_token_price prices) false (negb mx) = Ok ps
    /\ (exists a, pending_position_impact_pool_distribution_amount m
                    (passed_in_seconds_for_position_impact_distribution m) = Ok (a, n))
    /\ (let side b p :=
          let v := amt m Primary b * pick_price (collateral_token_price prices b) mx in
          v - capped p v (pnl_factor_config (m_config m) k b) in
        r = side true pl + side false ps + fees
            - n * pick_price (index_token_price prices) (negb mx)).
Proof.
  intros Hwf Hr. unfold pool_value, net_pnl, impact_pool_value in Hr.
  inv_ok. code_inv.
  match goal with H : pool_value_without_pnl_for_one_side _ _ true _ = _ |- _ =>
    apply pool_side_value_ok in H as [-> ?]; [|done] end.
  match goal with H : pool_value_without_pnl_for_one_side _ _ false _ = _ |- _ =>
    apply pool_side_value_ok in H as [-> ?]; [|done] end.
  repeat match goal with H : cap_pnl _ _ _ _ _ = Ok _ |- _ => apply cap_pnl_ok in H; subst end.
  match goal with H : pending_position_impact_pool_distribution_amount _ _ = Ok ?p |- _ =>
    destruct p as [a n] end.
  eexists _, n, _, _. split_and!; try eassumption; [by exists a|]. unfold capped. simpl. lia.
Qed.

(** The spread of the pool value: with ordered prices and pnl caps of at most one, the
    minimized value of the pool is never above the maximized one, although pnl, its caps
    and the impact pool move against the token values. *)
Lemma pool_value_spread m prices k lo hi :
  market_wf m -> prices_ordered prices ->
  (forall b, 0 <= pnl_factor_config (m_config m) k b <= UNIT) ->
  pool_value m prices k false = Ok lo -> pool_value m prices k true = Ok hi -> lo <= hi.
Proof.
  intros Hwf (Hi & Hl & Hs) Hf Hlo Hhi. unfold price_ordered in *.
  apply pool_value_ok in Hlo as (fees & n & pl & ps & Hfe & Hpl & Hps & [a Hn] & ->); [|done].
  apply pool_value_ok in Hhi as (fees' & n' & pl' & ps' & Hfe' & Hpl' & Hps' & [a' Hn'] & ->); [|done].
  rewrite Hfe in Hfe'. injection Hfe' as <-. rewrite Hn in Hn'. injection Hn' as <- <-.
  simpl in Hpl, Hps, Hpl', Hps'.
  eapply pnl_spec in Hpl as (_ & _ & Hpl); [|done|lia|exact Hpl'].
  eapply pnl_spec in Hps as (_ & _ & Hps); [|done|lia|exact Hps'].
  apply pending_distribution_ok in Hn as (_ & ? & _ & _); [|done].
  cbv zeta. cbn [collateral_token_price pick_price negb].
  pose proof (amt_in_u m Primary true Hwf) as Hal. pose proof (amt_in_u m Primary false Hwf) as Has.
  unfold in_u in Hal, Has.
  assert (Hv : forall x p, 0 <= x -> 0 <= price_min p <= price_max p ->
    0 <= x * price_min p <= x * price_max p) by (intros; nia).
  pose proof (capped_side_mono _ _ pl pl' _ (Hf true) (Hv _ _ (proj1 Hal) Hl) Hpl).
  pose proof (capped_side_mono _ _ ps ps' _ (Hf false) (Hv _ _ (proj1 Has) Hs) Hps).
  nia.
Qed.

(** The price of a market token is never higher when minimized than when maximized, so
    tokens are never bought back by the pool for more than they are sold at the same prices;
    an empty market prices its token at one unit, and a negative pool value is refused. *)
Theorem market_token_price_spread m prices k lo hi :
  market_wf m -> prices_ordered prices ->
  (forall b, 0 <= pnl_factor_config (m_config m) k b <= UNIT) ->
  0 < usd_to_amount_divisor (m_config m) ->
  market_token_price m prices k false = Ok lo -> market_token_price m prices k true = Ok hi ->
  0 <= lo <= hi
  /\ (total_supply m = 0 -> lo = UNIT /\ hi = UNIT)
  /\ (total_supply m <> 0 -> exists v, pool_value m prices k false = Ok v /\ 0 <= v).
Proof.
  intros Hwf Hpr Hf Hdiv Hlo Hhi. pose proof unit_pos.
  assert (Hsup : 0 <= total_supply m) by apply supply_nonneg, Hwf.
  unfold market_token_price, is_zero in Hlo, Hhi.
  destruct (Z.eqb_spec (total_supply m) 0) as [Hz|Hz].
  { injection Hlo as <-. injection Hhi as <-. split_and!; try lia. }
  apply rbind_ok in Hlo as (v & Hv & Hlo), Hhi as (v' & Hv' & Hhi).
  pose proof (pool_value_spread m prices k _ _ Hwf Hpr Hf Hv Hv').
  unfold market_token_amount_to_usd in *. unfold_num_tests. code_inv.
  set (one := UNIT / _) in *. assert (0 <= one) by (apply div_nonneg; lia).
  rewrite !Z.abs_eq by lia. split_and!; try lia.
  - apply div_nonneg; nia.
  - apply div_le_mono; nia.
  - intros _. exists v. by split.
Qed.

(** ** The caps on position price impact *)

Lemma cap_positive_ok m price size impact up :
  market_wf m -> cap_positive_position_price_impact m price size impact = Ok up ->
  up = if 0 <? impact then
         Z.min impact
           (Z.min (amt m PositionImpact true * price_min price)
              (Z.abs size * max_positive_position_impact_factor (position_params (m_config m)) / UNIT))
       else impact.
Proof.
  intros Hwf Hup.
  unfold cap_positive_position_price_impact, position_impact_pool_amount, position_impact_pool,
    pick_price in Hup.
  pose proof (amt_ok m PositionImpact true Hwf) as Ha. cbn [balance_amount] in Ha.
  rewrite Ha in Hup. unfold_num_tests. case_bool; [|by code_inv].
  code_inv. rewrite !if_ltb_min. lia.
Qed.

Lemma cap_negative_ok m size liq impact diff down :
  cap_negative_position_price_impact m size liq impact = Ok (diff, down) ->
  let params := position_params (m_config m) in
  let factor := if liq then max_position_impact_factor_for_liquidations params
                else max_negative_position_impact_factor params in
  down = (if impact <? 0 then Z.max impact (- (Z.abs size * factor / UNIT)) else impact)
  /\ impact = down - diff /\ 0 <= diff.
Proof.
  intros Hdown. unfold cap_negative_position_price_impact in Hdown. unfold_num_tests.
  inv_ok_step; code_inv; cbv zeta in *; split_and!; lia.
Qed.

(** The largest positive price impact of a change of [size], and the largest negative one. *)
Definition positive_impact_limit (m : Market P T) (price : Price) (size : Z) : Z :=
  Z.min (amt m PositionImpact true * price_min price)
    (Z.abs size * max_positive_position_impact_factor (position_params (m_config m)) / UNIT).

Definition negative_impact_limit (m : Market P T) (size : Z) (liquidation : bool) : Z :=
  let params := position_params (m_config m) in
  Z.abs size * (if liquidation then max_position_impact_factor_for_liquidations params
                else max_negative_position_impact_factor params) / UNIT.

(** The price impact of a position change is capped on both signs. A positive impact is
    cut to the value of the impact pool at the low index price and to the configured
    share of the size; a negative one is cut to its configured share and what was cut is
    returned, so nothing of it disappears; neither cap changes the sign or increases
    the magnitude. *)
Theorem position_price_impact_caps m price size liq impact up diff down :
  market_wf m -> price_in_range price ->
  cap_positive_position_price_impact m price size impact = Ok up ->
  cap_negative_position_price_impact m size liq impact = Ok (diff, down) ->
  (impact <= 0 -> up = impact) /\ (0 <= impact -> down = impact /\ diff = 0)
  /\ (0 < impact -> up = Z.min impact (positive_impact_limit m price size))
  /\ (impact < 0 ->
        down = Z.max impact (- negative_impact_limit m size liq)
        /\ impact = down - diff /\ 0 <= diff).
Proof.
  intros Hwf Hp Hup Hdown. apply cap_positive_ok in Hup as ->; [|done].
  apply cap_negative_ok in Hdown as (-> & Hd & ?). unfold positive_impact_limit, negative_impact_limit.
  cbv zeta in *. do 2 case_bool; split_and!; intros; lia.
Qed.

(** ** The kink model *)

(** The rate the model means, over exact arithmetic: the base rate up to the optimal usage,
    and beyond it the surcharge that leads to the higher rate at full usage. *)
Definition kink_rate (side : BorrowingFeeKinkModelParamsForOneSide) (usage : Z) : Z :=
  let optimal := kink_optimal_usage_factor side in
  let base := kink_base_borrowing_factor side in
  let above := kink_above_optimal_usage_borrowing_factor side in
  usage * base / UNIT +
  (if (optimal <? usage) && (optimal <? UNIT)
   then Z.max 0 (above - base) * (usage - optimal) / (UNIT - optimal) else 0).

Lemma kink_rate_mono side u u' :
  0 <= kink_base_borrowing_factor side -> 0 <= u <= u' -> kink_rate side u <= kink_rate side u'.
Proof.
  intros Hb Hu. unfold kink_rate. pose proof unit_pos.
  assert (u * kink_base_borrowing_factor side / UNIT <= u' * kink_base_borrowing_factor side / UNIT)
    by (apply div_le_mono; nia).
  set (o := kink_optimal_usage_factor side) in *.
  set (d := Z.max 0 _). assert (0 <= d) by lia.
  destruct (Z.ltb_spec o UNIT); [|rewrite !andb_false_r; lia]. rewrite !andb_true_r.
  assert (o < u -> d * (u - o) / (UNIT - o) <= d * (u' - o) / (UNIT - o))
    by (intros; apply div_le_mono; nia).
  assert (o < u' -> 0 <= d * (u' - o) / (UNIT - o)) by (intros; apply div_nonneg; nia).
  do 2 case_bool; lia.
Qed.

(** The kink model of the borrowing fees. A zero optimal usage switches it off; otherwise
    the rate is the base rate of the usage plus, above the optimal usage, the surcharge,
    which never decreases with the usage and reaches exactly the larger of the two
    configured rates at full usage. *)
Theorem kink_model_spec m params b reserved value r :
  let side := params_for_one_side params b in
  0 <= kink_base_borrowing_factor side -> 0 <= kink_optimal_usage_factor side < UNIT ->
  kink_borrowing_factor_per_second params m b reserved value = Ok r ->
  (kink_optimal_usage_factor side = 0 -> r = None)
  /\ (kink_optimal_usage_factor side <> 0 ->
        exists u, usage_factor m b reserved value = Ok u /\ r = Some (kink_rate side u))
  /\ (forall u u', 0 <= u <= u' -> kink_rate side u <= kink_rate side u')
  /\ kink_rate side UNIT
     = Z.max (kink_base_borrowing_factor side) (kink_above_optimal_usage_borrowing_factor side).
Proof.
  cbv zeta. set (side := params_for_one_side params b). intros Hb Ho Hr.
  unfold kink_borrowing_factor_per_second, is_zero in Hr. fold side in Hr. cbv zeta in Hr.
  split_and!.
  - intros Hz. rewrite Hz in Hr. change (0 =? 0) with true in Hr. by injection Hr as <-.
  - intros Hz. destruct (Z.eqb_spec (kink_optimal_usage_factor side) 0); [lia|].
    apply rbind_ok in Hr as (u & Hu & Hr). exists u. split; [done|]. unfold kink_rate.
    destruct ((_ <? u) && _) eqn:Hlt; [|code_inv; f_equal; lia].
    destruct (Z.ltb_spec (kink_base_borrowing_factor side)
      (kink_above_optimal_usage_borrowing_factor side)); code_inv; f_equal.
    + by rewrite Z.max_r by lia.
    + by rewrite Z.max_l by lia.
  - intros u u' Hu. by apply kink_rate_mono.
  - unfold kink_rate. pose proof unit_pos.
    destruct (Z.ltb_spec (kink_optimal_usage_factor side) UNIT); [|lia]. simpl.
    rewrite Z.mul_comm, !Z.div_mul by lia. lia.
Qed.
End MarketFacts.

(** ** The theorems at the example market *)
Section Examples.
#[local] Existing Instance u64.
#[local] Existing Instance test_num.

Example pnl_spec_example : 5750000000 = 1 * (4250000000 * 119 - 500000000000) /\ 5750000000 <= 14250000000.
Proof.
  destruct (pnl_spec example_market (mkPrice 119 121) true 5750000000 14250000000
    example_market_wf) as (Hlo & _ & Hle); [simpl; lia|vm_compute; reflexivity..|]. by split.
Qed.

Example swap_impact_amount_with_cap_spec_example : 200000 - 121 < 1000 * 121 + 78892 <= 200000.
Proof.
  apply (swap_impact_amount_with_cap_spec example_market true (mkPrice 119 121) 200000 1000 78892
    example_market_wf); [vm_compute; repeat split; discriminate|vm_compute; reflexivity|lia].
Qed.

Lemma example_prices_ordered : prices_ordered example_prices.
Proof. vm_compute. repeat split; discriminate. Qed.

Lemma example_pnl_caps k b :
  0 <= pnl_factor_config (m_config example_market) k b <= UNIT.
Proof. destruct k; vm_compute; split; discriminate. Qed.

Example pool_value_spread_example : 2131250203820 <= 2168750203700.
Proof.
  apply (pool_value_spread example_market example_prices MaxAfterDeposit _ _ example_market_wf
    example_prices_ordered (example_pnl_caps _)); vm_compute; reflexivity.
Qed.

Example market_token_price_spread_example : 0 <= 888020918 <= 903645918.
Proof.
  apply (market_token_price_spread example_market example_prices MaxAfterDeposit _ _
    example_market_wf example_prices_ordered (example_pnl_caps _));
    [simpl; lia|vm_compute; reflexivity..].
Defined.

Example position_price_impact_caps_example :
  50000000 = Z.min 700000000 (Z.min (2000000000 * 119) (10000000000 * 5000000 / 1000000000)).
Proof.
  destruct (position_price_impact_caps example_market (mkPrice 119 121) 10000000000 true 700000000
    50000000 0 700000000 example_market_wf) as (_ & _ & Hup & _);
    [vm_compute; repeat split; discriminate|vm_compute; reflexivity|vm_compute; reflexivity|].
  exact (Hup eq_refl).
Defined.

Example kink_model_spec_example :
  kink_rate default_kink 1000000000 = 1500000000 / SECONDS_PER_YEAR.
Proof.
  destruct (kink_model_spec example_market (mkKink default_kink default_kink) true
    500000000000 1190000000000 (Some 7)) as (_ & _ & _ & Hu);
    [vm_compute; discriminate|vm_compute; split; [discriminate|reflexivity]
    |vm_compute; reflexivity|]. exact Hu.
Defined.
End Examples.
