(* ===== verification/Swap.v ===== *)
(** * Swaps ([crates/gmsol-model/src/action/swap.rs])

    [Swap::try_new] and [Swap::execute]. A swap computes the next three pools of the
    market in a [Cache], validates the cached market, and only then writes the
    pools back, so it is atomic. [debug_assert]s are not modelled; the theorems
    imply them where they matter. *)
From S2P Require Import Prelude Kinds Num Fixed Price Params Pool Market TestMarket MarketFacts.

Record SwapParams : Type := mkSwapParams {
  is_token_in_long : bool;
  token_in_amount : Z;
  swap_prices : Prices;
}.

Record SwapResult : Type := mkSwapResult {
  token_in_fees : Fees;
  token_out_amount : Z;
  price_impact_value : Z;
  price_impact_amount : Z;
}.

Record SwapReport : Type := mkSwapReport { swap_report_params : SwapParams; swap_result : SwapResult }.

Record ReassignedValues : Type := mkReassignedValues {
  long_token_delta_value : Z;
  short_token_delta_value : Z;
  token_in_price : Price;
  token_out_price : Price;
  long_pnl_factor_kind : PnlFactorKind;
  short_pnl_factor_kind : PnlFactorKind;
}.

(** What the two branches on the sign of the price impact assign. *)
Record SwapAmounts (P : Type) : Type := mkSwapAmounts {
  sa_token_in_amount : Z;
  sa_token_out_amount : Z;
  sa_pool_amount_out : Z;
  sa_price_impact_amount : Z;
  sa_swap_impact : P;
}.
Arguments mkSwapAmounts {P}.
Arguments sa_token_in_amount {P}.
Arguments sa_token_out_amount {P}.
Arguments sa_pool_amount_out {P}.
Arguments sa_price_impact_amount {P}.
Arguments sa_swap_impact {P}.

Section Swap.
Context {I : UInt} {F : FixedPointOps I} {P T : Type} {O : PoolOps P} {S : SupplyOps T}.
Implicit Types (market : Market P T) (params : SwapParams).

(** [Swap::try_new]. *)
Definition swap_try_new (is_token_in_long : bool) (token_in_amount : Z) (prices : Prices)
    : result SwapParams :=
  if is_zero token_in_amount then Err EmptySwap
  else
    let! _ := validate_prices prices in
    Ok (mkSwapParams is_token_in_long token_in_amount prices).

Definition reassign_values params : result ReassignedValues :=
  let long_price := long_token_price (swap_prices params) in
  let short_price := short_token_price (swap_prices params) in
  if is_token_in_long params then
    let! mid := mid long_price in
    let! v := ok_or (umul (token_in_amount params) mid) (Computation "long delta value") in
    let! long_delta_value := ok_or (try_i v) Convert in
    let! neg := ok_or (ineg long_delta_value) (Computation "negating long delta value") in
    Ok (mkReassignedValues long_delta_value neg long_price short_price
          MaxAfterDeposit MaxAfterWithdrawal)
  else
    let! mid := mid short_price in
    let! v := ok_or (umul (token_in_amount params) mid) (Computation "short delta value") in
    let! short_delta_value := ok_or (try_i v) Convert in
    let! neg := ok_or (ineg short_delta_value) (Computation "negating short delta value") in
    Ok (mkReassignedValues neg short_delta_value short_price long_price
          MaxAfterWithdrawal MaxAfterDeposit).

Definition charge_fees market params (is_positive_impact : bool) : result (Z * Fees) :=
  ok_or (apply_fees (swap_fee_params (m_config market)) is_positive_impact (token_in_amount params))
    (Computation "apply fees").

(** The branch [price_impact.is_positive()] of [try_execute]. *)
Definition positive_impact_amounts market params (v : ReassignedValues)
    (price_impact amount_after_fees : Z) : result (SwapAmounts P) :=
  let swap_impact_deduct_side := negb (is_token_in_long params) in
  let! capped := swap_impact_amount_with_cap market swap_impact_deduct_side
                   (token_out_price v) price_impact in
  let (signed_price_impact_amount, capped_diff_value) := capped in
  let! adjusted :=
    (if is_zero capped_diff_value then Ok (amount_after_fees, 0)
     else
       let! signed_value := to_signed capped_diff_value in
       let! r := swap_impact_amount_with_cap market (is_token_in_long params)
                   (token_in_price v) signed_value in
       let capped_diff_token_in_amount := fst r in
       let! token_in_amount :=
         ok_or (uadd amount_after_fees (unsigned_abs capped_diff_token_in_amount))
           (Computation "swap: adding capped diff amount") in
       Ok (token_in_amount, capped_diff_token_in_amount)) in
  let (token_in_amount, capped_diff_token_in_amount) := adjusted in
  let! neg_impact := ok_or (ineg signed_price_impact_amount)
                       (Computation "negating positive price impact amount ") in
  let! neg_capped := ok_or (ineg capped_diff_token_in_amount)
                       (Computation "negating capped diff amount ") in
  let! swap_impact :=
    checked_apply_delta (swap_impact_pool market)
      (new_both_sides swap_impact_deduct_side neg_impact neg_capped) in
  let price_impact_amount := unsigned_abs signed_price_impact_amount in
  let! pool_amount_out :=
    ok_or (checked_mul_div token_in_amount (pick_price (token_in_price v) false)
             (pick_price (token_out_price v) true))
      (Computation "pool amount out for positive impact") in
  let! token_out_amount := ok_or (uadd pool_amount_out price_impact_amount)
                             (Computation "token out amount for positive impact") in
  Ok (mkSwapAmounts token_in_amount token_out_amount pool_amount_out price_impact_amount
        swap_impact).

(** The other branch. *)
Definition negative_impact_amounts market params (v : ReassignedValues)
    (price_impact amount_after_fees : Z) : result (SwapAmounts P) :=
  let swap_impact_deduct_side := is_token_in_long params in
  let! capped := swap_impact_amount_with_cap market swap_impact_deduct_side
                   (token_in_price v) price_impact in
  let signed_price_impact_amount := fst capped in
  let! neg_impact := ok_or (ineg signed_price_impact_amount)
                       (Computation "negating negative price impact amount ") in
  let! swap_impact :=
    checked_apply_delta (swap_impact_pool market)
      (new_one_side swap_impact_deduct_side neg_impact) in
  let price_impact_amount := unsigned_abs signed_price_impact_amount in
  let! token_in_amount := ok_or (usub amount_after_fees price_impact_amount)
                            (Computation "swap: not enough fund to pay price impact") in
  if is_zero token_in_amount then
    Err (Computation "swap: not enough fund to pay price impact")
  else
    let! token_out_amount :=
      ok_or (checked_mul_div token_in_amount (pick_price (token_in_price v) false)
               (pick_price (token_out_price v) true))
        (Computation "token out amount for negative impact") in
    Ok (mkSwapAmounts token_in_amount token_out_amount token_out_amount price_impact_amount
          swap_impact).

(** [Cache]: the market with the three pools replaced; every other getter delegates. *)
Definition cache market (liquidity swap_impact claimable_fee : P) : Market P T :=
  set_pools market
    (pools_set (pools_set (pools_set (m_pools market) Primary liquidity)
       SwapImpact swap_impact) ClaimableFee claimable_fee).

Definition swap_try_execute market params : result (Market P T * SwapResult) :=
  let! v := reassign_values params in
  let! long_mid := mid (long_token_price (swap_prices params)) in
  let! short_mid := mid (short_token_price (swap_prices params)) in
  let! pool_delta :=
    pool_delta_try_new (liquidity_pool market) (long_token_delta_value v)
      (short_token_delta_value v) long_mid short_mid in
  let! price_impact := price_impact pool_delta (swap_impact_params (m_config market)) in
  let! charged := charge_fees market params (is_positive price_impact) in
  let (amount_after_fees, fees) := charged in
  let! receiver_amount := to_signed (fee_amount_for_receiver fees) in
  let! claimable_fee :=
    checked_apply_delta (claimable_fee_pool market)
      (new_one_side (is_token_in_long params) receiver_amount) in
  let! a :=
    (if is_positive price_impact
     then positive_impact_amounts market params v price_impact amount_after_fees
     else negative_impact_amounts market params v price_impact amount_after_fees) in
  let! pool_in := ok_or (uadd (sa_token_in_amount a) (fee_amount_for_pool fees)) Overflow in
  let! pool_in := to_signed pool_in in
  let! pool_out := to_opposite_signed (sa_pool_amount_out a) in
  let! liquidity :=
    checked_apply_delta (liquidity_pool market)
      (new_both_sides (is_token_in_long params) pool_in pool_out) in
  let cache := cache market liquidity (sa_swap_impact a) claimable_fee in
  let! _ := validate_pool_amount cache (is_token_in_long params) in
  let! _ := validate_reserve cache (swap_prices params) (negb (is_token_in_long params)) in
  let! _ := validate_max_pnl cache (swap_prices params) (long_pnl_factor_kind v)
              (short_pnl_factor_kind v) in
  Ok (cache, mkSwapResult fees (sa_token_out_amount a) price_impact (sa_price_impact_amount a)).

(** [Swap::execute]: the three pools are written back one by one. *)
Definition swap_execute params : MM P T SwapReport :=
  do! r := sread (fun market => swap_try_execute market params) in
  let (cache, result) := r in
  do! _ := update_pool Primary (fun _ => Ok (pool_of cache Primary)) in
  do! _ := update_pool SwapImpact (fun _ => Ok (pool_of cache SwapImpact)) in
  do! _ := update_pool ClaimableFee (fun _ => Ok (pool_of cache ClaimableFee)) in
  sret (mkSwapReport params result).

(** [SwapMarketMutExt::swap] and [execute]. *)
Definition swap (is_token_in_long : bool) (token_in_amount : Z) (prices : Prices)
    : MM P T SwapReport :=
  do! params := slift (swap_try_new is_token_in_long token_in_amount prices) in
  swap_execute params.
End Swap.

(** ** The effect of a swap *)
Section SwapFacts.
Context {I : UInt} {IOk : UIntOk I} {F : FixedPointOps I} {FOk : FixedPointOk F}
  {P T : Type} {O : PoolOps P} {L : PoolLaws I P} {S : SupplyOps T} {SL : SupplyLaws T}.
Implicit Types (market m : Market P T) (params : SwapParams).

(** What either branch achieves: the impact pool changes by [di] on the side of the token in
    and by [do] on the other; these changes finance the difference between what was
    charged and what the liquidity pool receives, and between what the trader and the
    pool pay out; and the payout is covered by the value paid in and the impact. *)
Definition amounts_ok market params (v : ReassignedValues) (impact after : Z) (a : SwapAmounts P)
    : Prop :=
  exists di do,
    pool_moved (swap_impact_pool market)
      (if is_token_in_long params then di else do) (if is_token_in_long params then do else di)
      (sa_swap_impact a)
    /\ sa_token_in_amount a + di = after
    /\ sa_token_out_amount a = sa_pool_amount_out a - do
    /\ 0 <= sa_pool_amount_out a /\ do <= 0
    /\ sa_token_out_amount a * price_max (token_out_price v)
       <= after * price_min (token_in_price v) + impact.

Lemma signed_of_new_both_sides (b : bool) x y :
  default 0 (delta_long (new_both_sides b x y)) = (if b then x else y)
  /\ default 0 (delta_short (new_both_sides b x y)) = (if b then y else x).
Proof. by destruct b. Qed.

Lemma signed_of_new_one_side (b : bool) x :
  default 0 (delta_long (new_one_side b x)) = (if b then x else 0)
  /\ default 0 (delta_short (new_one_side b x)) = (if b then 0 else x).
Proof. by destruct b. Qed.

Lemma both_sides_moves (p : P) b x y p' :
  pool_wf p -> checked_apply_delta p (new_both_sides b x y) = Ok p' ->
  pool_moved p (if b then x else y) (if b then y else x) p'.
Proof.
  intros Hwf Hr. apply apply_delta_moves in Hr; [|done].
  by rewrite (proj1 (signed_of_new_both_sides b x y)), (proj2 (signed_of_new_both_sides b x y)) in Hr.
Qed.

Lemma one_side_moves (p : P) b x p' :
  pool_wf p -> checked_apply_delta p (new_one_side b x) = Ok p' ->
  pool_moved p (if b then x else 0) (if b then 0 else x) p'.
Proof.
  intros Hwf Hr. apply apply_delta_moves in Hr; [|done].
  by rewrite (proj1 (signed_of_new_one_side b x)), (proj2 (signed_of_new_one_side b x)) in Hr.
Qed.

(** What is taken from the impact pool of the token in when the payout is capped. *)
Lemma capped_token_in_ok market b price capped after after' extra :
  market_wf market -> price_in_range price -> price_min price <= price_max price -> 0 <= capped ->
  (if is_zero capped then Ok (after, 0)
   else
     let! signed_value := to_signed capped in
     let! r := swap_impact_amount_with_cap market b price signed_value in
     let! t := ok_or (uadd after (unsigned_abs (fst r)))
                 (Computation "swap: adding capped diff amount") in
     Ok (t, fst r)) = Ok (after', extra) ->
  0 <= extra /\ after' = after + extra /\ extra * price_min price <= capped.
Proof.
  intros Hwf Hp Hle Hc Hr. unfold is_zero in Hr.
  destruct (Z.eqb_spec capped 0) as [->|]; [injection Hr as <- <-; lia|].
  inv_ok_step. apply to_signed_ok in Hv as [-> _]. inv_ok_step. destruct v as [x c].
  apply swap_impact_amount_with_cap_spec in Hv as (? & ? & Hpos & _ & _); [|done..].
  specialize (Hpos ltac:(lia)). cbn [fst] in Hr. unfold_num_tests. code_inv.
  rewrite Z.abs_eq in * by lia. split_and!; try lia. nia.
Qed.

Lemma positive_amounts_ok market params v impact after a :
  market_wf market -> 0 < impact ->
  price_in_range (token_in_price v) -> price_in_range (token_out_price v) ->
  price_min (token_in_price v) <= price_max (token_in_price v) ->
  positive_impact_amounts market params v impact after = Ok a ->
  amounts_ok market params v impact after a.
Proof.
  intros Hwf Hi Hin Hout Hle Hr. unfold positive_impact_amounts in Hr.
  inv_ok_step. destruct v0 as [x c].
  apply swap_impact_amount_with_cap_spec in Hv as (? & ? & Hpos & _ & _); [|done..].
  specialize (Hpos Hi). inv_ok_step. destruct v0 as [after' extra].
  apply capped_token_in_ok in Hv as (? & -> & ?); [|done|done|done|lia].
  unfold pick_price in Hr. unfold_num_tests. code_inv.
  match goal with H : checked_apply_delta _ _ = Ok _ |- _ =>
    apply both_sides_moves in H as Hm; [|apply Hwf] end.
  rewrite Z.abs_eq in * by lia. exists (- extra), (- x). simpl.
  set (out := _ / _) in *. unfold in_u in Hin, Hout.
  assert (0 <= out) by (unfold in_u in *; lia).
  assert (out * price_max (token_out_price v) <= (after + extra) * price_min (token_in_price v))
    by (apply div_mul_le; lia).
  split_and!; [by destruct (is_token_in_long params)|lia|lia|lia|lia|nia].
Qed.

Lemma negative_amounts_ok market params v impact after a :
  market_wf market -> impact <= 0 ->
  price_in_range (token_in_price v) -> price_in_range (token_out_price v) ->
  0 < price_max (token_out_price v) ->
  negative_impact_amounts market params v impact after = Ok a ->
  amounts_ok market params v impact after a.
Proof.
  intros Hwf Hi Hin Hout Hpos Hr. unfold negative_impact_amounts in Hr.
  inv_ok_step. destruct v0 as [x c].
  apply swap_impact_amount_with_cap_spec in Hv as (? & ? & _ & Hneg & Hzero); [|done..].
  assert (Hx : x <= 0 /\ - impact <= - x * price_min (token_in_price v)).
  { destruct (Z.eq_dec impact 0) as [->|]; [|lia]. destruct Hzero as [-> _]; lia. }
  unfold pick_price in Hr. unfold_num_tests. cbn [fst] in Hr. code_inv.
  match goal with H : checked_apply_delta _ _ = Ok _ |- _ =>
    apply one_side_moves in H as Hm; [|apply Hwf] end.
  rewrite Z.abs_neq in * by lia. exists (- x), 0. simpl.
  set (out := _ / _) in *. assert (0 <= out) by (unfold in_u in *; lia).
  assert (out * price_max (token_out_price v) <= (after - - x) * price_min (token_in_price v))
    by (apply div_mul_le; lia).
  split_and!; [by destruct (is_token_in_long params)|lia|lia|lia|lia|nia].
Qed.

Lemma pool_of_cache market l si cf k :
  pool_of (cache market l si cf) k =
  match k with
  | Primary => l
  | SwapImpact => si
  | ClaimableFee => cf
  | _ => pool_of market k
  end.
Proof. unfold pool_of, cache. simpl. rewrite !pools_get_set. by destruct k. Qed.

(** The cache moves exactly the three pools. *)
Lemma cache_moved market l si cf c :
  market_wf market ->
  pool_moved (liquidity_pool market) (c Primary true) (c Primary false) l ->
  pool_moved (swap_impact_pool market) (c SwapImpact true) (c SwapImpact false) si ->
  pool_moved (claimable_fee_pool market) (c ClaimableFee true) (c ClaimableFee false) cf ->
  (forall k b, k <> Primary -> k <> SwapImpact -> k <> ClaimableFee -> c k b = 0) ->
  Moved market c (cache market l si cf).
Proof.
  intros Hwf Hl Hs Hf Hz. split; [|done]. intros k. rewrite pool_of_cache.
  destruct k; try done; rewrite !Hz by done; apply pool_moved_refl, Hwf.
Qed.

(** Writing the pools of the cache back yields the cached market. *)
Lemma write_back market l si cf :
  set_pools market
    (pools_set (pools_set (pools_set (m_pools market) Primary l) SwapImpact si) ClaimableFee cf)
  = cache market l si cf.
Proof. done. Qed.

Lemma swap_execute_run market params :
  swap_execute params market =
  match swap_try_execute market params with
  | Ok (m', r) =>
      (set_pools market
         (pools_set (pools_set (pools_set (m_pools market) Primary (pool_of m' Primary))
            SwapImpact (pool_of m' SwapImpact)) ClaimableFee (pool_of m' ClaimableFee)),
       Ok (mkSwapReport params r))
  | Err e => (market, Err e)
  | Panic s => (market, Panic s)
  end.
Proof.
  unfold swap_execute, sbind, sread. destruct (swap_try_execute market params) as [[m' r]|e|s]; done.
Qed.

(** The exact changes of a swap. *)
Definition swap_change (b : bool) (primary_in primary_out impact_in impact_out fee : Z) : Change :=
  fun k side =>
    match k with
    | Primary => if Bool.eqb side b then primary_in else primary_out
    | SwapImpact => if Bool.eqb side b then impact_in else impact_out
    | ClaimableFee => if Bool.eqb side b then fee else 0
    | _ => 0
    end.

Definition in_price params : Price :=
  if is_token_in_long params then long_token_price (swap_prices params)
  else short_token_price (swap_prices params).
Definition out_price params : Price :=
  if is_token_in_long params then short_token_price (swap_prices params)
  else long_token_price (swap_prices params).

Lemma reassign_ok params v :
  reassign_values params = Ok v ->
  token_in_price v = in_price params /\ token_out_price v = out_price params
  /\ long_pnl_factor_kind v = (if is_token_in_long params then MaxAfterDeposit else MaxAfterWithdrawal)
  /\ short_pnl_factor_kind v = (if is_token_in_long params then MaxAfterWithdrawal else MaxAfterDeposit).
Proof.
  unfold reassign_values, in_price, out_price. intros Hr.
  destruct (is_token_in_long params); code_inv; done.
Qed.

Lemma swap_fees_nonneg market params m' r :
  swap_try_execute market params = Ok (m', r) ->
  0 <= fee_amount_for_pool (token_in_fees r) /\ 0 <= fee_amount_for_receiver (token_in_fees r).
Proof.
  unfold swap_try_execute. intros Hr. do 5 (apply rbind_ok in Hr as (? & _ & Hr)).
  apply rbind_ok in Hr as ([after fees] & Hfee & Hr).
  unfold charge_fees in Hfee. apply ok_or_ok, apply_fees_split in Hfee.
  do 10 (apply rbind_ok in Hr as (? & _ & Hr)). injection Hr as _ <-. simpl. lia.
Qed.

Lemma swap_try_execute_ok market params m' r :
  market_wf market -> prices_in_range (swap_prices params) -> prices_ordered (swap_prices params) ->
  0 < price_max (out_price params) ->
  swap_try_execute market params = Ok (m', r) ->
  exists pin pout di do,
    Moved market (swap_change (is_token_in_long params) pin (- pout) di do
                    (fee_amount_for_receiver (token_in_fees r))) m'
    /\ m' = cache market (pool_of m' Primary) (pool_of m' SwapImpact) (pool_of m' ClaimableFee)
    /\ pin + di + fee_amount_for_receiver (token_in_fees r) = token_in_amount params
    /\ token_out_amount r = pout - do
    /\ token_out_amount r * price_max (out_price params)
       <= (token_in_amount params - fee_amount_for_pool (token_in_fees r)
           - fee_amount_for_receiver (token_in_fees r)) * price_min (in_price params)
          + price_impact_value r
    /\ 0 <= token_out_amount r
    /\ validate_pool_amount m' (is_token_in_long params) = Ok tt
    /\ validate_reserve m' (swap_prices params) (negb (is_token_in_long params)) = Ok tt
    /\ validate_max_pnl m' (swap_prices params)
         (if is_token_in_long params then MaxAfterDeposit else MaxAfterWithdrawal)
         (if is_token_in_long params then MaxAfterWithdrawal else MaxAfterDeposit) = Ok tt.
Proof.
  intros Hwf (_ & Hrl & Hrs) (_ & Hol & Hos) Hpos Hr. unfold swap_try_execute in Hr.
  apply rbind_ok in Hr as (v & Hv & Hr).
  apply reassign_ok in Hv as (Hinp & Houtp & Hlk & Hsk).
  assert (Hin : price_in_range (token_in_price v) /\ price_ordered (token_in_price v))
    by (rewrite Hinp; unfold in_price; by destruct (is_token_in_long params)).
  assert (Hout : price_in_range (token_out_price v))
    by (rewrite Houtp; unfold out_price; by destruct (is_token_in_long params)).
  destruct Hin as [Hin Hle]. unfold price_ordered in Hle.
  do 4 (apply rbind_ok in Hr as (? & _ & Hr)). rename x2 into impact.
  apply rbind_ok in Hr as ([after fees] & Hfee & Hr).
  unfold charge_fees in Hfee. apply ok_or_ok, apply_fees_split in Hfee.
  apply rbind_ok in Hr as (rec & Hrec & Hr). apply to_signed_ok in Hrec as [-> _].
  apply rbind_ok in Hr as (cf & Hcf & Hr). apply one_side_moves in Hcf; [|apply Hwf].
  apply rbind_ok in Hr as (a & Ha & Hr).
  assert (Hok : amounts_ok market params v impact after a).
  { unfold_num_tests. destruct (Z.ltb_spec 0 impact).
    - apply positive_amounts_ok; auto; lia.
    - apply negative_amounts_ok; auto. by rewrite Houtp. }
  clear Ha. destruct Hok as (di & do & Hsi & Htin & Htout & ? & ? & Hval).
  inv_ok_step. inv_ok_step. inv_ok_step. inv_ok_step. code_inv.
  match goal with H : checked_apply_delta _ _ = Ok _ |- _ =>
    apply both_sides_moves in H as Hm; [|apply Hwf] end.
  repeat match goal with u : unit |- _ => destruct u end. rewrite Hlk, Hsk in *.
  exists (sa_token_in_amount a + fee_amount_for_pool fees), (sa_pool_amount_out a), di, do.
  cbn [token_in_fees token_out_amount price_impact_value].
  split_and!; try done; try lia.
  - apply cache_moved; try done.
    + by destruct (is_token_in_long params).
    + by destruct (is_token_in_long params).
    + by destruct (is_token_in_long params).
    + by intros [].
  - rewrite <- Hinp, <- Houtp. nia.
Qed.

(** A successful [swap] is a successful [try_execute] of validated parameters, and the
    market becomes the validated cache. *)
Lemma swap_ok m b x prices m' r :
  market_wf m -> prices_in_range prices -> prices_ordered prices ->
  swap b x prices m = (m', Ok r) ->
  let params := mkSwapParams b x prices in
  x <> 0 /\ swap_report_params r = params
  /\ 0 < price_max (out_price params) /\ 0 < price_min (in_price params)
  /\ swap_try_execute m params = Ok (m', swap_result r).
Proof.
  intros Hwf Hrange Hord Hr. unfold swap in Hr. inv_ok_step. apply slift_ok in Hv as [-> Hv].
  unfold swap_try_new in Hv. unfold_num_tests. inv_ok_step; [discriminate|]. inv_ok_step.
  apply validate_prices_ok in Hv0 as (_ & Hl & Hs). injection Hv as <-.
  pose proof (price_valid_pos _ (proj1 (proj2 Hrange)) Hl) as (? & ? & _).
  pose proof (price_valid_pos _ (proj2 (proj2 Hrange)) Hs) as (? & ? & _).
  rewrite swap_execute_run in Hr.
  assert (0 < price_max (out_price (mkSwapParams b x prices))) by (unfold out_price; by destruct b).
  assert (0 < price_min (in_price (mkSwapParams b x prices))) by (unfold in_price; by destruct b).
  destruct (swap_try_execute m _) as [[c res]| |] eqn:Ht; try discriminate.
  apply swap_try_execute_ok in Ht as Hok; [|done..].
  destruct Hok as (pin & pout & di & do & _ & Hc & _).
  rewrite write_back, <- Hc in Hr. injection Hr as <- <-. bool_to_prop. cbv zeta. done.
Qed.

(** A failing swap changes nothing. *)
Lemma swap_failure m b x prices m' res :
  swap b x prices m = (m', res) -> is_ok res = false -> m' = m.
Proof.
  intros Hr Hok. unfold swap, sbind, slift in Hr. destruct (swap_try_new b x prices) as [p| |];
    [|by injection Hr as <- <-..].
  rewrite swap_execute_run in Hr. destruct (swap_try_execute m p) as [[c s]| |];
    injection Hr as <- <-; done.
Qed.

Lemma swap_moves m b x prices m' r :
  market_wf m -> prices_in_range prices -> prices_ordered prices ->
  swap b x prices m = (m', Ok r) ->
  exists pin pout di do,
    Moved m (swap_change b pin (- pout) di do
               (fee_amount_for_receiver (token_in_fees (swap_result r)))) m'
    /\ pin + di + fee_amount_for_receiver (token_in_fees (swap_result r)) = x
    /\ token_out_amount (swap_result r) = pout - do.
Proof.
  intros Hwf Hrange Hord Hr. apply swap_ok in Hr as (_ & _ & ? & _ & Ht); [|done..].
  apply swap_try_execute_ok in Ht as (pin & pout & di & do & Hm & _ & ? & ? & _); [|done..].
  exists pin, pout, di, do. done.
Qed.

(** C13: a swap conserves tokens. The three token pools of the market (liquidity, swap impact,
    claimable fees) together gain exactly the token in and lose exactly the token out: on
    each side where the pools are not pure, and in total always. No other pool, no
    parameter, no clock and no supply changes. *)
Theorem swap_conserves_tokens m b x prices m' r :
  market_wf m -> prices_in_range prices -> prices_ordered prices ->
  swap b x prices m = (m', Ok r) ->
  let out := token_out_amount (swap_result r) in
  market_wf m' /\ m' = set_pools m (m_pools m')
  /\ held m' true + held m' false = held m true + held m false + x - out
  /\ (tokens_impure m ->
        held m' b = held m b + x /\ held m' (negb b) = held m (negb b) - out)
  /\ (forall k side, k <> Primary -> k <> SwapImpact -> k <> ClaimableFee ->
        pool_pure (pool_of m k) = false -> amt m' k side = amt m k side).
Proof.
  intros Hwf Hrange Hord Hr.
  apply swap_moves in Hr as (pin & pout & di & do & Hm & Hin & Hout); [|done..].
  cbv zeta. split_and!; [by eapply moved_wf|apply Hm|..].
  - rewrite (held_total _ _ _ Hm). unfold held_change. destruct b; simpl; lia.
  - intros Hi. rewrite !(held_side _ _ _ _ Hm) by done. unfold held_change. destruct b; simpl; lia.
  - intros k side H1 H2 H3 Hp. rewrite (moved_amt _ _ _ _ _ Hm Hp). destruct k; simpl; try done; lia.
Qed.

(** C25: a swap never pays out more than it takes in: the token out, at its high price, is worth
    at most the token in after fees, at its low price, plus the price impact (a negative
    impact is a charge). In particular without positive impact no value leaves. *)
Theorem swap_value_bounded m b x prices m' r :
  market_wf m -> prices_in_range prices -> prices_ordered prices ->
  swap b x prices m = (m', Ok r) ->
  let res := swap_result r in
  let fees := fee_amount_for_pool (token_in_fees res) + fee_amount_for_receiver (token_in_fees res) in
  let price_in := collateral_token_price prices b in
  let price_out := collateral_token_price prices (negb b) in
  0 <= token_out_amount res
  /\ token_out_amount res * price_max price_out
     <= (x - fees) * price_min price_in + price_impact_value res
  /\ (price_impact_value res <= 0 ->
      token_out_amount res * price_max price_out <= x * price_min price_in).
Proof.
  intros Hwf Hrange Hord Hr. apply swap_ok in Hr as (_ & _ & ? & ? & Ht); [|done..].
  pose proof Ht as Ht'. apply swap_fees_nonneg in Ht'.
  apply swap_try_execute_ok in Ht as (pin & pout & di & do & _ & _ & _ & _ & Hval & Hn & _); [|done..].
  cbv zeta. unfold in_price, out_price in *. cbn [is_token_in_long token_in_amount swap_prices] in *.
  destruct b; simpl in *; (split_and!; [lia|lia|intros; nia]).
Qed.

(** C36: a swap is atomic, and what it commits is validated: a failing swap leaves the market
    as it was; after a successful one the token-in pool is within its maximum, the other
    side still covers its reserve, and neither side exceeds its maximal pnl factor, all
    checked on the market that is committed. *)
Theorem swap_atomic_and_validated m b x prices m' res :
  market_wf m -> prices_in_range prices -> prices_ordered prices ->
  swap b x prices m = (m', res) ->
  (is_ok res = false -> m' = m)
  /\ (is_ok res = true ->
        validate_pool_amount m' b = Ok tt
        /\ validate_reserve m' prices (negb b) = Ok tt
        /\ validate_max_pnl m' prices
             (if b then MaxAfterDeposit else MaxAfterWithdrawal)
             (if b then MaxAfterWithdrawal else MaxAfterDeposit) = Ok tt).
Proof.
  intros Hwf Hrange Hord Hr. split; intros Hok.
  - by eapply swap_failure.
  - destruct res as [r| |]; try done. apply swap_ok in Hr as (_ & _ & ? & _ & Ht); [|done..].
    apply swap_try_execute_ok in Ht as (pin & pout & di & do & _ & _ & _ & _ & _ & _ & ? & ? & ?);
      done.
Qed.
End SwapFacts.

(** ** A swap on the example market *)
Section Examples.
#[local] Existing Instance u64.
#[local] Existing Instance test_num.

Definition example_swap : Market TestPool Z * result SwapReport :=
  swap false 200000000000 example_prices example_market.

(** The price impact of moving the pools apart by 400 USD is negative. *)
Definition example_swap_report : SwapReport :=
  mkSwapReport (mkSwapParams false 200000000000 example_prices)
    (mkSwapResult (mkFees 51800000 88200000) 1651724958 (-1280000) 1280000).

Lemma example_swap_ok :
  swap false 200000000000 example_prices example_market
  = (fst example_swap, Ok example_swap_report).
Proof. vm_compute. reflexivity. Qed.

Lemma swap_conserves_tokens_witness :
  held (fst example_swap) false = held example_market false + 200000000000
  /\ held (fst example_swap) true = held example_market true - 1651724958.
Proof.
  destruct (swap_conserves_tokens example_market false 200000000000 example_prices _ _
    example_market_wf example_prices_in_range example_prices_ordered example_swap_ok)
    as (_ & _ & _ & Hs & _).
  apply Hs. by split_and!.
Defined.

Lemma swap_value_bounded_witness : 1651724958 * 121 <= 200000000000 * 1.
Proof.
  destruct (swap_value_bounded example_market false 200000000000 example_prices _ _
    example_market_wf example_prices_in_range example_prices_ordered example_swap_ok)
    as (_ & _ & Hv).
  apply Hv. simpl. lia.
Defined.

Lemma swap_atomic_and_validated_witness :
  validate_reserve (fst example_swap) example_prices true = Ok tt.
Proof.
  destruct (swap_atomic_and_validated example_market false 200000000000 example_prices _ _
    example_market_wf example_prices_in_range example_prices_ordered example_swap_ok) as (_ & Hv).
  apply Hv. reflexivity.
Defined.
End Examples.
