(* ===== verification/Deposit.v ===== *)
(** * Deposits ([crates/gmsol-model/src/action/deposit.rs])

    [Deposit::try_new] and [Deposit::execute]. A deposit is not atomic by itself: a failure
    leaves the market partly changed, which the state monad shows; the store program
    runs it on a revertible copy. *)
From S2P Require Import Prelude Kinds Num Fixed Price Params Pool Market TestMarket MarketFacts.

Record DepositParams : Type := mkDepositParams {
  deposit_long_token_amount : Z;
  deposit_short_token_amount : Z;
  deposit_prices : Prices;
}.

Record DepositReport : Type := mkDepositReport {
  deposit_report_params : DepositParams;
  minted : Z;
  deposit_price_impact : Z;
  deposit_long_fees : Fees;
  deposit_short_fees : Fees;
}.

(** [DepositParams::reassign_values]: the amount, its price and the opposite price. *)
Definition deposit_reassign_values (params : DepositParams) (is_long_token : bool)
    : Z * Price * Price :=
  if is_long_token then
    (deposit_long_token_amount params, long_token_price (deposit_prices params),
     short_token_price (deposit_prices params))
  else
    (deposit_short_token_amount params, short_token_price (deposit_prices params),
     long_token_price (deposit_prices params)).

Section Deposit.
Context {I : UInt} {F : FixedPointOps I} {P T : Type} {O : PoolOps P} {S : SupplyOps T}.
Implicit Types (market : Market P T) (params : DepositParams).

(** [Deposit::try_new]. *)
Definition deposit_try_new (long_token_amount short_token_amount : Z) (prices : Prices)
    : result DepositParams :=
  if is_zero long_token_amount && is_zero short_token_amount then Err EmptyDeposit
  else Ok (mkDepositParams long_token_amount short_token_amount prices).

(** [Deposit::price_impact]: the impact and the values of the two amounts. *)
Definition deposit_impact market params : result (Z * Z * Z) :=
  let! long_amount := ok_or (try_i (deposit_long_token_amount params)) Convert in
  let! short_amount := ok_or (try_i (deposit_short_token_amount params)) Convert in
  let! long_mid := mid (long_token_price (deposit_prices params)) in
  let! short_mid := mid (short_token_price (deposit_prices params)) in
  let! delta := pool_delta_with_amounts (liquidity_pool market) long_amount short_amount
                  long_mid short_mid in
  let! price_impact := price_impact delta (swap_impact_params (m_config market)) in
  Ok (price_impact, unsigned_abs (long_token_usd_value (pd_delta delta)),
      unsigned_abs (short_token_usd_value (pd_delta delta))).

(** [Deposit::charge_fees]: the fees and the amount after them. *)
Definition deposit_charge_fees market (is_positive_impact : bool) (amount : Z)
    : result (Fees * Z) :=
  let! r := ok_or (apply_fees (swap_fee_params (m_config market)) is_positive_impact amount)
              (Computation "apply fees") in
  Ok (snd r, fst r).

(** [total.checked_add(&usd_to_market_token_amount(amount.checked_mul(price)?, ...)?)?]. *)
Definition add_minted (market : Market P T) (total amount price pool_value supply : Z) (msg : string)
    : result Z :=
  let! v := ok_or (umul amount price) Overflow in
  let! a := ok_or (usd_to_market_token_amount v pool_value supply
                     (usd_to_amount_divisor (m_config market)))
              (Computation msg) in
  ok_or (uadd total a) Overflow.

(** The positive-impact branch of [execute_deposit]: the new mint amount. *)
Definition deposit_positive_impact (is_long_token : bool) (opposite_price : Price)
    (price_impact pool_value supply : Z) : MM P T Z :=
  do! positive_impact_amount :=
    apply_swap_impact_value_with_cap (negb is_long_token) opposite_price price_impact in
  do! mint_amount := sread (fun market =>
    add_minted market 0 positive_impact_amount (pick_price opposite_price true) pool_value supply
      "convert positive usd to amount") in
  do! delta := slift (ok_or (try_i positive_impact_amount) Convert) in
  do! _ := apply_delta (negb is_long_token) delta in
  do! _ := sread (fun market => validate_pool_amount market (negb is_long_token)) in
  sret mint_amount.

(** The negative-impact branch: the amount that remains. *)
Definition deposit_negative_impact (is_long_token : bool) (price : Price)
    (price_impact amount : Z) : MM P T Z :=
  do! negative_impact_amount :=
    apply_swap_impact_value_with_cap is_long_token price price_impact in
  slift (ok_or (usub amount negative_impact_amount)
           (Computation "deposit: not enough fund to pay negative impact amount")).

Definition execute_deposit params (is_long_token : bool) (pool_value price_impact : Z)
    : MM P T (Z * Fees) :=
  do! supply := sread (fun market => Ok (total_supply market)) in
  if is_zero pool_value && negb (is_zero supply) then slift (Err (InvalidPoolValue "deposit"))
  else
    let '(amount, price, opposite_price) := deposit_reassign_values params is_long_token in
    do! charged := sread (fun market =>
      deposit_charge_fees market (is_positive price_impact) amount) in
    let (fees, amount) := charged in
    do! receiver := slift (ok_or (try_i (fee_amount_for_receiver fees)) Convert) in
    do! _ := apply_delta_to_claimable_fee_pool is_long_token receiver in
    let price_impact :=
      if is_positive price_impact && is_zero supply then 0 else price_impact in
    do! paid :=
      (if is_positive price_impact then
         do! mint_amount :=
           deposit_positive_impact is_long_token opposite_price price_impact pool_value supply in
         sret (mint_amount, amount)
       else if is_negative price_impact then
         do! amount := deposit_negative_impact is_long_token price price_impact amount in
         sret (0, amount)
       else sret (0, amount)) in
    let (mint_amount, amount) := paid in
    do! mint_amount := sread (fun market =>
      add_minted market mint_amount amount (pick_price price false) pool_value supply
        "convert negative usd to amount") in
    do! pool_in := slift (ok_or (uadd amount (fee_amount_for_pool fees)) Overflow) in
    do! pool_in := slift (ok_or (try_i pool_in) Convert) in
    do! _ := apply_delta is_long_token pool_in in
    do! _ := sread (fun market => validate_pool_amount market is_long_token) in
    do! _ := sread (fun market =>
      validate_pool_value_for_deposit market (deposit_prices params) is_long_token) in
    sret (mint_amount, fees).

(** One of the two sides of [execute]: nothing for an empty amount, else the side's share
    of the price impact and its deposit. *)
Definition deposit_side params (is_long_token : bool) (pool_value price_impact : Z)
    (side_value long_value short_value to_mint : Z) : MM P T (Z * Fees) :=
  let amount := if is_long_token then deposit_long_token_amount params
                else deposit_short_token_amount params in
  if is_zero amount then sret (to_mint, Fees_default)
  else
    do! total := slift (ok_or (uadd long_value short_value) Overflow) in
    do! share := slift (ok_or (checked_mul_div_with_signed_numerator side_value price_impact total)
      (Computation (if is_long_token then "price impact for long" else "price impact for short"))) in
    do! r := execute_deposit params is_long_token (unsigned_abs pool_value) share in
    do! to_mint := slift (ok_or (uadd to_mint (fst r)) Overflow) in
    sret (to_mint, snd r).

(** [Deposit::execute]. *)
Definition deposit_execute params : MM P T DepositReport :=
  do! _ := sread (fun market =>
    validate_max_pnl market (deposit_prices params) MaxAfterDeposit MaxAfterDeposit) in
  do! impact := sread (fun market => deposit_impact market params) in
  let '(price_impact, long_value, short_value) := impact in
  do! pool_value := sread (fun market =>
    pool_value market (deposit_prices params) MaxAfterDeposit true) in
  if is_negative pool_value then
    slift (Err (InvalidPoolValue "deposit: current pool value is negative"))
  else
    do! long := deposit_side params true pool_value price_impact long_value long_value short_value 0 in
    let (to_mint, long_fees) := long in
    do! short := deposit_side params false pool_value price_impact short_value long_value short_value
                   to_mint in
    let (to_mint, short_fees) := short in
    do! _ := mint to_mint in
    sret (mkDepositReport params to_mint price_impact long_fees short_fees).

(** [LiquidityMarketMutExt::deposit] and [execute]. *)
Definition deposit (long_token_amount short_token_amount : Z) (prices : Prices)
    : MM P T DepositReport :=
  do! params := slift (deposit_try_new long_token_amount short_token_amount prices) in
  deposit_execute params.
End Deposit.

(** ** The effect of a deposit *)
Section DepositFacts.
Context {I : UInt} {IOk : UIntOk I} {F : FixedPointOps I} {FOk : FixedPointOk F}
  {P T : Type} {O : PoolOps P} {L : PoolLaws I P} {S : SupplyOps T} {SL : SupplyLaws T}.
Implicit Types (market m : Market P T) (params : DepositParams).

(** Minting by value keeps the value per token: at a positive supply the minted tokens,
    at the pool's value per token, are worth at most what was added. *)
Lemma add_minted_ok m total amount price value supply msg r :
  0 <= amount -> 0 <= price -> 0 <= supply -> 0 <= value ->
  add_minted m total amount price value supply msg = Ok r ->
  total <= r /\ (0 < supply -> (r - total) * value <= supply * (amount * price))
  /\ (0 < supply -> value <> 0 -> r = total + supply * (amount * price) / value).
Proof.
  unfold add_minted, usd_to_market_token_amount. unfold_num_tests. intros Ha Hp Hs Hv Hr.
  assert (0 <= amount * price) by nia.
  apply rbind_ok in Hr as (v & Hvv & Hr). apply ok_or_ok, umul_some in Hvv as [-> _].
  apply rbind_ok in Hr as (a & Haa & Hr). apply ok_or_ok in Haa.
  apply ok_or_ok, uadd_some in Hr as [-> _].
  code_inv; unfold in_u in *; (split_and!; [lia|intros; try lia|intros; try lia]).
  pose proof (div_mul_le (supply * (amount * price)) value). lia.
Qed.

(** A run that reads only. *)
Lemma sread_inv {A} (f : Market P T -> result A) m m' a :
  sread f m = (m', Ok a) -> m' = m /\ f m = Ok a.
Proof. apply sread_ok. Qed.

(** What one side's deposit does to the market: it moves token pools only, and what the
    market holds grows by exactly [amount] on that side. *)
Definition side_effect (b : bool) (amount : Z) m m' : Prop :=
  exists c, Moved m c m' /\ token_change c
    /\ held_change c b = amount /\ held_change c (negb b) = 0.

Lemma positive_impact_ok b price impact value supply m m' r :
  market_wf m -> price_in_range price -> 0 < impact -> 0 <= supply -> 0 <= value ->
  deposit_positive_impact b price impact value supply m = (m', Ok r) ->
  exists c, Moved m c m' /\ token_change c
    /\ held_change c true = 0 /\ held_change c false = 0
    /\ 0 <= r /\ (0 < supply -> r * value <= supply * impact).
Proof.
  intros Hwf Hp Hi Hs Hv Hr. unfold deposit_positive_impact in Hr.
  apply sbind_ok in Hr as (m1 & x & Hx & Hr).
  apply apply_swap_impact_ok in Hx as (a & c & Hcap & Hm1 & -> & _); [|done..].
  apply swap_impact_amount_with_cap_spec in Hcap as (_ & ? & Hpos & _); [|done..].
  specialize (Hpos Hi). rewrite Z.abs_eq in Hr by lia. inv_ok.
  match goal with H : add_minted _ _ _ _ _ _ _ = Ok _ |- _ =>
    apply add_minted_ok in H as (? & Hval & _); [|unfold pick_price; lia..] end.
  num_inv.
  match goal with H : apply_delta _ _ _ = _ |- _ =>
    apply apply_delta_moved in H as Hm2; [|by eapply moved_wf] end.
  exists (change_at SwapImpact (negb b) (- a) + change_at Primary (negb b) a)%change.
  split_and!; [by eapply moved_trans|..].
  - by apply token_change_plus; apply token_change_at.
  - rewrite held_change_plus, !held_change_at. simpl. destruct b; simpl; lia.
  - rewrite held_change_plus, !held_change_at. simpl. destruct b; simpl; lia.
  - lia.
  - intros. unfold pick_price in *. nia.
Qed.

Lemma negative_impact_ok b price impact amount m m' r :
  market_wf m -> price_in_range price -> impact < 0 ->
  deposit_negative_impact b price impact amount m = (m', Ok r) ->
  exists x, Moved m (change_at SwapImpact b x) m' /\ r = amount - x /\ 0 <= x /\ 0 <= r
    /\ - impact <= x * price_min price.
Proof.
  intros Hwf Hp Hi Hr. unfold deposit_negative_impact in Hr.
  apply sbind_ok in Hr as (m1 & x & Hx & Hr).
  apply apply_swap_impact_ok in Hx as (a & c & Hcap & Hm1 & -> & _); [|done..].
  apply swap_impact_amount_with_cap_spec in Hcap as (_ & ? & _ & Hneg & _); [|done..].
  specialize (Hneg Hi). apply slift_ok in Hr as [-> Hr]. apply ok_or_ok, usub_some in Hr as [-> Hin].
  exists (- a). rewrite Z.abs_neq in * by lia. unfold in_u in Hin. split_and!; auto; lia.
Qed.

Definition deposit_amount params (b : bool) : Z :=
  if b then deposit_long_token_amount params else deposit_short_token_amount params.
Definition deposit_price params (b : bool) : Price := collateral_token_price (deposit_prices params) b.

(** The part of [execute_deposit] that turns the impact into tokens. *)
Lemma impact_paid_ok b (price opposite : Price) impact value supply after m m' mint amount :
  market_wf m -> price_in_range price -> price_in_range opposite -> 0 <= supply -> 0 <= value ->
  0 <= after ->
  (if is_positive impact then
     do! mint_amount := deposit_positive_impact b opposite impact value supply in
     sret (mint_amount, after)
   else if is_negative impact then
     do! amount := deposit_negative_impact b price impact after in
     sret (0, amount)
   else sret (0, after)) m = (m', Ok (mint, amount)) ->
  exists c, Moved m c m' /\ token_change c
    /\ held_change c b = after - amount /\ held_change c (negb b) = 0
    /\ 0 <= amount <= after /\ 0 <= mint
    /\ (0 < supply -> mint * value + supply * (amount * price_min price)
        <= supply * (after * price_min price + impact)).
Proof.
  intros Hwf Hp Ho Hs Hv Ha Hr. unfold in_u in *. unfold_num_tests. unfold price_in_range, in_u in Hp.
  destruct (Z.ltb_spec 0 impact) as [Hpos|Hnpos].
  - apply sbind_ok in Hr as (m1 & x & Hx & Hr). apply sret_ok in Hr as [-> [= -> ->]].
    apply positive_impact_ok in Hx as (c & Hm & Ht & Hl & Hsh & ? & Hval); [|done..].
    exists c. split_and!; try done; try lia; destruct b; simpl; lia.
  - destruct (Z.ltb_spec impact 0) as [Hneg|Hz].
    + apply sbind_ok in Hr as (m1 & x & Hx & Hr). apply sret_ok in Hr as [-> [= -> ->]].
      apply negative_impact_ok in Hx as (y & Hm & -> & ? & ? & ?); [|done..].
      exists (change_at SwapImpact b y). split_and!; try done; try lia.
      * by apply token_change_at.
      * rewrite held_change_at. destruct b; simpl; lia.
      * rewrite held_change_at. destruct b; simpl; lia.
      * intros. nia.
    + apply sret_ok in Hr as [-> [= -> ->]]. exists no_change.
      split_and!; try done; try lia; [by apply moved_refl|..]; unfold held_change, no_change; lia.
Qed.

(** One side of a deposit. *)
Lemma execute_deposit_ok params b value share m m' mint fees :
  market_wf m -> prices_in_range (deposit_prices params) -> 0 <= value ->
  0 <= deposit_amount params b ->
  execute_deposit params b value share m = (m', Ok (mint, fees)) ->
  (exists c, Moved m c m' /\ token_change c
     /\ held_change c b = deposit_amount params b /\ held_change c (negb b) = 0)
  /\ 0 <= mint
  /\ (0 < total_supply m ->
      mint * value <= total_supply m *
        (deposit_amount params b * price_min (deposit_price params b) + Z.max 0 share))
  /\ validate_pool_amount m' b = Ok tt
  /\ validate_pool_value_for_deposit m' (deposit_prices params) b = Ok tt.
Proof.
  intros Hwf Hpr Hv Hamt Hr. unfold execute_deposit in Hr.
  assert (Hsup : 0 <= total_supply m) by apply supply_nonneg, Hwf.
  apply sbind_ok in Hr as (? & supply & Hs & Hr). apply sread_ok in Hs as [-> [= <-]].
  destruct (is_zero value && _) eqn:Hz; [by apply slift_ok in Hr as [_ ?]|].
  assert (Hre : deposit_reassign_values params b
    = (deposit_amount params b, deposit_price params b, deposit_price params (negb b)))
    by (destruct b; done).
  rewrite Hre in Hr. clear Hre.
  assert (Hp : forall c, price_in_range (deposit_price params c))
    by (destruct Hpr as (? & ? & ?); by intros []).
  apply sbind_ok in Hr as (? & [fees' after] & Hf & Hr). apply sread_ok in Hf as [-> Hf].
  unfold deposit_charge_fees in Hf. inv_ok_step. destruct v as [after' fees''].
  apply ok_or_ok, apply_fees_split in Hv0. injection Hf as -> ->.
  apply sbind_ok in Hr as (? & rec & Hrec & Hr). apply slift_ok in Hrec as [-> Hrec].
  apply ok_or_ok, try_i_some in Hrec as [-> _].
  apply sbind_ok in Hr as (m1 & ? & Hcf & Hr).
  apply apply_delta_to_claimable_fee_pool_moved in Hcf as Hm1; [|done].
  set (impact := if is_positive share && _ then 0 else share) in *.
  assert (impact <= Z.max 0 share) by
    (subst impact; destruct (is_positive share), (is_zero (total_supply m)); simpl; lia).
  apply sbind_ok in Hr as (m2 & [mint' amount] & Hpaid & Hr).
  assert (Hwf1 : market_wf m1) by (by eapply moved_wf).
  apply impact_paid_ok in Hpaid as (c & Hm2 & Ht & Hb & Hnb & ? & ? & Hval); [|done|apply Hp|apply Hp|done|done|lia].
  assert (Hwf2 : market_wf m2) by (by eapply moved_wf).
  assert (Hmin : 0 <= price_min (deposit_price params b)) by apply Hp.
  inv_ok. num_inv. repeat match goal with u : unit |- _ => destruct u end.
  match goal with H : add_minted _ _ _ _ _ _ _ = Ok _ |- _ =>
    apply add_minted_ok in H as (? & Hval' & _); [|unfold pick_price; lia..] end.
  match goal with H : apply_delta _ _ _ = _ |- _ =>
    apply apply_delta_moved in H as Hm3; [|done] end.
  split_and!; try done; try lia.
  - exists (change_at ClaimableFee b (fee_amount_for_receiver fees') + c
            + change_at Primary b (amount + fee_amount_for_pool fees'))%change.
    split_and!.
    + eapply moved_trans; [by eapply moved_trans|done].
    + apply token_change_plus; [apply token_change_plus|]; [by apply token_change_at|done|by apply token_change_at].
    + rewrite !held_change_plus, !held_change_at, Hb. destruct b; cbn [is_token_pool Bool.eqb andb negb]; lia.
    + rewrite !held_change_plus, !held_change_at, Hnb. destruct b; cbn [is_token_pool Bool.eqb andb negb]; lia.
  - intros. unfold pick_price in *. specialize (Hval' ltac:(lia)). specialize (Hval ltac:(lia)).
    assert (after * price_min (deposit_price params b) + impact
      <= deposit_amount params b * price_min (deposit_price params b) + Z.max 0 share) as Hle
      by (destruct Hv0 as (? & ? & ? & ? & _); nia).
    pose proof (Z.mul_le_mono_nonneg_l _ _ (total_supply m) Hsup Hle). lia.
Qed.

(** A side of [execute], empty or not. *)
Lemma deposit_side_ok params b pv impact side_value lv sv tm m m' tm' fees :
  market_wf m -> prices_in_range (deposit_prices params) -> 0 <= pv ->
  0 <= deposit_amount params b -> 0 <= side_value ->
  deposit_side params b pv impact side_value lv sv tm m = (m', Ok (tm', fees)) ->
  (exists c, Moved m c m' /\ token_change c
     /\ held_change c b = deposit_amount params b /\ held_change c (negb b) = 0)
  /\ tm <= tm'
  /\ exists share,
      (0 < total_supply m ->
        (tm' - tm) * pv <= total_supply m *
          (deposit_amount params b * price_min (deposit_price params b) + share))
      /\ 0 <= share /\ (deposit_amount params b = 0 -> share = 0)
      /\ (deposit_amount params b <> 0 -> 0 < lv + sv /\ share * (lv + sv) <= side_value * Z.max 0 impact).
Proof.
  intros Hwf Hpr Hpv Ha Hside Hr. unfold deposit_side in Hr.
  change (if b then deposit_long_token_amount params else deposit_short_token_amount params)
    with (deposit_amount params b) in Hr.
  unfold is_zero in Hr. destruct (Z.eqb_spec (deposit_amount params b) 0) as [Hz|Hnz].
  - apply sret_ok in Hr as [-> [= -> _]]. split_and!; [|lia|].
    + exists no_change. rewrite Hz. split_and!; [by apply moved_refl|done|done|done].
    + exists 0. rewrite Hz. split_and!; lia.
  - apply sbind_ok in Hr as (? & tot & Ht & Hr). apply slift_ok in Ht as [-> Ht].
    apply ok_or_ok, uadd_some in Ht as [-> Htot].
    apply sbind_ok in Hr as (? & share & Hsh & Hr). apply slift_ok in Hsh as [-> Hsh].
    apply ok_or_ok, signed_numerator_some in Hsh as (Hd & -> & _).
    apply sbind_ok in Hr as (m1 & [mint fees'] & He & Hr).
    apply execute_deposit_ok in He as (Hc & ? & Hval & _); [|try done; unfold unsigned_abs; lia..].
    apply sbind_ok in Hr as (? & ? & Hx & Hr). apply slift_ok in Hx as [-> Hx].
    apply ok_or_ok, uadd_some in Hx as [-> _]. apply sret_ok in Hr as [-> [= -> _]]. cbn [fst].
    unfold unsigned_abs in Hval. rewrite Z.abs_eq in Hval by lia. unfold in_u in Htot.
    split_and!; [done|lia|]. exists (Z.max 0 (Z.sgn impact * (side_value * Z.abs impact / (lv + sv)))).
    replace (tm + mint - tm) with mint by lia. split_and!; try done; try lia.
    intros _. split; [lia|].
    pose proof (div_mul_le (side_value * Z.abs impact) (lv + sv) ltac:(lia)).
    pose proof (div_nonneg (side_value * Z.abs impact) (lv + sv) ltac:(nia) ltac:(lia)).
    destruct (Z.lt_trichotomy impact 0) as [?|[->|?]]; [rewrite Z.sgn_neg by lia; nia|simpl; lia|].
    rewrite Z.sgn_pos by lia. rewrite (Z.abs_eq impact) in * by lia. nia.
Qed.

Lemma deposit_impact_ok market params i lv sv :
  deposit_impact market params = Ok (i, lv, sv) -> 0 <= lv /\ 0 <= sv.
Proof.
  unfold deposit_impact, unsigned_abs. intros Hr. do 6 (apply rbind_ok in Hr as (? & _ & Hr)).
  injection Hr as _ <- <-. lia.
Qed.

Lemma share_sum l s a b i : 0 <= l -> 0 <= s -> 0 < l + s -> 0 <= i ->
  a * (l + s) <= l * i -> b * (l + s) <= s * i -> a + b <= i.
Proof. intros. nia. Qed.

(** The two sides of a successful deposit, then the mint. *)
Lemma deposit_ok m la sa prices m' r :
  market_wf m -> prices_in_range prices -> 0 <= la -> 0 <= sa ->
  deposit la sa prices m = (m', Ok r) ->
  exists c pv m1 share_l share_s,
    Moved m c m1 /\ token_change c /\ held_change c true = la /\ held_change c false = sa
    /\ market_wf m' /\ m' = set_supply m1 (m_supply m')
    /\ total_supply m' = total_supply m + minted r /\ 0 <= minted r
    /\ pool_value m prices MaxAfterDeposit true = Ok pv /\ 0 <= pv
    /\ 0 <= share_l /\ 0 <= share_s /\ share_l + share_s <= Z.max 0 (deposit_price_impact r)
    /\ (0 < total_supply m ->
        minted r * pv <= total_supply m *
          (la * price_min (long_token_price prices) + sa * price_min (short_token_price prices)
           + share_l + share_s))
    /\ supply_mint (m_supply m) (minted r) = Ok (m_supply m').
Proof.
  intros Hwf Hpr Hla Hsa Hr. unfold deposit in Hr.
  apply sbind_ok in Hr as (? & params & Hp & Hr). apply slift_ok in Hp as [-> Hp].
  unfold deposit_try_new in Hp. inv_ok_step; [discriminate|]. injection Hp as <-.
  set (params := mkDepositParams la sa prices) in *. unfold deposit_execute in Hr.
  apply sbind_ok in Hr as (? & ? & H1 & Hr). apply sread_ok in H1 as [-> _].
  apply sbind_ok in Hr as (? & [[impact lv] sv] & Hi & Hr). apply sread_ok in Hi as [-> Hi].
  apply deposit_impact_ok in Hi as [Hlv Hsv].
  apply sbind_ok in Hr as (? & pv & Hpv & Hr). apply sread_ok in Hpv as [-> Hpv].
  unfold is_negative in Hr. destruct (Z.ltb_spec pv 0) as [|Hpos]; [by apply slift_ok in Hr as [_ ?]|].
  apply sbind_ok in Hr as (m1 & [tm lf] & Hl & Hr).
  apply deposit_side_ok in Hl as ((c & Hm1 & Ht & Hc & Hc') & ? & shl & Hvl & ? & Hl0 & Hl1); try done.
  apply sbind_ok in Hr as (m2 & [tm' sf] & Hs & Hr).
  assert (Hwf1 : market_wf m1) by (by eapply moved_wf).
  apply deposit_side_ok in Hs as ((d & Hm2 & Ht' & Hd & Hd') & ? & shs & Hvs & ? & Hs0 & Hs1); try done.
  apply sbind_ok in Hr as (m3 & ? & Hmint & Hr). apply sret_ok in Hr as [-> ->].
  assert (Hwf2 : market_wf m2) by (by eapply moved_wf).
  apply mint_supply in Hmint as Hms.
  apply mint_ok in Hmint as (? & Hset & Hsup); [|done|lia].
  assert (Hsup2 : total_supply m2 = total_supply m)
    by (unfold total_supply; by rewrite (moved_supply _ _ _ Hm2), (moved_supply _ _ _ Hm1)).
  assert (Hsup1 : total_supply m1 = total_supply m)
    by (unfold total_supply; by rewrite (moved_supply _ _ _ Hm1)).
  rewrite Hsup1 in Hvs.
  exists (c + d)%change, pv, m2, shl, shs. cbn [minted deposit_price_impact negb] in *.
  change (deposit_amount params true) with la in *. change (deposit_amount params false) with sa in *.
  change (deposit_price params true) with (long_token_price prices) in *.
  change (deposit_price params false) with (short_token_price prices) in *.
  split_and!; try done; try lia.
  - by eapply moved_trans.
  - by apply token_change_plus.
  - rewrite held_change_plus. lia.
  - rewrite held_change_plus. lia.
  - destruct (Z.eq_dec la 0) as [->|]; [rewrite Hl0 by done|];
      (destruct (Z.eq_dec sa 0) as [->|]; [rewrite Hs0 by done|]); try lia.
    + specialize (Hs1 ltac:(lia)). nia.
    + specialize (Hl1 ltac:(lia)). nia.
    + apply (share_sum lv sv); lia.
  - by rewrite <- (moved_supply _ _ _ Hm1), <- (moved_supply _ _ _ Hm2).
Qed.

(** C14: a deposit conserves tokens: the three token pools of the market together gain exactly
    the deposited amounts, side by side when they are not pure and in total always; the
    impact taken from one side of the impact pool reappears in the liquidity pool. The
    supply grows by exactly the minted tokens and no other pool changes. *)
Theorem deposit_conserves_tokens m la sa prices m' r :
  market_wf m -> prices_in_range prices -> in_u la -> in_u sa ->
  deposit la sa prices m = (m', Ok r) ->
  market_wf m' /\ total_supply m' = total_supply m + minted r /\ 0 <= minted r
  /\ held m' true + held m' false = held m true + held m false + la + sa
  /\ (tokens_impure m -> held m' true = held m true + la /\ held m' false = held m false + sa)
  /\ (forall k side, is_token_pool k = false -> pool_pure (pool_of m k) = false ->
        amt m' k side = amt m k side).
Proof.
  intros Hwf Hpr Hla Hsa Hr.
  apply deposit_ok in Hr as (c & pv & m1 & sl & ss & Hm & Ht & Hl & Hs & ? & Hset & ? & ? & _); [|done|done|apply Hla|apply Hsa].
  assert (Hh : forall b, held m' b = held m1 b) by (intros b; rewrite Hset; by destruct b).
  split_and!; try done.
  - rewrite !Hh, (held_total _ _ _ Hm). lia.
  - intros Hi. rewrite !Hh, !(held_side _ _ _ _ Hm) by done. lia.
  - intros k side Hk Hp. transitivity (amt m1 k side); [by rewrite Hset|].
    rewrite (moved_amt _ _ _ _ _ Hm Hp), Ht by done. lia.
Qed.

(** C26: a deposit does not dilute the holders: when there is a supply, the minted tokens, at
    the value per token before the deposit (at its maximum), are worth at most the
    deposited tokens at their low prices plus the positive price impact. *)
Theorem deposit_no_dilution m la sa prices m' r :
  market_wf m -> prices_in_range prices -> in_u la -> in_u sa ->
  0 < total_supply m ->
  deposit la sa prices m = (m', Ok r) ->
  exists pv, pool_value m prices MaxAfterDeposit true = Ok pv /\ 0 <= pv
  /\ minted r * pv <= total_supply m *
       (la * price_min (long_token_price prices) + sa * price_min (short_token_price prices)
        + Z.max 0 (deposit_price_impact r)).
Proof.
  intros Hwf Hpr Hla Hsa Hs Hr.
  apply deposit_ok in Hr as (c & pv & m1 & sl & ss & _ & _ & _ & _ & _ & _ & _ & _ & Hpv & ? & ? & ? & ? & Hval & _);
    [|done|done|apply Hla|apply Hsa].
  exists pv. split_and!; [done|done|]. specialize (Hval Hs). nia.
Qed.
End DepositFacts.

(** ** A deposit on the example market *)
Section Examples.
#[local] Existing Instance u64.
#[local] Existing Instance test_num.

Definition example_deposit : Market TestPool Z * result DepositReport :=
  deposit 1000000000 200000000 example_prices example_market.

Definition example_deposit_report : DepositReport :=
  mkDepositReport (mkDepositParams 1000000000 200000000 example_prices) 131817609854 (-114816)
    (mkFees 259000 441000) (mkFees 51800 88200).

Lemma example_deposit_ok :
  deposit 1000000000 200000000 example_prices example_market
  = (fst example_deposit, Ok example_deposit_report).
Proof. vm_compute. reflexivity. Qed.

Lemma deposit_conserves_tokens_witness :
  held (fst example_deposit) true = held example_market true + 1000000000
  /\ held (fst example_deposit) false = held example_market false + 200000000.
Proof.
  destruct (deposit_conserves_tokens example_market 1000000000 200000000 example_prices _ _
    example_market_wf example_prices_in_range ltac:(vm_compute; split; discriminate)
    ltac:(vm_compute; split; discriminate) example_deposit_ok) as (_ & _ & _ & _ & Hh & _).
  apply Hh. by split_and!.
Defined.

Lemma deposit_no_dilution_witness :
  exists pv, pool_value example_market example_prices MaxAfterDeposit true = Ok pv /\ 0 <= pv
  /\ minted example_deposit_report * pv <= total_supply example_market *
       (1000000000 * price_min (long_token_price example_prices)
        + 200000000 * price_min (short_token_price example_prices)
        + Z.max 0 (deposit_price_impact example_deposit_report)).
Proof.
  exact (deposit_no_dilution example_market 1000000000 200000000 example_prices _ _
    example_market_wf example_prices_in_range ltac:(vm_compute; split; discriminate)
    ltac:(vm_compute; split; discriminate) ltac:(reflexivity) example_deposit_ok).
Defined.
End Examples.
