(* ===== verification/Withdraw.v ===== *)
(** * Withdrawals ([crates/gmsol-model/src/action/withdraw.rs])

    [Withdrawal::try_new] and [Withdrawal::execute]: market tokens are burnt for the two
    pool tokens in the proportion of the liquidity pool, after swap fees. *)
From S2P Require Import Prelude Kinds Num Fixed Price Params Pool Market TestMarket MarketFacts.

Record WithdrawParams : Type := mkWithdrawParams {
  market_token_amount : Z;
  withdraw_prices : Prices;
}.

Record WithdrawReport : Type := mkWithdrawReport {
  withdraw_report_params : WithdrawParams;
  withdraw_long_token_fees : Fees;
  withdraw_short_token_fees : Fees;
  long_token_output : Z;
  short_token_output : Z;
}.

Section Withdraw.
Context {I : UInt} {F : FixedPointOps I} {P T : Type} {O : PoolOps P} {S : SupplyOps T}.
Implicit Types (market : Market P T) (params : WithdrawParams).

(** [Withdrawal::try_new]. *)
Definition withdraw_try_new (market_token_amount : Z) (prices : Prices) : result WithdrawParams :=
  if is_zero market_token_amount then Err EmptyWithdrawal
  else
    let! _ := validate_prices prices in
    Ok (mkWithdrawParams market_token_amount prices).

Definition output_amounts market params : result (Z * Z) :=
  let prices := withdraw_prices params in
  let! pool_value := pool_value market prices MaxAfterWithdrawal false in
  if is_negative pool_value then
    Err (InvalidPoolValue "withdrawal: current pool value is negative")
  else if is_zero pool_value then
    Err (InvalidPoolValue "withdrawal: current pool value is zero")
  else
    let total_supply := total_supply market in
    let pool := liquidity_pool market in
    let long_price := pick_price (long_token_price prices) true in
    let short_price := pick_price (short_token_price prices) true in
    let! long_token_value := long_usd_value pool long_price in
    let! short_token_value := short_usd_value pool short_price in
    let! total_pool_token_value :=
      ok_or (uadd long_token_value short_token_value)
        (Computation "calculating total liquidity pool value") in
    let! market_token_value :=
      ok_or (market_token_amount_to_usd (market_token_amount params) (unsigned_abs pool_value)
               total_supply) (Computation "amount to usd") in
    let! long_token_amount :=
      ok_or
        (let? a := checked_mul_div market_token_value long_token_value total_pool_token_value in
         udiv a long_price)
        (Computation "long token amount") in
    let! short_token_amount :=
      ok_or
        (let? a := checked_mul_div market_token_value short_token_value total_pool_token_value in
         udiv a short_price)
        (Computation "short token amount") in
    Ok (long_token_amount, short_token_amount).

(** [Withdrawal::charge_fees]: the fees and the amount after them. *)
Definition withdraw_charge_fees market (amount : Z) : result (Fees * Z) :=
  let! r := ok_or (apply_fees (swap_fee_params (m_config market)) false amount)
              (Computation "apply fees") in
  Ok (snd r, fst r).

(** The delta of the liquidity pool for one side. *)
Definition pool_out_delta (fees : Fees) (amount : Z) : result Z :=
  let! a := ok_or (uadd (fee_amount_for_receiver fees) amount) Overflow in
  to_opposite_signed a.

(** [Withdrawal::execute]. *)
Definition withdraw_execute params : MM P T WithdrawReport :=
  do! amounts := sread (fun market => output_amounts market params) in
  let (long_token_amount, short_token_amount) := amounts in
  do! long := sread (fun market => withdraw_charge_fees market long_token_amount) in
  let (long_token_fees, long_token_amount) := long in
  do! short := sread (fun market => withdraw_charge_fees market short_token_amount) in
  let (short_token_fees, short_token_amount) := short in
  do! delta := slift (ok_or (try_i (fee_amount_for_receiver long_token_fees)) Convert) in
  do! _ := update_pool ClaimableFee (fun pool => apply_delta_amount pool true delta) in
  do! delta := slift (ok_or (try_i (fee_amount_for_receiver short_token_fees)) Convert) in
  do! _ := update_pool ClaimableFee (fun pool => apply_delta_amount pool false delta) in
  do! delta := slift (pool_out_delta long_token_fees long_token_amount) in
  do! _ := update_pool Primary (fun pool => apply_delta_amount pool true delta) in
  do! delta := slift (pool_out_delta short_token_fees short_token_amount) in
  do! _ := update_pool Primary (fun pool => apply_delta_amount pool false delta) in
  do! _ := sread (fun market => validate_reserve market (withdraw_prices params) true) in
  do! _ := sread (fun market => validate_reserve market (withdraw_prices params) false) in
  do! _ := sread (fun market =>
    validate_max_pnl market (withdraw_prices params) MaxAfterWithdrawal MaxAfterWithdrawal) in
  do! _ := burn (market_token_amount params) in
  sret (mkWithdrawReport params long_token_fees short_token_fees long_token_amount
          short_token_amount).

(** [LiquidityMarketMutExt::withdraw] and [execute]. *)
Definition withdraw (market_token_amount : Z) (prices : Prices) : MM P T WithdrawReport :=
  do! params := slift (withdraw_try_new market_token_amount prices) in
  withdraw_execute params.
End Withdraw.

Section WithdrawFacts.
Context {I : UInt} {IOk : UIntOk I} {F : FixedPointOps I} {FOk : FixedPointOk F}
  {P T : Type} {O : PoolOps P} {L : PoolLaws I P} {S : SupplyOps T} {SL : SupplyLaws T}.
Implicit Types (market m : Market P T) (params : WithdrawParams).

(** The shares of the two sides cannot exceed the value they are shares of. *)
Lemma shares_le v l s : 0 <= v -> 0 <= l -> 0 <= s -> 0 < l + s ->
  v * l / (l + s) + v * s / (l + s) <= v.
Proof.
  intros Hv Hl Hs Ht. pose proof (div_mul_le (v * l) (l + s) Ht).
  pose proof (div_mul_le (v * s) (l + s) Ht). nia.
Qed.

(** The two outputs before fees are worth at most the burnt tokens' share of the pool. *)
Lemma output_amounts_ok m params la sa :
  market_wf m -> prices_in_range (withdraw_prices params) -> in_u (market_token_amount params) ->
  output_amounts m params = Ok (la, sa) ->
  exists pv, pool_value m (withdraw_prices params) MaxAfterWithdrawal false = Ok pv /\ 0 < pv
    /\ 0 < total_supply m /\ 0 <= la /\ 0 <= sa
    /\ (la * price_max (long_token_price (withdraw_prices params))
        + sa * price_max (short_token_price (withdraw_prices params))) * total_supply m
       <= market_token_amount params * pv.
Proof.
  intros Hwf (_ & [_ Hl] & [_ Hs]) Hamt Hr. unfold output_amounts, pick_price in Hr.
  assert (Hsup : 0 <= total_supply m) by apply supply_nonneg, Hwf.
  apply rbind_ok in Hr as (pv & Hpv & Hr).
  unfold is_negative, is_zero in Hr. do 2 (inv_ok_step; [discriminate|]). bool_to_prop.
  unfold long_usd_value, short_usd_value, market_token_amount_to_usd, liquidity_pool, unsigned_abs in Hr.
  rewrite pool_long_amount, pool_short_amount in Hr by apply Hwf.
  inv_ok. num_inv. unfold in_u in *.
  exists pv. rewrite Z.abs_eq in * by lia.
  set (L' := pool_amount _ true * _) in *. set (S' := pool_amount _ false * _) in *.
  set (mv := pv * market_token_amount params / total_supply m) in *.
  pose proof (shares_le mv L' S' ltac:(lia) ltac:(lia) ltac:(lia) ltac:(lia)) as Hsh.
  set (a := mv * L' / (L' + S')) in *. set (b := mv * S' / (L' + S')) in *.
  pose proof (div_mul_le a (price_max (long_token_price (withdraw_prices params))) ltac:(lia)).
  pose proof (div_mul_le b (price_max (short_token_price (withdraw_prices params))) ltac:(lia)).
  assert (Hpos : 0 < total_supply m) by (unfold total_supply in *; lia).
  pose proof (div_mul_le (pv * market_token_amount params) (total_supply m) Hpos) as Hmv.
  fold mv in Hmv. split_and!; try done; try lia.
  transitivity (mv * total_supply m); [apply Z.mul_le_mono_nonneg_r; lia|lia].
Qed.

Lemma withdraw_charge_ok m x fees after :
  withdraw_charge_fees m x = Ok (fees, after) ->
  x = after + fee_amount_for_pool fees + fee_amount_for_receiver fees
  /\ 0 <= after /\ 0 <= fee_amount_for_pool fees /\ 0 <= fee_amount_for_receiver fees.
Proof.
  unfold withdraw_charge_fees. intros Hr. inv_ok_step. destruct v as [a f].
  apply ok_or_ok, apply_fees_split in Hv. injection Hr as <- <-. simpl. tauto.
Qed.

Lemma pool_out_delta_ok fees x d :
  pool_out_delta fees x = Ok d -> d = - (fee_amount_for_receiver fees + x).
Proof. unfold pool_out_delta. intros Hr. code_inv. done. Qed.

(** What leaves the liquidity pool: the output and the fee for the receiver. *)
Definition liquidity_taken (r : WithdrawReport) (side : bool) : Z :=
  if side then long_token_output r + fee_amount_for_receiver (withdraw_long_token_fees r)
  else short_token_output r + fee_amount_for_receiver (withdraw_short_token_fees r).

(** A withdrawal as a move of the token pools followed by the burn. *)
Lemma withdraw_ok m x prices m' r :
  market_wf m -> prices_in_range prices -> in_u x ->
  withdraw x prices m = (m', Ok r) ->
  exists c m1 pv la sa,
    Moved m c m1 /\ token_change c
    /\ held_change c true = - long_token_output r
    /\ held_change c false = - short_token_output r
    /\ m' = set_supply m1 (m_supply m') /\ market_wf m'
    /\ total_supply m' = total_supply m - x
    /\ output_amounts m (mkWithdrawParams x prices) = Ok (la, sa)
    /\ pool_value m prices MaxAfterWithdrawal false = Ok pv
    /\ 0 <= long_token_output r <= la /\ 0 <= short_token_output r <= sa
    /\ validate_reserve m1 prices true = Ok tt /\ validate_reserve m1 prices false = Ok tt
    /\ validate_max_pnl m1 prices MaxAfterWithdrawal MaxAfterWithdrawal = Ok tt
    /\ supply_burn (m_supply m) x = Ok (m_supply m')
    /\ c Primary true = - liquidity_taken r true /\ c Primary false = - liquidity_taken r false
    /\ long_token_output r <= liquidity_taken r true <= la
    /\ short_token_output r <= liquidity_taken r false <= sa.
Proof.
  intros Hwf Hpr Hx Hr. unfold withdraw in Hr.
  apply sbind_ok in Hr as (? & params & Hp & Hr). apply slift_ok in Hp as [-> Hp].
  unfold withdraw_try_new in Hp. inv_ok_step; [discriminate|]. inv_ok_step. injection Hp as <-.
  unfold withdraw_execute in Hr. set (params := mkWithdrawParams x prices) in *.
  apply sbind_ok in Hr as (? & [la sa] & Ho & Hr). apply sread_ok in Ho as [-> Ho].
  pose proof Ho as Ho'. apply output_amounts_ok in Ho' as (pv & Hpv & _ & _ & _ & _ & _); [|done..].
  apply sbind_ok in Hr as (? & [lf l] & Hl & Hr). apply sread_ok in Hl as [-> Hl].
  apply sbind_ok in Hr as (? & [sf s] & Hs & Hr). apply sread_ok in Hs as [-> Hs].
  apply withdraw_charge_ok in Hl, Hs.
  apply sbind_ok in Hr as (? & d1 & H1 & Hr). apply slift_ok in H1 as [-> H1].
  apply ok_or_ok, try_i_some in H1 as [-> _].
  apply sbind_ok in Hr as (m1 & ? & Hm1 & Hr). apply update_pool_amount_moved in Hm1; [|done].
  assert (Hwf1 : market_wf m1) by (by eapply moved_wf).
  apply sbind_ok in Hr as (? & d2 & H1 & Hr). apply slift_ok in H1 as [-> H1].
  apply ok_or_ok, try_i_some in H1 as [-> _].
  apply sbind_ok in Hr as (m2 & ? & Hm2 & Hr). apply update_pool_amount_moved in Hm2; [|done].
  assert (Hwf2 : market_wf m2) by (by eapply moved_wf).
  apply sbind_ok in Hr as (? & d3 & H1 & Hr). apply slift_ok in H1 as [-> ->%pool_out_delta_ok].
  apply sbind_ok in Hr as (m3 & ? & Hm3 & Hr). apply update_pool_amount_moved in Hm3; [|done].
  assert (Hwf3 : market_wf m3) by (by eapply moved_wf).
  apply sbind_ok in Hr as (? & d4 & H1 & Hr). apply slift_ok in H1 as [-> ->%pool_out_delta_ok].
  apply sbind_ok in Hr as (m4 & ? & Hm4 & Hr). apply update_pool_amount_moved in Hm4; [|done].
  assert (Hwf4 : market_wf m4) by (by eapply moved_wf).
  pose proof (moved_trans _ _ _ _ _ (moved_trans _ _ _ _ _ (moved_trans _ _ _ _ _ Hm1 Hm2) Hm3) Hm4) as Hm.
  inv_ok. repeat match goal with u : unit |- _ => destruct u end.
  match goal with H : burn _ _ = _ |- _ => rename H into Hburn end.
  apply burn_supply in Hburn as Hbs. apply burn_ok in Hburn as (? & Hset & Hsup); [|done|apply Hx].
  eexists _, m4, pv, la, sa. split_and!; try done; unfold liquidity_taken;
    cbn [long_token_output short_token_output withdraw_long_token_fees withdraw_short_token_fees]; try lia.
  - by repeat apply token_change_plus; apply token_change_at.
  - rewrite !held_change_plus, !held_change_at. cbn [is_token_pool Bool.eqb andb]. lia.
  - rewrite !held_change_plus, !held_change_at. cbn [is_token_pool Bool.eqb andb]. lia.
  - rewrite Hsup. unfold total_supply. by rewrite (moved_supply _ _ _ Hm).
  - by rewrite <- (moved_supply _ _ _ Hm).
  - unfold change_plus, change_at. simpl. lia.
  - unfold change_plus, change_at. simpl. lia.
Qed.

(** No other pool is touched. *)
Lemma withdraw_other_pools m x prices m' r k :
  withdraw x prices m = (m', Ok r) -> k <> Primary -> k <> ClaimableFee -> pool_of m' k = pool_of m k.
Proof.
  intros Hr Hp Hc. unfold withdraw, withdraw_execute in Hr.
  assert (forall k' f m0 m1 (u : unit), (k' = Primary \/ k' = ClaimableFee) ->
    update_pool k' f m0 = (m1, Ok u) -> pool_of m1 k = pool_of m0 k) as Hupd.
  { intros k' f m0 m1 u Hk' (p & _ & ->)%update_pool_inv. rewrite pool_of_set_pools.
    case_decide; [|done]. subst. by destruct Hk'. }
  apply sbind_ok in Hr as (? & params & [-> _]%slift_ok & Hr).
  apply sbind_ok in Hr as (? & [la sa] & [-> _]%sread_ok & Hr).
  apply sbind_ok in Hr as (? & [lf l] & [-> _]%sread_ok & Hr).
  apply sbind_ok in Hr as (? & [sf s] & [-> _]%sread_ok & Hr).
  apply sbind_ok in Hr as (? & d1 & [-> _]%slift_ok & Hr).
  apply sbind_ok in Hr as (m1 & ? & H1%Hupd & Hr); [|auto].
  apply sbind_ok in Hr as (? & d2 & [-> _]%slift_ok & Hr).
  apply sbind_ok in Hr as (m2 & ? & H2%Hupd & Hr); [|auto].
  apply sbind_ok in Hr as (? & d3 & [-> _]%slift_ok & Hr).
  apply sbind_ok in Hr as (m3 & ? & H3%Hupd & Hr); [|auto].
  apply sbind_ok in Hr as (? & d4 & [-> _]%slift_ok & Hr).
  apply sbind_ok in Hr as (m4 & ? & H4%Hupd & Hr); [|auto].
  do 3 apply sbind_ok in Hr as (? & [] & [-> _]%sread_ok & Hr).
  apply sbind_ok in Hr as (m5 & ? & H5 & [-> _]%sret_ok).
  assert (pool_of m5 k = pool_of m4 k) as -> by (unfold burn in H5; inv_ok; done). congruence.
Qed.

(** ** Those who stay *)

(** The pending borrowing fees of a market whose borrowing factors are up to date do not depend on the
    liquidity. *)
Lemma pending_fees_ok m prices b r :
  passed_in_seconds_for_borrowing m = 0 -> total_pending_borrowing_fees m prices b = Ok r ->
  exists oi factor tb, balance_amount (open_interest m) b = Ok oi
    /\ cumulative_borrowing_factor m b = Ok factor
    /\ balance_amount (total_borrowing_pool m) b = Ok tb /\ r = oi * factor / UNIT - tb.
Proof.
  intros H0 Hr. unfold total_pending_borrowing_fees in Hr. rewrite H0 in Hr.
  apply rbind_ok in Hr as (oi & Hoi & Hr). apply rbind_ok in Hr as ([factor delta] & Hn & Hr).
  apply rbind_ok in Hr as (tb & Htb & Hr). exists oi, factor, tb.
  unfold next_cumulative_borrowing_factor in Hn. apply rbind_ok in Hn as (per & _ & Hn).
  apply rbind_ok in Hn as (cur & Hcur & Hn). apply rbind_ok in Hn as (d & Hd%ok_or_ok & Hn).
  apply rbind_ok in Hn as (delta' & Hde%ok_or_ok & Hn). apply rbind_ok in Hn as (next & Hne%ok_or_ok & [= <- <-]).
  num_inv. simpl in *. split_and!; [done| |done|].
  - rewrite Hcur. f_equal. subst. lia.
  - code_inv. done.
Qed.

Record SameBut m m' : Prop := {
  sb_pools k : k <> Primary -> k <> ClaimableFee -> pool_of m' k = pool_of m k;
  sb_config : m_config m' = m_config m;
  sb_clocks : m_clocks m' = m_clocks m;
  sb_now : m_now m' = m_now m;
}.

Lemma same_fees m m' prices r r' :
  SameBut m m' -> passed_in_seconds_for_borrowing m = 0 ->
  total_borrowing_fees_for_pool m prices = Ok r -> total_borrowing_fees_for_pool m' prices = Ok r' ->
  r' = r.
Proof.
  intros [Hp Hc Hcl Hn] H0 Hr Hr'.
  assert (passed_in_seconds_for_borrowing m' = 0) as H0' by (unfold passed_in_seconds_for_borrowing in *; congruence).
  assert (forall b x x', total_pending_borrowing_fees m prices b = Ok x ->
    total_pending_borrowing_fees m' prices b = Ok x' -> x' = x) as Hside.
  { intros b x x' (oi & f & tb & Ho & Hf & Ht & ->)%pending_fees_ok
      (oi' & f' & tb' & Ho' & Hf' & Ht' & ->)%pending_fees_ok; [|done..].
    unfold open_interest, open_interest_pool, cumulative_borrowing_factor, borrowing_factor_pool,
      total_borrowing_pool in *.
    rewrite !Hp in Ho' by done. rewrite Hp in Hf' by done. rewrite Hp in Ht' by done. congruence. }
  unfold total_borrowing_fees_for_pool in *. rewrite Hc in Hr'.
  apply rbind_ok in Hr as (l & Hl & Hr). apply rbind_ok in Hr as (s & Hs & Hr).
  apply rbind_ok in Hr' as (l' & Hl' & Hr'). apply rbind_ok in Hr' as (s' & Hs' & Hr').
  rewrite (Hside _ _ _ Hl Hl'), (Hside _ _ _ Hs Hs') in Hr'. congruence.
Qed.

Lemma capped_mono p v v' f : 0 <= f -> v' <= v -> capped p v' f <= capped p v f.
Proof.
  intros Hf Hv. unfold capped. pose proof unit_pos.
  assert (v' * f / UNIT <= v * f / UNIT) by (apply div_le_mono; nia). case_bool; lia.
Qed.

(** Less liquidity: the value falls by no more than that. *)
Lemma pool_value_less m m' prices k pv pv' :
  market_wf m -> market_wf m' -> SameBut m m' -> passed_in_seconds_for_borrowing m = 0 ->
  (forall b, 0 <= pnl_factor_config (m_config m) k b) ->
  (forall b, 0 <= price_min (collateral_token_price prices b)) ->
  (forall b, amt m' Primary b <= amt m Primary b) ->
  pool_value m prices k false = Ok pv -> pool_value m' prices k false = Ok pv' ->
  pv - (amt m Primary true - amt m' Primary true) * price_min (long_token_price prices)
     - (amt m Primary false - amt m' Primary false) * price_min (short_token_price prices) <= pv'.
Proof.
  intros Hwf Hwf' Hsame H0 Hf Hpr Hle Hv Hv'.
  apply pool_value_ok in Hv as (fees & n & pl & ps & Hfe & Hpl & Hps & [a Hn] & ->); [|done].
  apply pool_value_ok in Hv' as (fees' & n' & pl' & ps' & Hfe' & Hpl' & Hps' & [a' Hn'] & ->); [|done].
  pose proof (same_fees _ _ _ _ _ Hsame H0 Hfe Hfe') as ->. destruct Hsame as [Hp Hc Hcl Hnow].
  assert (forall b mx, pnl m' (index_token_price prices) b mx = pnl m (index_token_price prices) b mx) as Epnl.
  { intros b mx. unfold pnl, open_interest, open_interest_in_tokens, open_interest_pool,
      open_interest_in_tokens_pool. by rewrite !Hp. }
  rewrite Epnl, Hpl in Hpl'. injection Hpl' as <-. rewrite Epnl, Hps in Hps'. injection Hps' as <-.
  assert (Ok (a, n) = Ok (a', n') :> result (Z * Z)) as [= _ <-].
  { rewrite <- Hn, <- Hn'. unfold pending_position_impact_pool_distribution_amount,
      position_impact_pool_amount, position_impact_pool,
      passed_in_seconds_for_position_impact_distribution. by rewrite Hp, Hc, Hcl, Hnow. }
  cbv zeta. rewrite Hc. cbn [pick_price collateral_token_price negb].
  assert (forall b p0, capped p0 (amt m' Primary b * price_min (collateral_token_price prices b))
      (pnl_factor_config (m_config m) k b)
    <= capped p0 (amt m Primary b * price_min (collateral_token_price prices b))
      (pnl_factor_config (m_config m) k b)) as Hcap.
  { intros b p0. apply capped_mono; [done|]. by apply Z.mul_le_mono_nonneg_r. }
  pose proof (Hcap true pl) as C1. pose proof (Hcap false ps) as C2. simpl in C1, C2. lia.
Qed.

(** C15: a withdrawal conserves tokens and supply: the three token pools together lose exactly
    the two outputs, side by side when they are not pure and in total always, exactly the
    given market tokens are burnt, and no other pool changes. *)
Theorem withdraw_conserves_tokens m x prices m' r :
  market_wf m -> prices_in_range prices -> in_u x ->
  withdraw x prices m = (m', Ok r) ->
  let lo := long_token_output r in
  let so := short_token_output r in
  market_wf m' /\ total_supply m' = total_supply m - x /\ 0 <= total_supply m'
  /\ held m' true + held m' false = held m true + held m false - lo - so
  /\ (tokens_impure m -> held m' true = held m true - lo /\ held m' false = held m false - so)
  /\ (forall k side, is_token_pool k = false -> pool_pure (pool_of m k) = false ->
        amt m' k side = amt m k side).
Proof.
  intros Hwf Hpr Hx Hr.
  apply withdraw_ok in Hr as (c & m1 & pv & la & sa & Hm & Ht & Hl & Hs & Hset & Hwf' & Hsup & _); [|done..].
  assert (Hh : forall b, held m' b = held m1 b) by (intros b; rewrite Hset; by destruct b).
  cbv zeta. split_and!; try done.
  - apply supply_nonneg, Hwf'.
  - rewrite !Hh, (held_total _ _ _ Hm). lia.
  - intros Hi. rewrite !Hh, !(held_side _ _ _ _ Hm) by done. lia.
  - intros k side Hk Hp. transitivity (amt m1 k side); [by rewrite Hset|].
    rewrite (moved_amt _ _ _ _ _ Hm Hp), Ht by done. lia.
Qed.

(** C27: a withdrawal never takes more than its share, and does not dilute those who stay. Everything that
    leaves the liquidity pool, the outputs and the fees for the receiver, is worth, at the high token
    prices, at most the burnt fraction of the minimized pool value. So in a market with two tokens, whose
    borrowing factors are up to date and whose pnl caps are not negative, the minimized pool value per
    market token is not less after the withdrawal than before, at the same prices. And the market that is
    left covers its reserves and its maximal pnl factors. *)
Theorem withdraw_value_bounded m x prices m' r :
  market_wf m -> prices_in_range prices -> in_u x ->
  withdraw x prices m = (m', Ok r) ->
  exists pv, pool_value m prices MaxAfterWithdrawal false = Ok pv /\ 0 < pv
  /\ 0 <= long_token_output r <= liquidity_taken r true
  /\ 0 <= short_token_output r <= liquidity_taken r false
  /\ (liquidity_taken r true * price_max (long_token_price prices)
      + liquidity_taken r false * price_max (short_token_price prices)) * total_supply m <= x * pv
  /\ (pool_pure (pool_of m Primary) = false -> passed_in_seconds_for_borrowing m = 0 ->
      (forall b, 0 <= pnl_factor_config (m_config m) MaxAfterWithdrawal b) -> prices_ordered prices ->
      forall pv', pool_value m' prices MaxAfterWithdrawal false = Ok pv' ->
        pv * total_supply m' <= pv' * total_supply m)
  /\ validate_reserve m' prices true = Ok tt /\ validate_reserve m' prices false = Ok tt
  /\ validate_max_pnl m' prices MaxAfterWithdrawal MaxAfterWithdrawal = Ok tt.
Proof.
  intros Hwf Hpr Hx Hr. pose proof (fun k => withdraw_other_pools _ _ _ _ _ k Hr) as Hother.
  apply withdraw_ok in Hr as (c & m1 & pv & la & sa & Hm & _ & _ & _ & Hset & Hwf' & Hsup' & Ho & Hpv & Hlo &
    Hso & Hv1 & Hv2 & Hv3 & _ & Hcl & Hcs & Htl & Hts);
    [|done..].
  apply output_amounts_ok in Ho as (pv' & Hpv' & Hpos & Hsup & ? & ? & Hval); [|done..].
  cbn [withdraw_prices market_token_amount] in *. rewrite Hpv in Hpv'. injection Hpv' as <-.
  pose proof Hpr as (_ & [[Hminl _] [Hml _]] & [[Hmins _] [Hms _]]).
  assert ((liquidity_taken r true * price_max (long_token_price prices)
    + liquidity_taken r false * price_max (short_token_price prices)) * total_supply m <= x * pv) as Hbound
    by (etransitivity; [|exact Hval]; apply Z.mul_le_mono_nonneg_r; [lia|nia]).
  exists pv. split; [done|]. split; [done|]. split; [lia|]. split; [lia|]. split; [exact Hbound|].
  split; [|by rewrite Hset].
  intros Hi Hclock Hf (_ & [_ Hol] & [_ Hos]) pv' Hpv'.
  assert (SameBut m m') as Hsame.
  { destruct Hm as [_ Hrest]. split; [exact Hother|by rewrite Hset, Hrest..]. }
  assert (forall b, amt m' Primary b = amt m Primary b - liquidity_taken r b) as Hamt.
  { intros b. assert (amt m' Primary b = amt m1 Primary b) as -> by (by rewrite Hset).
    rewrite (moved_amt _ _ _ _ b Hm Hi). destruct b; lia. }
  pose proof (pool_value_less m m' prices MaxAfterWithdrawal pv pv' Hwf Hwf' Hsame Hclock Hf) as Hless.
  rewrite !Hamt in Hless. rewrite Hsup'.
  assert (pv - liquidity_taken r true * price_min (long_token_price prices)
    - liquidity_taken r false * price_min (short_token_price prices) <= pv') as Hle.
  { enough (pv - (amt m Primary true - (amt m Primary true - liquidity_taken r true)) * price_min (long_token_price prices)
      - (amt m Primary false - (amt m Primary false - liquidity_taken r false)) * price_min (short_token_price prices)
      <= pv') by lia.
    apply Hless; [intros []; done|intros []; rewrite Hamt; lia|done|done]. }
  transitivity ((pv - (liquidity_taken r true * price_max (long_token_price prices)
    + liquidity_taken r false * price_max (short_token_price prices))) * total_supply m); [lia|].
  apply Z.mul_le_mono_nonneg_r; [lia|].
  assert (0 <= liquidity_taken r true /\ 0 <= liquidity_taken r false) as [T1 T2] by lia.
  pose proof (Z.mul_le_mono_nonneg_l _ _ _ T1 Hol). pose proof (Z.mul_le_mono_nonneg_l _ _ _ T2 Hos). lia.
Qed.
End WithdrawFacts.

(** ** A withdrawal on the example market *)
Section Examples.
#[local] Existing Instance u64.
#[local] Existing Instance test_num.

Definition example_withdrawal : Market TestPool Z * result WithdrawReport :=
  withdraw 100000000000 example_prices example_market.

Definition example_withdraw_report : WithdrawReport :=
  mkWithdrawReport (mkWithdrawParams 100000000000 example_prices)
    (mkFees 95434 162497) (mkFees 11452153 19499613) 368215479 44185857441.

Lemma example_withdraw_ok :
  withdraw 100000000000 example_prices example_market
  = (fst example_withdrawal, Ok example_withdraw_report).
Proof. vm_compute. reflexivity. Qed.

Lemma withdraw_conserves_tokens_witness :
  held (fst example_withdrawal) true = held example_market true - 368215479
  /\ held (fst example_withdrawal) false = held example_market false - 44185857441.
Proof.
  destruct (withdraw_conserves_tokens example_market 100000000000 example_prices _ _
    example_market_wf example_prices_in_range ltac:(vm_compute; split; discriminate)
    example_withdraw_ok) as (_ & _ & _ & _ & Hh & _).
  apply Hh. by split_and!.
Defined.

(** The same market with its clocks up to date. *)
Definition fresh_market : Market TestPool Z :=
  mkMarket default_config example_pools 2400000000000 (mkClocks 1060 1060 1060) 0 1060.

Lemma fresh_market_wf : market_wf fresh_market.
Proof. exact example_market_wf. Qed.

Definition fresh_withdrawal : Market TestPool Z * result WithdrawReport :=
  withdraw 100000000000 example_prices fresh_market.

Definition fresh_report : WithdrawReport :=
  Eval vm_compute in
    match snd fresh_withdrawal with
    | Ok r => r
    | _ => mkWithdrawReport (mkWithdrawParams 0 example_prices) (mkFees 0 0) (mkFees 0 0) 0 0
    end.

Lemma fresh_withdraw_ok :
  withdraw 100000000000 example_prices fresh_market = (fst fresh_withdrawal, Ok fresh_report).
Proof. vm_compute. reflexivity. Qed.

Lemma withdraw_value_bounded_witness :
  validate_reserve (fst fresh_withdrawal) example_prices true = Ok tt
  /\ 2131250000000 * total_supply (fst fresh_withdrawal) <= 2043223700269 * total_supply fresh_market.
Proof.
  destruct (withdraw_value_bounded fresh_market 100000000000 example_prices _ _
    fresh_market_wf example_prices_in_range ltac:(vm_compute; split; discriminate)
    fresh_withdraw_ok) as (pv & Hpv & _ & _ & _ & _ & Hstay & Hv & _).
  split; [exact Hv|].
  assert (pv = 2131250000000) as -> by (vm_compute in Hpv; by injection Hpv).
  apply Hstay; [reflexivity|reflexivity|intros b; by apply example_pnl_caps|
                exact example_prices_ordered|vm_compute; reflexivity].
Defined.
End Examples.
