(* ===== verification/UpdateStates.v ===== *)
(** * Periodic updates of a market ([crates/gmsol-model/src/action])

    [distribute_position_impact.rs] and [update_borrowing_state.rs]: both read the clock of
    their kind, advance it and apply what has accrued since. *)
From S2P Require Import Prelude Kinds Num Fixed Price Params Pool Market TestMarket MarketFacts.

Record DistributePositionImpactReport : Type := mkDistributePositionImpactReport {
  distribution_duration_in_seconds : Z;
  distribution_amount : Z;
  next_position_impact_pool_amount : Z;
}.

Record UpdateBorrowingReport : Type := mkUpdateBorrowingReport {
  borrowing_duration_in_seconds : Z;
  next_cumulative_borrowing_factor_for_long : Z;
  next_cumulative_borrowing_factor_for_short : Z;
}.

Section UpdateStates.
Context {I : UInt} {F : FixedPointOps I} {P T : Type} {O : PoolOps P} {S : SupplyOps T}.
Implicit Type market : Market P T.

(** [DistributePositionImpact::execute]. *)
Definition distribute_position_impact : MM P T DistributePositionImpactReport :=
  do! duration_in_seconds := just_passed_in_seconds_for_position_impact_distribution in
  do! p := sread (fun market =>
    pending_position_impact_pool_distribution_amount market duration_in_seconds) in
  let (distribution_amount, next_amount) := p in
  do! _ :=
    (if negb (is_zero distribution_amount) then
       do! delta := slift (to_opposite_signed distribution_amount) in
       apply_delta_to_position_impact_pool delta
     else sret tt) in
  sret (mkDistributePositionImpactReport duration_in_seconds distribution_amount next_amount).

(** [UpdateBorrowingState]. *)
Definition borrowing_execute_one_side (prices : Prices) (is_long : bool) (duration_in_seconds : Z)
    : MM P T Z :=
  do! p := sread (fun market =>
    next_cumulative_borrowing_factor market is_long prices duration_in_seconds) in
  let (next_cumulative_borrowing_factor, delta) := p in
  do! delta := slift (to_signed delta) in
  do! _ := update_pool BorrowingFactor (fun pool => apply_delta_amount pool is_long delta) in
  sret next_cumulative_borrowing_factor.

Definition update_borrowing_execute (prices : Prices) : MM P T UpdateBorrowingReport :=
  do! duration_in_seconds := just_passed_in_seconds_for_borrowing in
  do! next_long := borrowing_execute_one_side prices true duration_in_seconds in
  do! next_short := borrowing_execute_one_side prices false duration_in_seconds in
  sret (mkUpdateBorrowingReport duration_in_seconds next_long next_short).

(** [BorrowingFeeMarketMutExt::update_borrowing] and [execute]. *)
Definition update_borrowing (prices : Prices) : MM P T UpdateBorrowingReport :=
  do! _ := slift (validate_prices prices) in
  update_borrowing_execute prices.
End UpdateStates.

(** ** Clocks *)
Lemma clock_just_passed_spec now last :
  - 2 ^ 63 <= now < 2 ^ 63 -> - 2 ^ 63 <= last < 2 ^ 63 ->
  clock_just_passed_in_seconds now last
  = (Z.max last now, Z.min (2 ^ 63 - 1) (Z.max 0 (now - last))).
Proof.
  intros Hn Hl. unfold clock_just_passed_in_seconds, i64_saturating_sub.
  case_bool; f_equal; lia.
Qed.

(** A clock that was just read has nothing more to report at the same time. *)
Lemma clock_read_twice now last last' d :
  clock_just_passed_in_seconds now last = (last', d) ->
  0 <= d /\ clock_just_passed_in_seconds now last' = (last', 0).
Proof.
  unfold clock_just_passed_in_seconds, i64_saturating_sub.
  destruct (Z.ltb_spec 0 (Z.max (- 2 ^ 63) (Z.min (2 ^ 63 - 1) (now - last)))) as [Hp|Hp];
    intros [= <- <-].
  - split; [lia|]. rewrite Z.sub_diag. reflexivity.
  - split; [lia|]. destruct (Z.ltb_spec 0 (Z.max (- 2 ^ 63) (Z.min (2 ^ 63 - 1) (now - last)))); [lia|done].
Qed.

Section UpdateStatesFacts.
Context {I : UInt} {IOk : UIntOk I} {F : FixedPointOps I} {FOk : FixedPointOk F}
  {P T : Type} {O : PoolOps P} {L : PoolLaws I P} {S : SupplyOps T} {SL : SupplyLaws T}.
Implicit Types m : Market P T.

Lemma set_clocks_wf m c : market_wf m -> market_wf (set_clocks m c).
Proof. done. Qed.

Lemma distribute_ok m m' r :
  market_wf m -> distribute_position_impact m = (m', Ok r) ->
  exists last d a n,
    clock_just_passed_in_seconds (m_now m) (clock_price_impact_distribution (m_clocks m)) = (last, d)
    /\ pending_position_impact_pool_distribution_amount m d = Ok (a, n)
    /\ r = mkDistributePositionImpactReport d a n
    /\ Moved (set_clocks m (mkClocks last (clock_borrowing (m_clocks m)) (clock_funding (m_clocks m))))
         (change_at PositionImpact true (- a)) m'.
Proof.
  intros Hwf Hr. unfold distribute_position_impact in Hr.
  apply sbind_ok in Hr as (m1 & d & Hd & Hr).
  unfold just_passed_in_seconds_for_position_impact_distribution in Hd.
  destruct (clock_just_passed_in_seconds _ _) as [last d'] eqn:Hc. injection Hd as <- <-.
  set (m1 := set_clocks m _) in *. assert (Hwf1 : market_wf m1) by done.
  apply sbind_ok in Hr as (? & [a n] & Hp & Hr). apply sread_ok in Hp as [-> Hp].
  apply sbind_ok in Hr as (m2 & ? & Hu & Hr). apply sret_ok in Hr as [-> ->].
  exists last, d', a, n. split_and!; [done|exact Hp|done|].
  unfold is_zero in Hu. destruct (Z.eqb_spec a 0) as [->|]; simpl in Hu.
  - apply sret_ok in Hu as [-> _]. eapply moved_ext; [by apply moved_refl|].
    intros k b. unfold change_at, no_change. destruct (decide _), b; done.
  - apply sbind_ok in Hu as (? & delta & Hx & Hu). apply slift_ok in Hx as [-> Hx].
    apply to_opposite_signed_ok in Hx as (-> & _).
    by apply apply_delta_to_position_impact_pool_moved in Hu.
Qed.

(** The distribution of the position impact pool takes exactly what has accrued since the
    clock was last read, capped by what lies above the configured minimum, leaves no less
    than the minimum when it takes anything, reports the new amount, advances the clock,
    changes nothing else, and run again at the same time it does nothing. *)
Theorem distribute_position_impact_spec m m' r m'' r' :
  market_wf m -> pool_pure (pool_of m PositionImpact) = false ->
  distribute_position_impact m = (m', Ok r) ->
  distribute_position_impact m' = (m'', Ok r') ->
  let params := position_impact_distribution_params (m_config m) in
  let d := distribution_duration_in_seconds r in
  let current := amt m PositionImpact true in
  amt m' PositionImpact true = current - distribution_amount r
  /\ next_position_impact_pool_amount r = amt m' PositionImpact true
  /\ distribution_amount r =
      (if (distribute_factor params =? 0) || (current <=? min_position_impact_pool_amount params)
       then 0
       else Z.min (current - min_position_impact_pool_amount params) (d * distribute_factor params / UNIT))
  /\ (distribution_amount r <> 0 -> min_position_impact_pool_amount params <= amt m' PositionImpact true)
  /\ (forall k b, k <> PositionImpact -> pool_pure (pool_of m k) = false -> amt m' k b = amt m k b)
  /\ distribution_duration_in_seconds r' = 0 /\ distribution_amount r' = 0
  /\ m_clocks m'' = m_clocks m' /\ amt m'' PositionImpact true = amt m' PositionImpact true.
Proof.
  intros Hwf Hi Hr Hr'. apply distribute_ok in Hr as (last & d & a & n & Hc & Hp & -> & Hm); [|done].
  apply pending_distribution_ok in Hp as (? & ? & ? & Hmin & Ha); [|done].
  assert (Hwf' : market_wf m') by (eapply moved_wf; [|exact Hm]; done).
  assert (Hclk : m_clocks m' = mkClocks last (clock_borrowing (m_clocks m)) (clock_funding (m_clocks m))
    /\ m_now m' = m_now m) by (by rewrite (moved_rest _ _ _ Hm)).
  destruct Hclk as [Hclk Hnow].
  apply distribute_ok in Hr' as (last' & d' & a' & n' & Hc' & Hp' & -> & Hm'); [|done].
  apply clock_read_twice in Hc as [_ Hc]. rewrite Hclk, Hnow in Hc'. cbn in Hc'.
  rewrite Hc in Hc'. injection Hc' as <- <-.
  apply pending_distribution_ok in Hp' as (? & ? & ? & Hmin' & Ha'); [|done].
  assert (a' = 0) as ->.
  { rewrite Ha'. case_if Hoff; [done|]. bool_to_prop.
    rewrite Z.mul_0_l, Z.div_0_l by (pose proof unit_pos; lia). lia. }
  pose proof (moved_amt _ _ _ PositionImpact true Hm Hi) as Hamt.
  pose proof (moved_pure _ _ _ PositionImpact Hm) as Hpure.
  pose proof (moved_amt _ _ _ PositionImpact true Hm' (eq_trans Hpure Hi)) as Hamt'.
  cbv zeta. cbn [distribution_duration_in_seconds distribution_amount next_position_impact_pool_amount] in *.
  rewrite change_at_same in Hamt, Hamt'.
  change (amt m' PositionImpact true = amt m PositionImpact true + - a) in Hamt.
  change (amt m'' PositionImpact true = amt m' PositionImpact true + - 0) in Hamt'.
  split_and!; try done; try lia.
  - intros k b Hk Hp. rewrite (moved_amt _ _ _ k b Hm Hp), change_at_other by done.
    apply Z.add_0_r.
  - rewrite (moved_rest _ _ _ Hm'). simpl. by rewrite Hclk.
Qed.

Lemma next_factor_ok m b prices d n delta :
  market_wf m -> next_cumulative_borrowing_factor m b prices d = Ok (n, delta) ->
  exists rate, borrowing_factor_per_second m b prices = Ok rate
    /\ delta = rate * d /\ n = amt m BorrowingFactor b + delta /\ in_u delta.
Proof.
  intros Hwf Hr. unfold next_cumulative_borrowing_factor, cumulative_borrowing_factor,
    borrowing_factor_pool in Hr. rewrite amt_ok in Hr by done.
  apply rbind_ok in Hr as (rate & Hrate & Hr). code_inv. by exists rate.
Qed.

Lemma borrowing_one_side_ok m b prices d m' n :
  market_wf m -> borrowing_execute_one_side prices b d m = (m', Ok n) ->
  exists rate, borrowing_factor_per_second m b prices = Ok rate
    /\ n = amt m BorrowingFactor b + rate * d /\ 0 <= rate * d
    /\ Moved m (change_at BorrowingFactor b (rate * d)) m'
    /\ (exists p, m' = set_pools m (pools_set (m_pools m) BorrowingFactor p)).
Proof.
  intros Hwf Hr. unfold borrowing_execute_one_side in Hr.
  apply sbind_ok in Hr as (? & [n' delta] & Hn & Hr). apply sread_ok in Hn as [-> Hn].
  apply next_factor_ok in Hn as (rate & Hrate & -> & -> & [? _]); [|done].
  apply sbind_ok in Hr as (? & x & Hx & Hr). apply slift_ok in Hx as [-> [-> _]%to_signed_ok].
  apply sbind_ok in Hr as (m1 & ? & Hu & Hr). apply sret_ok in Hr as [-> ->].
  exists rate. split_and!; try done; [by eapply update_pool_amount_moved|].
  apply update_pool_inv in Hu as (p & _ & ->). by exists p.
Qed.

(** The borrowing rate does not read the borrowing factors or the clocks: it is the same
    before and after an update. *)
Lemma rate_set_clocks m c b prices :
  borrowing_factor_per_second (set_clocks m c) b prices = borrowing_factor_per_second m b prices.
Proof. done. Qed.

Lemma rate_set_factor m p b prices :
  borrowing_factor_per_second (set_pools m (pools_set (m_pools m) BorrowingFactor p)) b prices
  = borrowing_factor_per_second m b prices.
Proof. done. Qed.

Lemma update_borrowing_moved m prices m' r :
  market_wf m -> update_borrowing prices m = (m', Ok r) ->
  exists last d rl rs m1,
    clock_just_passed_in_seconds (m_now m) (clock_borrowing (m_clocks m)) = (last, d)
    /\ borrowing_factor_per_second m true prices = Ok rl
    /\ borrowing_factor_per_second m false prices = Ok rs
    /\ 0 <= rl * d /\ 0 <= rs * d
    /\ r = mkUpdateBorrowingReport d (amt m BorrowingFactor true + rl * d)
             (amt m1 BorrowingFactor false + rs * d)
    /\ Moved (set_clocks m (mkClocks (clock_price_impact_distribution (m_clocks m)) last
                              (clock_funding (m_clocks m))))
         (change_at BorrowingFactor true (rl * d) + change_at BorrowingFactor false (rs * d))%change m'
    /\ (pool_pure (pool_of m BorrowingFactor) = false ->
        amt m1 BorrowingFactor false = amt m BorrowingFactor false).
Proof.
  intros Hwf Hr. unfold update_borrowing in Hr.
  apply sbind_ok in Hr as (? & ? & Hv & Hr). apply slift_ok in Hv as [-> _].
  unfold update_borrowing_execute in Hr. apply sbind_ok in Hr as (m0 & d & Hd & Hr).
  unfold just_passed_in_seconds_for_borrowing in Hd.
  destruct (clock_just_passed_in_seconds _ _) as [last d'] eqn:Hc. injection Hd as <- <-.
  set (m0 := set_clocks m _) in *. assert (Hwf0 : market_wf m0) by done.
  apply sbind_ok in Hr as (m1 & nl & Hl & Hr).
  apply borrowing_one_side_ok in Hl as (rl & Hrl & -> & ? & Hm1 & [p1 Hp1]); [|done].
  assert (Hwf1 : market_wf m1) by (by eapply moved_wf).
  apply sbind_ok in Hr as (m2 & ns & Hs & Hr).
  apply borrowing_one_side_ok in Hs as (rs & Hrs & -> & ? & Hm2 & _); [|done].
  rewrite Hp1, rate_set_factor in Hrs. unfold m0 in Hrs. rewrite rate_set_clocks in Hrs.
  apply sret_ok in Hr as [-> ->].
  exists last, d', rl, rs, m1. split_and!; try done; [by eapply moved_trans|].
  intros Hi. rewrite (moved_amt _ _ _ BorrowingFactor false Hm1 Hi).
  rewrite (change_at_other_side BorrowingFactor true). apply Z.add_0_r.
Qed.

(** An update of the borrowing state advances each side's cumulative factor by exactly its
    rate per second times the elapsed seconds, so the factors never decrease; the report
    names the new factors, the clock is advanced, and a second update at the same time
    changes neither factor. *)
Theorem update_borrowing_spec m prices m' r m'' r' :
  market_wf m -> pool_pure (pool_of m BorrowingFactor) = false ->
  update_borrowing prices m = (m', Ok r) ->
  update_borrowing prices m' = (m'', Ok r') ->
  let d := borrowing_duration_in_seconds r in
  (exists rate_long rate_short,
      borrowing_factor_per_second m true prices = Ok rate_long
      /\ borrowing_factor_per_second m false prices = Ok rate_short
      /\ amt m' BorrowingFactor true = amt m BorrowingFactor true + rate_long * d
      /\ amt m' BorrowingFactor false = amt m BorrowingFactor false + rate_short * d
      /\ 0 <= rate_long * d /\ 0 <= rate_short * d)
  /\ next_cumulative_borrowing_factor_for_long r = amt m' BorrowingFactor true
  /\ next_cumulative_borrowing_factor_for_short r = amt m' BorrowingFactor false
  /\ d = snd (clock_just_passed_in_seconds (m_now m) (clock_borrowing (m_clocks m)))
  /\ borrowing_duration_in_seconds r' = 0
  /\ (forall b, amt m'' BorrowingFactor b = amt m' BorrowingFactor b).
Proof.
  intros Hwf Hi Hr Hr'.
  apply update_borrowing_moved in Hr as (last & d & rl & rs & m1 & Hc & Hrl & Hrs & Hl & Hs & -> & Hm & Hrep); [|done].
  assert (Hwf' : market_wf m') by (eapply moved_wf; [|exact Hm]; done).
  assert (Hclk : clock_borrowing (m_clocks m') = last /\ m_now m' = m_now m)
    by (by rewrite (moved_rest _ _ _ Hm)).
  destruct Hclk as [Hclk Hnow].
  apply update_borrowing_moved in Hr'
    as (last' & d' & rl' & rs' & m1' & Hc' & _ & _ & Hl' & Hs' & -> & Hm' & _); [|done].
  rewrite Hclk, Hnow in Hc'. apply clock_read_twice in Hc as Ht. destruct Ht as [_ Ht].
  rewrite Ht in Hc'. injection Hc' as <- <-.
  pose proof (moved_pure _ _ _ BorrowingFactor Hm) as Hp. pose proof (eq_trans Hp Hi) as Hi'.
  assert (Ha : forall b, amt m' BorrowingFactor b = amt m BorrowingFactor b + (if b then rl * d else rs * d)).
  { intros b. rewrite (moved_amt _ _ _ _ b Hm Hi). unfold change_plus.
    destruct b; rewrite change_at_same; rewrite ?(change_at_other_side _ true), ?(change_at_other_side _ false);
      by rewrite ?Z.add_0_r. }
  cbv zeta. cbn [borrowing_duration_in_seconds next_cumulative_borrowing_factor_for_long
    next_cumulative_borrowing_factor_for_short].
  rewrite !Ha, Hc. split_and!; try done.
  - by exists rl, rs.
  - by rewrite Hrep.
  - intros b. rewrite (moved_amt _ _ _ _ b Hm' Hi'). unfold change_plus. rewrite !Z.mul_0_r.
    destruct b; rewrite change_at_same, ?(change_at_other_side _ true), ?(change_at_other_side _ false);
      by rewrite ?Z.add_0_r.
Qed.
End UpdateStatesFacts.

(** ** The updates on the example market: a minute after the last ones. *)
Section Examples.
#[local] Existing Instance u64.
#[local] Existing Instance test_num.

Definition example_distributed : Market TestPool Z := fst (distribute_position_impact example_market).
Definition example_borrowed : Market TestPool Z := fst (update_borrowing example_prices example_market).

Example distribute_position_impact_spec_example :
  amt example_distributed PositionImpact true = 2000000000 - 60.
Proof.
  destruct (distribute_position_impact_spec example_market example_distributed
    (mkDistributePositionImpactReport 60 60 1999999940)
    (fst (distribute_position_impact example_distributed))
    (mkDistributePositionImpactReport 0 0 1999999940) example_market_wf) as (Ha & _);
    [reflexivity|vm_compute; reflexivity|vm_compute; reflexivity|]. exact Ha.
Defined.

Example update_borrowing_spec_example :
  480 = amt example_borrowed BorrowingFactor true /\ 240 = amt example_borrowed BorrowingFactor false.
Proof.
  destruct (update_borrowing_spec example_market example_prices example_borrowed
    (mkUpdateBorrowingReport 60 480 240) (fst (update_borrowing example_prices example_borrowed))
    (mkUpdateBorrowingReport 0 480 240) example_market_wf) as (_ & Hl & Hs & _);
    [reflexivity|vm_compute; reflexivity|vm_compute; reflexivity|]. by split.
Defined.
End Examples.
