(* ===== verification/Funding.v ===== *)
(** * Funding ([crates/gmsol-model/src/action/update_funding_state.rs])

    [UpdateFundingState]: the next funding factor, what a unit of position size pays and
    may claim, and the update of the four funding pools. The two arrays of four amounts
    are lists indexed by [flags_to_index]. *)
From S2P Require Import Prelude Kinds Num Fixed Price Params Pool Market TestMarket MarketFacts.
From S2P Require Import UpdateStates.

Record UpdateFundingReport : Type := mkUpdateFundingReport {
  funding_duration_in_seconds : Z;
  next_funding_factor : Z;
  delta_funding_amounts : list Z;
  delta_claimable_funding_amounts : list Z;
}.

Definition flags_to_index (is_long is_long_collateral : bool) : nat :=
  match is_long_collateral, is_long with
  | true, true => 0
  | true, false => 1
  | false, true => 2
  | false, false => 3
  end.

(** [UpdateFundingReport::empty] and the two getters. *)
Definition funding_report_empty (duration_in_seconds : Z) : UpdateFundingReport :=
  mkUpdateFundingReport duration_in_seconds 0 [0; 0; 0; 0] [0; 0; 0; 0].

Definition delta_funding_amount_per_size (self : UpdateFundingReport)
    (is_long is_long_collateral : bool) : Z :=
  nth (flags_to_index is_long is_long_collateral) (delta_funding_amounts self) 0.

Definition delta_claimable_funding_amount_per_size (self : UpdateFundingReport)
    (is_long is_long_collateral : bool) : Z :=
  nth (flags_to_index is_long is_long_collateral) (delta_claimable_funding_amounts self) 0.

Section Funding.
Context {I : UInt} {F : FixedPointOps I} {P T : Type} {O : PoolOps P} {S : SupplyOps T}.
Implicit Type market : Market P T.

Definition pack_to_funding_amount_per_size
    (adjustment funding_value open_interest price : Z) (round_up_magnitude : bool) : option Z :=
  if is_zero funding_value || is_zero open_interest then Some 0
  else
    let? numerator := umul adjustment UNIT in
    let? funding_value_per_size :=
      (if round_up_magnitude then checked_mul_div_ceil funding_value numerator open_interest
       else checked_mul_div funding_value numerator open_interest) in
    if round_up_magnitude then checked_round_up_div funding_value_per_size price
    else udiv funding_value_per_size price.

Definition unpack_to_funding_amount_delta
    (adjustment latest_funding_amount_per_size position_funding_amount_per_size size_in_usd : Z)
    (round_up_magnitude : bool) : option Z :=
  let? funding_diff_factor :=
    usub latest_funding_amount_per_size position_funding_amount_per_size in
  let? adjustment := umul adjustment UNIT in
  if round_up_magnitude then checked_mul_div_ceil size_in_usd funding_diff_factor adjustment
  else checked_mul_div size_in_usd funding_diff_factor adjustment.

(** The [match change] of [next_funding_factor_per_second]. *)
Definition changed_funding_factor (params : FundingFeeParams) (change : FundingRateChangeType)
    (funding_factor_per_second diff_factor duration_value long_open_interest short_open_interest : Z)
    : result Z :=
  let magnitude := unsigned_abs funding_factor_per_second in
  match change with
  | Increase =>
      let! increase_value :=
        ok_or
          (let? v := apply_factor diff_factor (increase_factor_per_second params) in
           umul v duration_value)
          (Computation "calculating factor increase value") in
      let! increase_value :=
        (if long_open_interest <? short_open_interest then to_opposite_signed increase_value
         else to_signed increase_value) in
      ok_or (iadd funding_factor_per_second increase_value) (Computation "increasing funding factor")
  | Decrease =>
      if negb (is_zero magnitude) then
        let! decrease_value :=
          ok_or (umul (decrease_factor_per_second params) duration_value)
            (Computation "calculating factor decrease value") in
        if magnitude <=? decrease_value then
          let! m := to_signed magnitude in
          ok_or (idiv funding_factor_per_second m) (Computation "calculating signum")
        else
          let! decreased :=
            ok_or (usub magnitude decrease_value)
              (Computation "calculating decreased funding factor per second (infallible)") in
          if is_negative funding_factor_per_second then to_opposite_signed decreased
          else to_signed decreased
      else Ok funding_factor_per_second
  | NoChange => Ok funding_factor_per_second
  end.

(** The magnitude per second, whether longs pay shorts, and the factor to store. *)
Definition next_funding_factor_per_second market
    (duration_in_seconds long_open_interest short_open_interest : Z) : result (Z * bool * Z) :=
  let params := funding_fee_params (m_config market) in
  let increase := increase_factor_per_second params in
  let diff_value := diff long_open_interest short_open_interest in
  if is_zero diff_value && is_zero increase then Ok (0, true, 0)
  else
    let! total_open_interest :=
      ok_or (uadd long_open_interest short_open_interest)
        (Computation "calculating total open interest") in
    if is_zero total_open_interest then Err UnableToGetFundingFactorEmptyOpenInterest
    else
      let! diff_value_after_exponent :=
        ok_or (apply_exponent_factor diff_value (funding_exponent params))
          (Computation "applying exponent factor to diff value") in
      let! diff_factor :=
        ok_or (div_to_factor diff_value_after_exponent total_open_interest false)
          (Computation "calculating diff value to open interest factor") in
      if is_zero increase then
        let! factor :=
          ok_or (apply_factor diff_factor (funding_factor params))
            (Computation "calculating fallback funding factor per second") in
        let factor := if max_factor_per_second params <? factor then max_factor_per_second params
                      else factor in
        Ok (factor, short_open_interest <? long_open_interest, 0)
      else
        let current := m_funding_factor_per_second market in
        let change := funding_change params current long_open_interest short_open_interest
                        diff_factor in
        let! duration_value := ok_or (from_u64 duration_in_seconds) Convert in
        let! next := changed_funding_factor params change current diff_factor duration_value
                       long_open_interest short_open_interest in
        let! next := bound_magnitude next 0 (max_factor_per_second params) in
        let! with_min := bound_magnitude next (min_factor_per_second params)
                           (max_factor_per_second params) in
        Ok (unsigned_abs with_min, is_positive with_min, next).

(** One round of the loop of [set_deltas]. *)
Definition set_delta_one market (prices : Prices) (report : UpdateFundingReport)
    (longs_pay_shorts : bool) (for_long_collateral for_short_collateral receiver_interest : Z)
    (is_long_collateral : bool) : result UpdateFundingReport :=
  let adjustment := funding_amount_per_size_adjustment (m_config market) in
  let (funding_value, price) :=
    if is_long_collateral then (for_long_collateral, pick_price (long_token_price prices) true)
    else (for_short_collateral, pick_price (short_token_price prices) true) in
  let payer := flags_to_index longs_pay_shorts is_long_collateral in
  let receiver := flags_to_index (negb longs_pay_shorts) is_long_collateral in
  let! payer_oi := balance_amount (open_interest_pool market longs_pay_shorts) is_long_collateral in
  let! pay :=
    ok_or (pack_to_funding_amount_per_size adjustment funding_value payer_oi price true)
      (Computation "calculating delta funding amount per size") in
  let! claim :=
    ok_or (pack_to_funding_amount_per_size adjustment funding_value receiver_interest price false)
      (Computation "calculating delta claimable funding amount per size") in
  Ok (mkUpdateFundingReport (funding_duration_in_seconds report) (next_funding_factor report)
        (<[payer := pay]> (delta_funding_amounts report))
        (<[receiver := claim]> (delta_claimable_funding_amounts report))).

Definition set_deltas market (prices : Prices) (report : UpdateFundingReport)
    (longs_pay_shorts : bool) (for_long_collateral for_short_collateral receiver_interest : Z)
    : result UpdateFundingReport :=
  let! report := set_delta_one market prices report longs_pay_shorts for_long_collateral
                   for_short_collateral receiver_interest true in
  set_delta_one market prices report longs_pay_shorts for_long_collateral
    for_short_collateral receiver_interest false.

Definition next_funding_amount_per_size market (prices : Prices) (duration_in_seconds : Z)
    : result UpdateFundingReport :=
  let report := funding_report_empty duration_in_seconds in
  let! long_open_interest := long_amount (open_interest market) in
  let! short_open_interest := short_amount (open_interest market) in
  if is_zero long_open_interest || is_zero short_open_interest then Ok report
  else
    let! n := next_funding_factor_per_second market duration_in_seconds long_open_interest
                short_open_interest in
    let '(funding_factor_per_second, longs_pay_shorts, next) := n in
    let report := mkUpdateFundingReport duration_in_seconds next (delta_funding_amounts report)
                    (delta_claimable_funding_amounts report) in
    let size_of_larger_side :=
      if short_open_interest <? long_open_interest then long_open_interest
      else short_open_interest in
    let! duration_value := ok_or (from_u64 duration_in_seconds) Convert in
    let! funding_factor := ok_or (umul duration_value funding_factor_per_second)
                             (Computation "calculating funding factor") in
    let! funding_value := ok_or (apply_factor size_of_larger_side funding_factor)
                            (Computation "calculating funding value") in
    let payer_open_interest :=
      if longs_pay_shorts then long_open_interest else short_open_interest in
    let! long_oi := long_amount (open_interest_pool market longs_pay_shorts) in
    let! for_long_collateral :=
      ok_or (checked_mul_div funding_value long_oi payer_open_interest)
        (Computation "calculating funding value for long collateral") in
    let! short_oi := short_amount (open_interest_pool market longs_pay_shorts) in
    let! for_short_collateral :=
      ok_or (checked_mul_div funding_value short_oi payer_open_interest)
        (Computation "calculating funding value for short collateral") in
    set_deltas market prices report longs_pay_shorts for_long_collateral for_short_collateral
      (if negb longs_pay_shorts then long_open_interest else short_open_interest).

(** One entry of the loop over [MATRIX]. *)
Definition apply_funding_deltas (report : UpdateFundingReport) (is_long is_long_collateral : bool)
    : MM P T unit :=
  do! delta := slift (to_signed (delta_funding_amount_per_size report is_long is_long_collateral)) in
  do! _ := apply_delta_to_funding_amount_per_size is_long is_long_collateral delta in
  do! delta :=
    slift (to_signed (delta_claimable_funding_amount_per_size report is_long is_long_collateral)) in
  apply_delta_to_claimable_funding_amount_per_size is_long is_long_collateral delta.

(** [UpdateFundingState::execute]. *)
Definition update_funding_execute (prices : Prices) : MM P T UpdateFundingReport :=
  do! duration_in_seconds := just_passed_in_seconds_for_funding in
  do! report := sread (fun market =>
    next_funding_amount_per_size market prices duration_in_seconds) in
  do! _ := apply_funding_deltas report true true in
  do! _ := apply_funding_deltas report true false in
  do! _ := apply_funding_deltas report false true in
  do! _ := apply_funding_deltas report false false in
  do! _ := smodify (fun market => set_funding_factor_per_second market (next_funding_factor report)) in
  sret report.

(** [PerpMarketMutExt::update_funding] and [execute]. *)
Definition update_funding (prices : Prices) : MM P T UpdateFundingReport :=
  do! _ := slift (validate_prices prices) in
  update_funding_execute prices.
End Funding.

Section FundingFacts.
Context {I : UInt} {IOk : UIntOk I} {F : FixedPointOps I} {FOk : FixedPointOk F}
  {P T : Type} {O : PoolOps P} {L : PoolLaws I P} {S : SupplyOps T} {SL : SupplyLaws T}.
Implicit Types m : Market P T.

(** ** The funding factor *)

(** How the funding factor moves. It grows towards the larger side by the skew times the
    increase factor for each second; when it decreases it keeps its sign, loses the
    decrease factor for each second and stops at one unit rather than at zero or beyond;
    otherwise it is unchanged. *)
Lemma changed_funding_factor_spec params change cur diff d lo so next :
  in_i cur -> 0 <= diff -> 0 <= increase_factor_per_second params ->
  changed_funding_factor params change cur diff d lo so = Ok next ->
  in_i next /\
  match change with
  | Increase =>
      let step := diff * increase_factor_per_second params / UNIT * d in
      next = if lo <? so then cur - step else cur + step
  | Decrease =>
      Z.sgn next = Z.sgn cur
      /\ (cur <> 0 -> Z.abs next = Z.max 1 (Z.abs cur - decrease_factor_per_second params * d))
  | NoChange => next = cur
  end.
Proof.
  intros Hc Hd Hi Hr. unfold changed_funding_factor in Hr. unfold_num_tests. destruct change.
  - by injection Hr as <-.
  - destruct (Z.ltb_spec lo so); code_inv; split; try done; lia.
  - destruct (Z.eqb_spec (Z.abs cur) 0); simpl in Hr.
    { injection Hr as <-. split; [done|]. split; [done|lia]. }
    apply rbind_ok in Hr as (dec & Hdec & Hr). apply ok_or_ok, umul_some in Hdec as [-> Hdec].
    destruct (Z.leb_spec (Z.abs cur) (decrease_factor_per_second params * d)).
    + code_inv. split; [done|].
      destruct (Z.lt_trichotomy cur 0) as [?|[?|?]]; [|lia|].
      * rewrite (Z.abs_neq cur), Z.quot_opp_r, Z.quot_same by lia. simpl. lia.
      * rewrite (Z.abs_eq cur), Z.quot_same by lia. simpl. lia.
    + destruct (Z.ltb_spec cur 0); code_inv; (split; [done|]); lia.
Qed.

(** The funding rate is bounded. With an adaptive rate (a non-zero increase factor) the
    stored factor has at most the maximal magnitude, the rate that is charged lies between
    the configured minimum and maximum, and its direction agrees with the stored factor;
    without one the stored factor is zero, the rate is at most the maximum and the larger
    side pays. *)
Theorem funding_factor_bounds m d lo so mag longs_pay next :
  let params := funding_fee_params (m_config m) in
  in_i (m_funding_factor_per_second m) -> 0 <= lo -> 0 <= so ->
  0 <= increase_factor_per_second params ->
  in_u (min_factor_per_second params) -> in_u (max_factor_per_second params) ->
  next_funding_factor_per_second m d lo so = Ok (mag, longs_pay, next) ->
  0 <= mag <= max_factor_per_second params
  /\ Z.abs next <= max_factor_per_second params
  /\ (increase_factor_per_second params <> 0 ->
        min_factor_per_second params <= mag
        /\ (0 < next -> longs_pay = true) /\ (next < 0 -> longs_pay = false))
  /\ (increase_factor_per_second params = 0 ->
        next = 0 /\ (mag <> 0 -> longs_pay = (so <? lo))).
Proof.
  intros params Hcur Hlo Hso Hinc Hmin Hmax Hr. unfold next_funding_factor_per_second in Hr.
  fold params in Hr. cbv zeta in Hr. unfold is_zero at 1 2 in Hr. unfold in_u in Hmin, Hmax.
  destruct ((diff lo so =? 0) && _) eqn:Hz.
  { injection Hr as <- <- <-. bool_to_prop. split_and!; lia. }
  apply rbind_ok in Hr as (total & Ht & Hr). apply ok_or_ok, uadd_some in Ht as [-> [? Ht]].
  inv_ok_step; [discriminate|].
  apply rbind_ok in Hr as (e & He & Hr). apply ok_or_ok in He.
  apply rbind_ok in Hr as (df & Hdf & Hr). apply ok_or_ok in Hdf.
  assert (0 <= df).
  { destruct (Z.leb_spec 0 e) as [Hpos|Hneg].
    - apply div_to_factor_some in Hdf as (? & _); lia.
    - exfalso. unfold apply_exponent_factor, apply_exponent_factor_wrapped in He.
      pose proof unit_pos. destruct (_ ?= _) eqn:Hcmp; [| |].
      + injection He as <-. lia.
      + injection He as <-. lia.
      + apply Z.compare_gt_iff in Hcmp. unfold div_to_factor, is_zero in Hdf.
        bool_to_prop. unfold is_zero in Hb. destruct (Z.eqb_spec (lo + so) 0); [discriminate|].
        apply checked_mul_div_some in Hdf as (_ & -> & Hdf). unfold in_u in Hdf.
        assert (e * UNIT / (lo + so) < 0); [|lia]. apply Z.div_lt_upper_bound; nia. }
  destruct (is_zero (increase_factor_per_second params)) eqn:Hzi; unfold is_zero in Hzi; bool_to_prop.
  - apply rbind_ok in Hr as (f & Hf & Hr). apply ok_or_ok, apply_factor_some in Hf as [Hf Hfu].
    injection Hr as <- <- <-. rewrite if_ltb_min. unfold in_u in Hfu. split_and!; lia.
  - apply rbind_ok in Hr as (dv & _ & Hr). apply rbind_ok in Hr as (n & Hn & Hr).
    apply changed_funding_factor_spec in Hn as [Hn _]; [|done..].
    apply rbind_ok in Hr as (n' & Hn' & Hr).
    assert (Hzero : in_u 0) by (unfold in_u; lia).
    apply bound_magnitude_clamp in Hn' as (? & _ & ? & ? & ?); [|done..].
    assert (in_i n') by (destruct bounds_linear as (h & ? & ? & Hi & Hm); unfold in_i in *; lia).
    apply rbind_ok in Hr as (w & Hw & Hr).
    apply bound_magnitude_clamp in Hw as (? & _ & ? & ? & ?); [|done..].
    injection Hr as <- <- <-. unfold_num_tests.
    split_and!; try lia; intros; lia.
Qed.

(** ** What is charged covers what can be claimed *)
Lemma pack_up_ok adj v oi price r :
  0 <= v -> 0 <= oi -> 0 < price -> 0 <= adj -> (oi = 0 -> v = 0) ->
  pack_to_funding_amount_per_size adj v oi price true = Some r ->
  0 <= r /\ v * (adj * UNIT) <= r * price * oi.
Proof.
  intros Hv Ho Hp Ha Hz Hr. unfold pack_to_funding_amount_per_size in Hr. pose proof unit_pos.
  unfold is_zero in Hr. destruct (Z.eqb_spec v 0) as [->|]; [injection Hr as <-; simpl; lia|].
  destruct (Z.eqb_spec oi 0) as [|]; [lia|]. simpl in Hr. inv_ok_step.
  apply umul_some in Hv0 as [-> Hv0]. inv_ok_step. apply checked_mul_div_ceil_some in Hv1 as (_ & -> & ?).
  pose proof (div_ceil_spec (v * (adj * UNIT)) oi ltac:(lia)).
  apply checked_round_up_div_some in Hr as (_ & ? & _ & Hr); [|unfold in_u in *; lia..].
  unfold in_u in Hr. split; [lia|]. nia.
Qed.

Lemma pack_down_ok adj v oi price r :
  0 <= v -> 0 <= oi -> 0 < price -> 0 <= adj ->
  pack_to_funding_amount_per_size adj v oi price false = Some r ->
  0 <= r /\ r * price * oi <= v * (adj * UNIT).
Proof.
  intros Hv Ho Hp Ha Hr. unfold pack_to_funding_amount_per_size in Hr. pose proof unit_pos.
  unfold is_zero in Hr. destruct (Z.eqb_spec v 0) as [->|]; [injection Hr as <-; simpl; lia|].
  destruct (Z.eqb_spec oi 0) as [->|]; [injection Hr as <-; nia|]. simpl in Hr. inv_ok_step.
  apply umul_some in Hv0 as [-> Hv0]. inv_ok_step. apply checked_mul_div_some in Hv1 as (_ & -> & ?).
  pose proof (div_mul_le (v * (adj * UNIT)) oi ltac:(lia)).
  set (q := v * (adj * UNIT) / oi) in *. apply udiv_some in Hr as (_ & -> & Hr).
  pose proof (div_mul_le q price Hp). unfold in_u in Hr. split; [lia|]. nia.
Qed.

Lemma unpack_up_ok adj latest pos size r :
  0 < adj -> unpack_to_funding_amount_delta adj latest pos size true = Some r ->
  size * (latest - pos) <= r * (adj * UNIT).
Proof.
  intros Ha Hr. unfold unpack_to_funding_amount_delta in Hr. pose proof unit_pos. code_inv.
  pose proof (div_ceil_spec (size * (latest - pos)) (adj * UNIT) (Z.mul_pos_pos _ _ Ha unit_pos)). lia.
Qed.

Lemma unpack_down_ok adj latest pos size r :
  0 < adj -> unpack_to_funding_amount_delta adj latest pos size false = Some r ->
  r * (adj * UNIT) <= size * (latest - pos).
Proof.
  intros Ha Hr. unfold unpack_to_funding_amount_delta in Hr. pose proof unit_pos. code_inv.
  pose proof (div_mul_le (size * (latest - pos)) (adj * UNIT) (Z.mul_pos_pos _ _ Ha unit_pos)). lia.
Qed.

(** The open interest of a side, in one collateral. *)
Definition oi m (is_long is_long_collateral : bool) : Z :=
  amt m (OpenInterest is_long) is_long_collateral.

Definition report_shape (r : UpdateFundingReport) : Prop :=
  exists a b c d e f g h,
    delta_funding_amounts r = [a; b; c; d] /\ delta_claimable_funding_amounts r = [e; f; g; h].

Lemma set_delta_one_ok m prices report payer vl vs ri c report' :
  market_wf m -> report_shape report ->
  set_delta_one m prices report payer vl vs ri c = Ok report' ->
  let v := if c then vl else vs in
  let price := price_max (collateral_token_price prices c) in
  let adj := funding_amount_per_size_adjustment (m_config m) in
  report_shape report'
  /\ funding_duration_in_seconds report' = funding_duration_in_seconds report
  /\ next_funding_factor report' = next_funding_factor report
  /\ pack_to_funding_amount_per_size adj v (oi m payer c) price true
     = Some (delta_funding_amount_per_size report' payer c)
  /\ pack_to_funding_amount_per_size adj v ri price false
     = Some (delta_claimable_funding_amount_per_size report' (negb payer) c)
  /\ delta_funding_amount_per_size report' (negb payer) c
     = delta_funding_amount_per_size report (negb payer) c
  /\ delta_claimable_funding_amount_per_size report' payer c
     = delta_claimable_funding_amount_per_size report payer c
  /\ (forall b, delta_funding_amount_per_size report' b (negb c)
                = delta_funding_amount_per_size report b (negb c)
       /\ delta_claimable_funding_amount_per_size report' b (negb c)
          = delta_claimable_funding_amount_per_size report b (negb c)).
Proof.
  intros Hwf Hshape Hr. unfold set_delta_one, open_interest_pool in Hr.
  destruct (if c then _ else _) as [v price] eqn:Hvp.
  rewrite amt_ok in Hr by done. fold (oi m payer c) in Hr.
  apply rbind_ok in Hr as (o & [= <-] & Hr).
  apply rbind_ok in Hr as (pay & Hpay & Hr). apply ok_or_ok in Hpay.
  apply rbind_ok in Hr as (claim & Hclaim & Hr). apply ok_or_ok in Hclaim.
  injection Hr as <-.
  destruct Hshape as (x0 & x1 & x2 & x3 & y0 & y1 & y2 & y3 & Hx & Hy).
  unfold delta_funding_amount_per_size, delta_claimable_funding_amount_per_size.
  cbn [delta_funding_amounts delta_claimable_funding_amounts]. rewrite Hx, Hy.
  destruct c, payer; injection Hvp as <- <-; cbn -[pack_to_funding_amount_per_size];
    (split_and!; [repeat eexists|done|done|exact Hpay|exact Hclaim|done|done|intros []; done]).
Qed.

(** The shape of a computed report: nothing, or the charges and claims of the payer. *)
Lemma next_report_ok m prices d report :
  market_wf m -> next_funding_amount_per_size m prices d = Ok report ->
  funding_duration_in_seconds report = d /\
  (report = funding_report_empty d \/
   exists payer value mag vl vs,
     let adj := funding_amount_per_size_adjustment (m_config m) in
     let v (c : bool) := if c then vl else vs in
     next_funding_factor_per_second m d (open_interest_amt m true) (open_interest_amt m false)
       = Ok (mag, payer, next_funding_factor report)
     /\ (forall b, 0 < open_interest_amt m b)
     /\ 0 <= value /\ (forall c, v c = value * oi m payer c / open_interest_amt m payer)
     /\ (forall c,
          let price := price_max (collateral_token_price prices c) in
          pack_to_funding_amount_per_size adj (v c) (oi m payer c) price true
            = Some (delta_funding_amount_per_size report payer c)
          /\ pack_to_funding_amount_per_size adj (v c) (open_interest_amt m (negb payer)) price false
            = Some (delta_claimable_funding_amount_per_size report (negb payer) c)
          /\ delta_funding_amount_per_size report (negb payer) c = 0
          /\ delta_claimable_funding_amount_per_size report payer c = 0)).
Proof.
  intros Hwf Hr. unfold next_funding_amount_per_size in Hr.
  apply rbind_ok in Hr as (lo & Hlo & Hr). apply (open_interest_ok m true) in Hlo as [-> Hlo]; [|done].
  apply rbind_ok in Hr as (so & Hso & Hr). apply (open_interest_ok m false) in Hso as [-> Hso]; [|done].
  case_if_in Hr Hz; [injection Hr as <-; by split; [|left]|].
  unfold is_zero in Hz. bool_to_prop. unfold in_u in Hlo, Hso.
  apply rbind_ok in Hr as ([[mag payer] next] & Hn & Hr).
  do 2 (apply rbind_ok in Hr as (? & _ & Hr)).
  apply rbind_ok in Hr as (value & Hv & Hr). apply ok_or_ok, apply_factor_some in Hv as [_ [Hv _]].
  unfold open_interest_pool in Hr. rewrite pool_long_amount, pool_short_amount in Hr by apply Hwf.
  apply rbind_ok in Hr as (lo & [= <-] & Hr).
  apply rbind_ok in Hr as (vl & Hvl & Hr). apply ok_or_ok, checked_mul_div_some in Hvl as (_ & Hvl & _).
  apply rbind_ok in Hr as (so & [= <-] & Hr).
  apply rbind_ok in Hr as (vs & Hvs & Hr). apply ok_or_ok, checked_mul_div_some in Hvs as (_ & Hvs & _).
  unfold set_deltas in Hr. apply rbind_ok in Hr as (r1 & H1 & Hr).
  apply set_delta_one_ok in H1 as (Hs1 & Hd1 & Hn1 & Hp1 & Hc1 & Hz1 & Hz1' & Ho1); [|done|by repeat eexists].
  apply set_delta_one_ok in Hr as (_ & Hd2 & Hn2 & Hp2 & Hc2 & Hz2 & Hz2' & Ho2); [|done|done].
  cbn in Hd1, Hn1. split; [congruence|]. right. exists payer, value, mag, vl, vs. cbv zeta.
  rewrite Hn2, Hn1.
  assert (Hri : (if negb payer then open_interest_amt m true else open_interest_amt m false)
    = open_interest_amt m (negb payer)) by (by destruct payer).
  rewrite Hri in *.
  split_and!; [done|intros []; lia|done|intros []; [rewrite Hvl|rewrite Hvs]; by destruct payer|].
  intros [].
  - destruct (Ho2 payer) as [Ha Hb], (Ho2 (negb payer)) as [Ha' Hb']. cbn [negb] in Ha, Hb, Ha', Hb'.
    rewrite Ha, Hb, Ha', Hb', Hz1, Hz1'. split_and!; [exact Hp1|exact Hc1|..];
      unfold delta_funding_amount_per_size, delta_claimable_funding_amount_per_size; by destruct payer.
  - destruct (Ho1 payer) as [_ Hb], (Ho1 (negb payer)) as [Ha' _]. cbn [negb] in Hb, Ha'.
    rewrite Hz2, Hz2'. rewrite Ha', Hb. split_and!; [exact Hp2|exact Hc2|..];
      unfold delta_funding_amount_per_size, delta_claimable_funding_amount_per_size; by destruct payer.
Qed.

Lemma sum_bound (k x : Z) (sizes amounts : list Z) :
  Forall2 (fun size amount => k * size <= amount * x) sizes amounts ->
  k * foldr Z.add 0 sizes <= foldr Z.add 0 amounts * x.
Proof. induction 1; simpl; lia. Qed.

Lemma sum_bound' (k x : Z) (sizes amounts : list Z) :
  Forall2 (fun size amount => amount * x <= k * size) sizes amounts ->
  foldr Z.add 0 amounts * x <= k * foldr Z.add 0 sizes.
Proof. induction 1; simpl; lia. Qed.

(** C28: funding is never over-distributed. For each collateral token only the payer side's
    amount per size grows and only the other side's claimable amount does; and whatever the
    open positions are, as long as the payers' sizes make up the payer open interest in
    this collateral and the receivers' sizes do not exceed their open interest, the amounts
    the payers are charged for the update (each rounded up) cover the amounts all receivers
    can claim (each rounded down). *)
Theorem funding_charges_cover_claims m prices d report c :
  market_wf m -> 0 < funding_amount_per_size_adjustment (m_config m) ->
  0 < price_max (collateral_token_price prices c) ->
  next_funding_amount_per_size m prices d = Ok report ->
  exists payer,
    delta_funding_amount_per_size report (negb payer) c = 0
    /\ delta_claimable_funding_amount_per_size report payer c = 0
    /\ forall payers charges receivers claims,
        foldr Z.add 0 payers = oi m payer c ->
        foldr Z.add 0 receivers <= open_interest_amt m (negb payer) ->
        Forall2 (fun size charge =>
          unpack_to_funding_amount_delta (funding_amount_per_size_adjustment (m_config m))
            (delta_funding_amount_per_size report payer c) 0 size true = Some charge) payers charges ->
        Forall2 (fun size claim =>
          unpack_to_funding_amount_delta (funding_amount_per_size_adjustment (m_config m))
            (delta_claimable_funding_amount_per_size report (negb payer) c) 0 size false = Some claim)
          receivers claims ->
        foldr Z.add 0 claims <= foldr Z.add 0 charges.
Proof.
  intros Hwf Hadj Hprice Hr. apply next_report_ok in Hr as [_ Hr]; [|done].
  set (adj := funding_amount_per_size_adjustment (m_config m)) in *.
  pose proof unit_pos as HU. assert (HA : 0 < adj * UNIT) by nia.
  assert (Hcover : exists payer,
    delta_funding_amount_per_size report (negb payer) c = 0
    /\ delta_claimable_funding_amount_per_size report payer c = 0
    /\ 0 <= delta_claimable_funding_amount_per_size report (negb payer) c
    /\ delta_claimable_funding_amount_per_size report (negb payer) c * open_interest_amt m (negb payer)
       <= delta_funding_amount_per_size report payer c * oi m payer c).
  { destruct Hr as [->|(payer & value & mag & vl & vs & _ & Hoi & Hv & Hvc & Hp)].
    - exists true. by destruct c.
    - exists payer. specialize (Hp c). cbv zeta in Hp. destruct Hp as (Hpay & Hclaim & ? & ?).
      pose proof (Hoi payer). pose proof (Hoi (negb payer)). specialize (Hvc c).
      set (v := if c then vl else vs) in *.
      pose proof (amt_in_u m (OpenInterest payer) c Hwf) as [Ho _]. fold (oi m payer c) in Ho.
      assert (0 <= v) by (rewrite Hvc; apply div_nonneg; nia).
      apply pack_up_ok in Hpay as [? Hup]; [|done|done|done|fold adj; lia|].
      2: { intros Hz. rewrite Hvc, Hz, Z.mul_0_r. apply Z.div_0_l. lia. }
      apply pack_down_ok in Hclaim as [? Hdown]; [|done|lia|done|fold adj; lia].
      split_and!; [done|done|done|]. fold adj in Hup, Hdown.
      apply (Z.mul_le_mono_pos_r _ _ (price_max (collateral_token_price prices c))); [done|]. lia. }
  destruct Hcover as (payer & ? & ? & Hnn & Hle). exists payer. split_and!; [done|done|].
  intros payers charges receivers claims Hps Hrs Hcharges Hclaims.
  assert (H1 : delta_funding_amount_per_size report payer c * foldr Z.add 0 payers
    <= foldr Z.add 0 charges * (adj * UNIT)).
  { apply sum_bound. eapply Forall2_impl; [exact Hcharges|]. intros size charge Hu.
    apply unpack_up_ok in Hu; [|done]. rewrite Z.sub_0_r in Hu. lia. }
  assert (H2 : foldr Z.add 0 claims * (adj * UNIT)
    <= delta_claimable_funding_amount_per_size report (negb payer) c * foldr Z.add 0 receivers).
  { apply sum_bound'. eapply Forall2_impl; [exact Hclaims|]. intros size claim Hu.
    apply unpack_down_ok in Hu; [|done]. rewrite Z.sub_0_r in Hu. lia. }
  rewrite Hps in H1. apply (Z.mul_le_mono_pos_r _ _ (adj * UNIT)); [done|]. nia.
Qed.

(** ** The update *)

(** The change that one entry of the matrix makes. *)
Definition funding_entry (r : UpdateFundingReport) (b c : bool) : Change :=
  (change_at (FundingAmountPerSize b) c (delta_funding_amount_per_size r b c)
   + change_at (ClaimableFundingAmountPerSize b) c (delta_claimable_funding_amount_per_size r b c))%change.

Lemma apply_funding_deltas_ok r b c m m' u :
  market_wf m -> apply_funding_deltas r b c m = (m', Ok u) -> Moved m (funding_entry r b c) m'.
Proof.
  intros Hwf Hr. unfold apply_funding_deltas in Hr.
  apply sbind_ok in Hr as (? & x & Hx & Hr). apply slift_ok in Hx as [-> [-> _]%to_signed_ok].
  apply sbind_ok in Hr as (m1 & ? & Hm1 & Hr).
  apply apply_delta_to_funding_amount_per_size_moved in Hm1; [|done].
  apply sbind_ok in Hr as (? & y & Hy & Hr). apply slift_ok in Hy as [-> [-> _]%to_signed_ok].
  apply apply_delta_to_claimable_funding_amount_per_size_moved in Hr; [|by eapply moved_wf].
  by eapply moved_trans.
Qed.

(** The sum of the four entries. *)
Definition funding_change_of (r : UpdateFundingReport) : Change :=
  fun k c =>
    match k with
    | FundingAmountPerSizeForLong => delta_funding_amount_per_size r true c
    | FundingAmountPerSizeForShort => delta_funding_amount_per_size r false c
    | ClaimableFundingAmountPerSizeForLong => delta_claimable_funding_amount_per_size r true c
    | ClaimableFundingAmountPerSizeForShort => delta_claimable_funding_amount_per_size r false c
    | _ => 0
    end.

Lemma funding_change_sum r k c :
  (funding_entry r true true + funding_entry r true false + funding_entry r false true
   + funding_entry r false false)%change k c = funding_change_of r k c.
Proof.
  unfold funding_entry, change_plus, change_at, FundingAmountPerSize, ClaimableFundingAmountPerSize.
  destruct k, c; vm_compute (decide _); cbn -[delta_funding_amount_per_size
    delta_claimable_funding_amount_per_size Z.add]; lia.
Qed.

Lemma update_funding_moved m prices m' r :
  market_wf m -> update_funding prices m = (m', Ok r) ->
  exists last d m1,
    clock_just_passed_in_seconds (m_now m) (clock_funding (m_clocks m)) = (last, d)
    /\ next_funding_amount_per_size m prices d = Ok r
    /\ Moved (set_clocks m (mkClocks (clock_price_impact_distribution (m_clocks m))
                (clock_borrowing (m_clocks m)) last)) (funding_change_of r) m1
    /\ m' = set_funding_factor_per_second m1 (next_funding_factor r).
Proof.
  intros Hwf Hr. unfold update_funding in Hr.
  apply sbind_ok in Hr as (? & ? & Hv & Hr). apply slift_ok in Hv as [-> _].
  unfold update_funding_execute in Hr. apply sbind_ok in Hr as (m0 & d & Hd & Hr).
  unfold just_passed_in_seconds_for_funding in Hd.
  destruct (clock_just_passed_in_seconds _ _) as [last d'] eqn:Hc. injection Hd as <- <-.
  set (m0 := set_clocks m _) in *. assert (Hwf0 : market_wf m0) by done.
  apply sbind_ok in Hr as (? & rep & Hrep & Hr). apply sread_ok in Hrep as [-> Hrep].
  apply sbind_ok in Hr as (m1 & ? & H1 & Hr). apply apply_funding_deltas_ok in H1; [|done].
  apply sbind_ok in Hr as (m2 & ? & H2 & Hr). apply apply_funding_deltas_ok in H2; [|by eauto with rust].
  apply sbind_ok in Hr as (m3 & ? & H3 & Hr). apply apply_funding_deltas_ok in H3; [|by eauto with rust].
  apply sbind_ok in Hr as (m4 & ? & H4 & Hr). apply apply_funding_deltas_ok in H4; [|by eauto with rust].
  apply sbind_ok in Hr as (m5 & ? & H5 & Hr). apply smodify_ok in H5 as ->.
  apply sret_ok in Hr as [-> ->]. exists last, d', m4. split_and!; [done|exact Hrep| |done].
  pose proof (moved_trans _ _ _ _ _ (moved_trans _ _ _ _ _ (moved_trans _ _ _ _ _ H1 H2) H3) H4) as Hm.
  eapply moved_ext; [exact Hm|]. apply funding_change_sum.
Qed.

Definition funding_pool (k : PoolKind) : bool :=
  match k with
  | FundingAmountPerSizeForLong | FundingAmountPerSizeForShort
  | ClaimableFundingAmountPerSizeForLong | ClaimableFundingAmountPerSizeForShort => true
  | _ => false
  end.

(** An update of the funding state commits exactly what it reports: the four funding pools
    grow by the reported amounts per size, which are never negative, so what positions owe
    and may claim only accumulates; the stored factor becomes the reported one, the clock
    is advanced by the reported duration, and nothing else changes. *)
Theorem update_funding_spec m prices m' r :
  market_wf m -> 0 < funding_amount_per_size_adjustment (m_config m) ->
  prices_in_range prices ->
  (forall b, pool_pure (pool_of m (FundingAmountPerSize b)) = false
             /\ pool_pure (pool_of m (ClaimableFundingAmountPerSize b)) = false) ->
  update_funding prices m = (m', Ok r) ->
  (forall b c,
    amt m' (FundingAmountPerSize b) c
      = amt m (FundingAmountPerSize b) c + delta_funding_amount_per_size r b c
    /\ amt m' (ClaimableFundingAmountPerSize b) c
      = amt m (ClaimableFundingAmountPerSize b) c + delta_claimable_funding_amount_per_size r b c
    /\ 0 <= delta_funding_amount_per_size r b c
    /\ 0 <= delta_claimable_funding_amount_per_size r b c)
  /\ m_funding_factor_per_second m' = next_funding_factor r
  /\ clock_just_passed_in_seconds (m_now m) (clock_funding (m_clocks m))
     = (clock_funding (m_clocks m'), funding_duration_in_seconds r)
  /\ m_supply m' = m_supply m /\ m_config m' = m_config m
  /\ (forall k c, funding_pool k = false -> pool_pure (pool_of m k) = false ->
        amt m' k c = amt m k c).
Proof.
  intros Hwf Hadj Hpr Himp Hr.
  assert (Hpos : forall c, 0 < price_max (collateral_token_price prices c)).
  { unfold update_funding in Hr. apply sbind_ok in Hr as (? & ? & Hv & _).
    apply slift_ok in Hv as [_ Hv]. apply validate_prices_ok in Hv as (_ & Hl & Hs).
    destruct Hpr as (_ & Hrl & Hrs). intros []; [by apply (price_valid_pos _ Hrl)|by apply (price_valid_pos _ Hrs)]. }
  apply update_funding_moved in Hr as (last & d & m1 & Hc & Hrep & Hm & ->); [|done].
  apply next_report_ok in Hrep as [Hd Hrep]; [|done].
  assert (Hamt : forall k c, pool_pure (pool_of m k) = false ->
    amt (set_funding_factor_per_second m1 (next_funding_factor r)) k c
    = amt m k c + funding_change_of r k c) by (intros k c Hp; exact (moved_amt _ _ _ k c Hm Hp)).
  split_and!.
  - intros b c. rewrite !Hamt by apply Himp. split_and!; [by destruct b|by destruct b|..].
    + destruct Hrep as [->|(payer & value & mag & vl & vs & _ & Hoi & Hv & Hvc & Hp)]; [by destruct b, c|].
      specialize (Hp c). cbv zeta in Hp. destruct Hp as (Hpay & Hclaim & Hz & _).
      destruct (bool_dec b payer) as [->|Hne].
      * eapply pack_up_ok in Hpay as [? _]; [done|..]; rewrite ?Hvc.
        -- apply div_nonneg; [|apply Hoi]. pose proof (amt_in_u m (OpenInterest payer) c Hwf) as [? _].
           unfold oi. nia.
        -- apply (amt_in_u m (OpenInterest payer) c Hwf).
        -- apply Hpos.
        -- lia.
        -- intros Hz'. rewrite Hz', Z.mul_0_r. apply Z.div_0_l. specialize (Hoi payer). lia.
      * assert (b = negb payer) as -> by (by destruct b, payer). lia.
    + destruct Hrep as [->|(payer & value & mag & vl & vs & _ & Hoi & Hv & Hvc & Hp)]; [by destruct b, c|].
      specialize (Hp c). cbv zeta in Hp. destruct Hp as (Hpay & Hclaim & _ & Hz).
      destruct (bool_dec b payer) as [->|Hne]; [lia|].
      assert (b = negb payer) as -> by (by destruct b, payer).
      eapply pack_down_ok in Hclaim as [? _]; [done|..]; rewrite ?Hvc.
      * apply div_nonneg; [|apply Hoi]. pose proof (amt_in_u m (OpenInterest payer) c Hwf) as [? _].
        unfold oi. nia.
      * specialize (Hoi (negb payer)). lia.
      * apply Hpos.
      * lia.
  - done.
  - rewrite Hc, Hd. f_equal. cbn. by rewrite (moved_rest _ _ _ Hm).
  - exact (moved_supply _ _ _ Hm).
  - exact (moved_config _ _ _ Hm).
  - intros k c Hk Hp. rewrite Hamt by done. destruct k; try done; apply Z.add_0_r.
Qed.
End FundingFacts.

(** ** Funding on the example market: longs have more open interest and pay. *)
Section Examples.
#[local] Existing Instance u64.
#[local] Existing Instance test_num.

Definition example_funding_report : UpdateFundingReport :=
  mkUpdateFundingReport 60 10 [49587; 0; 6000000; 0] [0; 66115; 0; 2000000].

Definition example_funded : Market TestPool Z := fst (update_funding example_prices example_market).

Example changed_funding_factor_spec_example : Z.sgn (-1) = Z.sgn (-40).
Proof.
  apply (changed_funding_factor_spec
    (mkFundingFeeParams 1000000000 20 10 3 100 1 50000000 0) Decrease (-40) 0 60 5 7 (-1));
    vm_compute; first [reflexivity | discriminate | split; discriminate].
Qed.

Example funding_factor_bounds_example : 0 <= 10 <= 10 /\ Z.abs 10 <= 10.
Proof.
  destruct (funding_factor_bounds example_market 60 500000000000 300000000000 10 true 10)
    as (Hm & Ha & _); try (vm_compute; first [reflexivity | discriminate | split; discriminate]).
  by split.
Defined.

(** One long position of the whole long-collateral open interest pays for the claim of a
    short position of the whole short open interest. *)
Lemma funding_charges_cover_claims_witness : 1983 + 0 <= 1984 + 0.
Proof.
  destruct (funding_charges_cover_claims example_market example_prices 60 example_funding_report true
    example_market_wf) as (payer & H1 & H2 & Hall);
    [reflexivity|reflexivity|vm_compute; reflexivity|].
  destruct payer; [|discriminate H1].
  apply (Hall [400000000000] [1984] [300000000000] [1983]);
    [reflexivity|vm_compute; discriminate|..]; (constructor; [vm_compute; reflexivity|constructor]).
Defined.

Example update_funding_spec_example : m_funding_factor_per_second example_funded = 10.
Proof.
  destruct (update_funding_spec example_market example_prices example_funded example_funding_report
    example_market_wf) as (_ & Hf & _);
    [reflexivity|exact example_prices_in_range|by intros []|vm_compute; reflexivity|]. exact Hf.
Defined.
End Examples.
