(* ===== verification/Position.v ===== *)
(** * Positions ([crates/gmsol-model/src/position.rs])

    The state of a position, the pure methods of [PositionExt] (pnl, pending fees, price
    impact, liquidation) and the global bookkeeping of [PositionMutExt]. The hooks
    [on_validate], [on_increased] and [on_decreased] do nothing, as in the crate's
    test position; the store program's record slots, times and trade ids. *)
From S2P Require Import Prelude Kinds Num Fixed Price Params Pool Market TestMarket MarketFacts.
From S2P Require Import UpdateStates Funding.

(** [PositionState] with the two sides that [Position] adds. *)
Record Position : Type := mkPosition {
  is_long : bool;
  is_collateral_token_long : bool;
  are_pnl_and_collateral_tokens_the_same : bool;
  collateral_amount : Z;
  size_in_usd : Z;
  size_in_tokens : Z;
  position_borrowing_factor : Z;
  position_funding_fee_amount_per_size : Z;
  position_claimable_long : Z;
  position_claimable_short : Z;
}.

Definition position_claimable (self : Position) (is_long_collateral : bool) : Z :=
  if is_long_collateral then position_claimable_long self else position_claimable_short self.

(** The writes through the [..._mut] getters. *)
Definition set_collateral_amount (p : Position) (v : Z) : Position :=
  mkPosition (is_long p) (is_collateral_token_long p) (are_pnl_and_collateral_tokens_the_same p)
    v (size_in_usd p) (size_in_tokens p) (position_borrowing_factor p)
    (position_funding_fee_amount_per_size p) (position_claimable_long p) (position_claimable_short p).
Definition set_size_in_usd (p : Position) (v : Z) : Position :=
  mkPosition (is_long p) (is_collateral_token_long p) (are_pnl_and_collateral_tokens_the_same p)
    (collateral_amount p) v (size_in_tokens p) (position_borrowing_factor p)
    (position_funding_fee_amount_per_size p) (position_claimable_long p) (position_claimable_short p).
Definition set_size_in_tokens (p : Position) (v : Z) : Position :=
  mkPosition (is_long p) (is_collateral_token_long p) (are_pnl_and_collateral_tokens_the_same p)
    (collateral_amount p) (size_in_usd p) v (position_borrowing_factor p)
    (position_funding_fee_amount_per_size p) (position_claimable_long p) (position_claimable_short p).
Definition set_borrowing_factor (p : Position) (v : Z) : Position :=
  mkPosition (is_long p) (is_collateral_token_long p) (are_pnl_and_collateral_tokens_the_same p)
    (collateral_amount p) (size_in_usd p) (size_in_tokens p) v
    (position_funding_fee_amount_per_size p) (position_claimable_long p) (position_claimable_short p).
Definition set_funding_fee_amount_per_size (p : Position) (v : Z) : Position :=
  mkPosition (is_long p) (is_collateral_token_long p) (are_pnl_and_collateral_tokens_the_same p)
    (collateral_amount p) (size_in_usd p) (size_in_tokens p) (position_borrowing_factor p)
    v (position_claimable_long p) (position_claimable_short p).
Definition set_claimable (p : Position) (is_long_collateral : bool) (v : Z) : Position :=
  mkPosition (is_long p) (is_collateral_token_long p) (are_pnl_and_collateral_tokens_the_same p)
    (collateral_amount p) (size_in_usd p) (size_in_tokens p) (position_borrowing_factor p)
    (position_funding_fee_amount_per_size p)
    (if is_long_collateral then v else position_claimable_long p)
    (if is_long_collateral then position_claimable_short p else v).

(** [PositionStateExt::is_empty]. *)
Definition is_empty (self : Position) : bool :=
  is_zero (size_in_usd self) && is_zero (size_in_tokens self) && is_zero (collateral_amount self).

Record CollateralDelta : Type := mkCollateralDelta {
  cd_next_size_in_usd : Z;
  cd_next_collateral_amount : Z;
  cd_realized_pnl_value : Z;
  cd_open_interest_delta : Z;
}.

Inductive WillCollateralBeSufficient : Type :=
| WillBeSufficient (value : Z)
| WillBeInsufficient (value : Z).

Definition is_sufficient (self : WillCollateralBeSufficient) : bool :=
  match self with WillBeSufficient _ => true | WillBeInsufficient _ => false end.
Definition will_deref (self : WillCollateralBeSufficient) : Z :=
  match self with WillBeSufficient v => v | WillBeInsufficient v => v end.

Inductive CheckCollateralResult : Type :=
| CollateralSufficient
| CollateralZero
| CollateralNegative
| CollateralMinForLeverage
| CollateralMin.

Section PositionReads.
Context {I : UInt} {F : FixedPointOps I} {P T : Type} {O : PoolOps P} {S : SupplyOps T}.
Implicit Types (market : Market P T) (self : Position).

Definition check_collateral (size_in_usd min_collateral_factor : Z)
    (min_collateral_value : option Z) (allow_zero_collateral : bool) (collateral_value : Z)
    : result CheckCollateralResult :=
  if is_negative collateral_value then
    match min_collateral_value with
    | Some _ => Ok CollateralMin
    | None => Ok CollateralNegative
    end
  else
    let collateral_value := unsigned_abs collateral_value in
    if match min_collateral_value with
       | Some m => collateral_value <? m
       | None => false
       end then Ok CollateralMin
    else if negb allow_zero_collateral && is_zero collateral_value then Ok CollateralZero
    else
      let! min_collateral_usd_for_leverage :=
        ok_or (apply_factor size_in_usd min_collateral_factor)
          (Computation "calculating min collateral usd for leverage") in
      if collateral_value <? min_collateral_usd_for_leverage then Ok CollateralMinForLeverage
      else Ok CollateralSufficient.

Definition collateral_price self (prices : Prices) : Price :=
  if is_collateral_token_long self then long_token_price prices else short_token_price prices.

Definition collateral_value self (prices : Prices) : result Z :=
  ok_or (umul (collateral_amount self) (pick_price (collateral_price self prices) false))
    (Computation "overflow calculating collateral value").

Definition will_collateral_be_sufficient market self (prices : Prices) (delta : CollateralDelta)
    : result WillCollateralBeSufficient :=
  let collateral_price := collateral_price self prices in
  let! v := ok_or (umul (cd_next_collateral_amount delta) (pick_price collateral_price false))
              (Computation "overflow calculating collateral value") in
  let! remaining_collateral_value := to_signed v in
  let! remaining_collateral_value :=
    (if is_negative (cd_realized_pnl_value delta) then
       ok_or (iadd remaining_collateral_value (cd_realized_pnl_value delta))
         (Computation "adding realized pnl")
     else Ok remaining_collateral_value) in
  if is_negative remaining_collateral_value then Ok (WillBeInsufficient remaining_collateral_value)
  else
    let! for_oi := min_collateral_factor_for_open_interest market (cd_open_interest_delta delta)
                     (is_long self) in
    let min_collateral_factor :=
      Z.max for_oi (min_collateral_factor (position_params (m_config market))) in
    let! r := check_collateral (cd_next_size_in_usd delta) min_collateral_factor None true
                remaining_collateral_value in
    match r with
    | CollateralSufficient => Ok (WillBeSufficient remaining_collateral_value)
    | CollateralNegative | CollateralMinForLeverage =>
        Ok (WillBeInsufficient remaining_collateral_value)
    | CollateralMin | CollateralZero => Panic "internal error: entered unreachable code"
    end.

(** [PositionExt::pnl_value], with its capped total pnl. *)
Definition capped_total_pnl market self (prices : Prices) (total_pnl : Z) : result Z :=
  if is_positive total_pnl then
    let! pool_value := pool_value_without_pnl_for_one_side market prices (is_long self) false in
    let! pool_pnl := pnl market (index_token_price prices) (is_long self) true in
    let! capped_pool_pnl := cap_pnl market (is_long self) pool_pnl pool_value MaxForTrader in
    if negb (capped_pool_pnl =? pool_pnl) && negb (is_negative capped_pool_pnl)
       && is_positive pool_pnl then
      ok_or (checked_mul_div_with_signed_numerator (unsigned_abs capped_pool_pnl) total_pnl
               (unsigned_abs pool_pnl)) (Computation "calculating capped total pnl")
    else Ok total_pnl
  else Ok total_pnl.

Definition size_delta_tokens self (size_delta_usd : Z) : result Z :=
  if size_in_usd self =? size_delta_usd then Ok (size_in_tokens self)
  else if is_long self then
    ok_or (checked_mul_div_ceil (size_in_tokens self) size_delta_usd (size_in_usd self))
      (Computation "calculating size delta in tokens for long")
  else
    ok_or (checked_mul_div (size_in_tokens self) size_delta_usd (size_in_usd self))
      (Computation "calculating size delta in tokens for short").

Definition pnl_value market self (prices : Prices) (size_delta_usd : Z) : result (Z * Z * Z) :=
  let execution_price := pick_price_for_pnl (index_token_price prices) (is_long self) false in
  let! v := ok_or (umul (size_in_tokens self) execution_price)
              (Computation "overflow calculating position value") in
  let! position_value := ok_or (try_i v) Convert in
  let! size := ok_or (try_i (size_in_usd self)) Convert in
  let! uncapped_total_pnl :=
    ok_or (if is_long self then isub position_value size else isub size position_value)
      (Computation "calculating total pnl") in
  let! total_pnl := capped_total_pnl market self prices uncapped_total_pnl in
  let! size_delta_in_tokens := size_delta_tokens self size_delta_usd in
  let! pnl_usd :=
    ok_or (checked_mul_div_with_signed_numerator size_delta_in_tokens total_pnl (size_in_tokens self))
      (Computation "calculating pnl_usd") in
  let! uncapped_pnl_usd :=
    ok_or (checked_mul_div_with_signed_numerator size_delta_in_tokens uncapped_total_pnl
             (size_in_tokens self)) (Computation "calculating uncapped_pnl_usd") in
  Ok (pnl_usd, uncapped_pnl_usd, size_delta_in_tokens).

Definition position_price_impact market self (size_delta_usd : Z) : result Z :=
  let (delta_long_usd_value, delta_short_usd_value) :=
    if is_long self then (size_delta_usd, 0) else (0, size_delta_usd) in
  let! delta := pool_delta_try_new (open_interest market) delta_long_usd_value
                  delta_short_usd_value 1 1 in
  price_impact delta (position_impact_params (m_config market)).

Definition capped_positive_position_price_impact market self (index_token_price : Price)
    (size_delta_usd : Z) : result Z :=
  let! impact := position_price_impact market self size_delta_usd in
  cap_positive_position_price_impact market index_token_price size_delta_usd impact.

(** The capped impact and the difference that capping a negative one removed. *)
Definition capped_position_price_impact market self (index_token_price : Price)
    (size_delta_usd : Z) : result (Z * Z) :=
  let! impact := capped_positive_position_price_impact market self index_token_price size_delta_usd in
  let! r := cap_negative_position_price_impact market size_delta_usd false impact in
  Ok (snd r, fst r).

Definition pending_borrowing_fee_value market self : result Z :=
  let! latest_factor := cumulative_borrowing_factor market (is_long self) in
  let! diff_factor := ok_or (usub latest_factor (position_borrowing_factor self))
                        (Computation "invalid latest borrowing factor") in
  ok_or (apply_factor (size_in_usd self) diff_factor) (Computation "calculating borrowing fee value").

Definition pending_funding_fees market self : result FundingFees :=
  let adjustment := funding_amount_per_size_adjustment (m_config market) in
  let! latest := funding_fee_amount_per_size market (is_long self) (is_collateral_token_long self) in
  let! amount :=
    ok_or (unpack_to_funding_amount_delta adjustment latest
             (position_funding_fee_amount_per_size self) (size_in_usd self) true)
      (Computation "calculating funding fee amount") in
  let! latest := claimable_funding_fee_amount_per_size market (is_long self) true in
  let! claimable_long :=
    ok_or (unpack_to_funding_amount_delta adjustment latest (position_claimable self true)
             (size_in_usd self) false)
      (Computation "calculating claimable long token funding fee amount") in
  let! latest := claimable_funding_fee_amount_per_size market (is_long self) false in
  let! claimable_short :=
    ok_or (unpack_to_funding_amount_delta adjustment latest (position_claimable self false)
             (size_in_usd self) false)
      (Computation "calculating claimable short token funding fee amount") in
  Ok (mkFundingFees amount claimable_long claimable_short).

Definition position_fees market self (collateral_token_price : Price) (size_delta_usd : Z)
    (is_positive_impact is_liquidation : bool) : result PositionFees :=
  let! liquidation_fees :=
    (if is_liquidation then
       let! f := liquidation_fee (liquidation_fee_params (m_config market)) size_delta_usd
                   collateral_token_price in
       Ok (Some f)
     else Ok None) in
  let! base := base_position_fees (order_fee_params (m_config market)) collateral_token_price
                 size_delta_usd is_positive_impact in
  let! pending := pending_borrowing_fee_value market self in
  let! fees := set_borrowing_fees base (borrowing_receiver_factor (borrowing_fee_params (m_config market)))
                 collateral_token_price pending in
  let! funding := pending_funding_fees market self in
  Ok (set_liquidation_fees (set_funding_fees fees funding) liquidation_fees).

Definition check_liquidatable market self (prices : Prices)
    (should_validate_min_collateral_usd : bool) : result (option LiquidatableReason) :=
  let size_in_usd := size_in_usd self in
  let! p := pnl_value market self prices size_in_usd in
  let '(pnl, _, _) := p in
  let! collateral_value := collateral_value self prices in
  let collateral_price := collateral_price self prices in
  let! size_delta_usd := to_opposite_signed size_in_usd in
  let! price_impact_value := position_price_impact market self size_delta_usd in
  let has_positive_impact := is_positive price_impact_value in
  let! price_impact_value :=
    (if is_negative price_impact_value then
       let! r := cap_negative_position_price_impact market size_delta_usd true price_impact_value in
       Ok (snd r)
     else Ok 0) in
  let! fees := position_fees market self collateral_price size_in_usd has_positive_impact false in
  let! cost := total_cost_amount fees in
  let! collateral_cost_value :=
    ok_or (umul cost (pick_price collateral_price false))
      (Computation "overflow calculating collateral cost value") in
  let! signed_collateral := to_signed collateral_value in
  let! remaining_collateral_value :=
    ok_or
      (let? v := iadd signed_collateral pnl in
       let? v := iadd v price_impact_value in
       let? c := match to_signed collateral_cost_value with Ok c => Some c | _ => None end in
       isub v c)
      (Computation "calculating remaining collateral value") in
  let params := position_params (m_config market) in
  let! r := check_collateral size_in_usd (min_collateral_factor params)
              (if should_validate_min_collateral_usd then Some (min_collateral_value params) else None)
              false remaining_collateral_value in
  match r with
  | CollateralSufficient => Ok None
  | CollateralZero | CollateralNegative => Ok (Some NotPositive)
  | CollateralMinForLeverage => Ok (Some MinCollateralForLeverage)
  | CollateralMin => Ok (Some MinCollateral)
  end.

Definition validate_position market self (prices : Prices)
    (should_validate_min_position_size should_validate_min_collateral_usd : bool) : result unit :=
  if is_zero (size_in_usd self) || is_zero (size_in_tokens self) then
    Err (InvalidPosition "size_in_usd or size_in_tokens is zero")
  else if should_validate_min_position_size
          && (size_in_usd self <? min_position_size_usd (position_params (m_config market))) then
    Err (InvalidPosition "size in usd too small")
  else
    let! r := check_liquidatable market self prices should_validate_min_collateral_usd in
    match r with
    | Some reason => Err (Liquidatable reason)
    | None => Ok tt
    end.
End PositionReads.

(** ** The state of an action on a position *)
Record PState (P T : Type) : Type := mkPState { ps_market : Market P T; ps_position : Position }.
Arguments mkPState {P T}.
Arguments ps_market {P T}.
Arguments ps_position {P T}.

Section PositionMut.
Context {I : UInt} {F : FixedPointOps I} {P T : Type} {O : PoolOps P} {S : SupplyOps T}.

Definition PM (A : Type) : Type := ST (PState P T) Error A.

(** A method call on [self.position.market_mut()], a write to the position, and a read. *)
Definition on_market {A} (m : MM P T A) : PM A :=
  szoom ps_market (fun m s => mkPState m (ps_position s)) m.
Definition on_position (f : Position -> Position) : PM unit :=
  smodify (fun s => mkPState (ps_market s) (f (ps_position s))).
Definition pread {A} (f : Market P T -> Position -> result A) : PM A :=
  sread (fun s => f (ps_market s) (ps_position s)).

(** The check of the maximum after an increase of the open interest. *)
Definition check_max_open_interest (self : Market P T) (is_long : bool) : result unit :=
  let open_interest := pool_of self (OpenInterest is_long) in
  let! l := long_amount open_interest in
  let! s := short_amount open_interest in
  let is_exceeded :=
    match uadd l s with
    | Some total => max_open_interest (m_config self) is_long <? total
    | None => true
    end in
  if is_exceeded then Err MaxOpenInterestExceeded else Ok tt.

(** [PositionMutExt::update_open_interest]. *)
Definition update_open_interest (size_delta_usd size_delta_in_tokens : Z) : PM unit :=
  if is_zero size_delta_usd then sret tt
  else
    do! s := sget in
    let is_long_collateral := is_collateral_token_long (ps_position s) in
    let is_long := is_long (ps_position s) in
    do! _ := on_market (update_pool (OpenInterest is_long)
               (fun pool => apply_delta_amount pool is_long_collateral size_delta_usd)) in
    do! _ :=
      (if is_positive size_delta_usd then
         pread (fun market _ => check_max_open_interest market is_long)
       else sret tt) in
    on_market (update_pool (OpenInterestInTokens is_long)
      (fun pool => apply_delta_amount pool is_long_collateral size_delta_in_tokens)).

(** [PositionMutExt::update_total_borrowing]. *)
Definition update_total_borrowing (next_size_in_usd next_borrowing_factor : Z) : PM unit :=
  do! s := sget in
  let p := ps_position s in
  do! previous := slift (ok_or (apply_factor (size_in_usd p) (position_borrowing_factor p))
                    (Computation "calculating previous borrowing")) in
  do! next := slift (ok_or (apply_factor next_size_in_usd next_borrowing_factor)
                (Computation "calculating next borrowing")) in
  do! delta := slift (checked_signed_sub next previous) in
  on_market (update_pool TotalBorrowing (fun pool => apply_delta_amount pool (is_long p) delta)).

(** [initialize_position_if_empty] and the later update of the funding state share the
    writes of the latest amounts per size. *)
Definition update_funding_state_of_position : PM unit :=
  do! s := sget in
  let p := ps_position s in
  do! f := pread (fun market _ =>
    funding_fee_amount_per_size market (is_long p) (is_collateral_token_long p)) in
  do! _ := on_position (fun p => set_funding_fee_amount_per_size p f) in
  do! cl := pread (fun market _ => claimable_funding_fee_amount_per_size market (is_long p) true) in
  do! _ := on_position (fun p => set_claimable p true cl) in
  do! cs := pread (fun market _ => claimable_funding_fee_amount_per_size market (is_long p) false) in
  on_position (fun p => set_claimable p false cs).
End PositionMut.
Arguments PM : clear implicits.

Section PositionFacts.
Context {I : UInt} {IOk : UIntOk I} {F : FixedPointOps I} {FOk : FixedPointOk F}
  {P T : Type} {O : PoolOps P} {L : PoolLaws I P} {S : SupplyOps T} {SL : SupplyLaws T}.
Implicit Types (m : Market P T) (p : Position) (s : PState P T).

(** ** Collateral checks *)

(** The collateral that the leverage requires. *)
Definition leverage_requirement (size factor : Z) : Z := size * factor / UNIT.

Lemma leverage_requirement_mono size f f' :
  0 <= size -> f <= f' -> leverage_requirement size f <= leverage_requirement size f'.
Proof. intros. apply Z.div_le_mono; [apply unit_pos|nia]. Qed.

Lemma check_collateral_ok size factor min_value allow_zero v r :
  check_collateral size factor min_value allow_zero v = Ok r ->
  match r with
  | CollateralSufficient =>
      0 <= v /\ leverage_requirement size factor <= v
      /\ (allow_zero = false -> v <> 0)
      /\ (forall k, min_value = Some k -> k <= v)
  | CollateralNegative => v < 0 /\ min_value = None
  | CollateralMin => exists k, min_value = Some k /\ (v < 0 \/ v < k)
  | CollateralZero => v = 0 /\ allow_zero = false
  | CollateralMinForLeverage => 0 <= v < leverage_requirement size factor
  end.
Proof.
  unfold check_collateral, leverage_requirement. unfold_num_tests. intros Hr.
  destruct (Z.ltb_spec v 0).
  { destruct min_value as [k|]; injection Hr as <-; [exists k|]; split; auto. }
  rewrite Z.abs_eq in Hr by lia. case_if_in Hr Hmin.
  { injection Hr as <-. destruct min_value as [k|]; [|done]. exists k. bool_to_prop. split; [done|lia]. }
  assert (Hk : forall k, min_value = Some k -> k <= v)
    by (intros k ->; bool_to_prop; lia).
  case_if_in Hr Hz.
  { injection Hr as <-. bool_to_prop. done. }
  apply rbind_ok in Hr as (q & Hq & Hr). apply ok_or_ok, apply_factor_some in Hq as [-> _].
  destruct (Z.ltb_spec v (size * factor / UNIT)); injection Hr as <-; [done|].
  split_and!; try done. intros ->. apply andb_false_iff in Hz as [Hz|Hz]; bool_to_prop; [done|lia].
Qed.

Lemma to_signed_no_panic v : panics (to_signed v) = false.
Proof. apply panics_ok_or. Qed.

Lemma open_interest_no_panic m b : market_wf m -> panics (balance_amount (open_interest m) b) = false.
Proof.
  intros [Hp _]. destruct b; simpl; rewrite pool_long_amount, pool_short_amount by apply Hp; no_panic.
Qed.

Lemma min_collateral_factor_no_panic m d b :
  market_wf m -> panics (min_collateral_factor_for_open_interest m d b) = false.
Proof.
  intros Hwf. unfold min_collateral_factor_for_open_interest. no_panic. by apply open_interest_no_panic.
Qed.

Lemma check_collateral_no_panic size factor min_value allow_zero v :
  panics (check_collateral size factor min_value allow_zero v) = false.
Proof. unfold check_collateral. destruct min_value; no_panic. Qed.

(** The answer of [will_collateral_be_sufficient], for its callers. *)
Lemma will_collateral_ok m p prices delta r :
  will_collateral_be_sufficient m p prices delta = Ok r ->
  let v := cd_next_collateral_amount delta * price_min (collateral_price p prices)
           + Z.min 0 (cd_realized_pnl_value delta) in
  will_deref r = v
  /\ (is_sufficient r = true ->
      0 <= v /\ exists factor,
        min_collateral_factor_for_open_interest m (cd_open_interest_delta delta) (is_long p) = Ok factor
        /\ leverage_requirement (cd_next_size_in_usd delta)
             (Z.max factor (min_collateral_factor (position_params (m_config m)))) <= v)
  /\ (is_sufficient r = false -> v < 0 \/ exists factor,
        min_collateral_factor_for_open_interest m (cd_open_interest_delta delta) (is_long p) = Ok factor
        /\ v < leverage_requirement (cd_next_size_in_usd delta)
                 (Z.max factor (min_collateral_factor (position_params (m_config m))))).
Proof.
  intros Hr. unfold will_collateral_be_sufficient, pick_price in Hr. unfold_num_tests.
  apply rbind_ok in Hr as (w & Hw & Hr). apply ok_or_ok, umul_some in Hw as [-> _].
  apply rbind_ok in Hr as (w & Hw & Hr). apply to_signed_ok in Hw as [-> _].
  apply rbind_ok in Hr as (w & Hw & Hr).
  assert (Hwv : w = cd_next_collateral_amount delta * price_min (collateral_price p prices)
                  + Z.min 0 (cd_realized_pnl_value delta))
    by (destruct (Z.ltb_spec (cd_realized_pnl_value delta) 0); code_inv; lia).
  clear Hw. subst w. cbv zeta. set (v := _ + _) in *.
  destruct (Z.ltb_spec v 0).
  { injection Hr as <-. split_and!; [done|done|auto]. }
  apply rbind_ok in Hr as (factor & Hf & Hr).
  apply rbind_ok in Hr as (c & Hc & Hr). apply check_collateral_ok in Hc.
  destruct c; try discriminate; injection Hr as <-; simpl; split_and!; try done; intros _.
  + split; [lia|]. exists factor. split; [done|]. tauto.
  + left. tauto.
  + right. exists factor. split; [done|]. lia.
Qed.

(** [will_collateral_be_sufficient] never reaches the [unreachable!] of the source. It
    reports the value of the next collateral less a realized loss; a sufficient answer
    means that this value is not negative and covers the leverage requirement at the
    larger of the two collateral factors, an insufficient one that it does not. *)
Theorem will_collateral_be_sufficient_spec m p prices delta :
  market_wf m ->
  panics (will_collateral_be_sufficient m p prices delta) = false
  /\ forall r, will_collateral_be_sufficient m p prices delta = Ok r ->
      let v := cd_next_collateral_amount delta * price_min (collateral_price p prices)
               + Z.min 0 (cd_realized_pnl_value delta) in
      will_deref r = v
      /\ (is_sufficient r = true ->
          0 <= v /\ exists factor,
            min_collateral_factor_for_open_interest m (cd_open_interest_delta delta) (is_long p) = Ok factor
            /\ leverage_requirement (cd_next_size_in_usd delta)
                 (Z.max factor (min_collateral_factor (position_params (m_config m)))) <= v)
      /\ (is_sufficient r = false -> v < 0 \/ exists factor,
            min_collateral_factor_for_open_interest m (cd_open_interest_delta delta) (is_long p) = Ok factor
            /\ v < leverage_requirement (cd_next_size_in_usd delta)
                     (Z.max factor (min_collateral_factor (position_params (m_config m))))).
Proof.
  intros Hwf. split.
  - unfold will_collateral_be_sufficient. no_panic; try by apply open_interest_no_panic.
    { apply check_collateral_no_panic. }
    match goal with H : check_collateral _ _ _ _ _ = Ok ?r |- _ =>
      apply check_collateral_ok in H as Hc; destruct r end; try done.
    + by destruct Hc.
    + by destruct Hc as (k & ? & _).
  - intros r. apply will_collateral_ok.
Qed.

(** ** Profit and loss *)

Lemma size_delta_tokens_ok p delta n :
  0 < size_in_usd p -> 0 <= size_in_tokens p -> 0 <= delta <= size_in_usd p ->
  size_delta_tokens p delta = Ok n ->
  0 <= n <= size_in_tokens p
  /\ (delta = size_in_usd p -> n = size_in_tokens p)
  /\ (if is_long p then size_in_tokens p * delta <= n * size_in_usd p
                        /\ (n - 1) * size_in_usd p < size_in_tokens p * delta
      else n * size_in_usd p <= size_in_tokens p * delta < (n + 1) * size_in_usd p).
Proof.
  unfold size_delta_tokens. intros Hs Ht Hd Hn.
  destruct (Z.eqb_spec (size_in_usd p) delta) as [<-|Hne].
  { injection Hn as <-. split_and!; [lia|lia|done|]. destruct (is_long p); lia. }
  destruct (is_long p); apply ok_or_ok in Hn.
  - apply checked_mul_div_ceil_some in Hn as (_ & -> & Hu).
    pose proof (div_ceil_spec (size_in_tokens p * delta) (size_in_usd p) Hs). unfold in_u in Hu.
    split_and!; [lia|nia|lia|lia|lia].
  - apply checked_mul_div_some in Hn as (_ & -> & Hu).
    pose proof (div_mul_le (size_in_tokens p * delta) (size_in_usd p) Hs).
    pose proof (div_mul_gt (size_in_tokens p * delta) (size_in_usd p) Hs). unfold in_u in Hu.
    split_and!; [lia|nia|lia|lia|lia].
Qed.

(** Capping only ever takes away from a profit. *)
Lemma capped_total_pnl_ok m p prices total r :
  capped_total_pnl m p prices total = Ok r ->
  (total <= 0 -> r = total) /\ (0 < total -> 0 <= r <= total).
Proof.
  unfold capped_total_pnl. unfold_num_tests. intros Hr.
  destruct (Z.ltb_spec 0 total); [|injection Hr as <-; split; [done|lia]].
  split; [lia|intros _].
  apply rbind_ok in Hr as (value & _ & Hr). apply rbind_ok in Hr as (pool_pnl & _ & Hr).
  apply rbind_ok in Hr as (capped & Hc & Hr). apply cap_pnl_ok in Hc.
  case_if_in Hr Hcap; [|injection Hr as <-; lia]. bool_to_prop.
  destruct (Z.ltb_spec 0 pool_pnl); [|lia].
  apply ok_or_ok, signed_numerator_some in Hr as (_ & -> & _).
  rewrite Z.sgn_pos, !Z.abs_eq by lia.
  pose proof (div_mul_le (capped * total) pool_pnl ltac:(lia)).
  pose proof (div_nonneg (capped * total) pool_pnl ltac:(nia) ltac:(lia)). split; [lia|].
  set (q := capped * total / pool_pnl) in *. rewrite Z.mul_1_l. nia.
Qed.

(** The profit or loss of closing everything, before the cap. *)
Definition total_uncapped_pnl p (prices : Prices) : Z :=
  let value := size_in_tokens p * pick_price_for_pnl (index_token_price prices) (is_long p) false in
  if is_long p then value - size_in_usd p else size_in_usd p - value.

Lemma share_of_mono (n t x y : Z) : 0 < t -> 0 <= n -> 0 <= x <= y -> n * x / t <= n * y / t.
Proof. intros. apply Z.div_le_mono; nia. Qed.

(** [PositionExt::pnl_value]. The tokens closed are between none and all of the position's,
    all of them when the whole size is closed, and otherwise the proportional share rounded
    against the trader (up for a long, down for a short, by less than one unit); the profit
    or loss is that share of the position's, truncated towards zero; the trader cap leaves
    a loss as it is and can only lower a profit, never below zero. *)
Theorem pnl_value_spec m p prices delta pnl uncapped tokens :
  0 < size_in_usd p -> 0 < size_in_tokens p -> 0 <= delta <= size_in_usd p ->
  pnl_value m p prices delta = Ok (pnl, uncapped, tokens) ->
  let total := total_uncapped_pnl p prices in
  0 <= tokens <= size_in_tokens p
  /\ (delta = size_in_usd p -> tokens = size_in_tokens p /\ uncapped = total)
  /\ (if is_long p then size_in_tokens p * delta <= tokens * size_in_usd p
                        /\ (tokens - 1) * size_in_usd p < size_in_tokens p * delta
      else tokens * size_in_usd p <= size_in_tokens p * delta < (tokens + 1) * size_in_usd p)
  /\ uncapped = Z.quot (tokens * total) (size_in_tokens p)
  /\ (total <= 0 -> pnl = uncapped) /\ (0 < total -> 0 <= pnl <= uncapped).
Proof.
  intros Hs Ht Hd Hr total. unfold pnl_value in Hr.
  apply rbind_ok in Hr as (v & Hv & Hr). apply ok_or_ok, umul_some in Hv as [-> _].
  apply rbind_ok in Hr as (v & Hv & Hr). apply ok_or_ok, try_i_some in Hv as [-> _].
  apply rbind_ok in Hr as (v & Hv & Hr). apply ok_or_ok, try_i_some in Hv as [-> _].
  apply rbind_ok in Hr as (t & Htot & Hr).
  assert (t = total) as ->.
  { subst total. unfold total_uncapped_pnl. destruct (is_long p); code_inv; done. }
  clear Htot. clearbody total.
  apply rbind_ok in Hr as (capped & Hc & Hr). apply capped_total_pnl_ok in Hc.
  apply rbind_ok in Hr as (n & Hn & Hr). apply size_delta_tokens_ok in Hn as (Hn & Hfull & Hround); [|lia..].
  apply rbind_ok in Hr as (x & Hx & Hr). apply ok_or_ok, signed_numerator_some in Hx as (_ & -> & _).
  apply rbind_ok in Hr as (y & Hy & Hr). apply ok_or_ok, signed_numerator_some in Hy as (_ & -> & _).
  injection Hr as <- <- <-.
  pose proof (sgn_div_quot n total (size_in_tokens p) ltac:(lia) ltac:(lia)) as Hq.
  split_and!; try done; try lia.
  - intros Hall. specialize (Hfull Hall). subst n. split; [done|].
    rewrite Hq, Z.mul_comm. apply Z.quot_mul. lia.
  - intros Hle. by destruct Hc as [-> _].
  - intros Hpos. destruct Hc as [_ Hc]. specialize (Hc Hpos).
    rewrite (Z.sgn_pos total), (Z.abs_eq total), (Z.abs_eq capped) by lia.
    pose proof (share_of_mono n (size_in_tokens p) capped total ltac:(lia) ltac:(lia) Hc).
    pose proof (div_nonneg (n * capped) (size_in_tokens p) ltac:(nia) ltac:(lia)).
    destruct (Z.eq_dec capped 0) as [->|]; [simpl; nia|]. rewrite Z.sgn_pos by lia. lia.
Qed.

(** ** Liquidation *)

(** What a position would be left with after closing: its collateral at the low price, its
    capped profit or loss, a negative price impact, less all its fees. *)
Record Equity (m : Market P T) (p : Position) (prices : Prices) (remaining : Z) : Prop := mkEquity {
  equity_terms : exists pnl uncapped tokens raw impact fees cost,
    pnl_value m p prices (size_in_usd p) = Ok (pnl, uncapped, tokens)
    /\ position_price_impact m p (- size_in_usd p) = Ok raw
    /\ impact = (if raw <? 0 then Z.max raw (- (size_in_usd p
         * max_position_impact_factor_for_liquidations (position_params (m_config m)) / UNIT)) else 0)
    /\ position_fees m p (collateral_price p prices) (size_in_usd p) (0 <? raw) false = Ok fees
    /\ total_cost_amount fees = Ok cost
    /\ remaining = collateral_amount p * price_min (collateral_price p prices) + pnl + impact
                   - cost * price_min (collateral_price p prices);
}.

Lemma liquidatable_equity m p prices min_value r :
  0 <= size_in_usd p -> check_liquidatable m p prices min_value = Ok r ->
  exists remaining c,
    Equity m p prices remaining
    /\ check_collateral (size_in_usd p) (min_collateral_factor (position_params (m_config m)))
        (if min_value then Some (min_collateral_value (position_params (m_config m))) else None)
        false remaining = Ok c
    /\ r = match c with
           | CollateralSufficient => None
           | CollateralZero | CollateralNegative => Some NotPositive
           | CollateralMinForLeverage => Some MinCollateralForLeverage
           | CollateralMin => Some MinCollateral
           end.
Proof.
  unfold check_liquidatable, collateral_value, pick_price. intros Hs Hr. unfold_num_tests.
  apply rbind_ok in Hr as ([[pnl un] tok] & Hpnl & Hr).
  apply rbind_ok in Hr as (v & Hv & Hr). apply ok_or_ok, umul_some in Hv as [-> _].
  apply rbind_ok in Hr as (v & Hv & Hr). apply to_opposite_signed_ok in Hv as (-> & _ & _).
  apply rbind_ok in Hr as (raw & Hraw & Hr).
  apply rbind_ok in Hr as (impact & Himp & Hr).
  apply rbind_ok in Hr as (fees & Hfees & Hr).
  apply rbind_ok in Hr as (cost & Hcost & Hr).
  apply rbind_ok in Hr as (v & Hv & Hr). apply ok_or_ok, umul_some in Hv as [-> _].
  apply rbind_ok in Hr as (v & Hv & Hr). apply to_signed_ok in Hv as [-> _].
  apply rbind_ok in Hr as (remaining & Hrem & Hr). apply ok_or_ok in Hrem.
  apply rbind_ok in Hr as (c & Hc & Hr).
  exists remaining, c. split_and!; [|exact Hc|by destruct c; injection Hr as <-].
  split. exists pnl, un, tok, raw, impact, fees, cost. split_and!; try done.
  - destruct (Z.ltb_spec raw 0).
    + apply rbind_ok in Himp as ([d down] & Hcap & Himp). injection Himp as <-.
      apply cap_negative_ok in Hcap as (-> & _). rewrite Z.abs_opp, Z.abs_eq by done.
      by rewrite (proj2 (Z.ltb_lt raw 0)) by done.
    + by injection Himp as <-.
  - apply obind_some in Hrem as (x & Hx & Hrem). apply iadd_some in Hx as [-> _].
    apply obind_some in Hrem as (x & Hx & Hrem). apply iadd_some in Hx as [-> _].
    apply obind_some in Hrem as (x & Hx & Hrem). apply isub_some in Hrem as [-> _].
    destruct (to_signed (cost * _)) as [y| |] eqn:Ht; try discriminate. injection Hx as ->.
    apply to_signed_ok in Ht as [-> _]. lia.
Qed.

(** C34: [check_liquidatable] decides exactly whether a position has become liquidatable, and
    for what reason. A position that passes keeps a positive equity that covers the leverage
    requirement and, where asked for, the minimum collateral value; one that does not has an
    equity below what the reported reason names. *)
Theorem check_liquidatable_spec m p prices min_value r :
  0 <= size_in_usd p -> check_liquidatable m p prices min_value = Ok r ->
  let params := position_params (m_config m) in
  exists remaining, Equity m p prices remaining
  /\ match r with
     | None => 0 < remaining
               /\ leverage_requirement (size_in_usd p) (min_collateral_factor params) <= remaining
               /\ (min_value = true -> min_collateral_value params <= remaining)
     | Some NotPositive => remaining <= 0
     | Some MinCollateralForLeverage =>
         0 <= remaining < leverage_requirement (size_in_usd p) (min_collateral_factor params)
     | Some MinCollateral =>
         min_value = true /\ (remaining < 0 \/ remaining < min_collateral_value params)
     end.
Proof.
  intros Hs Hr. apply liquidatable_equity in Hr as (remaining & c & Hq & Hc & ->); [|done].
  exists remaining. split; [done|]. apply check_collateral_ok in Hc.
  destruct c.
  - destruct Hc as (? & ? & Hz & Hm). specialize (Hz eq_refl). split_and!; [lia|done|].
    intros ->. by apply Hm.
  - lia.
  - lia.
  - done.
  - destruct Hc as (k & Hk & ?). destruct min_value; [|done]. by injection Hk as <-.
Qed.

(** A position that passes [validate_position] is open and healthy. *)
Lemma validate_position_ok m p prices min_size min_value u :
  0 <= size_in_usd p -> validate_position m p prices min_size min_value = Ok u ->
  size_in_usd p <> 0 /\ size_in_tokens p <> 0
  /\ (min_size = true -> min_position_size_usd (position_params (m_config m)) <= size_in_usd p)
  /\ exists remaining, Equity m p prices remaining /\ 0 < remaining
     /\ leverage_requirement (size_in_usd p)
          (min_collateral_factor (position_params (m_config m))) <= remaining
     /\ (min_value = true -> min_collateral_value (position_params (m_config m)) <= remaining).
Proof.
  unfold validate_position. intros Hs Hr. unfold_num_tests.
  case_if_in Hr Hzero; [discriminate|]. case_if_in Hr Hmin; [discriminate|]. bool_to_prop.
  apply rbind_ok in Hr as ([reason|] & Hr & Hend); [discriminate|].
  split_and!; [done..| |].
  - intros ->. simpl in Hmin. bool_to_prop. lia.
  - apply liquidatable_equity in Hr as (remaining & c & Hq & Hc & Heq); [|done].
    exists remaining. split; [done|]. apply check_collateral_ok in Hc.
    destruct c; try discriminate. destruct Hc as (? & ? & Hz & Hm).
    specialize (Hz eq_refl). split_and!; [lia|done|]. intros ->. by apply Hm.
Qed.

(** ** The global bookkeeping of positions *)

Lemma on_market_ok {A} (f : MM P T A) s s' a :
  on_market f s = (s', Ok a) ->
  exists m', f (ps_market s) = (m', Ok a) /\ s' = mkPState m' (ps_position s).
Proof. unfold on_market. intros Hr. apply szoom_ok in Hr. exact Hr. Qed.

Definition open_interest_change (is_long is_long_collateral : bool) (usd tokens : Z) : Change :=
  (change_at (OpenInterest is_long) is_long_collateral usd
   + change_at (OpenInterestInTokens is_long) is_long_collateral tokens)%change.

Lemma update_open_interest_moved s s' usd tokens u :
  market_wf (ps_market s) -> (usd = 0 -> tokens = 0) ->
  update_open_interest usd tokens s = (s', Ok u) ->
  let p := ps_position s in
  Moved (ps_market s) (open_interest_change (is_long p) (is_collateral_token_long p) usd tokens)
    (ps_market s')
  /\ ps_position s' = ps_position s
  /\ (0 < usd -> total_amt (ps_market s') (OpenInterest (is_long p))
                 <= max_open_interest (m_config (ps_market s)) (is_long p)).
Proof.
  unfold update_open_interest. unfold_num_tests. intros Hwf Hz Hr.
  destruct (Z.eqb_spec usd 0) as [->|Hne].
  { apply sret_ok in Hr as [-> _]. rewrite Hz by done. cbv zeta. split_and!; [|done|lia].
    eapply moved_ext; [by apply moved_refl|]. intros k b.
    unfold no_change, open_interest_change, change_plus. by rewrite !change_at_zero. }
  apply sbind_ok in Hr as (? & s0 & Hget & Hr). apply sget_ok in Hget as [-> ->].
  apply sbind_ok in Hr as (s1 & ? & H1 & Hr). apply on_market_ok in H1 as (m1 & H1 & ->).
  apply update_pool_amount_moved in H1; [|done].
  apply sbind_ok in Hr as (s2 & ? & H2 & Hr).
  apply on_market_ok in Hr as (m2 & Hr & ->).
  assert (s2 = mkPState m1 (ps_position s) /\ (0 < usd -> total_amt m1 (OpenInterest (is_long (ps_position s)))
    <= max_open_interest (m_config (ps_market s)) (is_long (ps_position s)))) as [-> Hmax].
  { destruct (Z.ltb_spec 0 usd).
    - apply sread_ok in H2 as [-> Hc]. split; [done|]. intros _.
      unfold check_max_open_interest in Hc. simpl in Hc.
      assert (Hwf1 : market_wf m1) by (eapply moved_wf; eauto).
      pose proof (amt_ok m1 (OpenInterest (is_long (ps_position s))) true Hwf1) as Hl.
      pose proof (amt_ok m1 (OpenInterest (is_long (ps_position s))) false Hwf1) as Hsh.
      simpl in Hl, Hsh. rewrite Hl, Hsh in Hc. do 2 inv_ok_step. injection Hv as <-. injection Hv0 as <-.
      destruct (uadd _ _) as [t|] eqn:Ht; [|discriminate]. case_if_in Hc Hle; [discriminate|].
      num_inv. rewrite (moved_config _ _ _ H1) in *. exact Hle.
    - apply sret_ok in H2 as [-> _]. split; [done|lia]. }
  simpl in Hr. apply update_pool_amount_moved in Hr; [|by eapply moved_wf].
  simpl. split_and!; [by eapply moved_trans|done|].
  intros Hpos. specialize (Hmax Hpos).
  rewrite (moved_total _ _ _ (OpenInterest (is_long (ps_position s))) Hr).
  rewrite !change_at_other by (by destruct (is_long (ps_position s))). lia.
Qed.

(** The total borrowing follows the position's product of size and factor. *)
Definition borrowing_of (size factor : Z) : Z := size * factor / UNIT.

Lemma update_total_borrowing_moved s s' size factor u :
  market_wf (ps_market s) -> update_total_borrowing size factor s = (s', Ok u) ->
  let p := ps_position s in
  Moved (ps_market s)
    (change_at TotalBorrowing (is_long p)
       (borrowing_of size factor - borrowing_of (size_in_usd p) (position_borrowing_factor p)))
    (ps_market s')
  /\ ps_position s' = ps_position s.
Proof.
  unfold update_total_borrowing. intros Hwf Hr.
  apply sbind_ok in Hr as (? & s0 & Hget & Hr). apply sget_ok in Hget as [-> ->].
  apply sbind_ok in Hr as (? & x & Hx & Hr). apply slift_ok in Hx as [-> Hx].
  apply ok_or_ok, apply_factor_some in Hx as [-> _].
  apply sbind_ok in Hr as (? & y & Hy & Hr). apply slift_ok in Hy as [-> Hy].
  apply ok_or_ok, apply_factor_some in Hy as [-> _].
  apply sbind_ok in Hr as (? & d & Hd & Hr). apply slift_ok in Hd as [-> Hd].
  apply checked_signed_sub_ok in Hd as [-> _].
  apply on_market_ok in Hr as (m' & Hr & ->). apply update_pool_amount_moved in Hr; [|done].
  by split.
Qed.

(** A position whose funding state is that of the market. *)
Definition funding_up_to_date (m : Market P T) (p : Position) : Prop :=
  let latest k := balance_amount (pool_of m k) in
  latest (FundingAmountPerSize (is_long p)) (is_collateral_token_long p)
    = Ok (position_funding_fee_amount_per_size p)
  /\ latest (ClaimableFundingAmountPerSize (is_long p)) true = Ok (position_claimable_long p)
  /\ latest (ClaimableFundingAmountPerSize (is_long p)) false = Ok (position_claimable_short p).

Lemma update_funding_state_ok s s' u :
  update_funding_state_of_position s = (s', Ok u) ->
  ps_market s' = ps_market s
  /\ funding_up_to_date (ps_market s') (ps_position s')
  /\ exists f cl cs, ps_position s'
      = set_claimable (set_claimable (set_funding_fee_amount_per_size (ps_position s) f) true cl)
          false cs.
Proof.
  unfold update_funding_state_of_position. intros Hr.
  apply sbind_ok in Hr as (? & s0 & Hget & Hr). apply sget_ok in Hget as [-> ->].
  apply sbind_ok in Hr as (? & f & Hf & Hr). apply sread_ok in Hf as [-> Hf].
  apply sbind_ok in Hr as (? & ? & Hw & Hr). apply smodify_ok in Hw as ->.
  apply sbind_ok in Hr as (? & cl & Hcl & Hr). apply sread_ok in Hcl as [-> Hcl].
  apply sbind_ok in Hr as (? & ? & Hw & Hr). apply smodify_ok in Hw as ->.
  apply sbind_ok in Hr as (? & cs & Hcs & Hr). apply sread_ok in Hcs as [-> Hcs].
  apply smodify_ok in Hr as ->. simpl in *. split_and!; [done| |eauto].
  unfold funding_up_to_date, funding_fee_amount_per_size, claimable_funding_fee_amount_per_size,
    position_claimable in *. simpl in *. done.
Qed.
End PositionFacts.

(** ** Examples *)
Section Examples.
#[local] Existing Instance u64.
#[local] Existing Instance test_num.

(** The long position that the example market holds with long collateral. *)
Definition example_position : Position :=
  mkPosition true true true 400000000 400000000000 3400000000 0 0 0 0.

Example pnl_value_spec_example :
  0 <= 1150000000 <= 1150000000 /\ 1150000000 = Z.quot (850000000 * 4600000000) 3400000000.
Proof.
  destruct (pnl_value_spec example_market example_position example_prices 100000000000
    1150000000 1150000000 850000000) as (_ & _ & _ & Hq & _ & Hc);
    [reflexivity|reflexivity|vm_compute; split; discriminate|vm_compute; reflexivity|].
  split; [exact (Hc eq_refl)|exact Hq].
Defined.

Example will_collateral_be_sufficient_spec_example :
  panics (will_collateral_be_sufficient example_market example_position example_prices
            (mkCollateralDelta 400000000000 400000000 (-1000000000) 0)) = false
  /\ will_deref (WillBeSufficient 46600000000) = 400000000 * 119 + Z.min 0 (-1000000000).
Proof.
  destruct (will_collateral_be_sufficient_spec example_market example_position example_prices
    (mkCollateralDelta 400000000000 400000000 (-1000000000) 0) example_market_wf) as [Hn Hr].
  split; [exact Hn|].
  destruct (Hr (WillBeSufficient 46600000000)) as [Hv _]; [vm_compute; reflexivity|exact Hv].
Defined.

Lemma check_liquidatable_spec_witness :
  exists remaining, Equity example_market example_position example_prices remaining /\ 0 < remaining.
Proof.
  destruct (check_liquidatable_spec example_market example_position example_prices true None)
    as (remaining & Hq & Hpos & _); [vm_compute; discriminate|vm_compute; reflexivity|].
  exists remaining. split; [exact Hq|exact Hpos].
Defined.
End Examples.
