(* ===== verification/Ledger.v ===== *)
(** * The positions of a market

    What the pools of a market say about its positions: the open interest (in usd and in
    tokens), the collateral sums and the total borrowing are the sums of what each
    position contributes to them. The actions on a position are proved to keep this; the
    actions that do not concern positions do not touch these pools. *)
From S2P Require Import Prelude Kinds Num Fixed Price Params Pool Market TestMarket MarketFacts.
From S2P Require Import Position.

(** The pools that follow the positions. *)
Definition is_ledger_pool (k : PoolKind) : bool :=
  match k with
  | OpenInterestForLong | OpenInterestForShort
  | OpenInterestInTokensForLong | OpenInterestInTokensForShort
  | CollateralSumForLong | CollateralSumForShort
  | TotalBorrowing => true
  | _ => false
  end.

Section Ledger.
Context {I : UInt} {IOk : UIntOk I} {F : FixedPointOps I} {FOk : FixedPointOk F}
  {P T : Type} {O : PoolOps P} {L : PoolLaws I P} {S : SupplyOps T} {SL : SupplyLaws T}.
Implicit Types (m : Market P T) (p : Position) (ps : list Position) (k : PoolKind).

(** The share of a position in each pool. *)
Definition contribution p : Change :=
  (open_interest_change (is_long p) (is_collateral_token_long p) (size_in_usd p) (size_in_tokens p)
   + change_at (CollateralSum (is_long p)) (is_collateral_token_long p) (collateral_amount p)
   + change_at TotalBorrowing (is_long p)
       (borrowing_of (size_in_usd p) (position_borrowing_factor p)))%change.

Definition ledger_sum ps : Change :=
  foldr (fun p c => (contribution p + c)%change) no_change ps.

(** The pools are the sums over the positions; for a pure pool, whose sides are halves of
    one amount, the total is. *)
Definition Tracks m ps : Prop :=
  forall k, is_ledger_pool k = true ->
    total_amt m k = ledger_sum ps k true + ledger_sum ps k false
    /\ (pool_pure (pool_of m k) = false -> forall b, amt m k b = ledger_sum ps k b).

Lemma ledger_sum_insert ps i p p' k b :
  ps !! i = Some p ->
  ledger_sum (<[i := p']> ps) k b = ledger_sum ps k b + (contribution p' k b - contribution p k b).
Proof.
  revert i. induction ps as [|q ps IH]; intros i Hi; [done|].
  destruct i as [|i]; simpl in *; unfold change_plus.
  - injection Hi as ->. lia.
  - rewrite (IH _ Hi). lia.
Qed.

(** A move that changes the pools as one position changes keeps the ledger. *)
Lemma tracks_update m c m' ps i p p' :
  Tracks m ps -> ps !! i = Some p -> Moved m c m' ->
  (forall k b, is_ledger_pool k = true -> c k b = contribution p' k b - contribution p k b) ->
  Tracks m' (<[i := p']> ps).
Proof.
  intros Ht Hi Hm Hc k Hk. destruct (Ht k Hk) as [Htot Hside].
  rewrite !(ledger_sum_insert _ _ _ _ _ _ Hi). split.
  - rewrite (moved_total _ _ _ k Hm), !Hc by done. lia.
  - rewrite (moved_pure _ _ _ k Hm). intros Hpure b.
    rewrite (moved_amt _ _ _ _ _ Hm Hpure), (ledger_sum_insert _ _ _ _ _ _ Hi), Hc, Hside by done.
    done.
Qed.

(** A move that does not touch these pools keeps it. *)
Lemma tracks_unchanged m c m' ps :
  Tracks m ps -> Moved m c m' -> (forall k b, is_ledger_pool k = true -> c k b = 0) -> Tracks m' ps.
Proof.
  intros Ht Hm Hc k Hk. destruct (Ht k Hk) as [Htot Hside]. split.
  - rewrite (moved_total _ _ _ k Hm), !Hc by done. lia.
  - rewrite (moved_pure _ _ _ k Hm). intros Hpure b.
    rewrite (moved_amt _ _ _ _ _ Hm Hpure), Hc, Hside by done. lia.
Qed.

Lemma token_change_unledgered c k b : token_change c -> is_ledger_pool k = true -> c k b = 0.
Proof. intros Hc Hk. apply Hc. by destruct k. Qed.

(** A position that contributes nothing can be opened or dropped freely. *)
Lemma contribution_of_empty p k b :
  size_in_usd p = 0 -> size_in_tokens p = 0 -> collateral_amount p = 0 -> contribution p k b = 0.
Proof.
  intros Hs Ht Hc. unfold contribution, open_interest_change, change_plus.
  rewrite Hs, Ht, Hc. unfold borrowing_of. rewrite Z.mul_0_l, Zdiv_0_l. by rewrite !change_at_zero.
Qed.

Lemma tracks_cons_empty m ps p :
  size_in_usd p = 0 -> size_in_tokens p = 0 -> collateral_amount p = 0 ->
  Tracks m (p :: ps) <-> Tracks m ps.
Proof.
  intros Hs Ht Hc. unfold Tracks. simpl. unfold change_plus.
  setoid_rewrite (contribution_of_empty p _ _ Hs Ht Hc). setoid_rewrite Z.add_0_l. done.
Qed.

(** What a change of one position, on one side and with one collateral, amounts to. *)
Definition position_change (b c : bool) (usd tokens collateral borrowing : Z) : Change :=
  (open_interest_change b c usd tokens + change_at (CollateralSum b) c collateral
   + change_at TotalBorrowing b borrowing)%change.

Lemma contribution_diff p p' k b :
  is_long p' = is_long p -> is_collateral_token_long p' = is_collateral_token_long p ->
  contribution p' k b - contribution p k b =
  position_change (is_long p) (is_collateral_token_long p)
    (size_in_usd p' - size_in_usd p) (size_in_tokens p' - size_in_tokens p)
    (collateral_amount p' - collateral_amount p)
    (borrowing_of (size_in_usd p') (position_borrowing_factor p')
     - borrowing_of (size_in_usd p) (position_borrowing_factor p)) k b.
Proof.
  intros Hl Hc. unfold contribution, position_change, open_interest_change, change_plus.
  rewrite Hl, Hc, !change_at_minus. lia.
Qed.

(** The parts of a position that no action changes. *)
Definition same_kind p p' : Prop :=
  is_long p' = is_long p /\ is_collateral_token_long p' = is_collateral_token_long p
  /\ are_pnl_and_collateral_tokens_the_same p' = are_pnl_and_collateral_tokens_the_same p.

(** What a position leaves in its market: itself, unless it was removed; then a part of its size in usd may
    stay in the open interest. *)
Definition left_behind p' q : Prop :=
  exists x, q = set_size_in_usd p' x /\ (x = size_in_usd p' \/ is_empty p' = true).

Lemma left_behind_refl p : left_behind p p.
Proof. exists (size_in_usd p). split; [by destruct p|by left]. Qed.

(** The market follows the position from [p] to [p']. *)
Definition LedgerStep p m p' m' : Prop :=
  forall ps i, Tracks m ps -> ps !! i = Some p -> exists q, left_behind p' q /\ Tracks m' (<[i := q]> ps).

(** What every action keeps of a position. *)
Record PositionWf p : Prop := {
  size_in_usd_in_u : in_u (size_in_usd p);
  size_in_tokens_in_u : in_u (size_in_tokens p);
  collateral_amount_in_u : in_u (collateral_amount p);
  no_tokens_without_size : size_in_usd p = 0 -> size_in_tokens p = 0;
}.
End Ledger.
