(* ===== verification/CollateralProcessor.v ===== *)
(** * Paying the costs of a decrease
    ([crates/gmsol-model/src/action/decrease_position/collateral_processor.rs])

    [CollateralProcessor] and [ClaimableCollateral]. The processor owns the amounts that
    belong to the closing position (the output amounts and the remaining collateral) and
    settles profits and costs against the pools of the market. What the closures passed to
    [process] capture by reference, the fees and the result of the swap, is part of
    the state here, because it is observable after an insolvent close. *)
From S2P Require Import Prelude Kinds Num Fixed Price Params Pool Market TestMarket MarketFacts.
From S2P Require Import Swap Position Ledger.

(** [claimable.rs]. *)
Record ClaimableCollateral : Type := mkClaimableCollateral {
  output_token_amount : Z;
  secondary_output_token_amount : Z;
}.
Definition ClaimableCollateral_default : ClaimableCollateral := mkClaimableCollateral 0 0.

(** [ProcessResult]. *)
Record ProcessResult : Type := mkProcessResult {
  output_amount : Z;
  secondary_output_amount : Z;
  remaining_collateral_amount : Z;
  for_holding : ClaimableCollateral;
  for_user : ClaimableCollateral;
  insolvent_close_step : option InsolventCloseStep;
}.

Inductive DecreasePositionSwapType : Type :=
| NoSwap
| PnlTokenToCollateralToken
| CollateralToPnlToken.

#[export] Instance DecreasePositionSwapType_eq_dec : EqDecision DecreasePositionSwapType.
Proof. solve_decision. Defined.

(** The immutable part of [State]. *)
Record ProcessorEnv : Type := mkProcessorEnv {
  env_prices : Prices;
  is_output_token_long : bool;
  is_pnl_token_long : bool;
  are_pnl_and_output_tokens_the_same : bool;
}.

(** [CollateralProcessor] and what the closures capture. *)
Record Processor (P T : Type) : Type := mkProcessor {
  pr_market : Market P T;
  pr_report : ProcessResult;
  pr_fees : PositionFees;
  pr_swap_result : option (result SwapReport);
}.
Arguments mkProcessor {P T}.
Arguments pr_market {P T}.
Arguments pr_report {P T}.
Arguments pr_fees {P T}.
Arguments pr_swap_result {P T}.

Definition set_amounts (r : ProcessResult) (output collateral secondary : Z) : ProcessResult :=
  mkProcessResult output secondary collateral (for_holding r) (for_user r) (insolvent_close_step r).
Definition set_for_holding (r : ProcessResult) (c : ClaimableCollateral) : ProcessResult :=
  mkProcessResult (output_amount r) (secondary_output_amount r) (remaining_collateral_amount r)
    c (for_user r) (insolvent_close_step r).
Definition set_for_user (r : ProcessResult) (c : ClaimableCollateral) : ProcessResult :=
  mkProcessResult (output_amount r) (secondary_output_amount r) (remaining_collateral_amount r)
    (for_holding r) c (insolvent_close_step r).

(** [into_report]. *)
Definition into_report (r : ProcessResult) (step : option InsolventCloseStep) : ProcessResult :=
  mkProcessResult (output_amount r) (secondary_output_amount r) (remaining_collateral_amount r)
    (for_holding r) (for_user r) step.

Section Payments.
Context {I : UInt}.

(** [ClaimableCollateral::try_add_amount]. *)
Definition try_add_amount (self : ClaimableCollateral) (amount : Z) (is_output_token : bool)
    : result ClaimableCollateral :=
  if is_output_token then
    let! v := ok_or (uadd (output_token_amount self) amount) Overflow in
    Ok (mkClaimableCollateral v (secondary_output_token_amount self))
  else
    let! v := ok_or (uadd (secondary_output_token_amount self) amount) Overflow in
    Ok (mkClaimableCollateral (output_token_amount self) v).

Definition pnl_token_price (env : ProcessorEnv) : Price :=
  if is_pnl_token_long env then long_token_price (env_prices env)
  else short_token_price (env_prices env).
Definition output_token_price (env : ProcessorEnv) : Price :=
  if is_output_token_long env then long_token_price (env_prices env)
  else short_token_price (env_prices env).

(** One of the three blocks of [do_pay_for_cost]: pay from what is available. The new
    available amount, the remaining cost and the paid amount; the strings are the messages
    of the overflow checks, in the order of the source. *)
Definition pay_from (add1 sub1 add2 sub2 : string) (available remaining_cost paid : Z)
    : result (Z * Z * Z) :=
  if negb (is_zero available) then
    if remaining_cost <? available then
      let! paid := ok_or (uadd paid remaining_cost) (Computation add1) in
      let! available := ok_or (usub available remaining_cost) (Computation sub1) in
      Ok (available, 0, paid)
    else
      let! paid := ok_or (uadd paid available) (Computation add2) in
      let! remaining_cost := ok_or (usub remaining_cost available) (Computation sub2) in
      Ok (0, remaining_cost, paid)
  else Ok (available, remaining_cost, paid).

Definition pay_from_output : Z -> Z -> Z -> result (Z * Z * Z) :=
  pay_from "overflow occurred while increasing paid amount for output token [1]"
    "underflow occurred while deducting output amount"
    "overflow occurred while increasing paid amount for output token [2]"
    "underflow occurred while deducting remaining cost in output token [1]".
Definition pay_from_collateral : Z -> Z -> Z -> result (Z * Z * Z) :=
  pay_from "overflow occurred while increasing paid amount in collateral token [1]"
    "underflow occurred while deducting collateral amount"
    "overflow occurred while increasing paid amount for collateral token [2]"
    "underflow occurred while deducting remaining cost in output token [2]".
Definition pay_from_secondary : Z -> Z -> Z -> result (Z * Z * Z) :=
  pay_from "overflow occurred while increasing paid amount in secondary token [1]"
    "underflow deducting secondary amount"
    "overflow occurred while increasing paid amount for secondary token [2]"
    "underflow occurred while deducting remaining cost in secondary token [2]".

(** [do_pay_for_cost]: the new report, the remaining cost and the two paid amounts. *)
Definition do_pay_for_cost (env : ProcessorEnv) (r : ProcessResult) (cost : Z)
    : result (ProcessResult * Z * Z * Z) :=
  if is_zero cost then Ok (r, cost, 0, 0)
  else
    let! remaining :=
      ok_or (checked_round_up_div cost (pick_price (output_token_price env) false))
        (Computation "initializing cost in output tokens") in
    let! x := pay_from_output (output_amount r) remaining 0 in
    let '(output, remaining, paid) := x in
    if is_zero remaining then
      Ok (set_amounts r output (remaining_collateral_amount r) (secondary_output_amount r), 0, paid, 0)
    else
      let! x := pay_from_collateral (remaining_collateral_amount r) remaining paid in
      let '(collateral, remaining, paid) := x in
      if is_zero remaining then
        Ok (set_amounts r output collateral (secondary_output_amount r), 0, paid, 0)
      else
        let! remaining_secondary :=
          ok_or (checked_mul_div remaining (pick_price (output_token_price env) false)
                   (pick_price (pnl_token_price env) false))
            (Computation "initializing remaining cost in secondary output token") in
        let! x := pay_from_secondary (secondary_output_amount r)
                    remaining_secondary 0 in
        let '(secondary, remaining_secondary, paid_secondary) := x in
        let! cost := ok_or (umul remaining_secondary (pick_price (pnl_token_price env) false))
                       (Computation "calculating remaining cost") in
        Ok (set_amounts r output collateral secondary, cost, paid, paid_secondary).
End Payments.

Section Processor.
Context {I : UInt} {F : FixedPointOps I} {P T : Type} {O : PoolOps P} {S : SupplyOps T}.

Definition CM (A : Type) : Type := ST (Processor P T) Error A.

Definition on_pool {A} (m : MM P T A) : CM A :=
  szoom pr_market (fun m s => mkProcessor m (pr_report s) (pr_fees s) (pr_swap_result s)) m.
Definition on_report (f : ProcessResult -> result ProcessResult) : CM unit :=
  supdate (fun s =>
    let! r := f (pr_report s) in
    Ok (mkProcessor (pr_market s) r (pr_fees s) (pr_swap_result s))).
Definition set_processor_fees (f : PositionFees -> PositionFees) : CM unit :=
  smodify (fun s => mkProcessor (pr_market s) (pr_report s) (f (pr_fees s)) (pr_swap_result s)).
Definition set_swap_result (r : result SwapReport) : CM unit :=
  smodify (fun s => mkProcessor (pr_market s) (pr_report s) (pr_fees s) (Some r)).

Variable env : ProcessorEnv.

(** The report of [CollateralProcessor::new]. *)
Definition initial_report (remaining_collateral_amount : Z) : ProcessResult :=
  mkProcessResult 0 0 remaining_collateral_amount ClaimableCollateral_default
    ClaimableCollateral_default None.

Definition add_pnl_token_amount (deduction_amount_for_pool : Z) : CM unit :=
  on_report (fun r =>
    if are_pnl_and_output_tokens_the_same env then
      let! v := ok_or (uadd (output_amount r) deduction_amount_for_pool)
        (Computation "overflow occurred while adding deduction amount to output_amount") in
      Ok (set_amounts r v (remaining_collateral_amount r) (secondary_output_amount r))
    else
      let! v := ok_or (uadd (secondary_output_amount r) deduction_amount_for_pool)
        (Computation "overflow occurred while adding deduction amount to secondary_output_amount") in
      Ok (set_amounts r (output_amount r) (remaining_collateral_amount r) v)).

(** [receive] gets the two paid amounts and the remaining cost. *)
Definition pay_for_cost (cost : Z) (receive : Z -> Z -> Z -> CM unit) (step : InsolventCloseStep)
    : CM unit :=
  do! x := sread (fun s => do_pay_for_cost env (pr_report s) cost) in
  let '(r, cost, paid_in_collateral_amount, paid_in_secondary_amount) := x in
  do! _ := on_report (fun _ => Ok r) in
  do! _ := receive paid_in_collateral_amount paid_in_secondary_amount cost in
  if negb (is_zero cost) then slift (Err (InsufficientFundsToPayForCosts step)) else sret tt.

Definition pay_to_primary_pool (collateral_token_amount secondary_output_token_amount : Z) : CM unit :=
  do! _ :=
    (if negb (is_zero collateral_token_amount)
     then on_pool (apply_delta (is_output_token_long env) collateral_token_amount)
     else sret tt) in
  if negb (is_zero secondary_output_token_amount)
  then on_pool (apply_delta (is_pnl_token_long env) secondary_output_token_amount)
  else sret tt.

Definition pay_signed_to_primary_pool (paid_in_collateral paid_in_secondary : Z) : CM unit :=
  do! c := slift (to_signed paid_in_collateral) in
  do! s := slift (to_signed paid_in_secondary) in
  pay_to_primary_pool c s.

(** The profit leaves the liquidity pool at the high price of the pnl token. *)
Definition take_profit_from_pool (value : Z) (msg : string) : CM unit :=
  do! deduction_amount_for_pool := slift
    (ok_or (udiv value (pick_price (pnl_token_price env) true)) (Computation msg)) in
  do! delta := slift (to_opposite_signed deduction_amount_for_pool) in
  do! _ := on_pool (apply_delta (is_pnl_token_long env) delta) in
  add_pnl_token_amount deduction_amount_for_pool.

Definition add_pnl_if_positive (pnl : Z) : CM unit :=
  if is_positive pnl then
    take_profit_from_pool (unsigned_abs pnl) "pnl: calculating deduction amount for pool"
  else sret tt.

Definition pay_for_pnl_if_negative (pnl : Z) : CM unit :=
  if is_negative pnl then
    pay_for_cost (unsigned_abs pnl) (fun c s _ => pay_signed_to_primary_pool c s) StepPnl
  else sret tt.

Definition add_price_impact_if_positive (price_impact : Z) : CM unit :=
  if is_positive price_impact then
    do! amount := slift
      (ok_or (checked_round_up_div (unsigned_abs price_impact)
                (pick_price (index_token_price (env_prices env)) false))
         (Computation "calculating positive price impact amount")) in
    do! delta := slift (to_opposite_signed amount) in
    do! _ := on_pool (apply_delta_to_position_impact_pool delta) in
    take_profit_from_pool (unsigned_abs price_impact)
      "impact: calculating deduction amount for pool"
  else sret tt.

(** What is paid for a negative impact is credited to the impact pool, in index tokens. *)
Definition credit_impact_pool (paid : Z) (price : Price) (msg : string) : CM unit :=
  if negb (is_zero paid) then
    do! delta := slift
      (ok_or (checked_mul_div paid (pick_price price false)
                (pick_price (index_token_price (env_prices env)) true)) (Computation msg)) in
    do! delta := slift (to_signed delta) in
    on_pool (apply_delta_to_position_impact_pool delta)
  else sret tt.

Definition pay_for_price_impact_if_negative (price_impact : Z) : CM unit :=
  if is_negative price_impact then
    pay_for_cost (unsigned_abs price_impact)
      (fun paid_in_collateral_amount paid_in_secondary_output_amount _ =>
         do! _ := pay_signed_to_primary_pool paid_in_collateral_amount
                    paid_in_secondary_output_amount in
         do! _ := credit_impact_pool paid_in_collateral_amount (output_token_price env)
                    "calculating price impact paid in collateral (output) token" in
         credit_impact_pool paid_in_secondary_output_amount (pnl_token_price env)
           "calculating price impact paid in secondary output token")
      StepImpact
  else sret tt.

(** [on_insufficient_funding_fee_payment] only emits an event. *)
Definition pay_for_funding_fees (fees : FundingFees) : CM unit :=
  let cost_amount := funding_fee_amount fees in
  if negb (is_zero cost_amount) then
    do! cost := slift (ok_or (umul cost_amount (pick_price (output_token_price env) false))
                         (Computation "calculating funding fee cost")) in
    pay_for_cost cost
      (fun _ paid_in_secondary_output_amount _ =>
         if negb (is_zero paid_in_secondary_output_amount) then
           on_report (fun r =>
             let! c := try_add_amount (for_holding r) paid_in_secondary_output_amount false in
             Ok (set_for_holding r c))
         else sret tt)
      StepFunding
  else sret tt.

Definition pay_for_fees_excluding_funding : CM unit :=
  do! s := sget in
  let fees := pr_fees s in
  do! cost_amount := slift (total_cost_excluding_funding fees) in
  if negb (is_zero cost_amount) then
    do! cost := slift (ok_or (umul cost_amount (pick_price (output_token_price env) false))
                         (Computation "calculating total fee cost")) in
    pay_for_cost cost
      (fun paid_in_collateral_amount paid_in_secondary_output_amount remaining_cost =>
         if is_zero remaining_cost && is_zero paid_in_secondary_output_amount then
           do! pool := slift (for_pool fees) in
           do! pool := slift (to_signed pool) in
           do! _ := on_pool (apply_delta (is_output_token_long env) pool) in
           do! receiver := slift (for_receiver fees) in
           do! receiver := slift (to_signed receiver) in
           on_pool (apply_delta_to_claimable_fee_pool (is_output_token_long env) receiver)
         else
           do! _ := pay_signed_to_primary_pool paid_in_collateral_amount
                      paid_in_secondary_output_amount in
           do! _ := set_processor_fees clear_fees_excluding_funding in
           set_processor_fees (fun fees => set_paid_order_fee_value fees 0))
      StepFees
  else sret tt.

Definition pay_for_price_impact_diff (price_impact_diff : Z) : CM unit :=
  if negb (is_zero price_impact_diff) then
    pay_for_cost price_impact_diff
      (fun paid_in_collateral_amount paid_in_secondary_output_amount _ =>
         do! _ :=
           (if negb (is_zero paid_in_collateral_amount) then
              on_report (fun r =>
                let! c := try_add_amount (for_user r) paid_in_collateral_amount true in
                Ok (set_for_user r c))
            else sret tt) in
         if negb (is_zero paid_in_secondary_output_amount) then
           on_report (fun r =>
             let! c := try_add_amount (for_user r) paid_in_secondary_output_amount false in
             Ok (set_for_user r c))
         else sret tt)
      StepDiff
  else sret tt.

(** An error of the swap is passed to [handle_swap_result], which records it. *)
Definition swap_profit_to_collateral_tokens (swap_type : DecreasePositionSwapType) : CM unit :=
  do! s := sget in
  let profit_amount := secondary_output_amount (pr_report s) in
  if negb (is_zero profit_amount) && bool_decide (swap_type = PnlTokenToCollateralToken) then
    if Bool.eqb (is_pnl_token_long env) (is_output_token_long env) then
      slift (Err (InvalidArgument "swap profit: swap is not required"))
    else
      do! r := stry (on_pool (swap (is_pnl_token_long env) profit_amount (env_prices env))) in
      match r with
      | Ok report =>
          do! _ := on_report (fun r =>
            let! v := ok_or (uadd (output_amount r) (token_out_amount (swap_result report)))
              (Computation "swap profit: overflow occurred while adding token_out_amount") in
            Ok (set_amounts r v (remaining_collateral_amount r) 0)) in
          set_swap_result (Ok report)
      | _ => set_swap_result r
      end
  else sret tt.

(** [CollateralProcessor::process]. *)
Definition process (is_insolvent_close_allowed : bool) (f : CM unit) : CM ProcessResult :=
  do! res := stry f in
  do! s := sget in
  match res with
  | Ok _ => sret (into_report (pr_report s) None)
  | Err (InsufficientFundsToPayForCosts step) =>
      if is_insolvent_close_allowed then sret (into_report (pr_report s) (Some step))
      else slift (Err (InsufficientFundsToPayForCosts step))
  | Err e => slift (Err e)
  | Panic msg => slift (Panic msg)
  end.

(** The closure that [DecreasePosition::process_collateral] passes to [process]; the funding
    fees it reads are never written. *)
Definition settle (swap_type : DecreasePositionSwapType) (base_pnl_usd price_impact_value
    price_impact_diff : Z) : CM unit :=
  do! s := sget in
  do! _ := add_pnl_if_positive base_pnl_usd in
  do! _ := add_price_impact_if_positive price_impact_value in
  do! _ := swap_profit_to_collateral_tokens swap_type in
  do! _ := pay_for_funding_fees (fees_funding (pr_fees s)) in
  do! _ := pay_for_pnl_if_negative base_pnl_usd in
  do! _ := pay_for_fees_excluding_funding in
  do! _ := pay_for_price_impact_if_negative price_impact_value in
  pay_for_price_impact_diff price_impact_diff.
End Processor.
Arguments CM : clear implicits.

(** ** Paying a cost *)
Section PaymentFacts.
Context {I : UInt} {IOk : UIntOk I}.

(** The amounts of a report are amounts. *)
Record ReportWf (r : ProcessResult) : Prop := {
  output_nonneg : 0 <= output_amount r;
  secondary_nonneg : 0 <= secondary_output_amount r;
  collateral_nonneg : 0 <= remaining_collateral_amount r;
}.

Lemma pay_from_ok a1 s1 a2 s2 available remaining paid available' remaining' paid' :
  0 <= available -> 0 <= remaining ->
  pay_from a1 s1 a2 s2 available remaining paid = Ok (available', remaining', paid') ->
  paid' = paid + Z.min available remaining
  /\ available' = available - Z.min available remaining
  /\ remaining' = remaining - Z.min available remaining.
Proof.
  unfold pay_from. unfold_num_tests. intros Ha Hr Hp.
  case_if_in Hp Hz; [|injection Hp as <- <- <-; bool_to_prop; lia].
  destruct (Z.ltb_spec remaining available); code_inv; lia.
Qed.

(** What a payment is: [paid] and [paid2] leave the amounts in the order of the source and
    cover the cost up to what remains unpaid, up to one unit of rounding on either side. *)
Record Payment (env : ProcessorEnv) (r r' : ProcessResult) (cost cost' paid paid2 : Z) : Prop := {
  payment_rest : r' = set_amounts r (output_amount r') (remaining_collateral_amount r')
                        (secondary_output_amount r');
  payment_wf : ReportWf r';
  payment_collateral : output_amount r + remaining_collateral_amount r
                       = output_amount r' + remaining_collateral_amount r' + paid;
  payment_secondary : secondary_output_amount r = secondary_output_amount r' + paid2;
  payment_nonneg : 0 <= paid /\ 0 <= paid2 /\ 0 <= cost';
  payment_collateral_le : remaining_collateral_amount r' <= remaining_collateral_amount r;
  payment_order_collateral :
    remaining_collateral_amount r' < remaining_collateral_amount r -> output_amount r' = 0;
  payment_order_secondary :
    0 < paid2 \/ 0 < cost' -> output_amount r' = 0 /\ remaining_collateral_amount r' = 0;
  payment_exhausted : 0 < cost' -> secondary_output_amount r' = 0;
  payment_covers :
    cost - price_min (pnl_token_price env)
    < paid * price_min (output_token_price env) + paid2 * price_min (pnl_token_price env) + cost'
    < cost + price_min (output_token_price env);
}.

Lemma do_pay_for_cost_ok env r cost r' cost' paid paid2 :
  ReportWf r -> 0 <= cost ->
  0 < price_min (output_token_price env) -> 0 < price_min (pnl_token_price env) ->
  do_pay_for_cost env r cost = Ok (r', cost', paid, paid2) ->
  Payment env r r' cost cost' paid paid2.
Proof.
  intros [Ho Hs Hc] Hcost Hpo Hpp Hr. unfold do_pay_for_cost, pick_price in Hr. unfold_num_tests.
  destruct (Z.eqb_spec cost 0) as [->|Hne].
  { injection Hr as <- <- <- <-. split; try lia; [by destruct r|by split]. }
  apply rbind_ok in Hr as (rem & Hrem & Hr). apply ok_or_ok, checked_round_up_div_some in Hrem
    as (_ & Hup & Hlow & Hrem); [|lia..]. unfold in_u in Hrem.
  set (po := price_min (output_token_price env)) in *. set (pp := price_min (pnl_token_price env)) in *.
  apply rbind_ok in Hr as ([[o1 rem1] p1] & H1 & Hr). apply pay_from_ok in H1 as (-> & -> & ->); [|lia..].
  case_if_in Hr Hz1.
  { injection Hr as <- <- <- <-. bool_to_prop. split; simpl; fold po pp; try (split; simpl); try done; try lia; nia. }
  apply rbind_ok in Hr as ([[c1 rem2] p2] & H2 & Hr).
  apply pay_from_ok in H2 as (-> & -> & ->); [|lia..].
  case_if_in Hr Hz2.
  { injection Hr as <- <- <- <-. bool_to_prop. split; simpl; fold po pp; try (split; simpl); try done; try lia; nia. }
  apply rbind_ok in Hr as (rs & Hrs & Hr). apply ok_or_ok, checked_mul_div_some in Hrs as (_ & Hrs & Hrsu).
  apply rbind_ok in Hr as ([[s1 rem3] p3] & H3 & Hr). unfold in_u in Hrsu.
  apply pay_from_ok in H3 as (-> & -> & ->); [|lia..].
  apply rbind_ok in Hr as (left & Hl & Hr). apply ok_or_ok, umul_some in Hl as [-> Hlu].
  injection Hr as <- <- <- <-. bool_to_prop. unfold in_u in Hlu.
  set (rem' := rem - Z.min (output_amount r) rem - _) in *.
  pose proof (div_mul_le (rem' * po) pp Hpp). pose proof (div_mul_gt (rem' * po) pp Hpp).
  rewrite <- Hrs in *. clear Hrs.
  split; simpl; fold po pp; try (split; simpl); try done; try lia.
  all: try nia.
Qed.
End PaymentFacts.

(** ** Settling conserves tokens *)
Section SettleFacts.
Context {I : UInt} {IOk : UIntOk I} {F : FixedPointOps I} {FOk : FixedPointOk F}
  {P T : Type} {O : PoolOps P} {L : PoolLaws I P} {S : SupplyOps T} {SL : SupplyLaws T}.
Implicit Types (s : Processor P T) (w : bool -> Z).

Variable env : ProcessorEnv.

(** The tokens of a side that belong to the position's owner or are held for claims. *)
Definition owed (r : ProcessResult) (side : bool) : Z :=
  (if Bool.eqb side (is_output_token_long env) then
     output_amount r + remaining_collateral_amount r
     + output_token_amount (for_holding r) + output_token_amount (for_user r)
   else 0)
  + (if Bool.eqb side (is_pnl_token_long env) then
       secondary_output_amount r
       + secondary_output_token_amount (for_holding r) + secondary_output_token_amount (for_user r)
     else 0).

(** A weighting of the two tokens. Counting one token only ([w] is 1 on a side) is fair when the
    profit is paid in the token that the pool loses; the total is fair also in a market
    whose two tokens are the same. *)
Definition weigh w (f : bool -> Z) : Z := w true * f true + w false * f false.
Definition fair w : Prop :=
  are_pnl_and_output_tokens_the_same env = true ->
  w (is_output_token_long env) = w (is_pnl_token_long env).

(** A change that leaves the positions' pools and the borrowing factors alone. *)
Definition unledgered (c : Change) : Prop :=
  forall k b, is_ledger_pool k = true \/ k = BorrowingFactor -> c k b = 0.

Lemma unledgered_plus c c' : unledgered c -> unledgered c' -> unledgered (c + c')%change.
Proof. intros Hc Hc' k b Hk. unfold change_plus. by rewrite Hc, Hc'. Qed.

Lemma unledgered_at k b x :
  is_ledger_pool k = false -> k <> BorrowingFactor -> unledgered (change_at k b x).
Proof.
  intros Hl Hb k' b' [Hk|Hk]; apply change_at_other; [|congruence]. intros ->. congruence.
Qed.

(** From [s] to [s'] every token is accounted for, except for [funding] tokens of the output
    side: at most [n] of them stay in the vault for the funding fees, and at most [k] are
    credited to the fee pools without having been paid (see [pay_for_fees_settles]). *)
Record Settled (k n : Z) s s' : Prop := {
  settled_move : exists c funding,
    - k <= funding <= n
    /\ Moved (pr_market s) c (pr_market s') /\ unledgered c
    /\ forall w, fair w ->
         weigh w (held_change c) + weigh w (owed (pr_report s'))
         = weigh w (owed (pr_report s)) - w (is_output_token_long env) * funding;
  settled_report : ReportWf (pr_report s');
  settled_collateral :
    remaining_collateral_amount (pr_report s') <= remaining_collateral_amount (pr_report s);
}.

Definition ProcessorWf s : Prop := market_wf (pr_market s) /\ ReportWf (pr_report s).

Lemma settled_wf k n s s' : Settled k n s s' -> ProcessorWf s -> ProcessorWf s'.
Proof.
  intros [(c & fund & _ & Hm & _) Hr _] [Hwf _]. split; [by eapply moved_wf|done].
Qed.

Lemma settled_refl s : ProcessorWf s -> Settled 0 0 s s.
Proof.
  intros [Hwf Hr]. split; [|done|done].
  exists no_change, 0. split_and!; [lia|lia|by apply moved_refl|done|].
  intros w _. unfold weigh, held_change, no_change. lia.
Qed.

Lemma weigh_held_plus w c c' :
  weigh w (held_change (c + c')%change) = weigh w (held_change c) + weigh w (held_change c').
Proof. unfold weigh. rewrite !held_change_plus. lia. Qed.

Lemma settled_trans k k' n n' s s1 s' :
  Settled k n s s1 -> Settled k' n' s1 s' -> Settled (k + k') (n + n') s s'.
Proof.
  intros [(c & f & Hf & Hm & Hu & Hw) _ Hc] [(c' & f' & Hf' & Hm' & Hu' & Hw') Hr Hc'].
  split; [|done|lia]. exists (c + c')%change, (f + f').
  split_and!; [lia|lia|by eapply moved_trans|by apply unledgered_plus|].
  intros w Hfair. rewrite weigh_held_plus. specialize (Hw w Hfair). specialize (Hw' w Hfair). lia.
Qed.

Lemma weigh_held_at w k b x :
  weigh w (held_change (change_at k b x)) = if is_token_pool k then w b * x else 0.
Proof.
  unfold weigh. rewrite !held_change_at. destruct (is_token_pool k), b; simpl; lia.
Qed.

(** The report's amounts as one sum. *)
Lemma weigh_owed w r :
  weigh w (owed r) =
  w (is_output_token_long env) * (output_amount r + remaining_collateral_amount r
    + output_token_amount (for_holding r) + output_token_amount (for_user r))
  + w (is_pnl_token_long env) * (secondary_output_amount r
    + secondary_output_token_amount (for_holding r) + secondary_output_token_amount (for_user r)).
Proof.
  unfold weigh, owed. destruct (is_output_token_long env), (is_pnl_token_long env); simpl; lia.
Qed.

(** ** Outcomes

    A step of the settlement ends normally or, when it is the payment that fails, with
    insufficient funds, which [process] may turn into an insolvent close. *)
Definition outcome (r : result unit) : Prop :=
  r = Ok tt \/ exists step, r = Err (InsufficientFundsToPayForCosts step).

Definition settles (k n : Z) (m : CM P T unit) : Prop :=
  forall s s' r, ProcessorWf s -> m s = (s', r) -> outcome r -> Settled k n s s'.

(** Steps that cannot themselves end with insufficient funds. *)
Definition quiet {A} (m : CM P T A) : Prop := forall s, calm (snd (m s)) = true.

Lemma outcome_not_panic msg : outcome (Panic msg) -> False.
Proof. intros [?|[??]]; discriminate. Qed.

Lemma outcome_calm e : outcome (Err e) -> is_insufficient_funds e = true.
Proof. intros [?|[step [= ->]]]; done. Qed.

Lemma sbind_quiet {A} (m : CM P T A) f s s' r :
  quiet m -> sbind m f s = (s', r) -> outcome r ->
  exists s1 a, m s = (s1, Ok a) /\ f a s1 = (s', r).
Proof.
  intros Hq Hr Ho. specialize (Hq s). unfold sbind in Hr. destruct (m s) as [s1 [a|e|msg]].
  - eauto.
  - injection Hr as <- <-. apply outcome_calm in Ho. simpl in Hq. by rewrite Ho in Hq.
  - injection Hr as <- <-. by apply outcome_not_panic in Ho.
Qed.

Lemma settles_bind k k' n n' (m : CM P T unit) f :
  0 <= k' -> 0 <= n' -> settles k n m -> (forall u, settles k' n' (f u)) ->
  settles (k + k') (n + n') (sbind m f).
Proof.
  intros Hk Hn Hm Hf s s' r Hwf Hr Ho. unfold sbind in Hr.
  destruct (m s) as [s1 [u|e|msg]] eqn:Hms.
  - destruct u. pose proof (Hm _ _ _ Hwf Hms (or_introl eq_refl)) as H1.
    eapply settled_trans; [exact H1|]. eapply Hf; [by eapply settled_wf|exact Hr|exact Ho].
  - injection Hr as <- <-. pose proof (Hm _ _ _ Hwf Hms Ho) as [(c & fund & ? & ?) ??].
    split; [|done|done]. exists c, fund. split; [lia|done].
  - injection Hr as <- <-. by apply outcome_not_panic in Ho.
Qed.

Lemma settles_sret : settles 0 0 (sret tt).
Proof. intros s s' r Hwf [= <- <-] _. by apply settled_refl. Qed.

Lemma settles_sget k n f : (forall s0, settles k n (f s0)) -> settles k n (sbind sget f).
Proof. intros Hf s s' r Hwf Hr Ho. by eapply (Hf s). Qed.

Lemma quiet_slift {A} (r : result A) : calm r = true -> quiet (slift r).
Proof. intros Hr s. exact Hr. Qed.

Lemma quiet_sret {A} (a : A) : quiet (sret a).
Proof. done. Qed.

Lemma quiet_sget : quiet sget.
Proof. done. Qed.

Lemma quiet_bind {A B} (m : CM P T A) (f : A -> CM P T B) :
  quiet m -> (forall a, quiet (f a)) -> quiet (sbind m f).
Proof.
  intros Hm Hf s. specialize (Hm s). unfold sbind. destruct (m s) as [s1 [a|e|msg]]; [apply Hf|done..].
Qed.

Lemma quiet_on_report f : (forall r, calm (f r) = true) -> quiet (on_report f).
Proof.
  intros Hf s. unfold on_report, supdate. specialize (Hf (pr_report s)).
  destruct (f (pr_report s)); done.
Qed.

Lemma quiet_fees f : quiet (set_processor_fees f).
Proof. done. Qed.

Lemma quiet_update_pool k f : (forall p, calm (f p) = true) -> quiet (on_pool (update_pool k f)).
Proof.
  intros Hf s. unfold on_pool, szoom, update_pool, supdate. specialize (Hf (pool_of (pr_market s) k)).
  destruct (f _); done.
Qed.

Lemma quiet_apply_delta b d : quiet (on_pool (apply_delta b d)).
Proof.
  destruct b; apply quiet_update_pool; intros; [apply apply_long_calm|apply apply_short_calm].
Qed.

Lemma quiet_claimable_fee b d : quiet (on_pool (apply_delta_to_claimable_fee_pool b d)).
Proof. apply quiet_update_pool. intros. apply apply_delta_amount_calm. Qed.

Lemma quiet_impact d : quiet (on_pool (apply_delta_to_position_impact_pool d)).
Proof. apply quiet_update_pool. intros. apply apply_long_calm. Qed.

Lemma calm_to_signed v : calm (to_signed v) = true.
Proof. unfold to_signed. calm. Qed.
Lemma calm_to_opposite_signed v : calm (to_opposite_signed v) = true.
Proof. unfold to_opposite_signed, to_signed. calm. Qed.
Lemma calm_for_pool fees : calm (for_pool fees) = true.
Proof.
  unfold for_pool, borrowing_fee_amount_for_pool, liquidation_fee_amount_for_pool. calm.
Qed.
Lemma calm_for_receiver fees : calm (for_receiver fees) = true.
Proof. unfold for_receiver. calm. Qed.
Lemma calm_total_cost fees : calm (total_cost_excluding_funding fees) = true.
Proof. unfold total_cost_excluding_funding. calm. Qed.
Lemma calm_try_add c x b : calm (try_add_amount c x b) = true.
Proof. unfold try_add_amount. calm. Qed.
Lemma calm_pay_from a b c d x y z : calm (pay_from a b c d x y z) = true.
Proof. unfold pay_from. calm. Qed.
Lemma calm_do_pay r cost : calm (do_pay_for_cost env r cost) = true.
Proof.
  unfold do_pay_for_cost, pay_from_output, pay_from_collateral, pay_from_secondary.
  calm; apply calm_pay_from.
Qed.

(** Goes through a step, looking for a source of insufficient funds. *)
Ltac quiet :=
  repeat first
    [ apply quiet_sret | apply quiet_sget | apply quiet_fees
    | apply quiet_apply_delta | apply quiet_claimable_fee | apply quiet_impact
    | apply quiet_bind; [|intros ?]
    | apply quiet_on_report; intros ?
    | apply quiet_slift
    | apply calm_to_signed | apply calm_to_opposite_signed | apply calm_for_pool
    | apply calm_for_receiver | apply calm_total_cost | apply calm_try_add | apply calm_do_pay
    | apply calm_ok_or; done
    | apply calm_bind; [|intros ?]
    | match goal with |- quiet (if ?b then _ else _) => destruct b end
    | match goal with |- calm (if ?b then _ else _) = true => destruct b end
    | done ].

Lemma on_pool_ok {A} (f : MM P T A) s s' a :
  on_pool f s = (s', Ok a) ->
  exists m', f (pr_market s) = (m', Ok a)
    /\ s' = mkProcessor m' (pr_report s) (pr_fees s) (pr_swap_result s).
Proof. unfold on_pool. apply szoom_ok. Qed.

Lemma on_report_ok f s s' u :
  on_report f s = (s', Ok u) ->
  exists r, f (pr_report s) = Ok r
    /\ s' = mkProcessor (pr_market s) r (pr_fees s) (pr_swap_result s).
Proof.
  unfold on_report. intros Hr. apply supdate_ok in Hr. apply rbind_ok in Hr as (r & Hr & [= <-]). eauto.
Qed.

Lemma quiet_outcome (m : CM P T unit) s s' r :
  m s = (s', r) -> quiet m -> outcome r -> r = Ok tt /\ m s = (s', Ok tt).
Proof.
  intros Hr Hq Ho. specialize (Hq s). rewrite Hr in *. destruct r as [[]|e|msg]; [done|..].
  - apply outcome_calm in Ho. simpl in Hq. by rewrite Ho in Hq.
  - by apply outcome_not_panic in Ho.
Qed.

(** ** Profits *)
Lemma take_profit_settles value msg :
  0 <= value -> 0 <= price_max (pnl_token_price env) ->
  settles 0 0 (take_profit_from_pool env value msg).
Proof.
  intros Hv Hp s s' r [Hwf Hrep] Hr Ho. unfold take_profit_from_pool, pick_price in Hr.
  apply sbind_quiet in Hr as (s1 & d & Hd & Hr); [|quiet|done].
  apply slift_ok in Hd as [-> Hd]. apply ok_or_ok, udiv_some in Hd as (Hne & -> & Hdu).
  set (d := value / _) in *.
  apply sbind_quiet in Hr as (s1 & x & Hx & Hr); [|quiet|done].
  apply slift_ok in Hx as [-> Hx]. apply to_opposite_signed_ok in Hx as (-> & _ & _).
  apply sbind_quiet in Hr as (s1 & u & H1 & Hr); [|quiet|done].
  apply on_pool_ok in H1 as (m1 & H1 & ->). apply apply_delta_moved in H1; [|done].
  unfold add_pnl_token_amount in Hr. apply quiet_outcome in Hr as [-> Hr]; [|quiet|done].
  apply on_report_ok in Hr as (rep & Hrep' & ->). simpl in Hrep'.
  unfold in_u in Hdu. destruct Hrep.
  destruct (are_pnl_and_output_tokens_the_same env) eqn:Hsame; code_inv.
  - split; simpl; [|split; simpl; lia|lia].
    exists (change_at Primary (is_pnl_token_long env) (- d)), 0. split_and!; [lia|lia|done|by apply unledgered_at|].
    intros w Hfair. rewrite weigh_held_at, !weigh_owed. simpl. rewrite (Hfair Hsame). lia.
  - split; simpl; [|split; simpl; lia|lia].
    exists (change_at Primary (is_pnl_token_long env) (- d)), 0. split_and!; [lia|lia|done|by apply unledgered_at|].
    intros w _. rewrite weigh_held_at, !weigh_owed. simpl. lia.
Qed.

Lemma add_pnl_if_positive_settles pnl :
  0 <= price_max (pnl_token_price env) -> settles 0 0 (add_pnl_if_positive env pnl).
Proof.
  unfold add_pnl_if_positive. unfold_num_tests. intros Hp. case_if Hpos; [|apply settles_sret].
  apply take_profit_settles; lia.
Qed.

Lemma quiet_settles k n (m : CM P T unit) :
  quiet m -> (forall s s', ProcessorWf s -> m s = (s', Ok tt) -> Settled k n s s') -> settles k n m.
Proof.
  intros Hq Hm s s' r Hwf Hr Ho. apply quiet_outcome in Hr as [-> Hr]; [|done..]. by apply Hm.
Qed.

Lemma impact_pool_settles d : settles 0 0 (on_pool (apply_delta_to_position_impact_pool d)).
Proof.
  apply quiet_settles; [quiet|]. intros s s' [Hwf Hrep] Hr.
  apply on_pool_ok in Hr as (m1 & H1 & ->). apply apply_delta_to_position_impact_pool_moved in H1; [|done].
  split; simpl; [|done|lia].
  exists (change_at PositionImpact true d), 0. split_and!; [lia|lia|done|by apply unledgered_at|].
  intros w _. rewrite weigh_held_at. simpl. lia.
Qed.

Lemma settles_slift {A} k n (r : result A) f :
  calm r = true -> (forall a, r = Ok a -> settles k n (f a)) -> settles k n (sbind (slift r) f).
Proof.
  intros Hq Hf s s' res Hwf Hr Ho. apply sbind_quiet in Hr as (s1 & a & Ha & Hr); [|by apply quiet_slift|done].
  apply slift_ok in Ha as [-> Ha]. by eapply Hf.
Qed.

Lemma add_price_impact_settles impact :
  0 <= price_max (pnl_token_price env) -> settles 0 0 (add_price_impact_if_positive env impact).
Proof.
  unfold add_price_impact_if_positive. unfold_num_tests. intros Hp. case_if Hpos; [|apply settles_sret].
  apply settles_slift; [by apply calm_ok_or|]. intros amount _.
  apply settles_slift; [apply calm_to_opposite_signed|]. intros d _.
  apply (settles_bind 0 0 0 0); [done|done|apply impact_pool_settles|]. intros _.
  apply take_profit_settles; lia.
Qed.

(** ** Payments

    What the receiver of a payment does with the two paid amounts. *)
Record Credits (k n paid paid2 : Z) s s' : Prop := {
  credits_move : exists c funding,
    - k <= funding <= n
    /\ Moved (pr_market s) c (pr_market s') /\ unledgered c
    /\ forall w, fair w ->
         weigh w (held_change c) + weigh w (owed (pr_report s'))
         = weigh w (owed (pr_report s)) + w (is_output_token_long env) * (paid - funding)
           + w (is_pnl_token_long env) * paid2;
  credits_report : ReportWf (pr_report s');
  credits_collateral :
    remaining_collateral_amount (pr_report s') = remaining_collateral_amount (pr_report s);
}.

Lemma credits_trans k k' n n' p p' q q' s s1 s' :
  Credits k n p q s s1 -> Credits k' n' p' q' s1 s' ->
  Credits (k + k') (n + n') (p + p') (q + q') s s'.
Proof.
  intros [(c & f & Hf & Hm & Hu & Hw) _ Hc] [(c' & f' & Hf' & Hm' & Hu' & Hw') Hr Hc'].
  split; [|done|lia]. exists (c + c')%change, (f + f').
  split_and!; [lia|lia|by eapply moved_trans|by apply unledgered_plus|].
  intros w Hfair. rewrite weigh_held_plus. specialize (Hw w Hfair). specialize (Hw' w Hfair). lia.
Qed.

Lemma credits_refl s : ProcessorWf s -> Credits 0 0 0 0 s s.
Proof.
  intros Hwf. destruct (settled_refl s Hwf) as [(c & f & Hf & Hm & Hu & Hw) Hr _].
  split; [|done|done]. exists c, f. split_and!; [lia|lia|done|done|].
  intros w Hfair. specialize (Hw w Hfair). lia.
Qed.

Lemma credits_wf k n p q s s' : Credits k n p q s s' -> ProcessorWf s -> ProcessorWf s'.
Proof. intros [(c & f & _ & Hm & _) Hr _] [Hwf _]. split; [by eapply moved_wf|done]. Qed.

Section Environment.
Hypothesis output_price_pos : 0 < price_min (output_token_price env).
Hypothesis pnl_price_pos : 0 < price_min (pnl_token_price env).

Lemma pay_for_cost_settles k n cost receive step :
  0 <= cost ->
  (forall c q left, quiet (receive c q left)) ->
  (forall c q left s s' r0, ProcessorWf s -> Payment env r0 (pr_report s) cost left c q ->
     receive c q left s = (s', Ok tt) -> Credits k n c q s s') ->
  settles k n (pay_for_cost env cost receive step).
Proof.
  intros Hcost Hq Hrec s s' res [Hwf Hrep] Hr Ho. unfold pay_for_cost in Hr.
  apply sbind_quiet in Hr as (s1 & [[[r left] c] q] & Hx & Hr); [|intros ?; apply calm_do_pay|done].
  apply sread_ok in Hx as [-> Hx]. apply do_pay_for_cost_ok in Hx; [|done..].
  apply sbind_quiet in Hr as (s1 & u1 & H1 & Hr); [|quiet|done].
  apply on_report_ok in H1 as (r1 & [= <-] & ->).
  apply sbind_quiet in Hr as (s2 & [] & H2 & Hr); [|done|done].
  apply (Hrec c q left _ _ (pr_report s)) in H2; [|by split; [|apply (payment_wf _ _ _ _ _ _ _ Hx)]|done].
  assert (s' = s2) as ->.
  { destruct (negb (is_zero left)); by injection Hr as <- _. }
  destruct H2 as [(ch & f & Hf & Hm & Hu & Hw) Hrw Hcoll]. simpl in *.
  destruct Hx as [Hrest _ Hsum Hsec _ Hle _ _ _ _].
  split; [|done|lia]. exists ch, f. split_and!; [lia|lia|done|done|].
  intros w Hfair. specialize (Hw w Hfair). rewrite !weigh_owed in *.
  rewrite Hrest in Hw. simpl in Hw. lia.
Qed.

(** A payment into the liquidity pool, on either side. *)
Lemma apply_delta_credits b x s s' u :
  ProcessorWf s -> on_pool (apply_delta b x) s = (s', Ok u) ->
  exists m', Moved (pr_market s) (change_at Primary b x) m'
    /\ s' = mkProcessor m' (pr_report s) (pr_fees s) (pr_swap_result s).
Proof.
  intros [Hwf _] Hr. apply on_pool_ok in Hr as (m' & Hr & ->). apply apply_delta_moved in Hr; eauto.
Qed.

Lemma output_pool_credits x s s' u :
  ProcessorWf s -> on_pool (apply_delta (is_output_token_long env) x) s = (s', Ok u) -> Credits 0 0 x 0 s s'.
Proof.
  intros Hwf Hr. apply apply_delta_credits in Hr as (m' & Hm & ->); [|done].
  split; [|apply Hwf|done]. exists (change_at Primary (is_output_token_long env) x), 0.
  split_and!; [lia|lia|done|by apply unledgered_at|]. intros w _. rewrite weigh_held_at. simpl. lia.
Qed.

Lemma pnl_pool_credits x s s' u :
  ProcessorWf s -> on_pool (apply_delta (is_pnl_token_long env) x) s = (s', Ok u) -> Credits 0 0 0 x s s'.
Proof.
  intros Hwf Hr. apply apply_delta_credits in Hr as (m' & Hm & ->); [|done].
  split; [|apply Hwf|done]. exists (change_at Primary (is_pnl_token_long env) x), 0.
  split_and!; [lia|lia|done|by apply unledgered_at|]. intros w _. rewrite weigh_held_at. simpl. lia.
Qed.

Lemma receiver_credits x s s' u :
  ProcessorWf s ->
  on_pool (apply_delta_to_claimable_fee_pool (is_output_token_long env) x) s = (s', Ok u) ->
  Credits 0 0 x 0 s s'.
Proof.
  intros [Hwf Hrep] Hr. apply on_pool_ok in Hr as (m' & Hr & ->).
  apply apply_delta_to_claimable_fee_pool_moved in Hr; [|done].
  split; [|done|done]. exists (change_at ClaimableFee (is_output_token_long env) x), 0.
  split_and!; [lia|lia|done|by apply unledgered_at|]. intros w _. rewrite weigh_held_at. simpl. lia.
Qed.

Lemma impact_pool_credits d s s' u :
  ProcessorWf s -> on_pool (apply_delta_to_position_impact_pool d) s = (s', Ok u) -> Credits 0 0 0 0 s s'.
Proof.
  intros [Hwf Hrep] Hr. apply on_pool_ok in Hr as (m' & Hr & ->).
  apply apply_delta_to_position_impact_pool_moved in Hr; [|done].
  split; [|done|done]. exists (change_at PositionImpact true d), 0.
  split_and!; [lia|lia|done|by apply unledgered_at|]. intros w _. rewrite weigh_held_at. simpl. lia.
Qed.

Lemma fees_credits f s s' u : ProcessorWf s -> set_processor_fees f s = (s', Ok u) -> Credits 0 0 0 0 s s'.
Proof.
  intros Hwf Hr. apply smodify_ok in Hr as ->. by apply (credits_refl s) in Hwf as [??].
Qed.

Lemma pay_to_primary_pool_credits x y s s' u :
  ProcessorWf s -> pay_to_primary_pool env x y s = (s', Ok u) -> Credits 0 0 x y s s'.
Proof.
  intros Hwf Hr. unfold pay_to_primary_pool in Hr. unfold_num_tests.
  apply sbind_ok in Hr as (s1 & u1 & H1 & Hr).
  assert (Hx : Credits 0 0 x 0 s s1).
  { case_if_in H1 Hz; [by eapply output_pool_credits|]. apply sret_ok in H1 as [-> _]. bool_to_prop.
    subst x. by apply credits_refl. }
  assert (Hy : Credits 0 0 0 y s1 s').
  { case_if_in Hr Hz; [by eapply pnl_pool_credits; [eapply credits_wf|]|].
    apply sret_ok in Hr as [-> _]. bool_to_prop. subst y. apply credits_refl. by eapply credits_wf. }
  pose proof (credits_trans _ _ _ _ _ _ _ _ _ _ _ Hx Hy) as Hall. by rewrite !Z.add_0_l, Z.add_0_r in Hall.
Qed.

Lemma pay_signed_credits x y s s' u :
  ProcessorWf s -> pay_signed_to_primary_pool env x y s = (s', Ok u) -> Credits 0 0 x y s s'.
Proof.
  intros Hwf Hr. unfold pay_signed_to_primary_pool in Hr.
  apply sbind_ok in Hr as (? & a & Ha & Hr). apply slift_ok in Ha as [-> Ha].
  apply to_signed_ok in Ha as [-> _].
  apply sbind_ok in Hr as (? & b & Hb & Hr). apply slift_ok in Hb as [-> Hb].
  apply to_signed_ok in Hb as [-> _]. by eapply pay_to_primary_pool_credits.
Qed.

Lemma credit_impact_credits x price msg s s' u :
  ProcessorWf s -> credit_impact_pool env x price msg s = (s', Ok u) -> Credits 0 0 0 0 s s'.
Proof.
  intros Hwf Hr. unfold credit_impact_pool in Hr. case_if_in Hr Hz.
  - apply sbind_ok in Hr as (? & a & Ha & Hr). apply slift_ok in Ha as [-> Ha].
    apply sbind_ok in Hr as (? & b & Hb & Hr). apply slift_ok in Hb as [-> Hb].
    by eapply impact_pool_credits.
  - apply sret_ok in Hr as [-> _]. by apply credits_refl.
Qed.

Lemma quiet_pay_to_primary_pool x y : quiet (pay_to_primary_pool (P:=P) (T:=T) env x y).
Proof. unfold pay_to_primary_pool. quiet. Qed.
Lemma quiet_pay_signed x y : quiet (pay_signed_to_primary_pool (P:=P) (T:=T) env x y).
Proof. unfold pay_signed_to_primary_pool. quiet. Qed.
Lemma quiet_credit_impact x price msg : quiet (credit_impact_pool (P:=P) (T:=T) env x price msg).
Proof. unfold credit_impact_pool. quiet. Qed.

Lemma pay_for_pnl_settles pnl : settles 0 0 (pay_for_pnl_if_negative env pnl).
Proof.
  unfold pay_for_pnl_if_negative. unfold_num_tests. case_if Hneg; [|apply settles_sret].
  apply pay_for_cost_settles; [lia|intros; apply quiet_pay_signed|].
  intros c q left s s' r0 Hwf _ Hr. by eapply pay_signed_credits.
Qed.

Lemma pay_for_impact_settles impact : settles 0 0 (pay_for_price_impact_if_negative env impact).
Proof.
  unfold pay_for_price_impact_if_negative. unfold_num_tests. case_if Hneg; [|apply settles_sret].
  apply pay_for_cost_settles; [lia|intros; quiet; first [apply quiet_pay_signed|apply quiet_credit_impact]|].
  intros c q left s s' r0 Hwf _ Hr.
  apply sbind_ok in Hr as (s1 & u1 & H1 & Hr). apply pay_signed_credits in H1; [|done].
  pose proof (credits_wf _ _ _ _ _ _ H1 Hwf) as Hwf1.
  apply sbind_ok in Hr as (s2 & u2 & H2 & Hr). apply credit_impact_credits in H2; [|done].
  pose proof (credits_wf _ _ _ _ _ _ H2 Hwf1) as Hwf2. apply credit_impact_credits in Hr; [|done].
  pose proof (credits_trans _ _ _ _ _ _ _ _ _ _ _ (credits_trans _ _ _ _ _ _ _ _ _ _ _ H1 H2) Hr) as Hall.
  by rewrite !Z.add_0_r in Hall.
Qed.

(** Amounts that are set aside for claims. *)
Lemma try_add_ok c x b c' :
  try_add_amount c x b = Ok c' ->
  output_token_amount c' = output_token_amount c + (if b then x else 0)
  /\ secondary_output_token_amount c' = secondary_output_token_amount c + (if b then 0 else x).
Proof. unfold try_add_amount. intros Hr. destruct b; code_inv; simpl; lia. Qed.

Lemma for_user_credits x b s s' u :
  ProcessorWf s ->
  on_report (fun r => let! c := try_add_amount (for_user r) x b in Ok (set_for_user r c)) s = (s', Ok u) ->
  Credits 0 0 (if b then x else 0) (if b then 0 else x) s s'.
Proof.
  intros [Hwf [? ? ?]] Hr. apply on_report_ok in Hr as (r & Hr & ->).
  apply rbind_ok in Hr as (c & Hc & [= <-]). apply try_add_ok in Hc as [Ho Hs].
  split; simpl; [|by split|done]. exists no_change, 0.
  split_and!; [lia|lia|by apply moved_refl|done|]. intros w _.
  rewrite !weigh_owed. simpl. rewrite Ho, Hs. unfold weigh, held_change, no_change. lia.
Qed.

Lemma for_holding_credits x s s' u :
  ProcessorWf s ->
  on_report (fun r => let! c := try_add_amount (for_holding r) x false in Ok (set_for_holding r c)) s
  = (s', Ok u) ->
  Credits 0 0 0 x s s'.
Proof.
  intros [Hwf [? ? ?]] Hr. apply on_report_ok in Hr as (r & Hr & ->).
  apply rbind_ok in Hr as (c & Hc & [= <-]). apply try_add_ok in Hc as [Ho Hs].
  split; simpl; [|by split|done]. exists no_change, 0.
  split_and!; [lia|lia|by apply moved_refl|done|]. intros w _.
  rewrite !weigh_owed. simpl. rewrite Ho, Hs. unfold weigh, held_change, no_change. lia.
Qed.

Lemma pay_for_funding_settles fees :
  0 <= funding_fee_amount fees -> settles 0 (funding_fee_amount fees) (pay_for_funding_fees env fees).
Proof.
  intros Hf. unfold pay_for_funding_fees, pick_price. unfold_num_tests.
  case_if Hz; [|bool_to_prop; rewrite Hz; apply settles_sret].
  apply settles_slift; [by apply calm_ok_or|]. intros cost Hcost.
  apply ok_or_ok, umul_some in Hcost as [-> Hu]. unfold in_u in Hu.
  apply pay_for_cost_settles; [lia|intros; quiet|].
  intros c q left s s' r0 Hwf Hpay Hr.
  assert (Hq : Credits 0 0 0 q s s').
  { case_if_in Hr Hzq; [by eapply for_holding_credits|]. apply sret_ok in Hr as [-> _].
    bool_to_prop. subst q. by apply credits_refl. }
  destruct Hq as [(ch & f & Hfb & Hm & Hun & Hw) Hrep Hcoll].
  pose proof (payment_nonneg _ _ _ _ _ _ _ Hpay). pose proof (payment_covers _ _ _ _ _ _ _ Hpay) as [_ Hcov].
  assert (c < funding_fee_amount fees + 1) by nia.
  split; [|done|done]. exists ch, (f + c). split_and!; [lia|lia|done|done|].
  intros w Hfair. specialize (Hw w Hfair). lia.
Qed.

(** The unpaid part of the fees that rounds to nothing in the pnl token. *)
Definition fee_shortfall : Z := (price_min (pnl_token_price env) - 1) / price_min (output_token_price env).

Lemma fee_shortfall_nonneg : 0 <= fee_shortfall.
Proof. apply div_nonneg; lia. Qed.

Lemma fees_split fees cost pool receiver :
  total_cost_excluding_funding fees = Ok cost -> for_pool fees = Ok pool -> for_receiver fees = Ok receiver ->
  cost = pool + receiver.
Proof.
  unfold total_cost_excluding_funding, for_pool, for_receiver, liquidation_fee_amount_for_pool,
    borrowing_fee_amount_for_pool. intros Hc Hp Hr.
  destruct (fees_liquidation fees); code_inv; lia.
Qed.

(** When the fees are fully paid in the output token the pools are credited with the whole
    cost. The payment may fall short of it by what is worth less than one unit of the
    pnl token, which the conversion to that token rounds to nothing. *)
Lemma pay_for_fees_settles : settles fee_shortfall 0 (pay_for_fees_excluding_funding env).
Proof.
  pose proof fee_shortfall_nonneg as Hshort.
  unfold pay_for_fees_excluding_funding, pick_price. unfold_num_tests. apply settles_sget. intros s0.
  apply settles_slift; [apply calm_total_cost|]. intros cost_amount Hcost.
  case_if Hz; [|intros s s' r Hwf [= <- <-] _; destruct (settled_refl s Hwf) as [(ch & f & ? & ?) ??];
    split; [exists ch, f; split; [lia|done]|done|done]].
  apply settles_slift; [by apply calm_ok_or|]. intros cost Hc.
  apply ok_or_ok, umul_some in Hc as [-> Hu]. unfold in_u in Hu.
  apply pay_for_cost_settles; [lia|intros c q left; quiet; apply quiet_pay_signed|].
  intros c q left s s' r0 Hwf Hpay Hr. case_if_in Hr Hfull; bool_to_prop.
  - subst left q.
    apply sbind_ok in Hr as (? & pool & Hpool & Hr). apply slift_ok in Hpool as [-> Hpool].
    apply sbind_ok in Hr as (? & x & Hx & Hr). apply slift_ok in Hx as [-> Hx].
    apply to_signed_ok in Hx as [-> _].
    apply sbind_ok in Hr as (s1 & u1 & H1 & Hr). apply output_pool_credits in H1; [|done].
    apply sbind_ok in Hr as (? & receiver & Hrec & Hr). apply slift_ok in Hrec as [-> Hrec].
    apply sbind_ok in Hr as (? & y & Hy & Hr). apply slift_ok in Hy as [-> Hy].
    apply to_signed_ok in Hy as [-> _].
    apply receiver_credits in Hr; [|by eapply credits_wf].
    pose proof (credits_trans _ _ _ _ _ _ _ _ _ _ _ H1 Hr) as [(ch & f & Hfb & Hm & Hun & Hw) Hrep Hcoll].
    pose proof (fees_split _ _ _ _ Hcost Hpool Hrec) as Hsplit.
    pose proof (payment_covers _ _ _ _ _ _ _ Hpay) as [Hlo Hhi].
    assert (c < cost_amount + 1) by nia.
    assert (cost_amount - c <= fee_shortfall).
    { apply Z.div_le_lower_bound; lia. }
    split; [|done|done]. exists ch, (f + (c - cost_amount)). split_and!; [lia|lia|done|done|].
    intros w Hfair. specialize (Hw w Hfair). rewrite Hsplit in *. lia.
  - apply sbind_ok in Hr as (s1 & u1 & H1 & Hr). apply pay_signed_credits in H1; [|done].
    pose proof (credits_wf _ _ _ _ _ _ H1 Hwf) as Hwf1.
    apply sbind_ok in Hr as (s2 & u2 & H2 & Hr). apply fees_credits in H2; [|done].
    pose proof (credits_wf _ _ _ _ _ _ H2 Hwf1) as Hwf2. apply fees_credits in Hr; [|done].
    pose proof (credits_trans _ _ _ _ _ _ _ _ _ _ _ (credits_trans _ _ _ _ _ _ _ _ _ _ _ H1 H2) Hr)
      as [(ch & f & ? & ?) ??]. rewrite !Z.add_0_r in *.
    split; [exists ch, f; split; [lia|done]|done|done].
Qed.

Lemma pay_for_diff_settles d : 0 <= d -> settles 0 0 (pay_for_price_impact_diff env d).
Proof.
  intros Hd. unfold pay_for_price_impact_diff. unfold_num_tests. case_if Hz; [|apply settles_sret].
  apply pay_for_cost_settles; [done|intros; quiet|].
  intros c q left s s' r0 Hwf _ Hr. apply sbind_ok in Hr as (s1 & u1 & H1 & Hr).
  assert (Hx : Credits 0 0 c 0 s s1).
  { case_if_in H1 Hzc; [by apply for_user_credits in H1|]. apply sret_ok in H1 as [-> _].
    bool_to_prop. subst c. by apply credits_refl. }
  pose proof (credits_wf _ _ _ _ _ _ Hx Hwf) as Hwf1.
  assert (Hy : Credits 0 0 0 q s1 s').
  { case_if_in Hr Hzq; [by apply for_user_credits in Hr|]. apply sret_ok in Hr as [-> _].
    bool_to_prop. subst q. by apply credits_refl. }
  pose proof (credits_trans _ _ _ _ _ _ _ _ _ _ _ Hx Hy) as Hall. by rewrite !Z.add_0_l, Z.add_0_r in Hall.
Qed.

(** ** The swap of the profit *)
Hypothesis prices_range : prices_in_range (env_prices env).
Hypothesis prices_ord : prices_ordered (env_prices env).

Lemma swap_change_unledgered b pin pout di do fee : unledgered (swap_change b pin pout di do fee).
Proof. intros k side [Hk| ->]; [|done]. by destruct k. Qed.

Lemma weigh_swap_change w b pin pout di do fee :
  weigh w (held_change (swap_change b pin pout di do fee))
  = w b * (pin + di + fee) + w (negb b) * (pout + do).
Proof. unfold weigh, held_change, swap_change. destruct b; simpl; lia. Qed.

Lemma recorded_swap_settles k n s m' res : 0 <= k -> 0 <= n ->
  ProcessorWf s -> m' = pr_market s ->
  Settled k n s (mkProcessor m' (pr_report s) (pr_fees s) (Some res)).
Proof.
  intros Hk Hn [Hwf Hrep] ->. split; [|done|done]. exists no_change, 0. simpl.
  split_and!; [lia|lia|by apply moved_refl|done|]. intros w _. unfold weigh, held_change, no_change. lia.
Qed.

Lemma swap_profit_settles ty : settles 0 0 (swap_profit_to_collateral_tokens env ty).
Proof.
  apply quiet_settles.
  { intros s. unfold swap_profit_to_collateral_tokens, sbind at 1, sget. case_if Hgo; [|done].
    case_if Hsame; [done|]. unfold sbind, stry, on_pool, szoom.
    destruct (swap _ _ _ _) as [m' [a|e|msg]]; [|done..].
    match goal with |- context [on_report ?f ?s0] =>
      pose proof (quiet_on_report f ltac:(intros; calm) s0); destruct (on_report f s0) as [s1 [?|?|?]] end;
      done. }
  intros s s' Hwf Hr. unfold swap_profit_to_collateral_tokens in Hr.
  apply sbind_ok in Hr as (? & ? & Hget & Hr). apply sget_ok in Hget as [-> ->].
  case_if_in Hr Hgo; [|apply sret_ok in Hr as [-> _]; by apply settled_refl].
  case_if_in Hr Hsame; [discriminate|].
  assert (Hside : is_output_token_long env = negb (is_pnl_token_long env))
    by (by destruct (is_pnl_token_long env), (is_output_token_long env)).
  apply sbind_ok in Hr as (s1 & res & Hres & Hr). apply stry_ok in Hres as [Hres Hpanic].
  destruct res as [report|e|msg]; [| |done].
  - apply on_pool_ok in Hres as (m' & Hswap & ->).
    apply swap_moves in Hswap as (pin & pout & di & do & Hm & Hin & Hout); [|apply Hwf|done..].
    apply sbind_ok in Hr as (s2 & u & Hrep & Hr). apply on_report_ok in Hrep as (rep & Hrep & ->).
    apply smodify_ok in Hr as ->. simpl in *.
    apply rbind_ok in Hrep as (v & Hv & [= <-]). apply ok_or_ok, uadd_some in Hv as [-> Hu].
    destruct Hwf as [Hwf [? ? ?]]. unfold in_u in Hu.
    split; simpl; [|split; simpl; lia|lia].
    exists (swap_change (is_pnl_token_long env) pin (- pout) di do
              (fee_amount_for_receiver (token_in_fees (swap_result report)))), 0.
    split_and!; [lia|lia|done|apply swap_change_unledgered|].
    intros w _. rewrite weigh_swap_change, !weigh_owed. simpl. rewrite Hin, Hside.
    replace (- pout + do) with (- token_out_amount (swap_result report)) by lia. lia.
  - apply smodify_ok in Hr as ->. unfold on_pool, szoom in Hres.
    destruct (swap _ _ _ _) as [m' r'] eqn:Hswap. injection Hres as <- ->.
    simpl. apply recorded_swap_settles; [done|done|done|]. by eapply swap_failure.
Qed.

(** ** The whole settlement *)
Lemma settle_settles ty pnl impact d s s' r :
  0 <= d -> 0 <= funding_fee_amount (fees_funding (pr_fees s)) ->
  ProcessorWf s -> settle env ty pnl impact d s = (s', r) -> outcome r ->
  Settled fee_shortfall (funding_fee_amount (fees_funding (pr_fees s))) s s'.
Proof.
  intros Hd Hf Hwf Hr Ho. pose proof fee_shortfall_nonneg.
  assert (0 <= price_max (pnl_token_price env)).
  { destruct prices_ord as (_ & Hl & Hs). unfold price_ordered in Hl, Hs. unfold pnl_token_price in *.
    destruct (is_pnl_token_long env); lia. }
  unfold settle in Hr. unfold sbind at 1, sget in Hr. set (fees := fees_funding (pr_fees s)) in *.
  replace fee_shortfall with (0 + (0 + (0 + (0 + (0 + (fee_shortfall + (0 + 0))))))) by lia.
  replace (funding_fee_amount fees)
    with (0 + (0 + (0 + (funding_fee_amount fees + (0 + (0 + (0 + 0))))))) by lia.
  revert Hwf Hr Ho. revert s s' r fees Hf. intros s s' r fees Hf.
  repeat (apply settles_bind; [lia|lia| |intros _]).
  - by apply add_pnl_if_positive_settles.
  - by apply add_price_impact_settles.
  - apply swap_profit_settles.
  - by apply pay_for_funding_settles.
  - apply pay_for_pnl_settles.
  - apply pay_for_fees_settles.
  - apply pay_for_impact_settles.
  - by apply pay_for_diff_settles.
Qed.

Lemma process_ok allowed f s s' rep :
  process allowed f s = (s', Ok rep) ->
  exists r, f s = (s', r) /\ outcome r
    /\ rep = into_report (pr_report s') (insolvent_close_step rep)
    /\ (insolvent_close_step rep = None <-> r = Ok tt)
    /\ (insolvent_close_step rep <> None -> allowed = true).
Proof.
  unfold process. intros Hr. apply sbind_ok in Hr as (s1 & res & Hres & Hr).
  apply stry_ok in Hres as [Hres _].
  apply sbind_ok in Hr as (? & ? & Hget & Hr). apply sget_ok in Hget as [-> ->].
  destruct res as [[]|e|msg]; [|destruct e; try discriminate|discriminate].
  - apply sret_ok in Hr as [-> ->]. exists (Ok tt). split_and!; [done|by left|done|done|done].
  - case_if_in Hr Hal; [|discriminate]. apply sret_ok in Hr as [-> ->].
    exists (Err (InsufficientFundsToPayForCosts step)). split_and!; [done|by right; eauto|done|done|done].
Qed.
End Environment.
End SettleFacts.

(** ** Properties *)
Section ProcessorTheorems.
Context {I : UInt} {IOk : UIntOk I} {F : FixedPointOps I} {FOk : FixedPointOk F}
  {P T : Type} {O : PoolOps P} {L : PoolLaws I P} {S : SupplyOps T} {SL : SupplyLaws T}.
Implicit Types (m : Market P T).

(** Paying a cost out of a closing position. The payment is taken first from the output
    amount, then from the collateral and last, converted, from the secondary output; nothing is
    lost on the way; what remains unpaid is positive only when all three are exhausted; and the
    paid tokens and the unpaid rest are worth the cost at the low prices, up to less than
    one token of rounding either way. *)
Theorem do_pay_for_cost_spec env r cost r' cost' paid paid2 :
  ReportWf r -> 0 <= cost ->
  0 < price_min (output_token_price env) -> 0 < price_min (pnl_token_price env) ->
  do_pay_for_cost env r cost = Ok (r', cost', paid, paid2) ->
  Payment env r r' cost cost' paid paid2.
Proof. apply do_pay_for_cost_ok. Qed.

(** The amounts of the position's owner at the end of the settlement. *)
Definition claims (c : ClaimableCollateral) : Z := output_token_amount c + secondary_output_token_amount c.
Definition owed_total (r : ProcessResult) : Z :=
  output_amount r + secondary_output_amount r + remaining_collateral_amount r
  + claims (for_holding r) + claims (for_user r).

(** Settling a decrease conserves tokens. The token pools of the market together with what is
    handed to the owner, set aside for claims or left as collateral are what they were together
    with the initial collateral, except for the funding fee, which stays in the vault; in total
    always, and per token when the two tokens differ. Nothing else of the market changes but the
    impact pool, also when the close is insolvent, which happens only where it is
    allowed. The fee pools may be credited a shortfall worth less than one unit of the
    pnl token. *)
Theorem process_conserves env allowed ty pnl impact d m c fees s' r :
  market_wf m -> prices_in_range (env_prices env) -> prices_ordered (env_prices env) ->
  0 < price_min (output_token_price env) -> 0 < price_min (pnl_token_price env) ->
  0 <= c -> 0 <= d -> 0 <= funding_fee_amount (fees_funding fees) ->
  process allowed (settle env ty pnl impact d) (mkProcessor m (initial_report c) fees None)
  = (s', Ok r) ->
  let m' := pr_market s' in
  exists funding,
    - fee_shortfall env <= funding <= funding_fee_amount (fees_funding fees)
    /\ held m' true + held m' false + owed_total r = held m true + held m false + c - funding
    /\ (tokens_impure m ->
        (are_pnl_and_output_tokens_the_same env = true ->
           is_output_token_long env = is_pnl_token_long env) ->
        forall side, held m' side + owed env r side
          = held m side + (if Bool.eqb side (is_output_token_long env) then c - funding else 0))
    /\ remaining_collateral_amount r <= c
    /\ m' = set_pools m (m_pools m')
    /\ (insolvent_close_step r <> None -> allowed = true).
Proof.
  intros Hwf Hrange Hord Ho Hp Hc Hd Hf Hr. cbv zeta.
  apply process_ok in Hr as (res & Hrun & Hout & Hrep & _ & Hal).
  assert (Hpwf : ProcessorWf (mkProcessor m (initial_report c) fees None))
    by (split; [done|split; simpl; lia]).
  apply settle_settles in Hrun as [(ch & fund & Hb & Hm & _ & Hw) _ Hcoll]; [|done..]. simpl in *.
  exists fund. split_and!; [lia|lia| | |rewrite Hrep; simpl; lia|apply Hm|done].
  - rewrite (held_total _ _ _ Hm). specialize (Hw (fun _ => 1) ltac:(done)).
    rewrite !weigh_owed in Hw. unfold weigh in Hw. rewrite Hrep. unfold owed_total, claims. simpl in *. lia.
  - intros Himp Hsame side. rewrite (held_side _ _ _ _ Hm Himp).
    specialize (Hw (fun b => if Bool.eqb side b then 1 else 0)). unfold weigh in Hw.
    rewrite Hrep. unfold owed in *. simpl in *.
    assert (Hfair : fair env (fun b => if Bool.eqb side b then 1 else 0))
      by (intros Hs; by rewrite (Hsame Hs)).
    specialize (Hw Hfair). clear Hfair.
    destruct side, (is_output_token_long env), (is_pnl_token_long env); simpl in *; lia.
Qed.
End ProcessorTheorems.

(** ** Examples *)
Section Examples.
#[local] Existing Instance u64.
#[local] Existing Instance test_num.

(** A long position with short collateral. *)
Definition example_env : ProcessorEnv := mkProcessorEnv example_prices false true false.
Definition example_fees : PositionFees :=
  mkPositionFees 100 (mkOrderFees (mkFees 40 60) 100) (mkBorrowingFees 0 0) (mkFundingFees 30 0 0) None.

Example do_pay_for_cost_spec_example :
  Payment example_env (initial_report 1000) (set_amounts (initial_report 1000) 0 700 0) 300 0 300 0.
Proof.
  apply (do_pay_for_cost_spec example_env (initial_report 1000) 300
    (set_amounts (initial_report 1000) 0 700 0) 0 300 0);
    [split; vm_compute; discriminate|lia|reflexivity|reflexivity|vm_compute; reflexivity].
Defined.

Definition example_settlement : Processor TestPool Z :=
  fst (process false (settle example_env PnlTokenToCollateralToken 5000 (-300) 20)
         (mkProcessor example_market (initial_report 1000) example_fees None)).

Definition example_settlement_result : ProcessResult :=
  mkProcessResult 4429 0 1000 (mkClaimableCollateral 0 0) (mkClaimableCollateral 20 0) None.

Lemma example_settlement_ok :
  process false (settle example_env PnlTokenToCollateralToken 5000 (-300) 20)
    (mkProcessor example_market (initial_report 1000) example_fees None)
  = (example_settlement, Ok example_settlement_result).
Proof. vm_compute. reflexivity. Qed.

Example process_conserves_example :
  exists funding, -118 <= funding <= 30
    /\ held (pr_market example_settlement) true + held (pr_market example_settlement) false
       + (4429 + 1000 + 20) = held example_market true + held example_market false + 1000 - funding.
Proof.
  destruct (process_conserves example_env false PnlTokenToCollateralToken 5000 (-300) 20
    example_market 1000 example_fees example_settlement example_settlement_result
    example_market_wf example_prices_in_range example_prices_ordered)
    as (funding & Hb & Ht & _);
    [reflexivity|reflexivity|lia|lia|vm_compute; discriminate|exact example_settlement_ok|].
  exists funding. split; [exact Hb|exact Ht].
Defined.

(** The shortfall is real: with 50 of the 100 output tokens that the fees cost, and a pnl token
    worth more than the other 50, the whole fees are credited to the pools, the payment counts as
    complete and no insolvency is reported. *)
Example fees_credited_beyond_payment :
  let start := mkProcessor example_market (initial_report 50)
    (mkPositionFees 100 (mkOrderFees (mkFees 40 60) 100) (mkBorrowingFees 0 0)
       (mkFundingFees 0 0 0) None) None in
  exists s', process false (settle example_env NoSwap 0 0 0) start
             = (s', Ok (mkProcessResult 0 0 0 ClaimableCollateral_default ClaimableCollateral_default None))
  /\ held (pr_market s') false = held example_market false + 100.
Proof. eexists. split; vm_compute; reflexivity. Qed.
End Examples.
