(* ===== verification/IncreasePosition.v ===== *)
(** * Increasing a position ([crates/gmsol-model/src/action/increase_position.rs])

    [IncreasePosition::try_new] and [execute] with its steps, and what it promises: the
    collateral that comes in is the position's plus fees, the pools of the market follow the
    position, the execution price respects the limit of the order, and the position is
    healthy afterwards. *)
From S2P Require Import Prelude Kinds Num Fixed Price Params Pool Market TestMarket MarketFacts.
From S2P Require Import Position Ledger.

Record IncreasePositionParams : Type := mkIncreasePositionParams {
  increase_collateral_increment_amount : Z;
  increase_size_delta_usd : Z;
  increase_acceptable_price : option Z;
  increase_prices : Prices;
}.

Record IncreaseExecutionParams : Type := mkIncreaseExecution {
  price_impact_value : Z;
  price_impact_amount : Z;
  size_delta_in_tokens : Z;
  execution_price : Z;
}.

Record IncreasePositionReport : Type := mkIncreasePositionReport {
  increase_report_params : IncreasePositionParams;
  increase_report_execution : IncreaseExecutionParams;
  increase_report_collateral_delta_amount : Z;
  increase_report_fees : PositionFees;
  increase_report_claimable_funding_long_token_amount : Z;
  increase_report_claimable_funding_short_token_amount : Z;
}.

(** [IncreasePositionReport::new]. *)
Definition increase_report_new (params : IncreasePositionParams) (execution : IncreaseExecutionParams)
    (collateral_delta_amount : Z) (fees : PositionFees) : IncreasePositionReport :=
  mkIncreasePositionReport params execution collateral_delta_amount fees
    (claimable_long_token_amount (fees_funding fees))
    (claimable_short_token_amount (fees_funding fees)).

Section IncreasePosition.
Context {I : UInt} {F : FixedPointOps I} {P T : Type} {O : PoolOps P} {S : SupplyOps T}.
Implicit Type params : IncreasePositionParams.

Definition increase_position_try_new (prices : Prices) (collateral_increment_amount size_delta_usd : Z)
    (acceptable_price : option Z) : result IncreasePositionParams :=
  if negb (prices_is_valid prices) then Err (InvalidArgument "invalid prices")
  else Ok (mkIncreasePositionParams collateral_increment_amount size_delta_usd acceptable_price prices).

Definition initialize_position_if_empty : PM P T unit :=
  do! s := sget in
  if is_zero (size_in_usd (ps_position s)) then
    do! _ := on_position (fun p => set_size_in_tokens p 0) in
    update_funding_state_of_position
  else sret tt.

Definition get_execution_price_for_increase (size_delta_usd size_delta_in_tokens : Z)
    (acceptable_price : option Z) (is_long : bool) : result Z :=
  if is_zero size_delta_usd then Err (Computation "empty size delta in tokens")
  else
    let! execution_price := ok_or (udiv size_delta_usd size_delta_in_tokens)
                              (Computation "calculating execution price") in
    match acceptable_price with
    | None => Ok execution_price
    | Some acceptable_price =>
        if (is_long && (execution_price <=? acceptable_price))
           || (negb is_long && (acceptable_price <=? execution_price))
        then Ok execution_price
        else Err (InvalidArgument "order not fulfillable at acceptable price")
    end.

(** The price impact in tokens, rounded against the position. *)
Definition increase_price_impact_amount (index_token_price : Price) (price_impact_value : Z)
    : result Z :=
  if is_positive price_impact_value then
    let! price := ok_or (try_i (pick_price index_token_price true)) Convert in
    ok_or (idiv price_impact_value price) (Computation "calculating price impact amount")
  else
    ok_or (as_divisor_to_round_up_magnitude_div (pick_price index_token_price false)
             price_impact_value) (Computation "calculating price impact amount").

Definition base_size_delta_in_tokens (index_token_price : Price) (is_long : bool)
    (size_delta_usd : Z) : result Z :=
  if is_long then
    ok_or (udiv size_delta_usd (pick_price index_token_price true))
      (Computation "calculating size delta in tokens")
  else
    ok_or (checked_round_up_div size_delta_usd (pick_price index_token_price false))
      (Computation "calculating size delta in tokens").

Definition increase_get_execution_params params (market : Market P T) (position : Position)
    : result IncreaseExecutionParams :=
  let index_token_price := index_token_price (increase_prices params) in
  let size_delta_usd := increase_size_delta_usd params in
  if is_zero size_delta_usd then
    Ok (mkIncreaseExecution 0 0 0 (pick_price index_token_price (is_long position)))
  else
    let! signed_size := to_signed size_delta_usd in
    let! price_impact_value :=
      capped_positive_position_price_impact market position index_token_price signed_size in
    let! price_impact_amount := increase_price_impact_amount index_token_price price_impact_value in
    let! base := base_size_delta_in_tokens index_token_price (is_long position) size_delta_usd in
    let! size_delta_in_tokens :=
      ok_or (if is_long position then checked_add_with_signed base price_impact_amount
             else checked_sub_with_signed base price_impact_amount)
        (Computation "price impact larger than order size") in
    let! execution_price :=
      get_execution_price_for_increase size_delta_usd size_delta_in_tokens
        (increase_acceptable_price params) (is_long position) in
    Ok (mkIncreaseExecution price_impact_value price_impact_amount size_delta_in_tokens
          execution_price).

Definition increase_process_collateral params (price_impact_value : Z) : PM P T (Z * PositionFees) :=
  do! collateral_delta_amount := slift (to_signed (increase_collateral_increment_amount params)) in
  do! fees := pread (fun market position =>
    position_fees market position (collateral_price position (increase_prices params))
      (increase_size_delta_usd params) (is_positive price_impact_value) false) in
  do! cost := slift (total_cost_amount fees) in
  do! cost := slift (to_signed cost) in
  do! collateral_delta_amount := slift (ok_or (isub collateral_delta_amount cost)
    (Computation "applying fees to collateral amount")) in
  do! s := sget in
  let is_collateral_token_long := is_collateral_token_long (ps_position s) in
  do! receiver := slift (for_receiver fees) in
  do! receiver := slift (to_signed receiver) in
  do! _ := on_market (apply_delta_to_claimable_fee_pool is_collateral_token_long receiver) in
  do! pool := slift (for_pool fees) in
  do! pool := slift (to_signed pool) in
  do! _ := on_market (apply_delta is_collateral_token_long pool) in
  do! _ := on_market (update_pool (CollateralSum (is_long (ps_position s)))
    (fun p => apply_delta_amount p is_collateral_token_long collateral_delta_amount)) in
  sret (collateral_delta_amount, fees).

(** The checks at the end of [execute]. *)
Definition increase_validate params (market : Market P T) (position : Position) : result unit :=
  let prices := increase_prices params in
  let! _ :=
    (if negb (is_zero (increase_size_delta_usd params)) then
       let! _ := validate_reserve market prices (is_long position) in
       let! _ := validate_open_interest_reserve market prices (is_long position) in
       let delta := mkCollateralDelta (size_in_usd position) (collateral_amount position) 0 0 in
       let! will := will_collateral_be_sufficient market position prices delta in
       if negb (is_sufficient will) then Err (InvalidArgument "insufficient collateral usd")
       else Ok tt
     else Ok tt) in
  validate_position market position prices true true.

(** The middle of [execute]: the sizes, the borrowing and funding states and the open
    interest. *)
Definition increase_update_position params (execution : IncreaseExecutionParams) : PM P T unit :=
  do! next_position_size_in_usd := pread (fun _ position =>
    ok_or (uadd (size_in_usd position) (increase_size_delta_usd params))
      (Computation "size in usd overflow")) in
  do! next_position_borrowing_factor := pread (fun market position =>
    cumulative_borrowing_factor market (is_long position)) in
  do! _ := update_total_borrowing next_position_size_in_usd next_position_borrowing_factor in
  do! _ := on_position (fun p => set_size_in_usd p next_position_size_in_usd) in
  do! tokens := pread (fun _ position =>
    ok_or (uadd (size_in_tokens position) (size_delta_in_tokens execution))
      (Computation "size in tokens overflow")) in
  do! _ := on_position (fun p => set_size_in_tokens p tokens) in
  do! _ := update_funding_state_of_position in
  do! _ := on_position (fun p => set_borrowing_factor p next_position_borrowing_factor) in
  do! size := slift (to_signed (increase_size_delta_usd params)) in
  do! tokens := slift (to_signed (size_delta_in_tokens execution)) in
  update_open_interest size tokens.

Definition execute_increase params : PM P T IncreasePositionReport :=
  do! _ := initialize_position_if_empty in
  do! execution := pread (increase_get_execution_params params) in
  do! r := increase_process_collateral params (price_impact_value execution) in
  let (collateral_delta_amount, fees) := r in
  do! collateral := pread (fun _ position =>
    ok_or (checked_add_with_signed (collateral_amount position) collateral_delta_amount)
      (if is_positive collateral_delta_amount then Computation "collateral amount overflow"
       else InvalidArgument "insufficient collateral amount")) in
  do! _ := on_position (fun p => set_collateral_amount p collateral) in
  do! impact_delta := slift (ok_or (ineg (price_impact_amount execution))
    (Computation "calculating position impact pool delta amount")) in
  do! _ := on_market (apply_delta_to_position_impact_pool impact_delta) in
  do! _ := increase_update_position params execution in
  do! _ := pread (increase_validate params) in
  sret (increase_report_new params execution collateral_delta_amount fees).
End IncreasePosition.

Section IncreasePositionFacts.
Context {I : UInt} {IOk : UIntOk I} {F : FixedPointOps I} {FOk : FixedPointOk F}
  {P T : Type} {O : PoolOps P} {L : PoolLaws I P} {S : SupplyOps T} {SL : SupplyLaws T}.
Implicit Types (m : Market P T) (p : Position) (s : PState P T) (params : IncreasePositionParams).

Lemma initialize_ok s s' u :
  PositionWf (ps_position s) -> initialize_position_if_empty s = (s', Ok u) ->
  let p := ps_position s in let p' := ps_position s' in
  ps_market s' = ps_market s /\ same_kind p p'
  /\ size_in_usd p' = size_in_usd p /\ size_in_tokens p' = size_in_tokens p
  /\ collateral_amount p' = collateral_amount p
  /\ position_borrowing_factor p' = position_borrowing_factor p
  /\ (size_in_usd p = 0 -> funding_up_to_date (ps_market s') p').
Proof.
  intros Hp Hr. unfold initialize_position_if_empty in Hr.
  apply sbind_ok in Hr as (? & ? & Hget & Hr). apply sget_ok in Hget as [-> ->].
  unfold_num_tests. case_if_in Hr Hz; bool_to_prop.
  - apply sbind_ok in Hr as (s1 & ? & Hw & Hr). apply smodify_ok in Hw as ->.
    apply update_funding_state_ok in Hr as (Hm & Hf & f & cl & cs & Hp'). rewrite Hp' in *.
    simpl in *. unfold same_kind. simpl. split_and!; try done. by rewrite (no_tokens_without_size _ Hp).
  - apply sret_ok in Hr as [-> _]. unfold same_kind. split_and!; done.
Qed.

(** ** The execution price *)

Lemma execution_price_for_increase_ok size tokens limit b r :
  get_execution_price_for_increase size tokens limit b = Ok r ->
  tokens <> 0 /\ r = size / tokens
  /\ (forall k, limit = Some k -> if b then r <= k else k <= r).
Proof.
  unfold get_execution_price_for_increase. unfold_num_tests. intros Hr.
  case_if_in Hr Hz; [discriminate|].
  apply rbind_ok in Hr as (x & Hx & Hr). apply ok_or_ok, udiv_some in Hx as (Hne & -> & _).
  split; [done|]. destruct limit as [k|]; [|by injection Hr as <-].
  case_if_in Hr Hlim; [|discriminate]. injection Hr as <-. split; [done|]. intros ? [= <-].
  apply orb_true_iff in Hlim as [Hlim|Hlim]; bool_to_prop; destruct b; done.
Qed.

(** The impact in tokens: at the price that favours the pool, rounded towards it. *)
Definition rounded_impact (price : Price) (impact amount : Z) : Prop :=
  if 0 <? impact then amount = impact / price_max price
  else impact <= 0 /\ amount <= 0 /\ Z.abs impact <= Z.abs amount * price_min price
       /\ (Z.abs amount - 1) * price_min price < Z.max 1 (Z.abs impact).

Lemma increase_price_impact_amount_ok price impact amount :
  price_in_range price -> increase_price_impact_amount price impact = Ok amount ->
  rounded_impact price impact amount.
Proof.
  intros [Hmin Hmax] Hr. unfold increase_price_impact_amount, rounded_impact, pick_price in *.
  unfold_num_tests. destruct (Z.ltb_spec 0 impact).
  - unfold in_u in *. apply rbind_ok in Hr as (x & Hx & Hr). apply ok_or_ok, try_i_some in Hx as [-> _].
    apply ok_or_ok, idiv_some in Hr as (? & -> & _). rewrite Z.quot_div_nonneg; lia.
  - apply ok_or_ok, round_up_magnitude_div_some in Hr as (Hle & Hgt & Hsign); [|done].
    unfold in_u in *. assert (amount <= 0) by nia. split_and!; [done|done|lia|lia].
Qed.

Lemma base_size_delta_ok price b size r :
  price_in_range price -> 0 <= size -> base_size_delta_in_tokens price b size = Ok r ->
  if b then price_max price <> 0 /\ r = size / price_max price
  else size <= r * price_min price /\ (r - 1) * price_min price < size.
Proof.
  unfold base_size_delta_in_tokens, pick_price. intros [[Hmin _] _] Hs Hr.
  destruct b; apply ok_or_ok in Hr.
  - by apply udiv_some in Hr as (? & -> & _).
  - apply checked_round_up_div_some in Hr; tauto.
Qed.

(** The execution of an increase. The size in tokens is the size at the index price that
    disfavours the trader, rounded against them, moved by the price impact in tokens; a
    positive impact rounds down and is at most what the impact pool holds, a negative one
    rounds away from zero; the execution price is the size over those tokens and
    respects the acceptable price of the order on either side. *)
Theorem increase_execution_spec m p params e :
  market_wf m -> prices_in_range (increase_prices params) -> 0 < increase_size_delta_usd params ->
  increase_get_execution_params params m p = Ok e ->
  let price := index_token_price (increase_prices params) in
  let size := increase_size_delta_usd params in
  let base := if is_long p then size_delta_in_tokens e - price_impact_amount e
              else size_delta_in_tokens e + price_impact_amount e in
  (if is_long p then base = size / price_max price
   else size <= base * price_min price /\ (base - 1) * price_min price < size)
  /\ rounded_impact price (price_impact_value e) (price_impact_amount e)
  /\ (0 < price_impact_value e -> price_min price <= price_max price ->
      price_impact_amount e <= amt m PositionImpact true)
  /\ 0 < size_delta_in_tokens e /\ execution_price e = size / size_delta_in_tokens e
  /\ (forall k, increase_acceptable_price params = Some k ->
        if is_long p then execution_price e <= k else k <= execution_price e).
Proof.
  intros Hwf (Hprice & _) Hs Hr price size base. unfold increase_get_execution_params in Hr.
  unfold is_zero in Hr. rewrite (proj2 (Z.eqb_neq _ 0)) in Hr by lia. fold size price in Hr.
  apply rbind_ok in Hr as (x & Hx & Hr). apply to_signed_ok in Hx as [-> _].
  apply rbind_ok in Hr as (v & Hv & Hr).
  apply rbind_ok in Hr as (a & Ha & Hr). apply increase_price_impact_amount_ok in Ha; [|done].
  apply rbind_ok in Hr as (n & Hn & Hr). apply base_size_delta_ok in Hn; [|done|lia].
  apply rbind_ok in Hr as (t & Ht & Hr). apply ok_or_ok in Ht.
  apply rbind_ok in Hr as (x & Hx & Hr). apply execution_price_for_increase_ok in Hx as (Hne & -> & Hlim).
  injection Hr as <-. simpl in *.
  assert (base = n /\ in_u t) as [Hb Hu].
  { subst base. destruct (is_long p).
    - apply checked_add_with_signed_some in Ht as [-> ?]. split; [lia|done].
    - apply checked_sub_with_signed_some in Ht as [-> ?]. split; [lia|done]. }
  rewrite Hb. unfold in_u in Hu. split_and!; try done; try lia.
  - destruct (is_long p); tauto.
  - intros Hpos Hord. unfold rounded_impact in Ha. rewrite (proj2 (Z.ltb_lt 0 v)) in Ha by done.
    subst a. unfold capped_positive_position_price_impact in Hv.
    apply rbind_ok in Hv as (raw & _ & Hv). apply cap_positive_ok in Hv; [|done].
    destruct (Z.ltb_spec 0 raw); [|lia]. unfold price_in_range, in_u in Hprice.
    destruct (Z.eq_dec (price_max price) 0) as [->|]; [rewrite Zdiv_0_r; apply amt_in_u; done|].
    fold price in Hprice.
    pose proof (amt_in_u m PositionImpact true Hwf) as Hi. unfold in_u in Hi.
    apply Z.div_le_upper_bound; [lia|]. nia.
Qed.

(** ** Accounting *)

Lemma increase_process_collateral_ok params v s s' delta fees :
  market_wf (ps_market s) -> increase_process_collateral params v s = (s', Ok (delta, fees)) ->
  let p := ps_position s in
  exists cost pool receiver,
    total_cost_amount fees = Ok cost /\ for_pool fees = Ok pool /\ for_receiver fees = Ok receiver
    /\ increase_collateral_increment_amount params = delta + cost
    /\ position_fees (ps_market s) p (collateral_price p (increase_prices params))
         (increase_size_delta_usd params) (0 <? v) false = Ok fees
    /\ Moved (ps_market s)
        (change_at ClaimableFee (is_collateral_token_long p) receiver
         + change_at Primary (is_collateral_token_long p) pool
         + change_at (CollateralSum (is_long p)) (is_collateral_token_long p) delta)%change
        (ps_market s')
    /\ ps_position s' = p.
Proof.
  unfold increase_process_collateral. intros Hwf Hr.
  apply sbind_ok in Hr as (? & x & Hx & Hr). apply slift_ok in Hx as [-> Hx].
  apply to_signed_ok in Hx as [-> _].
  apply sbind_ok in Hr as (? & fees' & Hfees & Hr). apply sread_ok in Hfees as [-> Hfees].
  apply sbind_ok in Hr as (? & cost & Hcost & Hr). apply slift_ok in Hcost as [-> Hcost].
  apply sbind_ok in Hr as (? & x & Hx & Hr). apply slift_ok in Hx as [-> Hx].
  apply to_signed_ok in Hx as [-> _].
  apply sbind_ok in Hr as (? & delta' & Hx & Hr). apply slift_ok in Hx as [-> Hx].
  apply ok_or_ok, isub_some in Hx as [Hdelta _].
  apply sbind_ok in Hr as (? & ? & Hget & Hr). apply sget_ok in Hget as [-> ->].
  apply sbind_ok in Hr as (? & receiver & Hrec & Hr). apply slift_ok in Hrec as [-> Hrec].
  apply sbind_ok in Hr as (? & x & Hx & Hr). apply slift_ok in Hx as [-> Hx].
  apply to_signed_ok in Hx as [-> _].
  apply sbind_ok in Hr as (s1 & ? & H1 & Hr). apply on_market_ok in H1 as (m1 & H1 & ->).
  apply apply_delta_to_claimable_fee_pool_moved in H1; [|done]. simpl in Hr.
  apply sbind_ok in Hr as (? & pool & Hpool & Hr). apply slift_ok in Hpool as [-> Hpool].
  apply sbind_ok in Hr as (? & y & Hx & Hr). apply slift_ok in Hx as [-> Hx].
  apply to_signed_ok in Hx as [-> _].
  apply sbind_ok in Hr as (s2 & ? & H2 & Hr). apply on_market_ok in H2 as (m2 & H2 & ->).
  simpl in H2. apply apply_delta_moved in H2; [|by eapply moved_wf].
  pose proof (moved_trans _ _ _ _ _ H1 H2) as H12.
  apply sbind_ok in Hr as (s3 & ? & H3 & Hr). apply on_market_ok in H3 as (m3 & H3 & ->).
  simpl in H3. apply update_pool_amount_moved in H3; [|by eapply moved_wf].
  apply sret_ok in Hr as [-> [= -> ->]].
  exists cost, pool, receiver. split_and!; try done; [lia|]. by eapply moved_trans.
Qed.

Lemma increase_update_position_ok params e s s' u :
  market_wf (ps_market s) ->
  (increase_size_delta_usd params = 0 -> size_delta_in_tokens e = 0) ->
  increase_update_position params e s = (s', Ok u) ->
  let p := ps_position s in let p' := ps_position s' in
  let size := increase_size_delta_usd params in
  Moved (ps_market s)
    (change_at TotalBorrowing (is_long p)
       (borrowing_of (size_in_usd p') (position_borrowing_factor p')
        - borrowing_of (size_in_usd p) (position_borrowing_factor p))
     + open_interest_change (is_long p) (is_collateral_token_long p) size (size_delta_in_tokens e))%change
    (ps_market s')
  /\ same_kind p p'
  /\ size_in_usd p' = size_in_usd p + size /\ in_u (size_in_usd p')
  /\ size_in_tokens p' = size_in_tokens p + size_delta_in_tokens e /\ in_u (size_in_tokens p')
  /\ collateral_amount p' = collateral_amount p
  /\ cumulative_borrowing_factor (ps_market s) (is_long p) = Ok (position_borrowing_factor p')
  /\ (0 < size -> total_amt (ps_market s') (OpenInterest (is_long p))
                  <= max_open_interest (m_config (ps_market s)) (is_long p)).
Proof.
  unfold increase_update_position. intros Hwf Hz Hr.
  apply sbind_ok in Hr as (? & size & Hx & Hr). apply sread_ok in Hx as [-> Hx].
  apply ok_or_ok, uadd_some in Hx as [-> Hsu].
  apply sbind_ok in Hr as (? & factor & Hf & Hr). apply sread_ok in Hf as [-> Hf].
  apply sbind_ok in Hr as (s1 & ? & H1 & Hr). apply update_total_borrowing_moved in H1 as [H1 Hp1]; [|done].
  apply sbind_ok in Hr as (? & ? & Hw & Hr). apply smodify_ok in Hw as ->.
  apply sbind_ok in Hr as (? & tokens & Hx & Hr). apply sread_ok in Hx as [-> Hx].
  apply ok_or_ok, uadd_some in Hx as [-> Htu].
  apply sbind_ok in Hr as (? & ? & Hw & Hr). apply smodify_ok in Hw as ->.
  apply sbind_ok in Hr as (s2 & ? & H2 & Hr).
  apply update_funding_state_ok in H2 as (Hm2 & _ & f & cl & cs & Hp2).
  apply sbind_ok in Hr as (? & ? & Hw & Hr). apply smodify_ok in Hw as ->.
  apply sbind_ok in Hr as (? & y & Hx & Hr). apply slift_ok in Hx as [-> Hx].
  apply to_signed_ok in Hx as [-> _].
  apply sbind_ok in Hr as (? & y & Hx & Hr). apply slift_ok in Hx as [-> Hx].
  apply to_signed_ok in Hx as [-> _].
  simpl in Hm2, Hp2, Hsu, Htu.
  apply update_open_interest_moved in Hr as (H3 & Hp3 & Hmax);
    [|simpl; rewrite Hm2; by eapply moved_wf|done].
  simpl in *. rewrite Hm2, Hp2 in *. simpl in *. rewrite Hp1 in *. rewrite Hp3. simpl.
  rewrite (moved_config _ _ _ H1) in *.
  unfold same_kind. simpl. split_and!; try done. by eapply moved_trans.
Qed.

(** What an increase does to the market and to the position. *)
Record Increased params (r : IncreasePositionReport) m p m' p' : Prop := {
  increased_kind : same_kind p p';
  increased_size : size_in_usd p' = size_in_usd p + increase_size_delta_usd params;
  increased_tokens :
    size_in_tokens p' = size_in_tokens p + size_delta_in_tokens (increase_report_execution r);
  increased_collateral :
    collateral_amount p' = collateral_amount p + increase_report_collateral_delta_amount r;
  increased_factor : cumulative_borrowing_factor m' (is_long p) = Ok (position_borrowing_factor p');
  increased_wf : PositionWf p';
  increased_market : exists pool receiver,
    increase_collateral_increment_amount params
      = increase_report_collateral_delta_amount r + pool + receiver
        + funding_fee_amount (fees_funding (increase_report_fees r))
    /\ for_pool (increase_report_fees r) = Ok pool
    /\ for_receiver (increase_report_fees r) = Ok receiver
    /\ Moved m
        (change_at ClaimableFee (is_collateral_token_long p) receiver
         + change_at Primary (is_collateral_token_long p) pool
         + change_at PositionImpact true (- price_impact_amount (increase_report_execution r))
         + position_change (is_long p) (is_collateral_token_long p)
             (size_in_usd p' - size_in_usd p) (size_in_tokens p' - size_in_tokens p)
             (collateral_amount p' - collateral_amount p)
             (borrowing_of (size_in_usd p') (position_borrowing_factor p')
              - borrowing_of (size_in_usd p) (position_borrowing_factor p)))%change m';
}.

Lemma zero_increase_no_tokens m p params e :
  increase_get_execution_params params m p = Ok e ->
  increase_size_delta_usd params = 0 -> size_delta_in_tokens e = 0.
Proof. unfold increase_get_execution_params. intros He Hz. rewrite Hz in He. by injection He as <-. Qed.

Lemma cumulative_borrowing_factor_moved m c m' b f :
  Moved m c m' -> (forall side, c BorrowingFactor side = 0) -> market_wf m ->
  pool_pure (pool_of m BorrowingFactor) = false ->
  cumulative_borrowing_factor m b = Ok f -> cumulative_borrowing_factor m' b = Ok f.
Proof.
  intros Hm Hc Hwf Hpure. unfold cumulative_borrowing_factor, borrowing_factor_pool.
  rewrite !amt_ok by (first [done|by eapply moved_wf]).
  rewrite (moved_amt _ _ _ _ _ Hm Hpure), Hc, Z.add_0_r. done.
Qed.

Lemma execute_increase_ok params m p m' p' r :
  market_wf m -> PositionWf p -> 0 <= increase_size_delta_usd params ->
  pool_pure (pool_of m BorrowingFactor) = false ->
  execute_increase params (mkPState m p) = (mkPState m' p', Ok r) ->
  Increased params r m p m' p'
  /\ increase_validate params m' p' = Ok tt
  /\ (0 < increase_size_delta_usd params ->
      total_amt m' (OpenInterest (is_long p)) <= max_open_interest (m_config m) (is_long p)).
Proof.
  unfold execute_increase. intros Hwf Hp Hsize Hpure Hr.
  apply sbind_ok in Hr as (s1 & u1 & H1 & Hr).
  apply initialize_ok in H1 as (Hm1 & (Hl1 & Hc1 & Hsame1) & Hs1 & Ht1 & Ha1 & Hf1 & _); [|done].
  cbn [ps_market ps_position] in *.
  apply sbind_ok in Hr as (s2 & e & He & Hr). apply sread_ok in He as [-> He].
  pose proof (zero_increase_no_tokens _ _ _ _ He) as Hzero.
  apply sbind_ok in Hr as (s2 & [delta fees] & H2 & Hr).
  apply increase_process_collateral_ok in H2
    as (cost & pool & receiver & Hcost & Hpool & Hrec & Hinc & _ & H2 & Hp2); [|by rewrite Hm1].
  apply sbind_ok in Hr as (s3 & coll & Hcoll & Hr). apply sread_ok in Hcoll as [-> Hcoll].
  apply ok_or_ok, checked_add_with_signed_some in Hcoll as [-> Hcu].
  apply sbind_ok in Hr as (s3 & u3 & Hw & Hr). apply smodify_ok in Hw as ->.
  apply sbind_ok in Hr as (s3 & d & Hd & Hr). apply slift_ok in Hd as [-> Hd].
  apply ok_or_ok, ineg_some in Hd as [-> _].
  apply sbind_ok in Hr as (s3 & u4 & H3 & Hr). apply on_market_ok in H3 as (m3 & H3 & ->).
  cbn [ps_market ps_position] in *. rewrite Hp2, Hm1 in *.
  apply apply_delta_to_position_impact_pool_moved in H3; [|by eapply moved_wf].
  pose proof (moved_trans _ _ _ _ _ H2 H3) as H23.
  apply sbind_ok in Hr as (s4 & u5 & H4 & Hr).
  apply increase_update_position_ok in H4
    as (H4 & (Hl4 & Hc4 & Hsame4) & Hs4 & Hsu4 & Ht4 & Htu4 & Ha4 & Hf4 & Hmax);
    [|by eapply moved_wf|done].
  cbn [ps_market ps_position is_long is_collateral_token_long size_in_usd size_in_tokens
       collateral_amount position_borrowing_factor set_collateral_amount
       are_pnl_and_collateral_tokens_the_same] in *.
  apply sbind_ok in Hr as (s5 & [] & Hval & Hr). apply sread_ok in Hval as [-> Hval].
  apply sret_ok in Hr as [Hs5 ->]. subst s4. cbn [ps_market ps_position] in *.
  pose proof Hcost as Hx. apply rbind_ok in Hx as (x & Hx & _).
  destruct (position_fees_split _ _ _ _ _ Hx Hcost Hpool Hrec) as [_ Hsplit].
  pose proof (moved_trans _ _ _ _ _ H23 H4) as Hall.
  split_and!; [split; simpl|done|].
  - unfold same_kind. split_and!; congruence.
  - lia.
  - lia.
  - lia.
  - rewrite Hl1 in Hf4. eapply cumulative_borrowing_factor_moved; [exact H4| | | |exact Hf4].
    + intros side. unfold open_interest_change, change_plus.
      rewrite !change_at_other by (by destruct (is_long (ps_position s1))). done.
    + by eapply moved_wf.
    + by rewrite (moved_pure _ _ _ _ H23).
  - split; [done|done|by rewrite Ha4|]. intros Hz0.
    pose proof (no_tokens_without_size _ Hp). pose proof (size_in_usd_in_u _ Hp) as Hu.
    unfold in_u in Hu. lia.
  - exists pool, receiver. split_and!; [|done|done|].
    + lia.
    + eapply moved_ext; [exact Hall|]. intros k side.
      unfold position_change, open_interest_change, change_plus. rewrite Hl1, Hc1.
      replace (size_in_usd p' - size_in_usd p) with (increase_size_delta_usd params) by lia.
      replace (size_in_tokens p' - size_in_tokens p) with (size_delta_in_tokens e) by lia.
      replace (collateral_amount p' - collateral_amount p) with delta by lia.
      rewrite Hs1, Hf1. lia.
  - rewrite (moved_config _ _ _ H23), Hl1 in Hmax. done.
Qed.

(** C12: increasing a position. The collateral that comes in is what the position's collateral
    grows by plus the fees for the pool, for the receiver and the funding fee; the market
    moves by exactly that (fees to their pools, the price impact out of or into the impact
    pool, and open interest, collateral sum and total borrowing by what the position
    gained); so the pools keep tracking the positions of the market. *)
Theorem increase_position_accounting params m p m' p' r :
  market_wf m -> PositionWf p -> 0 <= increase_size_delta_usd params ->
  pool_pure (pool_of m BorrowingFactor) = false ->
  execute_increase params (mkPState m p) = (mkPState m' p', Ok r) ->
  Increased params r m p m' p' /\ market_wf m'
  /\ forall ps i, Tracks m ps -> ps !! i = Some p -> Tracks m' (<[i := p']> ps).
Proof.
  intros Hwf Hp Hs Hpure Hr. apply execute_increase_ok in Hr as [Hi _]; [|done..].
  destruct (increased_market _ _ _ _ _ _ Hi) as (pool & receiver & _ & _ & _ & Hm).
  split_and!; [done|by eapply moved_wf|]. intros ps i Ht Hps.
  eapply tracks_update; [exact Ht|exact Hps|exact Hm|]. intros k side Hk.
  destruct (increased_kind _ _ _ _ _ _ Hi) as (Hl & Hc & _).
  rewrite contribution_diff by done. unfold change_plus at 1 2 3.
  rewrite !(change_at_other _ _ _ k) by (intros ->; discriminate). lia.
Qed.

(** C33: an increase that succeeds leaves a sound position: it is open with at least the minimum size, and
    its equity is positive and covers the leverage requirement and the minimum collateral value. When
    the increase adds to the size, and not only collateral, moreover the collateral alone covers the
    leverage requirement, and the open interest and the reserves stay within the limits of the market. *)
Theorem increase_position_safe params m p m' p' r :
  market_wf m -> PositionWf p -> 0 <= increase_size_delta_usd params ->
  pool_pure (pool_of m BorrowingFactor) = false ->
  execute_increase params (mkPState m p) = (mkPState m' p', Ok r) ->
  let prices := increase_prices params in
  let config := position_params (m_config m') in
  size_in_usd p' <> 0 /\ size_in_tokens p' <> 0 /\ min_position_size_usd config <= size_in_usd p'
  /\ (exists remaining, Equity m' p' prices remaining /\ 0 < remaining
       /\ leverage_requirement (size_in_usd p') (min_collateral_factor config) <= remaining
       /\ min_collateral_value config <= remaining)
  /\ (0 < increase_size_delta_usd params ->
       leverage_requirement (size_in_usd p') (min_collateral_factor config)
         <= collateral_amount p' * price_min (collateral_price p' prices)
       /\ total_amt m' (OpenInterest (is_long p)) <= max_open_interest (m_config m) (is_long p)
       /\ validate_reserve m' prices (is_long p) = Ok tt
       /\ validate_open_interest_reserve m' prices (is_long p) = Ok tt).
Proof.
  intros Hwf Hp Hs Hpure Hr prices config.
  apply execute_increase_ok in Hr as (Hi & Hval & Hmax); [|done..].
  destruct (increased_kind _ _ _ _ _ _ Hi) as (Hl & _).
  pose proof (size_in_usd_in_u _ (increased_wf _ _ _ _ _ _ Hi)) as Hu. unfold in_u in Hu.
  apply rbind_ok in Hval as ([] & Hchecks & Hval). fold prices in Hchecks, Hval.
  apply validate_position_ok in Hval as (Hsz & Ht & Hmin & remaining & Hq & Hpos & Hlev & Hval); [|lia].
  split_and!; [done|done|by apply Hmin|eauto 10|]. intros Hgrow. specialize (Hmax Hgrow).
  unfold is_zero in Hchecks. rewrite (proj2 (Z.eqb_neq _ 0)) in Hchecks by lia. simpl in Hchecks.
  rewrite Hl in Hchecks. apply rbind_ok in Hchecks as ([] & Hres & Hchecks).
  apply rbind_ok in Hchecks as ([] & Hoi & Hchecks).
  apply rbind_ok in Hchecks as (will & Hwill & Hsuff). case_if_in Hsuff Hb; [discriminate|].
  assert (Hwf' : market_wf m').
  { destruct (increased_market _ _ _ _ _ _ Hi) as (? & ? & _ & _ & _ & Hm). by eapply moved_wf. }
  split_and!; try done. apply will_collateral_ok in Hwill as (_ & Hok & _). apply negb_false_iff in Hb.
  destruct (Hok Hb) as (_ & factor & _ & Hle). simpl in Hle.
  etransitivity; [|rewrite Z.add_0_r in Hle; exact Hle].
  subst config. apply leverage_requirement_mono; lia.
Qed.
End IncreasePositionFacts.

(** ** Examples *)
Section Examples.
#[local] Existing Instance u64.
#[local] Existing Instance test_num.

Definition example_increase : IncreasePositionParams :=
  mkIncreasePositionParams 100000000 20000000000 (Some 125) example_prices.

Definition example_increase_execution : IncreaseExecutionParams :=
  mkIncreaseExecution (-16800) (-142) 165289114 121.

Definition example_increase_report : IncreasePositionReport :=
  increase_report_new example_increase example_increase_execution 99882353
    (mkPositionFees 14000000 (mkOrderFees (mkFees 43529 74118) 14000000) (mkBorrowingFees 0 0)
       (mkFundingFees 0 0 0) None).

(** The market and the position after the increase. *)
Definition after_increase : PState TestPool Z :=
  fst (execute_increase example_increase (mkPState example_market example_position)).

Lemma example_increase_ok :
  execute_increase example_increase (mkPState example_market example_position)
  = (mkPState (ps_market after_increase) (ps_position after_increase), Ok example_increase_report).
Proof. vm_compute. reflexivity. Qed.

Lemma example_position_wf : PositionWf example_position.
Proof. split; vm_compute; repeat split; discriminate. Qed.

Example increase_execution_spec_example : 0 < 165289114 /\ 121 = 20000000000 / 165289114 /\ 121 <= 125.
Proof.
  destruct (increase_execution_spec example_market example_position example_increase
    example_increase_execution example_market_wf example_prices_in_range eq_refl)
    as (_ & _ & _ & Hpos & Hprice & Hlim); [vm_compute; reflexivity|].
  split; [exact Hpos|split; [exact Hprice|exact (Hlim 125 eq_refl)]].
Defined.

Lemma increase_position_accounting_witness :
  size_in_usd (ps_position after_increase) = 400000000000 + 20000000000
  /\ market_wf (ps_market after_increase).
Proof.
  destruct (increase_position_accounting example_increase example_market example_position
    (ps_market after_increase) (ps_position after_increase) example_increase_report
    example_market_wf example_position_wf) as (Hi & Hwf & _);
    [vm_compute; discriminate|reflexivity|exact example_increase_ok|].
  split; [exact (increased_size _ _ _ _ _ _ Hi)|exact Hwf].
Defined.

Lemma increase_position_safe_witness :
  min_position_size_usd (position_params (m_config (ps_market after_increase)))
  <= size_in_usd (ps_position after_increase)
  /\ validate_reserve (ps_market after_increase) (increase_prices example_increase) true = Ok tt.
Proof.
  destruct (increase_position_safe example_increase example_market example_position
    (ps_market after_increase) (ps_position after_increase) example_increase_report
    example_market_wf example_position_wf) as (_ & _ & Hmin & _ & Hgrow);
    [discriminate|reflexivity|exact example_increase_ok|].
  destruct Hgrow as (_ & _ & Hres & _); [reflexivity|]. split; [exact Hmin|exact Hres].
Defined.
End Examples.
