(* ===== verification/DecreasePosition.v ===== *)
(** * Decreasing a position ([crates/gmsol-model/src/action/decrease_position])

    [DecreasePosition::try_new] and [execute] with its steps ([mod.rs], [utils.rs] and
    [report.rs]), on top of the collateral processor: partial closes that are turned into
    full ones, liquidations, insolvent closes, the final swap of the output. *)
From S2P Require Import Prelude Kinds Num Fixed Price Params Pool Market TestMarket MarketFacts.
From S2P Require Import Swap Funding Position Ledger CollateralProcessor.

Record DecreasePositionFlags : Type := mkDecreasePositionFlags {
  is_insolvent_close_allowed : bool;
  is_liquidation_order : bool;
  is_cap_size_delta_usd_allowed : bool;
}.

Record DecreasePositionParams : Type := mkDecreasePositionParams {
  decrease_prices : Prices;
  initial_size_delta_usd : Z;
  decrease_acceptable_price : option Z;
  initial_collateral_withdrawal_amount : Z;
  decrease_flags : DecreasePositionFlags;
  decrease_swap : DecreasePositionSwapType;
}.

(** The action without its position, which is part of the state. *)
Record DecreasePosition : Type := mkDecreasePosition {
  decrease_params : DecreasePositionParams;
  withdrawable_collateral_amount : Z;
  decrease_size_delta_usd : Z;
}.

(** [report.rs]. *)
Record DecreasePositionReport : Type := mkDecreasePositionReport {
  report_price_impact_value : Z;
  report_price_impact_diff : Z;
  report_execution_price : Z;
  report_size_delta_in_tokens : Z;
  report_withdrawable_collateral_amount : Z;
  report_initial_size_delta_usd : Z;
  report_size_delta_usd : Z;
  report_fees : PositionFees;
  report_pnl : Z;
  report_uncapped_pnl : Z;
  report_insolvent_close_step : option InsolventCloseStep;
  should_remove : bool;
  report_is_output_token_long : bool;
  report_is_secondary_output_token_long : bool;
  report_output_amount : Z;
  report_secondary_output_amount : Z;
  report_claimable_funding_long_token_amount : Z;
  report_claimable_funding_short_token_amount : Z;
  report_for_holding : ClaimableCollateral;
  report_for_user : ClaimableCollateral;
}.

Record ProcessCollateralResult : Type := mkProcessCollateralResult {
  pc_price_impact_value : Z;
  pc_price_impact_diff : Z;
  pc_execution_price : Z;
  pc_size_delta_in_tokens : Z;
  pc_is_output_token_long : bool;
  pc_is_secondary_output_token_long : bool;
  pc_collateral : ProcessResult;
  pc_fees : PositionFees;
  pc_pnl : Z;
  pc_uncapped_pnl : Z;
}.

Definition set_size_delta_usd (self : DecreasePosition) (v : Z) : DecreasePosition :=
  mkDecreasePosition (decrease_params self) (withdrawable_collateral_amount self) v.
Definition set_withdrawable (self : DecreasePosition) (v : Z) : DecreasePosition :=
  mkDecreasePosition (decrease_params self) v (decrease_size_delta_usd self).

(** [DecreasePosition::set_swap]. *)
Definition set_swap (self : DecreasePosition) (kind : DecreasePositionSwapType) : DecreasePosition :=
  let p := decrease_params self in
  mkDecreasePosition
    (mkDecreasePositionParams (decrease_prices p) (initial_size_delta_usd p)
       (decrease_acceptable_price p) (initial_collateral_withdrawal_amount p) (decrease_flags p) kind)
    (withdrawable_collateral_amount self) (decrease_size_delta_usd self).

(** [DecreasePositionFlags::init]: the flags and the size of the decrease. *)
Definition flags_init (self : DecreasePositionFlags) (size_in_usd size_delta_usd : Z)
    : result (DecreasePositionFlags * Z) :=
  let! size_delta_usd :=
    (if size_in_usd <? size_delta_usd then
       if is_cap_size_delta_usd_allowed self then Ok size_in_usd
       else Err (InvalidArgument "invalid decrease order size")
     else Ok size_delta_usd) in
  let is_full_close := size_in_usd =? size_delta_usd in
  Ok (mkDecreasePositionFlags (is_full_close && is_insolvent_close_allowed self)
        (is_liquidation_order self) (is_cap_size_delta_usd_allowed self), size_delta_usd).

Section DecreasePosition.
Context {I : UInt} {F : FixedPointOps I} {P T : Type} {O : PoolOps P} {S : SupplyOps T}.
Implicit Types (self : DecreasePosition) (market : Market P T) (position : Position).

Definition decrease_position_try_new position (prices : Prices) (size_delta_usd : Z)
    (acceptable_price : option Z) (collateral_withdrawal_amount : Z) (flags : DecreasePositionFlags)
    : result DecreasePosition :=
  if negb (prices_is_valid prices) then Err (InvalidArgument "invalid prices")
  else if is_empty position then Err (InvalidPosition "empty position")
  else
    let initial_size_delta_usd := size_delta_usd in
    let! init := flags_init flags (size_in_usd position) size_delta_usd in
    let (flags, size_delta_usd) := init in
    Ok (mkDecreasePosition
          (mkDecreasePositionParams prices initial_size_delta_usd acceptable_price
             collateral_withdrawal_amount flags NoSwap)
          (Z.min collateral_withdrawal_amount (collateral_amount position))
          size_delta_usd).

Definition will_size_remain self position : bool :=
  decrease_size_delta_usd self <? size_in_usd position.
Definition is_full_close self position : bool :=
  decrease_size_delta_usd self =? size_in_usd position.

(** The branch of [check_partial_close] on insufficient collateral: the remaining collateral
    value and the action. *)
Definition add_back_withdrawable self position (will_be_sufficient : WillCollateralBeSufficient)
    : result (Z * DecreasePosition) :=
  match will_be_sufficient with
  | WillBeSufficient value => Ok (value, self)
  | WillBeInsufficient remaining_collateral_value =>
      if is_zero (decrease_size_delta_usd self) then
        Err (InvalidArgument "unable to withdraw collateral: insufficient collateral")
      else
        let prices := decrease_prices (decrease_params self) in
        let collateral_token_price :=
          if is_collateral_token_long position then long_token_price prices
          else short_token_price prices in
        let! add_back :=
          ok_or (umul (withdrawable_collateral_amount self) (pick_price collateral_token_price false))
            (Computation "overflow calculating add back") in
        let! add_back := to_signed add_back in
        let! remaining_collateral_value := ok_or (iadd remaining_collateral_value add_back)
                                             (Computation "adding back") in
        Ok (remaining_collateral_value, set_withdrawable self 0)
  end.

Definition check_partial_close self market position : result DecreasePosition :=
  if will_size_remain self position then
    let prices := decrease_prices (decrease_params self) in
    let! p := pnl_value market position prices (size_in_usd position) in
    let '(estimated_pnl, _, _) := p in
    let! estimated_realized_pnl :=
      ok_or (checked_mul_div_with_signed_numerator (decrease_size_delta_usd self) estimated_pnl
               (size_in_usd position)) (Computation "estimating realized pnl") in
    let! estimated_remaining_pnl := ok_or (isub estimated_pnl estimated_realized_pnl)
                                      (Computation "estimating remaining pnl") in
    let! next_size := expect (usub (size_in_usd position) (decrease_size_delta_usd self))
                        "should have been capped" in
    let! next_collateral :=
      expect (usub (collateral_amount position) (withdrawable_collateral_amount self))
        "should have been capped" in
    let! open_interest_delta := to_opposite_signed (decrease_size_delta_usd self) in
    let delta := mkCollateralDelta next_size next_collateral estimated_realized_pnl
                   open_interest_delta in
    let! will_be_sufficient := will_collateral_be_sufficient market position prices delta in
    let! r := add_back_withdrawable self position will_be_sufficient in
    let (value, self) := r in
    let params := position_params (m_config market) in
    let! remaining_value := ok_or (iadd value estimated_remaining_pnl)
                              (Computation "calculating remaining value") in
    let! min_collateral_value := to_signed (min_collateral_value params) in
    let self := if remaining_value <? min_collateral_value
                then set_size_delta_usd self (size_in_usd position) else self in
    if decrease_size_delta_usd self <? size_in_usd position then
      let! remaining := expect (usub (size_in_usd position) (decrease_size_delta_usd self))
                          "must success" in
      if remaining <? min_position_size_usd params
      then Ok (set_size_delta_usd self (size_in_usd position)) else Ok self
    else Ok self
  else Ok self.

Definition check_close self position : DecreasePosition :=
  if is_full_close self position && negb (is_zero (withdrawable_collateral_amount self))
  then set_withdrawable self 0 else self.

Definition check_liquidation self market position : result unit :=
  if is_liquidation_order (decrease_flags (decrease_params self)) then
    let! r := check_liquidatable market position (decrease_prices (decrease_params self)) true in
    match r with
    | Some _ => Ok tt
    | None => Err NotLiquidatable
    end
  else Ok tt.

(** [utils.rs]. *)
Definition get_execution_price_for_decrease (index_price : Price) (size_in_usd size_in_tokens
    size_delta_usd price_impact_value : Z) (acceptable_price : option Z) (is_long : bool) : result Z :=
  let execution_price := pick_price index_price (negb is_long) in
  let! execution_price :=
    (if negb (is_zero size_delta_usd) && negb (is_zero size_in_tokens) then
       let! adjusted_price_impact_value :=
         (if is_long then Ok price_impact_value
          else ok_or (isub 0 price_impact_value) (Computation "price impact too large")) in
       if is_negative adjusted_price_impact_value
          && (size_delta_usd <? unsigned_abs adjusted_price_impact_value) then
         Err (Computation "price impact larger than order size")
       else
         let! signed_size_in_tokens := to_signed size_in_tokens in
         let! a := ok_or (checked_mul_div_with_signed_numerator size_in_usd
                            adjusted_price_impact_value size_delta_usd)
                     (Computation "calculating execution price adjustment") in
         let! adjustment := ok_or (idiv a signed_size_in_tokens)
                              (Computation "calculating adjustment") in
         ok_or (checked_add_with_signed execution_price adjustment)
           (Computation "adjusting execution price")
     else Ok execution_price) in
  match acceptable_price with
  | None => Ok execution_price
  | Some acceptable_price =>
      if (is_long && (acceptable_price <=? execution_price))
         || (negb is_long && (execution_price <=? acceptable_price))
      then Ok execution_price
      else Err (InvalidArgument "order not fulfillable at acceptable price")
  end.

(** The price impact, the capped difference and the execution price. *)
Definition decrease_get_execution_params self market position : result (Z * Z * Z) :=
  let index_token_price := index_token_price (decrease_prices (decrease_params self)) in
  let size_delta_usd := decrease_size_delta_usd self in
  if is_zero size_delta_usd then
    Ok (0, 0, pick_price index_token_price (negb (is_long position)))
  else
    let! delta := to_opposite_signed size_delta_usd in
    let! r := capped_position_price_impact market position index_token_price delta in
    let (price_impact_value, price_impact_diff_usd) := r in
    let! execution_price :=
      get_execution_price_for_decrease index_token_price (size_in_usd position)
        (size_in_tokens position) size_delta_usd price_impact_value
        (decrease_acceptable_price (decrease_params self)) (is_long position) in
    Ok (price_impact_value, price_impact_diff_usd, execution_price).

(** Running a [CollateralProcessor] on the market of the position: its result and the fees. *)
Definition run_processor (remaining_collateral_amount : Z) (fees : PositionFees)
    (m : CM P T ProcessResult) : PM P T (ProcessResult * PositionFees) := fun s =>
  let (c, res) := m (mkProcessor (ps_market s) (initial_report remaining_collateral_amount) fees None) in
  (mkPState (pr_market c) (ps_position s), let! r := res in Ok (r, pr_fees c)).

(** The adjustment of the withdrawable amount by the price impact difference. *)
Definition withdrawable_after_diff self (collateral_price : Price) (price_impact_diff : Z) : result Z :=
  let amount := withdrawable_collateral_amount self in
  if negb (is_zero amount) && negb (is_zero price_impact_diff) then
    let! diff_amount := ok_or (udiv price_impact_diff (pick_price collateral_price false))
                          (Computation "calculating diff amount") in
    if diff_amount <? amount then
      ok_or (usub amount diff_amount) (Computation "calculating new withdrawable amount")
    else Ok 0
  else Ok amount.

(** Moving the withdrawable amount from the remaining collateral to the output. *)
Definition withdraw_collateral (r : ProcessResult) (amount : Z) : result ProcessResult :=
  if negb (is_zero amount) then
    let! collateral := expect (usub (remaining_collateral_amount r) amount) "must be success" in
    let! output := ok_or (uadd (output_amount r) amount)
      (Computation "overflow occurred while adding withdrawable amount") in
    Ok (set_amounts r output collateral (secondary_output_amount r))
  else Ok r.

Definition decrease_process_collateral self : PM P T (DecreasePosition * ProcessCollateralResult) :=
  let prices := decrease_prices (decrease_params self) in
  do! x := pread (fun market position => decrease_get_execution_params self market position) in
  let '(price_impact_value, price_impact_diff, execution_price) := x in
  do! p := pread (fun market position =>
    pnl_value market position prices (decrease_size_delta_usd self)) in
  let '(base_pnl_usd, uncapped_base_pnl_usd, size_delta_in_tokens) := p in
  do! s := sget in
  let position := ps_position s in
  let env := mkProcessorEnv prices (is_collateral_token_long position) (is_long position)
               (are_pnl_and_collateral_tokens_the_same position) in
  let flags := decrease_flags (decrease_params self) in
  do! fees := pread (fun market position =>
    position_fees market position
      (collateral_token_price prices (is_collateral_token_long position))
      (decrease_size_delta_usd self) (is_positive price_impact_value)
      (is_liquidation_order flags)) in
  do! r := run_processor (collateral_amount position) fees
    (process (is_insolvent_close_allowed flags)
       (settle env (decrease_swap (decrease_params self)) base_pnl_usd price_impact_value
          price_impact_diff)) in
  let (result, fees) := r in
  do! amount := slift (withdrawable_after_diff self (collateral_price position prices)
                         price_impact_diff) in
  let amount := if remaining_collateral_amount result <? amount
                then remaining_collateral_amount result else amount in
  do! result := slift (withdraw_collateral result amount) in
  sret (set_withdrawable self amount,
        mkProcessCollateralResult price_impact_value price_impact_diff execution_price
          size_delta_in_tokens (is_collateral_token_long position) (is_long position) result fees
          base_pnl_usd uncapped_base_pnl_usd).

(** [DecreasePositionReport::new]. *)
Definition decrease_report_new self (execution : ProcessCollateralResult) (remove : bool)
    : DecreasePositionReport :=
  let c := pc_collateral execution in
  mkDecreasePositionReport (pc_price_impact_value execution) (pc_price_impact_diff execution)
    (pc_execution_price execution) (pc_size_delta_in_tokens execution)
    (withdrawable_collateral_amount self) (initial_size_delta_usd (decrease_params self))
    (decrease_size_delta_usd self) (pc_fees execution) (pc_pnl execution)
    (pc_uncapped_pnl execution) (insolvent_close_step c) remove
    (pc_is_output_token_long execution) (pc_is_secondary_output_token_long execution)
    (output_amount c) (secondary_output_amount c)
    (claimable_long_token_amount (fees_funding (pc_fees execution)))
    (claimable_short_token_amount (fees_funding (pc_fees execution)))
    (for_holding c) (for_user c).

Definition set_output_amounts (r : DecreasePositionReport) (output secondary : Z)
    : DecreasePositionReport :=
  mkDecreasePositionReport (report_price_impact_value r) (report_price_impact_diff r)
    (report_execution_price r) (report_size_delta_in_tokens r)
    (report_withdrawable_collateral_amount r) (report_initial_size_delta_usd r)
    (report_size_delta_usd r) (report_fees r) (report_pnl r) (report_uncapped_pnl r)
    (report_insolvent_close_step r) (should_remove r) (report_is_output_token_long r)
    (report_is_secondary_output_token_long r) output secondary
    (report_claimable_funding_long_token_amount r) (report_claimable_funding_short_token_amount r)
    (report_for_holding r) (report_for_user r).

(** [swap_collateral_token_to_pnl_token]; an error of the swap is only reported to
    [on_swap_error]. *)
Definition swap_collateral_token_to_pnl_token (report : DecreasePositionReport) (prices : Prices)
    (ty : DecreasePositionSwapType) : PM P T DecreasePositionReport :=
  let is_token_in_long := report_is_output_token_long report in
  if negb (is_zero (report_output_amount report)) && bool_decide (ty = CollateralToPnlToken) then
    if Bool.eqb is_token_in_long (report_is_secondary_output_token_long report) then
      slift (Err (InvalidArgument "swap collateral: swap is not required"))
    else
      do! r := stry (on_market (swap is_token_in_long (report_output_amount report) prices)) in
      match r with
      | Ok swap_report =>
          do! secondary := slift
            (ok_or (uadd (report_secondary_output_amount report)
                      (token_out_amount (swap_result swap_report)))
               (Computation "swap collateral: overflow occurred while adding token_out_amount")) in
          sret (set_output_amounts report 0 secondary)
      | _ => sret report
      end
  else sret report.

(** The merge of the two output amounts at the end of [execute]. *)
Definition merge_output_amounts (same : bool) (report : DecreasePositionReport)
    : result DecreasePositionReport :=
  if same && negb (is_zero (report_secondary_output_amount report)) then
    let! output :=
      ok_or (uadd (report_output_amount report) (report_secondary_output_amount report))
        (Computation "overflow occurred while merging the secondary output amount") in
    Ok (set_output_amounts report output 0)
  else Ok report.

(** The new sizes and collateral of the position; a removed one is emptied, and its collateral
    joins the output. *)
Definition write_position (next_position_size_in_usd next_position_size_in_tokens : Z)
    (remove : bool) (execution : ProcessCollateralResult) : PM P T ProcessCollateralResult :=
  let collateral := pc_collateral execution in
  let next_position_collateral_amount := remaining_collateral_amount collateral in
  if remove then
    do! _ := on_position (fun p =>
      set_collateral_amount (set_size_in_tokens (set_size_in_usd p 0) 0) 0) in
    do! output := slift (ok_or (uadd (output_amount collateral) next_position_collateral_amount)
                           (Computation "calculating output amount")) in
    sret (mkProcessCollateralResult (pc_price_impact_value execution)
            (pc_price_impact_diff execution) (pc_execution_price execution)
            (pc_size_delta_in_tokens execution) (pc_is_output_token_long execution)
            (pc_is_secondary_output_token_long execution)
            (set_amounts collateral output next_position_collateral_amount
               (secondary_output_amount collateral))
            (pc_fees execution) (pc_pnl execution) (pc_uncapped_pnl execution))
  else
    do! _ := on_position (fun p =>
      set_collateral_amount
        (set_size_in_tokens (set_size_in_usd p next_position_size_in_usd)
           next_position_size_in_tokens) next_position_collateral_amount) in
    sret execution.

(** The block of [execute] that updates the position and the pools that follow it; it
    returns [should_remove] and the execution with the final output amount. *)
Definition decrease_update_position self (execution : ProcessCollateralResult)
    (initial_collateral_amount : Z) : PM P T (bool * ProcessCollateralResult) :=
  do! next_position_size_in_usd := pread (fun _ position =>
    ok_or (usub (size_in_usd position) (decrease_size_delta_usd self))
      (Computation "calculating next position size in usd")) in
  do! next_position_borrowing_factor := pread (fun market position =>
    cumulative_borrowing_factor market (is_long position)) in
  do! _ := update_total_borrowing next_position_size_in_usd next_position_borrowing_factor in
  do! next_position_size_in_tokens := pread (fun _ position =>
    ok_or (usub (size_in_tokens position) (pc_size_delta_in_tokens execution))
      (Computation "calculating next size in tokens")) in
  let remove := is_zero next_position_size_in_usd || is_zero next_position_size_in_tokens in
  do! execution := write_position next_position_size_in_usd next_position_size_in_tokens
    remove execution in
  do! collateral_delta_amount := pread (fun _ position =>
    ok_or (usub initial_collateral_amount (collateral_amount position))
      (Computation "collateral amount increased")) in
  do! delta := slift (to_opposite_signed collateral_delta_amount) in
  do! s := sget in
  do! _ := on_market (update_pool (CollateralSum (is_long (ps_position s)))
    (fun p => apply_delta_amount p (is_collateral_token_long (ps_position s)) delta)) in
  do! _ := on_position (fun p => set_borrowing_factor p next_position_borrowing_factor) in
  do! _ := update_funding_state_of_position in
  sret (remove, execution).

Definition execute_decrease self : PM P T DecreasePositionReport :=
  do! self := pread (fun market position => check_partial_close self market position) in
  do! s := sget in
  let self := check_close self (ps_position s) in
  let same := are_pnl_and_collateral_tokens_the_same (ps_position s) in
  let self :=
    if negb (bool_decide (decrease_swap (decrease_params self) = NoSwap)) && same
    then set_swap self NoSwap else self in
  do! _ := pread (fun market position => check_liquidation self market position) in
  let initial_collateral_amount := collateral_amount (ps_position s) in
  do! r := decrease_process_collateral self in
  let (self, execution) := r in
  do! r := decrease_update_position self execution initial_collateral_amount in
  let (remove, execution) := r in
  do! size := slift (to_opposite_signed (decrease_size_delta_usd self)) in
  do! tokens := slift (to_opposite_signed (pc_size_delta_in_tokens execution)) in
  do! _ := update_open_interest size tokens in
  let prices := decrease_prices (decrease_params self) in
  do! _ :=
    (if negb remove then
       pread (fun market position => validate_position market position prices false false)
     else sret tt) in
  let report := decrease_report_new self execution remove in
  do! report := swap_collateral_token_to_pnl_token report prices
                  (decrease_swap (decrease_params self)) in
  slift (merge_output_amounts same report).
End DecreasePosition.

(** ** The action before it touches the market *)
Section DecreaseFacts.
Context {I : UInt} {IOk : UIntOk I} {F : FixedPointOps I} {FOk : FixedPointOk F}
  {P T : Type} {O : PoolOps P} {L : PoolLaws I P} {S : SupplyOps T} {SL : SupplyLaws T}.
Implicit Types (m : Market P T) (p : Position) (s : PState P T) (self : DecreasePosition).

(** What [try_new] establishes and every step keeps: the amounts are capped by the position, and
    an insolvent close is only allowed for a full close. *)
Record DecreaseWf self p : Prop := {
  size_delta_capped : 0 <= decrease_size_delta_usd self <= size_in_usd p;
  withdrawable_capped : 0 <= withdrawable_collateral_amount self <= collateral_amount p;
  insolvent_is_full :
    is_insolvent_close_allowed (decrease_flags (decrease_params self)) = true ->
    decrease_size_delta_usd self = size_in_usd p;
  decrease_prices_valid : prices_is_valid (decrease_prices (decrease_params self)) = true;
}.

Lemma decrease_try_new_ok p prices size limit withdrawal flags self :
  PositionWf p -> 0 <= size -> 0 <= withdrawal ->
  decrease_position_try_new p prices size limit withdrawal flags = Ok self ->
  DecreaseWf self p
  /\ (is_insolvent_close_allowed (decrease_flags (decrease_params self)) = true ->
      is_insolvent_close_allowed flags = true)
  /\ (size_in_usd p < size ->
      is_cap_size_delta_usd_allowed flags = true /\ decrease_size_delta_usd self = size_in_usd p)
  /\ (size <= size_in_usd p -> decrease_size_delta_usd self = size).
Proof.
  intros Hp Hs Hw Hr. pose proof (size_in_usd_in_u _ Hp) as Hu. pose proof (collateral_amount_in_u _ Hp) as Hc.
  unfold in_u in Hu, Hc. unfold decrease_position_try_new in Hr.
  case_if_in Hr Hvalid; [discriminate|]. apply negb_false_iff in Hvalid.
  case_if_in Hr Hempty; [discriminate|].
  apply rbind_ok in Hr as ([flags' size'] & Hinit & [= <-]). unfold flags_init in Hinit.
  apply rbind_ok in Hinit as (sz & Hsz & [= <- <-]). simpl.
  assert (Hszv : sz = Z.min size (size_in_usd p)
    /\ (size_in_usd p < size -> is_cap_size_delta_usd_allowed flags = true)).
  { destruct (Z.ltb_spec (size_in_usd p) size); [|injection Hsz as <-; lia].
    case_if_in Hsz Hcap; [|discriminate]. injection Hsz as <-. split; [lia|done]. }
  destruct Hszv as [-> Hcap]. split_and!.
  - split; simpl; [lia|lia| |done]. intros Hi. bool_to_prop. done.
  - intros Hi. by bool_to_prop.
  - intros Hlt. split; [by apply Hcap|lia].
  - lia.
Qed.

(** A step that keeps the parameters and may turn a partial close into a full one. *)
Definition refines_action self self' p : Prop :=
  decrease_params self' = decrease_params self
  /\ (decrease_size_delta_usd self' = decrease_size_delta_usd self
      \/ decrease_size_delta_usd self' = size_in_usd p)
  /\ 0 <= withdrawable_collateral_amount self' <= withdrawable_collateral_amount self.

Lemma refines_wf self self' p : DecreaseWf self p -> refines_action self self' p -> DecreaseWf self' p.
Proof.
  intros [Hs Hw Hi Hv] (Hp & Hs' & Hw'). split; [|lia| |by rewrite Hp].
  - destruct Hs' as [->| ->]; lia.
  - rewrite Hp. intros Ha. specialize (Hi Ha). by destruct Hs' as [->| ->].
Qed.

Lemma add_back_ok self p will value self' :
  DecreaseWf self p -> add_back_withdrawable self p will = Ok (value, self') ->
  refines_action self self' p /\ decrease_size_delta_usd self' = decrease_size_delta_usd self
  /\ value = will_deref will
             + (withdrawable_collateral_amount self - withdrawable_collateral_amount self')
               * price_min (collateral_price p (decrease_prices (decrease_params self)))
  /\ (decrease_size_delta_usd self = 0 -> self' = self).
Proof.
  intros [? Hw ? ?] Hr. unfold add_back_withdrawable, pick_price in Hr. unfold refines_action, collateral_price.
  destruct will as [v|v]; [injection Hr as <- <-; simpl; split_and!; auto; lia|].
  case_if_in Hr Hz; [discriminate|]. bool_to_prop.
  apply rbind_ok in Hr as (x & Hx & Hr). apply ok_or_ok, umul_some in Hx as [-> _].
  apply rbind_ok in Hr as (y & Hy & Hr). apply to_signed_ok in Hy as [-> _].
  apply rbind_ok in Hr as (z & Hadd & Hr). apply ok_or_ok, iadd_some in Hadd as [-> _].
  injection Hr as <- <-. simpl. split_and!; auto; try lia. intros H0. by rewrite H0 in Hz.
Qed.

(** The value that a partial close is estimated to leave in the position: the collateral it
    keeps, less a realized loss, with the unrealized profit or loss. *)
Definition estimated_value self p (kept_collateral estimated_pnl : Z) : Z :=
  let realized := Z.quot (decrease_size_delta_usd self * estimated_pnl) (size_in_usd p) in
  kept_collateral * price_min (collateral_price p (decrease_prices (decrease_params self)))
  + Z.min 0 realized + (estimated_pnl - realized).

(** What a close that stays partial leaves behind. *)
Definition KeepsEnough self self' m p : Prop :=
  let params := position_params (m_config m) in
  decrease_size_delta_usd self' = decrease_size_delta_usd self
  /\ min_position_size_usd params <= size_in_usd p - decrease_size_delta_usd self'
  /\ (decrease_size_delta_usd self = 0 ->
      withdrawable_collateral_amount self' = withdrawable_collateral_amount self)
  /\ exists pnl uncapped tokens,
      pnl_value m p (decrease_prices (decrease_params self)) (size_in_usd p) = Ok (pnl, uncapped, tokens)
      /\ min_collateral_value params
         <= estimated_value self p (collateral_amount p - withdrawable_collateral_amount self') pnl.

(** What [check_partial_close] decides, for its callers. *)
Lemma check_partial_close_ok self m p self' :
  PositionWf p -> DecreaseWf self p -> check_partial_close self m p = Ok self' ->
  refines_action self self' p
  /\ (decrease_size_delta_usd self' < size_in_usd p -> KeepsEnough self self' m p).
Proof.
  intros Hp Hwf Hr. pose proof (withdrawable_capped _ _ Hwf) as Hwc.
  unfold check_partial_close in Hr. case_if_in Hr Hrem; unfold will_size_remain in Hrem; bool_to_prop;
    [|injection Hr as <-; split; [unfold refines_action; auto with lia|lia]].
  apply rbind_ok in Hr as ([[pnl uncapped] tokens] & Hpnl & Hr).
  apply rbind_ok in Hr as (y & Hy & Hr). apply ok_or_ok, signed_numerator_some in Hy as (_ & -> & _).
  apply rbind_ok in Hr as (z & Hz & Hr). apply ok_or_ok, isub_some in Hz as [-> _].
  apply rbind_ok in Hr as (? & _ & Hr).
  apply rbind_ok in Hr as (kept & Hkept & Hr). apply expect_ok, usub_some in Hkept as [-> _].
  apply rbind_ok in Hr as (? & _ & Hr).
  apply rbind_ok in Hr as (will & Hwill & Hr). apply will_collateral_ok in Hwill as [Hv _]. simpl in Hv.
  apply rbind_ok in Hr as ([value self1] & Hadd & Hr).
  apply add_back_ok in Hadd as ((Hpa & _ & Hw) & Hsz & -> & Hkeep); [|done].
  apply rbind_ok in Hr as (remaining & Hrv & Hr). apply ok_or_ok, iadd_some in Hrv as [-> _].
  apply rbind_ok in Hr as (minimum & Hmv & Hr). apply to_signed_ok in Hmv as [-> _].
  match type of Hr with context [if ?c then set_size_delta_usd self1 _ else self1] =>
    destruct c eqn:Hlow end; bool_to_prop.
  { simpl in Hr. rewrite Z.ltb_irrefl in Hr. injection Hr as <-.
    split; [unfold refines_action; simpl; auto|simpl; lia]. }
  case_if_in Hr Hpart; bool_to_prop; [|lia].
  apply rbind_ok in Hr as (left & Hleft & Hr). apply expect_ok, usub_some in Hleft as [-> _].
  case_if_in Hr Hmin; injection Hr as <-; bool_to_prop.
  - split; [unfold refines_action; simpl; auto|simpl; lia].
  - split; [unfold refines_action; auto|]. intros _. unfold KeepsEnough, estimated_value.
    split_and!; [done|lia|by intros H0; rewrite (Hkeep H0)|].
    exists pnl, uncapped, tokens. split; [done|].
    pose proof (size_delta_capped _ _ Hwf). rewrite <- sgn_div_quot by lia. rewrite Hv in Hlow. lia.
Qed.

(** A partial close either leaves a position worth keeping or becomes a full close. If the
    decrease stays partial, the remaining size is at least the minimum, and the collateral
    that is kept less a realized loss, together with the estimated remaining profit or loss,
    is worth at least the minimum collateral value; otherwise the whole size is closed. The
    withdrawal is never increased, and it is left alone when only collateral is withdrawn. *)
Theorem check_partial_close_spec self m p self' :
  PositionWf p -> DecreaseWf self p -> check_partial_close self m p = Ok self' ->
  refines_action self self' p
  /\ (decrease_size_delta_usd self' < size_in_usd p -> KeepsEnough self self' m p).
Proof. apply check_partial_close_ok. Qed.

(** ** The execution price *)
Lemma execution_price_for_decrease_ok price size tokens delta impact limit b r :
  get_execution_price_for_decrease price size tokens delta impact limit b = Ok r ->
  (forall k, limit = Some k -> if b then k <= r else r <= k)
  /\ (0 < delta -> tokens <> 0 ->
      let adjusted := if b then impact else - impact in
      - delta <= adjusted
      /\ r = pick_price price (negb b) + Z.quot (Z.sgn adjusted * (size * Z.abs adjusted / delta)) tokens).
Proof.
  intros Hr. unfold get_execution_price_for_decrease in Hr. unfold_num_tests.
  apply rbind_ok in Hr as (x & Hx & Hr).
  assert (r = x /\ (forall k, limit = Some k -> if b then k <= r else r <= k)) as [-> Hlim].
  { destruct limit as [k|]; [|injection Hr as <-; done].
    case_if_in Hr Hok; [|discriminate]. injection Hr as <-. split; [done|]. intros ? [= <-].
    apply orb_true_iff in Hok as [Hok|Hok]; bool_to_prop; destruct b; done. }
  split; [done|]. intros Hd Ht. clear Hr Hlim.
  rewrite (proj2 (Z.eqb_neq delta 0)), (proj2 (Z.eqb_neq tokens 0)) in Hx by lia. simpl in Hx.
  apply rbind_ok in Hx as (a & Ha & Hx).
  assert (a = if b then impact else - impact) as <-.
  { destruct b; [by injection Ha|]. apply ok_or_ok, isub_some in Ha as [-> _]. lia. }
  case_if_in Hx Hbig; [discriminate|].
  apply rbind_ok in Hx as (t & Ht' & Hx). apply to_signed_ok in Ht' as [-> _].
  apply rbind_ok in Hx as (q & Hq & Hx). apply ok_or_ok, signed_numerator_some in Hq as (_ & -> & _).
  apply rbind_ok in Hx as (adj & Hadj & Hx). apply ok_or_ok, idiv_some in Hadj as (_ & -> & _).
  apply ok_or_ok, checked_add_with_signed_some in Hx as [-> _].
  split; [|done].
  apply andb_false_iff in Hbig as [Hbig|Hbig]; bool_to_prop; lia.
Qed.

(** ** Settling the decrease *)
Definition processor_env self p : ProcessorEnv :=
  mkProcessorEnv (decrease_prices (decrease_params self)) (is_collateral_token_long p) (is_long p)
    (are_pnl_and_collateral_tokens_the_same p).

Lemma position_fees_funding m p price size pos liq fees :
  position_fees m p price size pos liq = Ok fees ->
  pending_funding_fees m p = Ok (fees_funding fees) /\ 0 <= funding_fee_amount (fees_funding fees).
Proof.
  unfold position_fees. intros Hr. apply rbind_ok in Hr as (? & _ & Hr).
  apply rbind_ok in Hr as (? & _ & Hr). apply rbind_ok in Hr as (? & _ & Hr).
  apply rbind_ok in Hr as (? & _ & Hr). apply rbind_ok in Hr as (f & Hf & [= <-]). simpl.
  split; [done|]. unfold pending_funding_fees in Hf. apply rbind_ok in Hf as (? & _ & Hf).
  apply rbind_ok in Hf as (a & Ha & Hf). apply ok_or_ok in Ha.
  assert (in_u a) as [Ha0 _].
  { unfold unpack_to_funding_amount_delta in Ha. code_inv. done. }
  do 4 (apply rbind_ok in Hf as (? & _ & Hf)). by injection Hf as <-.
Qed.

Lemma decrease_execution_ok self m p v d price :
  decrease_get_execution_params self m p = Ok (v, d, price) -> 0 <= d.
Proof.
  unfold decrease_get_execution_params, capped_position_price_impact. intros Hr.
  case_if_in Hr Hz; [by injection Hr as _ <- _|].
  apply rbind_ok in Hr as (? & _ & Hr). apply rbind_ok in Hr as ([v' d'] & Hc & Hr).
  apply rbind_ok in Hr as (? & _ & Hr). injection Hr as <- <- <-.
  apply rbind_ok in Hc as (? & _ & Hc). apply rbind_ok in Hc as ([diff down] & Hc & Hd).
  apply cap_negative_ok in Hc as (_ & _ & ?). by injection Hd as _ <-.
Qed.

Lemma env_prices_pos self p :
  DecreaseWf self p -> prices_in_range (decrease_prices (decrease_params self)) ->
  0 < price_min (output_token_price (processor_env self p))
  /\ 0 < price_min (pnl_token_price (processor_env self p)).
Proof.
  intros [_ _ _ Hv] (_ & Hl & Hs). unfold prices_is_valid in Hv. bool_to_prop.
  pose proof (price_valid_pos _ Hl ltac:(assumption)) as (? & _).
  pose proof (price_valid_pos _ Hs ltac:(assumption)) as (? & _).
  unfold output_token_price, pnl_token_price, processor_env. simpl.
  destruct (is_collateral_token_long p), (is_long p); done.
Qed.

Lemma withdrawable_after_diff_ok self price d r :
  0 <= withdrawable_collateral_amount self -> 0 <= price_min price -> 0 <= d ->
  withdrawable_after_diff self price d = Ok r -> 0 <= r <= withdrawable_collateral_amount self.
Proof.
  intros Hw Hp Hd Hr. unfold withdrawable_after_diff, pick_price in Hr.
  case_if_in Hr Hz; [|injection Hr as <-; lia].
  apply rbind_ok in Hr as (x & Hx & Hr). apply ok_or_ok, udiv_some in Hx as (_ & -> & Hx).
  unfold in_u in Hx. case_if_in Hr Hlt; bool_to_prop; [|injection Hr as <-; lia].
  apply ok_or_ok, usub_some in Hr as [-> _]. lia.
Qed.

Lemma withdraw_collateral_ok r amount r' :
  ReportWf r -> 0 <= amount -> withdraw_collateral r amount = Ok r' ->
  ReportWf r' /\ insolvent_close_step r' = insolvent_close_step r
  /\ remaining_collateral_amount r' = remaining_collateral_amount r - amount
  /\ forall env, forall w, weigh w (owed env r') = weigh w (owed env r).
Proof.
  intros [? ? ?] Ha Hr. unfold withdraw_collateral in Hr. unfold_num_tests.
  case_if_in Hr Hz; [|injection Hr as <-; bool_to_prop; subst amount; split_and!; [done|done|lia|done]].
  apply rbind_ok in Hr as (c & Hc & Hr). apply expect_ok, usub_some in Hc as [-> Hc].
  apply rbind_ok in Hr as (o & Ho & [= <-]). apply ok_or_ok, uadd_some in Ho as [-> Ho].
  unfold in_u in Hc, Ho. split_and!; simpl; try done; [split; simpl; lia|].
  intros env w. rewrite !weigh_owed. simpl. lia.
Qed.

(** What the settlement leaves, before the position is updated. *)
Record DecreaseSettled self m p (self' : DecreasePosition) (e : ProcessCollateralResult) m' : Prop := {
  ds_action : refines_action self self' p /\ decrease_size_delta_usd self' = decrease_size_delta_usd self;
  ds_execution : decrease_get_execution_params self m p
                 = Ok (pc_price_impact_value e, pc_price_impact_diff e, pc_execution_price e);
  ds_pnl : pnl_value m p (decrease_prices (decrease_params self)) (decrease_size_delta_usd self)
           = Ok (pc_pnl e, pc_uncapped_pnl e, pc_size_delta_in_tokens e);
  ds_sides : pc_is_output_token_long e = is_collateral_token_long p
             /\ pc_is_secondary_output_token_long e = is_long p;
  ds_report : ReportWf (pc_collateral e);
  ds_collateral : remaining_collateral_amount (pc_collateral e) <= collateral_amount p;
  ds_insolvent : insolvent_close_step (pc_collateral e) <> None ->
    is_insolvent_close_allowed (decrease_flags (decrease_params self)) = true;
  ds_move : exists c funding fees,
    pending_funding_fees m p = Ok fees
    /\ - fee_shortfall (processor_env self p) <= funding <= funding_fee_amount fees
    /\ Moved m c m' /\ unledgered c
    /\ forall w, fair (processor_env self p) w ->
         weigh w (held_change c) + weigh w (owed (processor_env self p) (pc_collateral e))
         = w (is_collateral_token_long p) * (collateral_amount p - funding);
}.

Lemma run_processor_ok c fees (f : CM P T ProcessResult) s s' r fees' :
  run_processor c fees f s = (s', Ok (r, fees')) ->
  exists x, f (mkProcessor (ps_market s) (initial_report c) fees None) = (x, Ok r)
    /\ s' = mkPState (pr_market x) (ps_position s) /\ fees' = pr_fees x.
Proof.
  unfold run_processor. destruct (f _) as [x [a|e|msg]]; intros Hr; try discriminate.
  simpl in Hr. injection Hr as <- <- <-. eauto.
Qed.

Lemma initial_weigh env c w : weigh w (owed env (initial_report c)) = w (is_output_token_long env) * c.
Proof. rewrite weigh_owed. simpl. lia. Qed.

Lemma weigh_into_report env r step w : weigh w (owed env (into_report r step)) = weigh w (owed env r).
Proof. by rewrite !weigh_owed. Qed.

Lemma decrease_process_collateral_ok self m p s' self' e :
  market_wf m -> PositionWf p -> DecreaseWf self p ->
  prices_in_range (decrease_prices (decrease_params self)) ->
  prices_ordered (decrease_prices (decrease_params self)) ->
  decrease_process_collateral self (mkPState m p) = (s', Ok (self', e)) ->
  ps_position s' = p /\ DecreaseSettled self m p self' e (ps_market s').
Proof.
  intros Hwf Hp Hself Hrange Hord Hr. unfold decrease_process_collateral in Hr.
  pose proof (env_prices_pos _ _ Hself Hrange) as [Hpo Hpp].
  pose proof (collateral_amount_in_u _ Hp) as Hcu. unfold in_u in Hcu.
  pose proof (withdrawable_capped _ _ Hself) as Hw.
  apply sbind_ok in Hr as (? & [[v d] price] & Hex & Hr). apply sread_ok in Hex as [-> Hex].
  apply decrease_execution_ok in Hex as Hd.
  apply sbind_ok in Hr as (? & [[pnl un] tokens] & Hpnl & Hr). apply sread_ok in Hpnl as [-> Hpnl].
  apply sbind_ok in Hr as (? & ? & Hget & Hr). apply sget_ok in Hget as [-> ->]. cbn [ps_position ps_market] in *.
  apply sbind_ok in Hr as (? & fees & Hfees & Hr). apply sread_ok in Hfees as [-> Hfees].
  apply position_fees_funding in Hfees as [Hfunding Hf0]. cbn [ps_position ps_market] in *.
  apply sbind_ok in Hr as (s1 & [r fees'] & Hrun & Hr).
  apply run_processor_ok in Hrun as (x & Hproc & -> & ->). cbn [ps_position ps_market] in *.
  apply process_ok in Hproc as (res & Hrun & Hout & Hrep & _ & Hal).
  assert (Hpwf : ProcessorWf (mkProcessor m (initial_report (collateral_amount p)) fees None))
    by (split; [done|split; simpl; lia]).
  apply (settle_settles (processor_env self p)) in Hrun as [(ch & fund & Hb & Hm & Hun & Hweigh) Hrw Hcoll]; [|done..].
  cbn [pr_market pr_report pr_fees] in *.
  apply sbind_ok in Hr as (? & amount & Ham & Hr). apply slift_ok in Ham as [-> Ham].
  apply withdrawable_after_diff_ok in Ham; [|lia| |done].
  2:{ unfold collateral_price. destruct Hrange as (_ & [[? _] _] & [[? _] _]).
      by destruct (is_collateral_token_long p). }
  set (amount' := if remaining_collateral_amount r <? amount then _ else _) in Hr.
  assert (Hrw' : ReportWf r) by (rewrite Hrep; by destruct Hrw).
  assert (Ham' : 0 <= amount' <= amount).
  { subst amount'. pose proof (collateral_nonneg _ Hrw'). case_if Hlt; bool_to_prop; lia. }
  clearbody amount'.
  apply sbind_ok in Hr as (? & r' & Hr' & Hr). apply slift_ok in Hr' as [-> Hr'].
  apply withdraw_collateral_ok in Hr' as (Hrw2 & Hstep & Hrem & Howed); [|done|lia].
  apply sret_ok in Hr as [-> [= -> ->]]. simpl. split; [done|].
  split; simpl; try done.
  - unfold refines_action. simpl. split_and!; auto; lia.
  - rewrite Hrem, Hrep. simpl in *. lia.
  - by rewrite Hstep.
  - exists ch, fund, (fees_funding fees). split_and!; try done; try lia.
    intros w Hfair. rewrite Howed, Hrep, weigh_into_report, (Hweigh w Hfair), initial_weigh. simpl. lia.
Qed.

(** ** Updating the position *)

(** What the update does; [removed] is [should_remove]. *)
Record DecreaseUpdated self m p (e e' : ProcessCollateralResult) (removed : bool) m' p' : Prop := {
  du_kind : same_kind p p';
  du_removed : removed = true <->
    decrease_size_delta_usd self = size_in_usd p \/ pc_size_delta_in_tokens e = size_in_tokens p;
  du_size : size_in_usd p' = if removed then 0 else size_in_usd p - decrease_size_delta_usd self;
  du_tokens : size_in_tokens p' = if removed then 0 else size_in_tokens p - pc_size_delta_in_tokens e;
  du_capped : decrease_size_delta_usd self <= size_in_usd p /\ pc_size_delta_in_tokens e <= size_in_tokens p;
  du_collateral : collateral_amount p'
                  = if removed then 0 else remaining_collateral_amount (pc_collateral e);
  du_output : output_amount (pc_collateral e') + collateral_amount p'
              = output_amount (pc_collateral e) + remaining_collateral_amount (pc_collateral e);
  du_output_nonneg : 0 <= output_amount (pc_collateral e');
  du_rest : exists output, e' = mkProcessCollateralResult (pc_price_impact_value e)
      (pc_price_impact_diff e) (pc_execution_price e) (pc_size_delta_in_tokens e)
      (pc_is_output_token_long e) (pc_is_secondary_output_token_long e)
      (set_amounts (pc_collateral e) output (remaining_collateral_amount (pc_collateral e))
         (secondary_output_amount (pc_collateral e))) (pc_fees e) (pc_pnl e) (pc_uncapped_pnl e);
  du_move : exists factor,
    position_borrowing_factor p' = factor
    /\ Moved m
        (change_at TotalBorrowing (is_long p)
           (borrowing_of (size_in_usd p - decrease_size_delta_usd self) factor
            - borrowing_of (size_in_usd p) (position_borrowing_factor p))
         + change_at (CollateralSum (is_long p)) (is_collateral_token_long p)
             (collateral_amount p' - collateral_amount p))%change m';
  du_funding : funding_up_to_date m' p';
}.

Lemma write_position_ok size tokens remove e s s' e' :
  ReportWf (pc_collateral e) ->
  write_position size tokens remove e s = (s', Ok e') ->
  ps_market s' = ps_market s /\ same_kind (ps_position s) (ps_position s')
  /\ size_in_usd (ps_position s') = (if remove then 0 else size)
  /\ size_in_tokens (ps_position s') = (if remove then 0 else tokens)
  /\ collateral_amount (ps_position s')
     = (if remove then 0 else remaining_collateral_amount (pc_collateral e))
  /\ output_amount (pc_collateral e') + collateral_amount (ps_position s')
     = output_amount (pc_collateral e) + remaining_collateral_amount (pc_collateral e)
  /\ 0 <= output_amount (pc_collateral e')
  /\ exists output, e' = mkProcessCollateralResult (pc_price_impact_value e)
    (pc_price_impact_diff e) (pc_execution_price e) (pc_size_delta_in_tokens e)
    (pc_is_output_token_long e) (pc_is_secondary_output_token_long e)
    (set_amounts (pc_collateral e) output (remaining_collateral_amount (pc_collateral e))
       (secondary_output_amount (pc_collateral e))) (pc_fees e) (pc_pnl e) (pc_uncapped_pnl e).
Proof.
  intros [] Hr. unfold write_position in Hr. destruct remove.
  - apply sbind_ok in Hr as (? & ? & Hw & Hr). apply smodify_ok in Hw as ->.
    apply sbind_ok in Hr as (? & out & Ho & Hr). apply slift_ok in Ho as [-> Ho].
    apply ok_or_ok, uadd_some in Ho as [-> Ho]. apply sret_ok in Hr as [-> ->].
    unfold same_kind. simpl. split_and!; try done; try lia. eauto.
  - apply sbind_ok in Hr as (? & ? & Hw & Hr). apply smodify_ok in Hw as ->.
    apply sret_ok in Hr as [-> ->].
    unfold same_kind. simpl. split_and!; try done; try lia.
    exists (output_amount (pc_collateral e)). by destruct e as [? ? ? ? ? ? [] ? ? ?].
Qed.

Lemma decrease_update_position_ok self m p e s' removed e' :
  market_wf m -> ReportWf (pc_collateral e) ->
  decrease_update_position self e (collateral_amount p) (mkPState m p) = (s', Ok (removed, e')) ->
  DecreaseUpdated self m p e e' removed (ps_market s') (ps_position s').
Proof.
  intros Hwf Hrw Hr. unfold decrease_update_position in Hr.
  apply sbind_ok in Hr as (? & size & Hx & Hr). apply sread_ok in Hx as [-> Hx].
  apply ok_or_ok, usub_some in Hx as [-> Hsu].
  apply sbind_ok in Hr as (? & factor & Hf & Hr). apply sread_ok in Hf as [-> Hf].
  apply sbind_ok in Hr as (s1 & ? & H1 & Hr). apply update_total_borrowing_moved in H1 as [H1 Hp1]; [|done].
  apply sbind_ok in Hr as (? & tokens & Hx & Hr). apply sread_ok in Hx as [-> Hx].
  apply ok_or_ok, usub_some in Hx as [-> Htu]. rewrite Hp1 in Htu.
  cbn [ps_market ps_position] in *. rewrite Hp1 in Hr.
  unfold in_u in Hsu, Htu. unfold is_zero in Hr.
  set (remove := (_ =? 0) || (_ =? 0)) in Hr.
  assert (Hremove : remove = true <-> decrease_size_delta_usd self = size_in_usd p
                    \/ pc_size_delta_in_tokens e = size_in_tokens p).
  { subst remove. rewrite orb_true_iff, !Z.eqb_eq. lia. }
  clearbody remove.
  apply sbind_ok in Hr as (s2 & e2 & H2 & Hr).
  apply write_position_ok in H2; [|done]. rewrite Hp1 in H2.
  destruct H2 as (Hm2 & Hkind & Hsz & Htk & Hco & Hout & Hon & Hrest).
  apply sbind_ok in Hr as (? & cd & Hx & Hr). apply sread_ok in Hx as [-> Hx].
  apply ok_or_ok, usub_some in Hx as [-> _].
  apply sbind_ok in Hr as (? & d & Hx & Hr). apply slift_ok in Hx as [-> Hx].
  apply to_opposite_signed_ok in Hx as (-> & _ & _).
  apply sbind_ok in Hr as (? & ? & Hget & Hr). apply sget_ok in Hget as [-> ->].
  apply sbind_ok in Hr as (s3 & ? & H3 & Hr). apply on_market_ok in H3 as (m3 & H3 & ->).
  rewrite Hm2 in H3. apply update_pool_amount_moved in H3; [|by eapply moved_wf].
  apply sbind_ok in Hr as (? & ? & Hw & Hr). apply smodify_ok in Hw as ->.
  apply sbind_ok in Hr as (s4 & ? & H4 & Hr).
  apply update_funding_state_ok in H4 as (Hm4 & Hfund & f & cl & cs & Hp4).
  apply sret_ok in Hr as [-> [= -> ->]]. cbn [ps_market ps_position] in *.
  rewrite Hm4 in *. destruct Hkind as (Hl & Hc & Hs).
  split; rewrite ?Hp4; unfold same_kind; simpl; try done.
  - lia.
  - exists factor. split; [done|]. eapply moved_ext; [eapply moved_trans; [exact H1|exact H3]|].
    intros k b. rewrite Hl, Hc. unfold change_plus. f_equal. f_equal. lia.
  - by rewrite <- Hp4.
Qed.

(** ** The output *)

(** The tokens that leave the market or are set aside, by side. *)
Definition paid_out (r : DecreasePositionReport) (side : bool) : Z :=
  (if Bool.eqb side (report_is_output_token_long r) then
     report_output_amount r + output_token_amount (report_for_holding r)
     + output_token_amount (report_for_user r)
   else 0)
  + (if Bool.eqb side (report_is_secondary_output_token_long r) then
       report_secondary_output_amount r + secondary_output_token_amount (report_for_holding r)
       + secondary_output_token_amount (report_for_user r)
     else 0).

Lemma weigh_paid_out w r :
  weigh w (paid_out r) =
  w (report_is_output_token_long r) * (report_output_amount r
    + output_token_amount (report_for_holding r) + output_token_amount (report_for_user r))
  + w (report_is_secondary_output_token_long r) * (report_secondary_output_amount r
    + secondary_output_token_amount (report_for_holding r)
    + secondary_output_token_amount (report_for_user r)).
Proof.
  unfold weigh, paid_out.
  destruct (report_is_output_token_long r), (report_is_secondary_output_token_long r); simpl; lia.
Qed.

(** A report that differs in the output amounts only. *)
Definition same_report (r r' : DecreasePositionReport) : Prop :=
  exists output secondary, r' = set_output_amounts r output secondary.

Lemma same_report_refl r : same_report r r.
Proof. exists (report_output_amount r), (report_secondary_output_amount r). by destruct r. Qed.

Lemma same_report_trans r r' r'' : same_report r r' -> same_report r' r'' -> same_report r r''.
Proof. intros (o & x & ->) (o' & x' & ->). by exists o', x'. Qed.

Lemma final_swap_ok report prices ty s s' report' :
  market_wf (ps_market s) -> prices_in_range prices -> prices_ordered prices ->
  swap_collateral_token_to_pnl_token report prices ty s = (s', Ok report') ->
  ps_position s' = ps_position s /\ same_report report report'
  /\ exists c, Moved (ps_market s) c (ps_market s') /\ unledgered c
     /\ forall w, weigh w (held_change c) + weigh w (paid_out report') = weigh w (paid_out report).
Proof.
  intros Hwf Hrange Hord Hr. unfold swap_collateral_token_to_pnl_token in Hr.
  assert (Hnone : forall m', m' = ps_market s -> exists c, Moved (ps_market s) c m' /\ unledgered c
     /\ forall w, weigh w (held_change c) + weigh w (paid_out report) = weigh w (paid_out report)).
  { intros m' ->. exists no_change. split_and!; [by apply moved_refl|done|].
    intros w. unfold weigh, held_change, no_change. lia. }
  case_if_in Hr Hgo; [|apply sret_ok in Hr as [-> ->]; split_and!; [done|apply same_report_refl|auto]].
  case_if_in Hr Hsame; [discriminate|].
  assert (Hside : report_is_secondary_output_token_long report
                  = negb (report_is_output_token_long report))
    by (by destruct (report_is_output_token_long report),
           (report_is_secondary_output_token_long report)).
  apply sbind_ok in Hr as (s1 & res & Hres & Hr). apply stry_ok in Hres as [Hres Hpanic].
  destruct res as [sr|e|msg]; [| |done].
  - apply on_market_ok in Hres as (m' & Hswap & ->).
    apply swap_moves in Hswap as (pin & pout & di & do & Hm & Hin & Hout); [|done..].
    apply sbind_ok in Hr as (? & v & Hv & Hr). apply slift_ok in Hv as [-> Hv].
    apply ok_or_ok, uadd_some in Hv as [-> _]. apply sret_ok in Hr as [-> ->]. simpl.
    split_and!; [done|by eexists _, _|].
    exists (swap_change (report_is_output_token_long report) pin (- pout) di do
              (fee_amount_for_receiver (token_in_fees (swap_result sr)))).
    split_and!; [done|apply swap_change_unledgered|].
    intros w. rewrite weigh_swap_change, !weigh_paid_out. simpl. rewrite Hin, Hside.
    replace (- pout + do) with (- token_out_amount (swap_result sr)) by lia. lia.
  - apply sret_ok in Hr as [-> ->]. unfold on_market, szoom in Hres.
    destruct (swap _ _ _ _) as [m' r'] eqn:Hswap. injection Hres as <- ->. simpl.
    split_and!; [done|apply same_report_refl|]. apply Hnone. by eapply swap_failure.
Qed.

Lemma merge_ok same report report' :
  merge_output_amounts same report = Ok report' ->
  same_report report report'
  /\ forall w, (same = true ->
        w (report_is_output_token_long report) = w (report_is_secondary_output_token_long report)) ->
      weigh w (paid_out report') = weigh w (paid_out report).
Proof.
  intros Hr. unfold merge_output_amounts in Hr.
  case_if_in Hr Hm; [|injection Hr as <-; split; [apply same_report_refl|done]].
  apply rbind_ok in Hr as (v & Hv & [= <-]). apply ok_or_ok, uadd_some in Hv as [-> _].
  split; [by eexists _, _|]. intros w Hw. bool_to_prop. rewrite !weigh_paid_out. simpl.
  rewrite Hw by done. lia.
Qed.

(** What a decrease does to the market and to the position. *)
Record Decreased self m p r m' p' : Prop := {
  decreased_kind : same_kind p p';
  decreased_capped :
    0 <= report_size_delta_usd r <= size_in_usd p
    /\ 0 <= report_size_delta_in_tokens r <= size_in_tokens p;
  decreased_full : decrease_size_delta_usd self = size_in_usd p -> report_size_delta_usd r = size_in_usd p;
  decreased_removed : should_remove r = true <->
    report_size_delta_usd r = size_in_usd p \/ report_size_delta_in_tokens r = size_in_tokens p;
  decreased_closed : report_size_delta_usd r = size_in_usd p ->
    report_size_delta_in_tokens r = size_in_tokens p;
  decreased_size : size_in_usd p'
                   = if should_remove r then 0 else size_in_usd p - report_size_delta_usd r;
  decreased_tokens : size_in_tokens p'
                     = if should_remove r then 0 else size_in_tokens p - report_size_delta_in_tokens r;
  decreased_collateral : 0 <= collateral_amount p' <= collateral_amount p
                         /\ (should_remove r = true -> collateral_amount p' = 0);
  decreased_insolvent : report_insolvent_close_step r <> None ->
    is_insolvent_close_allowed (decrease_flags (decrease_params self)) = true
    /\ report_size_delta_usd r = size_in_usd p;
  decreased_healthy : should_remove r = false -> exists m1 c,
    Moved m1 c m' /\ unledgered c
    /\ validate_position m1 p' (decrease_prices (decrease_params self)) false false = Ok tt;
  decreased_market : exists c funding fees factor,
    position_borrowing_factor p' = factor
    /\ pending_funding_fees m p = Ok fees
    /\ - fee_shortfall (processor_env self p) <= funding <= funding_fee_amount fees
    /\ Moved m c m'
    /\ (forall k b, is_ledger_pool k = true ->
         c k b = position_change (is_long p) (is_collateral_token_long p)
                   (- report_size_delta_usd r) (- report_size_delta_in_tokens r)
                   (collateral_amount p' - collateral_amount p)
                   (borrowing_of (size_in_usd p - report_size_delta_usd r) factor
                    - borrowing_of (size_in_usd p) (position_borrowing_factor p)) k b)
    /\ forall w, fair (processor_env self p) w ->
         weigh w (held_change c) + weigh w (paid_out r) + w (is_collateral_token_long p) * collateral_amount p'
         = w (is_collateral_token_long p) * (collateral_amount p - funding);
}.

Lemma pnl_value_tokens m p prices delta pnl un n :
  PositionWf p -> 0 <= delta <= size_in_usd p ->
  pnl_value m p prices delta = Ok (pnl, un, n) ->
  0 <= n <= size_in_tokens p /\ (delta = 0 -> n = 0) /\ (delta = size_in_usd p -> n = size_in_tokens p).
Proof.
  intros Hp Hd Hr. unfold pnl_value in Hr. do 5 (apply rbind_ok in Hr as (? & _ & Hr)).
  apply rbind_ok in Hr as (t & Ht & Hr). do 2 (apply rbind_ok in Hr as (? & _ & Hr)). injection Hr as <- <- <-.
  pose proof (size_in_tokens_in_u _ Hp) as [? _]. pose proof (no_tokens_without_size _ Hp) as Hz.
  destruct (Z.eq_dec (size_in_usd p) 0) as [Hs|Hs].
  - unfold size_delta_tokens in Ht. rewrite (proj2 (Z.eqb_eq (size_in_usd p) delta)) in Ht by lia.
    injection Ht as <-. specialize (Hz Hs). lia.
  - apply size_delta_tokens_ok in Ht as (Hb & Hfull & Hround); [|lia..].
    split_and!; [lia|lia| |done]. intros ->. rewrite Z.mul_0_r in Hround.
    destruct (is_long p); nia.
Qed.

Lemma check_close_ok self p :
  DecreaseWf self p -> refines_action self (check_close self p) p
  /\ decrease_size_delta_usd (check_close self p) = decrease_size_delta_usd self.
Proof.
  intros [? ? ? ?]. unfold check_close, refines_action. case_if Hb; simpl; split_and!; auto; lia.
Qed.

Lemma set_swap_wf self p ty : DecreaseWf self p -> DecreaseWf (set_swap self ty) p.
Proof. intros [? ? ? ?]. by split. Qed.

(** The action as it enters the settlement. *)
Definition prepared self0 self m p : Prop :=
  exists self1, check_partial_close self0 m p = Ok self1
    /\ (self = check_close self1 p \/ self = set_swap (check_close self1 p) NoSwap)
    /\ check_liquidation self m p = Ok tt.

Lemma prepared_ok self0 self m p :
  PositionWf p -> DecreaseWf self0 p -> prepared self0 self m p ->
  DecreaseWf self p
  /\ decrease_prices (decrease_params self) = decrease_prices (decrease_params self0)
  /\ decrease_flags (decrease_params self) = decrease_flags (decrease_params self0)
  /\ processor_env self p = processor_env self0 p
  /\ (decrease_size_delta_usd self0 = size_in_usd p -> decrease_size_delta_usd self = size_in_usd p).
Proof.
  intros Hp Hwf (self1 & Hpart & Hself & _). apply check_partial_close_ok in Hpart as [Href1 _]; [|done..].
  pose proof (refines_wf _ _ _ Hwf Href1) as Hwf1.
  pose proof (check_close_ok _ _ Hwf1) as [Href2 _]. pose proof (refines_wf _ _ _ Hwf1 Href2) as Hwf2.
  destruct Href1 as (H1 & Hs1 & _), Href2 as (H2 & Hs2 & _). unfold processor_env.
  destruct Hself as [->| ->]; simpl; rewrite ?H2, ?H1; split_and!; try done; try (by apply set_swap_wf);
    intros Hfull; destruct Hs1, Hs2; congruence.
Qed.

Lemma execute_decrease_steps self0 m p s' r :
  execute_decrease self0 (mkPState m p) = (s', Ok r) ->
  exists self self' s1 s2 s3 e e' removed report report',
    prepared self0 self m p
    /\ decrease_process_collateral self (mkPState m p) = (s1, Ok (self', e))
    /\ decrease_update_position self' e (collateral_amount p) s1 = (s2, Ok (removed, e'))
    /\ update_open_interest (- decrease_size_delta_usd self') (- pc_size_delta_in_tokens e') s2 = (s3, Ok tt)
    /\ (removed = false ->
        validate_position (ps_market s3) (ps_position s3)
          (decrease_prices (decrease_params self')) false false = Ok tt)
    /\ report = decrease_report_new self' e' removed
    /\ swap_collateral_token_to_pnl_token report (decrease_prices (decrease_params self'))
         (decrease_swap (decrease_params self')) s3 = (s', Ok report')
    /\ merge_output_amounts (are_pnl_and_collateral_tokens_the_same p) report' = Ok r.
Proof.
  unfold execute_decrease. intros Hr.
  apply sbind_ok in Hr as (? & self1 & H1 & Hr). apply sread_ok in H1 as [-> H1].
  apply sbind_ok in Hr as (? & ? & Hget & Hr). apply sget_ok in Hget as [-> ->]. cbn [ps_market ps_position] in *.
  set (self := if _ : bool then set_swap _ _ else _) in Hr.
  assert (Hself : self = check_close self1 p \/ self = set_swap (check_close self1 p) NoSwap)
    by (subst self; case_if Hb; auto). clearbody self.
  apply sbind_ok in Hr as (? & [] & Hl & Hr). apply sread_ok in Hl as [-> Hl].
  apply sbind_ok in Hr as (s1 & [self' e] & H2 & Hr).
  apply sbind_ok in Hr as (s2 & [removed e'] & H3 & Hr).
  apply sbind_ok in Hr as (? & x & Hx & Hr). apply slift_ok in Hx as [-> Hx].
  apply to_opposite_signed_ok in Hx as (-> & _ & _).
  apply sbind_ok in Hr as (? & y & Hy & Hr). apply slift_ok in Hy as [-> Hy].
  apply to_opposite_signed_ok in Hy as (-> & _ & _).
  apply sbind_ok in Hr as (s3 & [] & H4 & Hr).
  apply sbind_ok in Hr as (s4 & [] & H5 & Hr).
  apply sbind_ok in Hr as (s5 & report' & H6 & Hr). apply slift_ok in Hr as [-> Hr].
  assert (s4 = s3 /\ (removed = false ->
        validate_position (ps_market s3) (ps_position s3)
          (decrease_prices (decrease_params self')) false false = Ok tt)) as [-> Hv].
  { destruct removed; simpl in H5.
    - apply sret_ok in H5 as [-> _]. done.
    - apply sread_ok in H5 as [-> H5]. done. }
  exists self, self', s1, s2, s3, e, e', removed, (decrease_report_new self' e' removed), report'.
  split_and!; try done. exists self1. done.
Qed.

Lemma ledger_not_token k : is_ledger_pool k = true -> is_token_pool k = false.
Proof. by destruct k. Qed.

(** The pools that follow the position hold no tokens. *)
Lemma weigh_ledger_change w b c usd tokens coll borrowing :
  weigh w (held_change (position_change b c usd tokens coll borrowing)) = 0.
Proof.
  unfold position_change, open_interest_change. rewrite !weigh_held_plus, !weigh_held_at.
  by destruct b.
Qed.

Lemma update_open_interest_decrease s s' size tokens u :
  market_wf (ps_market s) -> 0 <= size -> (size = 0 -> tokens = 0) ->
  update_open_interest (- size) (- tokens) s = (s', Ok u) ->
  ps_position s' = ps_position s
  /\ Moved (ps_market s)
       (open_interest_change (is_long (ps_position s)) (is_collateral_token_long (ps_position s))
          (- size) (- tokens)) (ps_market s').
Proof.
  intros Hwf Hs Hz Hr. apply update_open_interest_moved in Hr as (Hm & Hp & _); [done|done|].
  intros. rewrite Hz; lia.
Qed.

Lemma execute_decrease_ok self0 m p m' p' r :
  market_wf m -> PositionWf p -> DecreaseWf self0 p ->
  prices_in_range (decrease_prices (decrease_params self0)) ->
  prices_ordered (decrease_prices (decrease_params self0)) ->
  execute_decrease self0 (mkPState m p) = (mkPState m' p', Ok r) ->
  Decreased self0 m p r m' p'.
Proof.
  intros Hwf Hp Hself0 Hrange Hord Hr.
  apply execute_decrease_steps in Hr
    as (self & self' & s1 & s2 & s3 & e & e' & removed & report & report' & Hprep & H1 & H2 & H3 & Hval & -> & H4 & H5).
  apply prepared_ok in Hprep as (Hself & Hprices & Hflags & Henv & Hfull); [|done..].
  rewrite <- Hprices in Hrange, Hord.
  apply decrease_process_collateral_ok in H1 as (Hps1 & Hset); [|done..].
  destruct Hset as [[Hact Hsize] _ Hpnl [Hout Hsec] Hrw Hcoll Hins Hmove].
  destruct Hmove as (c1 & funding & fees & Hfees & Hfund & Hm1 & Hun1 & Hw1).
  destruct Hact as [Hparams _].
  apply pnl_value_tokens in Hpnl as (Hntok & Hntok0 & Hntok1); [|done|apply (size_delta_capped _ _ Hself)].
  pose proof (moved_wf _ _ _ Hwf Hm1) as Hwf1.
  destruct s1 as [m1 p1]. cbn [ps_market ps_position] in *. subst p1.
  apply decrease_update_position_ok in H2 as Hupd; [|done..].
  destruct s2 as [m2 p2]. cbn [ps_market ps_position] in *.
  destruct Hupd as [Hkind Hrem Hsz Htk Hcap Hco Houtput Hon (output & He') (factor & Hfac & Hm2) _].
  rewrite Hsize in *. pose proof Hkind as (Hl & Hc & _).
  pose proof (moved_wf _ _ _ Hwf1 Hm2) as Hwf2.
  pose proof (size_delta_capped _ _ Hself) as Hsc.
  assert (Hpc : pc_size_delta_in_tokens e' = pc_size_delta_in_tokens e) by (by rewrite He').
  apply update_open_interest_decrease in H3 as [Hp3 Hm3]; [|done|lia|rewrite Hpc; auto].
  destruct s3 as [m3 p3]. cbn [ps_market ps_position] in *. subst p3. rewrite Hl, Hc, Hpc in Hm3.
  pose proof (moved_wf _ _ _ Hwf2 Hm3) as Hwf3.
  rewrite Hparams in H4.
  apply final_swap_ok in H4 as (Hp4 & Hrep4 & c4 & Hm4 & Hun4 & Hw4); [|done..].
  cbn [ps_market ps_position] in *. subst p2.
  apply merge_ok in H5 as (Hrep5 & Hw5).
  destruct (same_report_trans _ _ _ Hrep4 Hrep5) as (o & x & ->).
  pose proof (moved_trans _ _ _ _ _ (moved_trans _ _ _ _ _ (moved_trans _ _ _ _ _ Hm1 Hm2) Hm3) Hm4) as Hm.
  split; simpl; rewrite ?Hsize, ?Hpc; try done.
  - rewrite Hco. pose proof (collateral_nonneg _ Hrw). destruct removed; split; try done; lia.
  - rewrite He'. simpl. intros Hstep. specialize (Hins Hstep). rewrite Hflags in Hins.
    split; [done|]. apply (insolvent_is_full _ _ Hself). by rewrite Hflags.
  - intros Hkeep. exists m3, c4. rewrite <- Hprices, <- Hparams. auto.
  - exists (c1 + (change_at TotalBorrowing (is_long p)
           (borrowing_of (size_in_usd p - decrease_size_delta_usd self) factor
            - borrowing_of (size_in_usd p) (position_borrowing_factor p))
         + change_at (CollateralSum (is_long p)) (is_collateral_token_long p)
             (collateral_amount p' - collateral_amount p))
         + open_interest_change (is_long p) (is_collateral_token_long p)
             (- decrease_size_delta_usd self) (- pc_size_delta_in_tokens e) + c4)%change, funding, fees, factor.
    rewrite <- Henv. split_and!; try done; try lia.
    + intros k b Hk. unfold change_plus at 1 2 3. rewrite (Hun1 k b), (Hun4 k b) by auto.
      unfold position_change, change_plus. lia.
    + intros w Hfair. specialize (Hw1 w Hfair). specialize (Hw4 w).
      rewrite (Hw5 w), !weigh_held_plus.
      2:{ destruct Hrep4 as (o' & x' & ->). simpl. rewrite He'. simpl. rewrite Hout, Hsec. exact Hfair. }
      unfold open_interest_change. rewrite !weigh_held_plus, !weigh_held_at.
      rewrite weigh_owed in Hw1. rewrite (weigh_paid_out w (decrease_report_new _ _ _)) in Hw4.
      simpl in Hw4, Hw1.
      rewrite He' in Hw4, Houtput. simpl in Hw4, Houtput. rewrite Hout, Hsec in Hw4.
      assert (is_token_pool (CollateralSum (is_long p)) = false
        /\ is_token_pool (OpenInterest (is_long p)) = false
        /\ is_token_pool (OpenInterestInTokens (is_long p)) = false) as (-> & -> & ->)
        by (by destruct (is_long p)).
      pose proof (f_equal (Z.mul (w (is_collateral_token_long p))) Houtput) as Hmul.
      simpl. lia.
Qed.

(** ** Properties *)

(** C11: a decrease conserves tokens. What the token pools of the market hold, together with what is
    paid out or set aside for claims and the collateral that stays in the position, is what
    the pools and the collateral were before, except for the funding fee, which stays in the
    vault for its claimants (and for the fee shortfall of [process_conserves]): in
    total always, and for each token when the two tokens of the market differ. *)
Theorem decrease_position_conserves_tokens self m p m' p' r :
  market_wf m -> PositionWf p -> DecreaseWf self p ->
  prices_in_range (decrease_prices (decrease_params self)) ->
  prices_ordered (decrease_prices (decrease_params self)) ->
  execute_decrease self (mkPState m p) = (mkPState m' p', Ok r) ->
  exists funding fees,
    pending_funding_fees m p = Ok fees
    /\ - fee_shortfall (processor_env self p) <= funding <= funding_fee_amount fees
    /\ held m' true + held m' false + paid_out r true + paid_out r false + collateral_amount p'
       = held m true + held m false + collateral_amount p - funding
    /\ (tokens_impure m ->
        (are_pnl_and_collateral_tokens_the_same p = true -> is_collateral_token_long p = is_long p) ->
        forall side, held m' side + paid_out r side
          = held m side + (if Bool.eqb side (is_collateral_token_long p)
                           then collateral_amount p - collateral_amount p' - funding else 0)).
Proof.
  intros Hwf Hp Hself Hrange Hord Hr. apply execute_decrease_ok in Hr; [|done..].
  destruct (decreased_market _ _ _ _ _ _ Hr) as (c & funding & fees & factor & _ & Hf & Hb & Hm & _ & Hw).
  exists funding, fees. split_and!; [done|lia|lia| |].
  - rewrite (held_total _ _ _ Hm). specialize (Hw (fun _ => 1) ltac:(done)). unfold weigh in Hw. lia.
  - intros Himp Hsame side. rewrite (held_side _ _ _ _ Hm Himp).
    specialize (Hw (fun b => if Bool.eqb side b then 1 else 0)). unfold weigh in Hw.
    assert (Hfair : fair (processor_env self p) (fun b => if Bool.eqb side b then 1 else 0))
      by (intros Hs; simpl in *; by rewrite (Hsame Hs)).
    specialize (Hw Hfair). clear Hfair.
    destruct side, (is_collateral_token_long p); simpl in *; lia.
Qed.

Lemma decreased_empty self m p r m' p' :
  Decreased self m p r m' p' -> should_remove r = true -> is_empty p' = true.
Proof.
  intros Hd Hrem. destruct (decreased_collateral _ _ _ _ _ _ Hd) as [_ Hcoll]. unfold is_empty, is_zero.
  by rewrite (decreased_size _ _ _ _ _ _ Hd), (decreased_tokens _ _ _ _ _ _ Hd), Hrem, Hcoll.
Qed.

(** What the market keeps of the position: what is left of it, with the size that was not closed. *)
Definition remainder p p' r : Position := set_size_in_usd p' (size_in_usd p - report_size_delta_usd r).

(** That is the position itself, unless its tokens rounded to nothing while part of its size was left. *)
Lemma decreased_remainder self m p r m' p' :
  Decreased self m p r m' p' ->
  remainder p p' r = p'
  \/ is_empty p' = true /\ report_size_delta_in_tokens r = size_in_tokens p
     /\ report_size_delta_usd r < size_in_usd p.
Proof.
  intros Hd. pose proof (decreased_size _ _ _ _ _ _ Hd) as Hs.
  pose proof (decreased_empty _ _ _ _ _ _ Hd) as He. unfold remainder.
  destruct (should_remove r) eqn:Hrem; [|left; rewrite <- Hs; by destruct p'].
  destruct (decreased_removed _ _ _ _ _ _ Hd) as [Hor _]. specialize (Hor Hrem).
  destruct (decreased_capped _ _ _ _ _ _ Hd) as [Hcap _].
  destruct (Z.eq_dec (report_size_delta_usd r) (size_in_usd p)) as [->|Hne].
  - left. rewrite Z.sub_diag, <- Hs. by destruct p'.
  - right. split_and!; [by apply He| |lia]. by destruct Hor.
Qed.

(** The market keeps tracking its positions. *)
Lemma decreased_tracks self m p r m' p' ps i :
  Decreased self m p r m' p' -> Tracks m ps -> ps !! i = Some p ->
  Tracks m' (<[i := remainder p p' r]> ps).
Proof.
  intros Hd Ht Hi. destruct (decreased_kind _ _ _ _ _ _ Hd) as (Hl & Hc & _).
  destruct (decreased_market _ _ _ _ _ _ Hd) as (c & funding & fees & factor & Hfac & _ & _ & Hm & Hch & _).
  eapply tracks_update; [exact Ht|exact Hi|exact Hm|]. intros k b Hk.
  assert (size_in_tokens p' = size_in_tokens p - report_size_delta_in_tokens r) as Htk.
  { rewrite (decreased_tokens _ _ _ _ _ _ Hd). destruct (should_remove r) eqn:Hrem; [|done].
    destruct (decreased_removed _ _ _ _ _ _ Hd) as [Hor _]. specialize (Hor Hrem).
    pose proof (decreased_closed _ _ _ _ _ _ Hd). lia. }
  rewrite (Hch k b Hk), contribution_diff by done. simpl. rewrite Hfac, Htk. f_equal; lia.
Qed.

Lemma decreased_ledger_step self m p r m' p' :
  Decreased self m p r m' p' -> LedgerStep p m p' m'.
Proof.
  intros Hd ps i Ht Hi. exists (remainder p p' r). split; [|by eapply decreased_tracks].
  destruct (decreased_remainder _ _ _ _ _ _ Hd) as [->|[He _]]; [apply left_behind_refl|].
  eexists. split; [reflexivity|by right].
Qed.

Lemma decreased_wf self m p r m' p' : PositionWf p -> Decreased self m p r m' p' -> PositionWf p'.
Proof.
  intros Hp Hd. destruct (decreased_capped _ _ _ _ _ _ Hd) as [? ?].
  destruct (decreased_collateral _ _ _ _ _ _ Hd) as [? _].
  pose proof (decreased_removed _ _ _ _ _ _ Hd) as Hrem.
  pose proof (decreased_size _ _ _ _ _ _ Hd) as Hs. pose proof (decreased_tokens _ _ _ _ _ _ Hd) as Ht.
  destruct Hp as [Hsu Htu Hcu Hz]. unfold in_u in *.
  split; unfold in_u; try lia; rewrite ?Hs, ?Ht; destruct (should_remove r); try lia.
Qed.

(** C24: after a decrease the pools of the market still track its positions: open interest (in usd
    and in tokens), collateral sums and total borrowing are the sums over the positions, with what is
    left of the decreased one in its place. Closing all of its size in usd closes all of its tokens, and then
    nothing is left of it. Only when its tokens round to nothing before its size is closed, the position is
    removed and the rest of its size in usd stays in the open interest, but no tokens, no collateral and
    nothing of any other position. *)
Theorem decrease_position_ledger self m p m' p' r :
  market_wf m -> PositionWf p -> DecreaseWf self p ->
  prices_in_range (decrease_prices (decrease_params self)) ->
  prices_ordered (decrease_prices (decrease_params self)) ->
  execute_decrease self (mkPState m p) = (mkPState m' p', Ok r) ->
  market_wf m' /\ PositionWf p'
  /\ (report_size_delta_usd r = size_in_usd p -> report_size_delta_in_tokens r = size_in_tokens p)
  /\ (remainder p p' r = p'
      \/ is_empty p' = true /\ report_size_delta_in_tokens r = size_in_tokens p
         /\ report_size_delta_usd r < size_in_usd p)
  /\ forall ps i, Tracks m ps -> ps !! i = Some p -> Tracks m' (<[i := remainder p p' r]> ps).
Proof.
  intros Hwf Hp Hself Hrange Hord Hr. apply execute_decrease_ok in Hr as Hd; [|done..].
  destruct (decreased_market _ _ _ _ _ _ Hd) as (c & ? & ? & ? & _ & _ & _ & Hm & _).
  split_and!; [by eapply moved_wf|by eapply decreased_wf|by apply Hd|by eapply decreased_remainder|].
  intros. by eapply decreased_tracks.
Qed.

Lemma decreased_liquidatable self m p s' r :
  PositionWf p -> DecreaseWf self p -> execute_decrease self (mkPState m p) = (s', Ok r) ->
  is_liquidation_order (decrease_flags (decrease_params self)) = true ->
  exists reason, check_liquidatable m p (decrease_prices (decrease_params self)) true = Ok (Some reason).
Proof.
  intros Hp Hself Hr Hliq. apply execute_decrease_steps in Hr
    as (self1 & self' & s1 & s2 & s3 & e & e' & removed & report & report' & Hprep & _).
  apply prepared_ok in Hprep as Hok; [|done..]. destruct Hok as (_ & Hpr & Hfl & _).
  destruct Hprep as (? & _ & _ & Hcheck). unfold check_liquidation in Hcheck.
  rewrite Hfl, Hliq, Hpr in Hcheck. apply rbind_ok in Hcheck as ([reason|] & Hc & Hcheck); [eauto|discriminate].
Qed.

(** C35: how a decrease can end. A removed position is empty; one that stays is open and healthy when
    it is validated, before the final swap of the output. An insolvent close happens only
    for a full close by an order that allows it, and a liquidation only of a position
    that has become liquidatable. *)
Theorem decrease_position_outcome self m p m' p' r :
  market_wf m -> PositionWf p -> DecreaseWf self p ->
  prices_in_range (decrease_prices (decrease_params self)) ->
  prices_ordered (decrease_prices (decrease_params self)) ->
  execute_decrease self (mkPState m p) = (mkPState m' p', Ok r) ->
  let prices := decrease_prices (decrease_params self) in
  (should_remove r = true ->
     size_in_usd p' = 0 /\ size_in_tokens p' = 0 /\ collateral_amount p' = 0)
  /\ (should_remove r = false -> exists m1 c remaining,
        Moved m1 c m' /\ unledgered c /\ Equity m1 p' prices remaining /\ 0 < remaining
        /\ leverage_requirement (size_in_usd p') (min_collateral_factor (position_params (m_config m1)))
           <= remaining)
  /\ (report_insolvent_close_step r <> None ->
        is_insolvent_close_allowed (decrease_flags (decrease_params self)) = true
        /\ report_size_delta_usd r = size_in_usd p)
  /\ (is_liquidation_order (decrease_flags (decrease_params self)) = true ->
        exists reason, check_liquidatable m p prices true = Ok (Some reason)).
Proof.
  intros Hwf Hp Hself Hrange Hord Hr. apply execute_decrease_ok in Hr as Hd; [|done..].
  cbv zeta. split_and!.
  - intros Hrem. rewrite (decreased_size _ _ _ _ _ _ Hd), (decreased_tokens _ _ _ _ _ _ Hd), Hrem.
    destruct (decreased_collateral _ _ _ _ _ _ Hd) as [_ Hc]. auto.
  - intros Hkeep. destruct (decreased_healthy _ _ _ _ _ _ Hd Hkeep) as (m1 & c & Hm & Hun & Hval).
    assert (0 <= size_in_usd p').
    { rewrite (decreased_size _ _ _ _ _ _ Hd), Hkeep. destruct (decreased_capped _ _ _ _ _ _ Hd). lia. }
    apply validate_position_ok in Hval as (_ & _ & _ & remaining & Hq & Hpos & Hlev & _); [|done].
    exists m1, c, remaining. done.
  - apply (decreased_insolvent _ _ _ _ _ _ Hd).
  - by eapply decreased_liquidatable.
Qed.
End DecreaseFacts.

(** ** Examples *)
Section Examples.
#[local] Existing Instance u64.
#[local] Existing Instance test_num.

(** Closing a quarter of the example position. *)
Definition example_decrease : DecreasePosition :=
  mkDecreasePosition
    (mkDecreasePositionParams example_prices 100000000000 (Some 119) 10000000
       (mkDecreasePositionFlags false false false) NoSwap)
    10000000 100000000000.

Example example_decrease_try_new :
  decrease_position_try_new example_position example_prices 100000000000 (Some 119) 10000000
    (mkDecreasePositionFlags false false false) = Ok example_decrease.
Proof. vm_compute. reflexivity. Qed.

Lemma example_decrease_wf : DecreaseWf example_decrease example_position.
Proof. split; vm_compute; repeat split; discriminate. Qed.

Lemma example_position_wf' : PositionWf example_position.
Proof. split; vm_compute; repeat split; discriminate. Qed.

Definition after_decrease : PState TestPool Z :=
  fst (execute_decrease example_decrease (mkPState example_market example_position)).

Definition example_decrease_report : DecreasePositionReport :=
  mkDecreasePositionReport 30000 0 119 850000000 10000000 100000000000 100000000000
    (mkPositionFees 50000000 (mkOrderFees (mkFees 155462 264706) 50000000) (mkBorrowingFees 0 0)
       (mkFundingFees 0 0 0) None)
    1150000000 1150000000 None false true true 19084211 0 0 0
    ClaimableCollateral_default ClaimableCollateral_default.

Lemma example_decrease_ok :
  execute_decrease example_decrease (mkPState example_market example_position)
  = (mkPState (ps_market after_decrease) (ps_position after_decrease), Ok example_decrease_report).
Proof. vm_compute. reflexivity. Qed.

Example check_partial_close_spec_example :
  1000000000 <= 400000000000 - 100000000000.
Proof.
  destruct (check_partial_close_spec example_decrease example_market example_position example_decrease
    example_position_wf' example_decrease_wf) as [_ Hmin]; [vm_compute; reflexivity|].
  destruct (Hmin eq_refl) as (_ & Hle & _). exact Hle.
Defined.

Lemma decrease_position_conserves_tokens_witness :
  exists funding,
    held (ps_market after_decrease) true + paid_out example_decrease_report true
    = held example_market true
      + (400000000 - collateral_amount (ps_position after_decrease) - funding).
Proof.
  destruct (decrease_position_conserves_tokens example_decrease example_market example_position
    (ps_market after_decrease) (ps_position after_decrease) example_decrease_report
    example_market_wf example_position_wf' example_decrease_wf example_prices_in_range
    example_prices_ordered example_decrease_ok) as (funding & fees & _ & _ & _ & Hside).
  exists funding. exact (Hside (conj eq_refl (conj eq_refl eq_refl)) (fun _ => eq_refl) true).
Defined.

Lemma decrease_position_ledger_witness :
  market_wf (ps_market after_decrease) /\ PositionWf (ps_position after_decrease).
Proof.
  destruct (decrease_position_ledger example_decrease example_market example_position
    (ps_market after_decrease) (ps_position after_decrease) example_decrease_report
    example_market_wf example_position_wf' example_decrease_wf example_prices_in_range
    example_prices_ordered example_decrease_ok) as (Hm & Hp & _).
  split; [exact Hm|exact Hp].
Defined.

Lemma decrease_position_outcome_witness :
  exists (m1 : Market TestPool Z) remaining, Equity m1 (ps_position after_decrease) example_prices remaining /\ 0 < remaining.
Proof.
  destruct (decrease_position_outcome example_decrease example_market example_position
    (ps_market after_decrease) (ps_position after_decrease) example_decrease_report
    example_market_wf example_position_wf' example_decrease_wf example_prices_in_range
    example_prices_ordered example_decrease_ok) as (_ & Hkeep & _).
  destruct (Hkeep eq_refl) as (m1 & c & remaining & _ & _ & Hq & Hpos & _).
  exists m1, remaining. split; [exact Hq|exact Hpos].
Defined.

(** A long position of a single index token unit. Closing half of its size rounds up to all its
    tokens: the position is removed, and the other half stays in the open interest. *)
Definition one_token_position : Position := mkPosition true true true 100000000 4000000000 1 0 0 0 0.
Definition one_token_prices : Prices :=
  mkPrices (mkPrice 4000000000 4000000000) (mkPrice 119 121) (mkPrice 1 1).
Definition one_token_market : Market TestPool Z :=
  mkMarket default_config
    (pools_of (fun k =>
       match k with
       | Primary => mkTestPool 10000000000 1200000000000
       | OpenInterestForLong => mkTestPool 4000000000 0
       | OpenInterestInTokensForLong => mkTestPool 1 0
       | CollateralSumForLong => mkTestPool 100000000 0
       | _ => mkTestPool 0 0
       end)) 2400000000000 (mkClocks 1000 1000 1000) 0 1060.

Definition one_token_close : PState TestPool Z * result DecreasePositionReport :=
  sbind (slift (decrease_position_try_new one_token_position one_token_prices 2000000000 None 0
                  (mkDecreasePositionFlags false false false)))
    execute_decrease (mkPState one_token_market one_token_position).

Example rounded_removal_leaves_open_interest :
  match one_token_close with
  | (s, Ok r) =>
      should_remove r = true /\ is_empty (ps_position s) = true
      /\ amt (ps_market s) OpenInterestForLong true = 2000000000
  | _ => False
  end.
Proof. vm_compute. repeat split. Qed.
End Examples.
