(* ===== verification/Revertible.v ===== *)
(** * Revertible markets of the store program ([programs/gmsol-store/src/states/market])

    The account of a market keeps its state twice: the storage, and a buffer
    ([revertible/buffer.rs]) whose items carry the revision at which they were
    copied. A [RevertibleMarket] ([revertible/market.rs]) works on the buffer and is
    the market that the actions of the model run on; [commit] writes the items of the
    current revision back to the storage, and dropping it instead leaves the storage
    alone. [RevertibleLiquidityMarket] adds the pending mints and burns of market
    tokens. The theorems say that this is a faithful implementation of the market
    record of [Market] and of its [SupplyOps] interface. *)
From stdpp Require Import sets.
From S2P Require Import Prelude Kinds Num Fixed Price Params Pool Market TestMarket MarketFacts.
Import OnChain.

(** ** The items of the state ([mod.rs], [pool.rs]) *)

(** [Clocks]; the two ADL clocks are not used by the model. *)
Record ClocksStorage : Type := mkClocksStorage {
  clocks_rev : Z;
  clocks_last : Clocks;
  adl_for_long : Z;
  adl_for_short : Z;
}.

Record OtherState : Type := mkOtherState {
  other_rev : Z;
  trade_count : Z;
  long_token_balance : Z;
  short_token_balance : Z;
  other_funding_factor_per_second : Z;
}.

Record State : Type := mkState {
  state_pools : Pools PoolStorage;
  state_clocks : ClocksStorage;
  state_other : OtherState;
}.

(** [Pools::init]: which pools of a market are pure. *)
Definition must_be_impure (kind : PoolKind) : bool :=
  match kind with
  | PositionImpact | BorrowingFactor | TotalBorrowing => true
  | _ => false
  end.

Definition storage_set_is_pure (self : PoolStorage) (is_pure : bool) : PoolStorage :=
  mkPoolStorage (storage_rev self) (set_is_pure (storage_pool self) is_pure).

Definition pools_init (self : Pools PoolStorage) (is_pure : bool) : Pools PoolStorage :=
  pools_of (fun kind =>
    storage_set_is_pure (pools_get self kind) (if must_be_impure kind then false else is_pure)).

(** ** Traits [Revision] and [Cache] *)
Class Cache (C : Type) : Type := {
  cache_rev : C -> Z;
  set_rev : C -> Z -> C;
  cache_rev_set c r : cache_rev (set_rev c r) = r;
}.

#[export] Instance PoolStorage_cache : Cache PoolStorage := {|
  cache_rev := storage_rev;
  set_rev c r := mkPoolStorage r (storage_pool c);
  cache_rev_set c r := eq_refl;
|}.
#[export] Instance Clocks_cache : Cache ClocksStorage := {|
  cache_rev := clocks_rev;
  set_rev c r := mkClocksStorage r (clocks_last c) (adl_for_long c) (adl_for_short c);
  cache_rev_set c r := eq_refl;
|}.
#[export] Instance OtherState_cache : Cache OtherState := {|
  cache_rev := other_rev;
  set_rev c r := mkOtherState r (trade_count c) (long_token_balance c) (short_token_balance c)
                   (other_funding_factor_per_second c);
  cache_rev_set c r := eq_refl;
|}.

Section CacheOps.
Context {C : Type} {CC : Cache C}.

Definition is_dirty (self : C) (rev : Z) : bool := cache_rev self =? rev.

Definition cache_get_with (self : C) (rev : Z) (f : unit -> C) : C :=
  if is_dirty self rev then self else f tt.

Definition cache_get_mut_with (self : C) (rev : Z) (f : unit -> C) : C :=
  if negb (is_dirty self rev) then set_rev (f tt) rev else self.

(** The write of a commit: [if item.is_dirty(rev) { target = item }]. *)
Definition commit_item (self target : C) (rev : Z) : C :=
  if is_dirty self rev then self else target.
End CacheOps.

(** ** [RevertibleBuffer] *)
Record RevertibleBuffer : Type := mkBuffer { buffer_rev : Z; buffer_state : State }.

Definition buffer_init (self : RevertibleBuffer) : RevertibleBuffer :=
  mkBuffer 1 (buffer_state self).

Definition buffer_pool (self : RevertibleBuffer) (kind : PoolKind) (storage : State) : Pool :=
  storage_pool
    (cache_get_with (pools_get (state_pools (buffer_state self)) kind) (buffer_rev self)
       (fun _ => pools_get (state_pools storage) kind)).

Definition buffer_clocks (self : RevertibleBuffer) (storage : State) : ClocksStorage :=
  cache_get_with (state_clocks (buffer_state self)) (buffer_rev self) (fun _ => state_clocks storage).

Definition buffer_other (self : RevertibleBuffer) (storage : State) : OtherState :=
  cache_get_with (state_other (buffer_state self)) (buffer_rev self) (fun _ => state_other storage).

(** The mutable getters: the item is cached, and [f] is what the caller does with the
    reference; when it fails it has written nothing. *)
Definition write_back {C} (f : C -> result C) (cached : C) : C * result unit :=
  match f cached with
  | Ok c => (c, Ok tt)
  | Err e => (cached, Err e)
  | Panic msg => (cached, Panic msg)
  end.

Definition buffer_pool_mut (self : RevertibleBuffer) (kind : PoolKind) (storage : State)
    (f : Pool -> result Pool) : RevertibleBuffer * result unit :=
  let st := buffer_state self in
  let cached := cache_get_mut_with (pools_get (state_pools st) kind) (buffer_rev self)
                  (fun _ => pools_get (state_pools storage) kind) in
  let (p, r) := write_back (fun c => let! p := f (storage_pool c) in
                                     Ok (mkPoolStorage (storage_rev c) p)) cached in
  (mkBuffer (buffer_rev self)
     (mkState (pools_set (state_pools st) kind p) (state_clocks st) (state_other st)), r).

Definition buffer_clocks_mut (self : RevertibleBuffer) (storage : State)
    (f : ClocksStorage -> result ClocksStorage) : RevertibleBuffer * result unit :=
  let st := buffer_state self in
  let cached := cache_get_mut_with (state_clocks st) (buffer_rev self) (fun _ => state_clocks storage) in
  let (c, r) := write_back f cached in
  (mkBuffer (buffer_rev self) (mkState (state_pools st) c (state_other st)), r).

Definition buffer_other_mut (self : RevertibleBuffer) (storage : State)
    (f : OtherState -> result OtherState) : RevertibleBuffer * result unit :=
  let st := buffer_state self in
  let cached := cache_get_mut_with (state_other st) (buffer_rev self) (fun _ => state_other storage) in
  let (o, r) := write_back f cached in
  (mkBuffer (buffer_rev self) (mkState (state_pools st) (state_clocks st) o), r).

(** [self.rev.checked_add(1).expect("rev overflow")]. *)
Definition start_revertible_operation (self : RevertibleBuffer) : result RevertibleBuffer :=
  let! rev := expect (@uadd u64 (buffer_rev self) 1) "rev overflow" in
  Ok (mkBuffer rev (buffer_state self)).

(** The loop over [PoolKind::iter()] of the commit: the new pools and the updated kinds. *)
Definition commit_pool (self : RevertibleBuffer) (acc : Pools PoolStorage * list PoolKind)
    (kind : PoolKind) : Pools PoolStorage * list PoolKind :=
  let (pools, updated) := acc in
  let pool := pools_get (state_pools (buffer_state self)) kind in
  if is_dirty pool (buffer_rev self) then (pools_set pools kind pool, updated ++ [kind])
  else acc.

(** [commit_to_storage]: the new storage and the pool kinds named by the event. *)
Definition commit_to_storage (self : RevertibleBuffer) (storage : State) : State * list PoolKind :=
  let (pools, updated) := foldl (commit_pool self) (state_pools storage, []) PoolKind_iter in
  (mkState pools
     (commit_item (state_clocks (buffer_state self)) (state_clocks storage) (buffer_rev self))
     (commit_item (state_other (buffer_state self)) (state_other storage) (buffer_rev self)),
   updated).

(** ** The account and [RevertibleMarket] *)

(** The mints are numbers here. *)
Record MarketMeta : Type := mkMeta {
  market_token_mint : Z;
  index_token_mint : Z;
  long_token_mint : Z;
  short_token_mint : Z;
}.

(** [acct_config] is what the getters of [model.rs] read. *)
Record MarketAccount : Type := mkAccount {
  acct_is_pure : bool;
  acct_meta : MarketMeta;
  acct_config : MarketConfig;
  acct_state : State;
  acct_buffer : RevertibleBuffer;
}.

Inductive SwapPricingKind : Type := PricingSwap | PricingDeposit | PricingWithdrawal | PricingShift.

Record RevertibleMarket : Type := mkRevertible {
  rm_market : MarketAccount;
  order_fee_discount_factor : Z;
  swap_pricing : SwapPricingKind;
}.

Definition set_buffer (self : MarketAccount) (b : RevertibleBuffer) : MarketAccount :=
  mkAccount (acct_is_pure self) (acct_meta self) (acct_config self)
    (acct_state self) b.

Definition rm_set_buffer (self : RevertibleMarket) (b : RevertibleBuffer) : RevertibleMarket :=
  mkRevertible (set_buffer (rm_market self) b) (order_fee_discount_factor self) (swap_pricing self).

Definition revertible_market_new (market : MarketAccount) : result RevertibleMarket :=
  let! b := start_revertible_operation (acct_buffer market) in
  Ok (mkRevertible (set_buffer market b) 0 PricingSwap).

Definition with_order_fee_discount_factor (self : RevertibleMarket) (discount : Z) : RevertibleMarket :=
  mkRevertible (rm_market self) discount (swap_pricing self).

Definition set_swap_pricing_kind (self : RevertibleMarket) (kind : SwapPricingKind) : RevertibleMarket :=
  mkRevertible (rm_market self) (order_fee_discount_factor self) kind.

Definition rm_pool (self : RevertibleMarket) (kind : PoolKind) : Pool :=
  buffer_pool (acct_buffer (rm_market self)) kind (acct_state (rm_market self)).
Definition rm_clocks (self : RevertibleMarket) : ClocksStorage :=
  buffer_clocks (acct_buffer (rm_market self)) (acct_state (rm_market self)).
Definition rm_other (self : RevertibleMarket) : OtherState :=
  buffer_other (acct_buffer (rm_market self)) (acct_state (rm_market self)).

Definition RM (A : Type) : Type := ST RevertibleMarket Error A.

Definition rm_pool_mut (kind : PoolKind) (f : Pool -> result Pool) : RM unit := fun self =>
  let (b, r) := buffer_pool_mut (acct_buffer (rm_market self)) kind (acct_state (rm_market self)) f in
  (rm_set_buffer self b, r).
Definition rm_clocks_mut (f : ClocksStorage -> result ClocksStorage) : RM unit := fun self =>
  let (b, r) := buffer_clocks_mut (acct_buffer (rm_market self)) (acct_state (rm_market self)) f in
  (rm_set_buffer self b, r).
Definition rm_other_mut (f : OtherState -> result OtherState) : RM unit := fun self =>
  let (b, r) := buffer_other_mut (acct_buffer (rm_market self)) (acct_state (rm_market self)) f in
  (rm_set_buffer self b, r).

(** The parameters of a revertible market: those of the account, but for the swap pricing
    and the discount of the order fees. *)
Definition rm_swap_fee_params (self : RevertibleMarket) : FeeParams :=
  let params := swap_fee_params (acct_config (rm_market self)) in
  match swap_pricing self with
  | PricingShift => mkFeeParams 0 0 (fee_receiver_factor params) None
  | PricingSwap | PricingDeposit | PricingWithdrawal => params
  end.

Definition rm_order_fee_params (self : RevertibleMarket) : FeeParams :=
  with_discount_factor (order_fee_params (acct_config (rm_market self)))
    (order_fee_discount_factor self).

(** ** The methods of a [RevertibleMarket] *)

(** The error codes of [CoreError] ([lib.rs]): 6000 plus the position in the enumeration. *)
Definition CoreInvalidArgument : Error := Solana 6007.
Definition CoreTokenAmountOverflow : Error := Solana 6012.

Definition set_balances (self : OtherState) (long short : Z) : OtherState :=
  mkOtherState (other_rev self) (trade_count self) long short (other_funding_factor_per_second self).

Definition balance_for_token (self : RevertibleMarket) (is_long_token : bool) : Z :=
  let other := rm_other self in
  if is_long_token || acct_is_pure (rm_market self) then long_token_balance other
  else short_token_balance other.

(** [record_transferred_in] and [record_transferred_out] differ only in the operation. *)
Definition record_transferred (op : Z -> Z -> option Z) (is_long_token : bool) (amount : Z) : RM unit :=
  do! is_pure := sread (fun self => Ok (acct_is_pure (rm_market self))) in
  rm_other_mut (fun other =>
    if is_pure || is_long_token then
      let! b := ok_or (op (long_token_balance other) amount) CoreTokenAmountOverflow in
      Ok (set_balances other b (short_token_balance other))
    else
      let! b := ok_or (op (short_token_balance other) amount) CoreTokenAmountOverflow in
      Ok (set_balances other (long_token_balance other) b)).

Definition record_transferred_in : bool -> Z -> RM unit := record_transferred (@uadd u64).
Definition record_transferred_out : bool -> Z -> RM unit := record_transferred (@usub u64).

(** The count is read from the storage, not from the buffer. *)
Definition next_trade_id : RM Z :=
  do! next_trade_id := sread (fun self =>
    ok_or (@uadd u64 (trade_count (state_other (acct_state (rm_market self)))) 1)
      CoreTokenAmountOverflow) in
  do! _ := rm_other_mut (fun other =>
    Ok (mkOtherState (other_rev other) next_trade_id (long_token_balance other)
          (short_token_balance other) (other_funding_factor_per_second other))) in
  sret next_trade_id.

(** [MarketMeta::to_token_side] and the [Bank] of a revertible market. *)
Definition to_token_side (self : MarketMeta) (token : Z) : result bool :=
  if token =? long_token_mint self then Ok true
  else if token =? short_token_mint self then Ok false
  else Err CoreInvalidArgument.

Definition record_transferred_in_by_token (token amount : Z) : RM unit :=
  do! is_long_token := sread (fun self => to_token_side (acct_meta (rm_market self)) token) in
  record_transferred_in is_long_token amount.

Definition record_transferred_out_by_token (token amount : Z) : RM unit :=
  do! is_long_token := sread (fun self => to_token_side (acct_meta (rm_market self)) token) in
  record_transferred_out is_long_token amount.

(** The clocks: [AsClockMut::from(&mut self.clocks_mut().c).just_passed_in_seconds()]. *)
Definition clock_get (c : Clocks) (kind : ClockKind) : Z :=
  match kind with
  | PriceImpactDistribution => clock_price_impact_distribution c
  | Borrowing => clock_borrowing c
  | _ => clock_funding c
  end.

Definition clock_set (c : Clocks) (kind : ClockKind) (v : Z) : Clocks :=
  match kind with
  | PriceImpactDistribution => mkClocks v (clock_borrowing c) (clock_funding c)
  | Borrowing => mkClocks (clock_price_impact_distribution c) v (clock_funding c)
  | _ => mkClocks (clock_price_impact_distribution c) (clock_borrowing c) v
  end.

Definition rm_just_passed_in_seconds (now : Z) (kind : ClockKind) : RM Z :=
  do! passed := sread (fun self =>
    Ok (clock_just_passed_in_seconds now (clock_get (clocks_last (rm_clocks self)) kind))) in
  let (last, duration) := passed in
  do! _ := rm_clocks_mut (fun c =>
    Ok (mkClocksStorage (clocks_rev c) (clock_set (clocks_last c) kind last)
          (adl_for_long c) (adl_for_short c))) in
  sret duration.

(** [*self.funding_factor_per_second_mut() = v]. *)
Definition rm_set_funding_factor_per_second (v : Z) : RM unit :=
  rm_other_mut (fun other =>
    Ok (mkOtherState (other_rev other) (trade_count other) (long_token_balance other)
          (short_token_balance other) v)).

(** [Revertible::commit]: the account that is left and the pools named by the event. *)
Definition commit (self : RevertibleMarket) : MarketAccount * list PoolKind :=
  let market := rm_market self in
  let (storage, updated) := commit_to_storage (acct_buffer market) (acct_state market) in
  (mkAccount (acct_is_pure market) (acct_meta market)
     (acct_config market) storage (acct_buffer market), updated).

(** ** [RevertibleLiquidityMarket]: the pending mints and burns

    [liquidity_supply] is the supply of the mint account, a [u64]. *)
Record LiquiditySupply : Type := mkLiquiditySupply {
  liquidity_supply : Z;
  to_mint : Z;
  to_burn : Z;
}.

(** [supply.saturating_add(to_mint).saturating_sub(to_burn)] on [u128]. *)
Definition liquidity_total_supply (self : LiquiditySupply) : Z :=
  Z.max 0 (Z.min (@u_max u128) (liquidity_supply self + to_mint self) - to_burn self).

Definition liquidity_mint (self : LiquiditySupply) (amount : Z) : result LiquiditySupply :=
  let! new_mint := ok_or (@try_u u64 amount) Overflow in
  let! to_mint := ok_or (@uadd u64 (to_mint self) new_mint) Overflow in
  let! _ := ok_or (@uadd u64 (liquidity_supply self) to_mint) Overflow in
  Ok (mkLiquiditySupply (liquidity_supply self) to_mint (to_burn self)).

Definition liquidity_burn (self : LiquiditySupply) (amount : Z) : result LiquiditySupply :=
  let! new_burn := ok_or (@try_u u64 amount) Overflow in
  let! to_burn := ok_or (@uadd u64 (to_burn self) new_burn) Overflow in
  let! _ := ok_or (@usub u64 (liquidity_supply self) to_burn)
              (Computation "not enough market tokens to burn") in
  Ok (mkLiquiditySupply (liquidity_supply self) (to_mint self) to_burn).

#[export] Instance LiquiditySupply_ops : SupplyOps LiquiditySupply := {|
  supply_total := liquidity_total_supply;
  supply_mint := liquidity_mint;
  supply_burn := liquidity_burn;
|}.

Record LiquidityWf (s : LiquiditySupply) : Prop := {
  liquidity_mint_nonneg : 0 <= to_mint s;
  liquidity_burn_nonneg : 0 <= to_burn s;
  liquidity_mint_fits : liquidity_supply s + to_mint s <= @u_max u64;
  liquidity_burn_covered : to_burn s <= liquidity_supply s;
}.

Lemma liquidity_total s :
  LiquidityWf s -> liquidity_total_supply s = liquidity_supply s + to_mint s - to_burn s.
Proof.
  intros [? ? Hm ?]. unfold liquidity_total_supply.
  assert (@u_max u64 <= @u_max u128) by (vm_compute; discriminate). lia.
Qed.

#[export] Instance LiquiditySupply_laws : SupplyLaws LiquiditySupply.
Proof.
  refine {| supply_wf := LiquidityWf |}.
  - intros s Hwf. simpl. rewrite liquidity_total by done. destruct Hwf. lia.
  - intros s a s' Hwf Ha Hr. simpl in *. unfold liquidity_mint in Hr. num_inv.
    destruct Hwf as [? ? ? ?].
    assert (Hwf' : LiquidityWf (mkLiquiditySupply (liquidity_supply s) (to_mint s + a) (to_burn s)))
      by (unfold in_u in *; split; simpl; lia).
    split; [done|]. rewrite !liquidity_total by done. simpl. lia.
  - intros s a s' Hwf Ha Hr. simpl in *. unfold liquidity_burn in Hr. num_inv.
    destruct Hwf as [? ? ? ?].
    assert (Hwf' : LiquidityWf (mkLiquiditySupply (liquidity_supply s) (to_mint s) (to_burn s + a)))
      by (unfold in_u in *; split; simpl; lia).
    split; [done|]. rewrite !liquidity_total by done. simpl. lia.
Defined.

(** ** What a market account means

    The plain state that a storage stands for, and the one a revertible market shows: the
    market of the model with the recorded balances and the trade count. *)
Record Plain (T : Type) : Type := mkPlain {
  plain_market : Market Pool T;
  plain_long_balance : Z;
  plain_short_balance : Z;
  plain_trade_count : Z;
}.
Arguments mkPlain {T}.
Arguments plain_market {T}.
Arguments plain_long_balance {T}.
Arguments plain_short_balance {T}.
Arguments plain_trade_count {T}.

(** The parameters that the getters of a revertible market return. *)
Definition rm_config (self : RevertibleMarket) : MarketConfig :=
  let c := acct_config (rm_market self) in
  mkMarketConfig (usd_to_amount_divisor c) (max_pool_amount c) (pnl_factor_config c)
    (reserve_factor c) (open_interest_reserve_factor c) (max_open_interest c)
    (ignore_open_interest_for_usage_factor c) (swap_impact_params c) (rm_swap_fee_params self)
    (position_impact_params c) (position_impact_distribution_params c) (borrowing_fee_params c)
    (borrowing_fee_kink_model_params c) (funding_amount_per_size_adjustment c)
    (funding_fee_params c) (position_params c) (rm_order_fee_params self)
    (min_collateral_factor_for_open_interest_multiplier c) (liquidation_fee_params c)
    (max_pool_value_for_deposit c).

Section Abstraction.
Context {T : Type} (supply : T) (now : Z).

Definition plain_of (config : MarketConfig) (pool : PoolKind -> Pool) (clocks : ClocksStorage)
    (other : OtherState) : Plain T :=
  mkPlain (mkMarket config (pools_of pool) supply (clocks_last clocks)
             (other_funding_factor_per_second other) now)
    (long_token_balance other) (short_token_balance other) (trade_count other).

(** What the storage holds, read with the parameters [config]. *)
Definition stored (config : MarketConfig) (st : State) : Plain T :=
  plain_of config (fun k => storage_pool (pools_get (state_pools st) k)) (state_clocks st)
    (state_other st).

(** What the revertible market shows. *)
Definition shown (rm : RevertibleMarket) : Plain T :=
  plain_of (rm_config rm) (rm_pool rm) (rm_clocks rm) (rm_other rm).
End Abstraction.

(** The operations of a revertible market, and the plain ones they stand for; the trade id
    counts from the committed count [base]. *)
Inductive Op : Type :=
| OpPool (kind : PoolKind) (f : Pool -> result Pool)
| OpPassed (kind : ClockKind)
| OpFunding (v : Z)
| OpIn (is_long_token : bool) (amount : Z)
| OpOut (is_long_token : bool) (amount : Z)
| OpTradeId.

Definition run_op (now : Z) (op : Op) : RM Z :=
  match op with
  | OpPool kind f => do! _ := rm_pool_mut kind f in sret 0
  | OpPassed kind => rm_just_passed_in_seconds now kind
  | OpFunding v => do! _ := rm_set_funding_factor_per_second v in sret 0
  | OpIn b a => do! _ := record_transferred_in b a in sret 0
  | OpOut b a => do! _ := record_transferred_out b a in sret 0
  | OpTradeId => next_trade_id
  end.

Fixpoint run_ops (now : Z) (ops : list Op) : RM (list Z) :=
  match ops with
  | [] => sret []
  | op :: ops =>
      do! r := run_op now op in
      do! rs := run_ops now ops in
      sret (r :: rs)
  end.

Section PlainOps.
Context {T : Type} (pure : bool) (base : Z).

Definition on_plain_market {A} (m : MM Pool T A) : ST (Plain T) Error A :=
  szoom plain_market
    (fun m s => mkPlain m (plain_long_balance s) (plain_short_balance s) (plain_trade_count s)) m.

Definition plain_just_passed (kind : ClockKind) : MM Pool T Z :=
  match kind with
  | PriceImpactDistribution => just_passed_in_seconds_for_position_impact_distribution
  | Borrowing => just_passed_in_seconds_for_borrowing
  | _ => just_passed_in_seconds_for_funding
  end.

Definition plain_transfer (op : Z -> Z -> option Z) (is_long_token : bool) (amount : Z)
    : ST (Plain T) Error unit :=
  supdate (fun s =>
    if pure || is_long_token then
      let! b := ok_or (op (plain_long_balance s) amount) CoreTokenAmountOverflow in
      Ok (mkPlain (plain_market s) b (plain_short_balance s) (plain_trade_count s))
    else
      let! b := ok_or (op (plain_short_balance s) amount) CoreTokenAmountOverflow in
      Ok (mkPlain (plain_market s) (plain_long_balance s) b (plain_trade_count s))).

Definition plain_trade_id : ST (Plain T) Error Z :=
  do! id := slift (ok_or (@uadd u64 base 1) CoreTokenAmountOverflow) in
  do! _ := smodify (fun s =>
    mkPlain (plain_market s) (plain_long_balance s) (plain_short_balance s) id) in
  sret id.

Definition plain_op (op : Op) : ST (Plain T) Error Z :=
  match op with
  | OpPool kind f => do! _ := on_plain_market (update_pool kind f) in sret 0
  | OpPassed kind => on_plain_market (plain_just_passed kind)
  | OpFunding v =>
      do! _ := on_plain_market (smodify (fun m => set_funding_factor_per_second m v)) in sret 0
  | OpIn b a => do! _ := plain_transfer (@uadd u64) b a in sret 0
  | OpOut b a => do! _ := plain_transfer (@usub u64) b a in sret 0
  | OpTradeId => plain_trade_id
  end.

Fixpoint plain_ops (ops : list Op) : ST (Plain T) Error (list Z) :=
  match ops with
  | [] => sret []
  | op :: ops =>
      do! r := plain_op op in
      do! rs := plain_ops ops in
      sret (r :: rs)
  end.
End PlainOps.

(** ** The buffer *)

(** No item of the buffer is ahead of it. *)
Record BufferWf (b : RevertibleBuffer) : Prop := {
  pools_not_ahead k : storage_rev (pools_get (state_pools (buffer_state b)) k) <= buffer_rev b;
  clocks_not_ahead : clocks_rev (state_clocks (buffer_state b)) <= buffer_rev b;
  other_not_ahead : other_rev (state_other (buffer_state b)) <= buffer_rev b;
}.

(** The step from one revertible market to the next: the same frame. *)
Record SameFrame (rm rm' : RevertibleMarket) : Prop := {
  frame_state : acct_state (rm_market rm') = acct_state (rm_market rm);
  frame_config : rm_config rm' = rm_config rm;
  frame_pure : acct_is_pure (rm_market rm') = acct_is_pure (rm_market rm);
  frame_buffer : BufferWf (acct_buffer (rm_market rm)) -> BufferWf (acct_buffer (rm_market rm'));
}.

Lemma same_frame_refl rm : SameFrame rm rm.
Proof. by split. Qed.

Lemma same_frame_trans a b c : SameFrame a b -> SameFrame b c -> SameFrame a c.
Proof. intros [? ? ? ?] [? ? ? ?]. split; [congruence|congruence|congruence|auto]. Qed.

Lemma cached_dirty {C} `{Cache C} (c : C) r f : is_dirty (cache_get_mut_with c r f) r = true.
Proof.
  unfold cache_get_mut_with. destruct (is_dirty c r) eqn:Hd; simpl; [done|].
  unfold is_dirty. rewrite cache_rev_set. apply Z.eqb_refl.
Qed.

(** A write to a cached item, when the write keeps the revision. *)
Lemma write_back_get {C} `{Cache C} (c : C) r g (f : C -> result C) c' res :
  (forall x y, f x = Ok y -> cache_rev y = cache_rev x) ->
  write_back f (cache_get_mut_with c r g) = (c', res) ->
  cache_rev c' = r /\ (forall g', cache_get_with c' r g' = c')
  /\ res = (let! _ := f (cache_get_mut_with c r g) in Ok tt)
  /\ c' = match f (cache_get_mut_with c r g) with Ok x => x | _ => cache_get_mut_with c r g end.
Proof.
  intros Hf Hw. pose proof (cached_dirty c r g) as Hd. set (cc := cache_get_mut_with c r g) in *.
  assert (Hr : cache_rev cc = r) by (unfold is_dirty in Hd; lia).
  assert (Hc' : cache_rev c' = r).
  { unfold write_back in Hw. destruct (f cc) eqn:Hfc; injection Hw as <- _; [|done|done].
    by rewrite (Hf _ _ Hfc). }
  split; [done|]. split.
  - intros g'. unfold cache_get_with, is_dirty. by rewrite Hc', Z.eqb_refl.
  - unfold write_back in Hw. destruct (f cc); by injection Hw as <- <-.
Qed.

(** The value of an outcome, or what was there before. *)
Definition written {A} (old : A) (r : result A) : A := match r with Ok a => a | _ => old end.

Lemma rm_pool_mut_shown k f rm rm' r :
  rm_pool_mut k f rm = (rm', r) ->
  SameFrame rm rm' /\ rm_clocks rm' = rm_clocks rm /\ rm_other rm' = rm_other rm
  /\ (forall k', rm_pool rm' k' =
        if decide (k' = k) then written (rm_pool rm k) (f (rm_pool rm k)) else rm_pool rm k')
  /\ r = (let! _ := f (rm_pool rm k) in Ok tt).
Proof.
  unfold rm_pool_mut, buffer_pool_mut. intros Hr.
  set (b := acct_buffer (rm_market rm)) in *. set (st := acct_state (rm_market rm)) in *.
  destruct (write_back _ _) as [p res] eqn:Hw. injection Hr as <- <-.
  apply write_back_get in Hw as (Hrev & Hget & -> & Hp); [|intros x y Hy; num_inv; done].
  assert (Hc : storage_pool (cache_get_mut_with (pools_get (state_pools (buffer_state b)) k)
      (buffer_rev b) (fun _ => pools_get (state_pools st) k)) = rm_pool rm k).
  { unfold rm_pool, buffer_pool, cache_get_with, cache_get_mut_with. fold b st. by destruct (is_dirty _ _). }
  rewrite Hc in *. split_and!; try done.
  - split; try done. intros [Hps ? ?]. split; simpl; [|done|done].
    intros k'. rewrite pools_get_set. destruct (decide (k' = k)); [|apply Hps].
    simpl in Hrev. fold b. lia.
  - intros k'. unfold rm_pool at 1. unfold buffer_pool. simpl. rewrite pools_get_set. fold b.
    destruct (decide (k' = k)) as [->|]; [|done]. rewrite Hget, Hp.
    destruct (f (rm_pool rm k)); simpl; [done|exact Hc|exact Hc].
  - by destruct (f (rm_pool rm k)).
Qed.

(** A write to the clocks or to the other state that always succeeds, or depends on nothing
    but the values. *)
Lemma rm_clocks_mut_shown g rm rm' r :
  rm_clocks_mut (fun c => Ok (mkClocksStorage (clocks_rev c) (g (clocks_last c))
                                (adl_for_long c) (adl_for_short c))) rm = (rm', r) ->
  SameFrame rm rm' /\ rm_pool rm' = rm_pool rm /\ rm_other rm' = rm_other rm
  /\ clocks_last (rm_clocks rm') = g (clocks_last (rm_clocks rm)) /\ r = Ok tt.
Proof.
  unfold rm_clocks_mut, buffer_clocks_mut, write_back. intros Hr. injection Hr as <- <-.
  set (b := acct_buffer (rm_market rm)) in *.
  pose proof (cached_dirty (state_clocks (buffer_state b)) (buffer_rev b)
    (fun _ => state_clocks (acct_state (rm_market rm)))) as Hd.
  unfold is_dirty in Hd. simpl in Hd. split_and!; try done.
  - split; try done. intros [? ? ?]. split; simpl; [done| |done]. fold b. lia.
  - unfold rm_clocks, buffer_clocks, cache_get_with at 1, is_dirty at 1. simpl. fold b.
    rewrite Hd. simpl. unfold cache_get_mut_with, cache_get_with. by destruct (is_dirty _ _).
Qed.

Lemma rm_other_mut_shown f h rm rm' r :
  (forall o, f o = let! x := h (long_token_balance o) (short_token_balance o) (trade_count o)
                              (other_funding_factor_per_second o) in
                   Ok (let '(l, s, t, v) := x in mkOtherState (other_rev o) t l s v)) ->
  rm_other_mut f rm = (rm', r) ->
  let o := rm_other rm in
  let o' := rm_other rm' in
  let old := (long_token_balance o, short_token_balance o, trade_count o,
              other_funding_factor_per_second o) in
  let x := h (long_token_balance o) (short_token_balance o) (trade_count o)
             (other_funding_factor_per_second o) in
  SameFrame rm rm' /\ rm_pool rm' = rm_pool rm /\ rm_clocks rm' = rm_clocks rm
  /\ (long_token_balance o', short_token_balance o', trade_count o',
      other_funding_factor_per_second o') = written old x
  /\ r = (let! _ := x in Ok tt).
Proof.
  intros Hf. unfold rm_other_mut, buffer_other_mut. intros Hr.
  set (b := acct_buffer (rm_market rm)) in *. set (st := acct_state (rm_market rm)) in *.
  destruct (write_back _ _) as [c res] eqn:Hw. injection Hr as <- <-.
  apply write_back_get in Hw as (Hrev & Hget & -> & Hp).
  2:{ intros x y Hy. rewrite Hf in Hy. apply rbind_ok in Hy as ([[[? ?] ?] ?] & _ & Hy).
      by injection Hy as <-. }
  set (cc := cache_get_mut_with _ _ _) in *.
  assert (Hcc : exists v, cc = set_rev (rm_other rm) v).
  { unfold cc, rm_other, buffer_other, cache_get_with, cache_get_mut_with. fold b st.
    destruct (is_dirty _ _); [exists (other_rev (state_other (buffer_state b)))|exists (buffer_rev b)]; simpl; [|done].
    by destruct (state_other (buffer_state b)). }
  destruct Hcc as [v ->]. rewrite Hf in *. simpl in *.
  set (x := h _ _ _ _) in *. split_and!; try done.
  - split; try done. intros [? ? ?]. split; simpl; [done|done|]. fold b. simpl in Hrev. lia.
  - unfold rm_other at 1 2 3 4. unfold buffer_other. simpl. fold b. rewrite Hget, Hp.
    destruct x as [[[[? ?] ?] ?]| |]; done.
  - destruct x as [[[[? ?] ?] ?]| |]; done.
Qed.

(** ** The simulation *)
Section Simulation.
Context {T : Type} (supply : T) (now : Z).

Definition base_of (rm : RevertibleMarket) : Z := trade_count (state_other (acct_state (rm_market rm))).

Lemma shown_eq rm config pool clocks other :
  config = rm_config rm -> (forall k, pool k = rm_pool rm k) ->
  clocks_last clocks = clocks_last (rm_clocks rm) ->
  (long_token_balance other, short_token_balance other, trade_count other,
   other_funding_factor_per_second other)
  = (long_token_balance (rm_other rm), short_token_balance (rm_other rm),
     trade_count (rm_other rm), other_funding_factor_per_second (rm_other rm)) ->
  plain_of supply now config pool clocks other = shown supply now rm.
Proof.
  intros -> Hp Hc Ho. injection Ho as Hl Hs Ht Hf. unfold shown, plain_of.
  rewrite Hc, Hl, Hs, Ht, Hf. f_equal. f_equal. apply pools_ext. intros k.
  by rewrite !pools_get_of.
Qed.

(** What one operation preserves and computes. *)
Definition simulated {A} (m : RM A) (plain : ST (Plain T) Error A) rm : Prop :=
  forall rm' r, m rm = (rm', r) ->
    SameFrame rm rm' /\ plain (shown supply now rm) = (shown supply now rm', r).

Lemma pool_mut_simulated k f rm :
  simulated (rm_pool_mut k f) (on_plain_market (update_pool k f)) rm.
Proof.
  intros rm' r Hr. apply rm_pool_mut_shown in Hr as (Hframe & Hc & Ho & Hp & ->).
  split; [done|]. unfold on_plain_market, szoom, update_pool, supdate, pool_of. simpl.
  rewrite pools_get_of.
  assert (Hshown : shown supply now rm' = plain_of supply now (rm_config rm)
    (fun k' => if decide (k' = k) then written (rm_pool rm k) (f (rm_pool rm k)) else rm_pool rm k')
    (rm_clocks rm) (rm_other rm)).
  { symmetry. apply shown_eq; [by rewrite (frame_config _ _ Hframe)|done|by rewrite Hc|by rewrite Ho]. }
  rewrite Hshown. unfold plain_of.
  assert (Hsame : pools_of (rm_pool rm) = pools_of (fun k' => if decide (k' = k) then rm_pool rm k
                                                    else rm_pool rm k')).
  { apply pools_ext. intros k'. rewrite !pools_get_of. by destruct (decide (k' = k)) as [->|]. }
  destruct (f (rm_pool rm k)) as [p|e|msg]; simpl;
    [|by rewrite <- Hsame|by rewrite <- Hsame].
  reflexivity.
Qed.

Lemma just_passed_simulated kind rm :
  simulated (rm_just_passed_in_seconds now kind) (on_plain_market (plain_just_passed kind)) rm.
Proof.
  intros rm' r Hr. unfold rm_just_passed_in_seconds, sbind, sread in Hr.
  destruct (clock_just_passed_in_seconds _ _) as [last d] eqn:Hd.
  destruct (rm_clocks_mut _ _) as [rm1 r1] eqn:Hm in Hr.
  apply (rm_clocks_mut_shown (fun c => clock_set c kind last)) in Hm as (Hframe & Hp & Ho & Hc & ->).
  injection Hr as <- <-. split; [done|].
  assert (Hshown : shown supply now rm1 = plain_of supply now (rm_config rm) (rm_pool rm)
    (mkClocksStorage 0 (clock_set (clocks_last (rm_clocks rm)) kind last) 0 0) (rm_other rm)).
  { symmetry. apply shown_eq; [by rewrite (frame_config _ _ Hframe)|by rewrite Hp|by rewrite Hc
      |by rewrite Ho]. }
  rewrite Hshown. unfold on_plain_market, szoom, plain_just_passed,
    just_passed_in_seconds_for_position_impact_distribution, just_passed_in_seconds_for_borrowing,
    just_passed_in_seconds_for_funding, shown, plain_of.
  destruct kind; simpl in *; rewrite Hd; done.
Qed.

Lemma other_mut_simulated f h (plain : ST (Plain T) Error unit) rm :
  (forall o, f o = let! x := h (long_token_balance o) (short_token_balance o) (trade_count o)
                              (other_funding_factor_per_second o) in
                   Ok (let '(l, s, t, v) := x in mkOtherState (other_rev o) t l s v)) ->
  (forall s, plain s =
     let m := plain_market s in
     match h (plain_long_balance s) (plain_short_balance s) (plain_trade_count s)
             (m_funding_factor_per_second m) with
     | Ok (l, sh, t, v) => (mkPlain (set_funding_factor_per_second m v) l sh t, Ok tt)
     | Err e => (s, Err e)
     | Panic msg => (s, Panic msg)
     end) ->
  simulated (rm_other_mut f) plain rm.
Proof.
  intros Hf Hplain rm' r Hr. eapply rm_other_mut_shown in Hr; [|exact Hf].
  destruct Hr as (Hframe & Hp & Hc & Ho & ->). split; [done|]. rewrite Hplain. simpl.
  set (x := h _ _ _ _) in *.
  assert (Hshown : forall l s t v, written (long_token_balance (rm_other rm),
      short_token_balance (rm_other rm), trade_count (rm_other rm),
      other_funding_factor_per_second (rm_other rm)) x = (l, s, t, v) ->
    shown supply now rm' = plain_of supply now (rm_config rm) (rm_pool rm) (rm_clocks rm)
                             (mkOtherState 0 t l s v)).
  { intros l s t v Hx. symmetry. apply shown_eq; [by rewrite (frame_config _ _ Hframe)|by rewrite Hp
      |by rewrite Hc|]. rewrite Ho, Hx. done. }
  destruct x as [[[[l s] t] v]| |]; by rewrite (Hshown _ _ _ _ eq_refl).
Qed.

Lemma transfer_simulated op b a rm :
  simulated (record_transferred op b a) (plain_transfer (acct_is_pure (rm_market rm)) op b a) rm.
Proof.
  intros rm' r Hr. unfold record_transferred, sbind, sread in Hr. revert rm' r Hr.
  set (pure := acct_is_pure (rm_market rm)).
  apply (other_mut_simulated _ (fun l s t v =>
    if pure || b then let! x := ok_or (op l a) CoreTokenAmountOverflow in Ok (x, s, t, v)
    else let! x := ok_or (op s a) CoreTokenAmountOverflow in Ok (l, x, t, v))).
  - intros o. unfold set_balances. destruct (pure || b); [destruct (op (long_token_balance o) a)
      |destruct (op (short_token_balance o) a)]; done.
  - intros s. unfold plain_transfer, supdate.
    destruct (pure || b); [destruct (op (plain_long_balance s) a)
      |destruct (op (plain_short_balance s) a)]; simpl; by destruct s as [[] ? ? ?].
Qed.

Lemma set_funding_simulated v rm :
  simulated (rm_set_funding_factor_per_second v)
    (on_plain_market (smodify (fun m => set_funding_factor_per_second m v))) rm.
Proof.
  apply (other_mut_simulated _ (fun l s t _ => Ok (l, s, t, v))).
  - done.
  - done.
Qed.

Lemma simulated_then {A B} (m : RM A) plain (b : B) rm :
  simulated m plain rm ->
  simulated (do! _ := m in sret b) (do! _ := plain in sret b) rm.
Proof.
  intros Hm rm' r Hr. unfold sbind in *. destruct (m rm) as [rm1 r1] eqn:Hm1.
  apply Hm in Hm1 as [Hframe Hplain]. rewrite Hplain.
  destruct r1; injection Hr as <- <-; done.
Qed.

Lemma trade_id_simulated rm : simulated next_trade_id (plain_trade_id (base_of rm)) rm.
Proof.
  intros rm' r Hr. unfold next_trade_id, plain_trade_id, sbind, sread, slift, base_of in *.
  destruct (ok_or _ _) as [id| |] eqn:Hid; try (injection Hr as <- <-; split; [apply same_frame_refl|done]).
  destruct (rm_other_mut _ _) as [rm1 r1] eqn:Hm in Hr.
  apply (other_mut_simulated _ (fun l s _ v => Ok (l, s, id, v))
    (smodify (fun s => mkPlain (plain_market s) (plain_long_balance s) (plain_short_balance s) id)))
    in Hm as [Hframe Hplain].
  2:{ done. }
  2:{ by intros [[] ? ? ?]. }
  pose proof (f_equal fst Hplain) as Hs. pose proof (f_equal snd Hplain) as Hr1.
  unfold smodify in Hs, Hr1. cbn [fst snd] in Hs, Hr1. subst r1. injection Hr as <- <-.
  split; [done|]. unfold smodify. by rewrite Hs.
Qed.

Lemma run_op_simulated op rm :
  simulated (run_op now op)
    (plain_op (acct_is_pure (rm_market rm)) (base_of rm) op) rm.
Proof.
  destruct op; simpl.
  - apply simulated_then, pool_mut_simulated.
  - apply just_passed_simulated.
  - apply simulated_then, set_funding_simulated.
  - apply simulated_then, transfer_simulated.
  - apply simulated_then, transfer_simulated.
  - apply trade_id_simulated.
Qed.

Lemma run_ops_simulated ops rm :
  simulated (run_ops now ops)
    (plain_ops (acct_is_pure (rm_market rm)) (base_of rm) ops) rm.
Proof.
  revert rm. induction ops as [|op ops IH]; intros rm rm' r Hr; simpl in *.
  { injection Hr as <- <-. split; [apply same_frame_refl|done]. }
  unfold sbind in *. destruct (run_op now op rm) as [rm1 r1] eqn:Hop.
  apply run_op_simulated in Hop as [Hframe Hplain]. rewrite Hplain.
  destruct r1 as [x| |]; [|by injection Hr as <- <-|by injection Hr as <- <-].
  destruct (run_ops now ops rm1) as [rm2 r2] eqn:Hops. apply IH in Hops as [Hframe2 Hplain2].
  assert (base_of rm1 = base_of rm) as Hb by (unfold base_of; by rewrite (frame_state _ _ Hframe)).
  rewrite Hb, (frame_pure _ _ Hframe) in Hplain2. rewrite Hplain2.
  assert (SameFrame rm rm2) by (by eapply same_frame_trans).
  destruct r2; injection Hr as <- <-; done.
Qed.
End Simulation.

(** ** Commit and revert *)
Definition touched (rm : RevertibleMarket) (kind : PoolKind) : bool :=
  let b := acct_buffer (rm_market rm) in
  is_dirty (pools_get (state_pools (buffer_state b)) kind) (buffer_rev b).

Lemma commit_pools_ok b pools updated kinds pools' updated' :
  foldl (commit_pool b) (pools, updated) kinds = (pools', updated') ->
  let item k := pools_get (state_pools (buffer_state b)) k in
  (forall k, pools_get pools' k =
     if bool_decide (k ∈ kinds) && is_dirty (item k) (buffer_rev b) then item k else pools_get pools k)
  /\ updated' = updated ++ filter (fun k => is_dirty (item k) (buffer_rev b)) kinds.
Proof.
  revert pools updated. induction kinds as [|k0 kinds IH]; intros pools updated Hr item; simpl in Hr.
  { injection Hr as <- <-. by rewrite app_nil_r. }
  fold (item k0) in Hr. rewrite filter_cons.
  destruct (is_dirty (item k0) (buffer_rev b)) eqn:Hd.
  - apply IH in Hr as [Hp ->]. split.
    + intros k. rewrite Hp, pools_get_set. fold (item k).
      destruct (decide (k = k0)) as [->|Hne].
      * rewrite Hd. rewrite (bool_decide_eq_true_2 (k0 ∈ k0 :: kinds)) by set_solver. simpl.
        by destruct (bool_decide _).
      * by rewrite (bool_decide_ext (k ∈ k0 :: kinds) (k ∈ kinds)) by set_solver.
    + destruct (decide _) as [_|Hn]; [by rewrite <- app_assoc|by destruct Hn].
  - apply IH in Hr as [Hp ->]. split.
    + intros k. rewrite Hp. fold (item k).
      destruct (decide (k = k0)) as [->|Hne]; [by rewrite Hd, !andb_false_r|].
      by rewrite (bool_decide_ext (k ∈ k0 :: kinds) (k ∈ kinds)) by set_solver.
    + by destruct (decide _) as [[]|_].
Qed.

Lemma commit_ok {T} (supply : T) now rm acct updated :
  commit rm = (acct, updated) ->
  stored supply now (rm_config rm) (acct_state acct) = shown supply now rm
  /\ acct_buffer acct = acct_buffer (rm_market rm)
  /\ updated = filter (fun k => touched rm k) PoolKind_iter
  /\ (forall k, touched rm k = false ->
        pools_get (state_pools (acct_state acct)) k
        = pools_get (state_pools (acct_state (rm_market rm))) k).
Proof.
  unfold commit, commit_to_storage. intros Hr.
  destruct (foldl _ _ _) as [pools upd] eqn:Hfold. injection Hr as <- <-.
  apply commit_pools_ok in Hfold as [Hp ->]. split_and!; [|done|done|].
  - unfold stored. simpl. apply shown_eq; [done| | |].
    + intros k. rewrite Hp. rewrite (bool_decide_eq_true_2 _ (PoolKind_iter_complete k)). simpl.
      unfold rm_pool, buffer_pool, cache_get_with. by destruct (is_dirty _ _).
    + unfold rm_clocks, buffer_clocks, cache_get_with, commit_item. by destruct (is_dirty _ _).
    + unfold rm_other, buffer_other, cache_get_with, commit_item. by destruct (is_dirty _ _).
  - intros k Hk. simpl. rewrite Hp. unfold touched in Hk. by rewrite Hk, andb_false_r.
Qed.

(** A new operation sees the storage. *)
Lemma new_ok {T} (supply : T) now acct rm0 discount pricing :
  BufferWf (acct_buffer acct) -> revertible_market_new acct = Ok rm0 ->
  let rm := set_swap_pricing_kind (with_order_fee_discount_factor rm0 discount) pricing in
  shown supply now rm = stored supply now (rm_config rm) (acct_state acct)
  /\ acct_state (rm_market rm) = acct_state acct
  /\ acct_is_pure (rm_market rm) = acct_is_pure acct
  /\ BufferWf (acct_buffer (rm_market rm)).
Proof.
  intros [Hps Hc Ho] Hnew. unfold revertible_market_new, start_revertible_operation in Hnew.
  apply rbind_ok in Hnew as (b & Hb & Hnew). injection Hnew as <-.
  apply rbind_ok in Hb as (rev & Hrev & Hb). injection Hb as <-.
  apply expect_ok, uadd_some in Hrev as [-> _]. simpl. split_and!; [|done|done|].
  - symmetry. unfold stored. apply shown_eq; [done| | |].
    + intros k. unfold rm_pool, buffer_pool, cache_get_with, is_dirty. simpl.
      destruct (Z.eqb_spec (storage_rev (pools_get (state_pools (buffer_state (acct_buffer acct))) k))
        (buffer_rev (acct_buffer acct) + 1)); [specialize (Hps k); lia|done].
    + unfold rm_clocks, buffer_clocks, cache_get_with, is_dirty. simpl. by case_bool; try lia.
    + unfold rm_other, buffer_other, cache_get_with, is_dirty. simpl. by case_bool; try lia.
  - split; simpl; [intros k; specialize (Hps k); lia|lia|lia].
Qed.

(** ** The contract of a revertible market *)

(** C37: a revertible market implements the market of the model. Whatever operations run on it
    (reads and writes of pools, clocks, the funding factor, the recorded balances and the trade
    count, up to a failure), it shows what the plain operations make of the storage, with
    the same results; the storage is untouched meanwhile, so that a market that is
    dropped leaves no trace for the next operation; and a commit makes the storage what the
    market shows, rewriting only the pools that its event names. *)
Theorem revertible_market_refines {T} (supply : T) now acct rm0 discount pricing ops rm' r :
  BufferWf (acct_buffer acct) -> revertible_market_new acct = Ok rm0 ->
  let rm := set_swap_pricing_kind (with_order_fee_discount_factor rm0 discount) pricing in
  run_ops now ops rm = (rm', r) ->
  plain_ops (acct_is_pure acct) (trade_count (state_other (acct_state acct))) ops
    (stored supply now (rm_config rm) (acct_state acct)) = (shown supply now rm', r)
  /\ acct_state (rm_market rm') = acct_state acct /\ BufferWf (acct_buffer (rm_market rm'))
  /\ forall acct' updated, commit rm' = (acct', updated) ->
       stored supply now (rm_config rm) (acct_state acct') = shown supply now rm'
       /\ BufferWf (acct_buffer acct')
       /\ forall k, k ∉ updated ->
            pools_get (state_pools (acct_state acct')) k = pools_get (state_pools (acct_state acct)) k.
Proof.
  intros Hwf Hnew rm Hops. pose proof (new_ok supply now _ _ discount pricing Hwf Hnew) as Hrm.
  cbv zeta in Hrm. fold rm in Hrm. destruct Hrm as (Hshown & Hst & Hpure & Hbuf).
  apply (run_ops_simulated supply) in Hops as [Hframe Hplain].
  unfold base_of in Hplain. rewrite Hst, Hpure, Hshown in Hplain.
  split; [done|]. split; [by rewrite (frame_state _ _ Hframe)|].
  assert (Hb : BufferWf (acct_buffer (rm_market rm'))) by (by apply (frame_buffer _ _ Hframe)).
  split; [done|]. intros acct' updated Hc. apply (commit_ok supply now) in Hc as (Hs & Hb' & -> & Hk).
  rewrite (frame_config _ _ Hframe) in Hs. split_and!; [done|by rewrite Hb'|].
  intros k Hnot. rewrite Hk; [by rewrite (frame_state _ _ Hframe), Hst|].
  destruct (touched rm' k) eqn:Ht; [|done]. exfalso. apply Hnot.
  apply list_elem_of_filter. rewrite Ht. split; [done|]. apply PoolKind_iter_complete.
Qed.

(** ** Validation of the recorded balances ([utils.rs]) *)

(** The base market that the validation reads; it does not look at the supply or the time. *)
Definition base_market (self : RevertibleMarket) : Market Pool LiquiditySupply :=
  plain_market (shown (mkLiquiditySupply 0 0 0) 0 self).

(** What the validation needs of a market (the supertraits of [ValidateMarketBalances]): its
    meta, its bank and its pools. *)
Record BalanceView (T : Type) : Type := mkView {
  view_meta : MarketMeta;
  view_is_pure : bool;
  view_balance : bool -> Z;
  view_market : Market Pool T;
}.
Arguments mkView {T}.
Arguments view_meta {T}.
Arguments view_is_pure {T}.
Arguments view_balance {T}.
Arguments view_market {T}.

Definition rm_view (self : RevertibleMarket) : BalanceView LiquiditySupply :=
  mkView (acct_meta (rm_market self)) (acct_is_pure (rm_market self)) (balance_for_token self)
    (base_market self).

Section Balances.
Local Existing Instance u128.
Context {T : Type} {S : SupplyOps T} {SL : SupplyLaws T}.
Implicit Types (rm self : BalanceView T) (m : Market Pool T).

Definition bank_balance (self : BalanceView T) (token : Z) : result Z :=
  let! side := to_token_side (view_meta self) token in
  Ok (view_balance self side).

(** [Bank::balance_excluding]. *)
Definition balance_excluding (self : BalanceView T) (token excluded : Z) : result Z :=
  let! balance := bank_balance self token in
  if is_zero excluded then Ok balance
  else ok_or (@usub u64 balance excluded) (Computation "underflow when excluding amount of balance").

Definition validate_market_balance_for_the_given_token (self : BalanceView T)
    (token excluded : Z) : result unit :=
  let! is_long_token := to_token_side (view_meta self) token in
  let is_pure := view_is_pure self in
  let! balance := balance_excluding self token excluded in
  let! min_token_balance :=
    expected_min_token_balance_excluding_collateral_amount_for_one_token_side (view_market self)
      is_long_token in
  let! min_token_balance :=
    (if is_pure then
       let! other :=
         expected_min_token_balance_excluding_collateral_amount_for_one_token_side
           (view_market self) (negb is_long_token) in
       ok_or (uadd min_token_balance other)
         (Computation "validate balance: overflow while adding the min token balance for the other side")
     else Ok min_token_balance) in
  if balance <? min_token_balance then
    Err (InvalidTokenBalance "Less than expected min token balance excluding collateral amount"
           min_token_balance balance)
  else
    let! collateral_amount :=
      total_collateral_amount_for_one_token_side (view_market self) is_long_token in
    let! collateral_amount :=
      (if is_pure then
         let! other :=
           total_collateral_amount_for_one_token_side (view_market self) (negb is_long_token) in
         ok_or (uadd collateral_amount other)
           (Computation "validate balance: overflow while adding the collateral amount for the other side")
       else Ok collateral_amount) in
    if balance <? collateral_amount then
      Err (InvalidTokenBalance "Less than total collateral amount" collateral_amount balance)
    else Ok tt.

Definition validate_market_balances (self : BalanceView T)
    (long_excluding_amount short_excluding_amount : Z) : result unit :=
  let! amounts :=
    (if view_is_pure self then
       let! total := ok_or (@uadd u64 long_excluding_amount short_excluding_amount)
                       CoreTokenAmountOverflow in
       Ok (total, 0)
     else Ok (long_excluding_amount, short_excluding_amount)) in
  let (long_excluding_amount, short_excluding_amount) := amounts in
  let! _ := validate_market_balance_for_the_given_token self (long_token_mint (view_meta self))
              long_excluding_amount in
  if negb (view_is_pure self) then
    validate_market_balance_for_the_given_token self (short_token_mint (view_meta self))
      short_excluding_amount
  else Ok tt.

(** One round of the loop over the two tokens: the amounts of the two sides so far. *)
Definition add_excluding (self : BalanceView T) (amounts : Z * Z) (token amount : Z)
    : result (Z * Z) :=
  if is_zero amount then Ok amounts
  else
    let! is_long := to_token_side (view_meta self) token in
    if is_long then
      let! l := ok_or (@uadd u64 (fst amounts) amount) CoreTokenAmountOverflow in
      Ok (l, snd amounts)
    else
      let! s := ok_or (@uadd u64 (snd amounts) amount) CoreTokenAmountOverflow in
      Ok (fst amounts, s).

Definition validate_market_balances_excluding_the_given_token_amounts (self : BalanceView T)
    (first_token second_token first_excluding_amount second_excluding_amount : Z) : result unit :=
  let! amounts := add_excluding self (0, 0) first_token first_excluding_amount in
  let! amounts := add_excluding self amounts second_token second_excluding_amount in
  validate_market_balances self (fst amounts) (snd amounts).

(** What a token has to cover: the pools, or the collateral sums, of its side, and of both
    sides in a market with one token. *)
Definition collateral_held (m : Market Pool T) (side : bool) : Z :=
  amt m (CollateralSum true) side + amt m (CollateralSum false) side.

Definition required (pure : bool) (f : bool -> Z) (side : bool) : Z :=
  if pure then f side + f (negb side) else f side.

Record ViewWf (rm : BalanceView T) : Prop := {
  base_market_wf : market_wf (view_market rm);
  rm_balances side : 0 <= view_balance rm side <= @u_max u64;
  rm_pure_meta : view_is_pure rm =
    (long_token_mint (view_meta rm) =? short_token_mint (view_meta rm));
}.

Lemma expected_iff m b r :
  market_wf m ->
  expected_min_token_balance_excluding_collateral_amount_for_one_token_side (T:=T) m b = Ok r
  <-> r = held m b /\ held m b <= u_max.
Proof.
  intros Hwf. split.
  - intros Hr. apply expected_min_token_balance_ok in Hr as [-> [? ?]]; done.
  - intros [-> Hm]. unfold expected_min_token_balance_excluding_collateral_amount_for_one_token_side,
      liquidity_pool, swap_impact_pool, claimable_fee_pool, held in *.
    rewrite !amt_ok by done. cbn [rbind].
    pose proof (amt_in_u m Primary b Hwf). pose proof (amt_in_u m SwapImpact b Hwf).
    pose proof (amt_in_u m ClaimableFee b Hwf). unfold in_u in *.
    do 2 (apply rbind_ok; eexists; split; [reflexivity|]).
    apply rbind_ok. eexists. split; [apply ok_or_ok, uadd_some; split; [done|unfold in_u; lia]|].
    apply rbind_ok. eexists. split; [reflexivity|].
    apply ok_or_ok, uadd_some. split; [done|unfold in_u; lia].
Qed.

Lemma collateral_iff m b r :
  market_wf m ->
  total_collateral_amount_for_one_token_side (T:=T) m b = Ok r
  <-> r = collateral_held m b /\ collateral_held m b <= u_max.
Proof.
  intros Hwf. unfold total_collateral_amount_for_one_token_side, collateral_sum_pool, collateral_held.
  rewrite !amt_ok by done. unfold rbind. rewrite ok_or_ok, uadd_some. unfold in_u.
  pose proof (amt_in_u m (CollateralSum true) b Hwf).
  pose proof (amt_in_u m (CollateralSum false) b Hwf). unfold in_u in *. split; intros [-> ?]; lia.
Qed.

(** Adding the other side when there is one token. *)
Lemma required_iff (pure side : bool) (read : bool -> result Z) (f : bool -> Z) msg r :
  (forall b r, read b = Ok r <-> r = f b /\ f b <= u_max) -> (forall b, 0 <= f b) ->
  (let! x := read side in
   if pure then let! y := read (negb side) in ok_or (uadd x y) msg else Ok x) = Ok r
  <-> r = required pure f side /\ required pure f side <= u_max.
Proof.
  intros Hread Hf. rewrite rbind_ok. unfold required. pose proof (Hf side). pose proof (Hf (negb side)).
  destruct pure.
  - split.
    + intros (x & Hx & Hr). apply rbind_ok in Hr as (y & Hy & Hr).
      apply ok_or_ok, uadd_some in Hr as [-> [? ?]]. apply Hread in Hx as [-> _].
      by apply Hread in Hy as [-> _].
    + intros [-> Hm]. exists (f side). split; [apply Hread; split; [done|lia]|].
      apply rbind_ok. exists (f (negb side)). split; [apply Hread; split; [done|lia]|].
      apply ok_or_ok, uadd_some. split; [done|]. unfold in_u. lia.
  - split.
    + intros (x & Hx & Hr). apply Hread in Hx as [-> ?]. by injection Hr as <-.
    + intros [-> Hm]. exists (f side). split; [by apply Hread|done].
Qed.

Lemma held_nonneg m b : market_wf (T:=T) m -> 0 <= held m b.
Proof.
  intros Hwf. unfold held. pose proof (amt_in_u m Primary b Hwf).
  pose proof (amt_in_u m SwapImpact b Hwf). pose proof (amt_in_u m ClaimableFee b Hwf).
  unfold in_u in *. lia.
Qed.

Lemma collateral_held_nonneg m b : market_wf m -> 0 <= collateral_held m b.
Proof.
  intros Hwf. unfold collateral_held. pose proof (amt_in_u m (CollateralSum true) b Hwf).
  pose proof (amt_in_u m (CollateralSum false) b Hwf). unfold in_u in *. lia.
Qed.

(** The recorded balance of a side, less the excluded amount, covers the pools and the
    collateral sums. *)
Definition covered (rm : BalanceView T) (side : bool) (excluded : Z) : Prop :=
  let pure := view_is_pure rm in
  let balance := view_balance rm side in
  excluded <= balance
  /\ required pure (held (view_market rm)) side <= balance - excluded
  /\ required pure (collateral_held (view_market rm)) side <= balance - excluded.

Lemma balance_excluding_ok rm token side excluded r :
  ViewWf rm -> 0 <= excluded -> to_token_side (view_meta rm) token = Ok side ->
  balance_excluding rm token excluded = Ok r
  <-> r = view_balance rm side - excluded /\ excluded <= view_balance rm side.
Proof.
  intros Hwf He Hside. unfold balance_excluding, bank_balance, is_zero. rewrite Hside. unfold rbind.
  pose proof (rm_balances rm Hwf side). destruct (Z.eqb_spec excluded 0) as [->|Hz].
  - split; [intros [= <-]; lia|]. intros [-> _]. by rewrite Z.sub_0_r.
  - rewrite ok_or_ok, usub_some. unfold in_u. split; intros [-> ?]; lia.
Qed.

Lemma validate_token_iff rm token side excluded :
  ViewWf rm -> 0 <= excluded -> to_token_side (view_meta rm) token = Ok side ->
  validate_market_balance_for_the_given_token rm token excluded = Ok tt <-> covered rm side excluded.
Proof.
  intros Hwf He Hside. pose proof (base_market_wf rm Hwf) as Hm. unfold covered.
  pose proof (rm_balances rm Hwf side) as Hbal.
  assert (@u_max u64 <= @u_max u128) as Hmax by (vm_compute; discriminate).
  set (pure := view_is_pure rm). set (m := view_market rm) in *.
  pose proof (fun r msg => required_iff pure side _ _ msg r (fun b r => expected_iff m b r Hm)
    (fun b => held_nonneg m b Hm)) as Hheld.
  pose proof (fun r msg => required_iff pure side _ _ msg r (fun b r => collateral_iff m b r Hm)
    (fun b => collateral_held_nonneg m b Hm)) as Hcoll.
  unfold validate_market_balance_for_the_given_token. rewrite Hside. fold pure m. unfold rbind at 1.
  split.
  - intros Hr. apply rbind_ok in Hr as (balance & Hb & Hr).
    apply (balance_excluding_ok rm token side) in Hb as [-> Hex]; [|done..].
    rewrite <- rbind_assoc in Hr.
    apply rbind_ok in Hr as (x & Hx & Hr). apply Hheld in Hx as [-> _].
    case_if_in Hr Hlt; [discriminate|]. rewrite <- rbind_assoc in Hr.
    apply rbind_ok in Hr as (y & Hy & Hr). apply Hcoll in Hy as [-> _].
    case_if_in Hr Hlt'; [discriminate|]. bool_to_prop. lia.
  - intros (Hex & Hh & Hc). apply rbind_ok. exists (view_balance rm side - excluded).
    split; [by apply (balance_excluding_ok rm token side)|]. rewrite <- rbind_assoc.
    apply rbind_ok. eexists. split; [apply Hheld; split; [done|lia]|].
    case_if Hlt; bool_to_prop; [lia|]. rewrite <- rbind_assoc.
    apply rbind_ok. eexists. split; [apply Hcoll; split; [done|lia]|].
    case_if Hlt'; bool_to_prop; [lia|done].
Qed.

Lemma validate_market_balances_iff rm long short :
  ViewWf rm -> 0 <= long -> 0 <= short ->
  validate_market_balances rm long short = Ok tt <->
  (if view_is_pure rm then covered rm true (long + short)
   else covered rm true long /\ covered rm false short).
Proof.
  intros Hwf Hl Hs. unfold validate_market_balances. pose proof (rm_pure_meta rm Hwf) as Hmeta.
  assert (Hlong : to_token_side (view_meta rm) (long_token_mint (view_meta rm)) = Ok true)
    by (unfold to_token_side; by rewrite Z.eqb_refl).
  pose proof (rm_balances rm Hwf true) as Hbal.
  destruct (view_is_pure rm) eqn:Hpure; cbn [negb].
  - rewrite rbind_assoc, rbind_ok. split.
    + intros (total & Ht & Hr). apply ok_or_ok, uadd_some in Ht as [-> _].
      unfold rbind at 1 in Hr. apply rbind_ok in Hr as ([] & Hr & _).
      apply (validate_token_iff rm _ true) in Hr; [done|done|lia|done].
    + intros Hc. exists (long + short). pose proof Hc as (Hex & _).
      split; [apply ok_or_ok, uadd_some; unfold in_u; split; [done|lia]|].
      unfold rbind at 1. apply rbind_ok. exists tt. split; [|done]. apply (validate_token_iff rm _ true); [done|lia|done|done].
  - assert (Hshort : to_token_side (view_meta rm) (short_token_mint (view_meta rm)) = Ok false).
    { unfold to_token_side. rewrite Z.eqb_sym, <- Hmeta. by rewrite Z.eqb_refl. }
    unfold rbind at 1. rewrite rbind_ok. split.
    + intros ([] & H1 & H2). split; [by apply (validate_token_iff rm _ true) in H1|].
      by apply (validate_token_iff rm _ false) in H2.
    + intros [H1 H2]. exists tt. split; [by apply (validate_token_iff rm _ true)|].
      by apply (validate_token_iff rm _ false).
Qed.

(** The validation of the recorded balances accepts a market exactly when it is solvent.
    With two tokens the balance of each, less the amount to exclude, covers the liquidity,
    swap impact and claimable fee pools of its side and also its collateral sums; with one
    token the single balance, less both amounts, covers the pools and the collateral
    sums of both sides together. *)
Theorem validate_market_balances_spec rm long short :
  ViewWf rm -> 0 <= long -> 0 <= short ->
  validate_market_balances rm long short = Ok tt <->
  (if view_is_pure rm then covered rm true (long + short)
   else covered rm true long /\ covered rm false short).
Proof. apply validate_market_balances_iff. Qed.
End Balances.

(** ** The initial account ([Market::init]) *)

(** The pools of a new market are well formed and pure exactly as the market is, but for the
    three that must not be: what the theorems on funding, borrowing and the distribution of
    the position impact ask of a market. *)
Lemma pools_init_ok self is_pure :
  (forall k, wf (storage_pool (pools_get self k))
             /\ short_token_amount (storage_pool (pools_get self k)) = 0) ->
  forall k, let p := storage_pool (pools_get (pools_init self is_pure) k) in
    wf p /\ OnChain.is_pure p = negb (must_be_impure k) && is_pure.
Proof.
  intros Hself k. unfold pools_init. rewrite pools_get_of. simpl.
  destruct (Hself k) as [(Hl & Hs & _) Hz]. set (q := storage_pool (pools_get self k)) in *.
  unfold set_is_pure, wf, OnChain.is_pure. simpl.
  destruct (must_be_impure k), is_pure; simpl; (split; [split_and!; auto|done]).
Qed.

(** ** Examples *)
Section Examples.
Definition example_pool : PoolStorage := mkPoolStorage 0 (mkPool 0 1000 2000).

Definition example_state : State :=
  mkState (pools_init (pools_of (fun _ => example_pool)) false)
    (mkClocksStorage 0 (mkClocks 10 20 30) 0 0) (mkOtherState 0 7 9000 9000 5).

Definition example_account : MarketAccount :=
  mkAccount false (mkMeta 9 3 1 2) (m_config example_market) example_state (buffer_init (mkBuffer 0 example_state)).

Definition example_revertible : RevertibleMarket :=
  mkRevertible (set_buffer example_account (mkBuffer 2 example_state)) 0 PricingSwap.

(** A swap: the pools move, the balance grows, the trade is counted. *)
Definition example_ops : list Op :=
  [OpIn true 50; OpPool Primary (fun p => pool_apply_delta_to_long_amount p 50);
   OpPool Primary (fun p => pool_apply_delta_to_short_amount p (-70)); OpOut false 70;
   OpPassed Borrowing; OpFunding 6; OpTradeId].

Lemma example_buffer_wf : BufferWf (acct_buffer example_account).
Proof. split; [intros []|..]; vm_compute; discriminate. Qed.

Definition example_ran : RevertibleMarket := fst (run_ops 100 example_ops example_revertible).

Lemma example_ran_ok : run_ops 100 example_ops example_revertible = (example_ran, Ok [0; 0; 0; 0; 80; 0; 8]).
Proof. vm_compute. reflexivity. Qed.

Lemma revertible_market_refines_witness :
  acct_state (rm_market example_ran) = example_state
  /\ plain_trade_count (stored tt 100 (m_config example_market) (acct_state (fst (commit example_ran)))) = 8.
Proof.
  destruct (revertible_market_refines tt 100 example_account example_revertible 0 PricingSwap
    example_ops example_ran (Ok [0; 0; 0; 0; 80; 0; 8]) example_buffer_wf) as (_ & Hst & _ & Hc);
    [vm_compute; reflexivity|exact example_ran_ok|].
  split; [exact Hst|].
  destruct (Hc (fst (commit example_ran)) (snd (commit example_ran))) as [Hs _]; [vm_compute; reflexivity|].
  apply (f_equal plain_trade_count) in Hs. exact Hs.
Defined.

Lemma example_revertible_wf : ViewWf (rm_view example_revertible).
Proof.
  split.
  - split; [intros []; vm_compute; repeat split; discriminate|split; vm_compute; discriminate].
  - intros []; vm_compute; split; discriminate.
  - vm_compute. reflexivity.
Qed.

Example validate_market_balances_spec_example :
  covered (rm_view example_revertible) true 100 /\ covered (rm_view example_revertible) false 0.
Proof.
  apply (validate_market_balances_spec (rm_view example_revertible) 100 0 example_revertible_wf);
    [lia|lia|vm_compute; reflexivity].
Defined.

(** One more token would not be covered: 9000 - 3001 < 6000. *)
Example example_not_covered :
  is_ok (validate_market_balances (rm_view example_revertible) 0 3001) = false.
Proof. vm_compute. reflexivity. Qed.
End Examples.
