(* ===== verification/Constants.v ===== *)
(** * Constants of the store program ([constants/mod.rs], [constants/market.rs], [constants/glv.rs]) *)
From S2P Require Import Prelude.
#[local] Open Scope Z_scope.

(** ** Units *)
Definition MARKET_DECIMALS : Z := 20.
Definition MARKET_TOKEN_DECIMALS : Z := 9.
Definition MARKET_USD_UNIT : Z := 10 ^ MARKET_DECIMALS.
Definition FUNDING_AMOUNT_PER_SIZE_ADJUSTMENT : Z := 10 ^ Z.shiftr MARKET_DECIMALS 1.
Definition MARKET_USD_TO_AMOUNT_DIVISOR : Z := 10 ^ (MARKET_DECIMALS - MARKET_TOKEN_DECIMALS).

(** ** Defaults of the store *)
Definition DEFAULT_CLAIMABLE_TIME_WINDOW : Z := 3600.
Definition DEFAULT_RECENT_TIME_WINDOW : Z := 300.
Definition DEFAULT_REQUEST_EXPIRATION : Z := 3600.
Definition DEFAULT_ORACLE_MAX_AGE : Z := 3600.
Definition DEFAULT_ORACLE_MAX_TIMESTAMP_RANGE : Z := 300.
Definition DEFAULT_ORACLE_MAX_FUTURE_TIMESTAMP_EXCESS : Z := 0.
Definition DEFAULT_ADL_PRICES_MAX_STALENESS : Z := 0.
Definition DEFAULT_ORACLE_REF_PRICE_DEVIATION : Z := 1000000000000000.
Definition DEFAULT_GT_VAULT_TIME_WINDOW : Z := 24 * 60 * 60.

(** ** Defaults of a market *)
Definition SECONDS_PER_YEAR : Z := 3600 * 24 * 365.
Definition DEFAULT_RECEIVER_FACTOR : Z := 70000000000000000000.
Definition DEFAULT_SWAP_IMPACT_EXPONENT : Z := MARKET_USD_UNIT.
Definition DEFAULT_SWAP_IMPACT_POSITIVE_FACTOR : Z := 0.
Definition DEFAULT_SWAP_IMPACT_NEGATIVE_FACTOR : Z := 0.
Definition DEFAULT_SWAP_FEE_FACTOR_FOR_POSITIVE_IMPACT : Z := 0.
Definition DEFAULT_SWAP_FEE_FACTOR_FOR_NEGATIVE_IMPACT : Z := 0.
Definition DEFAULT_MIN_POSITION_SIZE_USD : Z := MARKET_USD_UNIT.
Definition DEFAULT_MIN_COLLATERAL_VALUE : Z := MARKET_USD_UNIT.
Definition DEFAULT_MIN_COLLATERAL_FACTOR : Z := MARKET_USD_UNIT / 100.
Definition DEFAULT_MIN_COLLATERAL_FACTOR_FOR_OPEN_INTEREST_FOR_LONG : Z := 380000000000.
Definition DEFAULT_MIN_COLLATERAL_FACTOR_FOR_OPEN_INTEREST_FOR_SHORT : Z := 380000000000.
Definition DEFAULT_MAX_POSITIVE_POSITION_IMPACT_FACTOR : Z := 500000000000000000.
Definition DEFAULT_MAX_NEGATIVE_POSITION_IMPACT_FACTOR : Z := 500000000000000000.
Definition DEFAULT_MAX_POSITION_IMPACT_FACTOR_FOR_LIQUIDATIONS : Z := 0.
Definition DEFAULT_POSITION_IMPACT_EXPONENT : Z := 2 * MARKET_USD_UNIT.
Definition DEFAULT_POSITION_IMPACT_POSITIVE_FACTOR : Z := 10000000000000.
Definition DEFAULT_POSITION_IMPACT_NEGATIVE_FACTOR : Z := 20000000000000.
Definition DEFAULT_ORDER_FEE_FACTOR_FOR_POSITIVE_IMPACT : Z := 50000000000000000.
Definition DEFAULT_ORDER_FEE_FACTOR_FOR_NEGATIVE_IMPACT : Z := 70000000000000000.
Definition DEFAULT_LIQUIDATION_FEE_FACTOR : Z := 20 * MARKET_USD_UNIT / 10000.
Definition DEFAULT_POSITION_IMPACT_DISTRIBUTE_FACTOR : Z := 230000000000000000.
Definition DEFAULT_MIN_POSITION_IMPACT_POOL_AMOUNT : Z := 1500000000.
Definition DEFAULT_BORROWING_FEE_FACTOR_FOR_LONG : Z := 2780000000000.
Definition DEFAULT_BORROWING_FEE_FACTOR_FOR_SHORT : Z := 2780000000000.
Definition DEFAULT_BORROWING_FEE_EXPONENT_FOR_LONG : Z := MARKET_USD_UNIT.
Definition DEFAULT_BORROWING_FEE_EXPONENT_FOR_SHORT : Z := MARKET_USD_UNIT.
Definition DEFAULT_BORROWING_FEE_OPTIMAL_USAGE_FACTOR_FOR_LONG : Z := 75 * MARKET_USD_UNIT / 100.
Definition DEFAULT_BORROWING_FEE_OPTIMAL_USAGE_FACTOR_FOR_SHORT : Z := 75 * MARKET_USD_UNIT / 100.
Definition DEFAULT_BORROWING_FEE_BASE_FACTOR_FOR_LONG : Z := 60 * MARKET_USD_UNIT / 100 / SECONDS_PER_YEAR.
Definition DEFAULT_BORROWING_FEE_BASE_FACTOR_FOR_SHORT : Z := 60 * MARKET_USD_UNIT / 100 / SECONDS_PER_YEAR.
Definition DEFAULT_BORROWING_FEE_ABOVE_OPTIMAL_USAGE_FACTOR_FOR_LONG : Z := 150 * MARKET_USD_UNIT / 100 / SECONDS_PER_YEAR.
Definition DEFAULT_BORROWING_FEE_ABOVE_OPTIMAL_USAGE_FACTOR_FOR_SHORT : Z := 150 * MARKET_USD_UNIT / 100 / SECONDS_PER_YEAR.
Definition DEFAULT_FUNDING_FEE_EXPONENT : Z := MARKET_USD_UNIT.
Definition DEFAULT_FUNDING_FEE_FACTOR : Z := 2000000000000.
Definition DEFAULT_FUNDING_FEE_MAX_FACTOR_PER_SECOND : Z := 1500000000000.
Definition DEFAULT_FUNDING_FEE_MIN_FACTOR_PER_SECOND : Z := 30000000000.
Definition DEFAULT_FUNDING_FEE_INCREASE_FACTOR_PER_SECOND : Z := 116000000.
Definition DEFAULT_FUNDING_FEE_DECREASE_FACTOR_PER_SECOND : Z := 0.
Definition DEFAULT_FUNDING_FEE_THRESHOLD_FOR_STABLE_FUNDING : Z := 5000000000000000000.
Definition DEFAULT_FUNDING_FEE_THRESHOLD_FOR_DECREASE_FUNDING : Z := 0.
Definition DEFAULT_RESERVE_FACTOR : Z := 50000000000000000000.
Definition DEFAULT_OPEN_INTEREST_RESERVE_FACTOR : Z := 45000000000000000000.
Definition DEFAULT_MAX_PNL_FACTOR_FOR_LONG_DEPOSIT : Z := 60000000000000000000.
Definition DEFAULT_MAX_PNL_FACTOR_FOR_SHORT_DEPOSIT : Z := 60000000000000000000.
Definition DEFAULT_MAX_PNL_FACTOR_FOR_LONG_WITHDRAWAL : Z := 60000000000000000000.
Definition DEFAULT_MAX_PNL_FACTOR_FOR_SHORT_WITHDRAWAL : Z := 60000000000000000000.
Definition DEFAULT_MAX_PNL_FACTOR_FOR_LONG_TRADER : Z := 60000000000000000000.
Definition DEFAULT_MAX_PNL_FACTOR_FOR_SHORT_TRADER : Z := 60000000000000000000.
Definition DEFAULT_MAX_PNL_FACTOR_FOR_LONG_ADL : Z := 55000000000000000000.
Definition DEFAULT_MAX_PNL_FACTOR_FOR_SHORT_ADL : Z := 55000000000000000000.
Definition DEFAULT_MIN_PNL_FACTOR_AFTER_LONG_ADL : Z := 50000000000000000000.
Definition DEFAULT_MIN_PNL_FACTOR_AFTER_SHORT_ADL : Z := 50000000000000000000.
Definition DEFAULT_MAX_POOL_AMOUNT_FOR_LONG_TOKEN : Z := 900000000000.
Definition DEFAULT_MAX_POOL_AMOUNT_FOR_SHORT_TOKEN : Z := 900000000000.
Definition DEFAULT_MAX_POOL_VALUE_FOR_DEPOSIT_LONG_TOKEN : Z := 750000 * MARKET_USD_UNIT.
Definition DEFAULT_MAX_POOL_VALUE_FOR_DEPOSIT_SHORT_TOKEN : Z := 750000 * MARKET_USD_UNIT.
Definition DEFAULT_MAX_OPEN_INTEREST_FOR_LONG : Z := 450000 * MARKET_USD_UNIT.
Definition DEFAULT_MAX_OPEN_INTEREST_FOR_SHORT : Z := 450000 * MARKET_USD_UNIT.
Definition DEFAULT_MIN_TOKENS_FOR_FIRST_DEPOSIT : Z := 0.
Definition DEFAULT_SKIP_BORROWING_FEE_FOR_SMALLER_SIDE : bool := true.
Definition DEFAULT_IGNORE_OPEN_INTEREST_FOR_USAGE_FACTOR : bool := false.

(** ** Defaults of a GLV *)
Definition DEFAULT_GLV_MIN_SHIFT_INTERVAL_SECS : Z := 60 * 60.
Definition DEFAULT_GLV_MAX_SHIFT_PRICE_IMPACT_FACTOR : Z := MARKET_USD_UNIT / 100.
Definition DEFAULT_GLV_MIN_SHIFT_VALUE : Z := 0.
