(* ===== verification/CoreErrors.v ===== *)
(** * The errors of the store program

    [CoreError] of the store program ([lib.rs]) and [GeneralError] of the utilities crate
    ([gmsol-utils/src/lib.rs]). Code of the store program fails with either of them or, where it
    runs the model crate, with an error of that crate. *)
From S2P Require Import Prelude.
From S2P Require Import Kinds.

Module CoreError.

Inductive CoreError : Type :=
| NonDefaultStore
| Internal
| Unimplemented
| NotAnAdmin
| PermissionDenied
| FeatureDisabled
| Model
| InvalidArgument
| PreconditionsAreNotMet
| NotFound
| ExceedMaxLengthLimit
| NotEnoughSpace
| TokenAmountOverflow
| ValueOverflow
| UnknownActionState
| LoadAccountError
| TokenAccountNotProvided
| TokenMintNotProvided
| TokenDecimalsMismatched
| MarketAccountIsNotProvided
| StoreMismatched
| OwnerMismatched
| ReceiverMismatched
| RentReceiverMismatched
| MarketMismatched
| MarketTokenMintMismatched
| MintAccountNotProvided
| MarketTokenAccountMismatched
| TokenMintMismatched
| TokenAccountMismatched
| NotAnATA
| NotEnoughTokenAmount
| TokenAmountExceedsLimit
| UnknownToken
| NotEnoughExecutionFee
| InvalidSwapPathLength
| NotEnoughSwapMarkets
| InvalidSwapPath
| InsufficientOutputAmount
| StoreOutdated
| InvalidStoreConfigKey
| InvalidProviderKindIndex
| ChainlinkProgramIsRequired
| NotSupportedCustomPriceProvider
| NotEnoughTokenFeeds
| OracleTimestampsAreLargerThanRequired
| OracleTimestampsAreSmallerThanRequired
| InvalidOracleTimestampsRange
| MaxOracleTimestampsRangeExceeded
| OracleNotUpdated
| MaxPriceAgeExceeded
| MaxPriceTimestampExceeded
| NegativePriceIsNotSupported
| InvalidOracleSlot
| MissingOraclePrice
| InvalidPriceFeedPrice
| PriceOverflow
| InvalidPriceFeedAccount
| PriceFeedNotUpdated
| PricesAreAlreadySet
| PriceIsAlreadySet
| TokenConfigDisabled
| SyntheticTokenPriceIsNotAllowed
| InvalidPriceReport
| MarketNotOpen
| EmptyDeposit
| InvalidReceiverForFirstDeposit
| NotEnoughMarketTokenAmountForFirstDeposit
| NotEnoughGlvTokenAmountForFirstDeposit
| EmptyWithdrawal
| EmptyOrder
| InvalidMinOutputAmount
| InvalidTriggerPrice
| InvalidPosition
| InvalidPositionKind
| PositionMismatched
| PositionItNotRequired
| PositionIsRequired
| OrderKindNotAllowed
| UnknownOrderKind
| UnknownOrderSide
| UnknownDecreasePositionSwapType
| MissingInitialCollateralToken
| MissingFinalOutputToken
| MissingPoolTokens
| InvalidTradeID
| InvalidTradeDeltaSize
| InvalidTradeDeltaTokens
| InvalidBorrowingFactor
| InvalidFundingFactors
| NoDelegatedAuthorityIsSet
| ClaimableCollateralForHoldingCannotBeInOutputTokens
| AdlNotEnabled
| AdlNotRequired
| InvalidAdl
| SameOutputTokensNotMerged
| EventBufferNotProvided
| EmptyShift
| InvalidShiftMarkets
| GTStateHasBeenInitialized
| InvalidGTConfig
| InvalidGTDiscount
| UserAccountHasBeenInitialized
| ReferralCodeHasBeenSet
| ReferrerHasBeenSet
| InvalidUserAccount
| ReferralCodeMismatched
| SelfReferral
| MutualReferral
| InvalidMarketConfigKey
| InvalidCollateralToken
| DisabledMarket
| FailedToCalculateGlvValueForMarket
| FailedToCalculateGlvAmountToMint
| FailedTOCalculateMarketTokenAmountToBurn
| ExceedMaxGlvMarketTokenBalanceAmount
| ExceedMaxGlvMarketTokenBalanceValue
| EmptyGlvWithdrawal
| GlvNegativeMarketPoolValue
| GlvDepositIsNotAllowed
| GlvShiftIntervalNotYetPassed
| GlvShiftMaxPriceImpactExceeded
| GlvShiftValueNotLargeEnough
| TokenDecimalsChanged
| PriceIsStale.

End CoreError.

Module GeneralError.

Inductive GeneralError : Type :=
| AlreadyExist
| ExceedMaxLengthLimit.

End GeneralError.

(** What a function of the store program can fail with; [Anchor] are the errors of the framework,
    by name. *)
Inductive StoreError : Type :=
| Core (e : CoreError.CoreError)
| General (e : GeneralError.GeneralError)
| ModelError (e : Kinds.Error)
| Anchor (name : string).

Abbreviation store_result A := (Result StoreError A).

(** [require!(cond, error)] of Anchor. *)
Definition require (b : bool) (e : CoreError.CoreError) : store_result unit :=
  if b then Ok tt else Err (Core e).

Lemma require_ok b e u : require b e = Ok u <-> b = true.
Proof. destruct b, u; simpl; split; congruence. Qed.

Lemma require_panics b e : panics (require b e) = false.
Proof. by destruct b. Qed.
#[export] Hint Resolve require_panics : no_panic.
