(* ===== verification/MapSum.v ===== *)
(** * Sums over finite maps

    [map_sum f m] is the sum of [f] over the values of [m]: what all accounts of a kind hold
    together. Accounts are added, changed one at a time, and closed; the lemmas say what each
    does to the sum. *)
From stdpp Require Import gmap.
From S2P Require Import Prelude.
#[local] Open Scope Z_scope.

Section MapSum.
Context {K : Type} `{Countable K} {V : Type}.
Implicit Types (f g : V -> Z) (m : gmap K V).

Definition map_sum f m : Z := map_fold (fun _ v acc => f v + acc) 0 m.

Lemma map_sum_empty f : map_sum f ∅ = 0.
Proof. apply map_fold_empty. Qed.

Lemma map_sum_delete f m k v : m !! k = Some v -> map_sum f (delete k m) = map_sum f m - f v.
Proof.
  intros Hk. unfold map_sum. rewrite (map_fold_delete_L _ _ k v m) by (done || (intros; lia)). lia.
Qed.

Lemma map_sum_insert_new f m k v : m !! k = None -> map_sum f (<[k:=v]> m) = map_sum f m + f v.
Proof. intros Hk. unfold map_sum. rewrite map_fold_insert_L by (done || (intros; lia)). lia. Qed.

(** The sum with a value replaced; a key that is not there counts for nothing. *)
Lemma map_sum_insert f m k v :
  map_sum f (<[k:=v]> m) = map_sum f m - from_option f 0 (m !! k) + f v.
Proof.
  destruct (m !! k) as [v0|] eqn:Hk; simpl.
  - rewrite <- insert_delete_eq, map_sum_insert_new by (by rewrite lookup_delete_eq).
    rewrite (map_sum_delete _ _ _ _ Hk). lia.
  - rewrite map_sum_insert_new by done. lia.
Qed.

Lemma lookup_insert_new m k v k' v' : m !! k = None -> m !! k' = Some v' -> <[k:=v]> m !! k' = Some v'.
Proof. intros Hk Hk'. apply lookup_insert_Some. right. split; [congruence|done]. Qed.

Lemma map_sum_ext f g m : (forall k v, m !! k = Some v -> f v = g v) -> map_sum f m = map_sum g m.
Proof.
  induction m as [|k v m Hk IH] using map_ind; intros Hfg; [done|].
  rewrite !map_sum_insert_new by done. rewrite (Hfg k v) by apply lookup_insert_eq. rewrite IH; [done|].
  intros k' v' Hk'. eapply Hfg, lookup_insert_new; done.
Qed.

Lemma map_sum_nonneg f m : (forall k v, m !! k = Some v -> 0 <= f v) -> 0 <= map_sum f m.
Proof.
  induction m as [|k v m Hk IH] using map_ind; intros Hf; [done|].
  rewrite map_sum_insert_new by done. pose proof (Hf k v (lookup_insert_eq _ _ _)) as Hv.
  assert (0 <= map_sum f m); [|lia]. apply IH. intros k' v' Hk'. eapply Hf, lookup_insert_new; done.
Qed.

(** Each value is part of the sum. *)
Lemma map_sum_le f m k v :
  (forall k v, m !! k = Some v -> 0 <= f v) -> m !! k = Some v -> f v <= map_sum f m.
Proof.
  intros Hf Hk. pose proof (map_sum_delete f m k v Hk).
  assert (0 <= map_sum f (delete k m)); [|lia]. apply map_sum_nonneg.
  intros k' v' [_ Hk']%lookup_delete_Some. by eapply Hf.
Qed.

Lemma map_sum_zero f m : (forall k v, m !! k = Some v -> f v = 0) -> map_sum f m = 0.
Proof.
  induction m as [|k v m Hk IH] using map_ind; intros Hf; [done|].
  rewrite map_sum_insert_new by done. rewrite (Hf k v) by apply lookup_insert_eq. rewrite IH; [done|].
  intros k' v' Hk'. eapply Hf, lookup_insert_new; done.
Qed.
End MapSum.
