(* ===== verification/FixedMap.v ===== *)
(** * The fixed-capacity map

    The macro [fixed_map!] of [gmsol-utils/src/fixed_map.rs]: an array of [LEN] entries of
    which the first [count] are in use, sorted by key and searched by bisection. The store
    program keeps its roles, its members and the prices of an oracle in such maps.

    A key of [u8; N] is the number its bytes are the big-endian digits of: the order of the
    arrays, which is lexicographic, is the order of these numbers. [to_key] is the conversion
    that the macro is called with (a hash, or the bytes of an address). A reference that
    [get_mut] returns is the place of the value in the array ([place]).

    The abstraction is a finite map from keys, [to_map]; [run_refines] says that every sequence
    of operations answers as that map does, with the one exception that is part of the
    specification: a removal from a full map reads past the end of the array and panics. *)
From stdpp Require Import sorting gmap.
From S2P Require Import Prelude.
From S2P Require Import CoreErrors.
#[local] Open Scope Z_scope.

Section FixedMap.
Context {K V : Type} (to_key : K -> Z) (default : V) (LEN : nat).

Record Entry : Type := mkEntry { key : Z; value : V }.

Record FixedMap : Type := mkFixedMap { data : list Entry; count : nat }.

(** [Default] of an entry: the key is all zeros. *)
Definition default_entry : Entry := mkEntry 0 default.

(** [Zeroable::zeroed]. *)
Definition zeroed : FixedMap := mkFixedMap (replicate LEN default_entry) 0.

Abbreviation FM A := (ST FixedMap StoreError A).

Definition out_of_bounds : string := "index out of bounds".

(** [data[i]] and [data[i] = e]. *)
Definition index (i : nat) : FM Entry :=
  sread (fun self => expect (data self !! i) out_of_bounds).

Definition set_index (i : nat) (e : Entry) : FM unit :=
  supdate (fun self =>
    let! _ := expect (data self !! i) out_of_bounds in
    Ok (mkFixedMap (<[i := e]> (data self)) (count self))).

Definition len (self : FixedMap) : nat := count self.
Definition is_empty (self : FixedMap) : bool := (count self =? 0)%nat.

(** [data.iter().take(len)]. *)
Definition entries (self : FixedMap) : list Entry := take (len self) (data self).

Definition get_entry_by_index (self : FixedMap) (idx : nat) : store_result (option (Z * V)) :=
  if (idx <? len self)%nat then
    let! e := expect (data self !! idx) out_of_bounds in
    Ok (Some (key e, value e))
  else Ok None.

(** [slice::binary_search_by] of the standard library, which halves the number of candidates
    [size] above [base] until one is left. The probed index is always in range. *)
Fixpoint search_loop (fuel : nat) (l : list Entry) (k : Z) (base size : nat) : nat :=
  match fuel with
  | O => base
  | S fuel =>
      if (size <=? 1)%nat then base
      else
        let half := (size / 2)%nat in
        let mid := (base + half)%nat in
        let base := match l !! mid with
                    | Some e => if k <? key e then base else mid
                    | None => base
                    end in
        search_loop fuel l k base (size - half)
  end.

Definition slice_binary_search (l : list Entry) (k : Z) : Result nat nat :=
  match length l with
  | O => Err O
  | size =>
      let base := search_loop size l k 0 size in
      match l !! base with
      | Some e => if key e =? k then Ok base else Err (if key e <? k then S base else base)
      | None => Err base
      end
  end.

(** The slice [data[..len]] panics when [len] exceeds the array. *)
Definition binary_search (k : Z) : FM (Result nat nat) :=
  sread (fun self =>
    if (len self <=? length (data self))%nat then Ok (slice_binary_search (entries self) k)
    else Panic out_of_bounds).

Definition get (k : K) : FM (option V) :=
  do! r := binary_search (to_key k) in
  match r with
  | Ok i => do! e := index i in sret (Some (value e))
  | _ => sret None
  end.

(** The place that [get_mut] gives a mutable reference to, and the access through it. *)
Definition place : Type := nat.

Definition get_mut (k : K) : FM (option place) :=
  do! r := binary_search (to_key k) in
  match r with
  | Ok i => do! _ := index i in sret (Some i)
  | _ => sret None
  end.

Definition read_place (p : place) : FM V := do! e := index p in sret (value e).
Definition write_place (p : place) (v : V) : FM unit :=
  do! e := index p in set_index p (mkEntry (key e) v).

Definition set_count (f : nat -> nat) : FM unit :=
  smodify (fun self => mkFixedMap (data self) (f (count self))).

Definition insert_with_options (k : K) (v : V) (new : bool) : FM (option V) :=
  do! r := binary_search (to_key k) in
  match r with
  | Ok i =>
      if new then slift (Err (General GeneralError.AlreadyExist))
      else
        do! previous := index i in
        do! _ := set_index i (mkEntry (key previous) v) in
        sret (Some (value previous))
  | Err i =>
      do! len := sread (fun self => Ok (len self)) in
      if (LEN <=? len)%nat then slift (Err (General GeneralError.ExceedMaxLengthLimit))
      else
        do! _ := sfor_each (fun j => do! e := index j in set_index (S j) e)
                   (rev (seq i (len - i))) in
        do! _ := set_index i (mkEntry (to_key k) v) in
        do! _ := set_count S in
        sret None
  | Panic msg => slift (Panic msg)
  end.

(** [insert_with_options(..).expect("must be success")]. *)
Definition insert (k : K) (v : V) : FM (option V) :=
  do! r := stry (insert_with_options k v false) in
  match r with
  | Ok previous => sret previous
  | Err _ => slift (Panic "must be success")
  | Panic msg => slift (Panic msg)
  end.

Definition remove (k : K) : FM (option V) :=
  do! r := binary_search (to_key k) in
  match r with
  | Ok i =>
      do! e := index i in
      do! _ := set_index i (mkEntry (key e) default) in
      do! len := sread (fun self => Ok (len self)) in
      do! _ := sfor_each (fun j => do! e := index (S j) in set_index j e) (seq i (len - i)) in
      do! _ := set_index (len - 1) default_entry in
      do! _ := set_count pred in
      sret (Some (value e))
  | _ => sret None
  end.

Definition clear : FM unit :=
  do! len := sread (fun self => Ok (len self)) in
  do! _ := sfor_each (fun j => set_index j default_entry) (seq 0 len) in
  set_count (fun _ => O).

(** ** Bisection *)

(** The keys in use are strictly increasing, so they are distinct. *)
Definition key_lt (a b : Entry) : Prop := key a < key b.
Definition sorted (l : list Entry) : Prop := StronglySorted key_lt l.

Lemma sorted_lookup l i j a b :
  sorted l -> (i < j)%nat -> l !! i = Some a -> l !! j = Some b -> key a < key b.
Proof.
  intros Hs. revert i j. induction Hs as [|x l Hs IH Hall]; intros i j Hij Ha Hb; [done|].
  destruct j as [|j]; [lia|]. simpl in Hb. destruct i as [|i]; simpl in Ha.
  - injection Ha as <-. rewrite Forall_forall in Hall. apply Hall.
    by eapply list_elem_of_lookup_2.
  - eapply IH; [|exact Ha|exact Hb]. lia.
Qed.

(** The loop halves the candidates: with [n] rounds for [2 ^ n] of them it has finished, and
    more rounds change nothing. *)
Lemma search_loop_fuel fuel fuel' l k base size :
  (size <= 2 ^ fuel -> size <= 2 ^ fuel' ->
   search_loop fuel l k base size = search_loop fuel' l k base size)%nat.
Proof.
  revert fuel' base size. induction fuel as [|fuel IH]; intros fuel' base size Hf Hf'.
  { simpl in Hf. destruct fuel'; [done|]. cbn [search_loop].
    by destruct (Nat.leb_spec size 1); [|lia]. }
  cbn [search_loop]. destruct fuel' as [|fuel']; cbn [search_loop];
    destruct (Nat.leb_spec size 1); try done; [simpl in Hf'; lia|].
  pose proof (Nat.Div0.div_mod size 2). pose proof (Nat.mod_upper_bound size 2 ltac:(lia)).
  apply IH; simpl in Hf, Hf'; lia.
Qed.

(** What the loop keeps: the key is not below [base] (unless nothing has been excluded there)
    and below everything from [base + size] on. *)
Definition bracketed (l : list Entry) (k : Z) (base size : nat) : Prop :=
  (1 <= size /\ base + size <= length l)%nat /\
  (forall e, l !! base = Some e -> base = O \/ key e <= k) /\
  (forall i e, (base + size <= i)%nat -> l !! i = Some e -> k < key e).

Lemma search_loop_spec fuel l k base size :
  sorted l -> (size <= fuel)%nat -> bracketed l k base size ->
  bracketed l k (search_loop fuel l k base size) 1.
Proof.
  intros Hs. revert base size. induction fuel as [|fuel IH]; intros base size Hf Hb.
  { destruct Hb as [[? ?] ?]. lia. }
  cbn [search_loop]. destruct (Nat.leb_spec size 1) as [H1|H1].
  { by assert (size = 1%nat) as -> by (destruct Hb as [[? ?] ?]; lia). }
  destruct Hb as ((_ & Hlen) & Hlo & Hhi).
  assert (Hhalf : (1 <= size / 2 /\ 2 * (size / 2) <= size)%nat).
  { split; [apply Nat.div_le_lower_bound; lia|apply Nat.Div0.mul_div_le]. }
  set (half := (size / 2)%nat) in *.
  destruct (lookup_lt_is_Some_2 l (base + half)) as [e He]; [lia|]. rewrite He.
  apply IH; [lia|]. destruct (Z.ltb_spec k (key e)) as [Hk|Hk].
  - split_and!; [lia|lia|done|]. intros i e' Hi He'.
    destruct (decide (i = (base + half)%nat)) as [->|Hne]; [congruence|].
    assert (key e < key e') by (eapply sorted_lookup; [done| |exact He|exact He']; lia). lia.
  - split_and!; [lia|lia| |].
    + intros e' He'. right. congruence.
    + intros i e' Hi He'. eapply Hhi; [|exact He']. lia.
Qed.

(** Where the key is, or where it belongs. *)
Lemma slice_binary_search_spec l k :
  sorted l ->
  match slice_binary_search l k with
  | Ok i => exists e, l !! i = Some e /\ key e = k
  | Err i => (i <= length l)%nat /\
             (forall j e, (j < i)%nat -> l !! j = Some e -> key e < k) /\
             (forall j e, (i <= j)%nat -> l !! j = Some e -> k < key e)
  | Panic _ => False
  end.
Proof.
  intros Hs. unfold slice_binary_search. destruct (length l) as [|n] eqn:Hlen.
  { apply nil_length_inv in Hlen as ->. split_and!; [lia|done|done]. }
  destruct (search_loop_spec (S n) l k 0 (S n)) as ((_ & Hb) & Hlo & Hhi);
    [done|lia| |].
  { unfold bracketed. split_and!; [lia|lia|by left|]. intros i e Hi He.
    apply lookup_lt_Some in He. lia. }
  set (base := search_loop _ _ _ _ _) in *.
  destruct (lookup_lt_is_Some_2 l base) as [e He]; [lia|]. rewrite He.
  destruct (Z.eqb_spec (key e) k) as [Heq|Hne]; [eauto|].
  specialize (Hlo e He).
  assert (Hbelow : forall j e', (j < base)%nat -> l !! j = Some e' -> key e' < k).
  { intros j e' Hj He'.
    assert (key e' < key e) by (eapply sorted_lookup; [done| |exact He'|exact He]; lia). lia. }
  destruct (Z.ltb_spec (key e) k) as [Hlt|Hge].
  - split_and!; [lia| |intros j e' Hj; apply Hhi; lia]. intros j e' Hj He'.
    destruct (decide (j = base)) as [->|]; [congruence|]. eapply Hbelow; [|exact He']. lia.
  - destruct Hlo as [->|]; [|lia]. split_and!; [lia|lia|]. intros j e' Hj He'.
    destruct (decide (j = O)) as [->|]; [assert (e' = e) by congruence; subst; lia|].
    eapply Hhi; [|exact He']. lia.
Qed.

(** ** The map that the entries stand for *)

Definition map_of (es : list Entry) : gmap Z V :=
  list_to_map ((fun e => (key e, value e)) <$> es).

Definition to_map (self : FixedMap) : gmap Z V := map_of (entries self).

Record Wf (self : FixedMap) : Prop := mkWf {
  wf_length : length (data self) = LEN;
  wf_count : (count self <= LEN)%nat;
  wf_sorted : sorted (entries self) }.

Lemma sorted_app_inv a b :
  sorted (a ++ b) <-> sorted a /\ sorted b /\ (forall x y, x ∈ a -> y ∈ b -> key x < key y).
Proof.
  induction a as [|x a IH]; simpl.
  { split; [intros H; split_and!; [constructor|done|]|by intros (_ & ? & _)].
    intros x y Hx. by apply not_elem_of_nil in Hx. }
  split.
  - intros [Hs Hall]%StronglySorted_inv. apply IH in Hs as (Ha & Hb & Hab).
    rewrite Forall_app, !Forall_forall in Hall. destruct Hall as [Hxa Hxb].
    split_and!; [constructor; [done|by rewrite Forall_forall]|done|].
    intros x' y [->|Hx']%elem_of_cons Hy; [by apply Hxb|by apply Hab].
  - intros ([Ha Hxa]%StronglySorted_inv & Hb & Hab). rewrite Forall_forall in Hxa. constructor.
    + apply IH. split_and!; [done|done|]. intros x' y Hx' Hy.
      apply Hab; [by apply list_elem_of_further|done].
    + rewrite Forall_app, !Forall_forall. split; [done|].
      intros y Hy. apply Hab; [by apply list_elem_of_here|done].
Qed.

(** An entry in the middle of sorted entries: it may be dropped, or its value changed. *)
Lemma sorted_middle a e b :
  sorted (a ++ e :: b) <->
  sorted (a ++ b) /\ (forall x, x ∈ a -> key x < key e) /\ (forall y, y ∈ b -> key e < key y).
Proof.
  rewrite !sorted_app_inv. split.
  - intros (Ha & [Hb He]%StronglySorted_inv & Hab). rewrite Forall_forall in He.
    split_and!; [done|done| |by intros x Hx; apply Hab; [|apply list_elem_of_here]|done].
    intros x y Hx Hy. apply Hab; [done|by apply list_elem_of_further].
  - intros ((Ha & Hb & Hab) & Hae & Heb). split_and!; [done| |].
    + constructor; [done|by rewrite Forall_forall].
    + intros x y Hx [->|Hy]%elem_of_cons; [by apply Hae|by apply Hab].
Qed.

Lemma map_of_none es k : map_of es !! k = None <-> forall e, e ∈ es -> key e <> k.
Proof.
  unfold map_of. rewrite <- not_elem_of_list_to_map, <- list_fmap_compose. simpl.
  rewrite list_elem_of_fmap. split; [intros H e He <-; apply H; eauto|].
  intros H (e & -> & He). by apply (H e).
Qed.

Lemma map_of_middle a e b :
  sorted (a ++ e :: b) ->
  map_of (a ++ e :: b) = <[key e := value e]> (map_of (a ++ b)) /\
  map_of (a ++ b) !! key e = None.
Proof.
  intros (Hs & Hae & Heb)%sorted_middle. split.
  - unfold map_of. rewrite !fmap_app, !list_to_map_app. simpl.
    rewrite insert_union_r; [done|]. apply map_of_none. intros x Hx. specialize (Hae x Hx). lia.
  - apply map_of_none. intros x [Hx|Hx]%elem_of_app.
    + specialize (Hae x Hx). lia.
    + specialize (Heb x Hx). lia.
Qed.

Lemma map_of_lookup es i e :
  sorted es -> es !! i = Some e -> map_of es !! key e = Some (value e).
Proof.
  intros Hs Hi. apply list_elem_of_split_length in Hi as (a & b & -> & ->).
  destruct (map_of_middle a e b Hs) as [-> _]. apply lookup_insert_eq.
Qed.

(** ** The array accesses and the two loops *)

Lemma index_at a e r n : index (length a) (mkFixedMap (a ++ e :: r) n) =
  (mkFixedMap (a ++ e :: r) n, Ok e).
Proof. unfold index, sread. simpl. by rewrite list_lookup_middle. Qed.

Lemma set_index_at a e e' r n : set_index (length a) e' (mkFixedMap (a ++ e :: r) n) =
  (mkFixedMap (a ++ e' :: r) n, Ok tt).
Proof.
  unfold set_index, supdate. simpl. rewrite list_lookup_middle by done. simpl.
  unfold rbind, expect. by rewrite (insert_app_r_alt a (e :: r)), Nat.sub_diag.
Qed.

Lemma sfor_each_app {S E A} (f : A -> ST S E unit) xs ys s :
  sfor_each f (xs ++ ys) s = sbind (sfor_each f xs) (fun _ => sfor_each f ys) s.
Proof.
  revert s. induction xs as [|x xs IH]; intros s; [done|]. simpl. unfold sbind.
  destruct (f x s) as [s' []]; [|done|done]. by rewrite IH.
Qed.

(** Making room at [length a]: all later entries move one place up; what is left at
    [length a] is about to be overwritten. *)
Lemma shift_right a b x r n :
  exists h,
    sfor_each (fun j => do! e := index j in set_index (S j) e) (rev (seq (length a) (length b)))
      (mkFixedMap (a ++ b ++ x :: r) n) = (mkFixedMap (a ++ h :: b ++ r) n, Ok tt).
Proof.
  revert x r. induction b as [|y b IH] using rev_ind; intros x r; [by exists x|].
  rewrite length_app, seq_app, rev_app_distr. simpl. destruct (IH y (y :: r)) as (h & Hh).
  exists h. unfold sbind at 1. unfold sbind at 1.
  replace (a ++ (b ++ [y]) ++ x :: r) with ((a ++ b) ++ y :: x :: r) by (simplify_list_eq; done).
  rewrite <- length_app, index_at.
  replace (S (length (a ++ b))) with (length ((a ++ b) ++ [y])) by (rewrite length_app; simpl; lia).
  replace ((a ++ b) ++ y :: x :: r) with (((a ++ b) ++ [y]) ++ x :: r) by (simplify_list_eq; done).
  rewrite set_index_at.
  replace (((a ++ b) ++ [y]) ++ y :: r) with (a ++ b ++ y :: y :: r) by (simplify_list_eq; done).
  rewrite Hh. by simplify_list_eq.
Qed.

(** Closing the gap at [length a]: what follows the entries is copied down too. *)
Lemma shift_left a y b x r n :
  sfor_each (fun j => do! e := index (S j) in set_index j e)
    (seq (length a) (S (length b))) (mkFixedMap (a ++ y :: b ++ x :: r) n) =
  (mkFixedMap (a ++ b ++ x :: x :: r) n, Ok tt).
Proof.
  revert a y. induction b as [|z b IH]; intros a y; simpl; unfold sbind at 1; unfold sbind at 1.
  - replace (S (length a)) with (length (a ++ [y])) by (rewrite length_app; simpl; lia).
    replace (a ++ y :: x :: r) with ((a ++ [y]) ++ x :: r) by (simplify_list_eq; done).
    rewrite index_at, <- app_assoc. simpl. by rewrite set_index_at.
  - replace (S (length a)) with (length (a ++ [y])) by (rewrite length_app; simpl; lia).
    replace (a ++ y :: z :: b ++ x :: r) with ((a ++ [y]) ++ z :: b ++ x :: r)
      by (simplify_list_eq; done).
    rewrite index_at, <- app_assoc. simpl. rewrite set_index_at.
    replace (length (a ++ [y])) with (length (a ++ [z])) by (by rewrite !length_app).
    replace (a ++ z :: z :: b ++ x :: r) with ((a ++ [z]) ++ z :: b ++ x :: r)
      by (simplify_list_eq; done).
    specialize (IH (a ++ [z]) z). simpl in IH. rewrite IH. by simplify_list_eq.
Qed.

(** With no place after the entries the copy runs off the array. *)
Lemma shift_left_full a y b n :
  exists s,
    sfor_each (fun j => do! e := index (S j) in set_index j e)
      (seq (length a) (S (length b))) (mkFixedMap (a ++ y :: b) n) = (s, Panic out_of_bounds).
Proof.
  revert a y. induction b as [|z b IH]; intros a y; simpl; unfold sbind at 1; unfold sbind at 1.
  - unfold index at 1, sread. simpl. rewrite lookup_ge_None_2; [by eexists|].
    rewrite length_app. simpl. lia.
  - replace (S (length a)) with (length (a ++ [y])) by (rewrite length_app; simpl; lia).
    replace (a ++ y :: z :: b) with ((a ++ [y]) ++ z :: b) by (simplify_list_eq; done).
    rewrite index_at, <- app_assoc. simpl. rewrite set_index_at.
    replace (length (a ++ [y])) with (length (a ++ [z])) by (by rewrite !length_app).
    replace (a ++ z :: z :: b) with ((a ++ [z]) ++ z :: b) by (simplify_list_eq; done).
    apply (IH (a ++ [z]) z).
Qed.

(** ** The operations *)

Lemma wf_split self : Wf self -> exists rest, data self = entries self ++ rest /\
  length (entries self) = count self /\ length rest = (LEN - count self)%nat.
Proof.
  intros [Hlen Hcount _]. exists (drop (count self) (data self)).
  unfold entries, len. rewrite take_drop, length_take, length_drop. split_and!; [done|lia|lia].
Qed.

Lemma wf_build es rest :
  sorted es -> length (es ++ rest) = LEN ->
  Wf (mkFixedMap (es ++ rest) (length es)) /\
  entries (mkFixedMap (es ++ rest) (length es)) = es.
Proof.
  intros Hs Hlen. unfold entries, len. simpl. rewrite take_app_length.
  split; [|done]. constructor; [done|rewrite length_app in Hlen; simpl; lia|].
  unfold entries, len. simpl. by rewrite take_app_length.
Qed.

Lemma size_to_map self : Wf self -> size (to_map self) = count self.
Proof.
  intros Hwf. destruct (wf_split self Hwf) as (_ & _ & <- & _). destruct Hwf as [_ _ Hs].
  unfold to_map, map_of. revert Hs. generalize (entries self) as es. intros es Hs.
  rewrite map_size_list_to_map; [by rewrite length_fmap|].
  rewrite <- list_fmap_compose. simpl.
  induction Hs as [|e es Hs IH Hall]; simpl; [constructor|]. constructor; [|done].
  intros (x & Hx & Hin)%list_elem_of_fmap. rewrite Forall_forall in Hall.
  specialize (Hall x Hin). unfold key_lt in Hall. simpl in Hx. lia.
Qed.

(** The state around the key searched for. *)
Variant Searched (k : Z) : FixedMap -> Result nat nat -> Prop :=
| SearchFound a e b rest :
    key e = k -> sorted (a ++ e :: b) -> length (a ++ e :: b ++ rest) = LEN ->
    Searched k (mkFixedMap (a ++ e :: b ++ rest) (length (a ++ e :: b))) (Ok (length a))
| SearchMissing a b rest :
    (forall x, x ∈ a -> key x < k) -> (forall y, y ∈ b -> k < key y) -> sorted (a ++ b) ->
    length (a ++ b ++ rest) = LEN ->
    Searched k (mkFixedMap (a ++ b ++ rest) (length (a ++ b))) (Err (length a)).

Lemma binary_search_spec k self :
  Wf self -> exists r, binary_search k self = (self, Ok r) /\ Searched k self r.
Proof.
  intros Hwf. destruct (wf_split self Hwf) as (rest & Hd & Hc & Hr).
  destruct Hwf as [Hlen Hcount Hs]. unfold binary_search, sread.
  destruct (Nat.leb_spec (len self) (length (data self))) as [_|Hbad]; [|unfold len in Hbad; lia].
  eexists. split; [done|]. pose proof (slice_binary_search_spec (entries self) k Hs) as Hspec.
  destruct self as [d n]. simpl in *. destruct (slice_binary_search _ k) as [i|i|]; [| |done].
  - destruct Hspec as (e & Hi & He). apply list_elem_of_split_length in Hi as (a & b & Hes & ->).
    rewrite Hes in *. subst d n. rewrite <- app_assoc in *. by constructor.
  - destruct Hspec as (Hi & Hlo & Hhi). clear Hcount. revert Hlen Hd Hc Hs Hi Hlo Hhi.
    generalize (entries (mkFixedMap d n)) as es. intros es Hlen -> <- Hs Hi Hlo Hhi.
    assert (exists a b, es = a ++ b /\ length a = i) as (a & b & -> & <-).
    { exists (take i es), (drop i es). rewrite take_drop, length_take. split; [done|lia]. }
    rewrite <- app_assoc. constructor; [| |done|].
    + intros x (j & Hj)%list_elem_of_lookup. pose proof (lookup_lt_Some _ _ _ Hj).
      apply (Hlo j); [done|]. by rewrite lookup_app_l.
    + intros x (j & Hj)%list_elem_of_lookup. apply (Hhi (length a + j)%nat); [lia|].
      by rewrite lookup_app_r, Nat.add_sub' by lia.
    + by rewrite app_assoc.
Qed.

(** What the operations do to the finite map. *)
Definition spec_lookup (k : K) : ST (gmap Z V) StoreError (option V) :=
  sread (fun M => Ok (M !! to_key k)).

Definition spec_update (k : K) (v : V) : ST (gmap Z V) StoreError (option V) :=
  fun M => match M !! to_key k with
           | Some v0 => (<[to_key k := v]> M, Ok (Some v0))
           | None => (M, Ok None)
           end.

Definition spec_insert (k : K) (v : V) (new : bool) : ST (gmap Z V) StoreError (option V) :=
  fun M => match M !! to_key k with
           | Some v0 => if new then (M, Err (General GeneralError.AlreadyExist))
                        else (<[to_key k := v]> M, Ok (Some v0))
           | None => if (LEN <=? size M)%nat
                     then (M, Err (General GeneralError.ExceedMaxLengthLimit))
                     else (<[to_key k := v]> M, Ok None)
           end.

Definition spec_remove (k : K) : ST (gmap Z V) StoreError (option V) :=
  fun M => match M !! to_key k with
           | Some v0 => if (size M <? LEN)%nat then (delete (to_key k) M, Ok (Some v0))
                        else (M, Panic out_of_bounds)
           | None => (M, Ok None)
           end.

(** The same answer and, unless it is a panic, related states. *)
Definition agree {A} (out : FixedMap * store_result A) (spec : gmap Z V * store_result A) : Prop :=
  snd out = snd spec /\ (panics (snd out) = false -> Wf (fst out) /\ to_map (fst out) = fst spec).

Definition simulates {A} (m : FM A) (spec : ST (gmap Z V) StoreError A) : Prop :=
  forall self, Wf self -> agree (m self) (spec (to_map self)).

(** The states that the cases of [Searched] stand for. *)
Lemma found_to_map a e b rest :
  sorted (a ++ e :: b) -> length (a ++ e :: b ++ rest) = LEN ->
  let self := mkFixedMap (a ++ e :: b ++ rest) (length (a ++ e :: b)) in
  Wf self /\ to_map self = <[key e := value e]> (map_of (a ++ b)) /\
  map_of (a ++ b) !! key e = None /\ size (to_map self) = length (a ++ e :: b).
Proof.
  intros Hs Hlen. cbn zeta. destruct (wf_build (a ++ e :: b) rest Hs) as [Hwf Hes].
  { by rewrite <- app_assoc. }
  replace ((a ++ e :: b) ++ rest) with (a ++ e :: b ++ rest) in * by (by rewrite <- app_assoc).
  destruct (map_of_middle a e b Hs). unfold to_map at 1. rewrite Hes.
  split_and!; [done|done|done|by apply size_to_map].
Qed.

Lemma missing_to_map k a b rest :
  (forall x, x ∈ a -> key x < k) -> (forall y, y ∈ b -> k < key y) -> sorted (a ++ b) ->
  length (a ++ b ++ rest) = LEN ->
  let self := mkFixedMap (a ++ b ++ rest) (length (a ++ b)) in
  Wf self /\ to_map self = map_of (a ++ b) /\ map_of (a ++ b) !! k = None /\
  size (map_of (a ++ b)) = length (a ++ b).
Proof.
  intros Ha Hb Hs Hlen self. destruct (wf_build (a ++ b) rest Hs) as [Hwf Hes].
  { by rewrite <- app_assoc. }
  rewrite <- app_assoc in *. fold self in Hwf, Hes.
  pose proof (size_to_map self Hwf) as Hsize. unfold to_map in *. rewrite Hes in *.
  split_and!; [done|done| |done]. apply map_of_none. intros x [Hx|Hx]%elem_of_app.
  - specialize (Ha x Hx). lia.
  - specialize (Hb x Hx). lia.
Qed.

Lemma search_simulates {A} k (body : Result nat nat -> FM A) spec :
  (forall self r, Wf self -> Searched k self r -> agree (body r self) (spec (to_map self))) ->
  simulates (do! r := binary_search k in body r) spec.
Proof.
  intros H self Hwf. destruct (binary_search_spec k self Hwf) as (r & Hr & Hs).
  unfold sbind. rewrite Hr. by apply H.
Qed.

(** One case for each constructor of [Searched], with the map it stands for. *)
Ltac search_cases :=
  apply search_simulates; intros self r Hwf Hs;
  destruct Hs as [a e b rest He Hs Hlen|a b rest Ha Hb Hs Hlen];
  [ destruct (found_to_map a e b rest Hs Hlen) as (_ & Hmap & Hnone & Hsize);
    rewrite He in Hmap, Hnone
  | destruct (missing_to_map _ a b rest Ha Hb Hs Hlen) as (_ & Hmap & Hnone & Hsize) ];
  cbv beta iota.

Lemma get_simulates k : simulates (get k) (spec_lookup k).
Proof.
  search_cases.
  - unfold sbind. rewrite index_at. split; [|done]. simpl. by rewrite Hmap, lookup_insert_eq.
  - split; [|done]. simpl. by rewrite Hmap, Hnone.
Qed.

(** Writing a new value under the key found. *)
Lemma found_update a e b rest v :
  sorted (a ++ e :: b) -> length (a ++ e :: b ++ rest) = LEN ->
  let self := mkFixedMap (a ++ mkEntry (key e) v :: b ++ rest) (length (a ++ e :: b)) in
  Wf self /\ to_map self = <[key e := v]> (map_of (a ++ b)).
Proof.
  intros Hs Hlen. replace (length (a ++ e :: b)) with (length (a ++ mkEntry (key e) v :: b))
    by (by rewrite !length_app).
  destruct (found_to_map a (mkEntry (key e) v) b rest) as (Hwf & Hmap & _); [| |done].
  - apply sorted_middle. by apply sorted_middle in Hs.
  - rewrite <- Hlen, !length_app. done.
Qed.

(** Through [get_mut] and the reference it returns. *)
Definition update (k : K) (v : V) : FM (option V) :=
  do! p := get_mut k in
  match p with
  | Some p => do! v0 := read_place p in do! _ := write_place p v in sret (Some v0)
  | None => sret None
  end.

Lemma sbind_assoc {S E A B C} (m : ST S E A) (f : A -> ST S E B) (g : B -> ST S E C) s :
  sbind (sbind m f) g s = sbind m (fun a => sbind (f a) g) s.
Proof. unfold sbind. by destruct (m s) as [? []]. Qed.

Lemma update_simulates k v : simulates (update k v) (spec_update k v).
Proof.
  intros self Hwf. unfold update, get_mut. rewrite sbind_assoc. revert self Hwf. search_cases.
  - unfold read_place, write_place, sbind. rewrite index_at. unfold sret. rewrite !index_at.
    rewrite set_index_at. destruct (found_update a e b rest v Hs Hlen) as [Hwf' Hmap'].
    unfold spec_update. rewrite Hmap, lookup_insert_eq, insert_insert_eq. split; [done|].
    intros _. split; [done|]. simpl. by rewrite Hmap', He.
  - unfold spec_update. rewrite Hmap, Hnone. split; [done|]. by rewrite <- Hmap.
Qed.

Lemma insert_with_options_simulates k v new :
  simulates (insert_with_options k v new) (spec_insert k v new).
Proof.
  search_cases; unfold spec_insert; rewrite Hmap; rewrite ?lookup_insert_eq, ?insert_insert_eq, ?Hnone.
  - destruct new; [split; [done|]; by rewrite <- Hmap|].
    unfold sbind. rewrite index_at, set_index_at.
    destruct (found_update a e b rest v Hs Hlen) as [Hwf' Hmap'].
    split; [done|]. intros _. split; [done|]. simpl. by rewrite Hmap', He.
  - unfold sbind at 1, sread. simpl. unfold len. simpl. rewrite Hsize.
    destruct (Nat.leb_spec LEN (length (a ++ b))) as [Hfull|Hroom].
    { split; [done|]. by rewrite <- Hmap. }
    destruct rest as [|x rest].
    { rewrite app_nil_r in Hlen. lia. }
    destruct (shift_right a b x rest (length (a ++ b))) as (h & Hh).
    unfold sbind at 1. replace (length (a ++ b) - length a)%nat with (length b)
      by (rewrite length_app; lia).
    rewrite Hh. unfold sbind at 1. rewrite set_index_at. split; [done|]. intros _. simpl.
    replace (S (length (a ++ b))) with (length (a ++ mkEntry (to_key k) v :: b))
      by (rewrite !length_app; simpl; lia).
    destruct (found_to_map a (mkEntry (to_key k) v) b rest) as (Hwf' & Hmap' & _); [| |done].
    + apply sorted_middle. by split_and!.
    + rewrite <- Hlen, !length_app. simpl. rewrite !length_app. simpl. lia.
Qed.

Lemma remove_simulates k : simulates (remove k) (spec_remove k).
Proof.
  search_cases; unfold spec_remove; rewrite Hmap; rewrite ?lookup_insert_eq, ?Hnone;
    [|by split; [|rewrite <- Hmap]].
  rewrite <- Hmap, Hsize. unfold sbind at 1. rewrite index_at. unfold sbind at 1.
  rewrite set_index_at. unfold sbind at 1, sread. unfold len. simpl.
  replace (length (a ++ e :: b) - length a)%nat with (S (length b))
    by (rewrite length_app; simpl; lia).
  unfold sbind at 1. destruct (Nat.ltb_spec (length (a ++ e :: b)) LEN) as [Hroom|Hfull].
  - destruct rest as [|x rest]; [rewrite app_nil_r in Hlen; lia|].
    rewrite shift_left. unfold sbind at 1.
    replace (length (a ++ e :: b) - 1)%nat with (length (a ++ b))
      by (rewrite !length_app; simpl; lia).
    rewrite app_assoc, set_index_at, <- app_assoc. split; [done|]. intros _. simpl.
    replace (pred (length (a ++ e :: b))) with (length (a ++ b))
      by (rewrite !length_app; simpl; lia).
    apply sorted_middle in Hs as Hs'. destruct Hs' as [Hs' _].
    destruct (wf_build (a ++ b) (default_entry :: x :: rest) Hs') as [Hwf' Hes].
    { rewrite <- Hlen, !length_app. simpl. rewrite !length_app. simpl. lia. }
    rewrite <- app_assoc in *. split; [done|]. rewrite Hmap. unfold to_map. rewrite Hes.
    by rewrite delete_insert_id.
  - assert (rest = []) as ->.
    { apply nil_length_inv. rewrite !length_app in *. simpl in *. rewrite length_app in *. lia. }
    rewrite app_nil_r in *. destruct (shift_left_full a (mkEntry (key e) default) b
      (length (a ++ e :: b))) as (s & Hl).
    rewrite Hl. by split.
Qed.

Lemma clear_loop a b r n :
  sfor_each (fun j => set_index j default_entry) (seq (length a) (length b))
    (mkFixedMap (a ++ b ++ r) n) = (mkFixedMap (a ++ replicate (length b) default_entry ++ r) n, Ok tt).
Proof.
  revert a. induction b as [|y b IH]; intros a; [done|]. simpl. unfold sbind at 1.
  rewrite set_index_at. replace (S (length a)) with (length (a ++ [default_entry]))
    by (rewrite length_app; simpl; lia).
  specialize (IH (a ++ [default_entry])). rewrite <- !app_assoc in IH. exact IH.
Qed.

Lemma clear_spec self :
  Wf self -> exists self', clear self = (self', Ok tt) /\ Wf self' /\ to_map self' = ∅.
Proof.
  intros Hwf. destruct (wf_split self Hwf) as (rest & Hd & Hc & Hr). destruct Hwf as [Hlen Hle _].
  destruct self as [d n]. unfold clear, sread, sbind, len. simpl in *.
  pose proof (clear_loop [] (entries (mkFixedMap d n)) rest n) as Hl. simpl in Hl.
  rewrite Hc, <- Hd in Hl. rewrite Hl. eexists. split; [done|]. split; [|done].
  constructor; [|simpl; lia|constructor]. simpl.
  rewrite length_app, length_replicate. lia.
Qed.

(** ** What clients use

    The operations on a well-formed map, as equations on the map it stands for. *)

Lemma get_eq k self : Wf self -> get k self = (self, Ok (to_map self !! to_key k)).
Proof.
  intros Hwf. destruct (get_simulates k self Hwf) as [Hr _]. simpl in Hr. rewrite <- Hr.
  unfold get. destruct (binary_search_spec (to_key k) self Hwf) as (r & Hs & Hc).
  unfold sbind. rewrite Hs. destruct Hc; [|done]. by rewrite index_at.
Qed.

Lemma get_mut_eq k self :
  Wf self ->
  match to_map self !! to_key k with
  | None => get_mut k self = (self, Ok None)
  | Some v => exists p, get_mut k self = (self, Ok (Some p)) /\
      read_place p self = (self, Ok v) /\
      forall v', exists self', write_place p v' self = (self', Ok tt) /\
        Wf self' /\ to_map self' = <[to_key k := v']> (to_map self)
  end.
Proof.
  intros Hwf. unfold get_mut, sbind. destruct (binary_search_spec (to_key k) self Hwf) as (r & -> & Hc).
  destruct Hc as [a e b rest <- Hs Hlen|a b rest Ha Hb Hs Hlen].
  - destruct (found_to_map a e b rest Hs Hlen) as (_ & Hmap & _).
    rewrite Hmap, lookup_insert_eq, index_at. exists (length a). split; [done|].
    unfold read_place, write_place, sbind, sret. rewrite index_at. split; [done|]. intros v'.
    rewrite set_index_at. destruct (found_update a e b rest v' Hs Hlen) as [Hwf' Hmap'].
    eexists. split; [done|]. split; [done|]. by rewrite Hmap', insert_insert_eq.
  - destruct (missing_to_map _ a b rest Ha Hb Hs Hlen) as (_ & -> & -> & _). done.
Qed.

Lemma insert_new_ok k v self self' r :
  Wf self -> insert_with_options k v true self = (self', Ok r) ->
  r = None /\ Wf self' /\ to_map self !! to_key k = None /\
  to_map self' = <[to_key k := v]> (to_map self) /\ len self' = S (len self).
Proof.
  intros Hwf Hi. destruct (insert_with_options_simulates k v true self Hwf) as [Hr Hm].
  rewrite Hi in Hr, Hm. unfold spec_insert in *. simpl in *.
  destruct (to_map self !! to_key k) as [v0|] eqn:Hk; [done|].
  destruct (_ <=? _)%nat; [done|]. simpl in *. destruct (Hm eq_refl) as [Hwf' Hmap].
  injection Hr as ->. split_and!; try done. unfold len.
  rewrite <- !size_to_map, Hmap by done. by apply map_size_insert_None.
Qed.

Lemma remove_ok k self self' r :
  Wf self -> remove k self = (self', Ok r) ->
  Wf self' /\ r = to_map self !! to_key k /\ to_map self' = delete (to_key k) (to_map self).
Proof.
  intros Hwf Hi. destruct (remove_simulates k self Hwf) as [Hr Hm].
  rewrite Hi in Hr, Hm. unfold spec_remove in *. simpl in *.
  destruct (to_map self !! to_key k) as [v0|] eqn:Hk.
  - destruct (_ <? _)%nat; [|done]. simpl in *. destruct (Hm eq_refl). by injection Hr as ->.
  - simpl in *. destruct (Hm eq_refl). injection Hr as ->. by rewrite delete_id.
Qed.

(** ** Sequences of operations *)

Inductive MapOp : Type :=
| OpGet (k : K)
| OpUpdate (k : K) (v : V)
| OpInsert (k : K) (v : V)
| OpInsertWithOptions (k : K) (v : V) (new : bool)
| OpRemove (k : K)
| OpClear.

Definition map_op (op : MapOp) : FM (option V) :=
  match op with
  | OpGet k => get k
  | OpUpdate k v => update k v
  | OpInsert k v => insert k v
  | OpInsertWithOptions k v new => insert_with_options k v new
  | OpRemove k => remove k
  | OpClear => do! _ := clear in sret None
  end.

Definition spec_op (op : MapOp) : ST (gmap Z V) StoreError (option V) :=
  match op with
  | OpGet k => spec_lookup k
  | OpUpdate k v => spec_update k v
  | OpInsert k v => fun M =>
      match spec_insert k v false M with
      | (M, Err _) => (M, Panic "must be success")
      | out => out
      end
  | OpInsertWithOptions k v new => spec_insert k v new
  | OpRemove k => spec_remove k
  | OpClear => fun _ => (∅, Ok None)
  end.

(** A sequence of operations, each of which may fail; a panic ends it. *)
Fixpoint run {S} (step : MapOp -> ST S StoreError (option V)) (ops : list MapOp)
    : ST S StoreError (list (store_result (option V))) :=
  match ops with
  | [] => sret []
  | op :: ops =>
      do! r := stry (step op) in
      do! rs := run step ops in
      sret (r :: rs)
  end.

Lemma insert_simulates k v : simulates (insert k v) (spec_op (OpInsert k v)).
Proof.
  intros self Hwf. destruct (insert_with_options_simulates k v false self Hwf) as [Hr Hs].
  unfold insert. simpl. unfold sbind, stry.
  destruct (insert_with_options k v false self) as [self' r],
    (spec_insert k v false (to_map self)) as [M' r']. simpl in *. subst r'.
  destruct r as [o|e|msg]; split; try done; intros Hp; by apply Hs.
Qed.

Lemma map_op_simulates op : simulates (map_op op) (spec_op op).
Proof.
  destruct op as [k|k v|k v|k v new|k|]; simpl.
  - apply get_simulates.
  - apply update_simulates.
  - apply insert_simulates.
  - apply insert_with_options_simulates.
  - apply remove_simulates.
  - intros self Hwf. destruct (clear_spec self Hwf) as (self' & Hc & Hwf' & Hm).
    unfold sbind. rewrite Hc. by split.
Qed.

Lemma zeroed_wf : Wf zeroed /\ to_map zeroed = ∅.
Proof.
  split; [|done]. constructor; simpl; [by rewrite length_replicate|lia|constructor].
Qed.

Lemma run_simulates ops : simulates (run map_op ops) (run spec_op ops).
Proof.
  induction ops as [|op ops IH]; intros self Hwf; [done|]. simpl. unfold sbind, stry.
  destruct (map_op_simulates op self Hwf) as [Hr Hs].
  destruct (map_op op self) as [self' r], (spec_op op (to_map self)) as [M' r']. simpl in *.
  subst r'. destruct r as [o|e|msg]; [| |by split].
  - destruct (Hs eq_refl) as [Hwf' <-]. destruct (IH self' Hwf') as [Hr' Hs'].
    destruct (run map_op ops self') as [s2 r2], (run spec_op ops (to_map self')) as [M2 r2'].
    simpl in *. subst r2'. destruct r2; [|done|done]. by split.
  - destruct (Hs eq_refl) as [Hwf' <-]. destruct (IH self' Hwf') as [Hr' Hs'].
    destruct (run map_op ops self') as [s2 r2], (run spec_op ops (to_map self')) as [M2 r2'].
    simpl in *. subst r2'. destruct r2; [|done|done]. by split.
Qed.

(** C32: A fixed-capacity map, started empty, answers every sequence of lookups, updates
    through references, insertions, removals and clears as a finite map of at most [LEN] keys
    does: an insertion of a new key into a full map is refused (or panics, without options),
    the result of an insertion or removal is the previous value, and a removal from a map that
    is full panics. Unless an operation panics, the array stays sorted and within bounds
    and stands for that finite map. *)
Theorem run_refines (ops : list MapOp) :
  snd (run map_op ops zeroed) = snd (run spec_op ops ∅) /\
  (panics (snd (run map_op ops zeroed)) = false ->
   Wf (fst (run map_op ops zeroed)) /\
   to_map (fst (run map_op ops zeroed)) = fst (run spec_op ops ∅)).
Proof. destruct zeroed_wf as [Hwf Hm]. rewrite <- Hm. by apply run_simulates. Qed.

(** The bisection of the standard library that the map runs on: on sorted entries it
    finds the index of the key when it is present and otherwise the place where it belongs,
    with all smaller keys before it and all larger keys from it on; and its loop has finished
    after [n] halvings of at most [2 ^ n] entries. *)
Lemma binary_search_correct (l : list Entry) (k : Z) :
  sorted l ->
  match slice_binary_search l k with
  | Ok i => exists e, l !! i = Some e /\ key e = k
  | Err i => (i <= length l)%nat /\
             (forall j e, (j < i)%nat -> l !! j = Some e -> key e < k) /\
             (forall j e, (i <= j)%nat -> l !! j = Some e -> k < key e)
  | Panic _ => False
  end /\
  forall n, (length l <= 2 ^ n)%nat ->
    search_loop n l k 0 (length l) = search_loop (length l) l k 0 (length l).
Proof.
  intros Hs. split; [by apply slice_binary_search_spec|]. intros n Hn.
  apply search_loop_fuel; [done|]. pose proof (Nat.pow_gt_lin_r 2 (length l)). lia.
Qed.
End FixedMap.

Arguments Entry V : clear implicits.
Arguments FixedMap V : clear implicits.
Arguments mkEntry {V}.
Arguments mkFixedMap {V}.
Arguments data {V}.
Arguments count {V}.
Arguments key {V}.
Arguments value {V}.
Arguments len {V}.
Arguments entries {V}.

(** A map of two places: the removal works on one key and panics on two. *)
Example remove_example :
  run (map_op (fun k : Z => k) 0 2) [OpInsert 7 1; OpRemove 7; OpRemove 7] (zeroed 0 2) =
  (zeroed 0 2, Ok [Ok None; Ok (Some 1); Ok None]).
Proof. vm_compute. reflexivity. Qed.

Example insert_example :
  snd (run (map_op (fun k : Z => k) 0 2)
    [OpInsert 7 1; OpInsert 5 2; OpInsert 7 3; OpInsertWithOptions 6 4 true; OpGet 5; OpGet 7]
    (zeroed 0 2)) =
  Ok [Ok None; Ok None; Ok (Some 1); Err (General GeneralError.ExceedMaxLengthLimit);
      Ok (Some 2); Ok (Some 3)].
Proof. vm_compute. reflexivity. Qed.

Definition sorted_example : list (Entry Z) := [mkEntry 1 10; mkEntry 4 11; mkEntry 9 12].

Example binary_search_correct_example :
  slice_binary_search sorted_example 4 = Ok 1%nat /\
  search_loop 2 sorted_example 4 0 3 = search_loop 3 sorted_example 4 0 3.
Proof.
  assert (Hs : sorted sorted_example) by repeat constructor.
  split; [reflexivity|].
  refine (proj2 (binary_search_correct sorted_example 4 Hs) 2%nat _). simpl. lia.
Defined.

(** Removing a key from a map that is full panics: the loop that closes the gap reads one
    entry past the end of the array, for every capacity, every full map and every key in it. *)
Lemma remove_from_full_panics {K V : Type} (to_key : K -> Z) (default : V) (LEN : nat)
    (self : FixedMap V) (k : K) :
  Wf LEN self -> len self = LEN -> is_Some (to_map self !! to_key k) ->
  snd (remove to_key default k self) = Panic out_of_bounds.
Proof.
  intros Hwf Hfull [v Hv]. destruct (remove_simulates to_key default LEN k self Hwf) as [-> _].
  unfold spec_remove. rewrite Hv, (size_to_map LEN self Hwf).
  unfold len in Hfull. by rewrite Hfull, Nat.ltb_irrefl.
Qed.

Definition full_example : FixedMap Z := mkFixedMap [mkEntry 5 2; mkEntry 7 1] 2.

Example remove_from_full_panics_example :
  snd (remove (fun k : Z => k) 0 7 full_example) = Panic out_of_bounds.
Proof.
  apply (remove_from_full_panics (fun k => k) 0 2 full_example 7);
    [constructor; [reflexivity|simpl; lia|]|reflexivity|by eexists; reflexivity].
  repeat constructor.
Defined.
