(* ===== verification/Flags.v ===== *)
(** * Bitmaps and flags

    The crate [bitmaps], an interface with its laws ([BitmapOps], [BitmapLaws]) and an
    implementation by the bits of a number; and the macro [flags!] of [gmsol-utils/src/flags.rs],
    which keeps the flags of an account in such a bitmap. *)
From stdpp Require Import base.
From S2P Require Import Prelude.
#[local] Open Scope Z_scope.

(** [Bitmap<N>]: [new], [get], [set], [is_empty], and the conversions from and to the integer
    that stores the bits. *)
Class BitmapOps (N : nat) (B : Type) := {
  bitmap_new : B;
  bitmap_get : B -> nat -> bool;
  bitmap_set : B -> nat -> bool -> B;
  bitmap_is_empty : B -> bool;
  from_value : Z -> B;
  into_value : B -> Z }.

Class BitmapLaws (N : nat) (B : Type) `{BitmapOps N B} := {
  get_new i : bitmap_get bitmap_new i = false;
  get_set b i j v : (i < N)%nat -> (j < N)%nat ->
    bitmap_get (bitmap_set b i v) j = if decide (i = j) then v else bitmap_get b j;
  is_empty_get b i : bitmap_is_empty b = true -> bitmap_get b i = false;
  from_into b : from_value (into_value b) = b }.

(** The bits of a number. *)
Definition z_bitmap (N : nat) : BitmapOps N Z := {|
  bitmap_new := 0;
  bitmap_get b i := Z.testbit b (Z.of_nat i);
  bitmap_set b i v := if v then Z.setbit b (Z.of_nat i) else Z.clearbit b (Z.of_nat i);
  bitmap_is_empty b := b =? 0;
  from_value v := v;
  into_value b := b |}.

Lemma z_bitmap_laws (N : nat) : @BitmapLaws N Z (z_bitmap N).
Proof.
  constructor; simpl.
  - intros i. apply Z.testbit_0_l.
  - intros b i j v _ _. destruct v.
    + rewrite Z.setbit_eqb by lia. destruct (Z.eqb_spec (Z.of_nat i) (Z.of_nat j)) as [He|He].
      * apply Nat2Z.inj in He as ->. by rewrite decide_True.
      * rewrite decide_False; [done|]. by intros ->.
    + rewrite Z.clearbit_eqb by lia. destruct (Z.eqb_spec (Z.of_nat i) (Z.of_nat j)) as [He|He].
      * apply Nat2Z.inj in He as ->. rewrite decide_True by done. by destruct (Z.testbit _ _).
      * rewrite decide_False by (by intros ->). by destruct (Z.testbit _ _).
  - intros b i ->%Z.eqb_eq. apply Z.testbit_0_l.
  - done.
Qed.

(** ** Flag containers

    [flag_to_index] is the conversion of the enumeration of flags to its index, below the
    [N] places of the bitmap. *)
Section Flags.
Context {N : nat} {B : Type} `{BitmapLaws N B}.
Context {Flag : Type} `{EqDecision Flag} (flag_to_index : Flag -> nat).

Record FlagContainer : Type := mkFlagContainer { flags_value : Z }.

Definition default_flags : FlagContainer := mkFlagContainer (into_value bitmap_new).

Definition into_map (self : FlagContainer) : B := from_value (flags_value self).

Definition get_flag (self : FlagContainer) (flag : Flag) : bool :=
  bitmap_get (into_map self) (flag_to_index flag).

(** The container after the call, and the previous value. *)
Definition set_flag (self : FlagContainer) (flag : Flag) (v : bool) : FlagContainer * bool :=
  let map := into_map self in
  let i := flag_to_index flag in
  (mkFlagContainer (into_value (bitmap_set map i v)), bitmap_get map i).

Lemma get_flag_default f : get_flag default_flags f = false.
Proof. unfold get_flag, into_map, default_flags. simpl. rewrite from_into. apply get_new. Qed.

Lemma get_set_flag self f g v :
  (forall f, (flag_to_index f < N)%nat) -> Inj (=) (=) flag_to_index ->
  get_flag (fst (set_flag self f v)) g = if decide (f = g) then v else get_flag self g.
Proof.
  intros Hbound Hinj. unfold set_flag, get_flag, into_map. simpl.
  rewrite from_into, get_set by done. destruct (decide (f = g)) as [->|Hne].
  - by rewrite decide_True.
  - rewrite decide_False; [done|]. by intros ?%Hinj.
Qed.
End Flags.
