(* ===== verification/Config.v ===== *)
(** * The configuration of a market ([states/market/config.rs]) and the model's parameters

    The store keeps the parameters of a market as named factors ([StoreConfig.MarketConfig]); a
    market keeper sets them one by one, through flags, or with a buffer of entries. The getters
    of [states/market/model.rs] turn them into the parameters of the model crate; together they
    are [model_config], the configuration that the market of Module [Market] runs on.

    A field is written through the reference that [get_mut] returns ([set]). The keys are in the
    order of the fields, so [set] replaces a factor at the place of its key. *)
From stdpp Require Import gmap.
From S2P Require Import Prelude.
From S2P Require Import Kinds.
From S2P Require Import Num.
From S2P Require Import Params.
From S2P Require Import Market.
From S2P Require Import Constants.
From S2P Require Import CoreErrors.
From S2P Require Import Flags.
#[local] Open Scope Z_scope.

Module StoreConfig.

Definition MAX_CONFIG_FLAGS : nat := 128.

Inductive MarketConfigFlag : Type :=
| SkipBorrowingFeeForSmallerSide
| IgnoreOpenInterestForUsageFactor.

#[export] Instance MarketConfigFlag_eq_dec : EqDecision MarketConfigFlag.
Proof. solve_decision. Defined.

Definition flag_u8 (self : MarketConfigFlag) : nat :=
  match self with SkipBorrowingFeeForSmallerSide => 0 | IgnoreOpenInterestForUsageFactor => 1 end.

Definition flag_name (self : MarketConfigFlag) : string :=
  match self with
  | SkipBorrowingFeeForSmallerSide => "skip_borrowing_fee_for_smaller_side"
  | IgnoreOpenInterestForUsageFactor => "ignore_open_interest_for_usage_factor"
  end.

Definition flags : list MarketConfigFlag := [SkipBorrowingFeeForSmallerSide;
    IgnoreOpenInterestForUsageFactor].

Record MarketConfig : Type := mkMarketConfig {
  config_flag : FlagContainer;
  swap_impact_exponent : Z;
  swap_impact_positive_factor : Z;
  swap_impact_negative_factor : Z;
  swap_fee_receiver_factor : Z;
  swap_fee_factor_for_positive_impact : Z;
  swap_fee_factor_for_negative_impact : Z;
  min_position_size_usd : Z;
  min_collateral_value : Z;
  min_collateral_factor : Z;
  min_collateral_factor_for_open_interest_multiplier_for_long : Z;
  min_collateral_factor_for_open_interest_multiplier_for_short : Z;
  max_positive_position_impact_factor : Z;
  max_negative_position_impact_factor : Z;
  max_position_impact_factor_for_liquidations : Z;
  position_impact_exponent : Z;
  position_impact_positive_factor : Z;
  position_impact_negative_factor : Z;
  order_fee_receiver_factor : Z;
  order_fee_factor_for_positive_impact : Z;
  order_fee_factor_for_negative_impact : Z;
  liquidation_fee_receiver_factor : Z;
  liquidation_fee_factor : Z;
  position_impact_distribute_factor : Z;
  min_position_impact_pool_amount : Z;
  borrowing_fee_receiver_factor : Z;
  borrowing_fee_factor_for_long : Z;
  borrowing_fee_factor_for_short : Z;
  borrowing_fee_exponent_for_long : Z;
  borrowing_fee_exponent_for_short : Z;
  borrowing_fee_optimal_usage_factor_for_long : Z;
  borrowing_fee_optimal_usage_factor_for_short : Z;
  borrowing_fee_base_factor_for_long : Z;
  borrowing_fee_base_factor_for_short : Z;
  borrowing_fee_above_optimal_usage_factor_for_long : Z;
  borrowing_fee_above_optimal_usage_factor_for_short : Z;
  funding_fee_exponent : Z;
  funding_fee_factor : Z;
  funding_fee_max_factor_per_second : Z;
  funding_fee_min_factor_per_second : Z;
  funding_fee_increase_factor_per_second : Z;
  funding_fee_decrease_factor_per_second : Z;
  funding_fee_threshold_for_stable_funding : Z;
  funding_fee_threshold_for_decrease_funding : Z;
  reserve_factor : Z;
  open_interest_reserve_factor : Z;
  max_pnl_factor_for_long_deposit : Z;
  max_pnl_factor_for_short_deposit : Z;
  max_pnl_factor_for_long_withdrawal : Z;
  max_pnl_factor_for_short_withdrawal : Z;
  max_pnl_factor_for_long_trader : Z;
  max_pnl_factor_for_short_trader : Z;
  max_pnl_factor_for_long_adl : Z;
  max_pnl_factor_for_short_adl : Z;
  min_pnl_factor_after_long_adl : Z;
  min_pnl_factor_after_short_adl : Z;
  max_pool_amount_for_long_token : Z;
  max_pool_amount_for_short_token : Z;
  max_pool_value_for_deposit_for_long_token : Z;
  max_pool_value_for_deposit_for_short_token : Z;
  max_open_interest_for_long : Z;
  max_open_interest_for_short : Z;
  min_tokens_for_first_deposit : Z;
}.

Inductive MarketConfigKey : Type :=
| SwapImpactExponent
| SwapImpactPositiveFactor
| SwapImpactNegativeFactor
| SwapFeeReceiverFactor
| SwapFeeFactorForPositiveImpact
| SwapFeeFactorForNegativeImpact
| MinPositionSizeUsd
| MinCollateralValue
| MinCollateralFactor
| MinCollateralFactorForOpenInterestMultiplierForLong
| MinCollateralFactorForOpenInterestMultiplierForShort
| MaxPositivePositionImpactFactor
| MaxNegativePositionImpactFactor
| MaxPositionImpactFactorForLiquidations
| PositionImpactExponent
| PositionImpactPositiveFactor
| PositionImpactNegativeFactor
| OrderFeeReceiverFactor
| OrderFeeFactorForPositiveImpact
| OrderFeeFactorForNegativeImpact
| LiquidationFeeReceiverFactor
| LiquidationFeeFactor
| PositionImpactDistributeFactor
| MinPositionImpactPoolAmount
| BorrowingFeeReceiverFactor
| BorrowingFeeFactorForLong
| BorrowingFeeFactorForShort
| BorrowingFeeExponentForLong
| BorrowingFeeExponentForShort
| BorrowingFeeOptimalUsageFactorForLong
| BorrowingFeeOptimalUsageFactorForShort
| BorrowingFeeBaseFactorForLong
| BorrowingFeeBaseFactorForShort
| BorrowingFeeAboveOptimalUsageFactorForLong
| BorrowingFeeAboveOptimalUsageFactorForShort
| FundingFeeExponent
| FundingFeeFactor
| FundingFeeMaxFactorPerSecond
| FundingFeeMinFactorPerSecond
| FundingFeeIncreaseFactorPerSecond
| FundingFeeDecreaseFactorPerSecond
| FundingFeeThresholdForStableFunding
| FundingFeeThresholdForDecreaseFunding
| ReserveFactor
| OpenInterestReserveFactor
| MaxPnlFactorForLongDeposit
| MaxPnlFactorForShortDeposit
| MaxPnlFactorForLongWithdrawal
| MaxPnlFactorForShortWithdrawal
| MaxPnlFactorForLongTrader
| MaxPnlFactorForShortTrader
| MaxPnlFactorForLongAdl
| MaxPnlFactorForShortAdl
| MinPnlFactorAfterLongAdl
| MinPnlFactorAfterShortAdl
| MaxPoolAmountForLongToken
| MaxPoolAmountForShortToken
| MaxPoolValueForDepositForLongToken
| MaxPoolValueForDepositForShortToken
| MaxOpenInterestForLong
| MaxOpenInterestForShort
| MinTokensForFirstDeposit.

Definition keys : list MarketConfigKey :=
  [SwapImpactExponent;
   SwapImpactPositiveFactor;
   SwapImpactNegativeFactor;
   SwapFeeReceiverFactor;
   SwapFeeFactorForPositiveImpact;
   SwapFeeFactorForNegativeImpact;
   MinPositionSizeUsd;
   MinCollateralValue;
   MinCollateralFactor;
   MinCollateralFactorForOpenInterestMultiplierForLong;
   MinCollateralFactorForOpenInterestMultiplierForShort;
   MaxPositivePositionImpactFactor;
   MaxNegativePositionImpactFactor;
   MaxPositionImpactFactorForLiquidations;
   PositionImpactExponent;
   PositionImpactPositiveFactor;
   PositionImpactNegativeFactor;
   OrderFeeReceiverFactor;
   OrderFeeFactorForPositiveImpact;
   OrderFeeFactorForNegativeImpact;
   LiquidationFeeReceiverFactor;
   LiquidationFeeFactor;
   PositionImpactDistributeFactor;
   MinPositionImpactPoolAmount;
   BorrowingFeeReceiverFactor;
   BorrowingFeeFactorForLong;
   BorrowingFeeFactorForShort;
   BorrowingFeeExponentForLong;
   BorrowingFeeExponentForShort;
   BorrowingFeeOptimalUsageFactorForLong;
   BorrowingFeeOptimalUsageFactorForShort;
   BorrowingFeeBaseFactorForLong;
   BorrowingFeeBaseFactorForShort;
   BorrowingFeeAboveOptimalUsageFactorForLong;
   BorrowingFeeAboveOptimalUsageFactorForShort;
   FundingFeeExponent;
   FundingFeeFactor;
   FundingFeeMaxFactorPerSecond;
   FundingFeeMinFactorPerSecond;
   FundingFeeIncreaseFactorPerSecond;
   FundingFeeDecreaseFactorPerSecond;
   FundingFeeThresholdForStableFunding;
   FundingFeeThresholdForDecreaseFunding;
   ReserveFactor;
   OpenInterestReserveFactor;
   MaxPnlFactorForLongDeposit;
   MaxPnlFactorForShortDeposit;
   MaxPnlFactorForLongWithdrawal;
   MaxPnlFactorForShortWithdrawal;
   MaxPnlFactorForLongTrader;
   MaxPnlFactorForShortTrader;
   MaxPnlFactorForLongAdl;
   MaxPnlFactorForShortAdl;
   MinPnlFactorAfterLongAdl;
   MinPnlFactorAfterShortAdl;
   MaxPoolAmountForLongToken;
   MaxPoolAmountForShortToken;
   MaxPoolValueForDepositForLongToken;
   MaxPoolValueForDepositForShortToken;
   MaxOpenInterestForLong;
   MaxOpenInterestForShort;
   MinTokensForFirstDeposit].

(** The keys are written in snake case. *)
Definition key_name (key : MarketConfigKey) : string :=
  match key with
  | SwapImpactExponent => "swap_impact_exponent"
  | SwapImpactPositiveFactor => "swap_impact_positive_factor"
  | SwapImpactNegativeFactor => "swap_impact_negative_factor"
  | SwapFeeReceiverFactor => "swap_fee_receiver_factor"
  | SwapFeeFactorForPositiveImpact => "swap_fee_factor_for_positive_impact"
  | SwapFeeFactorForNegativeImpact => "swap_fee_factor_for_negative_impact"
  | MinPositionSizeUsd => "min_position_size_usd"
  | MinCollateralValue => "min_collateral_value"
  | MinCollateralFactor => "min_collateral_factor"
  | MinCollateralFactorForOpenInterestMultiplierForLong =>
    "min_collateral_factor_for_open_interest_multiplier_for_long"
  | MinCollateralFactorForOpenInterestMultiplierForShort =>
    "min_collateral_factor_for_open_interest_multiplier_for_short"
  | MaxPositivePositionImpactFactor => "max_positive_position_impact_factor"
  | MaxNegativePositionImpactFactor => "max_negative_position_impact_factor"
  | MaxPositionImpactFactorForLiquidations => "max_position_impact_factor_for_liquidations"
  | PositionImpactExponent => "position_impact_exponent"
  | PositionImpactPositiveFactor => "position_impact_positive_factor"
  | PositionImpactNegativeFactor => "position_impact_negative_factor"
  | OrderFeeReceiverFactor => "order_fee_receiver_factor"
  | OrderFeeFactorForPositiveImpact => "order_fee_factor_for_positive_impact"
  | OrderFeeFactorForNegativeImpact => "order_fee_factor_for_negative_impact"
  | LiquidationFeeReceiverFactor => "liquidation_fee_receiver_factor"
  | LiquidationFeeFactor => "liquidation_fee_factor"
  | PositionImpactDistributeFactor => "position_impact_distribute_factor"
  | MinPositionImpactPoolAmount => "min_position_impact_pool_amount"
  | BorrowingFeeReceiverFactor => "borrowing_fee_receiver_factor"
  | BorrowingFeeFactorForLong => "borrowing_fee_factor_for_long"
  | BorrowingFeeFactorForShort => "borrowing_fee_factor_for_short"
  | BorrowingFeeExponentForLong => "borrowing_fee_exponent_for_long"
  | BorrowingFeeExponentForShort => "borrowing_fee_exponent_for_short"
  | BorrowingFeeOptimalUsageFactorForLong => "borrowing_fee_optimal_usage_factor_for_long"
  | BorrowingFeeOptimalUsageFactorForShort => "borrowing_fee_optimal_usage_factor_for_short"
  | BorrowingFeeBaseFactorForLong => "borrowing_fee_base_factor_for_long"
  | BorrowingFeeBaseFactorForShort => "borrowing_fee_base_factor_for_short"
  | BorrowingFeeAboveOptimalUsageFactorForLong => "borrowing_fee_above_optimal_usage_factor_for_long"
  | BorrowingFeeAboveOptimalUsageFactorForShort => "borrowing_fee_above_optimal_usage_factor_for_short"
  | FundingFeeExponent => "funding_fee_exponent"
  | FundingFeeFactor => "funding_fee_factor"
  | FundingFeeMaxFactorPerSecond => "funding_fee_max_factor_per_second"
  | FundingFeeMinFactorPerSecond => "funding_fee_min_factor_per_second"
  | FundingFeeIncreaseFactorPerSecond => "funding_fee_increase_factor_per_second"
  | FundingFeeDecreaseFactorPerSecond => "funding_fee_decrease_factor_per_second"
  | FundingFeeThresholdForStableFunding => "funding_fee_threshold_for_stable_funding"
  | FundingFeeThresholdForDecreaseFunding => "funding_fee_threshold_for_decrease_funding"
  | ReserveFactor => "reserve_factor"
  | OpenInterestReserveFactor => "open_interest_reserve_factor"
  | MaxPnlFactorForLongDeposit => "max_pnl_factor_for_long_deposit"
  | MaxPnlFactorForShortDeposit => "max_pnl_factor_for_short_deposit"
  | MaxPnlFactorForLongWithdrawal => "max_pnl_factor_for_long_withdrawal"
  | MaxPnlFactorForShortWithdrawal => "max_pnl_factor_for_short_withdrawal"
  | MaxPnlFactorForLongTrader => "max_pnl_factor_for_long_trader"
  | MaxPnlFactorForShortTrader => "max_pnl_factor_for_short_trader"
  | MaxPnlFactorForLongAdl => "max_pnl_factor_for_long_adl"
  | MaxPnlFactorForShortAdl => "max_pnl_factor_for_short_adl"
  | MinPnlFactorAfterLongAdl => "min_pnl_factor_after_long_adl"
  | MinPnlFactorAfterShortAdl => "min_pnl_factor_after_short_adl"
  | MaxPoolAmountForLongToken => "max_pool_amount_for_long_token"
  | MaxPoolAmountForShortToken => "max_pool_amount_for_short_token"
  | MaxPoolValueForDepositForLongToken => "max_pool_value_for_deposit_for_long_token"
  | MaxPoolValueForDepositForShortToken => "max_pool_value_for_deposit_for_short_token"
  | MaxOpenInterestForLong => "max_open_interest_for_long"
  | MaxOpenInterestForShort => "max_open_interest_for_short"
  | MinTokensForFirstDeposit => "min_tokens_for_first_deposit"
  end.

Definition get (self : MarketConfig) (key : MarketConfigKey) : Z :=
  match key with
  | SwapImpactExponent => swap_impact_exponent self
  | SwapImpactPositiveFactor => swap_impact_positive_factor self
  | SwapImpactNegativeFactor => swap_impact_negative_factor self
  | SwapFeeReceiverFactor => swap_fee_receiver_factor self
  | SwapFeeFactorForPositiveImpact => swap_fee_factor_for_positive_impact self
  | SwapFeeFactorForNegativeImpact => swap_fee_factor_for_negative_impact self
  | MinPositionSizeUsd => min_position_size_usd self
  | MinCollateralValue => min_collateral_value self
  | MinCollateralFactor => min_collateral_factor self
  | MinCollateralFactorForOpenInterestMultiplierForLong =>
    min_collateral_factor_for_open_interest_multiplier_for_long self
  | MinCollateralFactorForOpenInterestMultiplierForShort =>
    min_collateral_factor_for_open_interest_multiplier_for_short self
  | MaxPositivePositionImpactFactor => max_positive_position_impact_factor self
  | MaxNegativePositionImpactFactor => max_negative_position_impact_factor self
  | MaxPositionImpactFactorForLiquidations => max_position_impact_factor_for_liquidations self
  | PositionImpactExponent => position_impact_exponent self
  | PositionImpactPositiveFactor => position_impact_positive_factor self
  | PositionImpactNegativeFactor => position_impact_negative_factor self
  | OrderFeeReceiverFactor => order_fee_receiver_factor self
  | OrderFeeFactorForPositiveImpact => order_fee_factor_for_positive_impact self
  | OrderFeeFactorForNegativeImpact => order_fee_factor_for_negative_impact self
  | LiquidationFeeReceiverFactor => liquidation_fee_receiver_factor self
  | LiquidationFeeFactor => liquidation_fee_factor self
  | PositionImpactDistributeFactor => position_impact_distribute_factor self
  | MinPositionImpactPoolAmount => min_position_impact_pool_amount self
  | BorrowingFeeReceiverFactor => borrowing_fee_receiver_factor self
  | BorrowingFeeFactorForLong => borrowing_fee_factor_for_long self
  | BorrowingFeeFactorForShort => borrowing_fee_factor_for_short self
  | BorrowingFeeExponentForLong => borrowing_fee_exponent_for_long self
  | BorrowingFeeExponentForShort => borrowing_fee_exponent_for_short self
  | BorrowingFeeOptimalUsageFactorForLong => borrowing_fee_optimal_usage_factor_for_long self
  | BorrowingFeeOptimalUsageFactorForShort => borrowing_fee_optimal_usage_factor_for_short self
  | BorrowingFeeBaseFactorForLong => borrowing_fee_base_factor_for_long self
  | BorrowingFeeBaseFactorForShort => borrowing_fee_base_factor_for_short self
  | BorrowingFeeAboveOptimalUsageFactorForLong => borrowing_fee_above_optimal_usage_factor_for_long self
  | BorrowingFeeAboveOptimalUsageFactorForShort => borrowing_fee_above_optimal_usage_factor_for_short
    self
  | FundingFeeExponent => funding_fee_exponent self
  | FundingFeeFactor => funding_fee_factor self
  | FundingFeeMaxFactorPerSecond => funding_fee_max_factor_per_second self
  | FundingFeeMinFactorPerSecond => funding_fee_min_factor_per_second self
  | FundingFeeIncreaseFactorPerSecond => funding_fee_increase_factor_per_second self
  | FundingFeeDecreaseFactorPerSecond => funding_fee_decrease_factor_per_second self
  | FundingFeeThresholdForStableFunding => funding_fee_threshold_for_stable_funding self
  | FundingFeeThresholdForDecreaseFunding => funding_fee_threshold_for_decrease_funding self
  | ReserveFactor => reserve_factor self
  | OpenInterestReserveFactor => open_interest_reserve_factor self
  | MaxPnlFactorForLongDeposit => max_pnl_factor_for_long_deposit self
  | MaxPnlFactorForShortDeposit => max_pnl_factor_for_short_deposit self
  | MaxPnlFactorForLongWithdrawal => max_pnl_factor_for_long_withdrawal self
  | MaxPnlFactorForShortWithdrawal => max_pnl_factor_for_short_withdrawal self
  | MaxPnlFactorForLongTrader => max_pnl_factor_for_long_trader self
  | MaxPnlFactorForShortTrader => max_pnl_factor_for_short_trader self
  | MaxPnlFactorForLongAdl => max_pnl_factor_for_long_adl self
  | MaxPnlFactorForShortAdl => max_pnl_factor_for_short_adl self
  | MinPnlFactorAfterLongAdl => min_pnl_factor_after_long_adl self
  | MinPnlFactorAfterShortAdl => min_pnl_factor_after_short_adl self
  | MaxPoolAmountForLongToken => max_pool_amount_for_long_token self
  | MaxPoolAmountForShortToken => max_pool_amount_for_short_token self
  | MaxPoolValueForDepositForLongToken => max_pool_value_for_deposit_for_long_token self
  | MaxPoolValueForDepositForShortToken => max_pool_value_for_deposit_for_short_token self
  | MaxOpenInterestForLong => max_open_interest_for_long self
  | MaxOpenInterestForShort => max_open_interest_for_short self
  | MinTokensForFirstDeposit => min_tokens_for_first_deposit self
  end.

(** The configuration with the factors given in the order of the fields. *)
Definition of_list (flag : FlagContainer) (xs : list Z) : MarketConfig :=
  let n i := nth i xs 0 in
  mkMarketConfig flag
    (n 0%nat) (n 1%nat) (n 2%nat) (n 3%nat) (n 4%nat) (n 5%nat) (n 6%nat) (n 7%nat) (n 8%nat)
    (n 9%nat) (n 10%nat) (n 11%nat) (n 12%nat) (n 13%nat) (n 14%nat) (n 15%nat) (n 16%nat)
    (n 17%nat) (n 18%nat) (n 19%nat) (n 20%nat) (n 21%nat) (n 22%nat) (n 23%nat) (n 24%nat)
    (n 25%nat) (n 26%nat) (n 27%nat) (n 28%nat) (n 29%nat) (n 30%nat) (n 31%nat) (n 32%nat)
    (n 33%nat) (n 34%nat) (n 35%nat) (n 36%nat) (n 37%nat) (n 38%nat) (n 39%nat) (n 40%nat)
    (n 41%nat) (n 42%nat) (n 43%nat) (n 44%nat) (n 45%nat) (n 46%nat) (n 47%nat) (n 48%nat)
    (n 49%nat) (n 50%nat) (n 51%nat) (n 52%nat) (n 53%nat) (n 54%nat) (n 55%nat) (n 56%nat)
    (n 57%nat) (n 58%nat) (n 59%nat) (n 60%nat) (n 61%nat).

Definition to_list (self : MarketConfig) : list Z :=
  [swap_impact_exponent self;
   swap_impact_positive_factor self;
   swap_impact_negative_factor self;
   swap_fee_receiver_factor self;
   swap_fee_factor_for_positive_impact self;
   swap_fee_factor_for_negative_impact self;
   min_position_size_usd self;
   min_collateral_value self;
   min_collateral_factor self;
   min_collateral_factor_for_open_interest_multiplier_for_long self;
   min_collateral_factor_for_open_interest_multiplier_for_short self;
   max_positive_position_impact_factor self;
   max_negative_position_impact_factor self;
   max_position_impact_factor_for_liquidations self;
   position_impact_exponent self;
   position_impact_positive_factor self;
   position_impact_negative_factor self;
   order_fee_receiver_factor self;
   order_fee_factor_for_positive_impact self;
   order_fee_factor_for_negative_impact self;
   liquidation_fee_receiver_factor self;
   liquidation_fee_factor self;
   position_impact_distribute_factor self;
   min_position_impact_pool_amount self;
   borrowing_fee_receiver_factor self;
   borrowing_fee_factor_for_long self;
   borrowing_fee_factor_for_short self;
   borrowing_fee_exponent_for_long self;
   borrowing_fee_exponent_for_short self;
   borrowing_fee_optimal_usage_factor_for_long self;
   borrowing_fee_optimal_usage_factor_for_short self;
   borrowing_fee_base_factor_for_long self;
   borrowing_fee_base_factor_for_short self;
   borrowing_fee_above_optimal_usage_factor_for_long self;
   borrowing_fee_above_optimal_usage_factor_for_short self;
   funding_fee_exponent self;
   funding_fee_factor self;
   funding_fee_max_factor_per_second self;
   funding_fee_min_factor_per_second self;
   funding_fee_increase_factor_per_second self;
   funding_fee_decrease_factor_per_second self;
   funding_fee_threshold_for_stable_funding self;
   funding_fee_threshold_for_decrease_funding self;
   reserve_factor self;
   open_interest_reserve_factor self;
   max_pnl_factor_for_long_deposit self;
   max_pnl_factor_for_short_deposit self;
   max_pnl_factor_for_long_withdrawal self;
   max_pnl_factor_for_short_withdrawal self;
   max_pnl_factor_for_long_trader self;
   max_pnl_factor_for_short_trader self;
   max_pnl_factor_for_long_adl self;
   max_pnl_factor_for_short_adl self;
   min_pnl_factor_after_long_adl self;
   min_pnl_factor_after_short_adl self;
   max_pool_amount_for_long_token self;
   max_pool_amount_for_short_token self;
   max_pool_value_for_deposit_for_long_token self;
   max_pool_value_for_deposit_for_short_token self;
   max_open_interest_for_long self;
   max_open_interest_for_short self;
   min_tokens_for_first_deposit self].

#[export] Instance MarketConfigKey_eq_dec : EqDecision MarketConfigKey.
Proof. solve_decision. Defined.

(** The discriminant of a key, a [u16]. *)
Definition key_u16 (key : MarketConfigKey) : nat :=
  match list_find (eq key) keys with Some (i, _) => i | None => 0 end.

Definition set (self : MarketConfig) (key : MarketConfigKey) (v : Z) : MarketConfig :=
  of_list (config_flag self) (<[key_u16 key := v]> (to_list self)).

Definition init_writes : list (MarketConfigKey * Z) :=
  [(SwapImpactExponent, DEFAULT_SWAP_IMPACT_EXPONENT);
   (SwapImpactPositiveFactor, DEFAULT_SWAP_IMPACT_POSITIVE_FACTOR);
   (SwapImpactPositiveFactor, DEFAULT_SWAP_IMPACT_NEGATIVE_FACTOR);
   (SwapFeeReceiverFactor, DEFAULT_RECEIVER_FACTOR);
   (SwapFeeFactorForPositiveImpact, DEFAULT_SWAP_FEE_FACTOR_FOR_POSITIVE_IMPACT);
   (SwapFeeFactorForNegativeImpact, DEFAULT_SWAP_FEE_FACTOR_FOR_NEGATIVE_IMPACT);
   (MinPositionSizeUsd, DEFAULT_MIN_POSITION_SIZE_USD);
   (MinCollateralValue, DEFAULT_MIN_COLLATERAL_VALUE);
   (MinCollateralFactor, DEFAULT_MIN_COLLATERAL_FACTOR);
   (MinCollateralFactorForOpenInterestMultiplierForLong,
     DEFAULT_MIN_COLLATERAL_FACTOR_FOR_OPEN_INTEREST_FOR_LONG);
   (MinCollateralFactorForOpenInterestMultiplierForShort,
     DEFAULT_MIN_COLLATERAL_FACTOR_FOR_OPEN_INTEREST_FOR_SHORT);
   (MaxPositivePositionImpactFactor, DEFAULT_MAX_POSITIVE_POSITION_IMPACT_FACTOR);
   (MaxNegativePositionImpactFactor, DEFAULT_MAX_NEGATIVE_POSITION_IMPACT_FACTOR);
   (MaxPositionImpactFactorForLiquidations, DEFAULT_MAX_POSITION_IMPACT_FACTOR_FOR_LIQUIDATIONS);
   (PositionImpactExponent, DEFAULT_POSITION_IMPACT_EXPONENT);
   (PositionImpactPositiveFactor, DEFAULT_POSITION_IMPACT_POSITIVE_FACTOR);
   (PositionImpactNegativeFactor, DEFAULT_POSITION_IMPACT_NEGATIVE_FACTOR);
   (OrderFeeReceiverFactor, DEFAULT_RECEIVER_FACTOR);
   (OrderFeeFactorForPositiveImpact, DEFAULT_ORDER_FEE_FACTOR_FOR_POSITIVE_IMPACT);
   (OrderFeeFactorForNegativeImpact, DEFAULT_ORDER_FEE_FACTOR_FOR_NEGATIVE_IMPACT);
   (LiquidationFeeReceiverFactor, DEFAULT_RECEIVER_FACTOR);
   (LiquidationFeeFactor, DEFAULT_LIQUIDATION_FEE_FACTOR);
   (PositionImpactDistributeFactor, DEFAULT_POSITION_IMPACT_DISTRIBUTE_FACTOR);
   (MinPositionImpactPoolAmount, DEFAULT_MIN_POSITION_IMPACT_POOL_AMOUNT);
   (BorrowingFeeReceiverFactor, DEFAULT_RECEIVER_FACTOR);
   (BorrowingFeeFactorForLong, DEFAULT_BORROWING_FEE_FACTOR_FOR_LONG);
   (BorrowingFeeFactorForShort, DEFAULT_BORROWING_FEE_FACTOR_FOR_SHORT);
   (BorrowingFeeExponentForLong, DEFAULT_BORROWING_FEE_EXPONENT_FOR_LONG);
   (BorrowingFeeExponentForShort, DEFAULT_BORROWING_FEE_EXPONENT_FOR_SHORT);
   (BorrowingFeeOptimalUsageFactorForLong, DEFAULT_BORROWING_FEE_OPTIMAL_USAGE_FACTOR_FOR_LONG);
   (BorrowingFeeOptimalUsageFactorForShort, DEFAULT_BORROWING_FEE_OPTIMAL_USAGE_FACTOR_FOR_SHORT);
   (BorrowingFeeBaseFactorForLong, DEFAULT_BORROWING_FEE_BASE_FACTOR_FOR_LONG);
   (BorrowingFeeBaseFactorForShort, DEFAULT_BORROWING_FEE_BASE_FACTOR_FOR_SHORT);
   (BorrowingFeeAboveOptimalUsageFactorForLong, DEFAULT_BORROWING_FEE_ABOVE_OPTIMAL_USAGE_FACTOR_FOR_LONG);
   (BorrowingFeeAboveOptimalUsageFactorForShort, DEFAULT_BORROWING_FEE_ABOVE_OPTIMAL_USAGE_FACTOR_FOR_SHORT);
   (FundingFeeExponent, DEFAULT_FUNDING_FEE_EXPONENT);
   (FundingFeeFactor, DEFAULT_FUNDING_FEE_FACTOR);
   (FundingFeeMaxFactorPerSecond, DEFAULT_FUNDING_FEE_MAX_FACTOR_PER_SECOND);
   (FundingFeeMinFactorPerSecond, DEFAULT_FUNDING_FEE_MIN_FACTOR_PER_SECOND);
   (FundingFeeIncreaseFactorPerSecond, DEFAULT_FUNDING_FEE_INCREASE_FACTOR_PER_SECOND);
   (FundingFeeDecreaseFactorPerSecond, DEFAULT_FUNDING_FEE_DECREASE_FACTOR_PER_SECOND);
   (FundingFeeThresholdForStableFunding, DEFAULT_FUNDING_FEE_THRESHOLD_FOR_STABLE_FUNDING);
   (FundingFeeThresholdForDecreaseFunding, DEFAULT_FUNDING_FEE_THRESHOLD_FOR_DECREASE_FUNDING);
   (ReserveFactor, DEFAULT_RECEIVER_FACTOR);
   (OpenInterestReserveFactor, DEFAULT_OPEN_INTEREST_RESERVE_FACTOR);
   (MaxPnlFactorForLongDeposit, DEFAULT_MAX_PNL_FACTOR_FOR_LONG_DEPOSIT);
   (MaxPnlFactorForShortDeposit, DEFAULT_MAX_PNL_FACTOR_FOR_SHORT_DEPOSIT);
   (MaxPnlFactorForLongWithdrawal, DEFAULT_MAX_PNL_FACTOR_FOR_LONG_WITHDRAWAL);
   (MaxPnlFactorForShortWithdrawal, DEFAULT_MAX_PNL_FACTOR_FOR_SHORT_WITHDRAWAL);
   (MaxPnlFactorForLongTrader, DEFAULT_MAX_PNL_FACTOR_FOR_LONG_TRADER);
   (MaxPnlFactorForShortTrader, DEFAULT_MAX_PNL_FACTOR_FOR_SHORT_TRADER);
   (MaxPnlFactorForLongAdl, DEFAULT_MAX_PNL_FACTOR_FOR_LONG_ADL);
   (MaxPnlFactorForShortAdl, DEFAULT_MAX_PNL_FACTOR_FOR_SHORT_ADL);
   (MinPnlFactorAfterLongAdl, DEFAULT_MIN_PNL_FACTOR_AFTER_LONG_ADL);
   (MinPnlFactorAfterShortAdl, DEFAULT_MIN_PNL_FACTOR_AFTER_SHORT_ADL);
   (MaxPoolAmountForLongToken, DEFAULT_MAX_POOL_AMOUNT_FOR_LONG_TOKEN);
   (MaxPoolAmountForShortToken, DEFAULT_MAX_POOL_AMOUNT_FOR_SHORT_TOKEN);
   (MaxPoolValueForDepositForLongToken, DEFAULT_MAX_POOL_VALUE_FOR_DEPOSIT_LONG_TOKEN);
   (MaxPoolValueForDepositForShortToken, DEFAULT_MAX_POOL_VALUE_FOR_DEPOSIT_SHORT_TOKEN);
   (MaxOpenInterestForLong, DEFAULT_MAX_OPEN_INTEREST_FOR_LONG);
   (MaxOpenInterestForShort, DEFAULT_MAX_OPEN_INTEREST_FOR_SHORT);
   (MinTokensForFirstDeposit, DEFAULT_MIN_TOKENS_FOR_FIRST_DEPOSIT)].

Section Config.
Context {B : Type} {BO : BitmapOps MAX_CONFIG_FLAGS B}.

(** [config.flag] and [config.set_flag], which returns the previous value. *)
Definition flag (self : MarketConfig) (f : MarketConfigFlag) : bool :=
    get_flag flag_u8 (config_flag self) f.

Definition set_config_flag (self : MarketConfig) (f : MarketConfigFlag) (v : bool) :
    MarketConfig * bool :=
  let (flags, previous) := set_flag flag_u8 (config_flag self) f v in
  (of_list flags (to_list self), previous).

Definition zeroed_config : MarketConfig := of_list default_flags (replicate (length keys) 0).

(** [MarketConfig::init]: the writes in their order, then the two flags. *)
Definition init (self : MarketConfig) : MarketConfig :=
  let self := foldl (fun c w => set c (fst w) (snd w)) self init_writes in
  let (self, _) := set_config_flag self SkipBorrowingFeeForSmallerSide
                     DEFAULT_SKIP_BORROWING_FEE_FOR_SMALLER_SIDE in
  let (self, _) := set_config_flag self IgnoreOpenInterestForUsageFactor
                     DEFAULT_IGNORE_OPEN_INTEREST_FOR_USAGE_FACTOR in
  self.

(** ** The buffer of entries *)

Record Entry : Type := mkEntry { entry_key : nat; entry_value : Z }.

Definition entry_new (key : MarketConfigKey) (value : Z) : Entry := mkEntry (key_u16 key) value.

(** [Entry::key]. *)
Definition key_of_entry (self : Entry) : store_result MarketConfigKey :=
  ok_or (keys !! entry_key self) (Core CoreError.InvalidMarketConfigKey).

(** An entry from its arguments: the name of a key, and a value. *)
Definition entry_try_from (args : string * Z) : store_result Entry :=
  let! key := ok_or (from_name key_name keys (fst args)) (Core CoreError.InvalidMarketConfigKey) in
  Ok (entry_new key (snd args)).

Record MarketConfigBuffer : Type := mkBuffer {
  buffer_store : Z;
  buffer_authority : Z;
  expiry : Z;
  entries : list Entry;
}.

Definition buffer_push (self : MarketConfigBuffer) (e : Entry) : MarketConfigBuffer :=
  mkBuffer (buffer_store self) (buffer_authority self) (expiry self) (entries self ++ [e]).

Definition init_space (len : nat) : nat := 32 + 32 + 8 + 4 + 18 * len.
Definition space_after_push (self : MarketConfigBuffer) (pushed : nat) : nat :=
  init_space (length (entries self) + pushed).

(** [Market::update_config_with_buffer]: one entry after the other. *)
Fixpoint update_with_entries (self : MarketConfig) (es : list Entry) : store_result MarketConfig :=
  match es with
  | [] => Ok self
  | e :: es =>
      let! key := key_of_entry e in
      update_with_entries (set self key (entry_value e)) es
  end.

Definition update_config_with_buffer (self : MarketConfig) (buffer : MarketConfigBuffer)
    : store_result MarketConfig :=
  update_with_entries self (entries buffer).
End Config.

(** ** The getters of the model *)
Section Getters.
Context {B : Type} {BO : BitmapOps MAX_CONFIG_FLAGS B}.
Implicit Types (self : MarketConfig).

Definition max_pool_amount self (is_long_token : bool) : Z :=
  if is_long_token then max_pool_amount_for_long_token self else max_pool_amount_for_short_token self.

Definition pnl_factor_config self (kind : PnlFactorKind) (is_long : bool) : Z :=
  match kind, is_long with
  | MaxAfterDeposit, true => max_pnl_factor_for_long_deposit self
  | MaxAfterDeposit, false => max_pnl_factor_for_short_deposit self
  | MaxAfterWithdrawal, true => max_pnl_factor_for_long_withdrawal self
  | MaxAfterWithdrawal, false => max_pnl_factor_for_short_withdrawal self
  | MaxForTrader, true => max_pnl_factor_for_long_trader self
  | MaxForTrader, false => max_pnl_factor_for_short_trader self
  | ForAdl, true => max_pnl_factor_for_long_adl self
  | ForAdl, false => max_pnl_factor_for_short_adl self
  | MinAfterAdl, true => min_pnl_factor_after_long_adl self
  | MinAfterAdl, false => min_pnl_factor_after_short_adl self
  end.

Definition max_open_interest self (is_long : bool) : Z :=
  if is_long then max_open_interest_for_long self else max_open_interest_for_short self.

Definition ignore_open_interest_for_usage_factor self : bool :=
    flag self IgnoreOpenInterestForUsageFactor.

Definition swap_impact_params self : PriceImpactParams :=
  mkPriceImpactParams (swap_impact_exponent self) (swap_impact_positive_factor self)
    (swap_impact_negative_factor self).

Definition swap_fee_params self : FeeParams :=
  mkFeeParams (swap_fee_factor_for_positive_impact self) (swap_fee_factor_for_negative_impact self)
    (swap_fee_receiver_factor self) None.

Definition position_impact_params self : PriceImpactParams :=
  mkPriceImpactParams (position_impact_exponent self) (position_impact_positive_factor self)
    (position_impact_negative_factor self).

Definition position_impact_distribution_params self : PositionImpactDistributionParams :=
  mkPositionImpactDistributionParams (position_impact_distribute_factor self)
    (min_position_impact_pool_amount self).

Definition borrowing_fee_params self : BorrowingFeeParams :=
  mkBorrowingFeeParams (borrowing_fee_receiver_factor self)
    (borrowing_fee_exponent_for_long self) (borrowing_fee_exponent_for_short self)
    (borrowing_fee_factor_for_long self) (borrowing_fee_factor_for_short self)
    (flag self SkipBorrowingFeeForSmallerSide).

Definition borrowing_fee_kink_model_params self : BorrowingFeeKinkModelParams :=
  mkKink
    (mkKinkOneSide (borrowing_fee_optimal_usage_factor_for_long self)
       (borrowing_fee_base_factor_for_long self) (borrowing_fee_above_optimal_usage_factor_for_long
         self))
    (mkKinkOneSide (borrowing_fee_optimal_usage_factor_for_short self)
       (borrowing_fee_base_factor_for_short self) (borrowing_fee_above_optimal_usage_factor_for_short
         self)).

Definition funding_fee_params self : FundingFeeParams :=
  mkFundingFeeParams (funding_fee_exponent self) (funding_fee_factor self)
    (funding_fee_increase_factor_per_second self) (funding_fee_decrease_factor_per_second self)
    (funding_fee_max_factor_per_second self) (funding_fee_min_factor_per_second self)
    (funding_fee_threshold_for_stable_funding self) (funding_fee_threshold_for_decrease_funding self).

Definition position_params self : PositionParams :=
  mkPositionParams (min_position_size_usd self) (min_collateral_value self) (min_collateral_factor self)
    (max_positive_position_impact_factor self) (max_negative_position_impact_factor self)
    (max_position_impact_factor_for_liquidations self).

Definition order_fee_params self : FeeParams :=
  mkFeeParams (order_fee_factor_for_positive_impact self) (order_fee_factor_for_negative_impact self)
    (order_fee_receiver_factor self) None.

Definition min_collateral_factor_for_open_interest_multiplier self (is_long : bool) : Z :=
  if is_long then min_collateral_factor_for_open_interest_multiplier_for_long self
  else min_collateral_factor_for_open_interest_multiplier_for_short self.

Definition liquidation_fee_params self : LiquidationFeeParams :=
  mkLiquidationFeeParams (liquidation_fee_factor self) (liquidation_fee_receiver_factor self).

Definition max_pool_value_for_deposit self (is_long_token : bool) : Z :=
  if is_long_token then max_pool_value_for_deposit_for_long_token self
  else max_pool_value_for_deposit_for_short_token self.

(** All of them: the configuration that the model sees. *)
Definition model_config self : Market.MarketConfig :=
  Market.mkMarketConfig MARKET_USD_TO_AMOUNT_DIVISOR (max_pool_amount self) (pnl_factor_config self)
    (reserve_factor self) (open_interest_reserve_factor self) (max_open_interest self)
    (ignore_open_interest_for_usage_factor self) (swap_impact_params self) (swap_fee_params self)
    (position_impact_params self) (position_impact_distribution_params self) (borrowing_fee_params self)
    (borrowing_fee_kink_model_params self) FUNDING_AMOUNT_PER_SIZE_ADJUSTMENT (funding_fee_params self)
    (position_params self) (order_fee_params self)
    (min_collateral_factor_for_open_interest_multiplier self) (liquidation_fee_params self)
    (max_pool_value_for_deposit self).
End Getters.

(** ** The keys *)
Lemma keys_lookup key : keys !! key_u16 key = Some key.
Proof. by destruct key. Qed.

#[export] Instance key_u16_inj : Inj (=) (=) key_u16.
Proof.
  intros k k' E. pose proof (keys_lookup k) as Hk. rewrite E, keys_lookup in Hk. by injection Hk.
Qed.

Lemma keys_lookup_u16 i key : keys !! i = Some key -> i = key_u16 key.
Proof.
  intros H. pose proof (keys_lookup key) as Hk.
  assert (NoDup keys) as Hnd by (apply (bool_decide_unpack _); vm_compute; exact I).
  apply (NoDup_lookup keys i (key_u16 key) key); done.
Qed.

Lemma key_u16_bound key : (key_u16 key < length keys)%nat.
Proof. apply lookup_lt_is_Some. eexists. apply keys_lookup. Qed.

Lemma from_name_key key : from_name key_name keys (key_name key) = Some key.
Proof. destruct key; vm_compute; reflexivity. Qed.

(** ** The list of the factors *)
Lemma map_nth_seq {A} (d : A) (xs : list A) : map (fun i => nth i xs d) (seq 0 (length xs)) = xs.
Proof.
  apply list_eq. intros i. change (map ?f ?l) with (f <$> l). rewrite list_lookup_fmap.
  destruct (decide (i < length xs)%nat) as [Hi|Hi].
  - rewrite lookup_seq_lt by done. simpl.
    destruct (lookup_lt_is_Some_2 xs i Hi) as [x Hx]. by rewrite (nth_lookup_Some _ _ _ _ Hx).
  - rewrite lookup_seq_ge by lia. simpl. symmetry. apply lookup_ge_None_2. lia.
Qed.

Lemma to_of_list flag xs : length xs = length keys -> to_list (of_list flag xs) = xs.
Proof.
  intros Hlen. rewrite <-(map_nth_seq 0 xs) at 2. rewrite Hlen. reflexivity.
Qed.

Lemma of_to_list self : of_list (config_flag self) (to_list self) = self.
Proof. by destruct self. Qed.

Lemma to_list_length self : length (to_list self) = length keys.
Proof. reflexivity. Qed.

Lemma get_nth self key : get self key = nth (key_u16 key) (to_list self) 0.
Proof. by destruct key. Qed.

Lemma get_of_list flag xs key : length xs = length keys ->
    get (of_list flag xs) key = nth (key_u16 key) xs 0.
Proof. intros Hlen. by rewrite get_nth, to_of_list. Qed.

Lemma get_set self key key' v : get (set self key v) key' = if decide (key =
    key') then v else get self key'.
Proof.
  unfold set. rewrite get_of_list, get_nth, !nth_lookup by (by rewrite length_insert).
  destruct (decide (key = key')) as [<-|Hne].
  - rewrite list_lookup_insert_eq; [done|]. rewrite to_list_length. apply key_u16_bound.
  - rewrite list_lookup_insert_ne; [done|]. by intros ?%(inj key_u16).
Qed.

Lemma set_flag_kept self key v : config_flag (set self key v) = config_flag self.
Proof. done. Qed.

(** A configuration is its flags and its factors. *)
Lemma config_ext c c' : config_flag c = config_flag c' -> (forall key, get c key = get c' key) -> c = c'.
Proof.
  intros Hf Hg. rewrite <-(of_to_list c), <-(of_to_list c'), Hf. f_equal.
  apply list_eq. intros i. destruct (decide (i < length keys)%nat) as [Hi|Hi].
  - destruct (lookup_lt_is_Some_2 keys i Hi) as [key Hk]. apply keys_lookup_u16 in Hk as ->.
    specialize (Hg key). rewrite !get_nth, !nth_lookup in Hg.
    destruct (lookup_lt_is_Some_2 (to_list c) (key_u16 key) Hi) as [x Hx].
    destruct (lookup_lt_is_Some_2 (to_list c') (key_u16 key) Hi) as [x' Hx'].
    rewrite Hx, Hx' in *. simpl in Hg. by subst.
  - rewrite !lookup_ge_None_2; [done|rewrite to_list_length; lia..].
Qed.

(** ** Updates with entries *)

(** The last value that the entries have for a key. *)
Definition last_value (es : list Entry) (key : MarketConfigKey) : option Z :=
  foldl (fun o e => if decide (entry_key e = key_u16 key) then Some (entry_value e) else o) None es.

Definition entry_valid (e : Entry) : bool := bool_decide (is_Some (keys !! entry_key e)).

Lemma key_of_entry_new key v : key_of_entry (entry_new key v) = Ok key.
Proof. unfold key_of_entry. simpl. by rewrite keys_lookup. Qed.

Lemma last_value_from o es key :
  foldl (fun o e => if decide (entry_key e = key_u16 key) then Some (entry_value e) else o) o es =
  match last_value es key with Some v => Some v | None => o end.
Proof.
  revert o. unfold last_value. induction es as [|e es IH]; intros o; [done|].
  simpl. rewrite (IH (if decide _ then _ else o)), (IH (if decide _ then _ else None)).
  destruct (foldl _ None es); [done|]. by case_decide.
Qed.

Lemma last_value_cons e es key :
  last_value (e :: es) key =
  match last_value es key with
  | Some v => Some v
  | None => if decide (entry_key e = key_u16 key) then Some (entry_value e) else None
  end.
Proof. unfold last_value at 1. simpl. apply last_value_from. Qed.

Lemma key_of_entry_ok e key : key_of_entry e = Ok key <-> entry_key e = key_u16 key.
Proof.
  unfold key_of_entry. split.
  - intros H%ok_or_ok. by apply keys_lookup_u16.
  - intros ->. by rewrite keys_lookup.
Qed.

Lemma update_with_entries_ok self es self' :
  update_with_entries self es = Ok self' ->
  config_flag self' = config_flag self /\ Forall entry_valid es /\
  forall key, get self' key = match last_value es key with Some v => v | None => get self key end.
Proof.
  revert self. induction es as [|e es IH]; intros self H; simpl in H.
  { injection H as <-. split_and!; [done|constructor|done]. }
  apply rbind_ok in H as (k & Hk & H). apply IH in H as (Hf & Hv & Hg).
  apply key_of_entry_ok in Hk. split_and!.
  - by rewrite Hf.
  - constructor; [|done]. apply bool_decide_pack. rewrite Hk, keys_lookup. eauto.
  - intros key. rewrite last_value_cons, Hg, Hk. destruct (last_value es key); [done|].
    rewrite get_set. destruct (decide (k = key)) as [->|Hne].
    + by rewrite decide_True.
    + rewrite decide_False; [done|]. by intros ?%(inj key_u16).
Qed.

Lemma update_with_entries_total self es :
  Forall entry_valid es -> exists self', update_with_entries self es = Ok self'.
Proof.
  revert self. induction es as [|e es IH]; intros self Hv; simpl; [eauto|].
  inversion Hv as [|? ? He Hes]; subst. apply bool_decide_unpack in He as [key Hk].
  unfold key_of_entry. rewrite Hk. cbn [ok_or rbind]. by apply IH.
Qed.

Lemma update_with_entries_err self es :
  ~ Forall entry_valid es -> update_with_entries self es = Err (Core CoreError.InvalidMarketConfigKey).
Proof.
  revert self. induction es as [|x es IH]; intros self H; [by destruct H|].
  simpl. unfold key_of_entry. destruct (keys !! entry_key x) eqn:E; [|done].
  unfold rbind, ok_or. apply IH. intros Hes. apply H. constructor; [|done].
  apply bool_decide_pack. rewrite E. eauto.
Qed.

(** A keeper updates the configuration of a market with a buffer. The update succeeds
    exactly when every entry has a valid key, and fails with [InvalidMarketConfigKey]
    otherwise; then every factor has the value of the last entry for its key, the factors that
    the buffer does not name and the flags are as before. *)
Theorem update_config_with_buffer_spec (self : MarketConfig) (buffer : MarketConfigBuffer) :
  (exists self', update_config_with_buffer self buffer = Ok self' /\
     Forall entry_valid (entries buffer) /\ config_flag self' = config_flag self /\
     forall key, get self' key =
       match last_value (entries buffer) key with Some v => v | None => get self key end) \/
  (update_config_with_buffer self buffer = Err (Core CoreError.InvalidMarketConfigKey) /\
   ~ Forall entry_valid (entries buffer)).
Proof.
  unfold update_config_with_buffer.
  destruct (decide (Forall entry_valid (entries buffer))) as [Hv|Hv].
  - left. destruct (update_with_entries_total self _ Hv) as [self' H]. exists self'. split; [done|].
    apply update_with_entries_ok in H as (? & ? & ?). done.
  - right. split; [by apply update_with_entries_err|done].
Qed.

(** Entries made from named keys are valid, and the names are exactly those of the keys. *)
Lemma entry_try_from_spec name v e :
  entry_try_from (name, v) = Ok e -> exists key, name = key_name key /\ e =
    entry_new key v /\ entry_valid e.
Proof.
  intros H. unfold entry_try_from in H. simpl in H. apply rbind_ok in H as (key & Hk & H).
  injection H as <-. exists key. split_and!; [|done|].
  - apply ok_or_ok in Hk. unfold from_name in Hk.
    destruct (list_find _ _) as [[i k]|] eqn:E; [|done]. simpl in Hk. injection Hk as ->.
    by apply list_find_Some in E as (_ & <- & _).
  - apply bool_decide_pack. simpl. rewrite keys_lookup. eauto.
Qed.

Lemma entry_try_from_name key v : entry_try_from (key_name key, v) = Ok (entry_new key v).
Proof. unfold entry_try_from. simpl. by rewrite from_name_key. Qed.

(** ** The initial configuration *)

#[export] Instance flag_u8_inj : Inj (=) (=) flag_u8.
Proof. by intros [] []. Qed.

Section Init.
Context {B : Type} {BO : BitmapOps MAX_CONFIG_FLAGS B} {BL : BitmapLaws MAX_CONFIG_FLAGS B}.

Lemma flag_u8_bound f : (flag_u8 f < MAX_CONFIG_FLAGS)%nat.
Proof. unfold MAX_CONFIG_FLAGS. destruct f; simpl; lia. Qed.

Lemma set_config_flag_get self f v : forall key, get (fst (set_config_flag self f v)) key = get self key.
Proof.
  intros key. unfold set_config_flag. destruct (set_flag _ _ _ _) as [fl p]. simpl.
  rewrite get_of_list by done. symmetry. apply get_nth.
Qed.

Lemma flag_set_config_flag self f v g :
  flag (fst (set_config_flag self f v)) g = if decide (f = g) then v else flag self g.
Proof.
  unfold set_config_flag, flag. destruct (set_flag flag_u8 (config_flag self) f v) as [fl p] eqn:E.
  replace fl with (fst (set_flag flag_u8 (config_flag self) f v)) by by rewrite E.
  apply get_set_flag; [apply flag_u8_bound|apply _].
Qed.

Lemma set_config_flag_previous self f v : snd (set_config_flag self f v) = flag self f.
Proof. done. Qed.

Definition writes_value (ws : list (MarketConfigKey * Z)) : list Entry :=
  map (fun w => entry_new (fst w) (snd w)) ws.

Lemma foldl_set ws self :
  update_with_entries self (writes_value ws) = Ok (foldl (fun c w => set c (fst w) (snd w)) self ws).
Proof.
  revert self. induction ws as [|[k v] ws IH]; intros self; [done|].
  simpl. rewrite key_of_entry_new. apply IH.
Qed.

(** The end of [init], on the configuration after the writes. *)
Definition init_flags (self : MarketConfig) : MarketConfig :=
  let (self, _) := set_config_flag self SkipBorrowingFeeForSmallerSide
                     DEFAULT_SKIP_BORROWING_FEE_FOR_SMALLER_SIDE in
  let (self, _) := set_config_flag self IgnoreOpenInterestForUsageFactor
                     DEFAULT_IGNORE_OPEN_INTEREST_FOR_USAGE_FACTOR in
  self.

Lemma init_flags_fst self :
  init_flags self =
  fst (set_config_flag (fst (set_config_flag self SkipBorrowingFeeForSmallerSide
                               DEFAULT_SKIP_BORROWING_FEE_FOR_SMALLER_SIDE))
         IgnoreOpenInterestForUsageFactor DEFAULT_IGNORE_OPEN_INTEREST_FOR_USAGE_FACTOR).
Proof.
  unfold init_flags.
  destruct (set_config_flag self SkipBorrowingFeeForSmallerSide _) as [c p]. simpl.
  by destruct (set_config_flag c IgnoreOpenInterestForUsageFactor
                 DEFAULT_IGNORE_OPEN_INTEREST_FOR_USAGE_FACTOR).
Qed.

Lemma init_get self key :
  get (init self) key =
  match last_value (writes_value init_writes) key with Some v => v | None => get self key end.
Proof.
  change (init self) with (init_flags (foldl (fun c w => set c (fst w) (snd w)) self init_writes)).
  rewrite init_flags_fst, !set_config_flag_get.
  by pose proof (update_with_entries_ok _ _ _ (foldl_set init_writes self)) as (_ & _ & ->).
Qed.

Lemma init_flag self f :
  flag (init self) f =
  match f with
  | SkipBorrowingFeeForSmallerSide => DEFAULT_SKIP_BORROWING_FEE_FOR_SMALLER_SIDE
  | IgnoreOpenInterestForUsageFactor => DEFAULT_IGNORE_OPEN_INTEREST_FOR_USAGE_FACTOR
  end.
Proof.
  change (init self) with (init_flags (foldl (fun c w => set c (fst w) (snd w)) self init_writes)).
  rewrite init_flags_fst, !flag_set_config_flag. by destruct f.
Qed.

(** What a new market is configured with. A key that [init] writes once has the constant
    it is written with, whatever the account held; but [init] writes the positive swap impact
    factor twice, with the negative default the second time, and never the negative one, and it
    writes the reserve factor with the default of the fee receiver (70 % instead of 50 %). *)
Theorem init_config_defaults (self : MarketConfig) :
  (forall key v, (key, v) ∈ init_writes -> key <> SwapImpactPositiveFactor -> get (init self) key = v) /\
  (forall key, key <> SwapImpactNegativeFactor -> key ∈ init_writes.*1) /\
  get (init self) SwapImpactPositiveFactor = DEFAULT_SWAP_IMPACT_NEGATIVE_FACTOR /\
  get (init self) SwapImpactNegativeFactor = get self SwapImpactNegativeFactor /\
  get (init self) ReserveFactor = DEFAULT_RECEIVER_FACTOR /\
  DEFAULT_RESERVE_FACTOR < DEFAULT_RECEIVER_FACTOR.
Proof.
  split_and!.
  - intros key v Hin Hne. rewrite init_get.
    assert (Forall (fun w => fst w <> SwapImpactPositiveFactor ->
              last_value (writes_value init_writes) (fst w) = Some (snd w)) init_writes) as HF.
    { apply (bool_decide_unpack _). vm_compute. exact I. }
    rewrite Forall_forall in HF. specialize (HF _ Hin Hne). cbn [fst snd] in HF. by rewrite HF.
  - intros key Hne. destruct key; try done; apply (bool_decide_unpack _); vm_compute; exact I.
  - by rewrite init_get.
  - by rewrite init_get.
  - by rewrite init_get.
  - by vm_compute.
Qed.
End Init.
End StoreConfig.
