(* ===== verification/Roles.v ===== *)
(** * Roles of the store

    The access control of the store program, [states/roles.rs]: a fixed map from role names to
    their metadata ([RoleMap]) and one from members to bitmaps of role indices ([Members]). A
    role gets as its index the number of roles when it is first enabled, and the bit of that
    index in the bitmap of a member is the grant.

    The bitmaps are those of [Flags].
    Names are lists of bytes; a [&str] of Rust is such a list with [utf8_valid]. The hash of a
    name, [to_key], is an arbitrary function: collisions are handled by the code, which stores
    the name and compares it.

    What the store promises is stated with [granted] and [enabled]: [roles_reachable] says that in
    every state that the operations reach each of them changes exactly the role, or the grant,
    that it names. *)
From stdpp Require Import gmap.
From S2P Require Import Prelude.
From S2P Require Import CoreErrors.
From S2P Require Import FixedMap.
From S2P Require Import Flags.
#[local] Open Scope Z_scope.

(** ** Strings *)

Abbreviation bytes := (list Z).

Definition in_range (lo hi b : Z) : bool := (lo <=? b) && (b <=? hi).
Definition continuation (b : Z) : bool := in_range 128 191 b.

(** The validity check of [str::from_utf8]. *)
Fixpoint utf8_valid (bs : bytes) : bool :=
  match bs with
  | [] => true
  | b1 :: r1 =>
      if in_range 0 127 b1 then utf8_valid r1
      else match r1 with
      | [] => false
      | b2 :: r2 =>
          if in_range 194 223 b1 then continuation b2 && utf8_valid r2
          else match r2 with
          | [] => false
          | b3 :: r3 =>
              if in_range 224 239 b1 then
                in_range (if b1 =? 224 then 160 else 128) (if b1 =? 237 then 159 else 191) b2 &&
                continuation b3 && utf8_valid r3
              else match r3 with
              | [] => false
              | b4 :: r4 =>
                  in_range 240 244 b1 &&
                  in_range (if b1 =? 240 then 144 else 128) (if b1 =? 244 then 143 else 191) b2 &&
                  continuation b3 && continuation b4 && utf8_valid r4
              end
          end
      end
  end.

(** [utils/fixed_str.rs]. *)
Definition fixed_str_to_bytes (MAX_LEN : nat) (name : bytes) : store_result bytes :=
  let! _ := require (length name <=? MAX_LEN)%nat CoreError.ExceedMaxLengthLimit in
  Ok (name ++ replicate (MAX_LEN - length name) 0).

Fixpoint position_of_zero (bs : bytes) : option nat :=
  match bs with
  | [] => None
  | b :: bs => if b =? 0 then Some O else S <$> position_of_zero bs
  end.

Definition bytes_to_fixed_str (bs : bytes) : store_result bytes :=
  match position_of_zero bs with
  | None => Err (Core CoreError.InvalidArgument)
  | Some end_ =>
      let valid_bytes := take end_ bs in
      if utf8_valid valid_bytes then Ok valid_bytes else Err (Core CoreError.InvalidArgument)
  end.

(** ** Limits *)

Definition MAX_ROLE_NAME_LEN : nat := 32.
Definition MAX_ROLES : nat := 32.
Definition MAX_MEMBERS : nat := 64.

(** ** The role store *)

(** An address, and the key of its bytes ([utils/pubkey.rs]). *)
Abbreviation Pubkey := Z.
Definition pubkey_to_bytes (k : Pubkey) : Z := k.

(** [Pubkey::default], which stands for no address. *)
Definition DEFAULT_PUBKEY : Pubkey := 0.

Section Roles.
Context {B : Type} {BO : BitmapOps MAX_ROLES B} {BL : BitmapLaws MAX_ROLES B}.
(** The hash of a role name. *)
Context (to_key : bytes -> Z).

Record RoleMetadata : Type := mkRoleMetadata {
  role_name : bytes; role_enabled : Z; role_idx : Z }.

Definition default_role : RoleMetadata := mkRoleMetadata (replicate MAX_ROLE_NAME_LEN 0) 0 0.

Definition ROLE_ENABLED : Z := 255.

Definition new_role (name : bytes) (index : Z) : store_result RoleMetadata :=
  let! name := fixed_str_to_bytes MAX_ROLE_NAME_LEN name in
  Ok (mkRoleMetadata name ROLE_ENABLED index).

Definition name (self : RoleMetadata) : store_result bytes := bytes_to_fixed_str (role_name self).
Definition is_enabled (self : RoleMetadata) : bool := role_enabled self =? ROLE_ENABLED.
Definition set_enable (self : RoleMetadata) : RoleMetadata :=
  mkRoleMetadata (role_name self) ROLE_ENABLED (role_idx self).
Definition set_disable (self : RoleMetadata) : RoleMetadata :=
  mkRoleMetadata (role_name self) 0 (role_idx self).

Definition enable (self : RoleMetadata) : store_result RoleMetadata :=
  let! _ := require (negb (is_enabled self)) CoreError.PreconditionsAreNotMet in
  Ok (set_enable self).
Definition disable (self : RoleMetadata) : store_result RoleMetadata :=
  let! _ := require (is_enabled self) CoreError.PreconditionsAreNotMet in
  Ok (set_disable self).

Record RoleStore : Type := mkRoleStore {
  roles : FixedMap RoleMetadata; members : FixedMap Z }.

Definition zeroed_store : RoleStore := mkRoleStore (zeroed default_role MAX_ROLES) (zeroed 0 MAX_MEMBERS).

Abbreviation RS A := (ST RoleStore StoreError A).

Definition on_roles {A} (m : ST (FixedMap RoleMetadata) StoreError A) : RS A :=
  szoom roles (fun r self => mkRoleStore r (members self)) m.
Definition on_members {A} (m : ST (FixedMap Z) StoreError A) : RS A :=
  szoom members (fun m self => mkRoleStore (roles self) m) m.

(** [require_eq!(metadata.name()?, role, ..)]. *)
Definition check_name (metadata : RoleMetadata) (role : bytes) : store_result unit :=
  let! n := name metadata in
  require (bool_decide (n = role)) CoreError.InvalidArgument.

(** The index is a [u8]. *)
Definition len_to_u8 (n : nat) : option Z :=
  if Z.of_nat n <? 256 then Some (Z.of_nat n) else None.

Definition enable_role (role : bytes) : RS unit :=
  do! p := on_roles (get_mut to_key role) in
  match p with
  | Some p =>
      do! metadata := on_roles (read_place p) in
      do! _ := slift (check_name metadata role) in
      do! metadata := slift (enable metadata) in
      on_roles (write_place p metadata)
  | None =>
      do! index := sread (fun self =>
        ok_or (len_to_u8 (len (roles self))) (Core CoreError.ExceedMaxLengthLimit)) in
      do! metadata := slift (new_role role index) in
      do! _ := on_roles (insert_with_options to_key MAX_ROLES role metadata true) in
      sret tt
  end.

Definition disable_role (role : bytes) : RS unit :=
  do! p := on_roles (get_mut to_key role) in
  match p with
  | Some p =>
      do! metadata := on_roles (read_place p) in
      do! _ := slift (check_name metadata role) in
      do! metadata := slift (disable metadata) in
      on_roles (write_place p metadata)
  | None => sret tt
  end.

Definition role_index (role : bytes) : RS (option Z) :=
  do! m := on_roles (get to_key role) in
  match m with
  | Some metadata =>
      do! _ := slift (check_name metadata role) in
      sret (Some (role_idx metadata))
  | None => sret None
  end.

Definition enabled_role_index (role : bytes) : RS (option Z) :=
  do! m := on_roles (get to_key role) in
  match m with
  | Some metadata =>
      do! _ := slift (check_name metadata role) in
      do! _ := slift (require (is_enabled metadata) CoreError.PreconditionsAreNotMet) in
      sret (Some (role_idx metadata))
  | None => sret None
  end.

Definition has_role (authority : Pubkey) (role : bytes) : RS bool :=
  do! m := on_members (get pubkey_to_bytes authority) in
  match m with
  | None => slift (Err (Core CoreError.PermissionDenied))
  | Some value =>
      do! i := enabled_role_index role in
      match i with
      | None => slift (Err (Core CoreError.NotFound))
      | Some index => sret (bitmap_get (from_value value) (Z.to_nat index))
      end
  end.

Definition grant (authority : Pubkey) (role : bytes) : RS unit :=
  do! i := enabled_role_index role in
  match i with
  | None => slift (Err (Core CoreError.NotFound))
  | Some index =>
      let index := Z.to_nat index in
      do! p := on_members (get_mut pubkey_to_bytes authority) in
      match p with
      | Some p =>
          do! value := on_members (read_place p) in
          let bitmap := from_value value in
          do! _ := slift (require (negb (bitmap_get bitmap index)) CoreError.PreconditionsAreNotMet) in
          on_members (write_place p (into_value (bitmap_set bitmap index true)))
      | None =>
          let bitmap := bitmap_set bitmap_new index true in
          do! _ := on_members (insert_with_options pubkey_to_bytes MAX_MEMBERS authority
                                 (into_value bitmap) true) in
          sret tt
      end
  end.

Definition revoke (authority : Pubkey) (role : bytes) : RS unit :=
  do! i := role_index role in
  match i with
  | None => slift (Err (Core CoreError.NotFound))
  | Some index =>
      do! p := on_members (get_mut pubkey_to_bytes authority) in
      match p with
      | None => slift (Err (Core CoreError.PermissionDenied))
      | Some p =>
          do! value := on_members (read_place p) in
          let bitmap := from_value value in
          let index := Z.to_nat index in
          do! _ := slift (require (bitmap_get bitmap index) CoreError.PreconditionsAreNotMet) in
          let bitmap := bitmap_set bitmap index false in
          do! _ := on_members (write_place p (into_value bitmap)) in
          if bitmap_is_empty bitmap then
            do! _ := on_members (remove pubkey_to_bytes 0 authority) in
            sret tt
          else sret tt
      end
  end.

Definition num_roles (self : RoleStore) : nat := len (roles self).
Definition num_members (self : RoleStore) : nat := len (members self).
Definition role_value (user : Pubkey) : RS (option Z) := on_members (get pubkey_to_bytes user).
Definition members_list (self : RoleStore) : list Pubkey := key <$> entries (members self).
Definition roles_list (self : RoleStore) : list (store_result bytes) :=
  (fun e => name (value e)) <$> entries (roles self).

(** ** What the store says: who has which role *)

Definition role_md (self : RoleStore) (role : bytes) : option RoleMetadata :=
  to_map (roles self) !! to_key role.
Definition member (self : RoleStore) (authority : Pubkey) : option Z :=
  to_map (members self) !! authority.

(** The metadata found under the hash of [role] is that of [role]. *)
Definition named (metadata : RoleMetadata) (role : bytes) : bool :=
  match name metadata with Ok n => bool_decide (n = role) | _ => false end.

Definition bit (value index : Z) : bool := bitmap_get (from_value value) (Z.to_nat index).

Definition enabled (self : RoleStore) (role : bytes) : bool :=
  match role_md self role with
  | Some md => named md role && is_enabled md
  | None => false
  end.

Definition granted (self : RoleStore) (authority : Pubkey) (role : bytes) : bool :=
  match role_md self role, member self authority with
  | Some md, Some v => named md role && bit v (role_idx md)
  | _, _ => false
  end.

Record RolesWf (self : RoleStore) : Prop := mkRolesWf {
  rw_roles : FixedMap.Wf MAX_ROLES (roles self);
  rw_members : FixedMap.Wf MAX_MEMBERS (members self);
  rw_index k md : to_map (roles self) !! k = Some md ->
    0 <= role_idx md < Z.of_nat (len (roles self));
  rw_name k md : to_map (roles self) !! k = Some md -> length (role_name md) = MAX_ROLE_NAME_LEN;
  rw_distinct k k' md md' :
    to_map (roles self) !! k = Some md -> to_map (roles self) !! k' = Some md' ->
    role_idx md = role_idx md' -> k = k';
  (** No member has a bit that no role has yet. *)
  rw_bits a v i : to_map (members self) !! a = Some v ->
    (len (roles self) <= i < MAX_ROLES)%nat -> bitmap_get (from_value v) i = false;
  (** Members have a role. *)
  rw_nonempty a v : to_map (members self) !! a = Some v ->
    bitmap_is_empty (from_value v) = false }.

Lemma zeroed_store_wf : RolesWf zeroed_store.
Proof.
  destruct (zeroed_wf default_role MAX_ROLES). destruct (zeroed_wf 0 MAX_MEMBERS).
  by constructor.
Qed.

Lemma len_le_max self : RolesWf self -> (len (roles self) <= MAX_ROLES)%nat.
Proof. intros Hwf. apply (wf_count _ _ (rw_roles _ Hwf)). Qed.

Lemma check_name_ok md role u : check_name md role = Ok u <-> named md role = true.
Proof.
  unfold check_name, named. destruct u, (name md) as [n|e|msg]; simpl; [|done|done].
  unfold rbind. destruct (bool_decide _); by split.
Qed.

(** The maps of the store in terms of [role_md] and [member]. *)
Lemma get_role self role : RolesWf self -> on_roles (get to_key role) self = (self, Ok (role_md self role)).
Proof.
  intros Hwf. unfold on_roles, szoom. rewrite (get_eq _ MAX_ROLES) by apply Hwf.
  by destruct self.
Qed.

Lemma get_member self a :
  RolesWf self -> on_members (get pubkey_to_bytes a) self = (self, Ok (member self a)).
Proof.
  intros Hwf. unfold on_members, szoom. rewrite (get_eq _ MAX_MEMBERS) by apply Hwf.
  by destruct self.
Qed.

Lemma len_update {V} n (m m' : FixedMap V) k v v' :
  FixedMap.Wf n m -> FixedMap.Wf n m' -> to_map m !! k = Some v ->
  to_map m' = <[k := v']> (to_map m) -> len m' = len m.
Proof.
  intros Hm Hm' Hk He. unfold len. rewrite <- (size_to_map n m), <- (size_to_map n m'), He by done.
  by rewrite map_size_insert, Hk.
Qed.

Lemma get_mut_role self role :
  RolesWf self ->
  match role_md self role with
  | None => on_roles (get_mut to_key role) self = (self, Ok None)
  | Some md => exists p, on_roles (get_mut to_key role) self = (self, Ok (Some p)) /\
      on_roles (read_place p) self = (self, Ok md) /\
      forall md', exists rs, on_roles (write_place p md') self = (mkRoleStore rs (members self), Ok tt) /\
        FixedMap.Wf MAX_ROLES rs /\ to_map rs = <[to_key role := md']> (to_map (roles self)) /\
        len rs = len (roles self)
  end.
Proof.
  intros Hwf. pose proof (get_mut_eq to_key MAX_ROLES role (roles self) (rw_roles _ Hwf)) as Hg.
  unfold role_md, on_roles, szoom in *. destruct (to_map (roles self) !! to_key role) as [md|] eqn:Hmd.
  - destruct Hg as (p & Hp & Hr & Hw). exists p. rewrite Hp, Hr. destruct self as [rs ms]. split_and!; try done.
    intros md'. destruct (Hw md') as (rs' & -> & Hwf' & Hmap). exists rs'. split_and!; try done.
    eapply len_update; [apply Hwf|exact Hwf'|exact Hmd|exact Hmap].
  - rewrite Hg. by destruct self.
Qed.

Lemma get_mut_member self a :
  RolesWf self ->
  match member self a with
  | None => on_members (get_mut pubkey_to_bytes a) self = (self, Ok None)
  | Some v => exists p, on_members (get_mut pubkey_to_bytes a) self = (self, Ok (Some p)) /\
      on_members (read_place p) self = (self, Ok v) /\
      forall v', exists ms, on_members (write_place p v') self = (mkRoleStore (roles self) ms, Ok tt) /\
        FixedMap.Wf MAX_MEMBERS ms /\ to_map ms = <[a := v']> (to_map (members self))
  end.
Proof.
  intros Hwf. pose proof (get_mut_eq pubkey_to_bytes MAX_MEMBERS a (members self) (rw_members _ Hwf)) as Hg.
  unfold member, on_members, szoom, pubkey_to_bytes in *.
  destruct (to_map (members self) !! a) as [v|].
  - destruct Hg as (p & Hp & Hr & Hw). exists p. rewrite Hp, Hr. destruct self as [rs ms]. split_and!; try done.
    intros v'. destruct (Hw v') as (ms' & -> & ?). by exists ms'.
  - rewrite Hg. by destruct self.
Qed.

(** Names that callers pass: a string without a zero byte. It fits the store when a zero
    byte is left behind it. *)
Definition valid_name (role : bytes) : Prop := utf8_valid role = true /\ 0 ∉ role.
Definition storable (role : bytes) : bool := (length role <? MAX_ROLE_NAME_LEN)%nat.

Lemma position_of_zero_app l n :
  0 ∉ l -> position_of_zero (l ++ replicate n 0) = match n with O => None | S _ => Some (length l) end.
Proof.
  induction l as [|b l IH]; simpl; intros H0; [by destruct n|].
  apply not_elem_of_cons in H0 as [Hb Hl]. rewrite IH by done.
  destruct (Z.eqb_spec b 0); [congruence|]. by destruct n.
Qed.

Lemma position_of_zero_lt l n : position_of_zero l = Some n -> (n < length l)%nat.
Proof.
  revert n. induction l as [|b l IH]; simpl; intros n; [done|].
  destruct (b =? 0); [intros [= <-]; lia|]. destruct (position_of_zero l) as [m|]; [|done].
  simpl. intros [= <-]. specialize (IH m eq_refl). lia.
Qed.

Lemma named_functional md r r' : named md r = true -> named md r' = bool_decide (r' = r).
Proof.
  unfold named. destruct (name md) as [n| |]; [|done|done]. intros ->%bool_decide_eq_true_1.
  apply bool_decide_ext. by split; intros ->.
Qed.

Lemma named_storable md r :
  length (role_name md) = MAX_ROLE_NAME_LEN -> named md r = true -> storable r = true.
Proof.
  unfold named, name, bytes_to_fixed_str, storable. intros Hlen.
  destruct (position_of_zero (role_name md)) as [n|] eqn:Hn; [|done].
  apply position_of_zero_lt in Hn. destruct (utf8_valid _); [|done].
  intros <-%bool_decide_eq_true_1. apply Nat.ltb_lt. rewrite length_take. lia.
Qed.

Lemma new_role_ok role i md :
  valid_name role -> new_role role i = Ok md ->
  role_idx md = i /\ is_enabled md = true /\ length (role_name md) = MAX_ROLE_NAME_LEN /\
  forall r, named md r = bool_decide (r = role) && storable role.
Proof.
  intros [Hutf H0] Hn. unfold new_role, fixed_str_to_bytes in Hn. rewrite rbind_assoc in Hn.
  apply rbind_ok in Hn as (u & Hlen%require_ok & Hn). apply Nat.leb_le in Hlen.
  unfold rbind in Hn. injection Hn as <-. simpl. split_and!; [done|done| |].
  { rewrite length_app, length_replicate. lia. }
  intros r. unfold named, name, bytes_to_fixed_str, storable. simpl.
  rewrite position_of_zero_app by done.
  destruct (Nat.ltb_spec (length role) MAX_ROLE_NAME_LEN) as [Hlt|Hge].
  - destruct (MAX_ROLE_NAME_LEN - length role)%nat eqn:Hn; [lia|].
    rewrite take_app_length, Hutf, andb_true_r. apply bool_decide_ext. by split; intros ->.
  - replace (MAX_ROLE_NAME_LEN - length role)%nat with O by lia. by rewrite andb_false_r.
Qed.

(** Replacing the metadata of a role that keeps its name and index. *)
Lemma set_md_wf self role md md' rs :
  RolesWf self -> role_md self role = Some md ->
  role_name md' = role_name md -> role_idx md' = role_idx md ->
  FixedMap.Wf MAX_ROLES rs -> to_map rs = <[to_key role := md']> (to_map (roles self)) ->
  len rs = len (roles self) ->
  RolesWf (mkRoleStore rs (members self)).
Proof.
  intros [Hr Hm Hi Hname Hd Hb Hne] Hmd Hn Hidx Hwf Hmap Hlen. unfold role_md in Hmd.
  constructor; simpl; [done|done| | | |by rewrite Hlen|done].
  - intros k md0. rewrite Hmap, lookup_insert, Hlen. case_decide as Hk; [|apply Hi].
    intros [= <-]. rewrite Hidx. by apply (Hi (to_key role)).
  - intros k md0. rewrite Hmap, lookup_insert. case_decide as Hk; [|apply Hname].
    intros [= <-]. rewrite Hn. by apply (Hname (to_key role)).
  - intros k k' md1 md2. rewrite Hmap, !lookup_insert.
    case_decide as Hk; case_decide as Hk'; try (by subst); try (by apply Hd).
    + intros [= <-] H2 He. rewrite Hidx in He. subst k. by apply (Hd _ _ md md2).
    + intros H1 [= <-] He. rewrite Hidx in He. subst k'. by apply (Hd _ _ md1 md).
Qed.

Lemma set_md_queries self role md md' rs :
  role_md self role = Some md -> named md role = true ->
  role_name md' = role_name md -> role_idx md' = role_idx md ->
  to_map rs = <[to_key role := md']> (to_map (roles self)) ->
  let self' := mkRoleStore rs (members self) in
  (forall r, enabled self' r = if decide (r = role) then is_enabled md' else enabled self r) /\
  (forall a r, granted self' a r = granted self a r).
Proof.
  intros Hmd Hnamed Hn Hidx Hmap self'.
  assert (Hnamed' : forall r, named md' r = named md r) by (intros r; unfold named, name; by rewrite Hn).
  unfold enabled, granted, role_md, member in *. subst self'. simpl. rewrite Hmap. split.
  - intros r. rewrite lookup_insert. case_decide as Hk.
    + rewrite Hnamed', (named_functional md role) by done. rewrite <- Hk, Hmd.
      rewrite (named_functional md role r) by done. by destruct (decide (r = role)) as [->|];
        [rewrite bool_decide_true|rewrite bool_decide_false].
    + rewrite decide_False; [done|]. by intros ->.
  - intros a r. rewrite lookup_insert. case_decide as Hk; [|done].
    rewrite <- Hk, Hmd. by rewrite Hnamed', Hidx.
Qed.

(** A role that is enabled for the first time: its index is new, so nobody holds it. *)
Lemma add_md_wf self role md rs :
  RolesWf self -> role_md self role = None -> FixedMap.Wf MAX_ROLES rs ->
  role_idx md = Z.of_nat (len (roles self)) -> length (role_name md) = MAX_ROLE_NAME_LEN ->
  to_map rs = <[to_key role := md]> (to_map (roles self)) -> len rs = S (len (roles self)) ->
  RolesWf (mkRoleStore rs (members self)).
Proof.
  intros [Hr Hm Hi Hname Hd Hb Hne] Hmd Hwf Hidx Hn Hmap Hlen. unfold role_md in Hmd.
  constructor; simpl; [done|done| | | | |done].
  - intros k md0. rewrite Hmap, lookup_insert, Hlen. case_decide as Hk; [intros [= <-]; lia|].
    intros H0%Hi. lia.
  - intros k md0. rewrite Hmap, lookup_insert. case_decide; [by intros [= <-]|apply Hname].
  - intros k k' md1 md2. rewrite Hmap, !lookup_insert. case_decide; case_decide; subst; try done.
    + intros [= <-] H2%Hi. lia.
    + intros H1%Hi [= <-]. lia.
    + apply Hd.
  - intros a v i Ha Hin. eapply Hb; [exact Ha|]. lia.
Qed.

Lemma add_md_queries self role md rs :
  RolesWf self -> role_md self role = None -> valid_name role ->
  role_idx md = Z.of_nat (len (roles self)) -> is_enabled md = true ->
  (forall r, named md r = bool_decide (r = role) && storable role) ->
  to_map rs = <[to_key role := md]> (to_map (roles self)) -> (len (roles self) < MAX_ROLES)%nat ->
  let self' := mkRoleStore rs (members self) in
  (forall r, enabled self' r = if decide (r = role) then storable role else enabled self r) /\
  (forall a r, granted self' a r = granted self a r).
Proof.
  intros Hwf Hmd Hname Hidx Hen Hnamed Hmap Hlen self'.
  unfold enabled, granted, role_md, member in *. subst self'. simpl. rewrite Hmap. split.
  - intros r. rewrite lookup_insert. case_decide as Hk.
    + rewrite Hnamed, Hen, andb_true_r, <- Hk, Hmd. by destruct (decide (r = role)) as [->|];
        [rewrite bool_decide_true|rewrite bool_decide_false].
    + rewrite decide_False; [done|]. by intros ->.
  - intros a r. rewrite lookup_insert. case_decide as Hk; [|done]. rewrite <- Hk, Hmd.
    destruct (to_map (members self) !! a) as [v|] eqn:Ha; [|done].
    unfold bit. rewrite (rw_bits _ Hwf _ _ _ Ha); [by rewrite andb_false_r|]. lia.
Qed.

Lemma enable_role_ok role self self' :
  RolesWf self -> valid_name role -> enable_role role self = (self', Ok tt) ->
  RolesWf self' /\
  (forall r, enabled self' r = if decide (r = role) then storable role else enabled self r) /\
  (forall a r, granted self' a r = granted self a r).
Proof.
  intros Hwf Hname He. unfold enable_role in He. pose proof (get_mut_role self role Hwf) as Hg.
  destruct (role_md self role) as [md|] eqn:Hmd.
  - destruct Hg as (p & Hp & Hread & Hw). unfold sbind at 1 in He. rewrite Hp in He.
    unfold sbind at 1 in He. rewrite Hread in He.
    apply sbind_ok in He as (s1 & [] & [-> Hn%check_name_ok]%slift_ok & He).
    apply sbind_ok in He as (s1 & md' & [-> Hd]%slift_ok & He).
    apply rbind_ok in Hd as (u & _ & [= <-]). destruct (Hw (set_enable md)) as (rs & Hw' & H1 & H2 & H3).
    rewrite Hw' in He. injection He as <-. split; [by apply (set_md_wf self role md (set_enable md) rs)|].
    destruct (set_md_queries self role md (set_enable md) rs) as [Hen Hgr]; try done.
    split; [|done]. intros r. rewrite Hen. case_decide; [|done].
    rewrite (named_storable md role); [done| |done]. by apply (rw_name _ Hwf (to_key role)).
  - unfold sbind at 1 in He. rewrite Hg in He.
    apply sbind_ok in He as (s1 & i & [-> Hi%ok_or_ok]%sread_ok & He).
    apply sbind_ok in He as (s1 & md & [-> Hnew]%slift_ok & He).
    apply sbind_ok in He as (s1 & o & Hins & [-> _]%sret_ok).
    apply szoom_ok in Hins as (rs & Hins & ->).
    apply (insert_new_ok to_key MAX_ROLES) in Hins as (_ & H1 & _ & H2 & H3); [|apply Hwf].
    assert (Hidx : i = Z.of_nat (len (roles self)))
      by (unfold len_to_u8 in Hi; destruct (_ <? _); [congruence|done]). subst i.
    destruct (new_role_ok role _ md Hname Hnew) as (Hidx & Hen & Hl & Hnamed).
    split; [by eapply add_md_wf|]. eapply add_md_queries; try done.
    pose proof (wf_count _ _ H1). unfold len in *. lia.
Qed.

Lemma disable_role_ok role self self' :
  RolesWf self -> disable_role role self = (self', Ok tt) ->
  RolesWf self' /\
  (forall r, enabled self' r = if decide (r = role) then false else enabled self r) /\
  (forall a r, granted self' a r = granted self a r).
Proof.
  intros Hwf He. unfold disable_role in He. pose proof (get_mut_role self role Hwf) as Hg.
  destruct (role_md self role) as [md|] eqn:Hmd.
  - destruct Hg as (p & Hp & Hread & Hw). unfold sbind at 1 in He. rewrite Hp in He.
    unfold sbind at 1 in He. rewrite Hread in He.
    apply sbind_ok in He as (s1 & [] & [-> Hn%check_name_ok]%slift_ok & He).
    apply sbind_ok in He as (s1 & md' & [-> Hd]%slift_ok & He).
    apply rbind_ok in Hd as (u & _ & [= <-]). destruct (Hw (set_disable md)) as (rs & Hw' & H1 & H2 & H3).
    rewrite Hw' in He. injection He as <-. split; [by apply (set_md_wf self role md (set_disable md) rs)|].
    by destruct (set_md_queries self role md (set_disable md) rs) as [Hen Hgr].
  - unfold sbind at 1 in He. rewrite Hg in He. apply sret_ok in He as [-> _].
    split_and!; [done| |done]. intros r. case_decide as Hr; [|done]. subst r.
    unfold enabled. by rewrite Hmd.
Qed.

(** ** Grants *)

Lemma role_index_ok role self self' o :
  RolesWf self -> role_index role self = (self', Ok (Some o)) ->
  self' = self /\ exists md, role_md self role = Some md /\ named md role = true /\ role_idx md = o.
Proof.
  intros Hwf Hr. unfold role_index, sbind at 1 in Hr. rewrite get_role in Hr by done.
  destruct (role_md self role) as [md|]; [|by apply sret_ok in Hr as [_ ?]].
  apply sbind_ok in Hr as (s1 & [] & [-> Hn%check_name_ok]%slift_ok & [-> [= ->]]%sret_ok). eauto.
Qed.

Lemma enabled_role_index_ok role self self' o :
  RolesWf self -> enabled_role_index role self = (self', Ok (Some o)) ->
  self' = self /\ exists md, role_md self role = Some md /\ named md role = true /\
    is_enabled md = true /\ role_idx md = o.
Proof.
  intros Hwf Hr. unfold enabled_role_index, sbind at 1 in Hr. rewrite get_role in Hr by done.
  destruct (role_md self role) as [md|]; [|by apply sret_ok in Hr as [_ ?]].
  apply sbind_ok in Hr as (s1 & [] & [-> Hn%check_name_ok]%slift_ok & Hr).
  apply sbind_ok in Hr as (s1 & [] & [-> He%require_ok]%slift_ok & [-> [= ->]]%sret_ok).
  split; [done|]. by exists md.
Qed.

Lemma idx_bound self role md :
  RolesWf self -> role_md self role = Some md ->
  (Z.to_nat (role_idx md) < len (roles self) <= MAX_ROLES)%nat.
Proof.
  intros Hwf Hmd. pose proof (rw_index _ Hwf _ _ Hmd). pose proof (len_le_max self Hwf). lia.
Qed.

Lemma idx_distinct self r r' md md' :
  RolesWf self -> role_md self r = Some md -> role_md self r' = Some md' ->
  named md r = true -> named md' r' = true -> r <> r' ->
  Z.to_nat (role_idx md) <> Z.to_nat (role_idx md').
Proof.
  intros Hwf Hmd Hmd' Hn Hn' Hne He. unfold role_md in *.
  pose proof (rw_index _ Hwf _ _ Hmd). pose proof (rw_index _ Hwf _ _ Hmd').
  assert (Hk : to_key r = to_key r') by (eapply (rw_distinct _ Hwf); [done|done|lia]).
  rewrite Hk in Hmd. assert (md' = md) as -> by congruence.
  rewrite (named_functional md r r') in Hn' by done. apply bool_decide_eq_true_1 in Hn'. congruence.
Qed.

Lemma not_empty b i : bitmap_get b i = true -> bitmap_is_empty b = false.
Proof.
  intros Hb. destruct (bitmap_is_empty b) eqn:He; [|done]. by rewrite is_empty_get in Hb.
Qed.

(** The bitmap of a member changes in the bit of one role. *)
Lemma set_bit_granted self a role md b v ms :
  RolesWf self -> role_md self role = Some md -> named md role = true ->
  (forall i, (i < MAX_ROLES)%nat ->
    bitmap_get b i = match member self a with Some v => bitmap_get (from_value v) i | None => false end) ->
  (forall a', to_map ms !! a' =
    if decide (a' = a) then Some (into_value (bitmap_set b (Z.to_nat (role_idx md)) v))
    else member self a') ->
  forall a' r', granted (mkRoleStore (roles self) ms) a' r' =
    if decide (a' = a /\ r' = role) then v else granted self a' r'.
Proof.
  intros Hwf Hmd Hn Hb Hms a' r'. unfold granted, role_md, member in *. simpl. rewrite Hms.
  destruct (decide (a' = a)) as [->|Ha]; [|by rewrite decide_False by (by intros [? _])].
  destruct (to_map (roles self) !! to_key r') as [md'|] eqn:Hmd'.
  2: { rewrite decide_False; [done|]. intros [_ ->]. congruence. }
  pose proof (idx_bound self role md Hwf Hmd). pose proof (idx_bound self r' md' Hwf Hmd').
  unfold bit. rewrite from_into, get_set by lia. rewrite Hb by lia. destruct (decide (r' = role)) as [->|Hr].
  - rewrite (decide_True (P:=_ /\ _)) by done. assert (md' = md) as -> by congruence.
    by rewrite Hn, decide_True.
  - rewrite (decide_False (P:=_ /\ _)) by (by intros [_ ?]).
    destruct (named md' r') eqn:Hn'; [|by destruct (to_map (members self) !! a)].
    rewrite decide_False by (by eapply not_eq_sym, (idx_distinct self r' role md' md)).
    by destruct (to_map (members self) !! a).
Qed.

Lemma set_bit_wf self a role md b v ms :
  RolesWf self -> role_md self role = Some md ->
  (forall i, (i < MAX_ROLES)%nat ->
    bitmap_get b i = match member self a with Some v => bitmap_get (from_value v) i | None => false end) ->
  FixedMap.Wf MAX_MEMBERS ms ->
  (forall a' v', to_map ms !! a' = Some v' -> a' <> a -> member self a' = Some v') ->
  (forall v', to_map ms !! a = Some v' ->
    v' = into_value (bitmap_set b (Z.to_nat (role_idx md)) v) /\
    bitmap_is_empty (from_value v') = false) ->
  RolesWf (mkRoleStore (roles self) ms).
Proof.
  intros Hwf Hmd Hb Hms Hother Ha. pose proof (idx_bound self role md Hwf Hmd) as Hidx.
  destruct Hwf as [H1 H2 H3 H4 H5 H6 H7]. unfold member in *. constructor; try done; simpl.
  - intros a' v' i Hv' Hi. destruct (decide (a' = a)) as [->|Hne]; [|by eauto].
    destruct (Ha v' Hv') as [-> _]. rewrite from_into, get_set, decide_False, Hb by lia.
    destruct (to_map (members self) !! a) eqn:Hm; [by eauto|done].
  - intros a' v' Hv'. destruct (decide (a' = a)) as [->|Hne]; [by apply Ha|by eauto].
Qed.

(** Storing the changed bitmap of a member who keeps a role. *)
Lemma set_member_ok self a role md b v ms :
  RolesWf self -> role_md self role = Some md -> named md role = true ->
  (forall i, (i < MAX_ROLES)%nat ->
    bitmap_get b i = match member self a with Some v => bitmap_get (from_value v) i | None => false end) ->
  let b' := bitmap_set b (Z.to_nat (role_idx md)) v in
  FixedMap.Wf MAX_MEMBERS ms -> to_map ms = <[a := into_value b']> (to_map (members self)) ->
  (bitmap_is_empty b' = false -> RolesWf (mkRoleStore (roles self) ms)) /\
  forall a' r', granted (mkRoleStore (roles self) ms) a' r' =
    if decide (a' = a /\ r' = role) then v else granted self a' r'.
Proof.
  intros Hwf Hmd Hn Hb b' Hms Hmap. split.
  - intros Hne. eapply (set_bit_wf self a role md b v); try done.
    + intros a' v' Hv' Ha. by rewrite Hmap, lookup_insert_ne in Hv'.
    + intros v'. rewrite Hmap, lookup_insert_eq. intros [= <-]. by rewrite from_into.
  - apply (set_bit_granted self a role md b); try done.
    intros a'. rewrite Hmap, lookup_insert. by repeat case_decide.
Qed.

Lemma grant_ok a role self self' :
  RolesWf self -> grant a role self = (self', Ok tt) ->
  RolesWf self' /\ (forall r, enabled self' r = enabled self r) /\
  (forall a' r', granted self' a' r' = if decide (a' = a /\ r' = role) then true else granted self a' r').
Proof.
  intros Hwf Hg. unfold grant in Hg. apply sbind_ok in Hg as (s1 & [i|] & Hi & Hg); [|done].
  apply enabled_role_index_ok in Hi as (-> & md & Hmd & Hn & Hen & <-); [|done].
  pose proof (idx_bound self role md Hwf Hmd) as Hidx.
  assert (Hne : forall b, bitmap_is_empty (bitmap_set b (Z.to_nat (role_idx md)) true) = false).
  { intros b. apply (not_empty _ (Z.to_nat (role_idx md))). by rewrite get_set, decide_True by lia. }
  pose proof (get_mut_member self a Hwf) as Hm. destruct (member self a) as [v|] eqn:Hv.
  - destruct Hm as (p & Hp & Hread & Hw). unfold sbind at 1 in Hg. rewrite Hp in Hg.
    unfold sbind at 1 in Hg. rewrite Hread in Hg.
    apply sbind_ok in Hg as (s1 & [] & [-> Hreq]%slift_ok & Hg).
    destruct (Hw (into_value (bitmap_set (from_value v) (Z.to_nat (role_idx md)) true)))
      as (ms & Hw' & H1 & H2). rewrite Hw' in Hg. injection Hg as <-.
    destruct (set_member_ok self a role md (from_value v) true ms) as [Hwf' Hgr]; try done;
      [by rewrite Hv|]. split_and!; [by apply Hwf'|done|done].
  - unfold sbind at 1 in Hg. rewrite Hm in Hg.
    apply sbind_ok in Hg as (s1 & o & Hins & [-> _]%sret_ok).
    apply szoom_ok in Hins as (ms & Hins & ->).
    apply (insert_new_ok pubkey_to_bytes MAX_MEMBERS) in Hins as (_ & H1 & _ & H2 & _); [|apply Hwf].
    destruct (set_member_ok self a role md bitmap_new true ms) as [Hwf' Hgr]; try done;
      [rewrite Hv; intros j _; apply get_new|]. split_and!; [by apply Hwf'|done|done].
Qed.

(** A member without a role is removed. *)
Lemma drop_member_ok self a role md v ms :
  RolesWf self -> role_md self role = Some md -> named md role = true -> member self a = Some v ->
  let b' := bitmap_set (from_value v) (Z.to_nat (role_idx md)) false in
  FixedMap.Wf MAX_MEMBERS ms -> bitmap_is_empty b' = true ->
  to_map ms = delete a (to_map (members self)) ->
  RolesWf (mkRoleStore (roles self) ms) /\
  forall a' r', granted (mkRoleStore (roles self) ms) a' r' =
    if decide (a' = a /\ r' = role) then false else granted self a' r'.
Proof.
  intros Hwf Hmd Hn Hv b' Hms Hempty Hmap. split.
  - eapply (set_bit_wf self a role md (from_value v) false); try done; [by rewrite Hv| |].
    + intros a' v' Hv' Ha. by rewrite Hmap, lookup_delete_ne in Hv'.
    + intros v'. by rewrite Hmap, lookup_delete_eq.
  - intros a' r'. unfold granted, role_md, member in *. simpl. rewrite Hmap, lookup_delete.
    destruct (to_map (roles self) !! to_key r') as [md'|] eqn:Hmd'; [|by repeat case_decide].
    destruct (decide (a = a')) as [<-|Ha]; [|by rewrite (decide_False (P:=_ /\ _)) by naive_solver].
    rewrite Hv. case_decide as Hd; [done|]. destruct (named md' r') eqn:Hn'; [|done]. simpl.
    pose proof (idx_bound self role md Hwf Hmd). pose proof (idx_bound self r' md' Hwf Hmd').
    pose proof (is_empty_get b' (Z.to_nat (role_idx md')) Hempty) as Hbit. subst b'.
    assert (Hne : Z.to_nat (role_idx md) <> Z.to_nat (role_idx md'))
      by (apply (idx_distinct self role r' md md'); try done; intros ->; by apply Hd).
    by rewrite get_set, decide_False in Hbit by (done || lia).
Qed.

Lemma revoke_ok a role self self' :
  RolesWf self -> revoke a role self = (self', Ok tt) ->
  RolesWf self' /\ (forall r, enabled self' r = enabled self r) /\
  (forall a' r', granted self' a' r' = if decide (a' = a /\ r' = role) then false else granted self a' r').
Proof.
  intros Hwf Hg. unfold revoke in Hg. apply sbind_ok in Hg as (s1 & [i|] & Hi & Hg); [|done].
  apply role_index_ok in Hi as (-> & md & Hmd & Hn & <-); [|done].
  pose proof (idx_bound self role md Hwf Hmd) as Hidx.
  pose proof (get_mut_member self a Hwf) as Hm. destruct (member self a) as [v|] eqn:Hv.
  2: { unfold sbind at 1 in Hg. by rewrite Hm in Hg. }
  destruct Hm as (p & Hp & Hread & Hw). unfold sbind at 1 in Hg. rewrite Hp in Hg.
  unfold sbind at 1 in Hg. rewrite Hread in Hg.
  apply sbind_ok in Hg as (s1 & [] & [-> Hreq]%slift_ok & Hg).
  set (b' := bitmap_set (from_value v) (Z.to_nat (role_idx md)) false) in *.
  destruct (Hw (into_value b')) as (ms & Hw' & H1 & H2).
  unfold sbind at 1 in Hg. rewrite Hw' in Hg. destruct (bitmap_is_empty b') eqn:Hempty.
  - apply sbind_ok in Hg as (s1 & o & Hrem & [-> _]%sret_ok).
    apply szoom_ok in Hrem as (ms' & Hrem & ->). simpl in *.
    apply (remove_ok pubkey_to_bytes 0 MAX_MEMBERS) in Hrem as (H3 & _ & H4); [|done].
    destruct (drop_member_ok self a role md v ms') as [Hwf' Hgr]; try done.
    by rewrite H4, H2, delete_insert_eq.
  - apply sret_ok in Hg as [-> _].
    destruct (set_member_ok self a role md (from_value v) false ms) as [Hwf' Hgr]; try done;
      [by rewrite Hv|]. split_and!; [by apply Hwf'|done|done].
Qed.

(** ** Runs of the store *)

Inductive RoleOp : Type :=
| EnableRole (role : bytes)
| DisableRole (role : bytes)
| Grant (authority : Pubkey) (role : bytes)
| Revoke (authority : Pubkey) (role : bytes).

Definition role_op (op : RoleOp) : RS unit :=
  match op with
  | EnableRole role => enable_role role
  | DisableRole role => disable_role role
  | Grant a role => grant a role
  | Revoke a role => revoke a role
  end.

Definition op_role (op : RoleOp) : bytes :=
  match op with EnableRole r | DisableRole r | Grant _ r | Revoke _ r => r end.

(** The stores that successful operations reach, with the operations, the last one first. A
    failing operation fails its transaction, which leaves the store as it was. *)
Inductive Reaches : list RoleOp -> RoleStore -> Prop :=
| ReachesInit : Reaches [] zeroed_store
| ReachesStep ops self op self' :
    Reaches ops self -> valid_name (op_role op) -> role_op op self = (self', Ok tt) ->
    Reaches (op :: ops) self'.

Lemma run_reaches ops self :
  Forall (fun op => valid_name (op_role op)) ops ->
  sfor_each role_op (rev ops) zeroed_store = (self, Ok tt) -> Reaches ops self.
Proof.
  revert self. induction ops as [|op ops IH]; intros self Hops Hrun; simpl in Hrun.
  { apply sret_ok in Hrun as [-> _]. constructor. }
  inversion_clear Hops. rewrite sfor_each_app in Hrun.
  apply sbind_ok in Hrun as (s1 & [] & H1 & Hrun). simpl in Hrun.
  apply sbind_ok in Hrun as (s2 & [] & H2 & [-> _]%sret_ok). econstructor; eauto.
Qed.

(** The specification reads the history: the last operation on a role or a grant decides. *)
Fixpoint history_enabled (ops : list RoleOp) (r : bytes) : bool :=
  match ops with
  | [] => false
  | EnableRole r' :: ops => if decide (r = r') then storable r' else history_enabled ops r
  | DisableRole r' :: ops => if decide (r = r') then false else history_enabled ops r
  | _ :: ops => history_enabled ops r
  end.

Fixpoint history_granted (ops : list RoleOp) (a : Pubkey) (r : bytes) : bool :=
  match ops with
  | [] => false
  | Grant a' r' :: ops => if decide (a = a' /\ r = r') then true else history_granted ops a r
  | Revoke a' r' :: ops => if decide (a = a' /\ r = r') then false else history_granted ops a r
  | _ :: ops => history_granted ops a r
  end.

Lemma reaches_spec ops self :
  Reaches ops self ->
  RolesWf self /\ (forall r, enabled self r = history_enabled ops r) /\
  (forall a r, granted self a r = history_granted ops a r).
Proof.
  induction 1 as [|ops self op self' _ (Hwf & He & Hg) Hname Hop].
  - split; [apply zeroed_store_wf|]. by split.
  - destruct op as [role|role|a role|a role]; simpl in Hop, Hname |- *.
    + destruct (enable_role_ok role self self' Hwf Hname Hop) as (Hwf' & He' & Hg').
      split; [done|]. split; intros; by rewrite ?He', ?Hg', ?He, ?Hg.
    + destruct (disable_role_ok role self self' Hwf Hop) as (Hwf' & He' & Hg').
      split; [done|]. split; intros; by rewrite ?He', ?Hg', ?He, ?Hg.
    + destruct (grant_ok a role self self' Hwf Hop) as (Hwf' & He' & Hg').
      split; [done|]. split; intros; by rewrite ?He', ?Hg', ?He, ?Hg.
    + destruct (revoke_ok a role self self' Hwf Hop) as (Hwf' & He' & Hg').
      split; [done|]. split; intros; by rewrite ?He', ?Hg', ?He, ?Hg.
Qed.

(** The queries read the store only, and answer yes exactly for an enabled role that is
    granted. *)
Lemma has_role_spec a role self :
  RolesWf self ->
  fst (has_role a role self) = self /\ panics (snd (has_role a role self)) = false /\
  (snd (has_role a role self) = Ok true <-> enabled self role = true /\ granted self a role = true).
Proof.
  intros Hwf. unfold has_role, sbind. rewrite get_member by done.
  unfold enabled, granted.
  destruct (member self a) as [v|].
  2: { split; [done|split; [done|]]. split; [done|]. intros [_ ?]. by destruct (role_md self role). }
  unfold enabled_role_index, sbind. rewrite get_role by done.
  destruct (role_md self role) as [md|]; [|split; [done|split; [done|]]; split; [done|by intros [? ?]]].
  unfold slift, check_name, named, name, bytes_to_fixed_str, require, rbind, sret, bit.
  destruct (position_of_zero _); [|split; [done|split; [done|]]; split; [done|by intros [? ?]]].
  destruct (utf8_valid _); [|split; [done|split; [done|]]; split; [done|by intros [? ?]]].
  destruct (bool_decide _); [|split; [done|split; [done|]]; split; [done|by intros [? ?]]].
  destruct (is_enabled md); [|split; [done|split; [done|]]; split; [done|by intros [? ?]]].
  split; [done|split; [done|]]. simpl. split; [intros [= ->]; done|]. by intros [_ ->].
Qed.

(** C23: In every state of the role store that operations reach, whatever the hash of names
    does, [has_role] answers yes exactly when the last successful operation on the role enabled
    it and the last one on the pair of member and role granted it: no operation affects another
    role or another member, a role keeps its grants while it is disabled, and enabling a new
    role gives it to nobody. *)
Theorem roles_reachable (ops : list RoleOp) (self : RoleStore) (a : Pubkey) (role : bytes) :
  Reaches ops self ->
  snd (has_role a role self) = Ok true <->
  history_enabled ops role = true /\ history_granted ops a role = true.
Proof.
  intros (Hwf & He & Hg)%reaches_spec. rewrite <- He, <- Hg. by apply has_role_spec.
Qed.

(** A name of exactly [MAX_ROLE_NAME_LEN] bytes is accepted by [enable_role], which takes one
    of the places for it, but as it leaves no room for the zero byte that ends a name, no
    operation accepts the role afterwards: it cannot be granted, disabled or enabled. *)
Lemma longest_name_unusable self self' role authority :
  RolesWf self -> valid_name role -> length role = MAX_ROLE_NAME_LEN ->
  enable_role role self = (self', Ok tt) ->
  len (roles self') = S (len (roles self)) /\
  snd (grant authority role self') = Err (Core CoreError.InvalidArgument) /\
  snd (enable_role role self') = Err (Core CoreError.InvalidArgument) /\
  snd (disable_role role self') = Err (Core CoreError.InvalidArgument).
Proof.
  intros Hwf Hname Hlen He. destruct (enable_role_ok role self self' Hwf Hname He) as (Hwf' & _).
  unfold enable_role in He. pose proof (get_mut_role self role Hwf) as Hg.
  destruct (role_md self role) as [md|] eqn:Hmd.
  { destruct Hg as (p & Hp & Hread & _). unfold sbind at 1 in He. rewrite Hp in He.
    unfold sbind at 1 in He. rewrite Hread in He.
    apply sbind_ok in He as (s1 & [] & [_ Hn%check_name_ok]%slift_ok & _).
    apply named_storable in Hn; [|by apply (rw_name _ Hwf (to_key role))].
    apply Nat.ltb_lt in Hn. lia. }
  unfold sbind at 1 in He. rewrite Hg in He.
  apply sbind_ok in He as (s1 & i & [-> Hi%ok_or_ok]%sread_ok & He).
  apply sbind_ok in He as (s1 & md & [-> Hnew]%slift_ok & He).
  apply sbind_ok in He as (s1 & o & Hins & [-> _]%sret_ok).
  apply szoom_ok in Hins as (rs & Hins & ->).
  apply (insert_new_ok to_key MAX_ROLES) in Hins as (_ & H1 & _ & H2 & H3); [|apply Hwf].
  split; [done|].
  assert (Hchk : check_name md role = Err (Core CoreError.InvalidArgument)).
  { unfold new_role, fixed_str_to_bytes in Hnew. rewrite Hlen, Nat.leb_refl in Hnew.
    unfold require, rbind in Hnew. injection Hnew as <-.
    unfold check_name, name, bytes_to_fixed_str. cbn [role_name].
    pose proof (position_of_zero_app role 0 (proj2 Hname)) as Hz. simpl in Hz |- *.
    by rewrite Hz. }
  pose proof (get_mut_role _ role Hwf') as Hg'. pose proof (get_role _ role Hwf') as Hget.
  replace (role_md _ role) with (Some md) in Hg', Hget
    by (unfold role_md; simpl; by rewrite H2, lookup_insert_eq).
  destruct Hg' as (p & Hp & Hread & _). unfold grant, enabled_role_index, enable_role, disable_role.
  unfold sbind. rewrite Hp, Hread, Hget, Hchk. by split_and!.
Qed.
End Roles.

(** ** Examples

    Bitmaps are the bits of a number, and the hash of the examples is the first byte. *)
#[local] Existing Instance z_bitmap.
#[local] Existing Instance z_bitmap_laws.

Definition key_example (name : bytes) : Z := default 0 (head name).

Definition run_roles (ops : list RoleOp) : RoleStore * store_result unit :=
  sfor_each (role_op key_example) ops zeroed_store.

(** The life of two roles, from the tests of the file. *)
Definition history_example : list RoleOp :=
  [Revoke 9 [71]; Grant 9 [77]; Grant 9 [71]; EnableRole [77]; EnableRole [71]].

Definition store_example : RoleStore := fst (run_roles (rev history_example)).

Lemma store_example_reached : Reaches key_example history_example store_example.
Proof.
  apply run_reaches; [|vm_compute; reflexivity].
  repeat constructor; by intros ?%list_elem_of_singleton.
Qed.

Example roles_reachable_witness :
  Reaches key_example history_example store_example /\
  snd (has_role key_example 9 [77] store_example) = Ok true /\
  history_granted history_example 9 [71] = false.
Proof.
  split; [exact store_example_reached|]. split; [|reflexivity].
  apply (roles_reachable key_example history_example store_example 9 [77]);
    [exact store_example_reached|split; reflexivity].
Defined.

(** The limit of the members: revoking the last role of a member of a full store panics
    ([FixedMap.remove_from_full_panics]); every member takes one of the 64 places. *)
Definition crowd : list RoleOp :=
  EnableRole [71] :: map (fun a => Grant (Z.of_nat a) [71]) (seq 0 64).

Example revoke_from_crowd_panics :
  let self := fst (run_roles crowd) in
  num_members self = 64%nat /\ snd (run_roles crowd) = Ok tt /\
  snd (revoke key_example 9 [71] self) = Panic out_of_bounds.
Proof. vm_compute. by split_and!. Qed.
