(* ===== verification/Decimal.v ===== *)
(** * Decimal prices

    The prices that are stored, [gmsol-utils/src/price]: a [Decimal] is a [u32] with a
    power of ten that turns it into the price of the smallest unit of a token, with
    [MAX_DECIMALS] decimals. [try_from_price] makes one from the price of a whole token given
    with any number of decimals ([try_from_price_spec]).

    The program is compiled with overflow checks ([overflow-checks] of [Cargo.toml]): an
    arithmetic operation without a checked variant panics on overflow ([arith]). A cast to a
    narrower integer keeps the low bits. *)
From stdpp Require Import sorting.
From S2P Require Import Prelude.
From S2P Require Import Kinds.
From S2P Require Import Num.
From S2P Require Import FixedMap.
#[local] Open Scope Z_scope.

Definition u8 : UInt := {| BITS := 8 |}.
#[export] Instance u8_ok : UIntOk u8.
Proof. split; simpl; lia. Qed.
Definition u32 : UInt := {| BITS := 32 |}.
#[export] Instance u32_ok : UIntOk u32.
Proof. split; simpl; lia. Qed.
Definition u192 : UInt := {| BITS := 192 |}.
#[export] Instance u192_ok : UIntOk u192.
Proof. split; simpl; lia. Qed.

(** [10u128.pow(exp)]. *)
Definition pow10 (exp : Z) : option Z := @try_u u128 (10 ^ exp).

(** ** [Decimal] *)

Record Decimal : Type := mkDecimal { value : Z; decimal_multiplier : Z }.

#[export] Instance Decimal_eq_dec : EqDecision Decimal.
Proof. solve_decision. Defined.

Inductive DecimalError : Type :=
| ExceedMaxDecimals
| ExceedMaxDecimalMultiplier
| DecimalOverflow.

Definition MAX_DECIMALS : Z := 20.
Definition MAX_DECIMAL_MULTIPLIER : Z := 20.

Section Arith.
Context {E : Type}.

(** An operation that panics on overflow. *)
Definition arith (o : option Z) : Result E Z := expect o "arithmetic overflow".

Definition to_unit_price (self : Decimal) : Result E Z :=
  let! p := arith (pow10 (decimal_multiplier self)) in
  arith (@umul u128 (value self) p).

Definition decimal_multiplier_from_precision (decimals precision : Z) : Result E Z :=
  let! a := arith (@usub u8 MAX_DECIMALS decimals) in
  arith (@usub u8 a precision).
End Arith.

Definition maximum (self : Decimal) : Decimal := mkDecimal (@u_max u32) (decimal_multiplier self).

Abbreviation dec A := (Result DecimalError A).

(** The first half of [try_from_price]: a price with fewer decimals than the token is scaled
    up to those of the token, one with more is left, with the excess as the exponent to divide
    by. *)
Definition to_token_decimals (price decimals token_decimals : Z) : dec (Z * option Z) :=
  match decimals ?= token_decimals with
  | Eq => Ok (price, None)
  | Lt =>
      let! e := arith (@usub u8 token_decimals decimals) in
      let! multiplier := arith (pow10 e) in
      let! price := ok_or (@umul u128 price multiplier) DecimalOverflow in
      Ok (price, None)
  | Gt => let! e := arith (@usub u8 decimals token_decimals) in Ok (price, Some e)
  end.

(** The second half: from there to the units that are stored, [multiplier] of the
    [MAX_DECIMALS] decimals being those of the token twice and the decimal multiplier. *)
Definition to_stored_units (price : Z) (divisor_exp : option Z) (multiplier : Z) : dec Z :=
  if multiplier <=? MAX_DECIMALS then
    let! exp := arith (@usub u8 MAX_DECIMALS multiplier) in
    match divisor_exp with
    | Some divisor_exp =>
        if divisor_exp <=? exp then
          let! exp := arith (@usub u8 exp divisor_exp) in
          let! p := arith (pow10 exp) in
          ok_or (@umul u128 price p) DecimalOverflow
        else
          let! exp := arith (@usub u8 divisor_exp exp) in
          let! p := arith (pow10 exp) in
          Ok (price / p)
    | None =>
        let! p := arith (pow10 exp) in
        ok_or (@umul u128 price p) DecimalOverflow
    end
  else
    let! e := arith (@usub u8 multiplier MAX_DECIMALS) in
    let! p := arith (pow10 e) in
    let ans := price / p in
    match divisor_exp with
    | Some exp => let! p := arith (pow10 exp) in Ok (ans / p)
    | None => Ok ans
    end.

Definition try_from_price (price decimals token_decimals precision : Z) : dec Decimal :=
  if (MAX_DECIMALS <? token_decimals) || (MAX_DECIMALS <? precision) || (MAX_DECIMALS <? decimals)
  then Err ExceedMaxDecimals
  else
    let! sum := arith (@uadd u8 token_decimals precision) in
    if MAX_DECIMALS <? sum then Err ExceedMaxDecimals
    else
      let! (price, divisor_exp) := to_token_decimals price decimals token_decimals in
      let! decimal_multiplier := decimal_multiplier_from_precision token_decimals precision in
      let! multiplier :=
        arith (@uadd u8 (Z.shiftl token_decimals 1 mod 2 ^ 8) decimal_multiplier) in
      let! value := to_stored_units price divisor_exp multiplier in
      Ok (mkDecimal (value mod 2 ^ 32) decimal_multiplier).

(** ** [U192] prices *)

Definition TEN : Z := 10.

(** [from_limbs]: three words of 64 bits, the low one first. *)
Definition from_limbs (l0 l1 l2 : Z) : Z := l0 + l1 * 2 ^ 64 + l2 * 2 ^ 128.

Definition get_power_bounds : list Z :=
  [ from_limbs 18446744073709551615 18446744073709551615 0;
    from_limbs 18446744073709551606 18446744073709551615 9;
    from_limbs 18446744073709551516 18446744073709551615 99;
    from_limbs 18446744073709550616 18446744073709551615 999;
    from_limbs 18446744073709541616 18446744073709551615 9999;
    from_limbs 18446744073709451616 18446744073709551615 99999;
    from_limbs 18446744073708551616 18446744073709551615 999999;
    from_limbs 18446744073699551616 18446744073709551615 9999999;
    from_limbs 18446744073609551616 18446744073709551615 99999999;
    from_limbs 18446744072709551616 18446744073709551615 999999999;
    from_limbs 18446744063709551616 18446744073709551615 9999999999;
    from_limbs 18446743973709551616 18446744073709551615 99999999999;
    from_limbs 18446743073709551616 18446744073709551615 999999999999;
    from_limbs 18446734073709551616 18446744073709551615 9999999999999;
    from_limbs 18446644073709551616 18446744073709551615 99999999999999;
    from_limbs 18445744073709551616 18446744073709551615 999999999999999;
    from_limbs 18436744073709551616 18446744073709551615 9999999999999999;
    from_limbs 18346744073709551616 18446744073709551615 99999999999999999;
    from_limbs 17446744073709551616 18446744073709551615 999999999999999999;
    from_limbs 8446744073709551616 18446744073709551615 9999999999999999999 ].

(** [binary_search] of a slice of numbers is the search among entries without a value. *)
Definition binary_search_numbers (l : list Z) (n : Z) : Result nat nat :=
  slice_binary_search (map (fun b => mkEntry b tt) l) n.

Definition find_divisor_decimals (num : Z) : Z :=
  match binary_search_numbers get_power_bounds num with
  | Ok idx | Err idx => Z.of_nat idx mod 2 ^ 8
  | Panic _ => 0
  end.

(** [None] when the divisor has more decimals than the number; [try_into().unwrap()] panics
    when the quotient does not fit. *)
Definition convert_to_u128_storage {E} (num decimals : Z) : Result E (option (Z * Z)) :=
  let divisor_decimals := find_divisor_decimals num in
  if decimals <? divisor_decimals then Ok None
  else
    let num := num / TEN ^ divisor_decimals in
    let! num := expect (@try_u u128 num) "called `Option::unwrap()` on a `None` value" in
    let! d := arith (@usub u8 decimals divisor_decimals) in
    Ok (Some (num, d)).

(** The tests of the files. *)
Example price_1 :
  try_from_price 5000000000000000000000 18 8 4 = Ok (mkDecimal 50000000 8) /\
  to_unit_price (E:=DecimalError) (mkDecimal 50000000 8) = Ok 5000000000000000.
Proof. by vm_compute. Qed.
Example price_8 : try_from_price 177347 10 5 9 = Ok (mkDecimal 17734 6).
Proof. reflexivity. Qed.
Example find_divisor_examples :
  find_divisor_decimals (2 ^ 128 - 1) = 0 /\ find_divisor_decimals (2 ^ 192 - 1) = 20.
Proof. by vm_compute. Qed.
Example convert_examples :
  convert_to_u128_storage (E:=unit) (2 ^ 128) 18 =
    Ok (Some (34028236692093846346337460743176821145, 17)) /\
  convert_to_u128_storage (E:=unit) (2 ^ 192 - 1) 20 =
    Ok (Some (62771017353866807638357894232076664161, 0)).
Proof. by vm_compute. Qed.

(** ** Powers of ten *)

Lemma pow10_pos e : 0 <= e -> 0 < 10 ^ e.
Proof. intros. by apply Z.pow_pos_nonneg. Qed.

Lemma pow10_bound e : 0 <= e <= 38 -> 0 < 10 ^ e <= 10 ^ 38.
Proof. intros. split; [apply pow10_pos; lia|apply Z.pow_le_mono_r; lia]. Qed.

Lemma arith_pow10 {E} e : 0 <= e <= 38 -> arith (E:=E) (pow10 e) = Ok (10 ^ e).
Proof.
  intros He. pose proof (pow10_bound e He). apply expect_ok, try_u_some. split; [done|].
  unfold in_u, u_max. simpl. lia.
Qed.

Lemma arith_usub {E} a b : 0 <= b <= a -> a <= 255 -> arith (E:=E) (@usub u8 a b) = Ok (a - b).
Proof. intros. apply expect_ok, usub_some. split; [done|]. unfold in_u, u_max. simpl. lia. Qed.

Lemma arith_uadd {E} a b : 0 <= a -> 0 <= b -> a + b <= 255 -> arith (E:=E) (@uadd u8 a b) = Ok (a + b).
Proof. intros. apply expect_ok, uadd_some. split; [done|]. unfold in_u, u_max. simpl. lia. Qed.

(** Scaling by a difference of powers only depends on the difference. *)
Lemma scale_div x a b a' b' :
  0 <= a -> 0 <= b -> 0 <= a' -> 0 <= b' -> a - b = a' - b' ->
  x * 10 ^ a / 10 ^ b = x * 10 ^ a' / 10 ^ b'.
Proof.
  intros Ha Hb Ha' Hb' Hd. pose proof (pow10_pos b Hb). pose proof (pow10_pos b' Hb').
  rewrite <- (Z.div_mul_cancel_r (x * 10 ^ a) (10 ^ b) (10 ^ b')) by lia.
  rewrite <- (Z.div_mul_cancel_r (x * 10 ^ a') (10 ^ b') (10 ^ b)) by lia.
  rewrite <- !Z.mul_assoc, <- !Z.pow_add_r by lia.
  by replace (a + b') with (a' + b) by lia; replace (b' + b) with (b + b') by lia.
Qed.

Lemma scale_mul x a b : 0 <= b <= a -> x * 10 ^ a / 10 ^ b = x * 10 ^ (a - b).
Proof.
  intros. rewrite (scale_div x a b (a - b) 0) by lia. by rewrite Z.div_1_r.
Qed.

Lemma scale_down x a b : 0 <= a <= b -> x * 10 ^ a / 10 ^ b = x / 10 ^ (b - a).
Proof.
  intros. rewrite (scale_div x a b 0 (b - a)) by lia. by rewrite Z.mul_1_r.
Qed.

(** ** What [try_from_price] computes *)

(** The whole units of [precision] decimals in a price with [decimals] decimals. *)
Definition scaled_price (price decimals precision : Z) : Z := price * 10 ^ precision / 10 ^ decimals.

Lemma umul_u128 x p :
  0 <= x -> 0 <= p ->
  ok_or (@umul u128 x p) DecimalOverflow =
  if @u_max u128 <? x * p then Err DecimalOverflow else Ok (x * p).
Proof.
  intros. destruct (Z.ltb_spec (@u_max u128) (x * p)).
  - destruct (@umul u128 x p) eqn:Hm; [|done]. apply umul_some in Hm as [_ Hm]. unfold in_u in Hm. lia.
  - apply ok_or_ok, umul_some. split; [done|]. unfold in_u. lia.
Qed.

Lemma to_token_decimals_eq price d td :
  0 <= price <= @u_max u128 -> 0 <= d <= 20 -> 0 <= td <= 20 ->
  to_token_decimals price d td =
  if d <=? td then
    if @u_max u128 <? price * 10 ^ (td - d) then Err DecimalOverflow
    else Ok (price * 10 ^ (td - d), None)
  else Ok (price, Some (d - td)).
Proof.
  intros Hp Hd Htd. unfold to_token_decimals. destruct (Z.compare_spec d td) as [->|H|H].
  - rewrite Z.leb_refl, Z.sub_diag, Z.mul_1_r. by rewrite (proj2 (Z.ltb_ge _ _)) by lia.
  - rewrite (proj2 (Z.leb_le _ _)) by lia. pose proof (pow10_pos (td - d)).
    rewrite arith_usub by lia. unfold rbind at 1. rewrite arith_pow10 by lia. unfold rbind at 1.
    rewrite umul_u128 by lia. by destruct (_ <? _).
  - rewrite (proj2 (Z.leb_gt _ _)) by lia. by rewrite arith_usub by lia.
Qed.

(** The multiplier that [try_from_price] passes is [td + 20 - p]. *)
Lemma to_stored_units_eq price e td p :
  0 <= price -> 0 <= td <= 20 -> 0 <= p <= 20 -> (match e with Some e => 0 < e <= 20 | None => True end) ->
  to_stored_units price e (td + 20 - p) =
  let e := default 0 e in
  if td + e <=? p then
    if @u_max u128 <? price * 10 ^ (p - td - e) then Err DecimalOverflow
    else Ok (price * 10 ^ (p - td - e))
  else Ok (price / 10 ^ (td + e - p)).
Proof.
  intros Hprice Htd Hp He. unfold to_stored_units, MAX_DECIMALS.
  destruct (Z.leb_spec (td + 20 - p) 20) as [Hle|Hgt].
  - rewrite arith_usub by lia. unfold rbind at 1. replace (20 - (td + 20 - p)) with (p - td) by lia.
    destruct e as [e|]; simpl.
    + destruct (Z.leb_spec e (p - td)), (Z.leb_spec (td + e) p); try lia.
      * rewrite arith_usub by lia. unfold rbind at 1. rewrite arith_pow10 by lia. unfold rbind.
        apply umul_u128; [lia|]. apply Z.lt_le_incl, pow10_pos. lia.
      * rewrite arith_usub by lia. unfold rbind at 1. rewrite arith_pow10 by lia. unfold rbind.
        by replace (e - (p - td)) with (td + e - p) by lia.
    + rewrite (proj2 (Z.leb_le _ _)) by lia. rewrite arith_pow10 by lia. unfold rbind.
      rewrite Z.sub_0_r. apply umul_u128; [lia|]. apply Z.lt_le_incl, pow10_pos. lia.
  - rewrite (proj2 (Z.leb_gt (td + default 0 e) p)) by (destruct e; simpl; lia).
    rewrite arith_usub by lia. unfold rbind at 1. rewrite arith_pow10 by lia. unfold rbind at 1.
    replace (td + 20 - p - 20) with (td - p) by lia. destruct e as [e|]; simpl.
    + rewrite arith_pow10 by lia. unfold rbind. pose proof (pow10_pos (td - p)).
      rewrite Z.div_div, <- Z.pow_add_r by (lia || (apply pow10_pos; lia)).
      by replace (td - p + e) with (td + e - p) by lia.
    + by rewrite Z.add_0_r.
Qed.

(** The multiplier and its decimals fit. *)
Lemma decimal_tail {A} td p (k : Z -> Z -> dec A) :
  0 <= td -> 0 <= p -> td + p <= 20 ->
  (let! decimal_multiplier := decimal_multiplier_from_precision td p in
   let! multiplier := arith (@uadd u8 (Z.shiftl td 1 mod 2 ^ 8) decimal_multiplier) in
   k decimal_multiplier multiplier) = k (20 - td - p) (td + 20 - p).
Proof.
  intros. unfold decimal_multiplier_from_precision, MAX_DECIMALS.
  rewrite rbind_assoc, arith_usub by lia. unfold rbind at 1. rewrite arith_usub by lia.
  unfold rbind at 1. rewrite Z.shiftl_mul_pow2, Z.mod_small by lia.
  rewrite arith_uadd by lia. unfold rbind. f_equal. lia.
Qed.

Lemma try_from_price_in_range price d td p :
  0 <= price <= @u_max u128 -> 0 <= d <= 20 -> 0 <= td -> 0 <= p -> td + p <= 20 ->
  try_from_price price d td p =
  if @u_max u128 <? price * 10 ^ (Z.max td p - d) then Err DecimalOverflow
  else Ok (mkDecimal (scaled_price price d p mod 2 ^ 32) (20 - td - p)).
Proof.
  intros Hprice Hd Htd Hp Hsum. unfold try_from_price, MAX_DECIMALS, scaled_price.
  repeat (rewrite (proj2 (Z.ltb_ge _ _)) by lia). cbn [orb].
  rewrite arith_uadd by lia. unfold rbind at 1. rewrite (proj2 (Z.ltb_ge _ _)) by lia.
  rewrite to_token_decimals_eq by lia. destruct (Z.leb_spec d td) as [Hle|Hgt].
  - pose proof (pow10_pos (td - d)). destruct (Z.ltb_spec (@u_max u128) (price * 10 ^ (td - d))) as [Hov|Hok].
    { assert (10 ^ (td - d) <= 10 ^ (Z.max td p - d)) by (apply Z.pow_le_mono_r; lia).
      by rewrite (proj2 (Z.ltb_lt _ _)) by nia. }
    unfold rbind at 1. rewrite decimal_tail by lia. rewrite to_stored_units_eq by (done || lia).
    cbv zeta. unfold default, from_option, id. rewrite Z.add_0_r, Z.sub_0_r. destruct (Z.leb_spec td p) as [Htp|Htp].
    + rewrite <- Z.mul_assoc, <- Z.pow_add_r by lia. replace (td - d + (p - td)) with (p - d) by lia.
      rewrite Z.max_r by lia. destruct (_ <? _); [done|]. by rewrite scale_mul by lia.
    + rewrite Z.max_l by lia. rewrite (proj2 (Z.ltb_ge _ _)) by lia. unfold rbind.
      by rewrite (scale_div price p d (td - d) (td - p)) by lia.
  - unfold rbind at 1. rewrite decimal_tail by lia. rewrite to_stored_units_eq by lia.
    cbv zeta. unfold default, from_option, id. replace (td + (d - td)) with d by lia.
    replace (p - td - (d - td)) with (p - d) by lia. destruct (Z.leb_spec d p) as [Hdp|Hdp].
    + rewrite Z.max_r by lia. destruct (_ <? _); [done|]. by rewrite scale_mul by lia.
    + rewrite (Z.pow_neg_r _ (Z.max td p - d)), Z.mul_0_r by lia. rewrite (proj2 (Z.ltb_ge _ _)) by lia.
      unfold rbind. by rewrite scale_down by lia.
Qed.

Lemma to_unit_price_ok {E} v m :
  0 <= v < 2 ^ 32 -> 0 <= m <= 20 -> to_unit_price (E:=E) (mkDecimal v m) = Ok (v * 10 ^ m).
Proof.
  intros Hv Hm. unfold to_unit_price. simpl decimal_multiplier. rewrite arith_pow10 by lia.
  unfold rbind. apply expect_ok, umul_some. split; [done|].
  assert (0 < 10 ^ m <= 10 ^ 20) by (split; [apply pow10_pos; lia|apply Z.pow_le_mono_r; lia]).
  unfold in_u, u_max. simpl. nia.
Qed.

(** [Decimal::try_from_price] accepts a price of a whole token with any number of decimals
    up to 20, for a token and a precision that together have at most 20, unless scaling the price
    to the larger of the two overflows; it stores the whole units of [10^-precision] in the
    price, rounded down, whichever way the decimals compare, but only their low 32 bits; and
    none of its unchecked operations overflows. *)
Theorem try_from_price_spec (price d td p : Z) :
  @in_u u128 price -> @in_u u8 d -> @in_u u8 td -> @in_u u8 p ->
  try_from_price price d td p =
  if (20 <? td) || (20 <? p) || (20 <? d) || (20 <? td + p) then Err ExceedMaxDecimals
  else if @u_max u128 <? price * 10 ^ (Z.max td p - d) then Err DecimalOverflow
  else Ok (mkDecimal (price * 10 ^ p / 10 ^ d mod 2 ^ 32) (20 - td - p)).
Proof.
  unfold in_u. intros Hprice Hd Htd Hp. unfold try_from_price at 1, MAX_DECIMALS.
  destruct (Z.ltb_spec 20 td), (Z.ltb_spec 20 p), (Z.ltb_spec 20 d); try done. cbn [orb].
  destruct (Z.ltb_spec 20 (td + p)) as [Hs|Hs].
  - rewrite arith_uadd by lia. unfold rbind at 1. by rewrite (proj2 (Z.ltb_lt _ _)) by lia.
  - pose proof (try_from_price_in_range price d td p) as Hr.
    unfold try_from_price, MAX_DECIMALS in Hr.
    repeat (rewrite (proj2 (Z.ltb_ge 20 _)) in Hr by lia). apply Hr; lia.
Qed.

Example try_from_price_spec_example :
  try_from_price 177347 10 5 9 = Ok (mkDecimal 17734 6).
Proof.
  refine (eq_trans (try_from_price_spec 177347 10 5 9 _ _ _ _) _);
    [split; vm_compute; discriminate..|reflexivity].
Defined.

Lemma try_from_price_ok price d td p stored :
  @in_u u128 price -> 0 <= d -> 0 <= td -> 0 <= p ->
  try_from_price price d td p = Ok stored ->
  d <= 20 /\ td + p <= 20 /\
  stored = mkDecimal (scaled_price price d p mod 2 ^ 32) (20 - td - p).
Proof.
  intros Hprice Hd Htd Hp Hr. pose proof Hr as Hr0. unfold try_from_price at 1, MAX_DECIMALS in Hr0.
  destruct (Z.ltb_spec 20 td), (Z.ltb_spec 20 p), (Z.ltb_spec 20 d); try done. cbn [orb] in Hr0.
  rewrite arith_uadd in Hr0 by lia. unfold rbind at 1 in Hr0.
  destruct (Z.ltb_spec 20 (td + p)); [done|].
  rewrite try_from_price_in_range in Hr by (unfold in_u in Hprice; lia).
  destruct (_ <? _); [done|]. injection Hr as <-. by split_and!.
Qed.

(** When the stored value fits its 32 bits, the unit price that is read back is the exact
    price of the smallest unit of the token rounded down to a multiple of the decimal
    multiplier: it never exceeds the price and is less than one such multiple below it. When it does
    not, the conversion succeeds all the same and stores the value modulo [2^32], so that the price that
    is read back is at least [2^32] such multiples too small. *)
Lemma stored_price_accuracy (price d td p : Z) (stored : Decimal) :
  @in_u u128 price -> 0 <= d -> 0 <= td -> 0 <= p ->
  try_from_price price d td p = Ok stored ->
  exists u, to_unit_price (E:=DecimalError) stored = Ok u /\
    u = scaled_price price d p mod 2 ^ 32 * 10 ^ decimal_multiplier stored /\
    (scaled_price price d p < 2 ^ 32 ->
     u * 10 ^ (d + td) <= price * 10 ^ 20 < (u + 10 ^ decimal_multiplier stored) * 10 ^ (d + td)) /\
    (2 ^ 32 <= scaled_price price d p ->
     (u + 2 ^ 32 * 10 ^ decimal_multiplier stored) * 10 ^ (d + td) <= price * 10 ^ 20).
Proof.
  intros Hprice Hd Htd Hp Hr. destruct (try_from_price_ok _ _ _ _ _ Hprice Hd Htd Hp Hr)
    as (Hdec & Hsum & ->).
  set (q := scaled_price price d p) in *. pose proof (Z.mod_pos_bound q (2 ^ 32)) as Hmod.
  exists (q mod 2 ^ 32 * 10 ^ (20 - td - p)). split; [apply to_unit_price_ok; lia|]. split; [done|]. cbn [decimal_multiplier].
  pose proof (pow10_pos d). pose proof (pow10_pos (20 - td - p)). pose proof (pow10_pos td).
  assert (Hq : q * 10 ^ d <= price * 10 ^ p < (q + 1) * 10 ^ d).
  { split; [apply div_mul_le|apply div_mul_gt]; lia. }
  assert (0 <= q) by (apply div_nonneg; [unfold in_u in Hprice; pose proof (pow10_pos p); nia|lia]).
  assert (Hscale : price * 10 ^ 20 = price * 10 ^ p * (10 ^ (20 - td - p) * 10 ^ td)).
  { rewrite <- Z.pow_add_r, <- Z.mul_assoc, <- Z.pow_add_r by lia. do 2 f_equal. lia. }
  rewrite Hscale, Z.pow_add_r by lia. set (M := 10 ^ (20 - td - p)) in *. set (T := 10 ^ td) in *.
  assert (0 < M * T) by nia. split.
  - intros Hs. rewrite Z.mod_small by lia. nia.
  - intros Hs. assert (q mod 2 ^ 32 + 2 ^ 32 <= q) by (pose proof (Z.div_mod q (2 ^ 32));
      pose proof (Z.div_le_lower_bound q (2 ^ 32) 1); lia).
    replace ((q mod 2 ^ 32 * M + 2 ^ 32 * M) * (10 ^ d * T))
      with ((q mod 2 ^ 32 + 2 ^ 32) * 10 ^ d * (M * T)) by ring.
    apply Z.mul_le_mono_nonneg_r; [lia|]. nia.
Qed.

(** A price of 43 dollars with 8 decimals of precision for a token of 9 decimals: 5 cents are
    left. *)
Example stored_price_accuracy_example :
  try_from_price 4300000000 8 9 8 = Ok (mkDecimal 5032704 3) /\
  exists u, to_unit_price (E:=DecimalError) (mkDecimal 5032704 3) = Ok u /\
    (u + 2 ^ 32 * 10 ^ 3) * 10 ^ (8 + 9) <= 4300000000 * 10 ^ 20.
Proof.
  split; [vm_compute; reflexivity|].
  assert (Hr : try_from_price 4300000000 8 9 8 = Ok (mkDecimal 5032704 3)) by (vm_compute; reflexivity).
  destruct (stored_price_accuracy 4300000000 8 9 8 (mkDecimal 5032704 3)) as (u & Hu & _ & _ & H);
    [split; vm_compute; discriminate|lia|lia|lia|exact Hr|].
  exists u. split; [exact Hu|]. apply H. vm_compute. discriminate.
Defined.

(** ** Storing a [U192] price in a [u128] *)

Lemma power_bounds_eq :
  get_power_bounds = map (fun i => @u_max u128 * 10 ^ Z.of_nat i) (seq 0 20).
Proof. reflexivity. Qed.

Lemma power_bound i e :
  map (fun b => mkEntry b tt) get_power_bounds !! i = Some e ->
  (i < 20)%nat /\ key e = @u_max u128 * 10 ^ Z.of_nat i.
Proof.
  rewrite power_bounds_eq, map_map, list_lookup_fmap. intros H.
  destruct (seq 0 20 !! i) as [j|] eqn:Hj; [|done]. simpl in H. injection H as <-.
  apply lookup_seq in Hj as [-> Hi]. done.
Qed.

Lemma power_bound_ex i :
  (i < 20)%nat -> exists e, map (fun b => mkEntry b tt) get_power_bounds !! i = Some e /\
    key e = @u_max u128 * 10 ^ Z.of_nat i.
Proof.
  intros Hi. destruct (lookup_lt_is_Some_2 (map (fun b => mkEntry b tt) get_power_bounds) i)
    as [e He]; [done|]. exists e. split; [done|]. by apply power_bound.
Qed.

Lemma power_bounds_sorted : sorted (map (fun b => mkEntry b tt) get_power_bounds).
Proof.
  apply Sorted_StronglySorted; [intros x y z; unfold key_lt; lia|].
  repeat constructor.
Qed.

(** The least power of ten by which the largest [u128] covers the number. *)
Lemma find_divisor_decimals_spec num :
  @in_u u192 num ->
  let k := find_divisor_decimals num in
  0 <= k <= 20 /\ num <= @u_max u128 * 10 ^ k /\
  forall j, 0 <= j < k -> @u_max u128 * 10 ^ j < num.
Proof.
  intros Hnum. unfold find_divisor_decimals, binary_search_numbers.
  pose proof (slice_binary_search_spec _ num power_bounds_sorted) as Hspec.
  destruct (slice_binary_search _ num) as [i|i|]; [| |done].
  - destruct Hspec as (e & He & Hk). apply power_bound in He as [Hi He].
    rewrite Z.mod_small by lia. split_and!; [lia|lia|lia|]. intros j Hj. rewrite <- Hk, He.
    apply Z.mul_lt_mono_pos_l; [reflexivity|]. apply Z.pow_lt_mono_r; lia.
  - destruct Hspec as (Hi & Hlo & Hhi). change (i <= 20)%nat in Hi.
    rewrite Z.mod_small by lia. split_and!; [lia|lia| |].
    + destruct (decide (i = 20%nat)) as [->|Hne].
      * apply Z.le_trans with (@u_max u192); [apply Hnum|]. vm_compute. discriminate.
      * destruct (power_bound_ex i ltac:(lia)) as (e & He & Hk). rewrite <- Hk.
        apply Z.lt_le_incl. eapply Hhi; [|exact He]. lia.
    + intros j Hj. destruct (power_bound_ex (Z.to_nat j) ltac:(lia)) as (e & He & Hk).
      rewrite Z2Nat.id in Hk by lia. rewrite <- Hk. eapply Hlo; [|exact He]. lia.
Qed.

(** A 192-bit price is stored in 128 bits by dropping the least number of decimals for
    which the largest 128-bit number, scaled back, covers it; it is refused exactly when it does
    not have that many decimals, the quotient always fits, and it is the price rounded down. *)
Theorem convert_to_u128_storage_spec (num decimals : Z) :
  @in_u u192 num -> @in_u u8 decimals ->
  exists k, 0 <= k <= 20 /\ num <= @u_max u128 * 10 ^ k /\
    (forall j, 0 <= j < k -> @u_max u128 * 10 ^ j < num) /\
    convert_to_u128_storage (E:=DecimalError) num decimals =
      if decimals <? k then Ok None else Ok (Some (num / 10 ^ k, decimals - k)).
Proof.
  intros Hnum Hdec. exists (find_divisor_decimals num).
  destruct (find_divisor_decimals_spec num Hnum) as (Hk & Hfit & Hleast).
  split_and!; [lia|lia|done|done|]. unfold convert_to_u128_storage, TEN.
  destruct (Z.ltb_spec decimals (find_divisor_decimals num)); [done|].
  set (k := find_divisor_decimals num) in *. pose proof (pow10_pos k).
  assert (@try_u u128 (num / 10 ^ k) = Some (num / 10 ^ k)) as ->.
  { apply try_u_some. split; [done|]. unfold in_u in *. split; [apply div_nonneg; lia|].
    apply Z.div_le_upper_bound; lia. }
  unfold expect, rbind at 1. unfold in_u, u_max in Hdec. simpl in Hdec.
  by rewrite arith_usub by lia.
Qed.

Example convert_to_u128_storage_spec_example :
  @in_u u192 (2 ^ 128) /\ exists k, 0 <= k <= 20 /\ 2 ^ 128 <= @u_max u128 * 10 ^ k.
Proof.
  assert (H : @in_u u192 (2 ^ 128)) by (split; vm_compute; discriminate). split; [exact H|].
  destruct (convert_to_u128_storage_spec (2 ^ 128) 18 H) as (k & Hk & Hfit & _);
    [split; vm_compute; discriminate|]. by exists k.
Defined.
