(* ===== verification/TokenConfig.v ===== *)
(** * Token configurations

    [states/token_config.rs]: what the store knows about a token ([TokenConfig]), and the
    token map, a header with a fixed map from tokens to indices ([Tokens]) followed by as many
    configurations as the account has room for. The bytes behind the header are a list of
    configurations: [dynamic_access::get] reads the one at an index when the bytes reach that
    far. The map is append-only: a token gets the number of tokens before it as its index.

    [push_with_spec] says what a push does to every token, and [update_keeps_decimals] that the
    decimals of a token never change once its configuration is initialized. *)
From stdpp Require Import gmap.
From S2P Require Import Prelude.
From S2P Require Import CoreErrors.
From S2P Require Import FixedMap.
From S2P Require Import Flags.
From S2P Require Import Roles.
#[local] Open Scope Z_scope.

Definition DEFAULT_HEARTBEAT_DURATION : Z := 30.
Definition DEFAULT_PRECISION : Z := 4.
Definition DEFAULT_TIMESTAMP_ADJUSTMENT : Z := 0.
Definition MAX_FEEDS : nat := 4.
Definition MAX_FLAGS : nat := 8.
Definition MAX_TOKENS : nat := 256.
Definition MAX_NAME_LEN : nat := 32.

(** ** Price providers ([states/oracle/mod.rs]) *)

Inductive PriceProviderKind : Type := ChainlinkDataStreams | Pyth | Chainlink | Switchboard.

#[export] Instance PriceProviderKind_eq_dec : EqDecision PriceProviderKind.
Proof. solve_decision. Defined.

Definition provider_to_u8 (kind : PriceProviderKind) : Z :=
  match kind with ChainlinkDataStreams => 0 | Pyth => 1 | Chainlink => 2 | Switchboard => 3 end.

(** [TryFromPrimitive]. *)
Definition provider_from_u8 (n : Z) : option PriceProviderKind :=
  if n =? 0 then Some ChainlinkDataStreams
  else if n =? 1 then Some Pyth
  else if n =? 2 then Some Chainlink
  else if n =? 3 then Some Switchboard
  else None.

Lemma provider_roundtrip kind : provider_from_u8 (provider_to_u8 kind) = Some kind.
Proof. by destruct kind. Qed.

(** ** A token configuration *)

Inductive Flag : Type := Initialized | Enabled | Synthetic.

#[export] Instance Flag_eq_dec : EqDecision Flag.
Proof. solve_decision. Defined.

Definition flag_to_index (f : Flag) : nat :=
  match f with Initialized => 0 | Enabled => 1 | Synthetic => 2 end.

Lemma flag_to_index_bound f : (flag_to_index f < MAX_FLAGS)%nat.
Proof. destruct f; unfold MAX_FLAGS; simpl; lia. Qed.
#[export] Instance flag_to_index_inj : Inj (=) (=) flag_to_index.
Proof. by intros [] []. Qed.

Record FeedConfig : Type := mkFeedConfig { feed : Pubkey; feed_timestamp_adjustment : Z }.

Definition new_feed_config (feed : Pubkey) : FeedConfig :=
  mkFeedConfig feed DEFAULT_TIMESTAMP_ADJUSTMENT.
Definition with_timestamp_adjustment (self : FeedConfig) (timestamp_adjustment : Z) : FeedConfig :=
  mkFeedConfig (feed self) timestamp_adjustment.

Record TokenConfig : Type := mkTokenConfig {
  token_name : bytes;
  token_flags : FlagContainer;
  token_decimals : Z;
  precision : Z;
  expected_provider_index : Z;
  feeds : list FeedConfig;
  heartbeat_duration : Z }.

Record UpdateTokenConfigParams : Type := mkUpdateTokenConfigParams {
  u_heartbeat_duration : Z;
  u_precision : Z;
  u_feeds : list Pubkey;
  u_timestamp_adjustments : list Z;
  u_expected_provider : option Z }.

Definition default_update_params : UpdateTokenConfigParams :=
  mkUpdateTokenConfigParams DEFAULT_HEARTBEAT_DURATION DEFAULT_PRECISION
    (replicate MAX_FEEDS DEFAULT_PUBKEY) (replicate MAX_FEEDS DEFAULT_TIMESTAMP_ADJUSTMENT) None.

Definition update_params_from (config : TokenConfig) : UpdateTokenConfigParams :=
  mkUpdateTokenConfigParams (heartbeat_duration config) (precision config)
    (map feed (feeds config)) (map feed_timestamp_adjustment (feeds config))
    (Some (expected_provider_index config)).

Definition update_price_feed (self : UpdateTokenConfigParams) (kind : PriceProviderKind)
    (new_feed : Pubkey) (new_timestamp_adjustment : option Z) : store_result UpdateTokenConfigParams :=
  let index := Z.to_nat (provider_to_u8 kind) in
  let! _ := ok_or (u_feeds self !! index) (Core CoreError.NotFound) in
  let! _ := ok_or (u_timestamp_adjustments self !! index) (Core CoreError.NotFound) in
  let feeds := <[index := new_feed]> (u_feeds self) in
  let adjustments :=
    match new_timestamp_adjustment with
    | Some a => <[index := a]> (u_timestamp_adjustments self)
    | None => u_timestamp_adjustments self
    end in
  Ok (mkUpdateTokenConfigParams (u_heartbeat_duration self) (u_precision self) feeds adjustments
        (u_expected_provider self)).

Definition get_feed_config (self : TokenConfig) (kind : PriceProviderKind) : store_result FeedConfig :=
  let! config := ok_or (feeds self !! Z.to_nat (provider_to_u8 kind)) (Core CoreError.NotFound) in
  if feed config =? DEFAULT_PUBKEY then Err (Core CoreError.NotFound) else Ok config.

Definition set_feeds (self : TokenConfig) (feeds : list FeedConfig) : TokenConfig :=
  mkTokenConfig (token_name self) (token_flags self) (token_decimals self) (precision self)
    (expected_provider_index self) feeds (heartbeat_duration self).

Definition set_feed_config (self : TokenConfig) (kind : PriceProviderKind) (new_config : FeedConfig)
    : store_result TokenConfig :=
  let index := Z.to_nat (provider_to_u8 kind) in
  let! _ := ok_or (feeds self !! index) (Core CoreError.InvalidProviderKindIndex) in
  Ok (set_feeds self (<[index := new_config]> (feeds self))).

Definition get_feed (self : TokenConfig) (kind : PriceProviderKind) : store_result Pubkey :=
  let! config := get_feed_config self kind in
  Ok (feed config).

Definition set_expected_provider (self : TokenConfig) (kind : PriceProviderKind) : TokenConfig :=
  mkTokenConfig (token_name self) (token_flags self) (token_decimals self) (precision self)
    (provider_to_u8 kind) (feeds self) (heartbeat_duration self).

Definition expected_provider (self : TokenConfig) : store_result PriceProviderKind :=
  ok_or (provider_from_u8 (expected_provider_index self)) (Core CoreError.InvalidProviderKindIndex).

Definition get_expected_feed (self : TokenConfig) : store_result Pubkey :=
  let! kind := expected_provider self in
  get_feed self kind.

Definition timestamp_adjustment (self : TokenConfig) (kind : PriceProviderKind) : store_result Z :=
  let! config := get_feed_config self kind in
  Ok (feed_timestamp_adjustment config).

Definition config_name (self : TokenConfig) : store_result bytes := bytes_to_fixed_str (token_name self).

Section TokenFlags.
Context {B : Type} `{BitmapLaws MAX_FLAGS B}.

Definition flag (self : TokenConfig) (f : Flag) : bool := get_flag flag_to_index (token_flags self) f.

Definition set_token_flag (self : TokenConfig) (f : Flag) (v : bool) : TokenConfig :=
  mkTokenConfig (token_name self) (fst (set_flag flag_to_index (token_flags self) f v))
    (token_decimals self) (precision self) (expected_provider_index self) (feeds self)
    (heartbeat_duration self).

Definition set_enabled (self : TokenConfig) (v : bool) : TokenConfig := set_token_flag self Enabled v.
Definition set_synthetic (self : TokenConfig) (v : bool) : TokenConfig := set_token_flag self Synthetic v.
Definition is_token_enabled (self : TokenConfig) : bool := flag self Enabled.
Definition is_synthetic (self : TokenConfig) : bool := flag self Synthetic.
Definition is_valid_pool_token_config (self : TokenConfig) : bool := negb (is_synthetic self).

Lemma flag_set self f g v : flag (set_token_flag self f v) g = if decide (f = g) then v else flag self g.
Proof. apply get_set_flag; [apply flag_to_index_bound|apply _]. Qed.

(** [update]; a failing update leaves what it wrote before it failed. *)
Definition update_token_config (name : bytes) (synthetic : bool) (token_decimals_ : Z)
    (builder : UpdateTokenConfigParams) (enable init : bool) : ST TokenConfig StoreError unit :=
  do! _ :=
    (if init then
       do! _ := sread (fun self => require (negb (flag self Initialized)) CoreError.InvalidArgument) in
       smodify (fun self => set_token_flag self Initialized true)
     else
       do! _ := sread (fun self => require (flag self Initialized) CoreError.InvalidArgument) in
       sread (fun self => require (token_decimals self =? token_decimals_) CoreError.TokenDecimalsChanged)) in
  do! _ := slift (require (length (u_feeds builder) =? length (u_timestamp_adjustments builder))%nat
                    CoreError.InvalidArgument) in
  do! name := slift (fixed_str_to_bytes MAX_NAME_LEN name) in
  do! _ := smodify (fun self =>
    mkTokenConfig name (token_flags self) (token_decimals self) (precision self)
      (expected_provider_index self) (feeds self) (heartbeat_duration self)) in
  do! _ := smodify (fun self => set_synthetic self synthetic) in
  do! _ := smodify (fun self => set_enabled self enable) in
  do! _ := smodify (fun self =>
    mkTokenConfig (token_name self) (token_flags self) token_decimals_ (u_precision builder)
      (expected_provider_index self) (feeds self) (heartbeat_duration self)) in
  let new_feeds := zip_with (fun feed a => with_timestamp_adjustment (new_feed_config feed) a)
                     (u_feeds builder) (u_timestamp_adjustments builder) in
  do! _ := slift (require (length new_feeds =? MAX_FEEDS)%nat CoreError.InvalidArgument) in
  do! _ := smodify (fun self => set_feeds self new_feeds) in
  smodify (fun self =>
    mkTokenConfig (token_name self) (token_flags self) (token_decimals self) (precision self)
      (default (provider_to_u8 ChainlinkDataStreams) (u_expected_provider builder)) (feeds self)
      (u_heartbeat_duration builder)).

(** What a successful update leaves. *)
Lemma update_ok name synthetic decimals builder enable init self self' :
  update_token_config name synthetic decimals builder enable init self = (self', Ok tt) ->
  (if init then flag self Initialized = false
   else flag self Initialized = true /\ token_decimals self = decimals) /\
  flag self' Initialized = true /\ is_token_enabled self' = enable /\
  is_synthetic self' = synthetic /\ token_decimals self' = decimals /\
  precision self' = u_precision builder /\ heartbeat_duration self' = u_heartbeat_duration builder /\
  map feed (feeds self') = u_feeds builder /\ length (feeds self') = MAX_FEEDS.
Proof.
  intros Hu. unfold update_token_config in Hu. apply sbind_ok in Hu as (s1 & [] & H1 & Hu).
  assert (Hinit : (if init then flag self Initialized = false
                   else flag self Initialized = true /\ token_decimals self = decimals) /\
                  flag s1 Initialized = true).
  { destruct init; apply sbind_ok in H1 as (s2 & [] & [-> Hf%require_ok]%sread_ok & H1).
    - apply smodify_ok in H1 as ->. apply negb_true_iff in Hf. rewrite flag_set. by split.
    - apply sread_ok in H1 as [-> Hd%require_ok]. apply Z.eqb_eq in Hd. by split_and!. }
  destruct Hinit as [Hinit Hs1]. split; [done|]. clear Hinit H1.
  apply sbind_ok in Hu as (s2 & [] & [-> Hlen%require_ok]%slift_ok & Hu).
  apply sbind_ok in Hu as (s2 & n & [-> Hn]%slift_ok & Hu).
  do 4 (apply sbind_ok in Hu as (? & [] & ->%smodify_ok & Hu)).
  apply sbind_ok in Hu as (s2 & [] & [-> Hfeeds%require_ok]%slift_ok & Hu).
  apply sbind_ok in Hu as (s2 & [] & ->%smodify_ok & Hu). apply smodify_ok in Hu as ->.
  apply Nat.eqb_eq in Hlen, Hfeeds. unfold is_token_enabled, is_synthetic, set_enabled, set_synthetic.
  unfold flag in *. cbn -[set_flag get_flag].
  rewrite !get_set_flag by (apply flag_to_index_bound || apply _). cbn.
  split_and!; try done. clear - Hlen. revert Hlen. generalize (u_timestamp_adjustments builder) as l.
  induction (u_feeds builder) as [|f fs IH]; intros [|a l] Hl; try done. simpl in *. by rewrite IH by lia.
Qed.
End TokenFlags.

(** ** The token map

    The header and the configurations behind it. *)
Record TokenMap : Type := mkTokenMap { tokens : FixedMap Z; configs : list TokenConfig }.

(** [TokenConfig] as zeroed bytes. *)
Definition zeroed_config : TokenConfig :=
  mkTokenConfig (replicate MAX_NAME_LEN 0) (mkFlagContainer 0) 0 0 0
    (replicate MAX_FEEDS (mkFeedConfig 0 0)) 0.

Section TokenMap.
Context {B : Type} `{BitmapLaws MAX_FLAGS B}.

Abbreviation TM A := (ST TokenMap StoreError A).

Definition on_tokens {A} (m : ST (FixedMap Z) StoreError A) : TM A :=
  szoom tokens (fun t self => mkTokenMap t (configs self)) m.

(** [dynamic_access::get]. *)
Definition config_at (index : Z) (self : TokenMap) : option TokenConfig :=
  configs self !! Z.to_nat index.

Definition get_token_config (token : Pubkey) : TM (option TokenConfig) :=
  do! i := on_tokens (FixedMap.get pubkey_to_bytes token) in
  match i with
  | None => sret None
  | Some index => sread (fun self => Ok (config_at index self))
  end.

(** The number of configurations that the account is grown to hold before a push. *)
Definition space_after_push (self : TokenMap) : store_result Z :=
  ok_or (len_to_u8 (S (len (tokens self)))) (Core CoreError.InvalidArgument).

Definition push_with (token : Pubkey) (f : ST TokenConfig StoreError unit) (new : bool) : TM unit :=
  do! index :=
    (if new then
       do! next_index := sread (fun self => Ok (len (tokens self))) in
       do! _ := slift (require (next_index <? MAX_TOKENS)%nat CoreError.ExceedMaxLengthLimit) in
       do! index := slift (ok_or (len_to_u8 next_index) (Core CoreError.InvalidArgument)) in
       do! _ := on_tokens (insert_with_options pubkey_to_bytes MAX_TOKENS token index true) in
       sret index
     else
       do! i := on_tokens (FixedMap.get pubkey_to_bytes token) in
       slift (ok_or i (Core CoreError.NotFound))) in
  do! dst := sread (fun self => ok_or (config_at index self) (Core CoreError.NotEnoughSpace)) in
  fun self =>
    let (c, r) := f dst in
    (mkTokenMap (tokens self) (<[Z.to_nat index := c]> (configs self)), r).

(** [do_push_token_map] of [instructions/token_config.rs]: grow the account, with zeroed bytes,
    then push. *)
Definition do_push_token_map (synthetic : bool) (name : bytes) (token : Pubkey) (decimals : Z)
    (builder : UpdateTokenConfigParams) (enable new : bool) : TM unit :=
  do! new_space := sread space_after_push in
  do! _ := smodify (fun self =>
    mkTokenMap (tokens self)
      (configs self ++ replicate (Z.to_nat new_space - length (configs self)) zeroed_config)) in
  push_with token (update_token_config name synthetic decimals builder enable new) new.

(** What the map says about a token. *)
Definition lookup_token (self : TokenMap) (token : Pubkey) : option TokenConfig :=
  match to_map (tokens self) !! token with
  | Some i => config_at i self
  | None => None
  end.

Record TokenMapWf (self : TokenMap) : Prop := mkTokenMapWf {
  tm_tokens : FixedMap.Wf MAX_TOKENS (tokens self);
  tm_index t i : to_map (tokens self) !! t = Some i -> 0 <= i < Z.of_nat (len (tokens self));
  tm_distinct t t' i : to_map (tokens self) !! t = Some i -> to_map (tokens self) !! t' = Some i -> t = t' }.

Lemma get_token_config_eq token self :
  TokenMapWf self -> get_token_config token self = (self, Ok (lookup_token self token)).
Proof.
  intros [Hwf _ _]. unfold get_token_config, on_tokens, szoom, sbind.
  rewrite (get_eq _ MAX_TOKENS) by done. unfold pubkey_to_bytes, lookup_token. destruct self as [t c].
  by destruct (to_map _ !! token).
Qed.

(** The place of the token: new tokens get the next one. *)
Lemma push_with_ok token f new self self' :
  TokenMapWf self -> push_with token f new self = (self', Ok tt) ->
  TokenMapWf self' /\ length (configs self') = length (configs self) /\
  (exists c c', f c = (c', Ok tt) /\ lookup_token self' token = Some c' /\
    (if new then to_map (tokens self) !! token = None /\ config_at (Z.of_nat (len (tokens self))) self = Some c
     else lookup_token self token = Some c)) /\
  (forall t, t <> token -> lookup_token self' t = lookup_token self t).
Proof.
  intros Hwf Hp. pose proof Hwf as [Hw Hi Hd]. unfold push_with in Hp.
  apply sbind_ok in Hp as (s1 & i & H1 & Hp). apply sbind_ok in Hp as (s2 & c & [-> Hc%ok_or_ok]%sread_ok & Hp).
  destruct (f c) as [c' r] eqn:Hf. injection Hp as <- ->.
  assert (Hs1 : TokenMapWf s1 /\ configs s1 = configs self /\ to_map (tokens s1) !! token = Some i /\
    (forall t, t <> token -> to_map (tokens s1) !! t = to_map (tokens self) !! t) /\
    (if new then to_map (tokens self) !! token = None /\ i = Z.of_nat (len (tokens self))
     else s1 = self)).
  { destruct new.
    - apply sbind_ok in H1 as (s & n & [-> [= <-]]%sread_ok & H1).
      apply sbind_ok in H1 as (s & [] & [-> _]%slift_ok & H1).
      apply sbind_ok in H1 as (s & j & [-> Hj%ok_or_ok]%slift_ok & H1).
      apply sbind_ok in H1 as (s & o & Hins & [-> ->]%sret_ok). apply szoom_ok in Hins as (m & Hins & ->).
      apply (insert_new_ok pubkey_to_bytes MAX_TOKENS) in Hins as (_ & H1 & H2 & H3 & H4); [|done].
      unfold pubkey_to_bytes in H2, H3.
      assert (j = Z.of_nat (len (tokens self))) as ->
        by (unfold len_to_u8 in Hj; destruct (_ <? _); [congruence|done]).
      simpl. rewrite H3. split_and!; try done.
      + constructor; simpl; [done| |].
        * intros t j. rewrite H3, lookup_insert, H4. case_decide; [intros [= <-]; lia|].
          intros Hj'%Hi. lia.
        * intros t t' j. rewrite H3, !lookup_insert. repeat case_decide; subst; try done.
          -- intros [= <-] Hj'%Hi. lia.
          -- intros Hj'%Hi [= <-]. lia.
          -- apply Hd.
      + apply lookup_insert_eq.
      + intros t Ht. by rewrite lookup_insert_ne.
    - apply sbind_ok in H1 as (s & o & Hg & [-> Ho%ok_or_ok]%slift_ok).
      unfold on_tokens, szoom in Hg. rewrite (get_eq _ MAX_TOKENS) in Hg by done.
      injection Hg as <- Hm. rewrite Ho in Hm. destruct self. by split_and!. }
  destruct Hs1 as (Hwf1 & Hcfg & Htok & Hother & Hnew). unfold lookup_token, config_at in *. simpl.
  pose proof (lookup_lt_Some _ _ _ Hc) as Hlt.
  split_and!; [by destruct Hwf1|by rewrite length_insert, Hcfg| |].
  - exists c, c'. rewrite Htok, list_lookup_insert_eq by done. split_and!; [done|done|].
    destruct new; [destruct Hnew as [Hnew ->]; by rewrite <- Hcfg|]. subst s1. by rewrite Htok.
  - intros t Ht. rewrite (Hother t Ht). destruct (to_map (tokens self) !! t) as [j|] eqn:Hj; [|done].
    rewrite list_lookup_insert_ne, Hcfg; [done|]. intros Heq.
    assert (i = j) as <-.
    { pose proof (tm_index _ Hwf1 _ _ Htok). pose proof (Hi _ _ Hj). lia. }
    apply Ht. apply (tm_distinct _ Hwf1 t token i); [by rewrite Hother|done].
Qed.

Lemma grow_lookup self n t c :
  lookup_token self t = Some c ->
  lookup_token (mkTokenMap (tokens self) (configs self ++ replicate n zeroed_config)) t = Some c.
Proof.
  unfold lookup_token, config_at. simpl. destruct (to_map (tokens self) !! t); [|done].
  intros Hc. rewrite lookup_app_l; [done|]. by apply lookup_lt_Some in Hc.
Qed.

(** What a push to the token map does. *)
Lemma do_push_ok synthetic name token decimals builder enable new self self' :
  TokenMapWf self ->
  do_push_token_map synthetic name token decimals builder enable new self = (self', Ok tt) ->
  TokenMapWf self' /\
  (exists c', lookup_token self' token = Some c' /\ flag c' Initialized = true /\
    token_decimals c' = decimals /\ is_token_enabled c' = enable /\ is_synthetic c' = synthetic /\
    precision c' = u_precision builder /\ heartbeat_duration c' = u_heartbeat_duration builder /\
    map feed (feeds c') = u_feeds builder) /\
  (if new then to_map (tokens self) !! token = None
   else forall c, lookup_token self token = Some c -> token_decimals c = decimals) /\
  (forall t c, t <> token -> lookup_token self t = Some c -> lookup_token self' t = Some c).
Proof.
  intros Hwf Hp. unfold do_push_token_map in Hp.
  apply sbind_ok in Hp as (s & n & [-> Hn]%sread_ok & Hp).
  apply sbind_ok in Hp as (s & [] & ->%smodify_ok & Hp).
  set (grown := mkTokenMap _ _) in Hp.
  assert (Hwf1 : TokenMapWf grown) by (destruct Hwf; by constructor).
  destruct (push_with_ok _ _ _ _ _ Hwf1 Hp) as (Hwf' & _ & (c & c' & Hf & Hc' & Hnew) & Hother).
  apply update_ok in Hf as (Hinit & H1 & H2 & H3 & H4 & H5 & H6 & H7 & _).
  split_and!; [done|by exists c'| |].
  - destruct new; [by destruct Hnew|]. intros c0 Hc0.
    assert (Hg : lookup_token grown token = Some c0) by (by apply grow_lookup). destruct Hinit. congruence.
  - intros t ct Ht Hct. rewrite Hother by done. by apply grow_lookup.
Qed.

(** One successful push, with any arguments. *)
Inductive push_step : TokenMap -> TokenMap -> Prop :=
| PushStep synthetic name token decimals builder enable new self self' :
    do_push_token_map synthetic name token decimals builder enable new self = (self', Ok tt) ->
    push_step self self'.

(** Pushing to the token map: a token stays in the map, and keeps the decimals it was added
    with, through every sequence of successful pushes (new tokens and updates of existing ones),
    which its price conversions rely on; distinct tokens keep distinct configurations. *)
Theorem token_decimals_fixed (self self' : TokenMap) (token : Pubkey) (c : TokenConfig) :
  TokenMapWf self -> rtc push_step self self' -> lookup_token self token = Some c ->
  TokenMapWf self' /\ exists c', lookup_token self' token = Some c' /\
    token_decimals c' = token_decimals c.
Proof.
  intros Hwf Hsteps. revert c. induction Hsteps as [self|self s1 self' Hstep Hsteps IH]; intros c Hc; [eauto|].
  destruct Hstep as [synthetic name t decimals builder enable new self s1 Hp].
  destruct (do_push_ok _ _ _ _ _ _ _ _ _ Hwf Hp) as (Hwf1 & (c1 & Hc1 & _ & Hd1 & _) & Hnew & Hother).
  destruct (decide (token = t)) as [->|Hne].
  - destruct new.
    + unfold lookup_token in Hc. by rewrite Hnew in Hc.
    + destruct (IH Hwf1 c1 Hc1) as (Hwf' & c' & Hc' & Hd'). split; [done|]. exists c'.
      split; [done|]. rewrite Hd', Hd1. symmetry. by apply Hnew.
  - apply IH; [done|]. by apply Hother.
Qed.
End TokenMap.

(** ** Examples *)
#[local] Existing Instance z_bitmap.
#[local] Existing Instance z_bitmap_laws.

Definition empty_token_map : TokenMap := mkTokenMap (zeroed 0 MAX_TOKENS) [].

Definition builder_example : UpdateTokenConfigParams :=
  mkUpdateTokenConfigParams 30 4 [0; 77; 0; 0] [0; 0; 0; 0] (Some 1).

(** Two tokens, then the first one is disabled. *)
Definition token_map_example : TokenMap * store_result unit :=
  (do! _ := do_push_token_map false [83] 5 9 builder_example true true in
   do_push_token_map true [66] 3 8 default_update_params true true) empty_token_map.

Definition token_map_example' : TokenMap * store_result unit :=
  do_push_token_map false [83] 5 9 builder_example false false (fst token_map_example).

Example token_map_example_ok :
  snd token_map_example = Ok tt /\ snd token_map_example' = Ok tt /\
  snd (do_push_token_map false [83] 5 6 builder_example false false (fst token_map_example)) =
    Err (Core CoreError.TokenDecimalsChanged).
Proof. by vm_compute. Qed.

Lemma token_map_example_wf : TokenMapWf (fst token_map_example).
Proof.
  assert (H0 : TokenMapWf empty_token_map) by (constructor; [apply (zeroed_wf 0 MAX_TOKENS)|done|done]).
  assert (H1 : snd token_map_example = Ok tt) by (by vm_compute). unfold token_map_example in *.
  destruct (sbind _ _ _) as [s r] eqn:Hs. simpl in *. subst r.
  apply sbind_ok in Hs as (s1 & [] & Hp1 & Hp2).
  apply do_push_ok in Hp1 as [Hw1 _]; [|done]. by apply do_push_ok in Hp2 as [Hw2 _].
Qed.

Example token_decimals_fixed_example :
  exists c', lookup_token (fst token_map_example') 5 = Some c' /\ token_decimals c' = 9.
Proof.
  destruct (lookup_token (fst token_map_example) 5) as [c|] eqn:Hc; [|vm_compute in Hc; discriminate Hc].
  destruct (token_decimals_fixed (fst token_map_example) (fst token_map_example') 5 c)
    as (_ & c' & Hc' & Hd); [exact token_map_example_wf| |exact Hc|].
  - apply rtc_once, (PushStep false [83] 5 9 builder_example false false).
    unfold token_map_example'. apply run_ok. vm_compute. reflexivity.
  - exists c'. split; [exact Hc'|]. rewrite Hd. vm_compute in Hc. injection Hc as <-. reflexivity.
Defined.
