(* ===== verification/Oracle.v ===== *)
(** * Oracle prices

    The prices that the instructions of the store program run with: custom price feeds
    ([states/oracle/feed.rs]), the readers of the other providers ([pyth.rs], [chainlink.rs],
    [switchboard.rs]), the price map ([price_map.rs]), the validation of times ([validator.rs],
    [time.rs]) and the oracle account ([mod.rs]). An instruction sets the prices of the tokens
    it needs from the feed accounts it is given, runs, and clears them ([with_prices]).

    The accounts of other programs are read by code outside of the repository: the fields of
    [Accounts] are what it returns. The clock is an argument, and the token map a function (the
    trait [TokenMapAccess]).

    [set_prices_ok] says what holds of every price that an instruction can see, and
    [market_prices_ok] that these are prices that the model of the market asks for. *)
From stdpp Require Import gmap.
From S2P Require Import Prelude.
From S2P Require Import Kinds.
From S2P Require Import CoreErrors.
From S2P Require Import Num.
From S2P Require Import Price.
From S2P Require Import FixedMap.
From S2P Require Import Flags.
From S2P Require Import Roles.
From S2P Require Import Decimal.
From S2P Require Import TokenConfig.
From S2P Require Import MarketFacts.
#[local] Open Scope Z_scope.

Record Clock : Type := mkClock { slot : Z; unix_timestamp : Z }.

(** [gmsol_utils::Price]. *)
Record DecimalPrice : Type := mkDecimalPrice { dmin : Decimal; dmax : Decimal }.

(** [i64::saturating_add_unsigned]. *)
Definition saturating_add (a b : Z) : Z := Z.min (a + b) (@i_max u64).
(** [checked_sub_unsigned] and [checked_add_unsigned] of [i64]. *)
Definition checked_sub_unsigned (a b : Z) : option Z := @try_i u64 (a - b).
Definition checked_add_unsigned (a b : Z) : option Z := @try_i u64 (a + b).

Definition require_gte (a b : Z) (e : CoreError.CoreError) : store_result unit := require (b <=? a) e.

Lemma require_gte_ok a b e u : require_gte a b e = Ok u <-> b <= a.
Proof. unfold require_gte. rewrite require_ok. apply Z.leb_le. Qed.

(** [map_err] to a single error. *)
Definition map_err {E E' A} (r : Result E A) (e : E') : Result E' A :=
  match r with Ok a => Ok a | Err _ => Err e | Panic msg => Panic msg end.

Lemma map_err_ok {E E' A} (r : Result E A) (e : E') a : map_err r e = Ok a <-> r = Ok a.
Proof. destruct r; simpl; split; congruence. Qed.

Definition to_decimal (config : TokenConfig) (price decimals : Z) : store_result Decimal :=
  map_err (try_from_price price decimals (token_decimals config) (precision config))
    (Core CoreError.InvalidPriceFeedPrice).

(** ** Custom price feeds *)

Inductive PriceFlag : Type := Open.
#[export] Instance PriceFlag_eq_dec : EqDecision PriceFlag.
Proof. solve_decision. Defined.
Definition price_flag_to_index (f : PriceFlag) : nat := match f with Open => 0 end.

Record PriceFeedPrice : Type := mkPriceFeedPrice {
  pf_decimals : Z; pf_flags : FlagContainer; pf_ts : Z;
  pf_price : Z; pf_min_price : Z; pf_max_price : Z }.

Record PriceFeed : Type := mkPriceFeed {
  pf_bump : Z; pf_provider : Z; pf_index : Z; pf_store : Pubkey; pf_authority : Pubkey;
  pf_token : Pubkey; pf_feed_id : Pubkey;
  last_published_at_slot : Z; last_published_at : Z; feed_price : PriceFeedPrice }.

Definition init_feed (self : PriceFeed) (bump index : Z) (kind : PriceProviderKind)
    (store authority token feed_id : Pubkey) : PriceFeed :=
  mkPriceFeed bump (provider_to_u8 kind) index store authority token feed_id
    (last_published_at_slot self) (last_published_at self) (feed_price self).

(** [PriceFeed::update], with [Clock::get()] as [clock]. *)
Definition update_feed (clock : Clock) (self : PriceFeed) (price : PriceFeedPrice)
    (max_future_excess : Z) : store_result PriceFeed :=
  let current_ts := unix_timestamp clock in
  let! _ := require_gte (slot clock) (last_published_at_slot self) CoreError.PreconditionsAreNotMet in
  let! _ := require_gte current_ts (last_published_at self) CoreError.PreconditionsAreNotMet in
  let! _ := require_gte (pf_ts price) (pf_ts (feed_price self)) CoreError.InvalidArgument in
  let! _ := require_gte (saturating_add current_ts max_future_excess) (pf_ts price) CoreError.InvalidArgument in
  let! _ := require_gte (pf_max_price price) (pf_min_price price) CoreError.InvalidArgument in
  let! _ := require_gte (pf_max_price price) (pf_price price) CoreError.InvalidArgument in
  let! _ := require_gte (pf_price price) (pf_min_price price) CoreError.InvalidArgument in
  Ok (mkPriceFeed (pf_bump self) (pf_provider self) (pf_index self) (pf_store self)
        (pf_authority self) (pf_token self) (pf_feed_id self) (slot clock) current_ts price).

Definition feed_provider (self : PriceFeed) : store_result PriceProviderKind :=
  ok_or (provider_from_u8 (pf_provider self)) (Core CoreError.InvalidProviderKindIndex).

Definition try_to_price (self : PriceFeedPrice) (config : TokenConfig) : store_result DecimalPrice :=
  let! min := to_decimal config (pf_min_price self) (pf_decimals self) in
  let! max := to_decimal config (pf_max_price self) (pf_decimals self) in
  Ok (mkDecimalPrice min max).

(** The age test that the feeds share: [i64] subtraction panics on overflow. *)
Definition check_heartbeat (clock : Clock) (timestamp : Z) (config : TokenConfig) : store_result unit :=
  let current := unix_timestamp clock in
  if timestamp <? current then
    let! age := arith (@isub u64 current timestamp) in
    if heartbeat_duration config <? age then Err (Core CoreError.PriceFeedNotUpdated) else Ok tt
  else Ok tt.

(** [require_eq!] without an error of its own is Anchor's [RequireEqViolated]. *)
Definition require_eq_provider (a b : PriceProviderKind) : store_result unit :=
  if decide (a = b) then Ok tt else Err (Anchor "RequireEqViolated").

(** ** Reports of Chainlink data streams ([chainlink-datastreams/src/report.rs])

    A signed number is its sign and its magnitude. *)
Record Report : Type := mkReport {
  observations_timestamp : Z; r_price : bool * Z; r_bid : bool * Z; r_ask : bool * Z }.

Definition REPORT_DECIMALS : Z := 18.

Definition non_negative (num : bool * Z) : option Z := if fst num then Some (snd num) else None.

Section Feed.
Context {B : Type} `{BitmapLaws MAX_FLAGS B}.

Definition is_market_open (self : PriceFeedPrice) : bool :=
  get_flag price_flag_to_index (pf_flags self) Open.

Definition check_and_get_price (clock : Clock) (self : PriceFeed) (config : TokenConfig)
    : store_result (Z * Z * DecimalPrice) :=
  let! provider := feed_provider self in
  let! expected := expected_provider config in
  let! _ := require_eq_provider expected provider in
  let! feed_id := get_feed config provider in
  let! _ := require (pf_feed_id self =? feed_id) CoreError.InvalidPriceFeedAccount in
  let! _ := require (is_market_open (feed_price self)) CoreError.MarketNotOpen in
  let timestamp := pf_ts (feed_price self) in
  let! _ := check_heartbeat clock timestamp config in
  let! price := try_to_price (feed_price self) config in
  Ok (last_published_at_slot self, timestamp, price).

Definition from_chainlink_report (report : Report) : store_result PriceFeedPrice :=
  let negative := Core CoreError.NegativePriceIsNotSupported in
  let! price := ok_or (non_negative (r_price report)) negative in
  let! bid := ok_or (non_negative (r_bid report)) negative in
  let! ask := ok_or (non_negative (r_ask report)) negative in
  let! _ := require (price <=? ask) CoreError.InvalidPriceReport in
  let! _ := require (bid <=? price) CoreError.InvalidPriceReport in
  let divisor_decimals := find_divisor_decimals ask in
  let! _ := require_gte REPORT_DECIMALS divisor_decimals CoreError.PriceOverflow in
  let divisor := TEN ^ divisor_decimals in
  let unwrap n := expect (@try_u u128 n) "called `Result::unwrap()` on an `Err` value" in
  let! decimals := arith (@usub u8 REPORT_DECIMALS divisor_decimals) in
  let! p := unwrap (price / divisor) in
  let! min := unwrap (bid / divisor) in
  let! max := unwrap (ask / divisor) in
  let flags := fst (set_flag price_flag_to_index (default_flags (B:=B)) Open true) in
  Ok (mkPriceFeedPrice decimals flags (observations_timestamp report) p min max).
End Feed.

(** ** The other providers

    What the accounts of other programs say. [pyth_price]: [get_price_no_older_than] of the
    Pyth receiver, given the clock, the greatest age and the feed id. *)
Record PythPrice : Type := mkPythPrice {
  py_price : Z; py_conf : Z; py_exponent : Z; py_publish_time : Z; py_posted_slot : Z }.
Record Round : Type := mkRound { answer : Z; round_timestamp : Z; round_slot : Z }.
(** Minimum and maximum are decimals of the crate [rust_decimal]: a mantissa and a scale. *)
Record SbFeed : Type := mkSbFeed {
  result_ts : Z; result_land_slot : Z; min_value : option (Z * Z); max_value : option (Z * Z) }.

(** A number in base ten to a [u64]. *)
Definition checked_pow10_u64 (exponent : Z) : option Z := @try_u u64 (10 ^ exponent).

Definition pyth_price_value_to_decimal (value exponent : Z) (config : TokenConfig) : store_result Decimal :=
  let invalid := Core CoreError.InvalidPriceFeedPrice in
  let! (value, decimals) :=
    if exponent <=? 0 then
      let! e := arith (@try_i u32 (- exponent)) in
      let! decimals := ok_or (@try_u u8 e) invalid in
      Ok (value, decimals)
    else
      let! factor := ok_or (checked_pow10_u64 exponent) invalid in
      let! value := ok_or (@umul u64 value factor) invalid in
      Ok (value, 0) in
  to_decimal config value decimals.

Definition pyth_price_with_confidence_to_price (price confidence exponent : Z) (config : TokenConfig)
    : store_result DecimalPrice :=
  let invalid := Core CoreError.InvalidPriceFeedPrice in
  let! mid_price := ok_or (@try_u u64 price) invalid in
  let! min_price := ok_or (@usub u64 mid_price confidence) invalid in
  let! max_price := ok_or (@uadd u64 mid_price confidence) invalid in
  let! min := pyth_price_value_to_decimal min_price exponent config in
  let! max := pyth_price_value_to_decimal max_price exponent config in
  Ok (mkDecimalPrice min max).

(** [*timestamp as i64] of a [u32]. *)
Definition check_and_get_price_from_round (clock : Clock) (round : Round) (decimals : Z)
    (config : TokenConfig) : store_result (Z * Z * DecimalPrice) :=
  let! _ := require (0 <? answer round) CoreError.InvalidPriceFeedPrice in
  let timestamp := round_timestamp round in
  let! _ := check_heartbeat clock timestamp config in
  let! price := to_decimal config (answer round) decimals in
  Ok (round_slot round, timestamp, mkDecimalPrice price price).

Definition from_rust_decimal_price (price : Z * Z) (config : TokenConfig) : store_result Decimal :=
  let invalid := Core CoreError.InvalidPriceFeedPrice in
  let! mantissa := ok_or (@try_u u128 (fst price)) invalid in
  let! scale := ok_or (@try_u u8 (snd price)) invalid in
  to_decimal config mantissa scale.

Definition switchboard_price_from (feed : SbFeed) (config : TokenConfig) : store_result DecimalPrice :=
  let! min_price := ok_or (min_value feed) (Core CoreError.PriceIsStale) in
  let! min := from_rust_decimal_price min_price config in
  let! max_price := ok_or (max_value feed) (Core CoreError.PriceIsStale) in
  let! max := from_rust_decimal_price max_price config in
  Ok (mkDecimalPrice min max).

Definition switchboard_check_and_get_price (clock : Clock) (config : TokenConfig) (feed : SbFeed)
    : store_result (Z * Z * DecimalPrice) :=
  let result_ts := result_ts feed in
  let! _ := require_gte (saturating_add result_ts (heartbeat_duration config)) (unix_timestamp clock)
              CoreError.PriceFeedNotUpdated in
  let! price := switchboard_price_from feed config in
  Ok (result_land_slot feed, result_ts, price).

(** ** Accounts *)

(** The accounts that an instruction is given, read by the programs they belong to. *)
Class Accounts (Account : Type) := {
  account_key : Account -> Pubkey;
  account_owner : Account -> Pubkey;
  load_price_feed : Account -> store_result PriceFeed;
  pyth_price : Clock -> Z -> Pubkey -> Account -> store_result PythPrice;
  latest_round_data : Account -> store_result Round;
  chainlink_decimals : Account -> store_result Z;
  load_switchboard : Account -> store_result SbFeed;
  (** The programs. *)
  CHAINLINK_ID : Pubkey;
  PYTH_ID : Pubkey;
  SWITCHBOARD_ID : Pubkey;
  STORE_ID : Pubkey }.

Record OraclePrice : Type := mkOraclePrice {
  provider : PriceProviderKind; oracle_slot : Z; oracle_ts : Z; price : DecimalPrice }.

Section Parse.
Context {B : Type} `{BitmapLaws MAX_FLAGS B} {Account : Type} `{Accounts Account}.

Definition from_program_id (program_id : Pubkey) : option PriceProviderKind :=
  if program_id =? CHAINLINK_ID then Some Chainlink
  else if program_id =? PYTH_ID then Some Pyth
  else if program_id =? SWITCHBOARD_ID then Some Switchboard
  else None.

Definition pyth_check_and_get_price (clock : Clock) (config : TokenConfig) (account : Account)
    (feed_id : Pubkey) : store_result (Z * Z * DecimalPrice) :=
  let! p := pyth_price clock (heartbeat_duration config) feed_id account in
  let! parsed := pyth_price_with_confidence_to_price (py_price p) (py_conf p) (py_exponent p) config in
  Ok (py_posted_slot p, py_publish_time p, parsed).

Definition check_and_get_chainlink_price (clock : Clock) (config : TokenConfig) (account : Account)
    : store_result (Z * Z * DecimalPrice) :=
  let! round := latest_round_data account in
  let! decimals := chainlink_decimals account in
  check_and_get_price_from_round clock round decimals config.

(** [OraclePrice::parse_from_feed_account]; [chainlink] says whether the program is given. *)
Definition parse_from_feed_account (clock : Clock) (config : TokenConfig) (chainlink : bool)
    (account : Account) : store_result OraclePrice :=
  let! (provider, parsed) :=
    match from_program_id (account_owner account) with
    | Some provider => Ok (provider, None)
    | None =>
        if account_owner account =? STORE_ID then
          let! feed := load_price_feed account in
          let! kind := feed_provider feed in
          let! p := check_and_get_price clock feed config in
          Ok (kind, Some p)
        else Err (Core CoreError.InvalidPriceFeedAccount)
    end in
  let! expected := expected_provider config in
  let! _ := require_eq_provider expected provider in
  let! feed_id := get_feed config provider in
  let same_account := require (feed_id =? account_key account) CoreError.InvalidPriceFeedAccount in
  let! (slot, ts, price) :=
    match provider with
    | ChainlinkDataStreams => ok_or parsed (Core CoreError.Internal)
    | Pyth => pyth_check_and_get_price clock config account feed_id
    | Chainlink =>
        let! _ := same_account in
        let! _ := require chainlink CoreError.ChainlinkProgramIsRequired in
        check_and_get_chainlink_price clock config account
    | Switchboard =>
        let! _ := same_account in
        let! feed := load_switchboard account in
        switchboard_check_and_get_price clock config feed
    end in
  Ok (mkOraclePrice provider slot ts price).
End Parse.

(** ** The price map *)

Record SmallPrices : Type := mkSmallPrices {
  sp_multiplier : Z; sp_flags : Z; sp_min : Z; sp_max : Z }.

Definition default_small_prices : SmallPrices := mkSmallPrices 0 0 0 0.
Definition SYNTHETIC_FLAGS : Z := 255.

Definition small_min (self : SmallPrices) : Decimal := mkDecimal (sp_min self) (sp_multiplier self).
Definition small_max (self : SmallPrices) : Decimal := mkDecimal (sp_max self) (sp_multiplier self).

Definition from_price (price : DecimalPrice) (is_synthetic : bool) : store_result SmallPrices :=
  let! _ := require (decimal_multiplier (dmin price) =? decimal_multiplier (dmax price))
              CoreError.InvalidArgument in
  let! _ := require (negb (Decimal.value (dmin price) =? 0)) CoreError.InvalidArgument in
  let! _ := require_gte (Decimal.value (dmax price)) (Decimal.value (dmin price)) CoreError.InvalidArgument in
  let flags := if is_synthetic then SYNTHETIC_FLAGS else 0 in
  Ok (mkSmallPrices (decimal_multiplier (dmin price)) flags (Decimal.value (dmin price))
        (Decimal.value (dmax price))).

Definition small_is_synthetic (self : SmallPrices) : bool := sp_flags self =? SYNTHETIC_FLAGS.

Definition MAX_PRICES : nat := 512.

(** [PriceMap::set]. *)
Definition set_price (token : Pubkey) (price : DecimalPrice) (is_synthetic : bool)
    : ST (FixedMap SmallPrices) StoreError unit :=
  do! p := slift (from_price price is_synthetic) in
  do! _ := insert pubkey_to_bytes MAX_PRICES token p in
  sret tt.

(** ** Times *)

Record PriceValidator : Type := mkPriceValidator {
  v_clock : Clock; max_age : Z; max_oracle_timestamp_range : Z; max_future_timestamp_excess : Z;
  v_min_oracle_ts : Z; v_max_oracle_ts : Z; v_min_oracle_slot : option Z }.

(** [TryFrom<&Store>]: the three amounts of the store and the clock. *)
Definition new_validator (clock : Clock) (age range excess : Z) : PriceValidator :=
  mkPriceValidator clock age range excess (@i_max u64) (@i_min u64) None.

Definition merge_range (self : PriceValidator) (min_slot : option Z) (min_ts max_ts : Z) : PriceValidator :=
  let slot :=
    match v_min_oracle_slot self, min_slot with
    | Some current, Some other => Some (Z.min current other)
    | None, Some slot | Some slot, None => Some slot
    | None, None => None
    end in
  mkPriceValidator (v_clock self) (max_age self) (max_oracle_timestamp_range self)
    (max_future_timestamp_excess self) (Z.min (v_min_oracle_ts self) min_ts)
    (Z.max (v_max_oracle_ts self) max_ts) slot.

Definition validate_one (self : PriceValidator) (config : TokenConfig) (provider : PriceProviderKind)
    (oracle_ts oracle_slot : Z) : store_result PriceValidator :=
  let overflow := Core CoreError.TokenAmountOverflow in
  let! timestamp_adjustment := timestamp_adjustment config provider in
  let! ts := ok_or (checked_sub_unsigned oracle_ts timestamp_adjustment) overflow in
  let! expiration_ts := ok_or (checked_add_unsigned ts (max_age self)) overflow in
  let current_ts := unix_timestamp (v_clock self) in
  let! _ := require_gte expiration_ts current_ts CoreError.MaxPriceAgeExceeded in
  let! _ := require_gte (saturating_add current_ts (max_future_timestamp_excess self)) oracle_ts
              CoreError.MaxPriceTimestampExceeded in
  Ok (merge_range self (Some oracle_slot) ts ts).

Definition finish (self : PriceValidator) : store_result (option (Z * Z * Z)) :=
  let! range := ok_or (@isub u64 (v_max_oracle_ts self) (v_min_oracle_ts self))
                  (Core CoreError.TokenAmountOverflow) in
  let! range := ok_or (@try_u u64 range) (Core CoreError.InvalidOracleTimestampsRange) in
  let! _ := require_gte (max_oracle_timestamp_range self) range CoreError.MaxOracleTimestampsRangeExceeded in
  Ok ((fun slot => (slot, v_min_oracle_ts self, v_max_oracle_ts self)) <$> v_min_oracle_slot self).

(** ** The oracle account *)

Inductive OracleFlag : Type := Cleared.
#[export] Instance OracleFlag_eq_dec : EqDecision OracleFlag.
Proof. solve_decision. Defined.
Definition oracle_flag_to_index (f : OracleFlag) : nat := match f with Cleared => 0 end.

Record Oracle : Type := mkOracle {
  oracle_store : Pubkey; oracle_authority : Pubkey;
  min_oracle_ts : Z; max_oracle_ts : Z; oracle_min_slot : Z;
  primary : FixedMap SmallPrices; oracle_flags : FlagContainer }.

(** Trait [ValidateOracleTime]. *)
Record ValidateOracleTime : Type := mkValidateOracleTime {
  oracle_updated_after : store_result (option Z);
  oracle_updated_before : store_result (option Z);
  oracle_updated_after_slot : store_result (option Z) }.

Section Oracle.
Context {B : Type} `{BitmapLaws MAX_FLAGS B} {Account : Type} `{Accounts Account}.

Abbreviation OM A := (ST Oracle StoreError A).

Definition set_oracle_times (self : Oracle) (min_ts max_ts min_slot : Z) : Oracle :=
  mkOracle (oracle_store self) (oracle_authority self) min_ts max_ts min_slot (primary self)
    (oracle_flags self).
Definition set_primary (self : Oracle) (primary : FixedMap SmallPrices) : Oracle :=
  mkOracle (oracle_store self) (oracle_authority self) (min_oracle_ts self) (max_oracle_ts self)
    (oracle_min_slot self) primary (oracle_flags self).
Definition set_cleared (self : Oracle) (v : bool) : Oracle :=
  mkOracle (oracle_store self) (oracle_authority self) (min_oracle_ts self) (max_oracle_ts self)
    (oracle_min_slot self) (primary self) (fst (set_flag oracle_flag_to_index (oracle_flags self) Cleared v)).

Definition is_cleared (self : Oracle) : bool := get_flag oracle_flag_to_index (oracle_flags self) Cleared.

Definition clear_all_prices : OM unit :=
  do! _ := szoom primary (fun p self => set_primary self p) (clear default_small_prices) in
  do! _ := smodify (fun self => set_oracle_times self (@i_max u64) (@i_min u64) (@u_max u64)) in
  smodify (fun self => set_cleared self true).

Definition init_oracle (store authority : Pubkey) : OM unit :=
  do! _ := clear_all_prices in
  smodify (fun self =>
    mkOracle store authority (min_oracle_ts self) (max_oracle_ts self) (oracle_min_slot self)
      (primary self) (oracle_flags self)).

Definition min_oracle_slot (self : Oracle) : option Z :=
  if is_cleared self then None else Some (oracle_min_slot self).

Definition update_oracle_ts_and_slot (validator : PriceValidator) : OM unit :=
  do! validator := sread (fun self =>
    Ok (merge_range validator (min_oracle_slot self) (min_oracle_ts self) (max_oracle_ts self))) in
  do! r := slift (finish validator) in
  match r with
  | Some (min_slot, min_ts, max_ts) =>
      do! _ := smodify (fun self => set_oracle_times self min_ts max_ts min_slot) in
      smodify (fun self => set_cleared self false)
  | None => sret tt
  end.

(** The body of the loop: one token with its feed account. *)
Definition set_price_from_account (get_config : Pubkey -> option TokenConfig) (chainlink : bool)
    (token : Pubkey) (feed : Account) : ST (PriceValidator * Oracle) StoreError unit :=
  do! config := slift (ok_or (get_config token) (Core CoreError.NotFound)) in
  do! _ := slift (require (is_token_enabled config) CoreError.TokenConfigDisabled) in
  do! p := sread (fun '(v, _) => parse_from_feed_account (v_clock v) config chainlink feed) in
  do! _ := szoom fst (fun v s => (v, snd s)) (supdate (fun v =>
             validate_one v config (provider p) (oracle_ts p) (oracle_slot p))) in
  szoom (fun s => primary (snd s)) (fun m s => (fst s, set_primary (snd s) m))
    (set_price token (price p) (is_synthetic config)).

Definition set_prices_from_remaining_accounts (validator : PriceValidator)
    (get_config : Pubkey -> option TokenConfig) (tokens : list Pubkey)
    (remaining_accounts : list Account) (chainlink : bool) : OM unit :=
  do! _ := sread (fun self => require (is_cleared self) CoreError.PricesAreAlreadySet) in
  do! _ := sread (fun self => require (is_empty (primary self)) CoreError.PricesAreAlreadySet) in
  do! _ := slift (require (length tokens <=? MAX_PRICES)%nat CoreError.ExceedMaxLengthLimit) in
  do! _ := slift (if (length tokens <=? length remaining_accounts)%nat then Ok tt
                  else Err (Anchor "AccountNotEnoughKeys")) in
  fun self =>
    match sfor_each (fun '(token, feed) => set_price_from_account get_config chainlink token feed)
            (zip tokens remaining_accounts) (validator, self) with
    | ((validator, self), Ok tt) => update_oracle_ts_and_slot validator self
    | ((_, self), Err e) => (self, Err e)
    | ((_, self), Panic msg) => (self, Panic msg)
    end.

(** [f] is given the accounts behind the feeds. *)
Definition with_prices {T} (validator : PriceValidator) (get_config : Pubkey -> option TokenConfig)
    (tokens : list Pubkey) (remaining_accounts : list Account) (chainlink : bool)
    (f : list Account -> OM T) : OM T :=
  do! _ := slift (require_gte (Z.of_nat (length remaining_accounts)) (Z.of_nat (length tokens))
                    CoreError.NotEnoughTokenFeeds) in
  let feeds := take (length tokens) remaining_accounts in
  let remaining_accounts := drop (length tokens) remaining_accounts in
  do! res := stry (set_prices_from_remaining_accounts validator get_config tokens feeds chainlink) in
  match res with
  | Ok _ =>
      do! output := stry (f remaining_accounts) in
      do! _ := clear_all_prices in
      slift output
  | Err err =>
      do! _ := clear_all_prices in
      slift (Err err)
  | Panic msg => slift (Panic msg)
  end.

(** [time.rs]. *)
Definition validate_min_oracle_ts (target : ValidateOracleTime) (self : Oracle) : store_result unit :=
  let! after := oracle_updated_after target in
  match after with
  | None => Ok tt
  | Some after =>
      if min_oracle_ts self <? after then Err (Core CoreError.OracleTimestampsAreSmallerThanRequired)
      else Ok tt
  end.

Definition validate_max_oracle_ts (target : ValidateOracleTime) (self : Oracle) : store_result unit :=
  let! before := oracle_updated_before target in
  match before with
  | None => Ok tt
  | Some before =>
      if before <? max_oracle_ts self then Err (Core CoreError.OracleTimestampsAreLargerThanRequired)
      else Ok tt
  end.

Definition validate_min_oracle_slot (target : ValidateOracleTime) (self : Oracle) : store_result unit :=
  match min_oracle_slot self with
  | None => Err (Core CoreError.OracleNotUpdated)
  | Some min_slot =>
      let! after := oracle_updated_after_slot target in
      match after with
      | None => Ok tt
      | Some after => if min_slot <? after then Err (Core CoreError.InvalidOracleSlot) else Ok tt
      end
  end.

Definition validate_time (target : ValidateOracleTime) (self : Oracle) : store_result unit :=
  if max_oracle_ts self <? min_oracle_ts self then Err (Core CoreError.InvalidOracleTimestampsRange)
  else
    let! _ := validate_min_oracle_slot target self in
    let! _ := validate_min_oracle_ts target self in
    validate_max_oracle_ts target self.

Definition get_primary_price (token : Pubkey) (allow_synthetic : bool) : OM Price :=
  do! p := szoom primary (fun m self => set_primary self m) (FixedMap.get pubkey_to_bytes token) in
  do! p := slift (ok_or p (Core CoreError.MissingOraclePrice)) in
  do! _ := slift (if allow_synthetic then Ok tt
                  else require (negb (small_is_synthetic p)) CoreError.SyntheticTokenPriceIsNotAllowed) in
  do! min := slift (to_unit_price (small_min p)) in
  do! max := slift (to_unit_price (small_max p)) in
  sret (mkPrice min max).

(** The tokens of a market: index, long and short. *)
Definition market_prices (index long short : Pubkey) : OM Prices :=
  do! i := get_primary_price index true in
  do! l := get_primary_price long false in
  do! s := get_primary_price short false in
  sret (mkPrices i l s).
End Oracle.

(** ** The prices that are stored are ordered and positive *)

Definition good_decimal (d : Decimal) : Prop :=
  0 <= Decimal.value d < 2 ^ 32 /\ 0 <= decimal_multiplier d <= 20.

Definition good_small (sp : SmallPrices) : Prop :=
  0 < sp_min sp <= sp_max sp /\ sp_max sp < 2 ^ 32 /\ 0 <= sp_multiplier sp <= 20.

(** Decimals and precision are [u8]. *)
Definition config_ok (config : TokenConfig) : Prop :=
  @in_u u8 (token_decimals config) /\ @in_u u8 (precision config).

Lemma arith_ok {E} (o : option Z) z : arith (E:=E) o = Ok z <-> o = Some z.
Proof. apply expect_ok. Qed.

Lemma to_decimal_good config price decimals d :
  config_ok config -> to_decimal config price decimals = Ok d -> good_decimal d.
Proof.
  intros [[Htd _] [Hp _]] Hd. unfold to_decimal in Hd. apply map_err_ok in Hd. unfold try_from_price in Hd.
  destruct (_ || _); [done|]. apply rbind_ok in Hd as (sum & _ & Hd). destruct (_ <? _); [done|].
  apply rbind_ok in Hd as ([price' e] & _ & Hd). apply rbind_ok in Hd as (m & Hm & Hd).
  apply rbind_ok in Hd as (mult & _ & Hd). apply rbind_ok in Hd as (v & _ & [= <-]).
  apply rbind_ok in Hm as (a & Ha%arith_ok & Hm%arith_ok).
  apply usub_some in Ha as [-> _]. apply usub_some in Hm as [-> [Hm _]]. unfold MAX_DECIMALS in *.
  split; simpl; [apply Z.mod_pos_bound; lia|lia].
Qed.

(** Both bounds of a price. *)
Definition good_price (p : DecimalPrice) : Prop := good_decimal (dmin p) /\ good_decimal (dmax p).

Ltac price_steps :=
  repeat match goal with
  | H : rbind _ _ = Ok _ |- _ => let x := fresh "x" in let Hx := fresh "Hx" in
      apply rbind_ok in H as (x & Hx & H)
  end.
Ltac decimal_good := by (eapply to_decimal_good; eassumption).

Section ParseGood.
Context {B : Type} `{BitmapLaws MAX_FLAGS B} {Account : Type} `{Accounts Account}.
Context (config : TokenConfig) (Hconfig : config_ok config).

Lemma try_to_price_good feed p : try_to_price feed config = Ok p -> good_price p.
Proof. intros Hp. unfold try_to_price in Hp. price_steps. injection Hp as <-. split; decimal_good. Qed.

Lemma pyth_decimal_good v e d : pyth_price_value_to_decimal v e config = Ok d -> good_decimal d.
Proof.
  intros Hd. unfold pyth_price_value_to_decimal in Hd. apply rbind_ok in Hd as ([v' n] & _ & Hd).
  decimal_good.
Qed.

Lemma pyth_price_good v c e p : pyth_price_with_confidence_to_price v c e config = Ok p -> good_price p.
Proof.
  intros Hp. unfold pyth_price_with_confidence_to_price in Hp. price_steps. injection Hp as <-.
  split; eapply pyth_decimal_good; eassumption.
Qed.

Lemma switchboard_good feed p : switchboard_price_from feed config = Ok p -> good_price p.
Proof.
  intros Hp. unfold switchboard_price_from, from_rust_decimal_price in Hp. price_steps.
  injection Hp as <-. split; decimal_good.
Qed.

Lemma parse_good clock chainlink account p :
  parse_from_feed_account clock config chainlink account = Ok p -> good_price (price p).
Proof.
  intros Hp. unfold parse_from_feed_account in Hp. apply rbind_ok in Hp as ([kind parsed] & Hparsed & Hp).
  apply rbind_ok in Hp as (expected & _ & Hp). apply rbind_ok in Hp as (u & _ & Hp).
  apply rbind_ok in Hp as (feed_id & _ & Hp). apply rbind_ok in Hp as ([[slot ts] price] & Hr & [= <-]).
  simpl. destruct kind; simpl in Hr.
  - apply ok_or_ok in Hr as ->. destruct (from_program_id _); [by injection Hparsed|].
    destruct (_ =? _); [|done]. price_steps. injection Hparsed as _ ->.
    unfold check_and_get_price in *. price_steps.
    match goal with H : Ok _ = Ok _ |- _ => injection H as _ _ <- end.
    eapply try_to_price_good; eassumption.
  - unfold pyth_check_and_get_price in Hr. price_steps. injection Hr as _ _ <-.
    eapply pyth_price_good; eassumption.
  - unfold check_and_get_chainlink_price, check_and_get_price_from_round in Hr. price_steps.
    injection Hr as _ _ <-. split; decimal_good.
  - unfold switchboard_check_and_get_price in Hr. price_steps. injection Hr as _ _ <-.
    eapply switchboard_good; eassumption.
Qed.
End ParseGood.

Lemma from_price_good p b sp : good_price p -> from_price p b = Ok sp -> good_small sp.
Proof.
  intros [[Hmin Hm] [Hmax _]] Hf. unfold from_price in Hf.
  apply rbind_ok in Hf as (u & H1%require_ok & Hf). apply rbind_ok in Hf as (u2 & H2%require_ok & Hf).
  apply rbind_ok in Hf as (u3 & H3%require_gte_ok & [= <-]).
  apply negb_true_iff, Z.eqb_neq in H2. unfold good_small. simpl. lia.
Qed.

(** ** Setting the prices *)

Section SetPrices.
Context {B : Type} `{BitmapLaws MAX_FLAGS B} {Account : Type} `{Accounts Account}.
Context (get_config : Pubkey -> option TokenConfig) (chainlink : bool).

Abbreviation OM A := (ST Oracle StoreError A).

(** The price [sp] of [token] was read from [account] and passed every test of [validator]:
    its time, adjusted, is [ts]. *)
Record Accepted (validator : PriceValidator) (token : Pubkey) (account : Account)
    (sp : SmallPrices) (ts slot : Z) : Prop := mkAccepted {
  acc_config : TokenConfig;
  acc_price : OraclePrice;
  acc_found : get_config token = Some acc_config;
  acc_enabled : is_token_enabled acc_config = true;
  acc_parsed : parse_from_feed_account (v_clock validator) acc_config chainlink account = Ok acc_price;
  acc_stored : from_price (price acc_price) (is_synthetic acc_config) = Ok sp;
  acc_slot : oracle_slot acc_price = slot;
  acc_adjusted : exists a, timestamp_adjustment acc_config (provider acc_price) = Ok a /\
    ts = oracle_ts acc_price - a;
  acc_age : unix_timestamp (v_clock validator) - ts <= max_age validator;
  acc_future : oracle_ts acc_price - unix_timestamp (v_clock validator) <=
    max_future_timestamp_excess validator }.

(** What validators that differ only in what they have merged have in common. *)
Definition same_limits (v v' : PriceValidator) : Prop :=
  v_clock v' = v_clock v /\ max_age v' = max_age v /\
  max_oracle_timestamp_range v' = max_oracle_timestamp_range v /\
  max_future_timestamp_excess v' = max_future_timestamp_excess v.

(** The validator covers a time and a slot. *)
Definition covers (v : PriceValidator) (ts slot : Z) : Prop :=
  v_min_oracle_ts v <= ts <= v_max_oracle_ts v /\
  exists s, v_min_oracle_slot v = Some s /\ s <= slot.

Lemma merge_range_covers v slot min_ts max_ts :
  (forall ts s, covers v ts s -> covers (merge_range v slot min_ts max_ts) ts s) /\
  same_limits v (merge_range v slot min_ts max_ts).
Proof.
  split; [|done]. intros ts s [Hts (s0 & Hs0 & Hle)]. split; simpl; [lia|].
  rewrite Hs0. destruct slot as [slot|]; [exists (Z.min s0 slot)|exists s0]; (split; [done|lia]).
Qed.

(** What the loop has established after the pairs [done] of tokens and accounts. *)
Record Progress (v0 : PriceValidator) (done : list (Pubkey * Account)) (s : PriceValidator * Oracle) : Prop := {
  pg_wf : FixedMap.Wf MAX_PRICES (primary (snd s));
  pg_limits : same_limits v0 (fst s);
  pg_priced (token : Pubkey) : token ∈ done.*1 -> is_Some (to_map (primary (snd s)) !! token);
  pg_accepted (token : Pubkey) (sp : SmallPrices) : to_map (primary (snd s)) !! token = Some sp ->
    exists account ts slot, (token, account) ∈ done /\ Accepted v0 token account sp ts slot /\
      covers (fst s) ts slot }.

Lemma insert_price_ok token sp (m m' : FixedMap SmallPrices) o :
  FixedMap.Wf MAX_PRICES m -> insert pubkey_to_bytes MAX_PRICES token sp m = (m', Ok o) ->
  FixedMap.Wf MAX_PRICES m' /\ to_map m' = <[token := sp]> (to_map m).
Proof.
  intros Hwf Hi. destruct (insert_simulates pubkey_to_bytes MAX_PRICES token sp m Hwf) as [Hr Hm].
  rewrite Hi in Hr, Hm. simpl in Hr, Hm. unfold spec_insert, pubkey_to_bytes in *.
  destruct (Hm eq_refl) as [Hwf' Hmap]. split; [done|]. rewrite Hmap. clear Hm Hmap Hi.
  destruct (to_map m !! token); [done|]. by destruct (_ <=? _)%nat.
Qed.

Lemma validate_one_ok v config kind ots slot v' :
  validate_one v config kind ots slot = Ok v' ->
  exists a, timestamp_adjustment config kind = Ok a /\
    unix_timestamp (v_clock v) - (ots - a) <= max_age v /\
    ots - unix_timestamp (v_clock v) <= max_future_timestamp_excess v /\
    v' = merge_range v (Some slot) (ots - a) (ots - a).
Proof.
  intros Hv. unfold validate_one in Hv. apply rbind_ok in Hv as (a & Ha & Hv).
  apply rbind_ok in Hv as (ts & Hts%ok_or_ok & Hv). apply rbind_ok in Hv as (ex & Hex%ok_or_ok & Hv).
  apply rbind_ok in Hv as (u1 & H1'%require_gte_ok & Hv).
  apply rbind_ok in Hv as (u2 & H2'%require_gte_ok & [= <-]).
  apply try_i_some in Hts as [-> _]. apply try_i_some in Hex as [-> _]. unfold saturating_add in H2'.
  exists a. split_and!; [done|lia|lia|done].
Qed.

Lemma merged_covers v slot ts : covers (merge_range v (Some slot) ts ts) ts slot.
Proof.
  split; simpl; [lia|]. destruct (v_min_oracle_slot v) as [s|]; [exists (Z.min s slot)|exists slot];
    (split; [done|lia]).
Qed.

Lemma set_price_step v0 done token account s s' :
  Progress v0 done s -> set_price_from_account get_config chainlink token account s = (s', Ok tt) ->
  Progress v0 (done ++ [(token, account)]) s' /\ oracle_flags (snd s') = oracle_flags (snd s).
Proof.
  intros [Hwf Hlim Hpriced Hacc] Hs. unfold set_price_from_account in Hs.
  apply sbind_ok in Hs as (s1 & config & [-> Hcfg%ok_or_ok]%slift_ok & Hs).
  apply sbind_ok in Hs as (s1 & u & [-> Hen%require_ok]%slift_ok & Hs).
  apply sbind_ok in Hs as (s1 & p & [-> Hp]%sread_ok & Hs). destruct s as [v o]. simpl in *.
  apply sbind_ok in Hs as (s1 & u1 & (v' & Hv%supdate_ok & ->)%szoom_ok & Hs). simpl in *.
  apply szoom_ok in Hs as (m & Hm & ->). simpl in *.
  unfold set_price in Hm. apply sbind_ok in Hm as (m1 & sp & [-> Hsp]%slift_ok & Hm).
  apply sbind_ok in Hm as (m2 & prev & Hi & [-> _]%sret_ok).
  destruct (insert_price_ok _ _ _ _ _ Hwf Hi) as [Hwf' Hmap].
  apply validate_one_ok in Hv as (a & Ha & Hage & Hfuture & ->).
  destruct (merge_range_covers v (Some (oracle_slot p)) (oracle_ts p - a) (oracle_ts p - a)) as [Hcov Hlim'].
  destruct Hlim as (Hl1 & Hl2 & Hl3 & Hl4). split; [|done]. constructor; simpl; [done|by destruct Hlim'| |].
  - intros t. rewrite fmap_app, Hmap. intros [Ht|Ht]%elem_of_app.
    + rewrite lookup_insert. case_decide; [done|by apply Hpriced].
    + apply list_elem_of_singleton in Ht as ->. by rewrite lookup_insert_eq.
  - intros t sp'. rewrite Hmap, lookup_insert. case_decide as Ht.
    + intros [= <-]. subst t. exists account, (oracle_ts p - a), (oracle_slot p).
      split; [apply elem_of_app; right; by apply list_elem_of_singleton|].
      split; [|apply merged_covers]. rewrite Hl1, Hl2, Hl4 in *. apply (mkAccepted v0 token account sp _ _ config p); try done.
      by exists a.
    + intros Hsp'. destruct (Hacc t sp' Hsp') as (acct & ts & slot & Hin & Hok & Hc).
      exists acct, ts, slot. split; [apply elem_of_app; by left|]. split; [done|by apply Hcov].
Qed.

Lemma set_prices_loop v0 pairs done s s' :
  Progress v0 done s ->
  sfor_each (fun '(token, feed) => set_price_from_account get_config chainlink token feed) pairs s = (s', Ok tt) ->
  Progress v0 (done ++ pairs) s' /\ oracle_flags (snd s') = oracle_flags (snd s).
Proof.
  revert done s. induction pairs as [|[token account] pairs IH]; intros done s Hpg Hs; simpl in Hs.
  { apply sret_ok in Hs as [-> _]. by rewrite app_nil_r. }
  apply sbind_ok in Hs as (s1 & [] & H1' & Hs).
  destruct (set_price_step _ _ _ _ _ _ Hpg H1') as [Hpg1 Hf1].
  destruct (IH _ _ Hpg1 Hs) as [Hpg2 Hf2]. rewrite <- app_assoc in Hpg2. split; [done|congruence].
Qed.

(** The oracle between two instructions. *)
Definition OracleWf (self : Oracle) : Prop := FixedMap.Wf MAX_PRICES (primary self).

Lemma set_cleared_is self v : is_cleared (set_cleared self v) = v.
Proof.
  unfold is_cleared, set_cleared. cbn [oracle_flags]. rewrite get_set_flag; [by rewrite decide_True| |].
  - intros []. unfold MAX_FLAGS. simpl. lia.
  - by intros [] [].
Qed.

Lemma update_ts_ok v self self' :
  update_oracle_ts_and_slot v self = (self', Ok tt) ->
  primary self' = primary self /\
  (forall ts slot, covers v ts slot ->
     min_oracle_ts self' <= ts <= max_oracle_ts self' /\ oracle_min_slot self' <= slot /\
     max_oracle_ts self' - min_oracle_ts self' <= max_oracle_timestamp_range v /\
     is_cleared self' = false).
Proof.
  intros Hu. unfold update_oracle_ts_and_slot in Hu.
  apply sbind_ok in Hu as (s1 & v' & [-> [= Hv']]%sread_ok & Hu).
  destruct (merge_range_covers v (min_oracle_slot self) (min_oracle_ts self) (max_oracle_ts self))
    as [Hcov (_ & _ & Hrange & _)]. rewrite Hv' in Hcov, Hrange.
  apply sbind_ok in Hu as (s1 & r & [-> Hf]%slift_ok & Hu). unfold finish in Hf.
  apply rbind_ok in Hf as (range & Hr1%ok_or_ok & Hf). apply rbind_ok in Hf as (range' & Hr2%ok_or_ok & Hf).
  apply rbind_ok in Hf as (u & Hle%require_gte_ok & [= <-]).
  apply isub_some in Hr1 as [-> _]. apply try_u_some in Hr2 as [-> _].
  destruct (v_min_oracle_slot v') as [slot|] eqn:Hslot; simpl in Hu.
  - apply sbind_ok in Hu as (s1 & [] & ->%smodify_ok & Hu). apply smodify_ok in Hu as ->.
    split; [done|]. intros ts s Hc. apply Hcov in Hc as [Hts (s0 & Hs0 & Hle0)].
    rewrite Hslot in Hs0. injection Hs0 as <-. rewrite set_cleared_is. split_and!; cbn; (lia || done).
  - apply sret_ok in Hu as [-> _]. split; [done|]. intros ts s Hc.
    apply Hcov in Hc as [_ (s0 & Hs0 & _)]. congruence.
Qed.

Lemma empty_map_nil (m : FixedMap SmallPrices) :
  FixedMap.Wf MAX_PRICES m -> is_empty m = true -> to_map m = ∅.
Proof.
  intros Hwf He. apply map_size_empty_inv. rewrite (size_to_map MAX_PRICES) by done.
  unfold is_empty in He. by apply Nat.eqb_eq in He.
Qed.

Lemma set_prices_ok validator tokens accounts self self' :
  OracleWf self ->
  set_prices_from_remaining_accounts validator get_config tokens accounts chainlink self = (self', Ok tt) ->
  OracleWf self' /\ (length tokens <= length accounts)%nat /\
  (forall token, token ∈ tokens -> is_Some (to_map (primary self') !! token)) /\
  (forall token sp, to_map (primary self') !! token = Some sp ->
     exists account ts slot, (token, account) ∈ zip tokens accounts /\
       Accepted validator token account sp ts slot /\
       min_oracle_ts self' <= ts <= max_oracle_ts self' /\ oracle_min_slot self' <= slot /\
       max_oracle_ts self' - min_oracle_ts self' <= max_oracle_timestamp_range validator /\
       is_cleared self' = false).
Proof.
  intros Hwf Hs. unfold set_prices_from_remaining_accounts in Hs.
  apply sbind_ok in Hs as (s1 & u1 & [-> Hcl%require_ok]%sread_ok & Hs).
  apply sbind_ok in Hs as (s1 & u2 & [-> He%require_ok]%sread_ok & Hs).
  apply sbind_ok in Hs as (s1 & u3 & [-> _]%slift_ok & Hs).
  apply sbind_ok in Hs as (s1 & u4 & [-> Hlen]%slift_ok & Hs).
  destruct (Nat.leb_spec (length tokens) (length accounts)) as [Hle|]; [clear Hlen|done].
  destruct (sfor_each _ _ (validator, self)) as [[v o] r] eqn:Hloop.
  destruct r as [[]|e|msg]; [|done|done].
  assert (Hpg : Progress validator [] (validator, self)).
  { constructor; simpl; [done|done|by intros ? ?%not_elem_of_nil|]. intros t sp.
    rewrite (empty_map_nil _ Hwf He). by rewrite lookup_empty. }
  destruct (set_prices_loop _ _ _ _ _ Hpg Hloop) as [[Hwf' Hlim Hpriced Hacc] _]. simpl in *.
  apply update_ts_ok in Hs as [Hprim Hcov]. unfold OracleWf. rewrite Hprim.
  destruct Hlim as (_ & _ & Hr & _). split; [done|]. split; [done|]. split.
  - intros token Ht. apply Hpriced. by rewrite fst_zip.
  - intros token sp Hsp. destruct (Hacc token sp Hsp) as (account & ts & slot & Hin & Hok & Hc).
    exists account, ts, slot. rewrite <- Hr. split; [done|]. split; [done|]. by apply Hcov.
Qed.
End SetPrices.

(** ** Reading the prices *)

Section ReadPrices.
Context {B : Type} `{BitmapLaws MAX_FLAGS B} {Account : Type} `{Accounts Account}.

(** Every stored price is ordered, positive and has a sane multiplier. *)
Definition GoodPrices (self : Oracle) : Prop :=
  OracleWf self /\ forall token sp, to_map (primary self) !! token = Some sp -> good_small sp.

(** A positive, ordered price of the unsigned type. *)
Definition sound_price (p : Price) : Prop :=
  0 < price_min p <= price_max p /\ @in_u u128 (price_max p).

Lemma good_small_unit sp :
  good_small sp ->
  exists p, to_unit_price (E:=StoreError) (small_min sp) = Ok (price_min p) /\
    to_unit_price (E:=StoreError) (small_max sp) = Ok (price_max p) /\ sound_price p.
Proof.
  intros ([Hpos Hord] & Hmax & Hm).
  exists (mkPrice (sp_min sp * 10 ^ sp_multiplier sp) (sp_max sp * 10 ^ sp_multiplier sp)).
  unfold small_min, small_max. rewrite !to_unit_price_ok by lia.
  assert (0 < 10 ^ sp_multiplier sp <= 10 ^ 20) by (split; [apply pow10_pos; lia|apply Z.pow_le_mono_r; lia]).
  split; [done|]. split; [done|]. unfold sound_price, in_u, u_max. simpl. nia.
Qed.

Lemma get_primary_price_spec token synthetic self :
  GoodPrices self ->
  fst (get_primary_price token synthetic self) = self /\
  panics (snd (get_primary_price token synthetic self)) = false /\
  forall p, snd (get_primary_price token synthetic self) = Ok p -> sound_price p.
Proof.
  intros [Hwf Hgood]. unfold get_primary_price, szoom, sbind.
  rewrite (get_eq _ MAX_PRICES) by done. unfold pubkey_to_bytes.
  assert (set_primary self (primary self) = self) as -> by (by destruct self).
  destruct (to_map (primary self) !! token) as [sp|] eqn:Hsp; [|by split_and!].
  destruct (good_small_unit sp (Hgood _ _ Hsp)) as (p & Hmin & Hmax & Hp).
  unfold slift, ok_or, sret, require. cbn -[to_unit_price small_min small_max].
  destruct synthetic; [|destruct (small_is_synthetic sp); [by split_and!|]]; cbn -[to_unit_price];
    rewrite Hmin, Hmax; (split; [done|split; [done|]]); intros q [= <-]; by destruct p.
Qed.

Lemma market_prices_spec index long short self :
  GoodPrices self ->
  fst (market_prices index long short self) = self /\
  panics (snd (market_prices index long short self)) = false /\
  forall ps, snd (market_prices index long short self) = Ok ps ->
    sound_price (index_token_price ps) /\ sound_price (long_token_price ps) /\
    sound_price (short_token_price ps).
Proof.
  intros Hgood. unfold market_prices, sbind.
  destruct (get_primary_price_spec index true self Hgood) as (H1' & H2' & H3').
  destruct (get_primary_price index true self) as [s1 r1]. simpl in H1'. subst s1.
  destruct r1 as [i|e|msg]; simpl in *; [|by split_and!|done].
  destruct (get_primary_price_spec long false self Hgood) as (H4' & H5' & H6').
  destruct (get_primary_price long false self) as [s2 r2]. simpl in H4'. subst s2.
  destruct r2 as [l|e|msg]; simpl in *; [|by split_and!|done].
  destruct (get_primary_price_spec short false self Hgood) as (H7' & H8' & H9').
  destruct (get_primary_price short false self) as [s3 r3]. simpl in H7'. subst s3.
  destruct r3 as [s|e|msg]; simpl in *; [|by split_and!|done].
  split; [done|]. split; [done|]. intros ps [= <-]. simpl. split_and!; auto.
Qed.

Lemma set_prices_good get_config chainlink validator tokens accounts self self' :
  OracleWf self -> (forall token config, get_config token = Some config -> config_ok config) ->
  set_prices_from_remaining_accounts validator get_config tokens accounts chainlink self = (self', Ok tt) ->
  GoodPrices self'.
Proof.
  intros Hwf Hcfg Hs. destruct (set_prices_ok _ _ _ _ _ _ _ Hwf Hs) as (Hwf' & _ & _ & Hacc).
  split; [done|]. intros token sp Hsp. destruct (Hacc token sp Hsp) as (account & ts & slot & _ & Hok & _).
  destruct Hok as [config p Hfound _ Hparsed Hstored _ _ _ _].
  eapply from_price_good; [|exact Hstored]. eapply parse_good; [|exact Hparsed]. by eapply Hcfg.
Qed.

Lemma clear_all_prices_ok self :
  OracleWf self ->
  exists self', clear_all_prices self = (self', Ok tt) /\ OracleWf self' /\
    is_cleared self' = true /\ is_empty (primary self') = true /\
    oracle_store self' = oracle_store self /\ oracle_authority self' = oracle_authority self.
Proof.
  intros Hwf. destruct (clear_spec default_small_prices MAX_PRICES (primary self) Hwf)
    as (m & Hc & Hwf' & Hmap).
  unfold clear_all_prices, szoom, sbind, smodify. rewrite Hc. eexists. split; [done|].
  split; [done|]. split; [apply set_cleared_is|]. split; [|done]. simpl. unfold is_empty.
  apply Nat.eqb_eq. pose proof (size_to_map MAX_PRICES m Hwf') as Hsize.
  rewrite Hmap, map_size_empty in Hsize. done.
Qed.

(** C22: The prices that an instruction runs with: every requested token has one; each was read
    from an account given for that token, with an enabled configuration, and passed the tests of
    the provider; after its adjustment its time is at most the maximum age old, it is at most the
    allowed excess in the future, and it lies, as its slot does, within the times that the
    oracle records, which span no more than the allowed range. *)
Theorem oracle_prices_validated (get_config : Pubkey -> option TokenConfig) (chainlink : bool)
    (validator : PriceValidator) (tokens : list Pubkey) (accounts : list Account) (self self' : Oracle) :
  OracleWf self ->
  set_prices_from_remaining_accounts validator get_config tokens accounts chainlink self = (self', Ok tt) ->
  (forall token, token ∈ tokens -> is_Some (to_map (primary self') !! token)) /\
  (forall token sp, to_map (primary self') !! token = Some sp ->
     exists account ts slot, (token, account) ∈ zip tokens accounts /\
       Accepted get_config chainlink validator token account sp ts slot /\
       min_oracle_ts self' <= ts <= max_oracle_ts self' /\ oracle_min_slot self' <= slot /\
       max_oracle_ts self' - min_oracle_ts self' <= max_oracle_timestamp_range validator /\
       is_cleared self' = false).
Proof. intros Hwf Hs. by destruct (set_prices_ok _ _ _ _ _ _ _ Hwf Hs) as (_ & _ & ? & ?). Qed.

(** C30: The prices of a market that the oracle hands to the model, after prices have been set
    from any accounts: reading them never panics and leaves the oracle alone, and they are
    positive, ordered [u128] prices, which is what the theorems on the actions of a market
    ask of them. *)
Theorem market_prices_sound (get_config : Pubkey -> option TokenConfig) (chainlink : bool)
    (validator : PriceValidator) (tokens : list Pubkey) (accounts : list Account) (self self' : Oracle)
    (index long short : Pubkey) :
  OracleWf self -> (forall token config, get_config token = Some config -> config_ok config) ->
  set_prices_from_remaining_accounts validator get_config tokens accounts chainlink self = (self', Ok tt) ->
  fst (market_prices index long short self') = self' /\
  panics (snd (market_prices index long short self')) = false /\
  forall ps, snd (market_prices index long short self') = Ok ps ->
    @prices_in_range u128 ps /\ prices_ordered ps /\
    0 < price_min (index_token_price ps) /\ 0 < price_min (long_token_price ps) /\
    0 < price_min (short_token_price ps).
Proof.
  intros Hwf Hcfg Hs. pose proof (set_prices_good _ _ _ _ _ _ _ Hwf Hcfg Hs) as Hgood.
  destruct (market_prices_spec index long short self' Hgood) as (H1' & H2' & H3').
  split; [done|]. split; [done|]. intros ps Hps. destruct (H3' ps Hps) as (Hi & Hl & Hsh).
  unfold sound_price, prices_in_range, price_in_range, prices_ordered, price_ordered, in_u in *.
  split_and!; lia.
Qed.
End ReadPrices.

(** ** Instructions with prices *)

Section WithPrices.
Context {B : Type} `{BitmapLaws MAX_FLAGS B} {Account : Type} `{Accounts Account}.
Context (get_config : Pubkey -> option TokenConfig) (chainlink : bool).

(** A failing step leaves the map well formed. *)
Lemma set_price_step_wf token account s s' r :
  set_price_from_account get_config chainlink token account s = (s', r) ->
  FixedMap.Wf MAX_PRICES (primary (snd s)) -> panics r = false ->
  FixedMap.Wf MAX_PRICES (primary (snd s')).
Proof.
  destruct s as [v o]. intros Hs Hwf Hp. simpl in Hwf.
  unfold set_price_from_account, slift, sread, ok_or, require, sbind in Hs.
  destruct (get_config token) as [config|]; [|by injection Hs as <- <-].
  destruct (is_token_enabled config); [|by injection Hs as <- <-].
  destruct (parse_from_feed_account _ _ _ _) as [p| |]; [|by injection Hs as <- <-..].
  unfold szoom at 1, supdate in Hs. simpl in Hs.
  destruct (validate_one _ _ _ _ _) as [v'| |]; [|by injection Hs as <- <-..].
  unfold szoom, set_price, sbind, slift in Hs. simpl in Hs.
  destruct (from_price _ _) as [sp| |]; [|by injection Hs as <- <-..].
  destruct (insert_simulates pubkey_to_bytes MAX_PRICES token sp (primary o) Hwf) as [_ Hm].
  simpl in Hm. destruct (insert _ _ _ _ _) as [m [x| |]]; simpl in *; injection Hs as <- <-; try done;
    by apply Hm.
Qed.

Lemma set_prices_loop_wf pairs s s' r :
  sfor_each (fun '(token, feed) => set_price_from_account get_config chainlink token feed) pairs s = (s', r) ->
  FixedMap.Wf MAX_PRICES (primary (snd s)) -> panics r = false ->
  FixedMap.Wf MAX_PRICES (primary (snd s')).
Proof.
  revert s. induction pairs as [|[token account] pairs IH]; intros s Hs Hwf Hp; simpl in Hs.
  { by injection Hs as <- _. }
  unfold sbind in Hs. destruct (set_price_from_account _ _ _ _ s) as [s1 [u|e|msg]] eqn:Hstep.
  - eapply IH; [exact Hs| |done]. by eapply set_price_step_wf.
  - injection Hs as <- <-. by eapply set_price_step_wf.
  - by injection Hs as <- <-.
Qed.

Lemma set_prices_wf validator tokens accounts self self' r :
  set_prices_from_remaining_accounts validator get_config tokens accounts chainlink self = (self', r) ->
  OracleWf self -> panics r = false -> OracleWf self'.
Proof.
  intros Hs Hwf Hp. unfold set_prices_from_remaining_accounts, sbind, sread, slift, require in Hs.
  destruct (is_cleared self); [|by injection Hs as <- _].
  destruct (is_empty _); [|by injection Hs as <- _].
  destruct (length tokens <=? MAX_PRICES)%nat; [|by injection Hs as <- _].
  destruct (length tokens <=? length accounts)%nat; [|by injection Hs as <- _].
  destruct (sfor_each _ _ _) as [[v o] [[]|e|msg]] eqn:Hloop.
  - assert (Hwf' : OracleWf o) by (by apply (set_prices_loop_wf _ _ _ _ Hloop)).
    unfold update_oracle_ts_and_slot, sbind, sread, slift in Hs.
    destruct (finish _) as [[[[? ?] ?]|]| |]; injection Hs as <- _; apply Hwf'.
  - injection Hs as <- <-. by apply (set_prices_loop_wf _ _ _ _ Hloop).
  - by injection Hs as _ <-.
Qed.

(** C31: An instruction that needs prices cannot leave any behind. With fewer accounts than tokens it
    fails at once with [NotEnoughTokenFeeds] and leaves the oracle exactly as it was. Otherwise, whatever
    the accounts say and however the instruction ends, short of a panic, the oracle is cleared and
    empty, so the next instruction can set its own; and when it succeeds, the body ran, and succeeded,
    on the validated prices of exactly the requested tokens. So an oracle that is cleared before any
    instruction is cleared after it. *)
Theorem with_prices_clears {T : Type} (validator : PriceValidator) (tokens : list Pubkey)
    (accounts : list Account) (f : list Account -> ST Oracle StoreError T) (self : Oracle) :
  OracleWf self -> (forall rest o, OracleWf o -> OracleWf (fst (f rest o))) ->
  let out := with_prices validator get_config tokens accounts chainlink f self in
  panics (snd out) = false ->
  if (length accounts <? length tokens)%nat
  then out = (self, Err (Core CoreError.NotEnoughTokenFeeds))
  else OracleWf (fst out) /\ is_cleared (fst out) = true /\ is_empty (primary (fst out)) = true /\
    forall t, snd out = Ok t -> exists o,
      set_prices_from_remaining_accounts validator get_config tokens (take (length tokens) accounts)
        chainlink self = (o, Ok tt) /\
      snd (f (drop (length tokens) accounts) o) = Ok t.
Proof.
  intros Hwf Hf out. subst out. unfold with_prices, require_gte, sbind, slift.
  destruct (Nat.ltb_spec (length accounts) (length tokens)) as [Hlen|Hlen].
  { replace (Z.of_nat (length tokens) <=? Z.of_nat (length accounts)) with false
      by (symmetry; apply Z.leb_gt; lia). done. }
  replace (Z.of_nat (length tokens) <=? Z.of_nat (length accounts)) with true
    by (symmetry; apply Z.leb_le; lia). cbn [require].
  unfold stry.
  destruct (set_prices_from_remaining_accounts _ _ _ _ _ self) as [o [[]|e|msg]] eqn:Hset; [| |done].
  - pose proof (set_prices_wf _ _ _ _ _ _ Hset Hwf eq_refl) as Hwo.
    pose proof (Hf (drop (length tokens) accounts) o Hwo) as Hfo.
    destruct (f _ o) as [o' r'] eqn:Hrun. simpl in Hfo.
    destruct (clear_all_prices_ok o' Hfo) as (o2 & Hc & Hw2 & Hcl & He & _).
    destruct r' as [t|e|msg]; rewrite ?Hc; cbn; intros Hp; [| |done];
      (split; [done|]; split; [done|]; split; [done|]); [|done].
    intros t' [= <-]. exists o. by rewrite Hrun.
  - destruct (clear_all_prices_ok o (set_prices_wf _ _ _ _ _ _ Hset Hwf eq_refl))
      as (o2 & Hc & Hw2 & Hcl & He & _).
    rewrite Hc. cbn. intros _. by split_and!.
Qed.

(** The time check of an action against the oracle ([validate_time]): it passes exactly
    when prices are set and the recorded span of times is ordered and lies within what the action
    asks for, each bound only if it has one; so every price lies within those bounds. *)
Theorem validate_time_spec (after before after_slot : option Z) (self : Oracle) :
  let target := mkValidateOracleTime (Ok after) (Ok before) (Ok after_slot) in
  validate_time target self = Ok tt <->
  is_cleared self = false /\ min_oracle_ts self <= max_oracle_ts self /\
  (forall t, after = Some t -> t <= min_oracle_ts self) /\
  (forall t, before = Some t -> max_oracle_ts self <= t) /\
  (forall s, after_slot = Some s -> s <= oracle_min_slot self).
Proof.
  intros target. unfold validate_time, validate_min_oracle_slot, validate_min_oracle_ts,
    validate_max_oracle_ts, min_oracle_slot, rbind. subst target. cbn.
  destruct (Z.ltb_spec (max_oracle_ts self) (min_oracle_ts self)).
  { split; [done|]. intros (_ & ? & _). lia. }
  destruct (is_cleared self); [by split; [|intros [? _]]|]. cbn.
  destruct after_slot as [s|]; [destruct (Z.ltb_spec (oracle_min_slot self) s)|]; cbn;
    (destruct after as [a|]; [destruct (Z.ltb_spec (min_oracle_ts self) a)|]); cbn;
    (destruct before as [b|]; [destruct (Z.ltb_spec b (max_oracle_ts self))|]); cbn;
    (split; [intros Hr; try discriminate Hr; split_and!; try done; try lia; intros ? [= <-]; lia|
             intros (_ & _ & Ha & Hb & Hs); try done;
             try specialize (Ha _ eq_refl); try specialize (Hb _ eq_refl); try specialize (Hs _ eq_refl); lia]).
Qed.
End WithPrices.

(** ** Custom feeds *)

Section FeedFacts.
Context {B : Type} `{BitmapLaws MAX_FLAGS B}.

(** An update moves the clocks of a feed forwards only and stores an ordered price that is not
    too far in the future. *)
Lemma update_feed_ok clock self p excess self' :
  update_feed clock self p excess = Ok self' ->
  feed_price self' = p /\ pf_min_price p <= pf_price p <= pf_max_price p /\
  pf_ts (feed_price self) <= pf_ts p <= unix_timestamp clock + excess /\
  last_published_at_slot self <= last_published_at_slot self' /\ last_published_at_slot self' = slot clock /\
  last_published_at self <= last_published_at self' /\ last_published_at self' = unix_timestamp clock /\
  pf_feed_id self' = pf_feed_id self /\ pf_provider self' = pf_provider self.
Proof.
  intros Hu. unfold update_feed in Hu.
  apply rbind_ok in Hu as (u1 & H1'%require_gte_ok & Hu). apply rbind_ok in Hu as (u2 & H2'%require_gte_ok & Hu).
  apply rbind_ok in Hu as (u3 & H3'%require_gte_ok & Hu). apply rbind_ok in Hu as (u4 & H4'%require_gte_ok & Hu).
  apply rbind_ok in Hu as (u5 & H5'%require_gte_ok & Hu). apply rbind_ok in Hu as (u6 & H6'%require_gte_ok & Hu).
  apply rbind_ok in Hu as (u7 & H7'%require_gte_ok & [= <-]). unfold saturating_add in H4'.
  simpl. split_and!; (lia || done).
Qed.

(** A report gives a price with the decimals that are left, ordered as the report is, and no
    conversion panics. *)
Lemma from_chainlink_report_ok report :
  @in_u u192 (snd (r_price report)) -> @in_u u192 (snd (r_bid report)) -> @in_u u192 (snd (r_ask report)) ->
  panics (from_chainlink_report (B:=B) report) = false /\
  forall p, from_chainlink_report (B:=B) report = Ok p ->
    exists k, 0 <= k <= 18 /\ pf_decimals p = 18 - k /\
      pf_min_price p = snd (r_bid report) / 10 ^ k /\ pf_price p = snd (r_price report) / 10 ^ k /\
      pf_max_price p = snd (r_ask report) / 10 ^ k /\ is_market_open (B:=B) p = true /\
      pf_min_price p <= pf_price p <= pf_max_price p /\ @in_u u128 (pf_max_price p).
Proof.
  intros Hprice Hbid Hask. unfold from_chainlink_report, non_negative.
  destruct (r_price report) as [sp price], (r_bid report) as [sb bid], (r_ask report) as [sa ask].
  simpl in *. destruct sp; [|by split]. destruct sb; [|by split]. destruct sa; [|by split].
  unfold ok_or, rbind, require, require_gte, REPORT_DECIMALS, TEN.
  destruct (Z.leb_spec price ask); [|by split].
  destruct (Z.leb_spec bid price); [|by split].
  destruct (find_divisor_decimals_spec ask Hask) as (Hk & Hfit & _).
  set (k := find_divisor_decimals ask) in *. unfold require.
  destruct (Z.leb_spec k 18); [|by split].
  rewrite arith_usub by lia. pose proof (pow10_pos k).
  assert (Hq : forall n, 0 <= n <= ask -> @try_u u128 (n / 10 ^ k) = Some (n / 10 ^ k)).
  { intros n Hn. apply try_u_some. split; [done|]. unfold in_u in *. split; [apply div_nonneg; lia|].
    apply Z.div_le_upper_bound; lia. }
  unfold in_u in *. rewrite !Hq by lia. unfold expect. split; [done|]. intros p [= <-].
  exists k. cbn [pf_decimals pf_min_price pf_price pf_max_price].
  assert (Hmax : 0 <= ask / 10 ^ k <= @u_max u128).
  { split; [apply div_nonneg; lia|]. apply Z.div_le_upper_bound; lia. }
  split; [lia|]. split; [done|]. split; [done|]. split; [done|]. split; [done|]. split.
  - refine (get_set_flag price_flag_to_index (default_flags (B:=B)) Open Open true _ _);
      [|by intros [] []]. intros []. unfold MAX_FLAGS. simpl. lia.
  - split; [|done]. split; apply Z.div_le_mono; lia.
Qed.
End FeedFacts.

(** ** Examples

    One token with a custom feed; the accounts are feeds of the store. *)
#[local] Existing Instance z_bitmap.
#[local] Existing Instance z_bitmap_laws.

#[local] Instance feed_accounts : Accounts PriceFeed := {
  account_key f := pf_feed_id f;
  account_owner _ := 1;
  load_price_feed f := Ok f;
  pyth_price _ _ _ _ := Err (Anchor "AccountOwnedByWrongProgram");
  latest_round_data _ := Err (Anchor "AccountOwnedByWrongProgram");
  chainlink_decimals _ := Err (Anchor "AccountOwnedByWrongProgram");
  load_switchboard _ := Err (Anchor "AccountOwnedByWrongProgram");
  CHAINLINK_ID := 2; PYTH_ID := 3; SWITCHBOARD_ID := 4; STORE_ID := 1 }.

Definition config_example : TokenConfig :=
  mkTokenConfig [83] (mkFlagContainer 3) 9 4 0
    [mkFeedConfig 55 1; mkFeedConfig 0 0; mkFeedConfig 0 0; mkFeedConfig 0 0] 30.
Definition get_config_example (token : Pubkey) : option TokenConfig :=
  if token =? 5 then Some config_example else None.
Definition clock_example : Clock := mkClock 900 1000.
(** 150 dollars, quoted between 149.5 and 150.5, with 8 decimals. *)
Definition feed_example : PriceFeed :=
  mkPriceFeed 255 0 0 9 9 5 55 899 999
    (mkPriceFeedPrice 8 (mkFlagContainer 1) 995 15000000000 14950000000 15050000000).
Definition oracle_example : Oracle :=
  fst (init_oracle 9 9 (mkOracle 0 0 0 0 0 (zeroed default_small_prices MAX_PRICES) (mkFlagContainer 0))).
Definition validator_example : PriceValidator := new_validator clock_example 60 30 10.

Definition priced_example : Oracle * store_result unit :=
  set_prices_from_remaining_accounts validator_example get_config_example [5] [feed_example] false oracle_example.

Lemma oracle_example_wf : OracleWf oracle_example.
Proof.
  destruct (zeroed_wf default_small_prices MAX_PRICES) as [Hwf _].
  unfold oracle_example, init_oracle, sbind.
  destruct (clear_all_prices_ok (mkOracle 0 0 0 0 0 (zeroed default_small_prices MAX_PRICES) (mkFlagContainer 0)) Hwf)
    as (o & Hc & Hwo & _). rewrite Hc. exact Hwo.
Qed.

Lemma config_example_ok token config : get_config_example token = Some config -> config_ok config.
Proof.
  unfold get_config_example. destruct (token =? 5); [|done]. intros [= <-].
  split; split; vm_compute; discriminate.
Qed.

Lemma priced_example_run : priced_example = (fst priced_example, Ok tt).
Proof. apply run_ok. vm_compute. reflexivity. Qed.

Example oracle_prices_validated_witness :
  is_Some (to_map (primary (fst priced_example)) !! 5).
Proof.
  destruct (oracle_prices_validated get_config_example false validator_example [5] [feed_example]
    oracle_example (fst priced_example) oracle_example_wf priced_example_run) as [H _].
  apply H. by apply list_elem_of_singleton.
Defined.

Example market_prices_sound_witness :
  exists ps, snd (market_prices 5 5 5 (fst priced_example)) = Ok ps /\ prices_ordered ps /\
    long_token_price ps = mkPrice (1495000 * 10 ^ 7) (1505000 * 10 ^ 7).
Proof.
  destruct (snd (market_prices 5 5 5 (fst priced_example))) as [ps|e|m] eqn:Hps;
    [|vm_compute in Hps; discriminate Hps..].
  exists ps. split; [reflexivity|].
  destruct (market_prices_sound get_config_example false validator_example [5] [feed_example]
    oracle_example (fst priced_example) 5 5 5 oracle_example_wf config_example_ok priced_example_run)
    as (_ & _ & H).
  destruct (H ps Hps) as (_ & Hord & _). split; [exact Hord|].
  vm_compute in Hps. injection Hps as <-. reflexivity.
Defined.

(** The body checks the times of the prices, which were set at 994. *)
Definition session_example : Oracle * store_result unit :=
  with_prices validator_example get_config_example [5] [feed_example] false
    (fun _ => sread (validate_time (mkValidateOracleTime (Ok (Some 990)) (Ok (Some 994)) (Ok None))))
    oracle_example.

Example with_prices_clears_witness :
  snd session_example = Ok tt /\ is_cleared (fst session_example) = true.
Proof.
  split; [vm_compute; reflexivity|].
  apply (with_prices_clears get_config_example false validator_example [5] [feed_example]
    (fun _ => sread (validate_time (mkValidateOracleTime (Ok (Some 990)) (Ok (Some 994)) (Ok None))))
    oracle_example oracle_example_wf).
  - intros rest o Ho. exact Ho.
  - vm_compute. reflexivity.
Defined.
