(* ===== verification/Users.v ===== *)
(** * Users and referrals ([states/user.rs], [instructions/user.rs])

    The account of a user of a store, and the referral codes. A user owns at most one code, sets a
    referrer at most once, and hands a code over in two steps: the owner names the next owner, who
    accepts. The flags of a user are one flag ([user_is_initialized]); Module [Flags] has the
    container.

    [Referrals] is what one store has of both: users are found by their owner and codes by their
    address, as the seeds of the accounts say. [run_action] are the instructions: the constraints
    of their accounts, then the handler. Accounts that the instructions need but that do not exist
    fail with the framework's [AccountNotInitialized]. *)
From stdpp Require Import gmap.
From S2P Require Import Prelude.
From S2P Require Import MapSum.
From S2P Require Import CoreErrors.
From S2P Require Import Num.
From S2P Require Import Roles.
#[local] Open Scope Z_scope.

(** ** Accounts *)

Definition ReferralCodeBytes : Type := bytes.
Definition default_code : ReferralCodeBytes := replicate 8 0.

Record UserGtState : Type := mkUserGtState {
  rank : Z;
  last_minted_at : Z;
  total_minted : Z;
  gt_amount : Z;
  paid_fee_value : Z;
  minted_fee_value : Z;
}.

Record Referral : Type := mkReferral {
  referrer : Pubkey;
  code : Pubkey;
  referee_count : Z;
}.

Record UserHeader : Type := mkUserHeader {
  user_bump : Z;
  user_is_initialized : bool;
  user_owner : Pubkey;
  user_store : Pubkey;
  referral : Referral;
  gt : UserGtState;
}.

Record ReferralCodeV2 : Type := mkReferralCode {
  code_bump : Z;
  code_bytes : ReferralCodeBytes;
  code_store : Pubkey;
  code_owner : Pubkey;
  next_owner : Pubkey;
}.

Definition zeroed_user : UserHeader :=
  mkUserHeader 0 false 0 0 (mkReferral 0 0 0) (mkUserGtState 0 0 0 0 0 0).

Definition set_referral (self : UserHeader) (r : Referral) : UserHeader :=
  mkUserHeader (user_bump self) (user_is_initialized self) (user_owner self) (user_store self) r (gt self).

Definition set_gt (self : UserHeader) (g : UserGtState) : UserHeader :=
  mkUserHeader (user_bump self) (user_is_initialized self) (user_owner self) (user_store self)
    (referral self) g.

(** ** Operations of the accounts *)

Definition user_init (self : UserHeader) (store owner : Pubkey) (bump : Z) : store_result UserHeader :=
  let! _ := require (negb (user_is_initialized self)) CoreError.UserAccountHasBeenInitialized in
  Ok (mkUserHeader bump true owner store (referral self) (gt self)).

(** [Referral::set_code] and [Referral::set_referrer]; the latter also counts the referee. *)
Definition set_code (self : Referral) (c : Pubkey) : store_result Referral :=
  let! _ := require (code self =? DEFAULT_PUBKEY) CoreError.ReferralCodeHasBeenSet in
  Ok (mkReferral (referrer self) c (referee_count self)).

Definition set_referrer (self : Referral) (referrer_user : UserHeader) : store_result (Referral * UserHeader) :=
  let! _ := require (referrer self =? DEFAULT_PUBKEY) CoreError.ReferrerHasBeenSet in
  let! _ := require (negb (user_owner referrer_user =? DEFAULT_PUBKEY)) CoreError.InvalidArgument in
  let r := referral referrer_user in
  Ok (mkReferral (user_owner referrer_user) (code self) (referee_count self),
      set_referral referrer_user
        (mkReferral (referrer r) (code r) (Z.min (referee_count r + 1) (@u_max u128)))).

Definition referrer_of (self : Referral) : option Pubkey :=
  if referrer self =? DEFAULT_PUBKEY then None else Some (referrer self).

Definition code_init (bump : Z) (code : ReferralCodeBytes) (store owner : Pubkey) : ReferralCodeV2 :=
  mkReferralCode bump code store owner owner.

Definition set_next_owner (self : ReferralCodeV2) (next : Pubkey) : store_result ReferralCodeV2 :=
  let! _ := require (negb (next_owner self =? next)) CoreError.PreconditionsAreNotMet in
  Ok (mkReferralCode (code_bump self) (code_bytes self) (code_store self) (code_owner self) next).

(** What the two transfers check of the code and of both users. *)
Definition validate_transfer (self : UserHeader) (code_ : ReferralCodeV2) (receiver_user : UserHeader)
    : store_result unit :=
  let! _ := require (negb (bool_decide (code_bytes code_ = default_code))) CoreError.PreconditionsAreNotMet in
  let! _ := require (user_is_initialized self) CoreError.InvalidUserAccount in
  let! _ := require (user_is_initialized receiver_user) CoreError.InvalidUserAccount in
  require (code (referral receiver_user) =? DEFAULT_PUBKEY) CoreError.PreconditionsAreNotMet.

Definition unchecked_transfer_code (self : UserHeader) (code_ : ReferralCodeV2) (receiver_user : UserHeader)
    : store_result ReferralCodeV2 :=
  let! _ := validate_transfer self code_ receiver_user in
  set_next_owner code_ (user_owner receiver_user).

(** The user, the code and the receiver after the transfer. *)
Definition unchecked_complete_code_transfer (self : UserHeader) (code_ : ReferralCodeV2)
    (receiver_user : UserHeader) : store_result (UserHeader * ReferralCodeV2 * UserHeader) :=
  let! _ := validate_transfer self code_ receiver_user in
  let! _ := require (user_owner receiver_user =? next_owner code_) CoreError.PreconditionsAreNotMet in
  let r := referral self in
  let r' := referral receiver_user in
  Ok (set_referral self (mkReferral (referrer r) DEFAULT_PUBKEY (referee_count r)),
      mkReferralCode (code_bump code_) (code_bytes code_) (code_store code_) (user_owner receiver_user)
        (next_owner code_),
      set_referral receiver_user (mkReferral (referrer r') (code r) (referee_count r'))).

(** ** The users and codes of a store *)

Record Referrals : Type := mkReferrals {
  users : gmap Pubkey UserHeader;
  codes : gmap Pubkey ReferralCodeV2;
}.

(** The instructions; the first argument is the signer. *)
Inductive UserAction : Type :=
| PrepareUser (owner : Pubkey)
| InitializeReferralCode (owner : Pubkey) (code : ReferralCodeBytes)
| SetReferrer (owner : Pubkey) (code : ReferralCodeBytes) (referrer_owner : Pubkey)
| TransferReferralCode (owner : Pubkey) (code : ReferralCodeBytes) (receiver : Pubkey)
| CancelReferralCodeTransfer (owner : Pubkey) (code : ReferralCodeBytes)
| AcceptReferralCode (owner : Pubkey) (code : ReferralCodeBytes) (receiver : Pubkey).

(** A constraint of Anchor without an error of its own, [has_one]. *)
Definition has_one (b : bool) : store_result unit := if b then Ok tt else Err (Anchor "ConstraintHasOne").

Section Instructions.
(** The store, and the address of the account of a code. *)
Context (store : Pubkey) (bump : Pubkey -> Z) (code_address : ReferralCodeBytes -> Pubkey).

Definition find_user (self : Referrals) (owner : Pubkey) : store_result UserHeader :=
  ok_or (users self !! owner) (Anchor "AccountNotInitialized").
Definition find_code (self : Referrals) (c : ReferralCodeBytes) : store_result ReferralCodeV2 :=
  ok_or (codes self !! code_address c) (Anchor "AccountNotInitialized").

Definition put_user (u : UserHeader) (self : Referrals) : Referrals :=
  mkReferrals (<[user_owner u := u]> (users self)) (codes self).
Definition put_code (address : Pubkey) (c : ReferralCodeV2) (self : Referrals) : Referrals :=
  mkReferrals (users self) (<[address := c]> (codes self)).

Definition prepare_user (owner : Pubkey) (self : Referrals) : store_result Referrals :=
  let! user :=
    match users self !! owner with
    | None => user_init zeroed_user store owner (bump owner)
    | Some user => Ok user
    end in
  let! _ := require (user_is_initialized user) CoreError.InvalidUserAccount in
  let! _ := require (user_store user =? store) CoreError.InvalidUserAccount in
  let! _ := require (user_owner user =? owner) CoreError.InvalidUserAccount in
  let! _ := require (user_bump user =? bump owner) CoreError.InvalidUserAccount in
  Ok (put_user user self).

Definition initialize_referral_code (owner : Pubkey) (c : ReferralCodeBytes) (self : Referrals)
    : store_result Referrals :=
  let address := code_address c in
  let! _ := match codes self !! address with
            | Some _ => Err (Anchor "AccountAlreadyInUse")
            | None => Ok tt
            end in
  let! user := find_user self owner in
  let! _ := require (user_is_initialized user) CoreError.InvalidUserAccount in
  let! _ := has_one (user_owner user =? owner) in
  let! _ := has_one (user_store user =? store) in
  let! _ := require (negb (bool_decide (c = default_code))) CoreError.InvalidArgument in
  let! r := set_code (referral user) address in
  Ok (put_user (set_referral user r) (put_code address (code_init (bump address) c store owner) self)).

Definition handle_set_referrer (owner : Pubkey) (c : ReferralCodeBytes) (referrer_owner : Pubkey)
    (self : Referrals) : store_result Referrals :=
  let address := code_address c in
  let! user := find_user self owner in
  let! _ := has_one (user_owner user =? owner) in
  let! _ := has_one (user_store user =? store) in
  let! _ := require (user_is_initialized user) CoreError.InvalidUserAccount in
  let! code_ := find_code self c in
  let! _ := has_one (code_store code_ =? store) in
  let! _ := require (bool_decide (code_bytes code_ = c)) CoreError.ReferralCodeMismatched in
  let! referrer_user := find_user self referrer_owner in
  let! _ := has_one (user_store referrer_user =? store) in
  let! _ := require (user_is_initialized referrer_user) CoreError.InvalidUserAccount in
  let! _ := require (user_owner referrer_user =? code_owner code_) CoreError.OwnerMismatched in
  let! _ := require (code (referral referrer_user) =? address) CoreError.ReferralCodeMismatched in
  let! _ := require (negb (referrer_owner =? owner)) CoreError.SelfReferral in
  let! _ := require (negb (referrer (referral referrer_user) =? user_owner user)) CoreError.MutualReferral in
  let! (r, referrer_user) := set_referrer (referral user) referrer_user in
  Ok (put_user referrer_user (put_user (set_referral user r) self)).

(** The user that owns a code, as the three instructions on transfers ask for it. *)
Definition owner_of_code (owner : Pubkey) (c : ReferralCodeBytes) (self : Referrals)
    : store_result (UserHeader * ReferralCodeV2) :=
  let! user := find_user self owner in
  let! _ := has_one (user_store user =? store) in
  let! code_ := find_code self c in
  let! _ := require (user_owner user =? code_owner code_) CoreError.OwnerMismatched in
  let! _ := require (code (referral user) =? code_address c) CoreError.ReferralCodeMismatched in
  let! _ := has_one (code_store code_ =? store) in
  Ok (user, code_).

Definition transfer_referral_code (owner : Pubkey) (c : ReferralCodeBytes) (receiver : Pubkey)
    (self : Referrals) : store_result Referrals :=
  let! (user, code_) := owner_of_code owner c self in
  let! _ := has_one (user_owner user =? owner) in
  let! receiver_user := find_user self receiver in
  let! _ := has_one (user_store receiver_user =? store) in
  let! _ := require (negb (receiver =? owner)) CoreError.SelfReferral in
  let! code_ := unchecked_transfer_code user code_ receiver_user in
  Ok (put_code (code_address c) code_ self).

Definition cancel_referral_code_transfer (owner : Pubkey) (c : ReferralCodeBytes) (self : Referrals)
    : store_result Referrals :=
  let! (user, code_) := owner_of_code owner c self in
  let! _ := has_one (user_owner user =? owner) in
  let! code_ := set_next_owner code_ owner in
  Ok (put_code (code_address c) code_ self).

(** The receiver signs. *)
Definition accept_referral_code (owner : Pubkey) (c : ReferralCodeBytes) (receiver : Pubkey)
    (self : Referrals) : store_result Referrals :=
  let! (user, code_) := owner_of_code owner c self in
  let! receiver_user := find_user self receiver in
  let! _ := has_one (user_store receiver_user =? store) in
  let! _ := require (user_owner receiver_user =? receiver) CoreError.OwnerMismatched in
  let! _ := require (negb (receiver =? owner)) CoreError.SelfReferral in
  let! (users_, receiver_user) := unchecked_complete_code_transfer user code_ receiver_user in
  let (user, code_) := users_ in
  Ok (put_user receiver_user (put_user user (put_code (code_address c) code_ self))).

Definition run_action (a : UserAction) : Referrals -> store_result Referrals :=
  match a with
  | PrepareUser owner => prepare_user owner
  | InitializeReferralCode owner c => initialize_referral_code owner c
  | SetReferrer owner c referrer_owner => handle_set_referrer owner c referrer_owner
  | TransferReferralCode owner c receiver => transfer_referral_code owner c receiver
  | CancelReferralCodeTransfer owner c => cancel_referral_code_transfer owner c
  | AcceptReferralCode owner c receiver => accept_referral_code owner c receiver
  end.

(** A failing instruction leaves the accounts as they were. *)
Definition step_action (self : Referrals) (a : UserAction) : Referrals :=
  match run_action a self with Ok self' => self' | _ => self end.
End Instructions.

(** ** What always holds *)
Section Invariant.
Context (store : Pubkey) (bump : Pubkey -> Z) (code_address : ReferralCodeBytes -> Pubkey).
(** Addresses that are derived from seeds are not the default one. *)
Hypothesis code_address_set : forall c, code_address c <> DEFAULT_PUBKEY.
Implicit Types (w : Referrals) (o : Pubkey) (u : UserHeader) (c : ReferralCodeV2).

(** How many users a user has referred. *)
Definition referees w o : Z := map_sum (fun u => if referrer (referral u) =? o then 1 else 0) (users w).

Record ReferralsWf w : Prop := {
  wf_user o u : users w !! o = Some u ->
    user_owner u = o /\ user_is_initialized u = true /\ user_store u = store;
  wf_code a c : codes w !! a = Some c ->
    a = code_address (code_bytes c) /\ code_bytes c <> default_code /\ code_store c = store;
  (** The owner of a code has it, and a code that a user has is owned by that user. *)
  wf_code_owner a c : codes w !! a = Some c ->
    exists u, users w !! code_owner c = Some u /\ code (referral u) = a;
  wf_owned_code o u : users w !! o = Some u -> code (referral u) <> DEFAULT_PUBKEY ->
    exists c, codes w !! code (referral u) = Some c /\ code_owner c = o;
  (** Nobody refers themselves, no two users refer each other. *)
  wf_referrer o u : users w !! o = Some u -> referrer (referral u) <> DEFAULT_PUBKEY ->
    referrer (referral u) <> o
    /\ exists u', users w !! referrer (referral u) = Some u' /\ referrer (referral u') <> o;
  wf_count o u : users w !! o = Some u -> o <> DEFAULT_PUBKEY ->
    referee_count (referral u) = Z.min (referees w o) (@u_max u128);
}.

(** A referrer is never changed. *)
Definition keeps_referrers w w' : Prop :=
  forall o u, users w !! o = Some u ->
    exists u', users w' !! o = Some u' /\
      (referrer (referral u) <> DEFAULT_PUBKEY -> referrer (referral u') = referrer (referral u)).

Lemma has_one_ok b r : has_one b = Ok r <-> b = true.
Proof. destruct b, r; simpl; split; congruence. Qed.

Lemma code_nonzero w a c : ReferralsWf w -> codes w !! a = Some c -> a <> DEFAULT_PUBKEY.
Proof. intros Hwf Hc. destruct (wf_code _ Hwf _ _ Hc) as (-> & _). apply code_address_set. Qed.

Lemma prepare_user_wf owner w w' :
  ReferralsWf w -> prepare_user store bump owner w = Ok w' -> ReferralsWf w' /\ keeps_referrers w w'.
Proof.
  intros Hwf Hr. unfold prepare_user in Hr. apply rbind_ok in Hr as (user & Hu & Hr).
  apply rbind_ok in Hr as (? & _ & Hr). apply rbind_ok in Hr as (? & _ & Hr).
  apply rbind_ok in Hr as (? & Ho%require_ok%Z.eqb_eq & Hr). apply rbind_ok in Hr as (? & _ & [= <-]).
  unfold put_user. rewrite Ho. destruct (users w !! owner) as [u0|] eqn:Hk.
  - injection Hu as <-. rewrite insert_id by done. destruct w as [us cs]. split; [done|].
    intros o u Hou. eauto.
  - injection Hu as <-. clear Ho. destruct Hwf as [H1 H2 H3 H4 H5 H6].
    assert (Hneq : forall o u, users w !! o = Some u -> owner <> o) by congruence.
    assert (Hmono : forall o u, users w !! o = Some u ->
      <[owner:=mkUserHeader (bump owner) true owner store (mkReferral 0 0 0) (mkUserGtState 0 0 0 0 0 0)]> (users w)
        !! o = Some u) by (intros o u Hou; by apply lookup_insert_new).
    split; [|intros o u Hou; eauto]. split; simpl.
    + intros o u [[<- <-]|[_ Hou]]%lookup_insert_Some; [done|by apply H1].
    + done.
    + intros a c Hc. destruct (H3 a c Hc) as (u & Hu & Hcode). eauto.
    + intros o u [[<- <-]|[_ Hou]]%lookup_insert_Some; [done|by apply H4].
    + intros o u [[<- <-]|[_ Hou]]%lookup_insert_Some Hn; [done|].
      destruct (H5 o u Hou Hn) as (Hne & u' & Hu' & Hr'). eauto.
    + intros o u Hou Hn. unfold referees. cbn [users]. rewrite map_sum_insert, Hk. cbn [from_option referral referrer].
      assert (0 =? o = false) as -> by (apply Z.eqb_neq; unfold DEFAULT_PUBKEY in Hn; lia).
      apply lookup_insert_Some in Hou as [[<- <-]|[_ Hou]]; [|rewrite (H6 o u Hou Hn); unfold referees; f_equal; lia].
      cbn [referral referee_count]. rewrite map_sum_zero; [done|]. intros k u Hu.
      case_if Hb; [|done]. bool_to_prop. destruct (H5 k u Hu) as (_ & u' & Hu' & _); congruence.
Qed.

Lemma find_user_ok w o u : find_user w o = Ok u <-> users w !! o = Some u.
Proof. apply ok_or_ok. Qed.
Lemma find_code_ok w cb c : find_code code_address w cb = Ok c <-> codes w !! code_address cb = Some c.
Proof. apply ok_or_ok. Qed.

Lemma set_code_ok r a r' :
  set_code r a = Ok r' -> code r = DEFAULT_PUBKEY /\ r' = mkReferral (referrer r) a (referee_count r).
Proof. intros Hr. apply rbind_ok in Hr as (? & Hc%require_ok%Z.eqb_eq & [= <-]). done. Qed.

Lemma initialize_code_wf owner cb w w' :
  ReferralsWf w -> initialize_referral_code store bump code_address owner cb w = Ok w' ->
  ReferralsWf w' /\ keeps_referrers w w'.
Proof.
  intros Hwf Hr. unfold initialize_referral_code in Hr. apply rbind_ok in Hr as (? & Hnew & Hr).
  apply rbind_ok in Hr as (user & Hu%find_user_ok & Hr).
  do 3 apply rbind_ok in Hr as (? & _ & Hr). apply rbind_ok in Hr as (? & Hc0%require_ok & Hr).
  apply rbind_ok in Hr as (r & [Hcode ->]%set_code_ok & [= <-]).
  assert (codes w !! code_address cb = None) as Hnone by (by destruct (codes w !! _)). clear Hnew.
  apply negb_true_iff, bool_decide_eq_false in Hc0.
  destruct (wf_user _ Hwf _ _ Hu) as (Ho & Hi & Hs). pose proof (code_nonzero w) as Hnz.
  specialize (fun a c => Hnz a c Hwf). pose proof Hwf as [H1 H2 H3 H4 H5 H6].
  unfold put_user, put_code. set (user' := set_referral user _).
  change (user_owner user') with (user_owner user). rewrite Ho. cbn [users codes].
  split; [|intros o u Hou; simpl; destruct (decide (owner = o)) as [<-|Hne];
    [exists user'; rewrite lookup_insert_eq; simplify_eq; done|exists u; by rewrite lookup_insert_ne]].
  split; simpl.
  - intros o u [[<- <-]|[_ Hou]]%lookup_insert_Some; [|by apply H1]. subst user'. simpl. by rewrite Ho.
  - intros a c [[<- <-]|[_ Hc]]%lookup_insert_Some; [done|by apply H2].
  - intros a c [[<- <-]|[Hne Hc]]%lookup_insert_Some; [exists user'; by rewrite lookup_insert_eq|].
    destruct (H3 a c Hc) as (u & Hou & Hca). exists u. split; [|done]. rewrite lookup_insert_ne; [done|].
    intros Heq. rewrite <- Heq in Hou. simplify_eq. by apply Hnz in Hc.
  - intros o u [[<- <-]|[Hne Hou]]%lookup_insert_Some Hn.
    + eexists. rewrite lookup_insert_eq. done.
    + destruct (H4 o u Hou Hn) as (c & Hc & Hco). exists c. split; [|done]. rewrite lookup_insert_ne; congruence.
  - intros o u Hou Hn. assert (exists u0, users w !! o = Some u0 /\ referrer (referral u0) = referrer (referral u))
      as (u0 & Hu0 & Heq). { apply lookup_insert_Some in Hou as [[<- <-]|[_ Hou]]; eauto. }
    rewrite <- Heq in *. destruct (H5 o u0 Hu0 Hn) as (Hne & u' & Hu' & Hr'). split; [done|].
    destruct (decide (owner = referrer (referral u0))) as [Hre|Hne'].
    + exists user'. rewrite <- Hre in *. split; [apply lookup_insert_eq|].
      assert (u' = user) as -> by congruence. exact Hr'.
    + exists u'. by rewrite lookup_insert_ne.
  - intros o u Hou Hn. unfold referees. cbn [users]. rewrite map_sum_insert, Hu. simpl.
    apply lookup_insert_Some in Hou as [[<- <-]|[_ Hou]]; simpl; rewrite (H6 _ _ ltac:(done) Hn); unfold referees; f_equal; lia.
Qed.

(** A code changes hands in name only: [next_owner] is not part of the invariant. *)
Lemma put_next_owner_wf w a c next :
  ReferralsWf w -> codes w !! a = Some c ->
  ReferralsWf (put_code a (mkReferralCode (code_bump c) (code_bytes c) (code_store c) (code_owner c) next) w).
Proof.
  intros [H1 H2 H3 H4 H5 H6] Hc. split; simpl; [done| | | |done|done].
  - intros a' c' [[<- <-]|[_ Hc']]%lookup_insert_Some; [exact (H2 _ _ Hc)|by apply H2].
  - intros a' c' [[<- <-]|[_ Hc']]%lookup_insert_Some; [exact (H3 _ _ Hc)|by apply H3].
  - intros o u Hou Hn. destruct (H4 o u Hou Hn) as (c' & Hc' & Hco).
    destruct (decide (a = code (referral u))) as [->|Hne]; [|exists c'; by rewrite lookup_insert_ne].
    eexists. rewrite lookup_insert_eq. simplify_eq. done.
Qed.

Lemma owner_of_code_ok owner cb w user c :
  owner_of_code store code_address owner cb w = Ok (user, c) ->
  users w !! owner = Some user /\ codes w !! code_address cb = Some c
  /\ code (referral user) = code_address cb /\ user_owner user = code_owner c.
Proof.
  intros Hr. unfold owner_of_code in Hr. apply rbind_ok in Hr as (u & Hu%find_user_ok & Hr).
  apply rbind_ok in Hr as (? & _ & Hr). apply rbind_ok in Hr as (c1 & Hc%find_code_ok & Hr).
  apply rbind_ok in Hr as (? & Ho%require_ok%Z.eqb_eq & Hr).
  apply rbind_ok in Hr as (? & Hcode%require_ok%Z.eqb_eq & Hr). apply rbind_ok in Hr as (? & _ & [= <- <-]). done.
Qed.

Lemma set_next_owner_ok c next c' :
  set_next_owner c next = Ok c' ->
  c' = mkReferralCode (code_bump c) (code_bytes c) (code_store c) (code_owner c) next.
Proof. intros Hr. by apply rbind_ok in Hr as (? & _ & [= <-]). Qed.

Lemma transfer_wf owner cb receiver w w' :
  ReferralsWf w -> transfer_referral_code store code_address owner cb receiver w = Ok w' ->
  ReferralsWf w' /\ keeps_referrers w w'.
Proof.
  intros Hwf Hr. unfold transfer_referral_code in Hr.
  apply rbind_ok in Hr as ([user c] & (Hu & Hc & _)%owner_of_code_ok & Hr).
  apply rbind_ok in Hr as (? & _ & Hr). apply rbind_ok in Hr as (rcv & _ & Hr).
  do 2 apply rbind_ok in Hr as (? & _ & Hr). apply rbind_ok in Hr as (c' & Ht & [= <-]).
  apply rbind_ok in Ht as (? & _ & ->%set_next_owner_ok). split; [by apply put_next_owner_wf|].
  intros o u Hou. eauto.
Qed.

Lemma cancel_wf owner cb w w' :
  ReferralsWf w -> cancel_referral_code_transfer store code_address owner cb w = Ok w' ->
  ReferralsWf w' /\ keeps_referrers w w'.
Proof.
  intros Hwf Hr. unfold cancel_referral_code_transfer in Hr.
  apply rbind_ok in Hr as ([user c] & (Hu & Hc & _)%owner_of_code_ok & Hr).
  apply rbind_ok in Hr as (? & _ & Hr). apply rbind_ok in Hr as (c' & ->%set_next_owner_ok & [= <-]).
  split; [by apply put_next_owner_wf|]. intros o u Hou. eauto.
Qed.

Lemma validate_transfer_ok user c rcv r :
  validate_transfer user c rcv = Ok r -> code (referral rcv) = DEFAULT_PUBKEY.
Proof.
  intros Hr. unfold validate_transfer in Hr. do 3 apply rbind_ok in Hr as (? & _ & Hr).
  by apply require_ok, Z.eqb_eq in Hr.
Qed.

Lemma accept_wf owner cb receiver w w' :
  ReferralsWf w -> accept_referral_code store code_address owner cb receiver w = Ok w' ->
  ReferralsWf w' /\ keeps_referrers w w'.
Proof.
  intros Hwf Hr. unfold accept_referral_code in Hr.
  apply rbind_ok in Hr as ([user c] & (Hu & Hc & Hcode & Hoc)%owner_of_code_ok & Hr).
  apply rbind_ok in Hr as (rcv & Hrcv%find_user_ok & Hr). do 2 apply rbind_ok in Hr as (? & _ & Hr).
  apply rbind_ok in Hr as (? & Hne%require_ok%negb_true_iff%Z.eqb_neq & Hr).
  apply rbind_ok in Hr as ([[user1 c1] rcv1] & Ht & [= <-]).
  apply rbind_ok in Ht as (? & Hnocode%validate_transfer_ok & Ht). apply rbind_ok in Ht as (? & _ & [= <- <- <-]).
  destruct (wf_user _ Hwf _ _ Hu) as (Ho & _). destruct (wf_user _ Hwf _ _ Hrcv) as (Hor & _).
  pose proof Hwf as [H1 H2 H3 H4 H5 H6].
  unfold put_user, put_code. set (user' := set_referral user _). set (rcv' := set_referral rcv _).
  change (user_owner user') with (user_owner user). change (user_owner rcv') with (user_owner rcv).
  rewrite Ho, Hor. cbn [users codes].
  set (c' := mkReferralCode _ _ _ _ _). set (us := <[receiver:=rcv']> (<[owner:=user']> (users w))).
  assert (Hus : forall o u, us !! o = Some u ->
    exists u0, users w !! o = Some u0 /\ referrer (referral u) = referrer (referral u0)
      /\ referee_count (referral u) = referee_count (referral u0)
      /\ user_owner u = user_owner u0 /\ user_is_initialized u = user_is_initialized u0
      /\ user_store u = user_store u0).
  { intros o u Hou. subst us. apply lookup_insert_Some in Hou as [[<- <-]|[_ Hou]]; [by exists rcv|].
    apply lookup_insert_Some in Hou as [[<- <-]|[_ Hou]]; [by exists user|by exists u]. }
  assert (Hfwd : forall o u, users w !! o = Some u -> exists u', us !! o = Some u' /\
    referrer (referral u') = referrer (referral u)).
  { intros o u Hou. subst us. destruct (decide (receiver = o)) as [<-|].
    - exists rcv'. rewrite lookup_insert_eq. split; [done|]. assert (u = rcv) as -> by congruence. done.
    - rewrite lookup_insert_ne by done. destruct (decide (owner = o)) as [<-|].
      + exists user'. rewrite lookup_insert_eq. split; [done|]. assert (u = user) as -> by congruence. done.
      + exists u. by rewrite lookup_insert_ne. }
  split; [|intros o u Hou; destruct (Hfwd o u Hou) as (u' & ? & ?); exists u'; split; [done|intros _; congruence]].
  split; simpl.
  - intros o u (u0 & Hu0 & _ & _ & -> & -> & ->)%Hus. by apply H1.
  - intros a ca [[<- <-]|[_ Hca]]%lookup_insert_Some; [exact (H2 _ _ Hc)|by apply H2].
  - intros a ca [[<- <-]|[Hna Hca]]%lookup_insert_Some.
    + exists rcv'. subst us c' rcv'. cbn [code_owner]. split; [apply lookup_insert_eq|exact Hcode].
    + destruct (H3 a ca Hca) as (u & Hou & Hcu). exists u. split; [|done]. subst us.
      rewrite lookup_insert_ne, lookup_insert_ne; [done|..]; intros Heq; rewrite <- Heq in Hou.
      * congruence.
      * assert (u = rcv) as -> by congruence. rewrite <- Hcu, Hnocode in Hca. by apply (code_nonzero _ _ _ Hwf) in Hca.
  - intros o u Hou Hn. subst us. apply lookup_insert_Some in Hou as [[<- <-]|[Hno Hou]].
    + exists c'. subst rcv' c'. cbn [referral code set_referral code_owner]. rewrite Hcode. by rewrite lookup_insert_eq.
    + apply lookup_insert_Some in Hou as [[<- <-]|[Hno' Hou]]; [done|].
      destruct (H4 o u Hou Hn) as (ca & Hca & Hco). exists ca. split; [|done]. rewrite lookup_insert_ne; [done|].
      intros Heq. rewrite <- Heq in Hca. congruence.
  - intros o u (u0 & Hu0 & -> & _)%Hus Hn. destruct (H5 o u0 Hu0 Hn) as (Hne' & u1 & Hu1 & Hr1).
    split; [done|]. destruct (Hfwd _ _ Hu1) as (u2 & Hu2 & Hr2). exists u2. split; [done|]. by rewrite Hr2.
  - intros o u (u0 & Hu0 & _ & -> & _)%Hus Hn. rewrite (H6 o u0 Hu0 Hn). f_equal.
    unfold referees. cbn [users]. subst us. rewrite !map_sum_insert, lookup_insert_ne by congruence.
    rewrite Hu, Hrcv. subst user' rcv'. simpl. lia.
Qed.

Lemma set_referrer_ok r v r' v' :
  set_referrer r v = Ok (r', v') ->
  referrer r = DEFAULT_PUBKEY /\ user_owner v <> DEFAULT_PUBKEY
  /\ r' = mkReferral (user_owner v) (code r) (referee_count r)
  /\ v' = set_referral v (mkReferral (referrer (referral v)) (code (referral v))
                            (Z.min (referee_count (referral v) + 1) (@u_max u128))).
Proof.
  intros Hr. apply rbind_ok in Hr as (? & H1%require_ok%Z.eqb_eq & Hr).
  apply rbind_ok in Hr as (? & H2%require_ok%negb_true_iff%Z.eqb_neq & [= <- <-]). done.
Qed.

Lemma set_referrer_wf owner cb ro w w' :
  ReferralsWf w -> handle_set_referrer store code_address owner cb ro w = Ok w' ->
  ReferralsWf w' /\ keeps_referrers w w'.
Proof.
  intros Hwf Hr. unfold handle_set_referrer in Hr.
  apply rbind_ok in Hr as (user & Hu%find_user_ok & Hr). do 3 apply rbind_ok in Hr as (? & _ & Hr).
  apply rbind_ok in Hr as (c & _ & Hr). do 2 apply rbind_ok in Hr as (? & _ & Hr).
  apply rbind_ok in Hr as (v & Hv%find_user_ok & Hr). do 4 apply rbind_ok in Hr as (? & _ & Hr).
  apply rbind_ok in Hr as (? & Hself%require_ok%negb_true_iff%Z.eqb_neq & Hr).
  apply rbind_ok in Hr as (? & Hmut%require_ok%negb_true_iff%Z.eqb_neq & Hr).
  apply rbind_ok in Hr as ([r v1] & (Hnone & Hown & -> & ->)%set_referrer_ok & [= <-]).
  destruct (wf_user _ Hwf _ _ Hu) as (Ho & _). destruct (wf_user _ Hwf _ _ Hv) as (Hov & _).
  pose proof Hwf as [H1 H2 H3 H4 H5 H6].
  unfold put_user. set (v' := set_referral v _). set (user' := set_referral user _).
  change (user_owner user') with (user_owner user). change (user_owner v') with (user_owner v).
  rewrite Ho, Hov in *. cbn [users codes]. set (us := <[ro:=v']> (<[owner:=user']> (users w))).
  assert (Hus : forall o u, us !! o = Some u -> exists u0, users w !! o = Some u0
    /\ code (referral u) = code (referral u0) /\ user_owner u = user_owner u0
    /\ user_is_initialized u = user_is_initialized u0 /\ user_store u = user_store u0
    /\ (o = owner /\ u = user' /\ u0 = user
        \/ o <> owner /\ referrer (referral u) = referrer (referral u0))).
  { intros o u Hou. subst us. apply lookup_insert_Some in Hou as [[<- <-]|[_ Hou]].
    - exists v. split_and!; try done. right. split; [done|reflexivity].
    - apply lookup_insert_Some in Hou as [[<- <-]|[Hne Hou]]; [exists user|exists u]; split_and!; try done.
      + by left.
      + right. split; [congruence|done]. }
  assert (Hfwd : forall o u, users w !! o = Some u -> exists u', us !! o = Some u'
    /\ code (referral u') = code (referral u)
    /\ (o = owner /\ u' = user' \/ o <> owner /\ referrer (referral u') = referrer (referral u))).
  { intros o u Hou. subst us. destruct (decide (ro = o)) as [<-|].
    - exists v'. rewrite lookup_insert_eq. assert (u = v) as -> by congruence. split_and!; try done. by right.
    - rewrite lookup_insert_ne by done. destruct (decide (owner = o)) as [<-|].
      + exists user'. rewrite lookup_insert_eq. assert (u = user) as -> by congruence. split_and!; try done. by left.
      + exists u. rewrite lookup_insert_ne by done. split_and!; try done. right. split; [congruence|done]. }
  split.
  2:{ intros o u Hou. destruct (Hfwd o u Hou) as (u' & Hu' & _ & Hcase). exists u'. split; [done|].
      intros Hn. destruct Hcase as [[-> _]|[_ ?]]; [|done]. assert (u = user) as -> by congruence. done. }
  split; simpl.
  - intros o u (u0 & Hu0 & _ & -> & -> & -> & _)%Hus. by apply H1.
  - done.
  - intros a ca Hca. destruct (H3 a ca Hca) as (u & Hou & Hcu).
    destruct (Hfwd _ _ Hou) as (u' & Hu' & Hcode & _). exists u'. split; [done|congruence].
  - intros o u (u0 & Hu0 & -> & _)%Hus. by apply H4.
  - intros o u (u0 & Hu0 & _ & _ & _ & _ & Hcase)%Hus Hn. destruct Hcase as [(-> & -> & ->)|[Hno Hre]].
    + assert (Href : referrer (referral user') = ro) by exact Hov. rewrite Href. split; [exact Hself|].
      exists v'. subst us. rewrite lookup_insert_eq. split; [done|exact Hmut].
    + rewrite Hre in *. destruct (H5 o u0 Hu0 Hn) as (Hne & u1 & Hu1 & Hr1). split; [done|].
      destruct (Hfwd _ _ Hu1) as (u2 & Hu2 & _ & Hcase2). exists u2. split; [done|].
      destruct Hcase2 as [[Heq ->]|[_ ->]]; [|done]. subst user'. cbn [referral set_referral referrer].
      rewrite Hov. intros ->. assert (u0 = v) as -> by congruence. by rewrite Heq in Hmut.
  - intros o u Hou Hn. unfold referees. cbn [users]. subst us.
    rewrite !map_sum_insert, lookup_insert_ne by congruence. rewrite Hu, Hv. cbn [from_option].
    subst v' user'. cbn [referral set_referral referrer]. rewrite Hnone, ?Hov.
    assert (DEFAULT_PUBKEY =? o = false) as -> by (apply Z.eqb_neq; congruence).
    fold (referees w o). destruct (Z.eqb_spec ro o) as [<-|Hro].
    + rewrite lookup_insert_eq in Hou. injection Hou as <-. cbn [referral set_referral referee_count].
      rewrite (H6 _ _ Hv Hn). lia.
    + rewrite lookup_insert_ne in Hou by done. apply lookup_insert_Some in Hou as [[<- <-]|[_ Hou]];
        cbn [referral set_referral referee_count]; [rewrite (H6 _ _ Hu Hn)|rewrite (H6 _ _ Hou Hn)]; lia.
Qed.

Lemma run_action_wf a w w' :
  ReferralsWf w -> run_action store bump code_address a w = Ok w' -> ReferralsWf w' /\ keeps_referrers w w'.
Proof.
  intros Hwf Hr. destruct a; simpl in Hr; eauto using prepare_user_wf, initialize_code_wf, set_referrer_wf,
    transfer_wf, cancel_wf, accept_wf.
Qed.

Lemma keeps_referrers_trans w1 w2 w3 : keeps_referrers w1 w2 -> keeps_referrers w2 w3 -> keeps_referrers w1 w3.
Proof.
  intros H12 H23 o u Hu. destruct (H12 o u Hu) as (u' & Hu' & Hr). destruct (H23 o u' Hu') as (u'' & Hu'' & Hr').
  exists u''. split; [done|]. intros Hn. rewrite Hr'; rewrite Hr; done.
Qed.

Lemma steps_wf actions w :
  ReferralsWf w ->
  let w' := fold_left (step_action store bump code_address) actions w in
  ReferralsWf w' /\ keeps_referrers w w'.
Proof.
  revert w. induction actions as [|a actions IH]; intros w Hwf; simpl; [split; [done|intros o u Hu; eauto]|].
  unfold step_action at 2 4. destruct (run_action store bump code_address a w) as [w1|e|msg] eqn:Hr; [|by apply IH..].
  apply run_action_wf in Hr as [Hwf1 Hk1]; [|done]. destruct (IH w1 Hwf1) as [Hwf2 Hk2].
  split; [done|]. by eapply keeps_referrers_trans.
Qed.

(** C29: whatever the users of a store do, the referrals stay consistent. After any sequence of
    instructions, failing ones included: every code is owned by exactly the user that has it, so
    no user has a code of somebody else and no code is lost or doubled when it changes hands;
    nobody is their own referrer and no two users refer each other; every referrer is a user of
    the store; the number of referees of a user is the number of users it has referred; and a
    referrer, once set, is never changed by what comes after. *)
Theorem referrals_reachable actions later :
  let run := fold_left (step_action store bump code_address) in
  let w := run actions (mkReferrals ∅ ∅) in
  ReferralsWf w /\ keeps_referrers w (run later w).
Proof.
  cbv zeta. assert (Hwf : ReferralsWf (mkReferrals ∅ ∅)).
  { split; simpl; intros a x Hx; by apply lookup_empty_Some in Hx. }
  destruct (steps_wf actions _ Hwf) as [Hw _]. split; [done|]. by apply steps_wf.
Qed.
End Invariant.

(** ** Examples

    Alice makes a code and refers Bob; she cannot name him as her own referrer, and gives the code
    to Carol. *)
Section Examples.
Definition address_example (c : ReferralCodeBytes) : Pubkey := 1000 + foldr (fun b n => b + 256 * n) 0 (Z.abs <$> c).
Definition code_example (n : Z) : ReferralCodeBytes := replicate 7 0 ++ [n].

Definition actions_example : list UserAction :=
  [PrepareUser 1; PrepareUser 2; PrepareUser 3; InitializeReferralCode 1 (code_example 7);
   SetReferrer 2 (code_example 7) 1; InitializeReferralCode 2 (code_example 8);
   SetReferrer 1 (code_example 8) 2;
   TransferReferralCode 1 (code_example 7) 3; AcceptReferralCode 1 (code_example 7) 3].

Definition referrals_example : Referrals :=
  fold_left (step_action 9 (fun _ => 255) address_example) actions_example (mkReferrals ∅ ∅).

Lemma address_example_set c : address_example c <> DEFAULT_PUBKEY.
Proof.
  unfold address_example, DEFAULT_PUBKEY.
  assert (0 <= foldr (fun b n => b + 256 * n) 0 (Z.abs <$> c)); [|lia].
  induction c as [|b c IH]; [done|]. rewrite fmap_cons, foldr_cons. lia.
Qed.

Lemma referrals_reachable_witness :
  exists carol, users referrals_example !! 3 = Some carol
    /\ code (referral carol) = address_example (code_example 7)
    /\ (forall alice, users referrals_example !! 1 = Some alice -> referrer (referral alice) <> 1).
Proof.
  destruct (referrals_reachable 9 (fun _ => 255) address_example address_example_set actions_example [])
    as [Hwf _]. cbv zeta in Hwf. unfold referrals_example.
  eexists. split; [vm_compute; reflexivity|]. split; [vm_compute; reflexivity|].
  intros alice Ha. destruct (Z.eq_dec (referrer (referral alice)) DEFAULT_PUBKEY) as [->|Hn]; [done|].
  by destruct (wf_referrer _ _ _ Hwf 1 alice Ha Hn).
Defined.
End Examples.
