(* ===== verification/Gt.v ===== *)
(** * The GT token ([states/gt.rs], [instructions/gt.rs])

    GT is minted to users for the order fees they pay and to their referrers, at a cost that grows
    with the total that was ever minted, and is handed back for a share of the treasury through
    exchange vaults, one for each window of time: during the window users burn GT into it, after
    the window it is confirmed, and then the exchanges are closed.

    [GtState] is the state of the token in the store; the discounts and rewards by rank are part of
    it. A [GtWorld] adds the users of the store with their referrals (Module [Users]), the vaults
    and the exchanges, which are found by the addresses that their seeds derive; [run_gt_action]
    are the instructions, and what the execution of an order does ([OrderState::unchecked_process_gt],
    [mint_gt_reward_for_referrer]). The flags of an account are booleans here. An instruction that
    fails leaves all accounts as they were. *)
From stdpp Require Import gmap sorting.
From S2P Require Import Prelude.
From S2P Require Import MapSum.
From S2P Require Import CoreErrors.
From S2P Require Import Constants.
From S2P Require Import Num.
From S2P Require Import Fixed.
From S2P Require Import FixedMap.
From S2P Require Import Roles.
From S2P Require Import Users.
#[local] Open Scope Z_scope.

(** ** Constants and state *)

Definition MAX_RANK : nat := 15.

Record GtState : Type := mkGtState {
  decimals : Z;
  gt_last_minted_at : Z;
  gt_total_minted : Z;
  grow_step_amount : Z;
  grow_steps : Z;
  supply : Z;
  gt_vault : Z;
  minting_cost_grow_factor : Z;
  minting_cost : Z;
  exchange_time_window : Z;
  max_rank : nat;
  all_ranks : list Z;
  order_fee_discount_factors : list Z;
  referral_reward_factors : list Z;
}.

Record GtExchangeVault : Type := mkVault {
  vault_bump : Z;
  vault_is_initialized : bool;
  vault_is_confirmed : bool;
  vault_ts : Z;
  time_window : Z;
  vault_amount : Z;
  vault_store : Pubkey;
}.

Record GtExchange : Type := mkExchange {
  exchange_bump : Z;
  exchange_is_initialized : bool;
  exchange_amount : Z;
  exchange_owner : Pubkey;
  exchange_store : Pubkey;
  exchange_vault : Pubkey;
}.

(** [apply_factor] with the twenty decimals of the program. *)
Definition gt_apply_factor (value factor : Z) : option Z := @checked_mul_div u128 value factor MARKET_USD_UNIT.

Section GtState.
Local Existing Instance u64.

Definition is_initialized (self : GtState) : bool := negb (grow_step_amount self =? 0).

(** [xs.windows(2).all(|[a, b]| lt a b)]. *)
Fixpoint windows_sorted (lt : Z -> Z -> bool) (xs : list Z) : bool :=
  match xs with
  | a :: (b :: _) as rest => lt a b && windows_sorted lt rest
  | _ => true
  end.

(** [target[..n].copy_from_slice(xs)]. *)
Definition copy_front (target xs : list Z) : list Z := xs ++ drop (length xs) target.

Definition gt_init (self : GtState) (now decimals initial_minting_cost grow_factor grow_step : Z)
    (ranks : list Z) : store_result GtState :=
  let! _ := require (negb (is_initialized self)) CoreError.GTStateHasBeenInitialized in
  let! _ := require (gt_last_minted_at self =? 0) CoreError.GTStateHasBeenInitialized in
  let! _ := require (gt_total_minted self =? 0) CoreError.GTStateHasBeenInitialized in
  let! _ := require (supply self =? 0) CoreError.GTStateHasBeenInitialized in
  let! _ := require (gt_vault self =? 0) CoreError.GTStateHasBeenInitialized in
  let! _ := require (negb (grow_step =? 0)) CoreError.InvalidGTConfig in
  let max_rank := Nat.min (length ranks) MAX_RANK in
  let ranks := take max_rank ranks in
  let! _ := require (windows_sorted Z.ltb ranks) CoreError.InvalidGTConfig in
  Ok (mkGtState decimals now (gt_total_minted self) grow_step (grow_steps self) (supply self)
        (gt_vault self) grow_factor initial_minting_cost DEFAULT_GT_VAULT_TIME_WINDOW max_rank
        (copy_front (all_ranks self) ranks) (order_fee_discount_factors self)
        (referral_reward_factors self)).

Definition set_order_fee_discount_factors (self : GtState) (factors : list Z) : store_result GtState :=
  let! _ := require (length factors =? max_rank self + 1)%nat CoreError.InvalidArgument in
  let! _ := require (forallb (fun factor => factor <=? MARKET_USD_UNIT) factors) CoreError.InvalidArgument in
  Ok (mkGtState (decimals self) (gt_last_minted_at self) (gt_total_minted self) (grow_step_amount self)
        (grow_steps self) (supply self) (gt_vault self) (minting_cost_grow_factor self)
        (minting_cost self) (exchange_time_window self) (max_rank self) (all_ranks self)
        (copy_front (order_fee_discount_factors self) factors) (referral_reward_factors self)).

Definition set_referral_reward_factors (self : GtState) (factors : list Z) : store_result GtState :=
  let! _ := require (length factors =? max_rank self + 1)%nat CoreError.InvalidArgument in
  let! _ := require (windows_sorted Z.leb factors) CoreError.InvalidArgument in
  Ok (mkGtState (decimals self) (gt_last_minted_at self) (gt_total_minted self) (grow_step_amount self)
        (grow_steps self) (supply self) (gt_vault self) (minting_cost_grow_factor self)
        (minting_cost self) (exchange_time_window self) (max_rank self) (all_ranks self)
        (order_fee_discount_factors self) (copy_front (referral_reward_factors self) factors)).

(** [xs[rank as usize]]. *)
Definition by_rank (xs : list Z) (rank : Z) : store_result Z :=
  expect (xs !! Z.to_nat rank) "index out of bounds".

Definition gt_order_fee_discount_factor (self : GtState) (rank : Z) : store_result Z :=
  let! _ := require (rank <=? Z.of_nat (max_rank self)) CoreError.InvalidArgument in
  by_rank (order_fee_discount_factors self) rank.

Definition referral_reward_factor (self : GtState) (rank : Z) : store_result Z :=
  let! _ := require (rank <=? Z.of_nat (max_rank self)) CoreError.InvalidArgument in
  by_rank (referral_reward_factors self) rank.

Definition set_exchange_time_window (self : GtState) (window : Z) : store_result GtState :=
  let! _ := require (negb (window =? 0)) CoreError.InvalidArgument in
  Ok (mkGtState (decimals self) (gt_last_minted_at self) (gt_total_minted self) (grow_step_amount self)
        (grow_steps self) (supply self) (gt_vault self) (minting_cost_grow_factor self)
        (minting_cost self) window (max_rank self) (all_ranks self)
        (order_fee_discount_factors self) (referral_reward_factors self)).

(** [n] rounds of the loop that raises the cost. *)
Fixpoint grow_cost (n : nat) (cost factor : Z) : store_result Z :=
  match n with
  | O => Ok cost
  | S n =>
      let! cost := ok_or (gt_apply_factor cost factor) (Core CoreError.Internal) in
      grow_cost n cost factor
  end.

(** The range of the loop is empty when there are no new steps. *)
Definition next_minting_cost (self : GtState) (next_minted : Z) : store_result (option (Z * Z)) :=
  let! _ := require (negb (grow_step_amount self =? 0)) CoreError.InvalidGTConfig in
  let new_steps := next_minted / grow_step_amount self in
  if negb (new_steps =? grow_steps self) then
    let! minting_cost := grow_cost (Z.to_nat (new_steps - grow_steps self)) (minting_cost self)
                           (minting_cost_grow_factor self) in
    Ok (Some (new_steps, minting_cost))
  else Ok None.

Definition ranks (self : GtState) : list Z := take (max_rank self) (all_ranks self).

Definition rank_for (ranks : list Z) (amount : Z) : Z :=
  match slice_binary_search ((fun r => mkEntry r tt) <$> ranks) amount with
  | Ok rank => Z.of_nat rank + 1
  | Err rank => Z.of_nat rank
  | Panic _ => 0
  end.

Definition unchecked_update_rank (self : GtState) (user : UserHeader) : UserHeader :=
  let g := gt user in
  let new := rank_for (ranks self) (gt_amount g) in
  if negb (rank g =? new) then
    set_gt user (mkUserGtState new (last_minted_at g) (total_minted g) (gt_amount g)
                   (paid_fee_value g) (minted_fee_value g))
  else user.

(** The state and the user after a mint; nothing is written before the last check. *)
Definition mint_to (now : Z) (self : GtState) (user : UserHeader) (amount : Z)
    : store_result (GtState * UserHeader) :=
  if amount =? 0 then Ok (self, user)
  else
    let! next_gt_total_minted := ok_or (uadd (gt_total_minted self) amount) (Core CoreError.TokenAmountOverflow) in
    let! next := next_minting_cost self next_gt_total_minted in
    let! next_user_total_minted := ok_or (uadd (total_minted (gt user)) amount) (Core CoreError.TokenAmountOverflow) in
    let! next_amount := ok_or (uadd (gt_amount (gt user)) amount) (Core CoreError.TokenAmountOverflow) in
    let! next_supply := ok_or (uadd (supply self) amount) (Core CoreError.TokenAmountOverflow) in
    let (steps, cost) := default (grow_steps self, minting_cost self) next in
    let self := mkGtState (decimals self) now next_gt_total_minted (grow_step_amount self) steps
                  next_supply (gt_vault self) (minting_cost_grow_factor self) cost
                  (exchange_time_window self) (max_rank self) (all_ranks self)
                  (order_fee_discount_factors self) (referral_reward_factors self) in
    let g := gt user in
    let user := set_gt user (mkUserGtState (rank g) now next_user_total_minted next_amount
                               (paid_fee_value g) (minted_fee_value g)) in
    Ok (self, unchecked_update_rank self user).

Definition set_supply (self : GtState) (supply : Z) : GtState :=
  mkGtState (decimals self) (gt_last_minted_at self) (gt_total_minted self) (grow_step_amount self)
    (grow_steps self) supply (gt_vault self) (minting_cost_grow_factor self)
    (minting_cost self) (exchange_time_window self) (max_rank self) (all_ranks self)
    (order_fee_discount_factors self) (referral_reward_factors self).

Definition unchecked_burn_from (self : GtState) (user : UserHeader) (amount : Z)
    : store_result (GtState * UserHeader) :=
  if amount =? 0 then Ok (self, user)
  else
    let! _ := require (amount <=? gt_amount (gt user)) CoreError.NotEnoughTokenAmount in
    let! next_amount := ok_or (usub (gt_amount (gt user)) amount) (Core CoreError.Internal) in
    let! next_supply := ok_or (usub (supply self) amount) (Core CoreError.Internal) in
    let g := gt user in
    let user := set_gt user (mkUserGtState (rank g) (last_minted_at g) (total_minted g) next_amount
                               (paid_fee_value g) (minted_fee_value g)) in
    Ok (set_supply self next_supply, unchecked_update_rank self user).

(** The amount, the value it is minted for and the cost. *)
Definition get_mint_amount (self : GtState) (size_in_value : Z) : store_result (Z * Z * Z) :=
  let minting_cost := minting_cost self in
  let! _ := require (negb (minting_cost =? 0)) CoreError.InvalidGTConfig in
  let remainder := size_in_value mod minting_cost in
  let! minted := ok_or (try_u (size_in_value / minting_cost)) (Core CoreError.TokenAmountOverflow) in
  Ok (minted, size_in_value - remainder, minting_cost).
End GtState.

(** ** Exchange vaults *)
Section Vaults.
Local Existing Instance u64.

(** [i64] division truncates towards zero. *)
Definition get_time_window_index (ts time_window : Z) : Z := Z.quot ts time_window.

Definition vault_init (self : GtExchangeVault) (now bump : Z) (store : Pubkey) (time_window : Z)
    : store_result GtExchangeVault :=
  let! _ := require (negb (vault_is_initialized self)) CoreError.PreconditionsAreNotMet in
  let! _ := require (negb (time_window =? 0)) CoreError.InvalidArgument in
  Ok (mkVault bump true (vault_is_confirmed self) now time_window (vault_amount self) store).

Definition time_window_index (self : GtExchangeVault) : Z :=
  get_time_window_index (vault_ts self) (time_window self).

Definition validate_confirmable (self : GtExchangeVault) (now : Z) : store_result unit :=
  let! _ := require (vault_is_initialized self) CoreError.PreconditionsAreNotMet in
  let! _ := require (negb (vault_is_confirmed self)) CoreError.PreconditionsAreNotMet in
  require (time_window_index self <? get_time_window_index now (time_window self))
    CoreError.PreconditionsAreNotMet.

Definition vault_confirm (self : GtExchangeVault) (now : Z) : store_result (GtExchangeVault * Z) :=
  let! _ := validate_confirmable self now in
  Ok (mkVault (vault_bump self) (vault_is_initialized self) true (vault_ts self) (time_window self)
        (vault_amount self) (vault_store self), vault_amount self).

Definition validate_depositable (self : GtExchangeVault) (now : Z) : store_result unit :=
  let! _ := require (negb (vault_is_confirmed self)) CoreError.PreconditionsAreNotMet in
  require (get_time_window_index now (time_window self) =? time_window_index self)
    CoreError.InvalidArgument.

Definition vault_add (self : GtExchangeVault) (now amount : Z) : store_result GtExchangeVault :=
  let! _ := validate_depositable self now in
  let! next := ok_or (uadd (vault_amount self) amount) (Core CoreError.TokenAmountOverflow) in
  Ok (mkVault (vault_bump self) (vault_is_initialized self) (vault_is_confirmed self) (vault_ts self)
        (time_window self) next (vault_store self)).

Definition exchange_init (self : GtExchange) (bump : Z) (owner store vault : Pubkey)
    : store_result GtExchange :=
  let! _ := require (negb (exchange_is_initialized self)) CoreError.PreconditionsAreNotMet in
  Ok (mkExchange bump true (exchange_amount self) owner store vault).

Definition exchange_add (self : GtExchange) (amount : Z) : store_result GtExchange :=
  let! next := ok_or (uadd (exchange_amount self) amount) (Core CoreError.TokenAmountOverflow) in
  Ok (mkExchange (exchange_bump self) (exchange_is_initialized self) next (exchange_owner self)
        (exchange_store self) (exchange_vault self)).

Definition unchecked_request_exchange (now : Z) (self : GtState) (user : UserHeader)
    (vault : GtExchangeVault) (exchange : GtExchange) (amount : Z)
    : store_result (GtState * UserHeader * GtExchangeVault * GtExchange) :=
  let! _ := require (user_is_initialized user) CoreError.InvalidArgument in
  let! _ := require (vault_is_initialized vault) CoreError.InvalidArgument in
  let! _ := require (exchange_is_initialized exchange) CoreError.InvalidArgument in
  let! (self, user) := unchecked_burn_from self user amount in
  let! vault := vault_add vault now amount in
  let! exchange := exchange_add exchange amount in
  Ok (self, user, vault, exchange).

Definition process_gt_vault (self : GtState) (amount : Z) : store_result GtState :=
  if amount =? 0 then Ok self
  else
    let! next_gt_vault := ok_or (uadd (gt_vault self) amount) (Core CoreError.TokenAmountOverflow) in
    Ok (mkGtState (decimals self) (gt_last_minted_at self) (gt_total_minted self) (grow_step_amount self)
          (grow_steps self) (supply self) next_gt_vault (minting_cost_grow_factor self)
          (minting_cost self) (exchange_time_window self) (max_rank self) (all_ranks self)
          (order_fee_discount_factors self) (referral_reward_factors self)).

Definition unchecked_confirm_exchange_vault (now : Z) (self : GtState) (vault : GtExchangeVault)
    : store_result (GtState * GtExchangeVault) :=
  let! _ := require (vault_is_initialized vault) CoreError.InvalidArgument in
  let! (vault, amount) := vault_confirm vault now in
  let! self := process_gt_vault self amount in
  Ok (self, vault).
End Vaults.

(** ** Minting for orders *)

(** [OrderState::unchecked_process_gt]; the amount is the reward that the order records. *)
Definition unchecked_process_gt (now : Z) (self : GtState) (user : UserHeader) (paid : Z)
    : store_result (GtState * UserHeader * Z) :=
  if paid =? 0 then Ok (self, user, 0)
  else
    let g := gt user in
    let next_paid := Z.min (paid_fee_value g + paid) (@u_max u128) in
    let! _ := require (minted_fee_value g <=? next_paid) CoreError.InvalidUserAccount in
    let! (amounts, _) := get_mint_amount self (Z.max 0 (next_paid - minted_fee_value g)) in
    let (minted, delta_minted_value) := amounts in
    let! next_minted_value := ok_or (@uadd u128 (minted_fee_value g) delta_minted_value)
                                (Core CoreError.ValueOverflow) in
    let! (self, user) := mint_to now self user minted in
    let g := gt user in
    Ok (self, set_gt user (mkUserGtState (rank g) (last_minted_at g) (total_minted g) (gt_amount g)
                             next_paid next_minted_value), minted).

(** The reward of the referrer for the GT that was minted for an order. *)
Definition referral_reward (self : GtState) (referrer_user : UserHeader) (amount : Z) : store_result Z :=
  let! factor := referral_reward_factor self (rank (gt referrer_user)) in
  let! reward := ok_or (gt_apply_factor amount factor) (Core CoreError.InvalidGTConfig) in
  ok_or (@try_u u64 reward) (Core CoreError.TokenAmountOverflow).

(** [Store::order_fee_discount_factor], with the factor of the store for referred users. *)
Definition order_fee_discount_factor (self : GtState) (discount_factor_for_referred rank : Z)
    (is_referred : bool) : store_result Z :=
  let! discount_factor_for_rank := gt_order_fee_discount_factor self rank in
  if is_referred then
    let! complement := ok_or (@usub u128 MARKET_USD_UNIT discount_factor_for_referred)
                         (Core CoreError.Internal) in
    ok_or (let? factor := gt_apply_factor discount_factor_for_rank complement in
           @uadd u128 discount_factor_for_referred factor) (Core CoreError.ValueOverflow)
  else Ok discount_factor_for_rank.

(** ** The token of a store with its users, vaults and exchanges

    [rewards] is the field [gt_reward] of the executed orders, with the owner of each. *)

Record GtWorld : Type := mkGtWorld {
  gt_state : GtState;
  gt_users : Referrals;
  rewards : gmap Pubkey (Pubkey * Z);
  vaults : gmap Pubkey GtExchangeVault;
  exchanges : gmap (Pubkey * Pubkey) GtExchange;
}.

Inductive GtAction : Type :=
| UserAction_ (a : UserAction)
| ProcessGt (order owner : Pubkey) (paid_fee_value : Z)
| ProcessGtReward (order : Pubkey)
| PrepareGtExchangeVault (time_window_index : Z)
| RequestGtExchange (owner vault : Pubkey) (amount : Z)
| ConfirmGtExchangeVault (vault : Pubkey)
| CloseGtExchange (owner vault : Pubkey)
| SetDiscountFactors (factors : list Z)
| SetRewardFactors (factors : list Z)
| SetExchangeTimeWindow (window : Z).

Section World.
Context (store : Pubkey) (bump : Pubkey -> Z) (code_address : ReferralCodeBytes -> Pubkey).
(** The address of the vault of a window index and a window. *)
Context (vault_address : Z -> Z -> Pubkey).

Definition set_state (self : GtWorld) (s : GtState) : GtWorld :=
  mkGtWorld s (gt_users self) (rewards self) (vaults self) (exchanges self).
Definition set_user (self : GtWorld) (u : UserHeader) : GtWorld :=
  mkGtWorld (gt_state self) (put_user u (gt_users self)) (rewards self) (vaults self) (exchanges self).
Definition set_reward (self : GtWorld) (order owner : Pubkey) (amount : Z) : GtWorld :=
  mkGtWorld (gt_state self) (gt_users self) (<[order := (owner, amount)]> (rewards self)) (vaults self)
    (exchanges self).
Definition set_vault (self : GtWorld) (address : Pubkey) (v : GtExchangeVault) : GtWorld :=
  mkGtWorld (gt_state self) (gt_users self) (rewards self) (<[address := v]> (vaults self)) (exchanges self).
Definition set_exchange (self : GtWorld) (key : Pubkey * Pubkey) (e : GtExchange) : GtWorld :=
  mkGtWorld (gt_state self) (gt_users self) (rewards self) (vaults self) (<[key := e]> (exchanges self)).

Definition zeroed_vault : GtExchangeVault := mkVault 0 false false 0 0 0 0.
Definition zeroed_exchange : GtExchange := mkExchange 0 false 0 0 0 0.

Definition time_window_u32 (self : GtExchangeVault) : store_result Z :=
  if (0 <=? time_window self) && (time_window self <? 2 ^ 32) then Ok (time_window self)
  else Panic "invalid vault".

(** The seeds of a vault account: its address is the one of its own index and window. *)
Definition vault_seeds (self : GtExchangeVault) (address : Pubkey) : store_result unit :=
  let! window := time_window_u32 self in
  if vault_address (time_window_index self) window =? address then Ok tt else Err (Anchor "ConstraintSeeds").

Definition find_vault (self : GtWorld) (address : Pubkey) : store_result GtExchangeVault :=
  ok_or (vaults self !! address) (Anchor "AccountNotInitialized").

(** Executing an order: GT for its owner. *)
Definition process_gt (now : Z) (order owner : Pubkey) (paid_fee_value : Z) (self : GtWorld)
    : store_result GtWorld :=
  let! user := find_user (gt_users self) owner in
  let! (minted_, amount) := unchecked_process_gt now (gt_state self) user paid_fee_value in
  let (state, user) := minted_ in
  let self := set_user (set_state self state) user in
  Ok (if paid_fee_value =? 0 then self else set_reward self order owner amount).

Definition mint_gt_reward_for_referrer (now : Z) (owner : Pubkey) (amount : Z) (self : GtWorld)
    : store_result GtWorld :=
  let! user := find_user (gt_users self) owner in
  match referrer_of (referral user) with
  | None => Ok self
  | Some referrer =>
      let! referrer_user := ok_or (users (gt_users self) !! referrer) (Core CoreError.InvalidArgument) in
      let! _ := require (user_owner referrer_user =? referrer) CoreError.InvalidArgument in
      let! reward := referral_reward (gt_state self) referrer_user amount in
      if reward =? 0 then Ok self
      else
        let! (state, referrer_user) := mint_to now (gt_state self) referrer_user reward in
        Ok (set_user (set_state self state) referrer_user)
  end.

(** Closing an order: the reward of the referrer of its owner, at most once. *)
Definition process_gt_reward (now : Z) (order : Pubkey) (self : GtWorld) : store_result GtWorld :=
  let! (owner, amount) := ok_or (rewards self !! order) (Anchor "AccountNotInitialized") in
  if amount =? 0 then Ok self
  else
    let! self := mint_gt_reward_for_referrer now owner amount self in
    Ok (set_reward self order owner 0).

Definition prepare_gt_exchange_vault (now index : Z) (self : GtWorld) : store_result GtWorld :=
  let! _ := require (is_initialized (gt_state self)) CoreError.PreconditionsAreNotMet in
  let window := exchange_time_window (gt_state self) in
  let address := vault_address index window in
  let! vault :=
    match vaults self !! address with
    | None => vault_init zeroed_vault now (bump address) store window
    | Some vault => Ok vault
    end in
  let! _ := require (vault_is_initialized vault) CoreError.PreconditionsAreNotMet in
  let! _ := require (vault_store vault =? store) CoreError.StoreMismatched in
  let! _ := require (time_window_index vault =? index) CoreError.InvalidArgument in
  let! _ := require (time_window vault =? window) CoreError.InvalidArgument in
  Ok (set_vault self address vault).

Definition request_gt_exchange (now : Z) (owner address : Pubkey) (amount : Z) (self : GtWorld)
    : store_result GtWorld :=
  let! _ := require (is_initialized (gt_state self)) CoreError.PreconditionsAreNotMet in
  let! user := find_user (gt_users self) owner in
  let! _ := require (user_is_initialized user) CoreError.InvalidUserAccount in
  let! _ := has_one (user_owner user =? owner) in
  let! _ := has_one (user_store user =? store) in
  let! vault := find_vault self address in
  let! _ := require (vault_is_initialized vault) CoreError.InvalidArgument in
  let! _ := has_one (vault_store vault =? store) in
  let! _ := vault_seeds vault address in
  let! exchange :=
    match exchanges self !! (address, owner) with
    | None => exchange_init zeroed_exchange (bump address) owner store address
    | Some exchange => Ok exchange
    end in
  let! _ := require (exchange_is_initialized exchange) CoreError.PreconditionsAreNotMet in
  let! _ := require (exchange_owner exchange =? owner) CoreError.OwnerMismatched in
  let! _ := require (exchange_store exchange =? store) CoreError.StoreMismatched in
  let! (r, exchange) := unchecked_request_exchange now (gt_state self) user vault exchange amount in
  let '(state, user, vault) := r in
  Ok (set_exchange (set_vault (set_user (set_state self state) user) address vault) (address, owner) exchange).

Definition confirm_gt_exchange_vault (now : Z) (address : Pubkey) (self : GtWorld) : store_result GtWorld :=
  let! _ := require (is_initialized (gt_state self)) CoreError.PreconditionsAreNotMet in
  let! vault := find_vault self address in
  let! _ := require (vault_is_initialized vault) CoreError.InvalidUserAccount in
  let! _ := has_one (vault_store vault =? store) in
  let! _ := vault_seeds vault address in
  let! (state, vault) := unchecked_confirm_exchange_vault now (gt_state self) vault in
  Ok (set_vault (set_state self state) address vault).

(** The account of the exchange is closed; the store and the vault stay. *)
Definition close_gt_exchange (owner address : Pubkey) (self : GtWorld) : store_result GtWorld :=
  let! _ := require (is_initialized (gt_state self)) CoreError.PreconditionsAreNotMet in
  let! vault := find_vault self address in
  let! _ := require (vault_is_initialized vault) CoreError.InvalidArgument in
  let! _ := require (vault_is_confirmed vault) CoreError.PreconditionsAreNotMet in
  let! _ := has_one (vault_store vault =? store) in
  let! exchange := ok_or (exchanges self !! (address, owner)) (Anchor "AccountNotInitialized") in
  let! _ := require (exchange_is_initialized exchange) CoreError.InvalidArgument in
  let! _ := has_one (exchange_store exchange =? store) in
  let! _ := has_one (exchange_owner exchange =? owner) in
  let! _ := has_one (exchange_vault exchange =? address) in
  Ok (mkGtWorld (gt_state self) (gt_users self) (rewards self) (vaults self)
        (delete (address, owner) (exchanges self))).

Definition configure (f : GtState -> store_result GtState) (self : GtWorld) : store_result GtWorld :=
  let! _ := require (is_initialized (gt_state self)) CoreError.PreconditionsAreNotMet in
  let! state := f (gt_state self) in
  Ok (set_state self state).

Definition run_gt_action (now : Z) (a : GtAction) (self : GtWorld) : store_result GtWorld :=
  match a with
  | UserAction_ a =>
      let! us := run_action store bump code_address a (gt_users self) in
      Ok (mkGtWorld (gt_state self) us (rewards self) (vaults self) (exchanges self))
  | ProcessGt order owner paid => process_gt now order owner paid self
  | ProcessGtReward order => process_gt_reward now order self
  | PrepareGtExchangeVault index => prepare_gt_exchange_vault now index self
  | RequestGtExchange owner vault amount => request_gt_exchange now owner vault amount self
  | ConfirmGtExchangeVault vault => confirm_gt_exchange_vault now vault self
  | CloseGtExchange owner vault => close_gt_exchange owner vault self
  | SetDiscountFactors factors => configure (fun s => set_order_fee_discount_factors s factors) self
  | SetRewardFactors factors => configure (fun s => set_referral_reward_factors s factors) self
  | SetExchangeTimeWindow window => configure (fun s => set_exchange_time_window s window) self
  end.

(** Amounts and factors are unsigned. *)
Definition action_typed (a : GtAction) : Prop :=
  match a with
  | ProcessGt _ _ paid => 0 <= paid
  | RequestGtExchange _ _ amount => 0 <= amount
  | SetDiscountFactors factors => Forall (Z.le 0) factors
  | _ => True
  end.

(** One instruction at a time; those that fail change nothing. *)
Inductive gt_step : GtWorld -> GtWorld -> Prop :=
| gt_step_ok now a w w' : action_typed a -> run_gt_action now a w = Ok w' -> gt_step w w'.
End World.

(** ** Ranks and costs *)

Definition count_le (xs : list Z) (x : Z) : nat := length (filter (fun y => y <= x) xs).

Lemma filter_all {A} (P : A -> Prop) `{forall x, Decision (P x)} (xs : list A) :
  (forall x, x ∈ xs -> P x) -> filter P xs = xs.
Proof.
  induction xs as [|x xs IH]; intros Hall; [done|]. rewrite filter_cons_True by (apply Hall; left).
  f_equal. apply IH. intros y Hy. apply Hall. by right.
Qed.

Lemma filter_none {A} (P : A -> Prop) `{forall x, Decision (P x)} (xs : list A) :
  (forall x, x ∈ xs -> ~ P x) -> filter P xs = [].
Proof.
  induction xs as [|x xs IH]; intros Hall; [done|]. rewrite filter_cons_False by (apply Hall; left).
  apply IH. intros y Hy. apply Hall. by right.
Qed.

(** Where a sorted list is split, so many of its elements are at most [x]. *)
Lemma count_le_split xs x i :
  (i <= length xs)%nat -> (forall j y, (j < i)%nat -> xs !! j = Some y -> y <= x) ->
  (forall j y, (i <= j)%nat -> xs !! j = Some y -> x < y) -> count_le xs x = i.
Proof.
  intros Hi Hlow Hhigh. unfold count_le. rewrite <- (take_drop i xs), filter_app, filter_all, filter_none.
  - rewrite app_nil_r, length_take. lia.
  - intros y (j & Hj)%list_elem_of_lookup. rewrite lookup_drop in Hj. apply Hhigh in Hj; lia.
  - intros y (j & Hj)%list_elem_of_lookup. apply lookup_take_Some in Hj as [Hj Hlt]. eapply Hlow; done.
Qed.

Lemma windows_sorted_ltb xs : windows_sorted Z.ltb xs = true -> StronglySorted Z.lt xs.
Proof.
  intros Hw. apply Sorted_StronglySorted; [intros ?; lia|]. induction xs as [|a [|b xs] IH]; [constructor|by repeat constructor|].
  cbn [windows_sorted] in Hw. apply andb_true_iff in Hw as [Hab%Z.ltb_lt Hw]. constructor; [by apply IH|by constructor].
Qed.

Lemma sorted_lookup_lt xs i j a b :
  StronglySorted Z.lt xs -> xs !! i = Some a -> xs !! j = Some b -> (i < j)%nat -> a < b.
Proof.
  intros Hs. revert i j. induction Hs as [|x xs Hs IH Hall]; intros i j Hi Hj Hij; [done|].
  destruct j as [|j]; [lia|]. destruct i as [|i]; simpl in *.
  - injection Hi as <-. rewrite Forall_lookup in Hall. by apply (Hall j).
  - apply (IH i j); [done|done|lia].
Qed.

Lemma entries_sorted xs : StronglySorted Z.lt xs -> FixedMap.sorted ((fun r => mkEntry r tt) <$> xs).
Proof.
  unfold FixedMap.sorted. induction 1 as [|x xs Hs IH Hall]; [constructor|]. simpl. constructor; [done|].
  rewrite Forall_fmap. done.
Qed.

(** The rank of an amount is the number of ranks that it reaches. *)
Lemma rank_for_count xs amount :
  StronglySorted Z.lt xs -> rank_for xs amount = Z.of_nat (count_le xs amount).
Proof.
  intros Hs. unfold rank_for. pose proof (slice_binary_search_spec _ amount (entries_sorted xs Hs)) as Hb.
  destruct (slice_binary_search _ amount) as [i|i|]; [| |done].
  - destruct Hb as (e & He & <-). rewrite list_lookup_fmap in He. destruct (xs !! i) as [a|] eqn:Ha; [|done].
    injection He as <-. simpl. rewrite (count_le_split xs a (S i)); [lia|by apply lookup_lt_Some in Ha|..].
    + intros j y Hj Hy. destruct (decide (j = i)) as [->|]; [simplify_eq; lia|].
      pose proof (sorted_lookup_lt xs j i y a Hs Hy Ha). lia.
    + intros j y Hj Hy. apply (sorted_lookup_lt xs i j a y Hs Ha Hy). lia.
  - destruct Hb as (Hlen & Hlow & Hhigh). rewrite length_fmap in Hlen.
    rewrite (count_le_split xs amount i); [done|done|..]; intros j y Hj Hy.
    + specialize (Hlow j (mkEntry y tt) Hj). rewrite list_lookup_fmap, Hy in Hlow. specialize (Hlow eq_refl). simpl in Hlow. lia.
    + specialize (Hhigh j (mkEntry y tt) Hj). rewrite list_lookup_fmap, Hy in Hhigh. by apply Hhigh.
Qed.

Lemma grow_cost_add n k cost factor c :
  grow_cost n cost factor = Ok c -> grow_cost (n + k) cost factor = grow_cost k c factor.
Proof.
  revert cost. induction n as [|n IH]; intros cost Hn; simpl in *; [by injection Hn as ->|].
  apply rbind_ok in Hn as (c1 & Hc1 & Hn). rewrite Hc1. simpl. by apply IH.
Qed.

(** ** Minting and burning *)
Section Operations.
(** The state as it was initialized: its configuration never changes. *)
Context (s0 : GtState).
Implicit Types (s : GtState) (u : UserHeader) (g : UserGtState).

Record StateOk s : Prop := {
  so_step : grow_step_amount s = grow_step_amount s0;
  so_factor : minting_cost_grow_factor s = minting_cost_grow_factor s0;
  so_max_rank : max_rank s = max_rank s0;
  so_ranks : all_ranks s = all_ranks s0;
  so_total : 0 <= gt_total_minted s;
  (** The cost has grown once for every full step that was ever minted. *)
  so_steps : grow_steps s = gt_total_minted s / grow_step_amount s0;
  so_cost : grow_cost (Z.to_nat (grow_steps s)) (minting_cost s0) (minting_cost_grow_factor s0)
            = Ok (minting_cost s);
  so_discounts_length : length (order_fee_discount_factors s) = S MAX_RANK;
  so_discounts : Forall (fun f => 0 <= f <= MARKET_USD_UNIT) (order_fee_discount_factors s);
}.

(** The rank is that of the balance; a user that never had GT has rank zero. *)
Definition RankOk g : Prop := rank g = rank_for (ranks s0) (gt_amount g) \/ gt_amount g = 0 /\ rank g = 0.

Lemma ranks_eq s : StateOk s -> ranks s = ranks s0.
Proof. intros Hs. unfold ranks. by rewrite (so_max_rank _ Hs), (so_ranks _ Hs). Qed.

Lemma set_gt_same u : set_gt u (gt u) = u.
Proof. by destruct u. Qed.

Lemma update_rank_eq s u :
  unchecked_update_rank s u =
  set_gt u (mkUserGtState (rank_for (ranks s) (gt_amount (gt u))) (last_minted_at (gt u))
              (total_minted (gt u)) (gt_amount (gt u)) (paid_fee_value (gt u)) (minted_fee_value (gt u))).
Proof.
  unfold unchecked_update_rank. destruct (Z.eqb_spec (rank (gt u)) (rank_for (ranks s) (gt_amount (gt u)))) as [<-|];
    simpl; [|done]. by destruct u as [? ? ? ? ? []].
Qed.

Lemma next_cost_ok s total next :
  0 < grow_step_amount s0 -> StateOk s -> gt_total_minted s <= total ->
  next_minting_cost s total = Ok next ->
  let (steps, cost) := default (grow_steps s, minting_cost s) next in
  steps = total / grow_step_amount s0
  /\ grow_cost (Z.to_nat steps) (minting_cost s0) (minting_cost_grow_factor s0) = Ok cost.
Proof.
  intros Hpos Hs Hle Hn. pose proof (so_steps _ Hs) as Hsteps. pose proof (so_cost _ Hs) as Hcost.
  unfold next_minting_cost in Hn. rewrite (so_step _ Hs), (so_factor _ Hs) in Hn.
  apply rbind_ok in Hn as (u & _ & Hn).
  destruct (Z.eqb_spec (total / grow_step_amount s0) (grow_steps s)) as [Heq|Hne]; simpl in Hn.
  - injection Hn as <-. simpl. split; [congruence|done].
  - apply rbind_ok in Hn as (cost & Hc & [= <-]). simpl. split; [done|].
    pose proof (Z.div_le_mono _ _ _ Hpos Hle) as Hmono. pose proof (so_total _ Hs).
    assert (0 <= gt_total_minted s / grow_step_amount s0) by (apply Z.div_pos; lia).
    apply (grow_cost_add _ (Z.to_nat (total / grow_step_amount s0 - grow_steps s))) in Hcost.
    rewrite Hc in Hcost. rewrite <- Hcost. f_equal. lia.
Qed.

(** What minting [x] does to the state and to the user. *)
Lemma mint_to_ok now s u x s' u' :
  0 < grow_step_amount s0 -> StateOk s -> 0 <= x -> mint_to now s u x = Ok (s', u') ->
  StateOk s' /\ gt_total_minted s' = gt_total_minted s + x /\ supply s' = supply s + x
  /\ gt_vault s' = gt_vault s
  /\ exists g, u' = set_gt u g /\ gt_amount g = gt_amount (gt u) + x
       /\ total_minted g = total_minted (gt u) + x /\ paid_fee_value g = paid_fee_value (gt u)
       /\ minted_fee_value g = minted_fee_value (gt u) /\ (RankOk (gt u) -> RankOk g).
Proof.
  intros Hpos Hs Hx Hm. unfold mint_to in Hm. destruct (Z.eqb_spec x 0) as [->|Hne].
  - injection Hm as <- <-. rewrite !Z.add_0_r. split_and!; try done. exists (gt u).
    by rewrite set_gt_same.
  - apply rbind_ok in Hm as (total & Ht & Hm). apply ok_or_ok, uadd_some in Ht as [-> _].
    apply rbind_ok in Hm as (next & Hn & Hm).
    apply rbind_ok in Hm as (utotal & Hu & Hm). apply ok_or_ok, uadd_some in Hu as [-> _].
    apply rbind_ok in Hm as (amount & Ha & Hm). apply ok_or_ok, uadd_some in Ha as [-> _].
    apply rbind_ok in Hm as (sup & Hsup & Hm). apply ok_or_ok, uadd_some in Hsup as [-> _].
    pose proof (so_total _ Hs). apply (next_cost_ok s _ next Hpos Hs) in Hn; [|lia].
    destruct (default _ next) as [steps cost]. destruct Hn as [Hsteps Hcost].
    injection Hm as <- <-. rewrite update_rank_eq.
    split_and!; [destruct Hs; split; simpl; (done || lia)|done|done|done|].
    eexists. split; [reflexivity|]. simpl. split_and!; try done. intros _. left. simpl.
    f_equal. unfold ranks. simpl. by rewrite (so_max_rank _ Hs), (so_ranks _ Hs).
Qed.

Lemma gt_burn_ok s u x s' u' :
  StateOk s -> 0 <= x -> unchecked_burn_from s u x = Ok (s', u') ->
  StateOk s' /\ gt_total_minted s' = gt_total_minted s /\ supply s' = supply s - x
  /\ gt_vault s' = gt_vault s /\ (x = 0 \/ x <= gt_amount (gt u))
  /\ exists g, u' = set_gt u g /\ gt_amount g = gt_amount (gt u) - x
       /\ total_minted g = total_minted (gt u) /\ paid_fee_value g = paid_fee_value (gt u)
       /\ minted_fee_value g = minted_fee_value (gt u) /\ (RankOk (gt u) -> RankOk g).
Proof.
  intros Hs Hx Hm. unfold unchecked_burn_from in Hm. destruct (Z.eqb_spec x 0) as [->|Hne].
  - injection Hm as <- <-. rewrite !Z.sub_0_r. split_and!; try done; [by left|]. exists (gt u).
    by rewrite set_gt_same.
  - apply rbind_ok in Hm as (? & Hle%require_ok%Z.leb_le & Hm).
    apply rbind_ok in Hm as (amount & Ha & Hm). apply ok_or_ok, usub_some in Ha as [-> _].
    apply rbind_ok in Hm as (sup & Hsup & Hm). apply ok_or_ok, usub_some in Hsup as [-> _].
    injection Hm as <- <-. rewrite update_rank_eq.
    split_and!; [by destruct Hs|done|done|done|by right|].
    eexists. split; [reflexivity|]. simpl. split_and!; try done. intros _. left. simpl. f_equal. by apply ranks_eq.
Qed.

(** GT for paid fees: as much as the cost buys of the fees that no GT was minted for yet. *)
Lemma get_mint_amount_ok s value minted minted_value cost :
  0 <= value -> 0 <= minting_cost s -> get_mint_amount s value = Ok (minted, minted_value, cost) ->
  cost = minting_cost s /\ 0 < cost /\ minted = value / cost /\ minted_value = minted * cost
  /\ minted_value <= value < minted_value + cost.
Proof.
  intros Hv Hc Hm. unfold get_mint_amount in Hm. apply rbind_ok in Hm as (? & Hnz%require_ok & Hm).
  bool_to_prop. apply rbind_ok in Hm as (n & Hn & [= <- <- <-]). apply ok_or_ok, try_u_some in Hn as [-> _].
  pose proof (Z.div_mod value (minting_cost s)). pose proof (Z.mod_pos_bound value (minting_cost s)).
  split_and!; lia.
Qed.
End Operations.

(** ** What always holds of the token *)
Section World.
Context (store : Pubkey) (bump : Pubkey -> Z) (code_address : ReferralCodeBytes -> Pubkey).
Context (vault_address : Z -> Z -> Pubkey).
Hypothesis code_address_set : forall c, code_address c <> DEFAULT_PUBKEY.
(** The state of the token after its initialization. *)
Context (s0 : GtState) (Hstep : 0 < grow_step_amount s0) (Hcost : 0 <= minting_cost s0)
  (Hmax : (max_rank s0 <= MAX_RANK)%nat).
Implicit Types (w : GtWorld) (s : GtState) (u : UserHeader) (g : UserGtState) (v : GtExchangeVault)
  (e : GtExchange) (us : Referrals).

Definition users_hold us (f : UserGtState -> Z) : Z := map_sum (fun u => f (gt u)) (users us).
Definition exchanged w (a : Pubkey) : Z :=
  map_sum (fun e => if exchange_vault e =? a then exchange_amount e else 0) (exchanges w).

Definition UserOk g : Prop :=
  0 <= gt_amount g /\ RankOk s0 g /\ minted_fee_value g <= paid_fee_value g.

Record GtWf w : Prop := {
  gw_state : StateOk s0 (gt_state w);
  gw_users : ReferralsWf store code_address (gt_users w);
  gw_user o u : users (gt_users w) !! o = Some u -> UserOk (gt u);
  (** The supply is what the users have; the total is what they were ever given, and is split
      into the supply and what was handed in. *)
  gw_supply : supply (gt_state w) = users_hold (gt_users w) gt_amount;
  gw_minted : gt_total_minted (gt_state w) = users_hold (gt_users w) total_minted;
  gw_split : gt_total_minted (gt_state w) = supply (gt_state w) + map_sum vault_amount (vaults w);
  gw_vault : gt_vault (gt_state w) =
    map_sum (fun v => if vault_is_confirmed v then vault_amount v else 0) (vaults w);
  (** A vault holds the exchanges that are made with it, until they are closed. *)
  gw_exchanges a v : vaults w !! a = Some v ->
    exchanged w a <= vault_amount v /\ (vault_is_confirmed v = false -> exchanged w a = vault_amount v);
  gw_exchange k e : exchanges w !! k = Some e ->
    exchange_vault e = fst k /\ 0 <= exchange_amount e /\ is_Some (vaults w !! fst k);
}.

(** *** Users *)

Lemma put_user_gt us o u g :
  ReferralsWf store code_address us -> users us !! o = Some u ->
  ReferralsWf store code_address (put_user (set_gt u g) us)
  /\ (forall f, users_hold (put_user (set_gt u g) us) f = users_hold us f - f (gt u) + f g)
  /\ (forall Q : UserGtState -> Prop, (forall o u, users us !! o = Some u -> Q (gt u)) -> Q g ->
        forall o u', users (put_user (set_gt u g) us) !! o = Some u' -> Q (gt u')).
Proof.
  intros Hwf Hu. destruct (wf_user _ _ _ Hwf _ _ Hu) as (Ho & Hi & Hst).
  assert (Hput : put_user (set_gt u g) us = mkReferrals (<[o := set_gt u g]> (users us)) (codes us))
    by (unfold put_user; simpl; by rewrite Ho).
  rewrite Hput. split; [|split].
  - destruct Hwf as [H1 H2 H3 H4 H5 H6].
    assert (Hback : forall o' u', <[o := set_gt u g]> (users us) !! o' = Some u' ->
      exists u0, users us !! o' = Some u0 /\ referral u' = referral u0 /\ user_owner u' = user_owner u0
        /\ user_is_initialized u' = user_is_initialized u0 /\ user_store u' = user_store u0).
    { intros o' u' [[<- <-]|[_ Hu']]%lookup_insert_Some; [by exists u|by exists u']. }
    assert (Hfwd : forall o' u', users us !! o' = Some u' ->
      exists u0, <[o := set_gt u g]> (users us) !! o' = Some u0 /\ referral u0 = referral u').
    { intros o' u' Hu'. destruct (decide (o = o')) as [<-|Hne].
      - exists (set_gt u g). split; [apply lookup_insert_eq|]. by assert (u' = u) as -> by congruence.
      - exists u'. by rewrite lookup_insert_ne. }
    split; simpl.
    + intros o' u' (u0 & Hu0 & _ & -> & -> & ->)%Hback. by apply H1.
    + done.
    + intros a c Hc. destruct (H3 a c Hc) as (u0 & Hu0 & Hcode). destruct (Hfwd _ _ Hu0) as (u1 & Hu1 & Hr).
      exists u1. by rewrite Hr.
    + intros o' u' (u0 & Hu0 & -> & _)%Hback. by apply H4.
    + intros o' u' (u0 & Hu0 & -> & _)%Hback Hn. destruct (H5 _ _ Hu0 Hn) as (Hne & u1 & Hu1 & Hr1).
      split; [done|]. destruct (Hfwd _ _ Hu1) as (u2 & Hu2 & Hr2). exists u2. by rewrite Hr2.
    + intros o' u' (u0 & Hu0 & -> & _)%Hback Hn. rewrite (H6 _ _ Hu0 Hn). unfold referees. simpl.
      rewrite map_sum_insert, Hu. simpl. f_equal. lia.
  - intros f. unfold users_hold. simpl. rewrite map_sum_insert, Hu. done.
  - intros Q Hall Hq o' u' Hu'. cbn [users] in Hu'.
    apply lookup_insert_Some in Hu' as [[<- <-]|[_ Hu']]; [done|by eapply Hall].
Qed.

Definition zero_gt : UserGtState := mkUserGtState 0 0 0 0 0 0.

(** The referral instructions do not touch the GT of the users; new users have none. *)
Definition gt_same us us' : Prop :=
  (forall f, f zero_gt = 0 -> users_hold us' f = users_hold us f)
  /\ forall Q : UserGtState -> Prop, Q zero_gt -> (forall o u, users us !! o = Some u -> Q (gt u)) ->
       forall o u, users us' !! o = Some u -> Q (gt u).

Lemma gt_same_refl us : gt_same us us.
Proof. split; eauto. Qed.

Lemma gt_same_trans us us1 us2 : gt_same us us1 -> gt_same us1 us2 -> gt_same us us2.
Proof.
  intros [H1 H2] [H3 H4]. split; [intros f Hf; rewrite H3, H1; done|].
  intros Q Hz Hall. apply (H4 Q Hz). by apply H2.
Qed.

Lemma put_same us u g :
  from_option gt zero_gt (users us !! user_owner u) = g -> gt u = g -> gt_same us (put_user u us).
Proof.
  intros Hold Hg. split.
  - intros f Hf. unfold users_hold. simpl. rewrite map_sum_insert, Hg, <- Hold.
    destruct (users us !! user_owner u); simpl; lia.
  - intros Q Hz Hall o u' Hu'. unfold put_user in Hu'. cbn [users] in Hu'.
    apply lookup_insert_Some in Hu' as [[_ <-]|[_ Hu']]; [|by eapply Hall].
    rewrite Hg, <- Hold. destruct (users us !! user_owner u) eqn:Hu; simpl; [by eapply Hall|done].
Qed.

Lemma run_action_gt a us us' :
  ReferralsWf store code_address us -> run_action store bump code_address a us = Ok us' -> gt_same us us'.
Proof.
  intros Hwf Hr. destruct a as [o|o c|o c r|o c r|o c|o c r]; simpl in Hr.
  - unfold prepare_user in Hr. apply rbind_ok in Hr as (u & Hu & Hr). do 2 apply rbind_ok in Hr as (? & _ & Hr).
    apply rbind_ok in Hr as (? & Ho%require_ok%Z.eqb_eq & Hr). apply rbind_ok in Hr as (? & _ & [= <-]).
    eapply put_same; [|done]. rewrite Ho. destruct (users us !! o); by injection Hu as <-.
  - unfold initialize_referral_code in Hr. apply rbind_ok in Hr as (? & _ & Hr).
    apply rbind_ok in Hr as (u & Hu%find_user_ok & Hr). do 4 apply rbind_ok in Hr as (? & _ & Hr).
    apply rbind_ok in Hr as (r & _ & [= <-]). destruct (wf_user _ _ _ Hwf _ _ Hu) as (Ho & _).
    apply (put_same (put_code _ _ us) _ (gt u)); [|done]. simpl. by rewrite Ho, Hu.
  - unfold handle_set_referrer in Hr. apply rbind_ok in Hr as (u & Hu%find_user_ok & Hr).
    do 3 apply rbind_ok in Hr as (? & _ & Hr). apply rbind_ok in Hr as (? & _ & Hr).
    do 2 apply rbind_ok in Hr as (? & _ & Hr). apply rbind_ok in Hr as (v & Hv%find_user_ok & Hr).
    do 4 apply rbind_ok in Hr as (? & _ & Hr). apply rbind_ok in Hr as (? & Hself%require_ok%negb_true_iff%Z.eqb_neq & Hr).
    apply rbind_ok in Hr as (? & _ & Hr). apply rbind_ok in Hr as ([r1 v1] & (_ & _ & -> & ->)%set_referrer_ok & [= <-]).
    destruct (wf_user _ _ _ Hwf _ _ Hu) as (Ho & _). destruct (wf_user _ _ _ Hwf _ _ Hv) as (Hov & _).
    eapply (gt_same_trans _ (put_user (set_referral u _) us)); [eapply (put_same us _ (gt u)); [simpl; by rewrite Ho, Hu|done]|].
    eapply (put_same _ _ (gt v)); [|done]. simpl. rewrite Ho, Hov, lookup_insert_ne by congruence. by rewrite Hv.
  - unfold transfer_referral_code in Hr. apply rbind_ok in Hr as ([u c1] & _ & Hr).
    apply rbind_ok in Hr as (? & _ & Hr). apply rbind_ok in Hr as (? & _ & Hr).
    do 2 apply rbind_ok in Hr as (? & _ & Hr). by apply rbind_ok in Hr as (c2 & _ & [= <-]).
  - unfold cancel_referral_code_transfer in Hr. apply rbind_ok in Hr as ([u c1] & _ & Hr).
    apply rbind_ok in Hr as (? & _ & Hr). by apply rbind_ok in Hr as (c2 & _ & [= <-]).
  - unfold accept_referral_code in Hr. apply rbind_ok in Hr as ([u c1] & (Hu & _)%owner_of_code_ok & Hr).
    apply rbind_ok in Hr as (v & Hv%find_user_ok & Hr). do 2 apply rbind_ok in Hr as (? & _ & Hr).
    apply rbind_ok in Hr as (? & Hself%require_ok%negb_true_iff%Z.eqb_neq & Hr).
    apply rbind_ok in Hr as ([[u1 c2] v1] & Ht & [= <-]). apply rbind_ok in Ht as (? & _ & Ht).
    apply rbind_ok in Ht as (? & _ & [= <- <- <-]).
    destruct (wf_user _ _ _ Hwf _ _ Hu) as (Ho & _). destruct (wf_user _ _ _ Hwf _ _ Hv) as (Hov & _).
    eapply (gt_same_trans _ (put_user (set_referral u _) (put_code _ _ us)));
      [eapply (put_same (put_code _ _ us) _ (gt u)); [simpl; by rewrite Ho, Hu|done]|].
    eapply (put_same _ _ (gt v)); [|done]. simpl. rewrite Ho, Hov, lookup_insert_ne by congruence. by rewrite Hv.
Qed.

(** *** Instructions *)

Lemma wf_after_users w us' :
  GtWf w -> ReferralsWf store code_address us' -> gt_same (gt_users w) us' ->
  GtWf (mkGtWorld (gt_state w) us' (rewards w) (vaults w) (exchanges w)).
Proof.
  intros [] Hus [Hsum Hall]. split; simpl; try done.
  - apply (Hall UserOk); [|done]. split; simpl; [lia|]. split; [right; done|lia].
  - by rewrite Hsum.
  - by rewrite Hsum.
Qed.

(** A mint to a user of the world. *)
Lemma mint_wf now w o u x s' u' :
  GtWf w -> users (gt_users w) !! o = Some u -> 0 <= x -> mint_to now (gt_state w) u x = Ok (s', u') ->
  GtWf (set_user (set_state w s') u')
  /\ exists g, u' = set_gt u g /\ paid_fee_value g = paid_fee_value (gt u)
       /\ minted_fee_value g = minted_fee_value (gt u).
Proof.
  intros Hwf Hu Hx Hm. pose proof Hwf as [Hs Hus Huser Hsup Hmint Hsplit Hvault Hexs Hex].
  apply (mint_to_ok s0) in Hm as (Hs' & Ht & Hp & Hv & g & -> & Ha & Htm & Hpaid & Hmf & Hr); [|done..].
  destruct (put_user_gt _ o u g Hus Hu) as (Hus' & Hsum & Hall). destruct (Huser o u Hu) as (Hnn & Hrank & Hfee).
  split; [|exists g; done]. split; simpl; try done.
  - apply (Hall UserOk); [done|]. split; [lia|]. split; [auto|lia].
  - rewrite Hsum, Hp, Hsup. lia.
  - rewrite Hsum, Ht, Hmint. lia.
  - rewrite Ht, Hp, Hsplit. lia.
  - by rewrite Hv.
Qed.

(** Writing the fees of a user, when no more is minted for than was paid. *)
Lemma fees_wf w o u paid minted :
  GtWf w -> users (gt_users w) !! o = Some u -> minted <= paid ->
  GtWf (set_user w (set_gt u (mkUserGtState (rank (gt u)) (last_minted_at (gt u)) (total_minted (gt u))
                                (gt_amount (gt u)) paid minted))).
Proof.
  intros Hwf Hu Hle. pose proof Hwf as [Hs Hus Huser Hsup Hmint Hsplit Hvault Hexs Hex].
  destruct (put_user_gt _ o u (mkUserGtState (rank (gt u)) (last_minted_at (gt u)) (total_minted (gt u))
    (gt_amount (gt u)) paid minted) Hus Hu) as (Hus' & Hsum & Hall).
  destruct (Huser o u Hu) as (Hnn & Hrank & _).
  split; simpl; try done.
  - apply (Hall UserOk); [done|]. by split.
  - rewrite Hsum, Hsup. simpl. lia.
  - rewrite Hsum, Hmint. simpl. lia.
Qed.

Lemma grow_cost_nonneg n cost factor c : 0 <= cost -> grow_cost n cost factor = Ok c -> 0 <= c.
Proof.
  revert cost. induction n as [|n IH]; intros cost Hc Hg; simpl in Hg; [by injection Hg as <-|].
  apply rbind_ok in Hg as (c1 & Hc1 & Hg). apply ok_or_ok, checked_mul_div_some in Hc1 as (_ & _ & [Hn _]).
  by apply (IH c1).
Qed.

Lemma put_user_id us o u :
  ReferralsWf store code_address us -> users us !! o = Some u -> put_user u us = us.
Proof.
  intros Hwf Hu. destruct (wf_user _ _ _ Hwf _ _ Hu) as (Ho & _). unfold put_user. rewrite Ho, insert_id by done.
  by destruct us.
Qed.

Lemma reward_wf w order owner amount : GtWf w -> GtWf (set_reward w order owner amount).
Proof. by intros []. Qed.

Lemma process_gt_wf now order owner paid w w' :
  GtWf w -> 0 <= paid -> process_gt now order owner paid w = Ok w' -> GtWf w'.
Proof.
  intros Hwf Hp Hr. unfold process_gt in Hr. apply rbind_ok in Hr as (u & Hu%find_user_ok & Hr).
  apply rbind_ok in Hr as ([[s1 u1] amount] & Hpr & [= <-]).
  unfold unchecked_process_gt in Hpr. destruct (Z.eqb_spec paid 0) as [->|Hne].
  - injection Hpr as <- <- <-. unfold set_user. simpl. rewrite (put_user_id _ owner u) by (done || apply Hwf).
    by destruct w.
  - apply rbind_ok in Hpr as (? & Hle%require_ok%Z.leb_le & Hpr).
    apply rbind_ok in Hpr as ([[minted value] cost] & Hmint & Hpr).
    apply rbind_ok in Hpr as (next & Hnext & Hpr). apply ok_or_ok, uadd_some in Hnext as [-> _].
    apply rbind_ok in Hpr as ([s2 u2] & Hto & [= <- <- <-]).
    apply get_mint_amount_ok in Hmint as (-> & Hc & -> & -> & Hvle);
      [|lia|eapply grow_cost_nonneg; [exact Hcost|apply (so_cost s0), Hwf]].
    set (n := Z.max 0 _ / _) in *.
    assert (Hn : 0 <= n) by (apply Z.div_pos; lia).
    destruct (mint_wf _ _ _ _ _ _ _ Hwf Hu Hn Hto) as (Hwf1 & g & -> & Hgp & Hgm).
    assert (Hu1 : users (gt_users (set_user (set_state w s2) (set_gt u g))) !! owner = Some (set_gt u g)).
    { destruct (wf_user _ _ _ (gw_users _ Hwf) _ _ Hu) as (Ho & _). unfold set_user, put_user. simpl.
      rewrite Ho. apply lookup_insert_eq. }
    apply reward_wf.
    pose proof (fees_wf _ _ _ (Z.min (paid_fee_value (gt u) + paid) (@u_max u128))
      (minted_fee_value (gt u) + n * minting_cost (gt_state w)) Hwf1 Hu1) as Hfees.
    unfold set_user, put_user, set_state in *. simpl in *. rewrite insert_insert_eq in Hfees. apply Hfees. lia.
Qed.

Lemma gt_reward_wf now order w w' : GtWf w -> process_gt_reward now order w = Ok w' -> GtWf w'.
Proof.
  intros Hwf Hr. unfold process_gt_reward in Hr. apply rbind_ok in Hr as ([owner amount] & _ & Hr).
  destruct (amount =? 0); [by injection Hr as <-|]. apply rbind_ok in Hr as (w1 & Hm & [= <-]). apply reward_wf.
  unfold mint_gt_reward_for_referrer in Hm. apply rbind_ok in Hm as (u & Hu%find_user_ok & Hm).
  destruct (referrer_of (referral u)) as [r|]; [|by injection Hm as <-].
  apply rbind_ok in Hm as (v & Hv%ok_or_ok & Hm). apply rbind_ok in Hm as (? & _ & Hm).
  apply rbind_ok in Hm as (reward & Hrw & Hm). destruct (reward =? 0); [by injection Hm as <-|].
  apply rbind_ok in Hm as ([s1 v1] & Hto & [= <-]).
  assert (Hn : 0 <= reward).
  { unfold referral_reward in Hrw. apply rbind_ok in Hrw as (? & _ & Hrw). apply rbind_ok in Hrw as (? & _ & Hrw).
    apply ok_or_ok, try_u_some in Hrw as [-> [? _]]. done. }
  by destruct (mint_wf _ _ _ _ _ _ _ Hwf Hv Hn Hto) as (Hwf1 & _).
Qed.

Lemma map_sum_new_vault (f : GtExchangeVault -> Z) w a v :
  f v = from_option f 0 (vaults w !! a) -> map_sum f (<[a:=v]> (vaults w)) = map_sum f (vaults w).
Proof. intros Hf. rewrite map_sum_insert, Hf. lia. Qed.

(** A new vault is empty, and no exchange has been made with it. *)
Lemma exchanged_none w a : GtWf w -> vaults w !! a = None -> exchanged w a = 0.
Proof.
  intros Hwf Ha. apply map_sum_zero. intros k e He. destruct (gw_exchange _ Hwf _ _ He) as (-> & _ & Hsome).
  destruct (Z.eqb_spec (fst k) a) as [<-|]; [|done]. rewrite Ha in Hsome. by destruct Hsome.
Qed.

Lemma prepare_vault_wf now index w w' :
  GtWf w -> prepare_gt_exchange_vault store bump vault_address now index w = Ok w' -> GtWf w'.
Proof.
  intros Hwf Hr. unfold prepare_gt_exchange_vault in Hr. apply rbind_ok in Hr as (? & _ & Hr).
  set (a := vault_address index _) in *. apply rbind_ok in Hr as (v & Hv & Hr).
  do 4 apply rbind_ok in Hr as (? & _ & Hr). injection Hr as <-.
  destruct (vaults w !! a) as [v0|] eqn:Ha.
  - injection Hv as <-. unfold set_vault. rewrite insert_id by done. by destruct w.
  - unfold vault_init in Hv. do 2 apply rbind_ok in Hv as (? & _ & Hv). injection Hv as <-.
    pose proof (exchanged_none w a Hwf Ha) as Hnone. destruct Hwf as [Hs Hus Huser Hsup Hmint Hsplit Hvault Hexs Hex].
    split; simpl; try done.
    + rewrite map_sum_new_vault; [done|]. by rewrite Ha.
    + rewrite map_sum_new_vault; [done|]. by rewrite Ha.
    + intros a' v' Hv'. unfold exchanged. simpl. fold (exchanged w a').
      apply lookup_insert_Some in Hv' as [[<- <-]|[_ Hv']]; [|by apply Hexs]. simpl. rewrite Hnone. done.
    + intros k e He. destruct (Hex k e He) as (H1 & H2 & H3). split; [done|]. split; [done|].
      apply lookup_insert_is_Some'. by right.
Qed.

Lemma close_wf owner a w w' : GtWf w -> close_gt_exchange store owner a w = Ok w' -> GtWf w'.
Proof.
  intros Hwf Hr. unfold close_gt_exchange in Hr. apply rbind_ok in Hr as (? & _ & Hr).
  apply rbind_ok in Hr as (v & Hv%ok_or_ok & Hr). apply rbind_ok in Hr as (? & _ & Hr).
  apply rbind_ok in Hr as (? & Hconf%require_ok & Hr). apply rbind_ok in Hr as (? & _ & Hr).
  apply rbind_ok in Hr as (e & He%ok_or_ok & Hr). do 3 apply rbind_ok in Hr as (? & _ & Hr).
  apply rbind_ok in Hr as (? & Hva%has_one_ok%Z.eqb_eq & [= <-]).
  destruct Hwf as [Hs Hus Huser Hsup Hmint Hsplit Hvault Hexs Hex]. split; simpl; try done.
  - intros a' v' Hv'. destruct (Hexs a' v' Hv') as [Hle Heq]. destruct (Hex _ _ He) as (_ & Hnn & _).
    assert (Hex' : exchanged (mkGtWorld (gt_state w) (gt_users w) (rewards w) (vaults w)
      (delete (a, owner) (exchanges w))) a' = exchanged w a' - (if exchange_vault e =? a' then exchange_amount e else 0)).
    { unfold exchanged. simpl. by rewrite (map_sum_delete _ _ _ _ He). }
    rewrite Hex'. destruct (Z.eqb_spec (exchange_vault e) a') as [Hea|]; [|rewrite Z.sub_0_r; done].
    split; [lia|]. intros Hn. assert (v' = v) as -> by congruence. congruence.
  - intros k e' [_ He']%lookup_delete_Some. by apply Hex.
Qed.

Lemma configure_wf f w w' :
  GtWf w -> (forall s s', f s = Ok s' -> (StateOk s0 s -> StateOk s0 s') /\ supply s' = supply s
              /\ gt_total_minted s' = gt_total_minted s /\ gt_vault s' = gt_vault s) ->
  configure f w = Ok w' -> GtWf w'.
Proof.
  intros Hwf Hf Hr. unfold configure in Hr. apply rbind_ok in Hr as (? & _ & Hr).
  apply rbind_ok in Hr as (s' & Hs' & [= <-]). destruct (Hf _ _ Hs') as (Hok & Hsup' & Ht' & Hv').
  destruct Hwf as [Hs Hus Huser Hsup Hmint Hsplit Hvault Hexs Hex]. split; simpl; try done; auto; congruence.
Qed.

Lemma vault_add_ok v now x v' :
  vault_add v now x = Ok v' -> vault_is_confirmed v = false
  /\ vault_is_confirmed v' = false /\ vault_amount v' = vault_amount v + x.
Proof.
  intros Hr. apply rbind_ok in Hr as (? & Hd & Hr). apply rbind_ok in Hd as (? & Hc%require_ok%negb_true_iff & _).
  apply rbind_ok in Hr as (n & Hn & [= <-]). by apply ok_or_ok, uadd_some in Hn as [-> _].
Qed.

(** The exchange of a user with a vault, new or not. *)
Lemma find_exchange_ok (w : GtWorld) (a owner : Pubkey) (b : Z) e :
  GtWf w -> is_Some (vaults w !! a) ->
  match exchanges w !! (a, owner) with
  | None => exchange_init zeroed_exchange b owner store a
  | Some e => Ok e
  end = Ok e ->
  exchange_vault e = a /\ 0 <= exchange_amount e
  /\ exchange_amount e =
     from_option (fun e => if exchange_vault e =? a then exchange_amount e else 0) 0 (exchanges w !! (a, owner)).
Proof.
  intros Hwf Ha He. destruct (exchanges w !! (a, owner)) as [e0|] eqn:Hk.
  - injection He as <-. destruct (gw_exchange _ Hwf _ _ Hk) as (Hv & Hn & _). simpl in *.
    split_and!; [done|done|]. rewrite Hv. by rewrite Z.eqb_refl.
  - apply rbind_ok in He as (? & _ & [= <-]). done.
Qed.

Lemma request_wf now owner a x w w' :
  GtWf w -> 0 <= x -> request_gt_exchange store bump vault_address now owner a x w = Ok w' -> GtWf w'.
Proof.
  intros Hwf Hx Hr. unfold request_gt_exchange in Hr. apply rbind_ok in Hr as (? & _ & Hr).
  apply rbind_ok in Hr as (u & Hu%find_user_ok & Hr). do 3 apply rbind_ok in Hr as (? & _ & Hr).
  apply rbind_ok in Hr as (v & Hv%ok_or_ok & Hr). do 3 apply rbind_ok in Hr as (? & _ & Hr).
  apply rbind_ok in Hr as (e & He & Hr). do 3 apply rbind_ok in Hr as (? & _ & Hr).
  apply rbind_ok in Hr as ([[[s1 u1] v1] e1] & Hreq & [= <-]).
  apply find_exchange_ok in He as (Hev & Henn & Hea); [|done|by exists v].
  unfold unchecked_request_exchange in Hreq. do 3 apply rbind_ok in Hreq as (? & _ & Hreq).
  apply rbind_ok in Hreq as ([s2 u2] & Hburn & Hreq).
  apply rbind_ok in Hreq as (v2 & (Hvc & Hvc' & Hva)%vault_add_ok & Hreq).
  apply rbind_ok in Hreq as (e2 & He2 & [= <- <- <- <-]). apply rbind_ok in He2 as (n & Hn & [= <-]).
  apply ok_or_ok, uadd_some in Hn as [-> _].
  pose proof Hwf as [Hs Hus Huser Hsup Hmint Hsplit Hvault Hexs Hex].
  apply (gt_burn_ok s0) in Hburn as (Hs' & Ht & Hp & Hgv & Henough & g & -> & Ha & Htm & Hpaid & Hmf & Hrank); [|done..].
  destruct (put_user_gt _ owner u g Hus Hu) as (Hus' & Hsum & Hall). destruct (Huser owner u Hu) as (Hnn & Hr0 & Hfee).
  split; simpl; try done.
  - apply (Hall UserOk); [done|]. split; [lia|]. split; [auto|lia].
  - rewrite Hsum, Hp, Hsup. lia.
  - rewrite Hsum, Ht, Hmint. lia.
  - rewrite map_sum_insert, Hv, Hva, Ht, Hp, Hsplit. simpl. lia.
  - rewrite map_sum_insert, Hv, Hgv, Hvault. simpl. rewrite Hvc, Hvc'. lia.
  - intros a' v' Hv'. set (w1 := set_exchange _ _ _).
    assert (Hex1 : exchanged w1 a' = exchanged w a' + if a =? a' then x else 0).
    { unfold exchanged, w1. simpl. rewrite map_sum_insert. cbn [exchange_vault exchange_amount]. rewrite Hev.
      destruct (Z.eqb_spec a a') as [<-|Hne]; [rewrite <- Hea; lia|].
      destruct (exchanges w !! (a, owner)) as [e0|] eqn:Hk; simpl; [|lia].
      destruct (Hex _ _ Hk) as (-> & _). simpl. apply Z.eqb_neq in Hne. rewrite Hne. lia. }
    rewrite Hex1. apply lookup_insert_Some in Hv' as [[<- <-]|[Hne Hv']].
    + rewrite Z.eqb_refl, Hva. destruct (Hexs a v Hv) as [Hle Heq]. rewrite Heq by done. split; [lia|done].
    + apply Z.eqb_neq in Hne. rewrite Hne, Z.add_0_r. by apply Hexs.
  - intros k e' He'. rewrite lookup_insert_is_Some'.
    apply lookup_insert_Some in He' as [[<- <-]|[_ He']]; simpl.
    + split; [done|]. split; [lia|by left].
    + destruct (Hex k e' He') as (H1 & H2 & H3). split_and!; [done|done|by right].
Qed.

Lemma confirm_wf now a w w' :
  GtWf w -> confirm_gt_exchange_vault store vault_address now a w = Ok w' -> GtWf w'.
Proof.
  intros Hwf Hr. unfold confirm_gt_exchange_vault in Hr. apply rbind_ok in Hr as (? & _ & Hr).
  apply rbind_ok in Hr as (v & Hv%ok_or_ok & Hr). do 3 apply rbind_ok in Hr as (? & _ & Hr).
  apply rbind_ok in Hr as ([s1 v1] & Hc & [= <-]). apply rbind_ok in Hc as (? & _ & Hc).
  apply rbind_ok in Hc as ([v2 amount] & Hconf & Hc). apply rbind_ok in Hc as (s2 & Hp & [= <- <-]).
  apply rbind_ok in Hconf as (? & Hcan & [= <- <-]). apply rbind_ok in Hcan as (? & _ & Hcan).
  apply rbind_ok in Hcan as (? & Hnc%require_ok%negb_true_iff & _).
  assert (Hs2 : (StateOk s0 (gt_state w) -> StateOk s0 s2) /\ supply s2 = supply (gt_state w)
    /\ gt_total_minted s2 = gt_total_minted (gt_state w) /\ gt_vault s2 = gt_vault (gt_state w) + vault_amount v).
  { unfold process_gt_vault in Hp. destruct (Z.eqb_spec (vault_amount v) 0) as [->|Hnz].
    - injection Hp as <-. split_and!; [done|done|done|lia].
    - apply rbind_ok in Hp as (n & Hn & [= <-]). apply ok_or_ok, uadd_some in Hn as [-> _]. split_and!; try done.
      by intros []. }
  destruct Hs2 as (Hok & Hsup2 & Ht2 & Hgv2).
  destruct Hwf as [Hs Hus Huser Hsup Hmint Hsplit Hvault Hexs Hex]. split; simpl; try done; [auto|congruence|congruence|..].
  - rewrite map_sum_insert, Hv. simpl. rewrite Ht2, Hsup2, Hsplit. lia.
  - rewrite map_sum_insert, Hv. simpl. rewrite Hnc, Hgv2, Hvault. lia.
  - intros a' v' Hv'. unfold exchanged. simpl. fold (exchanged w a').
    apply lookup_insert_Some in Hv' as [[<- <-]|[_ Hv']]; [|by apply Hexs]. simpl.
    split; [by apply (Hexs a v)|done].
  - intros k e He. destruct (Hex k e He) as (H1 & H2 & H3). split_and!; [done|done|].
    apply lookup_insert_is_Some'. by right.
Qed.

Lemma set_discounts_ok s s' factors :
  Forall (Z.le 0) factors ->
  set_order_fee_discount_factors s factors = Ok s' ->
  (StateOk s0 s -> StateOk s0 s') /\ supply s' = supply s /\ gt_total_minted s' = gt_total_minted s
  /\ gt_vault s' = gt_vault s.
Proof.
  intros Hty Hs'. apply rbind_ok in Hs' as (? & Hlen%require_ok%Nat.eqb_eq & Hs').
  apply rbind_ok in Hs' as (? & Hall%require_ok & [= <-]). split_and!; try done. intros Hs.
  pose proof Hs as []. split; simpl; try done; unfold copy_front.
  - rewrite length_app, length_drop. rewrite (so_max_rank _ _ Hs) in Hlen. lia.
  - apply Forall_app. split; [|by apply Forall_drop]. rewrite List.forallb_forall in Hall.
    rewrite Forall_forall in Hty. apply Forall_forall. intros f Hf. split; [by apply Hty|].
    apply Z.leb_le, Hall. by apply list_elem_of_In.
Qed.

Lemma run_gt_action_wf now a w w' :
  GtWf w -> action_typed a -> run_gt_action store bump code_address vault_address now a w = Ok w' -> GtWf w'.
Proof.
  intros Hwf Hty Hr. destruct a; simpl in Hr, Hty.
  - apply rbind_ok in Hr as (us & Hus & [= <-]). pose proof (gw_users _ Hwf) as Hu.
    apply wf_after_users; [done| |by eapply run_action_gt].
    by destruct (run_action_wf store bump code_address code_address_set _ _ _ Hu Hus).
  - by eapply process_gt_wf.
  - by eapply gt_reward_wf.
  - by eapply prepare_vault_wf.
  - by eapply request_wf.
  - by eapply confirm_wf.
  - by eapply close_wf.
  - eapply configure_wf; [exact Hwf| |exact Hr]. intros s s' Hs'. by eapply set_discounts_ok.
  - eapply configure_wf; [exact Hwf| |exact Hr]. intros s s' Hs'.
    do 2 apply rbind_ok in Hs' as (? & _ & Hs'). injection Hs' as <-. split_and!; try done. by intros [].
  - eapply configure_wf; [exact Hwf| |exact Hr]. intros s s' Hs'.
    apply rbind_ok in Hs' as (? & _ & Hs'). injection Hs' as <-. split_and!; try done. by intros [].
Qed.

Lemma gt_steps_wf w w' :
  rtc (gt_step store bump code_address vault_address) w w' -> GtWf w -> GtWf w'.
Proof.
  induction 1 as [w|w w1 w2 Hstep1 Hsteps IH]; [done|]. intros Hwf. apply IH.
  destruct Hstep1 as [now a w w1 Hty Hr]. by eapply run_gt_action_wf.
Qed.

Lemma empty_world_wf :
  StateOk s0 s0 -> supply s0 = 0 -> gt_total_minted s0 = 0 -> gt_vault s0 = 0 ->
  GtWf (mkGtWorld s0 (mkReferrals ∅ ∅) ∅ ∅ ∅).
Proof.
  intros Hs Hsup Ht Hv. split; simpl; try done; rewrite ?Hsup, ?Ht, ?Hv; try done.
Qed.
End World.

(** ** The token from its initialization on *)

Definition zeroed_gt_state : GtState :=
  mkGtState 0 0 0 0 0 0 0 0 0 0 0 (replicate MAX_RANK 0) (replicate (S MAX_RANK) 0) (replicate (S MAX_RANK) 0).

Definition empty_world (s : GtState) : GtWorld := mkGtWorld s (mkReferrals ∅ ∅) ∅ ∅ ∅.

Lemma gt_init_ok now decimals cost factor step rks s0 :
  gt_init zeroed_gt_state now decimals cost factor step rks = Ok s0 ->
  step <> 0 /\ grow_step_amount s0 = step /\ minting_cost s0 = cost
  /\ minting_cost_grow_factor s0 = factor /\ (max_rank s0 <= MAX_RANK)%nat
  /\ ranks s0 = take MAX_RANK rks /\ StronglySorted Z.lt (ranks s0) /\ StateOk s0 s0
  /\ supply s0 = 0 /\ gt_total_minted s0 = 0 /\ gt_vault s0 = 0.
Proof.
  intros Hi. unfold gt_init in Hi. do 5 apply rbind_ok in Hi as (? & _ & Hi).
  apply rbind_ok in Hi as (? & Hne%require_ok%negb_true_iff%Z.eqb_neq & Hi).
  apply rbind_ok in Hi as (? & Hsorted%require_ok%windows_sorted_ltb & [= <-]).
  set (n := Nat.min (length rks) MAX_RANK) in *.
  assert (Htake : take n rks = take MAX_RANK rks).
  { subst n. destruct (Nat.min_spec (length rks) MAX_RANK) as [[Hlt ->]|[Hle ->]]; [|done].
    rewrite !take_ge by lia. done. }
  assert (Hranks : forall xs, take n (copy_front xs (take n rks)) = take n rks).
  { intros xs. unfold copy_front. apply take_app_length'. rewrite length_take. lia. }
  assert (n <= MAX_RANK)%nat by lia.
  split_and!; unfold ranks; cbn -[copy_front take replicate MAX_RANK]; try done.
  - by rewrite Hranks.
  - by rewrite Hranks.
  - split; cbn -[copy_front take replicate MAX_RANK]; try done. by repeat constructor.
Qed.

Section Reachable.
Context (store : Pubkey) (bump : Pubkey -> Z) (code_address : ReferralCodeBytes -> Pubkey).
Context (vault_address : Z -> Z -> Pubkey).
Hypothesis code_address_set : forall c, code_address c <> DEFAULT_PUBKEY.

(** C17: whatever is done with the token after its initialization, the books of GT balance. The
    supply is the sum of the balances of the users; all GT that was ever minted is either in the
    supply or was handed in to an exchange vault; the vault of the token holds what the confirmed
    exchange vaults hold, and an exchange vault holds the sum of its exchanges until it is
    confirmed, and no less afterwards. The rank of a user is the number of ranks that the balance
    reaches (or zero, for a user that never had GT), no user had GT minted for more fees than were
    paid, and the minting cost is the initial one raised once for every full step minted. *)
Theorem gt_reachable now decimals cost factor step rks s0 w :
  gt_init zeroed_gt_state now decimals cost factor step rks = Ok s0 -> 0 <= step -> 0 <= cost ->
  rtc (gt_step store bump code_address vault_address) (empty_world s0) w ->
  let s := gt_state w in
  supply s = users_hold (gt_users w) gt_amount
  /\ gt_total_minted s = supply s + map_sum vault_amount (vaults w)
  /\ gt_total_minted s = users_hold (gt_users w) total_minted
  /\ gt_vault s = map_sum (fun v => if vault_is_confirmed v then vault_amount v else 0) (vaults w)
  /\ (forall a v, vaults w !! a = Some v ->
        exchanged w a <= vault_amount v /\ (vault_is_confirmed v = false -> exchanged w a = vault_amount v))
  /\ (forall o u, users (gt_users w) !! o = Some u ->
        (rank (gt u) = Z.of_nat (count_le (take MAX_RANK rks) (gt_amount (gt u)))
         \/ gt_amount (gt u) = 0 /\ rank (gt u) = 0)
        /\ minted_fee_value (gt u) <= paid_fee_value (gt u))
  /\ grow_steps s = gt_total_minted s / step
  /\ grow_cost (Z.to_nat (grow_steps s)) cost factor = Ok (minting_cost s).
Proof.
  intros Hinit Hstep Hcost Hsteps.
  apply gt_init_ok in Hinit as (Hne & <- & <- & <- & Hmax & Hranks & Hsorted & Hs0 & Hsup & Ht & Hv).
  assert (Hwf : GtWf store code_address s0 w).
  { eapply gt_steps_wf; [done| |done..|]; [lia|]. by apply empty_world_wf. }
  cbv zeta. destruct Hwf as [Hs Hus Huser Hsupply Hmint Hsplit Hvault Hexs Hex].
  split_and!; try done; try apply Hs. intros o u Hu. destruct (Huser o u Hu) as (_ & Hrank & Hfee).
  split; [|done]. rewrite <- Hranks, <- rank_for_count by done. exact Hrank.
Qed.
End Reachable.

(** ** The discount of the order fee *)
Section Discount.
Context (store : Pubkey) (bump : Pubkey -> Z) (code_address : ReferralCodeBytes -> Pubkey).
Context (vault_address : Z -> Z -> Pubkey).
Hypothesis code_address_set : forall c, code_address c <> DEFAULT_PUBKEY.

Lemma gt_apply_factor_ok value factor :
  0 <= value <= MARKET_USD_UNIT -> 0 <= factor <= MARKET_USD_UNIT ->
  gt_apply_factor value factor = Some (value * factor / MARKET_USD_UNIT)
  /\ 0 <= value * factor / MARKET_USD_UNIT <= value.
Proof.
  intros Hv Hf. assert (0 <= value * factor / MARKET_USD_UNIT <= value).
  { unfold MARKET_USD_UNIT, MARKET_DECIMALS in *. split; [apply Z.div_pos; nia|]. apply Z.div_le_upper_bound; nia. }
  split; [|done]. apply checked_mul_div_some. split_and!; [done|done|].
  assert (0 <= value * factor / MARKET_USD_UNIT <= 10 ^ 20) by (unfold MARKET_USD_UNIT, MARKET_DECIMALS in *; lia).
  unfold in_u, u_max. simpl. lia.
Qed.

(** What a discount leaves of another one: [b + a * (1 - b)] is at least [a], rounding included. *)
Lemma combined_discount a b :
  0 <= a <= MARKET_USD_UNIT -> 0 <= b <= MARKET_USD_UNIT ->
  a <= b + a * (MARKET_USD_UNIT - b) / MARKET_USD_UNIT <= MARKET_USD_UNIT.
Proof.
  unfold MARKET_USD_UNIT, MARKET_DECIMALS. intros Ha Hb. set (u := 10 ^ 20) in *. assert (0 < u) by done.
  split.
  - enough (a - b <= a * (u - b) / u) by lia. apply Z.div_le_lower_bound; nia.
  - enough (a * (u - b) / u <= u - b) by lia. apply Z.div_le_upper_bound; nia.
Qed.

(** In every reachable state of the token, the discount of the order fee of a user with a rank
    of the token is defined: it is the factor of the rank and, for a referred user, [1 - (1 - a)
    (1 - b)] with the factor [b] of the store, rounded down. It never exceeds one, and being
    referred never costs a user a part of the discount of the rank. A rank above the highest one
    is an error. *)
Theorem order_fee_discount_spec now decimals cost factor step rks s0 w b rank is_referred :
  gt_init zeroed_gt_state now decimals cost factor step rks = Ok s0 -> 0 <= step -> 0 <= cost ->
  rtc (gt_step store bump code_address vault_address) (empty_world s0) w ->
  0 <= b <= MARKET_USD_UNIT -> 0 <= rank ->
  let s := gt_state w in
  if rank <=? Z.of_nat (max_rank s) then
    exists a r, order_fee_discount_factors s !! Z.to_nat rank = Some a
      /\ order_fee_discount_factor s b rank is_referred = Ok r
      /\ r = (if is_referred : bool then b + a * (MARKET_USD_UNIT - b) / MARKET_USD_UNIT else a)
      /\ 0 <= a <= r /\ r <= MARKET_USD_UNIT
  else order_fee_discount_factor s b rank is_referred = Err (Core CoreError.InvalidArgument).
Proof.
  intros Hinit Hstep Hcost Hsteps Hb Hrank s.
  apply gt_init_ok in Hinit as (Hne & <- & <- & <- & Hmax & _ & _ & Hs0 & Hsup & Ht & Hv).
  assert (Hwf : GtWf store code_address s0 w).
  { eapply gt_steps_wf; [done| |done..|]; [lia|]. by apply empty_world_wf. }
  destruct (gw_state _ _ _ _ Hwf) as [_ _ Hm _ _ _ _ Hlen Hall]. fold s in Hm, Hlen, Hall.
  unfold order_fee_discount_factor, gt_order_fee_discount_factor.
  destruct (Z.leb_spec rank (Z.of_nat (max_rank s))) as [Hle|]; [|done].
  destruct (lookup_lt_is_Some_2 (order_fee_discount_factors s) (Z.to_nat rank)) as [a Ha]; [lia|].
  pose proof (Forall_lookup_1 _ _ _ _ Hall Ha) as Hab. simpl in Hab.
  exists a. unfold by_rank, require. rewrite Ha. cbn -[gt_apply_factor usub uadd].
  destruct is_referred; [|by exists a; split_and!; try lia].
  destruct (gt_apply_factor_ok a (MARKET_USD_UNIT - b)) as [Hf Hr]; [lia..|].
  pose proof (combined_discount a b Hab Hb) as Hd.
  assert (Hsub : @usub u128 MARKET_USD_UNIT b = Some (MARKET_USD_UNIT - b)).
  { apply usub_some. split; [done|]. unfold in_u, u_max. simpl. unfold MARKET_USD_UNIT, MARKET_DECIMALS in *. lia. }
  
  assert (Hadd : @uadd u128 b (a * (MARKET_USD_UNIT - b) / MARKET_USD_UNIT)
                 = Some (b + a * (MARKET_USD_UNIT - b) / MARKET_USD_UNIT)).
  { apply uadd_some. split; [done|]. unfold in_u, u_max. simpl. unfold MARKET_USD_UNIT, MARKET_DECIMALS in *. lia. }
  eexists. split_and!; [done| |done|lia..].
  apply rbind_ok. eexists. split; [reflexivity|]. rewrite Hsub. apply rbind_ok. eexists. split; [reflexivity|].
  apply ok_or_ok. by rewrite Hf.
Qed.
End Discount.

(** ** Examples

    Bob, whom Alice referred, pays for orders, exchanges some of his GT, and the vault is
    confirmed. *)
Section Examples.
Definition gt_example : store_result GtState :=
  gt_init zeroed_gt_state 50 7 1000 (101 * 10 ^ 18) 100 [5; 120].
Definition gt_state_example : GtState := match gt_example with Ok s => s | _ => zeroed_gt_state end.
Definition vault_address_example (index window : Z) : Pubkey := 5000 + index + window.

Fixpoint run_gt_actions (l : list (Z * GtAction)) (w : GtWorld) : store_result GtWorld :=
  match l with
  | [] => Ok w
  | (now, a) :: l =>
      let! w := run_gt_action 9 (fun _ => 255) address_example vault_address_example now a w in
      run_gt_actions l w
  end.

Lemma run_gt_actions_steps l w w' :
  Forall (fun a => action_typed a.2) l -> run_gt_actions l w = Ok w' ->
  rtc (gt_step 9 (fun _ => 255) address_example vault_address_example) w w'.
Proof.
  revert w. induction l as [|[now a] l IH]; intros w Hl Hr; simpl in Hr; [by injection Hr as ->|].
  apply rbind_ok in Hr as (w1 & Hw1 & Hr). inversion_clear Hl. eapply rtc_l; [|by apply IH].
  by eapply gt_step_ok.
Qed.

Definition gt_actions_example : list (Z * GtAction) :=
  [(100, UserAction_ (PrepareUser 1)); (100, UserAction_ (PrepareUser 2));
   (100, UserAction_ (InitializeReferralCode 1 (code_example 7)));
   (100, UserAction_ (SetReferrer 2 (code_example 7) 1));
   (100, SetRewardFactors [10 ^ 19; 2 * 10 ^ 19; 3 * 10 ^ 19]);
   (100, SetDiscountFactors [0; 10 ^ 19; 2 * 10 ^ 19]);
   (200, ProcessGt 77 2 200500); (201, ProcessGtReward 77);
   (300, PrepareGtExchangeVault 0); (400, RequestGtExchange 2 (5000 + 86400) 150);
   (86500, ConfirmGtExchangeVault (5000 + 86400))].

Definition gt_world_example : GtWorld :=
  match run_gt_actions gt_actions_example (empty_world gt_state_example) with
  | Ok w => w
  | _ => empty_world gt_state_example
  end.

Lemma gt_world_example_steps :
  rtc (gt_step 9 (fun _ => 255) address_example vault_address_example) (empty_world gt_state_example)
    gt_world_example.
Proof.
  apply (run_gt_actions_steps gt_actions_example); [|vm_compute; reflexivity].
  repeat first [apply Forall_cons; split; [simpl; try lia; try done|]|apply Forall_nil; done].
  all: repeat first [apply Forall_cons; split; [lia|]|apply Forall_nil; done].
Qed.

Lemma gt_reachable_witness :
  supply (gt_state gt_world_example) = 70 /\ gt_total_minted (gt_state gt_world_example) = 220
  /\ gt_total_minted (gt_state gt_world_example)
     = supply (gt_state gt_world_example) + map_sum vault_amount (vaults gt_world_example).
Proof.
  destruct (gt_reachable 9 (fun _ => 255) address_example vault_address_example address_example_set
              50 7 1000 (101 * 10 ^ 18) 100 [5; 120] gt_state_example gt_world_example)
    as (_ & Hsum & _); [vm_compute; reflexivity|lia|lia|exact gt_world_example_steps|].
  split; [vm_compute; reflexivity|]. split; [vm_compute; reflexivity|exact Hsum].
Defined.

(** The middle rank with a discount of ten percent, referred for a discount of five percent. *)
Example order_fee_discount_spec_example :
  order_fee_discount_factor (gt_state gt_world_example) (5 * 10 ^ 18) 1 true = Ok (145 * 10 ^ 17).
Proof.
  assert (Hb : 0 <= 5 * 10 ^ 18 <= MARKET_USD_UNIT) by (unfold MARKET_USD_UNIT, MARKET_DECIMALS; lia).
  assert (Hmax : max_rank (gt_state gt_world_example) = 2%nat) by (vm_compute; reflexivity).
  assert (Hinit : gt_init zeroed_gt_state 50 7 1000 (101 * 10 ^ 18) 100 [5; 120] = Ok gt_state_example)
    by (vm_compute; reflexivity).
  pose proof (order_fee_discount_spec 9 (fun _ => 255) address_example vault_address_example
    address_example_set 50 7 1000 (101 * 10 ^ 18) 100 [5; 120] gt_state_example gt_world_example
    (5 * 10 ^ 18) 1 true Hinit ltac:(lia) ltac:(lia) gt_world_example_steps Hb ltac:(lia)) as H.
  cbv zeta in H. rewrite Hmax in H. destruct H as (a & r & Ha & Hd & Hr & _).
  rewrite Hd, Hr. vm_compute in Ha. injection Ha as <-. reflexivity.
Defined.
End Examples.
