(* ===== verification/StoreState.v ===== *)
(** * The store ([states/store.rs], [states/feature.rs])

    The account of a store and the instructions that administrate it: the authority and the
    receiver of the treasury, which both change in two steps, the cached slot of the last restart of
    the cluster, roles ([Roles]), the configured amounts, factors and addresses, the disabled
    features and the configuration of the GT token ([Gt]).

    [run_store_action] is an instruction: the constraints of its accounts, the access control that
    [lib.rs] and [authentication.rs] put before the handler, then the handler. The slot of the last
    restart ([LastRestartSlot::get]) and the signer are arguments. An instruction that fails leaves
    the store as it was ([store_step]).

    [store_access_control] says who can change what, [store_frozen_after_restart] that nothing
    changes after a restart until an administrator has acknowledged it. *)
From Stdlib Require Import Ascii.
From stdpp Require Import gmap.
From S2P Require Import Prelude.
From S2P Require Import CoreErrors.
From S2P Require Import Constants.
From S2P Require Import Num.
From S2P Require Import FixedMap.
From S2P Require Import Flags.
From S2P Require Import Roles.
From S2P Require Import Users.
From S2P Require Import Gt.
#[local] Open Scope Z_scope.

(** ** Names *)

(** The bytes of a string literal. *)
Fixpoint str_bytes (s : string) : bytes :=
  match s with
  | EmptyString => []
  | String c s => Z.of_nat (nat_of_ascii c) :: str_bytes s
  end.

Module RoleKey.
Definition ORACLE_CONTROLLER : bytes := str_bytes "ORACLE_CONTROLLER".
Definition GT_CONTROLLER : bytes := str_bytes "GT_CONTROLLER".
Definition MARKET_KEEPER : bytes := str_bytes "MARKET_KEEPER".
Definition ORDER_KEEPER : bytes := str_bytes "ORDER_KEEPER".
Definition FEATURE_KEEPER : bytes := str_bytes "FEATURE_KEEPER".
Definition CONFIG_KEEPER : bytes := str_bytes "CONFIG_KEEPER".
Definition RESTART_ADMIN : bytes := str_bytes "RESTART_ADMIN".
Definition PRICE_KEEPER : bytes := str_bytes "PRICE_KEEPER".
Definition MIGRATION_KEEPER : bytes := str_bytes "MIGRATION_KEEPER".
End RoleKey.

(** ** Amounts, factors and addresses *)

Record Amounts : Type := mkAmounts {
  claimable_time_window_amount : Z;
  recent_time_window : Z;
  request_expiration : Z;
  oracle_max_age : Z;
  oracle_max_timestamp_range : Z;
  oracle_max_future_timestamp_excess : Z;
  adl_prices_max_staleness : Z;
}.

Inductive AmountKey : Type :=
| ClaimableTimeWindow
| RecentTimeWindow
| RequestExpiration
| OracleMaxAge
| OracleMaxTimestampRange
| OracleMaxFutureTimestampExcess
| AdlPricesMaxStaleness.

#[export] Instance AmountKey_eq_dec : EqDecision AmountKey.
Proof. solve_decision. Defined.

(** The keys are written in snake case. *)
Definition amount_key_name (key : AmountKey) : string :=
  match key with
  | ClaimableTimeWindow => "claimable_time_window"
  | RecentTimeWindow => "recent_time_window"
  | RequestExpiration => "request_expiration"
  | OracleMaxAge => "oracle_max_age"
  | OracleMaxTimestampRange => "oracle_max_timestamp_range"
  | OracleMaxFutureTimestampExcess => "oracle_max_future_timestamp_excess"
  | AdlPricesMaxStaleness => "adl_prices_max_staleness"
  end.

Definition amount_keys : list AmountKey :=
  [ClaimableTimeWindow; RecentTimeWindow; RequestExpiration; OracleMaxAge; OracleMaxTimestampRange;
   OracleMaxFutureTimestampExcess; AdlPricesMaxStaleness].

Definition amounts_init : Amounts :=
  mkAmounts DEFAULT_CLAIMABLE_TIME_WINDOW DEFAULT_RECENT_TIME_WINDOW DEFAULT_REQUEST_EXPIRATION
    DEFAULT_ORACLE_MAX_AGE DEFAULT_ORACLE_MAX_TIMESTAMP_RANGE DEFAULT_ORACLE_MAX_FUTURE_TIMESTAMP_EXCESS
    DEFAULT_ADL_PRICES_MAX_STALENESS.

Definition amounts_get (self : Amounts) (key : AmountKey) : Z :=
  match key with
  | ClaimableTimeWindow => claimable_time_window_amount self
  | RecentTimeWindow => recent_time_window self
  | RequestExpiration => request_expiration self
  | OracleMaxAge => oracle_max_age self
  | OracleMaxTimestampRange => oracle_max_timestamp_range self
  | OracleMaxFutureTimestampExcess => oracle_max_future_timestamp_excess self
  | AdlPricesMaxStaleness => adl_prices_max_staleness self
  end.

(** A write through [get_mut]. *)
Definition amounts_set (self : Amounts) (key : AmountKey) (v : Z) : Amounts :=
  let '(mkAmounts a b c d e f g) := self in
  match key with
  | ClaimableTimeWindow => mkAmounts v b c d e f g
  | RecentTimeWindow => mkAmounts a v c d e f g
  | RequestExpiration => mkAmounts a b v d e f g
  | OracleMaxAge => mkAmounts a b c v e f g
  | OracleMaxTimestampRange => mkAmounts a b c d v f g
  | OracleMaxFutureTimestampExcess => mkAmounts a b c d e v g
  | AdlPricesMaxStaleness => mkAmounts a b c d e f v
  end.

Record Factors : Type := mkFactors {
  oracle_ref_price_deviation : Z;
  order_fee_discount_for_referred_user : Z;
}.

Inductive FactorKey : Type :=
| OracleRefPriceDeviation
| OrderFeeDiscountForReferredUser.

Definition factor_key_name (key : FactorKey) : string :=
  match key with
  | OracleRefPriceDeviation => "oracle_ref_price_deviation"
  | OrderFeeDiscountForReferredUser => "order_fee_discount_for_referred_user"
  end.

Definition factor_keys : list FactorKey := [OracleRefPriceDeviation; OrderFeeDiscountForReferredUser].

(** [Factors::init] on a zeroed account. *)
Definition factors_init : Factors := mkFactors DEFAULT_ORACLE_REF_PRICE_DEVIATION 0.

Definition factors_get (self : Factors) (key : FactorKey) : Z :=
  match key with
  | OracleRefPriceDeviation => oracle_ref_price_deviation self
  | OrderFeeDiscountForReferredUser => order_fee_discount_for_referred_user self
  end.

Definition factors_set (self : Factors) (key : FactorKey) (v : Z) : Factors :=
  match key with
  | OracleRefPriceDeviation => mkFactors v (order_fee_discount_for_referred_user self)
  | OrderFeeDiscountForReferredUser => mkFactors (oracle_ref_price_deviation self) v
  end.

Inductive AddressKey : Type := Holding.

Definition address_key_name (key : AddressKey) : string := match key with Holding => "holding" end.

(** ** Disabled features *)

Inductive DomainDisabledFlag : Type :=
| DomMarketSwap | DomMarketIncrease | DomMarketDecrease | DomLiquidation | DomAutoDeleveraging
| DomLimitSwap | DomLimitIncrease | DomLimitDecrease | DomStopLossDecrease | DomDeposit | DomWithdrawal
| DomShift | DomGlvDeposit | DomGlvWithdrawal | DomGlvShift.

Inductive ActionDisabledFlag : Type := ActDefault | ActCreate | ActUpdate | ActExecute | ActCancel.

#[export] Instance DomainDisabledFlag_eq_dec : EqDecision DomainDisabledFlag.
Proof. solve_decision. Defined.
#[export] Instance ActionDisabledFlag_eq_dec : EqDecision ActionDisabledFlag.
Proof. solve_decision. Defined.

Definition domains : list DomainDisabledFlag :=
  [DomMarketSwap; DomMarketIncrease; DomMarketDecrease; DomLiquidation; DomAutoDeleveraging;
   DomLimitSwap; DomLimitIncrease; DomLimitDecrease; DomStopLossDecrease; DomDeposit; DomWithdrawal;
   DomShift; DomGlvDeposit; DomGlvWithdrawal; DomGlvShift].

Definition actions : list ActionDisabledFlag := [ActDefault; ActCreate; ActUpdate; ActExecute; ActCancel].

Definition domain_u8 (self : DomainDisabledFlag) : Z :=
  match self with
  | DomMarketSwap => 0 | DomMarketIncrease => 1 | DomMarketDecrease => 2 | DomLiquidation => 3
  | DomAutoDeleveraging => 4 | DomLimitSwap => 5 | DomLimitIncrease => 6 | DomLimitDecrease => 7
  | DomStopLossDecrease => 8 | DomDeposit => 9 | DomWithdrawal => 10 | DomShift => 11
  | DomGlvDeposit => 12 | DomGlvWithdrawal => 13 | DomGlvShift => 14
  end.

Definition action_u8 (self : ActionDisabledFlag) : Z :=
  match self with ActDefault => 0 | ActCreate => 1 | ActUpdate => 2 | ActExecute => 3 | ActCancel => 4 end.

(** The names are written in kebab case. *)
Definition domain_name (self : DomainDisabledFlag) : string :=
  match self with
  | DomMarketSwap => "market-swap" | DomMarketIncrease => "market-increase"
  | DomMarketDecrease => "market-decrease" | DomLiquidation => "liquidation"
  | DomAutoDeleveraging => "auto-deleveraging" | DomLimitSwap => "limit-swap"
  | DomLimitIncrease => "limit-increase" | DomLimitDecrease => "limit-decrease"
  | DomStopLossDecrease => "stop-loss-decrease" | DomDeposit => "deposit"
  | DomWithdrawal => "withdrawal" | DomShift => "shift" | DomGlvDeposit => "glv-deposit"
  | DomGlvWithdrawal => "glv-withdrawal" | DomGlvShift => "glv-shift"
  end.

Definition action_name (self : ActionDisabledFlag) : string :=
  match self with
  | ActDefault => "default" | ActCreate => "create" | ActUpdate => "update" | ActExecute => "execute"
  | ActCancel => "cancel"
  end.

Definition MAX_DISABLED_FEATURES : nat := 64.
Definition DISABLED : Z := 255.

(** The two bytes of a key as one number. *)
Definition feature_key (key : DomainDisabledFlag * ActionDisabledFlag) : Z :=
  256 * domain_u8 (fst key) + action_u8 (snd key).

Abbreviation DisabledFeatures := (FixedMap Z).

Definition get_disabled (domain : DomainDisabledFlag) (action : ActionDisabledFlag)
    : ST DisabledFeatures StoreError (option bool) :=
  do! v := get feature_key (domain, action) in
  sret ((fun value => value =? DISABLED) <$> v).

Definition set_disabled (domain : DomainDisabledFlag) (action : ActionDisabledFlag) (disabled : bool)
    : ST DisabledFeatures StoreError unit :=
  do! _ := insert feature_key MAX_DISABLED_FEATURES (domain, action) (if disabled then DISABLED else 0) in
  sret tt.

(** [display_feature]. *)
Definition display_feature (domain : DomainDisabledFlag) (action : ActionDisabledFlag) : string :=
  (domain_name domain ++ match action with ActDefault => "" | _ => ":" ++ action_name action end)%string.

(** ** The account *)

Record Treasury : Type := mkTreasury { receiver : Pubkey; next_receiver : Pubkey }.

Record Store : Type := mkStore {
  store_bump : Z;
  store_key : bytes;
  store_role : RoleStore;
  authority : Pubkey;
  next_authority : Pubkey;
  store_token_map : Pubkey;
  disabled_features : DisabledFeatures;
  last_restarted_slot : Z;
  treasury : Treasury;
  amount : Amounts;
  factor : Factors;
  holding : Pubkey;
  store_gt : GtState;
}.

Definition treasury_init (receiver : Pubkey) : Treasury := mkTreasury receiver receiver.

Definition set_next_receiver (self : Treasury) (next : Pubkey) : store_result Treasury :=
  let! _ := require (negb (next_receiver self =? next)) CoreError.PreconditionsAreNotMet in
  Ok (mkTreasury (receiver self) next).

Definition update_receiver (self : Treasury) : store_result Treasury :=
  let! _ := require (negb (receiver self =? next_receiver self)) CoreError.PreconditionsAreNotMet in
  Ok (mkTreasury (next_receiver self) (next_receiver self)).

Definition with_role (r : RoleStore) (s : Store) : Store :=
  mkStore (store_bump s) (store_key s) r (authority s) (next_authority s) (store_token_map s)
    (disabled_features s) (last_restarted_slot s) (treasury s) (amount s) (factor s) (holding s) (store_gt s).
Definition with_authorities (a n : Pubkey) (s : Store) : Store :=
  mkStore (store_bump s) (store_key s) (store_role s) a n (store_token_map s)
    (disabled_features s) (last_restarted_slot s) (treasury s) (amount s) (factor s) (holding s) (store_gt s).
Definition with_token_map (m : Pubkey) (s : Store) : Store :=
  mkStore (store_bump s) (store_key s) (store_role s) (authority s) (next_authority s) m
    (disabled_features s) (last_restarted_slot s) (treasury s) (amount s) (factor s) (holding s) (store_gt s).
Definition with_features (d : DisabledFeatures) (s : Store) : Store :=
  mkStore (store_bump s) (store_key s) (store_role s) (authority s) (next_authority s) (store_token_map s)
    d (last_restarted_slot s) (treasury s) (amount s) (factor s) (holding s) (store_gt s).
Definition with_slot (slot : Z) (s : Store) : Store :=
  mkStore (store_bump s) (store_key s) (store_role s) (authority s) (next_authority s) (store_token_map s)
    (disabled_features s) slot (treasury s) (amount s) (factor s) (holding s) (store_gt s).
Definition with_treasury (t : Treasury) (s : Store) : Store :=
  mkStore (store_bump s) (store_key s) (store_role s) (authority s) (next_authority s) (store_token_map s)
    (disabled_features s) (last_restarted_slot s) t (amount s) (factor s) (holding s) (store_gt s).
Definition with_config (a : Amounts) (f : Factors) (h : Pubkey) (s : Store) : Store :=
  mkStore (store_bump s) (store_key s) (store_role s) (authority s) (next_authority s) (store_token_map s)
    (disabled_features s) (last_restarted_slot s) (treasury s) a f h (store_gt s).
Definition with_gt (g : GtState) (s : Store) : Store :=
  mkStore (store_bump s) (store_key s) (store_role s) (authority s) (next_authority s) (store_token_map s)
    (disabled_features s) (last_restarted_slot s) (treasury s) (amount s) (factor s) (holding s) g.

Abbreviation SS A := (ST Store StoreError A).

Definition STORE_MAX_LEN : nat := 32.

(** [Store::init] on a zeroed account. *)
Definition store_init (slot : Z) (authority : Pubkey) (key : bytes) (bump : Z) (receiver holding : Pubkey)
    : store_result Store :=
  let! key := fixed_str_to_bytes STORE_MAX_LEN key in
  Ok (mkStore bump key zeroed_store authority authority 0 (zeroed 0 MAX_DISABLED_FEATURES) slot
        (treasury_init receiver) amounts_init factors_init holding zeroed_gt_state).

Definition on_role {A} (m : ST RoleStore StoreError A) : SS A := szoom store_role with_role m.
Definition on_features {A} (m : ST DisabledFeatures StoreError A) : SS A :=
  szoom disabled_features with_features m.

Section Store.
Context {B : Type} {BO : BitmapOps MAX_ROLES B}.
(** The hash of a role name. *)
Context (to_key : bytes -> Z).

(** ** Queries *)

Definition has_restarted (slot : Z) (self : Store) : bool := negb (last_restarted_slot self =? slot).

Definition validate_not_restarted (slot : Z) (self : Store) : store_result unit :=
  require (last_restarted_slot self =? slot) CoreError.StoreOutdated.

Definition store_has_role (slot : Z) (authority : Pubkey) (role : bytes) : SS bool :=
  do! restarted := sread (fun self => Ok (has_restarted slot self)) in
  if restarted then
    do! admin := on_role (has_role to_key authority RoleKey.RESTART_ADMIN) in
    if admin then sret true else slift (Err (Core CoreError.StoreOutdated))
  else on_role (has_role to_key authority role).

Definition is_authority (self : Store) (key : Pubkey) : bool := authority self =? key.

Definition has_admin_role (slot : Z) (authority : Pubkey) : SS bool :=
  do! b := sread (fun self => Ok (is_authority self authority)) in
  if b then sret true
  else
    do! restarted := sread (fun self => Ok (has_restarted slot self)) in
    if restarted then on_role (has_role to_key authority RoleKey.RESTART_ADMIN) else sret false.

(** [Authentication::only_admin] and [only_role] for the signer of an instruction. *)
Definition only_admin (slot : Z) (signer : Pubkey) : SS unit :=
  do! b := has_admin_role slot signer in
  slift (require b CoreError.NotAnAdmin).

Definition only_role (slot : Z) (signer : Pubkey) (role : bytes) : SS unit :=
  do! b := store_has_role slot signer role in
  slift (require b CoreError.PermissionDenied).

Definition token_map_of (self : Store) : option Pubkey :=
  if store_token_map self =? DEFAULT_PUBKEY then None else Some (store_token_map self).

Definition get_amount (self : Store) (key : string) : store_result Z :=
  let! key := ok_or (from_name amount_key_name amount_keys key) (Core CoreError.InvalidStoreConfigKey) in
  Ok (amounts_get (amount self) key).
Definition get_factor (self : Store) (key : string) : store_result Z :=
  let! key := ok_or (from_name factor_key_name factor_keys key) (Core CoreError.InvalidStoreConfigKey) in
  Ok (factors_get (factor self) key).
Definition get_address (self : Store) (key : string) : store_result Pubkey :=
  let! _ := ok_or (from_name address_key_name [Holding] key) (Core CoreError.InvalidStoreConfigKey) in
  Ok (holding self).

(** [checked_add_unsigned] of the start, an [i64]. *)
Definition request_expiration_at (self : Store) (start : Z) : store_result Z :=
  ok_or (@try_i u64 (start + request_expiration (amount self))) (Core CoreError.InvalidArgument).

Definition claimable_time_window (self : Store) : store_result Z :=
  let window := claimable_time_window_amount (amount self) in
  let! _ := require (negb (window =? 0)) CoreError.InvalidArgument in
  Ok window.

Definition claimable_time_window_index (self : Store) (timestamp : Z) : store_result Z :=
  let! window := claimable_time_window self in
  let! window := ok_or (@try_i u64 window) (Core CoreError.InvalidArgument) in
  Ok (Z.quot timestamp window).

(** [to_le_bytes] of an [i64]. *)
Definition i64_to_le_bytes (i : Z) : bytes :=
  (fun n => Z.land (Z.shiftr i (8 * Z.of_nat n)) 255) <$> seq 0 8.

Definition claimable_time_key (self : Store) (timestamp : Z) : store_result bytes :=
  let! index := claimable_time_window_index self timestamp in
  Ok (i64_to_le_bytes index).

Definition validate_claim_fees_address (self : Store) (address : Pubkey) : store_result unit :=
  require (receiver (treasury self) =? address) CoreError.PermissionDenied.

Definition is_feature_disabled (domain : DomainDisabledFlag) (action : ActionDisabledFlag) : SS bool :=
  do! d := on_features (get_disabled domain action) in
  sret (default false d).

Definition validate_feature_enabled (domain : DomainDisabledFlag) (action : ActionDisabledFlag) : SS unit :=
  do! d := is_feature_disabled domain action in
  if d then slift (Err (Core CoreError.FeatureDisabled)) else sret tt.

Definition store_order_fee_discount_factor (self : Store) (rank : Z) (is_referred : bool) : store_result Z :=
  order_fee_discount_factor (store_gt self) (factors_get (factor self) OrderFeeDiscountForReferredUser)
    rank is_referred.

(** ** Updates *)

Definition set_next_authority (next : Pubkey) : SS unit :=
  supdate (fun self =>
    let! _ := require (negb (next_authority self =? next)) CoreError.PreconditionsAreNotMet in
    Ok (with_authorities (authority self) next self)).

Definition update_authority : SS unit :=
  supdate (fun self =>
    let! _ := require (negb (authority self =? next_authority self)) CoreError.PreconditionsAreNotMet in
    Ok (with_authorities (next_authority self) (next_authority self) self)).

Definition update_last_restarted_slot (slot : Z) (update : bool) : SS unit :=
  supdate (fun self =>
    let! _ := (if update then require (negb (last_restarted_slot self =? slot)) CoreError.PreconditionsAreNotMet
               else Ok tt) in
    Ok (with_slot slot self)).

Definition unchecked_insert_amount (key : string) (v : Z) : SS unit :=
  supdate (fun self =>
    let! key := ok_or (from_name amount_key_name amount_keys key) (Core CoreError.InvalidStoreConfigKey) in
    Ok (with_config (amounts_set (amount self) key v) (factor self) (holding self) self)).

Definition unchecked_insert_factor (key : string) (v : Z) : SS unit :=
  supdate (fun self =>
    let! key := ok_or (from_name factor_key_name factor_keys key) (Core CoreError.InvalidStoreConfigKey) in
    Ok (with_config (amount self) (factors_set (factor self) key v) (holding self) self)).

Definition unchecked_insert_address (key : string) (v : Pubkey) : SS unit :=
  supdate (fun self =>
    let! _ := ok_or (from_name address_key_name [Holding] key) (Core CoreError.InvalidStoreConfigKey) in
    Ok (with_config (amount self) (factor self) v self)).

Definition unchecked_toggle_feature (domain : DomainDisabledFlag) (action : ActionDisabledFlag)
    (enable : bool) : SS unit :=
  on_features (set_disabled domain action (negb enable)).

Definition configure_gt (f : GtState -> store_result GtState) : SS unit :=
  supdate (fun self => let! g := f (store_gt self) in Ok (with_gt g self)).

(** ** Instructions *)

Inductive StoreAction : Type :=
| UpdateLastRestartedSlot
| TransferStoreAuthority (next : Pubkey)
| AcceptStoreAuthority
| TransferReceiver (next : Pubkey)
| AcceptReceiver
| SetTokenMap (token_map map_store : Pubkey)
| RoleAction (op : RoleOp)
| InsertAmount (key : string) (v : Z)
| InsertFactor (key : string) (v : Z)
| InsertAddress (key : string) (v : Pubkey)
| InsertOrderFeeDiscountForReferredUser (v : Z)
| ToggleFeature (domain action : string) (enable : bool)
| InitializeGt (now decimals cost factor step : Z) (ranks : list Z)
| GtSetOrderFeeDiscountFactors (factors : list Z)
| GtSetReferralRewardFactors (factors : list Z).

(** The constraint of the accounts of the instructions that configure an initialized token. *)
Definition gt_initialized : SS unit :=
  sread (fun self => require (is_initialized (store_gt self)) CoreError.PreconditionsAreNotMet).

Section Handlers.
(** The store, the slot of the last restart, and the signer. *)
Context (this slot : Z) (signer : Pubkey).

Definition update_last_restarted_slot_ix : SS unit :=
  do! _ := only_admin slot signer in
  update_last_restarted_slot slot true.

Definition transfer_store_authority (next : Pubkey) : SS unit :=
  do! _ := only_admin slot signer in
  set_next_authority next.

Definition accept_store_authority : SS unit :=
  do! _ := sread (fun self => has_one (next_authority self =? signer)) in
  do! _ := sread (validate_not_restarted slot) in
  update_authority.

Definition transfer_receiver (next : Pubkey) : SS unit :=
  do! _ := sread (fun self => require (signer =? receiver (treasury self)) CoreError.PermissionDenied) in
  do! _ := sread (validate_not_restarted slot) in
  supdate (fun self => let! t := set_next_receiver (treasury self) next in Ok (with_treasury t self)).

Definition accept_receiver : SS unit :=
  do! _ := sread (fun self => require (signer =? next_receiver (treasury self)) CoreError.PermissionDenied) in
  do! _ := sread (validate_not_restarted slot) in
  supdate (fun self => let! t := update_receiver (treasury self) in Ok (with_treasury t self)).

Definition set_token_map (token_map map_store : Pubkey) : SS unit :=
  do! _ := slift (has_one (map_store =? this)) in
  do! _ := only_role slot signer RoleKey.MARKET_KEEPER in
  smodify (with_token_map token_map).

(** [enable_role], [disable_role], [grant_role] and [revoke_role]. *)
Definition role_instruction (op : RoleOp) : SS unit :=
  do! _ := only_admin slot signer in
  on_role (role_op to_key op).

Definition insert_amount (key : string) (v : Z) : SS unit :=
  do! _ := only_role slot signer RoleKey.CONFIG_KEEPER in
  unchecked_insert_amount key v.

Definition insert_factor (key : string) (v : Z) : SS unit :=
  do! _ := only_role slot signer RoleKey.CONFIG_KEEPER in
  unchecked_insert_factor key v.

Definition insert_address (key : string) (v : Pubkey) : SS unit :=
  do! _ := only_role slot signer RoleKey.CONFIG_KEEPER in
  unchecked_insert_address key v.

Definition insert_order_fee_discount_for_referred_user (v : Z) : SS unit :=
  do! _ := only_role slot signer RoleKey.MARKET_KEEPER in
  unchecked_insert_factor (factor_key_name OrderFeeDiscountForReferredUser) v.

(** Enabling or disabling a feature by the names of its parts. *)
Definition toggle_feature (domain action : string) (enable : bool) : SS unit :=
  do! _ := only_role slot signer RoleKey.FEATURE_KEEPER in
  do! d := slift (ok_or (from_name domain_name domains domain) (Core CoreError.InvalidArgument)) in
  do! a := slift (ok_or (from_name action_name actions action) (Core CoreError.InvalidArgument)) in
  unchecked_toggle_feature d a enable.

Definition initialize_gt (now decimals cost factor step : Z) (ranks : list Z) : SS unit :=
  do! _ := only_role slot signer RoleKey.MARKET_KEEPER in
  configure_gt (fun g => gt_init g now decimals cost factor step ranks).

Definition gt_set_order_fee_discount_factors (factors : list Z) : SS unit :=
  do! _ := gt_initialized in
  do! _ := only_role slot signer RoleKey.MARKET_KEEPER in
  configure_gt (fun g => set_order_fee_discount_factors g factors).

Definition gt_set_referral_reward_factors (factors : list Z) : SS unit :=
  do! _ := gt_initialized in
  do! _ := only_role slot signer RoleKey.GT_CONTROLLER in
  configure_gt (fun g => set_referral_reward_factors g factors).

Definition run_store_action (a : StoreAction) : SS unit :=
  match a with
  | UpdateLastRestartedSlot => update_last_restarted_slot_ix
  | TransferStoreAuthority next => transfer_store_authority next
  | AcceptStoreAuthority => accept_store_authority
  | TransferReceiver next => transfer_receiver next
  | AcceptReceiver => accept_receiver
  | SetTokenMap token_map map_store => set_token_map token_map map_store
  | RoleAction op => role_instruction op
  | InsertAmount key v => insert_amount key v
  | InsertFactor key v => insert_factor key v
  | InsertAddress key v => insert_address key v
  | InsertOrderFeeDiscountForReferredUser v => insert_order_fee_discount_for_referred_user v
  | ToggleFeature domain action enable => toggle_feature domain action enable
  | InitializeGt now decimals cost factor step ranks => initialize_gt now decimals cost factor step ranks
  | GtSetOrderFeeDiscountFactors factors => gt_set_order_fee_discount_factors factors
  | GtSetReferralRewardFactors factors => gt_set_referral_reward_factors factors
  end.

(** An instruction that fails changes nothing. *)
Definition store_step (a : StoreAction) (self : Store) : Store :=
  match run_store_action a self with (self', Ok _) => self' | _ => self end.
End Handlers.
End Store.

(** ** Who may do what *)
Section Access.
Context {B : Type} {BO : BitmapOps MAX_ROLES B} {BL : BitmapLaws MAX_ROLES B}.
Context (to_key : bytes -> Z) (this : Pubkey).
Implicit Types (s : Store) (slot : Z).

Definition Has s (a : Pubkey) (role : bytes) : Prop :=
  enabled to_key (store_role s) role = true /\ granted to_key (store_role s) a role = true.

(** The cluster restarted after the slot that the store knows. *)
Definition Outdated slot s : Prop := last_restarted_slot s <> slot.

Definition Admin slot s (a : Pubkey) : Prop := authority s = a \/ Outdated slot s /\ Has s a RoleKey.RESTART_ADMIN.

(** After a restart the restart administrator has every role, and nobody else has any. *)
Definition May slot s (a : Pubkey) (role : bytes) : Prop :=
  Outdated slot s /\ Has s a RoleKey.RESTART_ADMIN \/ ~ Outdated slot s /\ Has s a role.

Record StoreWf s : Prop := mkStoreWf {
  sw_roles : RolesWf (store_role s);
  sw_features : FixedMap.Wf MAX_DISABLED_FEATURES (disabled_features s);
}.

Lemma with_role_same s : with_role (store_role s) s = s.
Proof. by destruct s. Qed.
Lemma with_features_same s : with_features (disabled_features s) s = s.
Proof. by destruct s. Qed.

Lemma has_role_query s a role :
  StoreWf s ->
  on_role (has_role to_key a role) s = (s, snd (has_role to_key a role (store_role s)))
  /\ (snd (has_role to_key a role (store_role s)) = Ok true <-> Has s a role).
Proof.
  intros Hwf. destruct (has_role_spec to_key a role (store_role s) (sw_roles _ Hwf)) as (Hs & _ & Hh).
  split; [|exact Hh]. unfold on_role, szoom. destruct (has_role to_key a role (store_role s)) as [rs r].
  simpl in *. by rewrite Hs, with_role_same.
Qed.

Lemma has_restarted_iff slot s : has_restarted slot s = true <-> Outdated slot s.
Proof. unfold has_restarted, Outdated. rewrite negb_true_iff, Z.eqb_neq. done. Qed.

Lemma not_restarted slot s u s' :
  sread (validate_not_restarted slot) s = (s', Ok u) <-> s' = s /\ ~ Outdated slot s.
Proof.
  rewrite sread_ok. unfold validate_not_restarted, Outdated. rewrite require_ok, Z.eqb_eq. split; [tauto|].
  intros [-> Hn]. split; [done|]. lia.
Qed.

Lemma only_admin_ok slot s a s' u :
  StoreWf s -> only_admin to_key slot a s = (s', Ok u) <-> s' = s /\ Admin slot s a.
Proof.
  intros Hwf. destruct (has_role_query s a RoleKey.RESTART_ADMIN Hwf) as [Hq Hh].
  unfold only_admin, has_admin_role, sbind, sread, sret, slift, is_authority, Admin.
  destruct (Z.eqb_spec (authority s) a) as [He|He]; simpl.
  { destruct u. split; [|intros [-> _]; done]. intros [= <-]. tauto. }
  destruct (has_restarted slot s) eqn:Hr.
  - apply has_restarted_iff in Hr. rewrite Hq. revert Hh. generalize (snd (has_role to_key a RoleKey.RESTART_ADMIN (store_role s))).
    intros [b|e|m] Hh; [|split; [done|intros [_ [?|[_ ?%Hh]]]; done]..].
    destruct u, b; simpl; split.
    + intros [= <-]. split; [done|]. right. split; [done|by apply Hh].
    + by intros [-> _].
    + done.
    + by intros [_ [?|[_ ?%Hh]]].
  - split; [done|]. intros [_ [?|[?%has_restarted_iff _]]]; congruence.
Qed.

Lemma only_role_ok slot s a role s' u :
  StoreWf s -> only_role to_key slot a role s = (s', Ok u) <-> s' = s /\ May slot s a role.
Proof.
  intros Hwf. unfold only_role, store_has_role, sbind, sread, sret, slift, May.
  destruct (has_restarted slot s) eqn:Hr.
  - apply has_restarted_iff in Hr. destruct (has_role_query s a RoleKey.RESTART_ADMIN Hwf) as [Hq Hh].
    rewrite Hq. revert Hh. generalize (snd (has_role to_key a RoleKey.RESTART_ADMIN (store_role s))).
    intros [b|e|m] Hh; [|split; [done|intros [_ [[_ ?%Hh]|[? _]]]; done]..].
    destruct u, b; simpl; split.
    + intros [= <-]. split; [done|]. left. split; [done|by apply Hh].
    + by intros [-> _].
    + done.
    + by intros [_ [[_ ?%Hh]|[? _]]].
  - assert (Hn : ~ Outdated slot s) by (rewrite <- has_restarted_iff; congruence).
    destruct (has_role_query s a role Hwf) as [Hq Hh].
    rewrite Hq. revert Hh. generalize (snd (has_role to_key a role (store_role s))).
    intros [b|e|m] Hh; [|split; [done|intros [_ [[? _]|[_ ?%Hh]]]; done]..].
    destruct u, b; simpl; split.
    + intros [= <-]. split; [done|]. right. split; [done|by apply Hh].
    + by intros [-> _].
    + done.
    + by intros [_ [[? _]|[_ ?%Hh]]].
Qed.

(** Everything an instruction may change, and on what condition. *)
Record Allowed slot signer s s' : Prop := mkAllowed {
  al_identity : store_bump s' = store_bump s /\ store_key s' = store_key s;
  al_roles : store_role s' = store_role s \/ Admin slot s signer;
  al_authority : authority s' = authority s
    \/ authority s' = signer /\ signer = next_authority s /\ ~ Outdated slot s;
  al_next_authority : next_authority s' = next_authority s \/ Admin slot s signer;
  al_receiver : receiver (treasury s') = receiver (treasury s)
    \/ receiver (treasury s') = signer /\ signer = next_receiver (treasury s) /\ ~ Outdated slot s;
  al_next_receiver : next_receiver (treasury s') = next_receiver (treasury s)
    \/ signer = receiver (treasury s) /\ ~ Outdated slot s;
  al_slot : last_restarted_slot s' = last_restarted_slot s
    \/ last_restarted_slot s' = slot /\ Admin slot s signer;
  al_token_map : store_token_map s' = store_token_map s \/ May slot s signer RoleKey.MARKET_KEEPER;
  al_config : amount s' = amount s /\ holding s' = holding s
    /\ oracle_ref_price_deviation (factor s') = oracle_ref_price_deviation (factor s)
    \/ May slot s signer RoleKey.CONFIG_KEEPER;
  al_discount : order_fee_discount_for_referred_user (factor s') = order_fee_discount_for_referred_user (factor s)
    \/ May slot s signer RoleKey.CONFIG_KEEPER \/ May slot s signer RoleKey.MARKET_KEEPER;
  al_features : disabled_features s' = disabled_features s \/ May slot s signer RoleKey.FEATURE_KEEPER;
  al_gt : store_gt s' = store_gt s \/ May slot s signer RoleKey.MARKET_KEEPER \/ May slot s signer RoleKey.GT_CONTROLLER;
}.

Lemma allowed_refl slot signer s : Allowed slot signer s s.
Proof. split; tauto. Qed.

(** The access that an instruction asks for. *)
Definition needs slot s signer (act : StoreAction) : Prop :=
  match act with
  | UpdateLastRestartedSlot | TransferStoreAuthority _ | RoleAction _ => Admin slot s signer
  | AcceptStoreAuthority => signer = next_authority s /\ ~ Outdated slot s
  | TransferReceiver _ => signer = receiver (treasury s) /\ ~ Outdated slot s
  | AcceptReceiver => signer = next_receiver (treasury s) /\ ~ Outdated slot s
  | SetTokenMap _ _ | InsertOrderFeeDiscountForReferredUser _ | InitializeGt _ _ _ _ _ _
  | GtSetOrderFeeDiscountFactors _ => May slot s signer RoleKey.MARKET_KEEPER
  | InsertAmount _ _ | InsertFactor _ _ | InsertAddress _ _ => May slot s signer RoleKey.CONFIG_KEEPER
  | ToggleFeature _ _ _ => May slot s signer RoleKey.FEATURE_KEEPER
  | GtSetReferralRewardFactors _ => May slot s signer RoleKey.GT_CONTROLLER
  end.

Ltac handler H :=
  unfold update_last_restarted_slot_ix, transfer_store_authority, accept_store_authority, transfer_receiver, accept_receiver,
    set_token_map, role_instruction, insert_amount, insert_factor, insert_address,
    insert_order_fee_discount_for_referred_user, toggle_feature, initialize_gt,
    gt_set_order_fee_discount_factors, gt_set_referral_reward_factors, gt_initialized in H.

Ltac pass_guard Hwf H :=
  let s1 := fresh "s1" in let Hg := fresh "Hg" in
  apply sbind_ok in H as (s1 & [] & Hg & H);
  first
    [ apply (only_admin_ok _ _ _ _ _ Hwf) in Hg as [-> Hg]
    | apply (only_role_ok _ _ _ _ _ _ Hwf) in Hg as [-> Hg]
    | apply not_restarted in Hg as [-> Hg]
    | apply sread_ok in Hg as [-> Hg]; apply has_one_ok, Z.eqb_eq in Hg
    | apply sread_ok in Hg as [-> Hg]; apply require_ok in Hg; try apply Z.eqb_eq in Hg
    | apply slift_ok in Hg as [-> Hg]; apply has_one_ok, Z.eqb_eq in Hg ].

Lemma run_needs slot signer act s s' u :
  StoreWf s -> run_store_action to_key this slot signer act s = (s', Ok u) -> needs slot s signer act.
Proof.
  intros Hwf H. destruct act; simpl in H |- *; handler H; repeat pass_guard Hwf H; try done; try (split; [congruence|done]).
Qed.

(** Successful role operations keep the table of roles in order. *)
Definition act_ok (act : StoreAction) : Prop :=
  match act with RoleAction op => valid_name (op_role op) | _ => True end.

Lemma role_op_wf op rs rs' u :
  RolesWf rs -> valid_name (op_role op) -> role_op to_key op rs = (rs', Ok u) -> RolesWf rs'.
Proof.
  intros Hwf Hname. destruct u, op as [role|role|a role|a role]; simpl; intros Hop.
  - by destruct (enable_role_ok to_key role rs rs' Hwf Hname Hop).
  - by destruct (disable_role_ok to_key role rs rs' Hwf Hop).
  - by destruct (grant_ok to_key a role rs rs' Hwf Hop).
  - by destruct (revoke_ok to_key a role rs rs' Hwf Hop).
Qed.

(** ** Features *)

Lemma feature_key_inj k k' : feature_key k = feature_key k' -> k = k'.
Proof.
  assert (Hd : forall d, domains !! Z.to_nat (domain_u8 d) = Some d) by by intros [].
  assert (Ha : forall a, actions !! Z.to_nat (action_u8 a) = Some a) by by intros [].
  assert (Hr : forall a, 0 <= action_u8 a < 256) by (intros []; simpl; lia).
  destruct k as [d a], k' as [d' a']. unfold feature_key. simpl. pose proof (Hr a). pose proof (Hr a').
  intros He. f_equal.
  - apply (inj Some). rewrite <- (Hd d), <- (Hd d'). do 2 f_equal. lia.
  - apply (inj Some). rewrite <- (Ha a), <- (Ha a'). do 2 f_equal. lia.
Qed.

Lemma get_disabled_eq d a fs :
  FixedMap.Wf MAX_DISABLED_FEATURES fs ->
  get_disabled d a fs = (fs, Ok ((fun v => v =? DISABLED) <$> to_map fs !! feature_key (d, a))).
Proof. intros Hwf. unfold get_disabled, sbind. by rewrite (get_eq _ MAX_DISABLED_FEATURES). Qed.

(** A feature can be set when it has an entry already or there is room for a new one. *)
Definition settable (fs : DisabledFeatures) (k : DomainDisabledFlag * ActionDisabledFlag) : bool :=
  bool_decide (is_Some (to_map fs !! feature_key k)) || (len fs <? MAX_DISABLED_FEATURES)%nat.

Lemma set_disabled_spec d a b fs :
  FixedMap.Wf MAX_DISABLED_FEATURES fs ->
  if settable fs (d, a) then
    exists fs', set_disabled d a b fs = (fs', Ok tt) /\ FixedMap.Wf MAX_DISABLED_FEATURES fs'
      /\ to_map fs' = <[feature_key (d, a) := if b then DISABLED else 0]> (to_map fs)
  else snd (set_disabled d a b fs) = Panic "must be success".
Proof.
  intros Hwf. unfold settable, len. rewrite <- (size_to_map MAX_DISABLED_FEATURES) by done.
  destruct (insert_simulates feature_key MAX_DISABLED_FEATURES (d, a) (if b then DISABLED else 0) fs Hwf)
    as [Hr Hs]. unfold set_disabled, sbind.
  destruct (insert feature_key MAX_DISABLED_FEATURES (d, a) (if b then DISABLED else 0) fs) as [fs' r].
  simpl in Hr, Hs. unfold spec_insert in Hr, Hs. rewrite Nat.ltb_antisym.
  destruct (to_map fs !! feature_key (d, a)) as [v|] eqn:Hk.
  - rewrite bool_decide_eq_true_2 by done. simpl in *. subst r. destruct (Hs eq_refl). by exists fs'.
  - rewrite bool_decide_eq_false_2 by (by intros [? ?]). destruct (_ <=? _)%nat; simpl in *; subst r; [done|].
    destruct (Hs eq_refl). by exists fs'.
Qed.

Lemma toggle_feature_ok d a b s s' u :
  StoreWf s -> unchecked_toggle_feature d a b s = (s', Ok u) ->
  exists fs, s' = with_features fs s /\ FixedMap.Wf MAX_DISABLED_FEATURES fs.
Proof.
  intros Hwf H. apply szoom_ok in H as (fs & H & ->).
  exists fs. split; [done|]. pose proof (set_disabled_spec d a (negb b) _ (sw_features _ Hwf)) as Hsp.
  destruct (settable _ _); [destruct Hsp as (? & ? & ? & _); congruence|]. by rewrite H in Hsp.
Qed.

(** ** Every instruction respects its access and keeps the tables in order *)

Ltac updated H :=
  unfold update_last_restarted_slot, set_next_authority, update_authority, unchecked_insert_amount,
    unchecked_insert_factor, unchecked_insert_address, configure_gt in H;
  apply supdate_ok in H;
  repeat (let v := fresh "v" in let Hv := fresh "Hv" in apply rbind_ok in H as (v & Hv & H));
  injection H as <-.

Lemma run_allowed slot signer act s s' u :
  StoreWf s -> act_ok act -> run_store_action to_key this slot signer act s = (s', Ok u) ->
  StoreWf s' /\ Allowed slot signer s s'.
Proof.
  intros Hwf Hact H. pose proof (run_needs slot signer act s s' u Hwf H) as Hn. pose proof Hwf as [Hroles Hfeat].
  destruct act; simpl in H, Hn, Hact; handler H; repeat pass_guard Hwf H.
  - updated H. split; [by split|]. split; simpl; tauto.
  - updated H. split; [by split|]. split; simpl; tauto.
  - updated H. split; [by split|]. split; simpl; tauto.
  - updated H. unfold set_next_receiver in Hv. apply rbind_ok in Hv as (? & _ & [= <-]).
    split; [by split|]. split; simpl; tauto.
  - updated H. unfold update_receiver in Hv. apply rbind_ok in Hv as (? & _ & [= <-]).
    split; [by split|]. split; simpl; try tauto. right. by split.
  - apply smodify_ok in H as ->. split; [by split|]. split; simpl; tauto.
  - apply szoom_ok in H as (rs & H & ->). split; [|split; simpl; tauto].
    split; [by eapply role_op_wf|done].
  - updated H. split; [by split|]. split; simpl; tauto.
  - updated H. split; [by split|]. split; simpl; tauto.
  - updated H. split; [by split|]. split; simpl; tauto.
  - updated H. apply ok_or_ok in Hv. vm_compute in Hv. injection Hv as <-.
    split; [by split|]. split; simpl; tauto.
  - apply sbind_ok in H as (? & d & [-> _]%slift_ok & H). apply sbind_ok in H as (? & b & [-> _]%slift_ok & H).
    apply toggle_feature_ok in H as (fs & -> & Hfs); [|done]. split; [by split|]. split; simpl; tauto.
  - updated H. split; [by split|]. split; simpl; tauto.
  - updated H. split; [by split|]. split; simpl; tauto.
  - updated H. split; [by split|]. split; simpl; tauto.
Qed.

(** ** Reachable stores *)

(** The store of a program: initialized once, then changed by instructions, each of which sees some
    last restart of the cluster. *)
Inductive StoreReach : Store -> Prop :=
| StoreReachInit slot authority key bump receiver holding s :
    store_init slot authority key bump receiver holding = Ok s -> StoreReach s
| StoreReachStep slot signer act s :
    StoreReach s -> act_ok act -> StoreReach (store_step to_key this slot signer act s).

Lemma store_step_ok slot signer act s :
  StoreWf s -> act_ok act ->
  StoreWf (store_step to_key this slot signer act s)
  /\ Allowed slot signer s (store_step to_key this slot signer act s).
Proof.
  intros Hwf Hact. unfold store_step. destruct (run_store_action to_key this slot signer act s) as [s' [u|e|m]] eqn:H.
  - by eapply run_allowed.
  - split; [done|apply allowed_refl].
  - split; [done|apply allowed_refl].
Qed.

Lemma store_reach_wf s : StoreReach s -> StoreWf s.
Proof.
  induction 1 as [slot authority key bump receiver holding s Hi|slot signer act s _ IH Hact].
  - unfold store_init in Hi. apply rbind_ok in Hi as (k & _ & [= <-]). split; [apply zeroed_store_wf|].
    apply zeroed_wf.
  - by apply store_step_ok.
Qed.

(** C19: who can change what in a store. In every reachable state, an instruction changes the roles,
    the next authority or the known restart only for an administrator, and the last to the current
    slot; the authority and the receiver of the treasury only to the signer, who must have been
    named before; the next receiver only for the receiver; the configuration, the features, the token
    map and the GT token only for a signer with the role for it; and it never changes the key. *)
Theorem store_access_control slot signer act s :
  StoreReach s -> act_ok act -> Allowed slot signer s (store_step to_key this slot signer act s).
Proof. intros Hs Hact. by apply store_step_ok; [apply store_reach_wf|]. Qed.

(** C20: after the cluster has restarted, a store is frozen until an administrator acknowledges it.
    An instruction of anyone else fails and changes nothing, even for signers that have the role for it.
    The acknowledgement succeeds for every administrator, who may be one with the role for restarts, and
    changes nothing but the known slot; afterwards the ordinary roles decide again. *)
Theorem store_frozen_after_restart slot signer s :
  StoreReach s -> Outdated slot s ->
  (~ Admin slot s signer -> forall act,
     is_ok (snd (run_store_action to_key this slot signer act s)) = false
     /\ store_step to_key this slot signer act s = s)
  /\ (Admin slot s signer ->
     store_step to_key this slot signer UpdateLastRestartedSlot s = with_slot slot s
     /\ forall a role, May slot (with_slot slot s) a role <-> Has s a role).
Proof.
  intros Hs%store_reach_wf Hout. split.
  - intros Hn act. unfold store_step.
    destruct (run_store_action to_key this slot signer act s) as [s' [u|e|m]] eqn:H; [|done|done].
    apply run_needs in H; [|done]. destruct Hn. destruct act; simpl in H; unfold Admin, May in *; tauto.
  - intros Ha. split.
    + unfold store_step. simpl. unfold update_last_restarted_slot_ix, sbind.
      rewrite (proj2 (only_admin_ok slot s signer s tt Hs)) by done.
      unfold update_last_restarted_slot, supdate. unfold Outdated in Hout.
      by rewrite (proj2 (Z.eqb_neq _ _) Hout).
    + intros a role. unfold May, Outdated, Has. simpl. tauto.
Qed.

(** Features. A feature keeper enables or disables a feature by the names of its domain and its
    action; afterwards exactly that feature answers accordingly, every other one as before, and names
    that do not exist are refused. The table has room for [MAX_DISABLED_FEATURES] of the features: to
    set another one panics. *)
Theorem toggle_feature_spec slot signer d a enable s :
  StoreReach s -> May slot s signer RoleKey.FEATURE_KEEPER ->
  let run := run_store_action to_key this slot signer
               (ToggleFeature (domain_name d) (action_name a) enable) s in
  if settable (disabled_features s) (d, a) then
    snd run = Ok tt
    /\ forall d' a', snd (is_feature_disabled d' a' (fst run))
         = if decide ((d', a') = (d, a)) then Ok (negb enable) else snd (is_feature_disabled d' a' s)
  else snd run = Panic "must be success".
Proof.
  intros Hs%store_reach_wf Hmay. pose proof Hs as [_ Hf].
  assert (Hq : forall d' a' s', FixedMap.Wf MAX_DISABLED_FEATURES (disabled_features s') ->
    snd (is_feature_disabled d' a' s')
    = Ok (default false ((fun v => v =? DISABLED) <$> to_map (disabled_features s') !! feature_key (d', a')))).
  { intros d' a' s' Hw. unfold is_feature_disabled, sbind, on_features, szoom. by rewrite get_disabled_eq. }
  cbv zeta. simpl. unfold toggle_feature, unchecked_toggle_feature, sbind.
  rewrite (proj2 (only_role_ok slot s signer _ s tt Hs)) by done.
  assert (from_name domain_name domains (domain_name d) = Some d) as -> by by destruct d.
  assert (from_name action_name actions (action_name a) = Some a) as -> by by destruct a.
  pose proof (set_disabled_spec d a (negb enable) _ Hf) as Hsp.
  unfold sbind, slift, ok_or, on_features, szoom.
  destruct (settable _ _).
  - destruct Hsp as (fs & Hset & Hw & Hm). rewrite Hset. simpl. split; [done|]. intros d' a'.
    rewrite !Hq by done. simpl. rewrite Hm. case_decide as He.
    + injection He as -> ->. rewrite lookup_insert_eq. by destruct enable.
    + rewrite lookup_insert_ne; [done|]. intros Hk%feature_key_inj. congruence.
  - destruct (set_disabled d a (negb enable) (disabled_features s)) as [fs r]. simpl in *. by subst r.
Qed.
End Access.

(** ** Time windows and expiration *)
Section Time.
Implicit Types (s : Store).

Lemma le_bytes_testbit i n m :
  (n < 8)%nat -> 0 <= m < 8 ->
  default 0 (i64_to_le_bytes i !! n) = Z.land (Z.shiftr i (8 * Z.of_nat n)) 255
  /\ Z.testbit (Z.land (Z.shiftr i (8 * Z.of_nat n)) 255) m = Z.testbit i (m + 8 * Z.of_nat n).
Proof.
  intros Hn Hm. split.
  - unfold i64_to_le_bytes. rewrite list_lookup_fmap, lookup_seq_lt by done. done.
  - change 255 with (Z.ones 8). rewrite Z.land_ones, Z.mod_pow2_bits_low, Z.shiftr_spec by lia. done.
Qed.

(** The eight bytes of an [i64] determine it. *)
Lemma i64_to_le_bytes_inj i j : @in_i u64 i -> @in_i u64 j -> i64_to_le_bytes i = i64_to_le_bytes j -> i = j.
Proof.
  intros Hi Hj He. assert (Hmod : i mod 2 ^ 64 = j mod 2 ^ 64).
  { apply Z.bits_inj'. intros k Hk. destruct (Z.lt_ge_cases k 64).
    - rewrite !Z.mod_pow2_bits_low by lia. set (n := Z.to_nat (k / 8)). set (m := k mod 8).
      assert (Hm : 0 <= m < 8) by (apply Z.mod_pos_bound; lia).
      assert (Hn : (n < 8)%nat) by (subst n; pose proof (Z.div_lt_upper_bound k 8 8); lia).
      assert (Hk' : k = m + 8 * Z.of_nat n).
      { subst n m. rewrite Z2Nat.id by (apply Z.div_pos; lia). pose proof (Z.div_mod k 8). lia. }
      destruct (le_bytes_testbit i n m Hn Hm) as [Hi1 Hi2], (le_bytes_testbit j n m Hn Hm) as [Hj1 Hj2].
      rewrite Hk', <- Hi2, <- Hj2, <- Hi1, <- Hj1. by rewrite He.
    - rewrite !Z.mod_pow2_bits_high by lia. done. }
  unfold in_i, i_min, i_max in Hi, Hj. simpl in Hi, Hj.
  pose proof (Z.div_mod i (2 ^ 64)). pose proof (Z.div_mod j (2 ^ 64)). lia.
Qed.

Lemma window_index_range window t :
  0 < window -> @in_i u64 t -> @in_i u64 (Z.quot t window).
Proof.
  unfold in_i, i_min, i_max. simpl. intros Hw Ht. destruct (Z.le_ge_cases 0 t).
  - rewrite Z.quot_div_nonneg by lia. pose proof (Z.div_le_upper_bound t window t). pose proof (Z.div_pos t window).
    nia.
  - replace t with (- (- t)) by lia. rewrite Z.quot_opp_l by lia. rewrite Z.quot_div_nonneg by lia.
    pose proof (Z.div_le_upper_bound (- t) window (- t)). pose proof (Z.div_pos (- t) window). nia.
Qed.

Lemma window_index_eq s t :
  let window := claimable_time_window_amount (amount s) in
  0 <= window ->
  claimable_time_window_index s t =
  if (0 <? window) && (window <=? @i_max u64) then Ok (Z.quot t window)
  else Err (Core CoreError.InvalidArgument).
Proof.
  intros window Hw. unfold claimable_time_window_index, claimable_time_window. fold window.
  destruct (Z.eqb_spec window 0) as [->|Hne]; [done|].
  assert (0 <? window = true) as -> by lia. unfold rbind, require, try_i. simpl.
  assert (@i_min u64 <=? window = true) as -> by (unfold i_min; simpl; lia).
  by destruct (window <=? @i_max u64).
Qed.

(** The key of a claimable account names the window of time that it is for. It is defined exactly
    for a window between one second and the largest [i64]; two timestamps from the epoch on get the same
    key exactly when they lie in the same window, and all the timestamps before the epoch that are less than
    a window from it share the key of the first window after it. *)
Theorem claimable_time_key_spec s t t' :
  let window := claimable_time_window_amount (amount s) in
  0 <= window -> @in_i u64 t -> @in_i u64 t' ->
  if (0 <? window) && (window <=? @i_max u64) then
    exists k k', claimable_time_key s t = Ok k /\ claimable_time_key s t' = Ok k'
      /\ (0 <= t -> 0 <= t' -> (k = k' <-> t / window = t' / window))
      /\ (- window < t < 0 -> 0 <= t' < window -> k = k')
  else claimable_time_key s t = Err (Core CoreError.InvalidArgument).
Proof.
  intros window Hw Ht Ht'. unfold claimable_time_key. rewrite !window_index_eq by done. fold window.
  destruct (Z.ltb_spec 0 window) as [Hpos|Hneg]; simpl; [|done].
  destruct (window <=? @i_max u64); [|done].
  eexists _, _. split; [done|]. split; [done|]. split.
  - intros H1 H2. rewrite <- !(Z.quot_div_nonneg _ window) by lia. split; [|by intros ->].
    apply i64_to_le_bytes_inj; by apply window_index_range.
  - intros H1 H2. rewrite (Z.quot_small t') by lia. f_equal.
    replace t with (- (- t)) by lia. rewrite Z.quot_opp_l by lia. by rewrite Z.quot_small by lia.
Qed.

(** The expiration of a request is an error only if it is beyond the largest [i64]. *)
Lemma request_expiration_at_spec s start :
  0 <= request_expiration (amount s) -> @in_i u64 start ->
  request_expiration_at s start =
  if start + request_expiration (amount s) <=? @i_max u64 then Ok (start + request_expiration (amount s))
  else Err (Core CoreError.InvalidArgument).
Proof.
  intros Hr [Hs _]. unfold request_expiration_at, try_i.
  assert (@i_min u64 <=? start + request_expiration (amount s) = true) as -> by lia.
  by destruct (_ <=? _).
Qed.
End Time.

(** Names are read back. *)
Lemma amount_key_round_trip key : from_name amount_key_name amount_keys (amount_key_name key) = Some key.
Proof. by destruct key. Qed.

Lemma amounts_get_set self key key' v :
  amounts_get (amounts_set self key v) key' = if decide (key' = key) then v else amounts_get self key'.
Proof. by destruct self, key, key'. Qed.

(** ** Examples

    A store with a feature keeper and a restart administrator, who acknowledges a restart. *)
Section Examples.
#[local] Existing Instance z_bitmap.
#[local] Existing Instance z_bitmap_laws.

Definition new_store_example : Store :=
  match store_init 10 1 [] 254 2 3 with
  | Ok s => s
  | _ => mkStore 0 [] zeroed_store 0 0 0 (zeroed 0 MAX_DISABLED_FEATURES) 0 (treasury_init 0) amounts_init
           factors_init 0 zeroed_gt_state
  end.

Definition store_actions_example : list StoreAction :=
  RoleAction <$> [EnableRole RoleKey.FEATURE_KEEPER; Grant 5 RoleKey.FEATURE_KEEPER;
                  EnableRole RoleKey.RESTART_ADMIN; Grant 7 RoleKey.RESTART_ADMIN].

Definition admin_store_example : Store :=
  foldl (fun s act => store_step key_example 9 10 1 act s) new_store_example store_actions_example.

Lemma admin_store_reach : StoreReach key_example 9 admin_store_example.
Proof.
  unfold admin_store_example, store_actions_example. simpl.
  do 4 (apply StoreReachStep; [|split; [done|apply (bool_decide_unpack _); vm_compute; exact I]]).
  by apply (StoreReachInit key_example 9 10 1 [] 254 2 3).
Qed.

Lemma feature_keeper_example : May key_example 10 admin_store_example 5 RoleKey.FEATURE_KEEPER.
Proof. right. split; [intros H; apply H; vm_compute; done|]. split; vm_compute; done. Qed.

(** The authority names a successor. *)
Lemma store_access_control_witness :
  Allowed key_example 10 1 admin_store_example
    (store_step key_example 9 10 1 (TransferStoreAuthority 4) admin_store_example)
  /\ next_authority (store_step key_example 9 10 1 (TransferStoreAuthority 4) admin_store_example) = 4.
Proof.
  split; [|vm_compute; reflexivity].
  apply (store_access_control key_example 9 10 1 (TransferStoreAuthority 4) admin_store_example);
    [exact admin_store_reach|exact I].
Defined.

(** The cluster restarts at slot 11: the feature keeper can do nothing, the restart administrator
    acknowledges. *)
Lemma store_frozen_after_restart_witness :
  store_step key_example 9 11 5 (ToggleFeature "deposit" "create" false) admin_store_example = admin_store_example
  /\ store_step key_example 9 11 7 UpdateLastRestartedSlot admin_store_example
     = with_slot 11 admin_store_example.
Proof.
  assert (Hout : Outdated 11 admin_store_example) by (intros H; vm_compute in H; discriminate H).
  destruct (store_frozen_after_restart key_example 9 11 5 admin_store_example admin_store_reach Hout) as [Hfrozen _].
  destruct (store_frozen_after_restart key_example 9 11 7 admin_store_example admin_store_reach Hout) as [_ Hack].
  split.
  - apply Hfrozen. intros [H|[_ [_ H]]]; vm_compute in H; discriminate H.
  - apply Hack. right. split; [exact Hout|]. split; vm_compute; reflexivity.
Defined.

Lemma toggle_feature_spec_example :
  snd (run_store_action key_example 9 10 5 (ToggleFeature "deposit" "create" false) admin_store_example) = Ok tt
  /\ snd (is_feature_disabled DomDeposit ActCreate
       (fst (run_store_action key_example 9 10 5 (ToggleFeature "deposit" "create" false) admin_store_example)))
     = Ok true.
Proof.
  pose proof (toggle_feature_spec key_example 9 10 5 DomDeposit ActCreate false admin_store_example
                admin_store_reach feature_keeper_example) as H.
  cbv zeta in H. assert (Hset : settable (disabled_features admin_store_example) (DomDeposit, ActCreate) = true)
    by (vm_compute; reflexivity).
  rewrite Hset in H. destruct H as [Hr Hq]. split; [exact Hr|].
  transitivity (if decide ((DomDeposit, ActCreate) = (DomDeposit, ActCreate)) then Ok (negb false)
                else snd (is_feature_disabled DomDeposit ActCreate admin_store_example)); [apply Hq|reflexivity].
Defined.

Lemma claimable_time_key_spec_example :
  exists k, claimable_time_key admin_store_example 7200 = Ok k /\ claimable_time_key admin_store_example 10799 = Ok k.
Proof.
  assert (Hin : forall t, 0 <= t < 2 ^ 63 -> @in_i u64 t) by (unfold in_i, i_min, i_max; simpl; lia).
  destruct (claimable_time_key_spec new_store_example 7200 10799) as (k & k' & Hk & Hk' & Heq & _);
    [done|apply Hin; lia|apply Hin; lia|].
  exists k. split; [exact Hk|]. rewrite (proj2 (Heq ltac:(lia) ltac:(lia)) eq_refl). exact Hk'.
Defined.
End Examples.
