(* ===== verification/SwapPath.v ===== *)
(** * Swaps along a path ([states/market/revertible/swap_market.rs], [states/common/swap.rs])

    A swap of the store program runs over several markets. They are a finite map from the mint of
    the market token (the [IndexMap] of [SwapMarkets]), with one current market beside it: the
    market of the action, which the swap starts from or goes into ([SwapDirection]). Between two
    markets no token is transferred: both share the vault of the token, and only the balances
    that the markets have recorded are updated.

    A market is the plain state a revertible market shows (Module [Revertible]), with its meta.
    The prices are read from the oracle (Module [Oracle]), and errors of the model crate become
    those of the store program as [ModelError] converts them.

    [swap_along_ok] and [one_side_ok] say what a run does to the sums over all markets of what is
    recorded and what the pools hold, per token, and which markets it leaves validated. *)
From stdpp Require Import gmap sorting.
From S2P Require Import Prelude.
From S2P Require Import MapSum.
From S2P Require Import Kinds.
From S2P Require Import CoreErrors.
From S2P Require Import Num.
From S2P Require Import Fixed.
From S2P Require Import Price.
From S2P Require Import Params.
From S2P Require Import Pool.
From S2P Require Import Market.
From S2P Require Import MarketFacts.
From S2P Require Import Swap.
From S2P Require Import UpdateStates.
From S2P Require Import Revertible.
From S2P Require Import Flags.
From S2P Require Import Roles.
From S2P Require Import TokenConfig.
From S2P Require Import Oracle.
Import OnChain.
#[local] Open Scope Z_scope.

(** ** Errors and metas *)

(** The conversion of [ModelError]; the codes are those of [CoreInvalidArgument] and
    [CoreTokenAmountOverflow], the only ones that pass through the model crate. *)
Definition from_model_error (err : Error) : StoreError :=
  match err with
  | EmptyDeposit => Core CoreError.EmptyDeposit
  | Solana code =>
      if code =? 6007 then Core CoreError.InvalidArgument
      else if code =? 6012 then Core CoreError.TokenAmountOverflow
      else ModelError err
  | _ => ModelError err
  end.

Definition model_result {A} (r : result A) : store_result A :=
  match r with
  | Ok a => Ok a
  | Err e => Err (from_model_error e)
  | Panic msg => Panic msg
  end.

Definition opposite_token (self : MarketMeta) (token : Pubkey) : store_result Pubkey :=
  if token =? long_token_mint self then Ok (short_token_mint self)
  else if token =? short_token_mint self then Ok (long_token_mint self)
  else Err (Core CoreError.InvalidArgument).

Inductive SwapDirection : Type := From | Into.

Definition is_into (self : SwapDirection) : bool :=
  match self with Into => true | From => false end.

(** ** One market of a swap *)

Record SwapMarket (T : Type) : Type := mkSwapMarket {
  sm_meta : MarketMeta;
  sm_is_pure : bool;
  sm_plain : Plain T;
}.
Arguments mkSwapMarket {T}.
Arguments sm_meta {T}.
Arguments sm_is_pure {T}.
Arguments sm_plain {T}.

(** The state of a swap: the markets by market token, and the current market. *)
Record SwapMarkets (T : Type) : Type := mkSwapMarkets {
  markets : gmap Pubkey (SwapMarket T);
  current_market : SwapMarket T;
}.
Arguments mkSwapMarkets {T}.
Arguments markets {T}.
Arguments current_market {T}.

Section Definitions.
Local Existing Instance u128.
Context {F : FixedPointOps u128} {T : Type} {S : SupplyOps T}.
Context {B : Type} `{BitmapLaws MAX_FLAGS B}.

Definition sm_balance (self : SwapMarket T) (is_long_token : bool) : Z :=
  if is_long_token || sm_is_pure self then plain_long_balance (sm_plain self)
  else plain_short_balance (sm_plain self).

Definition sm_market (self : SwapMarket T) : Market Pool T := plain_market (sm_plain self).

Definition sm_view (self : SwapMarket T) : BalanceView T :=
  mkView (sm_meta self) (sm_is_pure self) (sm_balance self) (sm_market self).

Definition SM (A : Type) : Type := ST (SwapMarket T) StoreError A.

(** What a revertible market does to what it shows (theorem [revertible_market_refines]). *)
Definition on_plain {A} (m : ST (Plain T) Error A) : SM A := fun self =>
  let (plain, r) := m (sm_plain self) in
  (mkSwapMarket (sm_meta self) (sm_is_pure self) plain, model_result r).

Definition on_market {A} (m : MM Pool T A) : SM A := on_plain (on_plain_market m).

(** [record_transferred_in_by_token] and [record_transferred_out_by_token]. *)
Definition record_by_token (op : Z -> Z -> option Z) (token : Pubkey) (amount : Z) : SM unit :=
  do! is_long_token := sread (fun self => model_result (to_token_side (sm_meta self) token)) in
  do! is_pure := sread (fun self => Ok (sm_is_pure self)) in
  on_plain (plain_transfer is_pure op is_long_token amount).

Definition sm_record_in : Pubkey -> Z -> SM unit := record_by_token (@uadd u64).
Definition sm_record_out : Pubkey -> Z -> SM unit := record_by_token (@usub u64).

Definition sm_validate (long_excluding_amount short_excluding_amount : Z) : SM unit :=
  sread (fun self => model_result
    (validate_market_balances (sm_view self) long_excluding_amount short_excluding_amount)).

Definition sm_validate_token (token : Pubkey) (excluded : Z) : SM unit :=
  sread (fun self => model_result
    (validate_market_balance_for_the_given_token (sm_view self) token excluded)).

Definition sm_validate_excluding (first_token second_token : Pubkey) (first_amount second_amount : Z)
    : SM unit :=
  sread (fun self => model_result
    (validate_market_balances_excluding_the_given_token_amounts (sm_view self) first_token
       second_token first_amount second_amount)).

(** [Oracle::market_prices]; it reads the oracle. *)
Definition oracle_prices (oracle : Oracle.Oracle) (meta : MarketMeta) : store_result Prices :=
  snd (market_prices (index_token_mint meta) (long_token_mint meta) (short_token_mint meta) oracle).

(** The amount of a report as the [u64] of a token amount. *)
Definition to_token_amount (amount : Z) : store_result Z :=
  ok_or (@try_u u64 amount) (Core CoreError.TokenAmountOverflow).

(** [SwapDirection::swap_with_current]: the borrowing state of the current market is left alone. *)
Definition swap_with_current (oracle : Oracle.Oracle) (token_in : Pubkey) (token_in_amount : Z)
    : SM (Pubkey * Z) :=
  do! side := sread (fun self => model_result (to_token_side (sm_meta self) token_in)) in
  do! prices := sread (fun self => oracle_prices oracle (sm_meta self)) in
  do! report := on_market (swap side token_in_amount prices) in
  do! amount := slift (to_token_amount (token_out_amount (swap_result report))) in
  do! token := sread (fun self => opposite_token (sm_meta self) token_in) in
  sret (token, amount).

(** One round of the loop of [swap_along_the_path]: all markets but the first record the token
    in, all but the last record the token out and are validated. *)
Definition swap_at (first last : bool) (oracle : Oracle.Oracle) (token_in : Pubkey)
    (token_in_amount : Z) : SM (Pubkey * Z) :=
  do! _ := (if first then sret tt else sm_record_in token_in token_in_amount) in
  do! side := sread (fun self => model_result (to_token_side (sm_meta self) token_in)) in
  do! prices := sread (fun self => oracle_prices oracle (sm_meta self)) in
  do! _ := on_market (update_borrowing prices) in
  do! report := on_market (swap side token_in_amount prices) in
  do! token := sread (fun self => opposite_token (sm_meta self) token_in) in
  do! amount := slift (to_token_amount (token_out_amount (swap_result report))) in
  do! _ := (if last then sret tt
            else do! _ := sm_record_out token amount in sm_validate 0 0) in
  sret (token, amount).

(** ** The markets of a swap *)

Definition PM (A : Type) : Type := ST (SwapMarkets T) StoreError A.

Definition on_current {A} (m : SM A) : PM A :=
  szoom current_market (fun market self => mkSwapMarkets (markets self) market) m.

(** [get_mut(key)] and what happens when there is no such market. *)
Definition on_key {A} (missing : store_result A) (key : Pubkey) (m : SM A) : PM A := fun self =>
  match markets self !! key with
  | None => (self, missing)
  | Some market =>
      let (market, r) := m market in
      (mkSwapMarkets (<[key:=market]> (markets self)) (current_market self), r)
  end.

Definition not_provided {A} : store_result A := Err (Core CoreError.MarketAccountIsNotProvided).
Definition must_exist {A} : store_result A := Panic "must exist".

(** [key] of the current market. *)
Definition current (self : SwapMarkets T) : Pubkey := market_token_mint (sm_meta (current_market self)).

Fixpoint swap_along (first : bool) (oracle : Oracle.Oracle) (path : list Pubkey) (token_in : Pubkey)
    (token_in_amount : Z) : PM (Pubkey * Z) :=
  match path with
  | [] => sret (token_in, token_in_amount)
  | market_token :: path =>
      let last := match path with [] => true | _ => false end in
      do! out := on_key not_provided market_token
                   (swap_at first last oracle token_in token_in_amount) in
      swap_along false oracle path (fst out) (snd out)
  end.

Definition swap_along_the_path : Oracle.Oracle -> list Pubkey -> Pubkey -> Z -> PM (Pubkey * Z) :=
  swap_along true.

(** Moving the token from the current market to another one, the other way, and from the last
    market of a path that is left. The market has to be there before anything is recorded. *)
Definition check_provided (key : Pubkey) : PM unit := on_key not_provided key (sret tt).

Definition current_out (token_in : Pubkey) (amount : Z) : PM unit := on_current (sm_record_out token_in amount).
Definition current_in (token_in : Pubkey) (amount : Z) : PM unit := on_current (sm_record_in token_in amount).

Definition last_out (key token_in : Pubkey) (amount : Z) : PM unit :=
  on_key must_exist key (do! _ := sm_record_out token_in amount in sm_validate 0 0).

(** A path that starts elsewhere: the token moves from the current market to the first one. *)
Definition leave_current (direction : SwapDirection) (first token_in : Pubkey) (amount : Z) : PM unit :=
  do! current := sread (fun self => Ok (current self)) in
  if negb (is_into direction) && negb (first =? current) then
    do! _ := check_provided first in
    do! _ := current_out token_in amount in
    do! _ := on_current (sm_validate_token token_in 0) in
    on_key not_provided first (sm_record_in token_in amount)
  else sret tt.

(** A path that starts with the current market; the rest of the path is returned. *)
Definition first_at_current (oracle : Oracle.Oracle) (first : Pubkey) (rest : list Pubkey)
    (token_in : Pubkey) (amount : Z) : PM (list Pubkey * (Pubkey * Z)) :=
  do! current := sread (fun self => Ok (current self)) in
  if first =? current then
    do! out := on_current (swap_with_current oracle token_in amount) in
    do! _ :=
      match rest with
      | [] => sret tt
      | next :: _ =>
          do! _ := check_provided next in
          do! _ := current_out (fst out) (snd out) in
          on_key not_provided next (sm_record_in (fst out) (snd out))
      end in
    sret (rest, out)
  else sret (first :: rest, (token_in, amount)).

(** The rest of the path, which may end in the current market, and the way into it. *)
Definition swap_rest (direction : SwapDirection) (oracle : Oracle.Oracle) (path : list Pubkey)
    (last_market_token token_in : Pubkey) (amount : Z) : PM (Pubkey * Z) :=
  do! current := sread (fun self => Ok (current self)) in
  let should_swap_with_current := last_market_token =? current in
  let path := if should_swap_with_current then removelast path else path in
  do! out := swap_along_the_path oracle path token_in amount in
  do! out :=
    (if should_swap_with_current then
       do! _ :=
         match last path with
         | None => sret tt
         | Some last_swapped =>
             do! _ := last_out last_swapped (fst out) (snd out) in
             current_in (fst out) (snd out)
         end in
       on_current (swap_with_current oracle (fst out) (snd out))
     else sret out) in
  do! _ :=
    (if is_into direction && negb (last_market_token =? current) then
       do! _ := last_out last_market_token (fst out) (snd out) in
       current_in (fst out) (snd out)
     else sret tt) in
  sret out.

Definition revertible_swap_for_one_side (direction : SwapDirection) (oracle : Oracle.Oracle)
    (path : list Pubkey) (expected_token_out token_in : Pubkey) (token_in_amount : Z) : PM Z :=
  do! _ := sread (fun self =>
    match markets self !! current self with
    | None => Ok tt
    | Some _ => Err (Core CoreError.InvalidSwapPath)
    end) in
  do! out :=
    match path with
    | [] => sret (token_in, token_in_amount)
    | first :: rest =>
        do! _ := leave_current direction first token_in token_in_amount in
        do! cut := first_at_current oracle first rest token_in token_in_amount in
        match last (fst cut) with
        | None => sret (snd cut)
        | Some last_market_token =>
            swap_rest direction oracle (fst cut) last_market_token (fst (snd cut)) (snd (snd cut))
        end
    end in
  do! _ := slift (require (fst out =? expected_token_out) CoreError.InvalidSwapPath) in
  sret (snd out).

(** ** Parameters of a swap action *)

Definition MAX_STEPS : nat := 10.
Definition MAX_TOKENS : nat := 2 * MAX_STEPS + 2 + 3.

Record SwapActionParams : Type := mkSwapActionParams {
  primary_length : Z;
  secondary_length : Z;
  num_tokens : Z;
  current_market_token : Pubkey;
  paths : list Pubkey;
  swap_tokens : list Pubkey;
}.

(** [&xs[start..end]]. *)
Definition slice (xs : list Pubkey) (start end_ : Z) : store_result (list Pubkey) :=
  if (start <=? end_) && (end_ <=? Z.of_nat (length xs)) then
    Ok (take (Z.to_nat (end_ - start)) (drop (Z.to_nat start) xs))
  else Panic "range end index out of range for slice".

Definition primary_swap_path (self : SwapActionParams) : store_result (list Pubkey) :=
  slice (paths self) 0 (primary_length self).

Definition secondary_swap_path (self : SwapActionParams) : store_result (list Pubkey) :=
  slice (paths self) (primary_length self) (primary_length self + secondary_length self).

(** [xs.iter().all(|x| seen.insert(x))]. *)
Fixpoint all_unseen (seen : gset Pubkey) (xs : list Pubkey) : bool :=
  match xs with
  | [] => true
  | x :: xs => negb (bool_decide (x ∈ seen)) && all_unseen ({[x]} ∪ seen) xs
  end.

Definition validated_path (path : store_result (list Pubkey)) : store_result (list Pubkey) :=
  let! path := path in
  let! _ := require (all_unseen ∅ path) CoreError.InvalidSwapPath in
  Ok path.

Definition validated_primary_swap_path (self : SwapActionParams) : store_result (list Pubkey) :=
  validated_path (primary_swap_path self).
Definition validated_secondary_swap_path (self : SwapActionParams) : store_result (list Pubkey) :=
  validated_path (secondary_swap_path self).

(** ** Setting up a swap *)

(** A market account: its address, what [Market::validate] reads, and the revertible market that
    is made of it. *)
Record MarketLoader : Type := mkMarketLoader {
  loader_key : Pubkey;
  loader_meta : MarketMeta;
  loader_store : Pubkey;
  loader_is_enabled : bool;
  loader_open : store_result (SwapMarket T);
}.

Definition market_validate (self : MarketLoader) (store : Pubkey) : store_result unit :=
  let! _ := require (store =? loader_store self) CoreError.StoreMismatched in
  require (loader_is_enabled self) CoreError.DisabledMarket.

Definition validated_meta (self : MarketLoader) (store : Pubkey) : store_result MarketMeta :=
  let! _ := market_validate self store in Ok (loader_meta self).

(** [SwapMarkets::new]: no market twice, and not the current one. *)
Fixpoint swap_markets_new (store : Pubkey) (current_market_token : option Pubkey)
    (loaders : list MarketLoader) (map : gmap Pubkey (SwapMarket T))
    : store_result (gmap Pubkey (SwapMarket T)) :=
  match loaders with
  | [] => Ok map
  | loader :: loaders =>
      let key := market_token_mint (loader_meta loader) in
      let! _ := require (negb (bool_decide (current_market_token = Some key))) CoreError.InvalidSwapPath in
      match map !! key with
      | Some _ => Err (Core CoreError.InvalidSwapPath)
      | None =>
          let! _ := market_validate loader store in
          let! market := loader_open loader in
          swap_markets_new store current_market_token loaders (<[key:=market]> map)
      end
  end.

Definition ordered_tokens (self : MarketMeta) : gset Pubkey :=
  {[index_token_mint self; long_token_mint self; short_token_mint self]}.

(** One market of [validate_path]: the tokens and the markets that were seen, and the token. *)
Fixpoint validate_path (tokens : gset Pubkey) (seen : gset Pubkey) (path : list MarketLoader)
    (store current token_out : Pubkey) : store_result (gset Pubkey * list Pubkey) :=
  match path with
  | [] =>
      let! _ := require (current =? token_out) CoreError.InvalidSwapPath in Ok (tokens, [])
  | market :: path =>
      let! _ := require (negb (bool_decide (loader_key market ∈ seen))) CoreError.InvalidSwapPath in
      let! meta := validated_meta market store in
      let! current :=
        (if current =? long_token_mint meta then Ok (short_token_mint meta)
         else if current =? short_token_mint meta then Ok (long_token_mint meta)
         else Err (Core CoreError.InvalidSwapPath)) in
      let! (tokens, validated) :=
        validate_path (ordered_tokens meta ∪ tokens) ({[loader_key market]} ∪ seen) path store
          current token_out in
      Ok (tokens, market_token_mint meta :: validated)
  end.

(** Overwriting the front of an array, and the elements of a [BTreeSet] in order. *)
Definition write_front (xs array : list Pubkey) : list Pubkey := xs ++ drop (length xs) array.
Definition sorted (xs : gset Pubkey) : list Pubkey := merge_sort Z.le (elements xs).

Definition validate_and_init (current_market : MarketMeta) (primary_length secondary_length : Z)
    (paths_info : list MarketLoader) (store : Pubkey) (token_ins token_outs : Pubkey * Pubkey)
    (self : SwapActionParams) : store_result SwapActionParams :=
  let primary_end := Z.to_nat primary_length in
  let end_ := (primary_end + Z.to_nat secondary_length)%nat in
  let! _ := require (end_ <=? MAX_STEPS)%nat CoreError.InvalidSwapPathLength in
  let! _ := require (end_ <=? length paths_info)%nat CoreError.NotEnoughSwapMarkets in
  let primary_markets := take primary_end paths_info in
  let secondary_markets := take (end_ - primary_end) (drop primary_end paths_info) in
  let tokens := ordered_tokens current_market in
  let! (tokens, primary_path) :=
    validate_path tokens ∅ primary_markets store (fst token_ins) (fst token_outs) in
  let! (tokens, secondary_path) :=
    validate_path tokens ∅ secondary_markets store (snd token_ins) (snd token_outs) in
  let! _ := require (size tokens <=? MAX_TOKENS)%nat CoreError.InvalidSwapPath in
  Ok (mkSwapActionParams primary_length secondary_length (Z.of_nat (size tokens))
        (market_token_mint current_market)
        (write_front (primary_path ++ secondary_path) (paths self))
        (write_front (sorted tokens) (swap_tokens self))).

(** ** The swap of both sides *)

(** [token_in.and_then(..).map(..).transpose()?.unwrap_or_default()]. *)
Definition swap_side (direction : SwapDirection) (oracle : Oracle.Oracle) (path : list Pubkey)
    (expected_token_out : Pubkey) (token_in : option Pubkey) (token_in_amount : Z) : PM Z :=
  match token_in with
  | Some token_in =>
      if token_in_amount =? 0 then sret 0
      else revertible_swap_for_one_side direction oracle path expected_token_out token_in token_in_amount
  | None => sret 0
  end.

(** The validation of an output market; [current_validated] becomes true with the current one. *)
Definition validate_output (key first_token second_token : Pubkey) (first_amount second_amount : Z)
    (current_validated : bool) : PM bool :=
  do! current := sread (fun self => Ok (current self)) in
  let validate := sm_validate_excluding first_token second_token first_amount second_amount in
  if negb (key =? current) then
    do! _ := on_key must_exist key validate in sret current_validated
  else do! _ := on_current validate in sret true.

Definition revertible_swap (direction : SwapDirection) (oracle : Oracle.Oracle)
    (params : SwapActionParams) (expected_token_outs : Pubkey * Pubkey)
    (token_ins : option Pubkey * option Pubkey) (token_in_amounts : Z * Z) : PM (Z * Z) :=
  do! long_path := slift (validated_primary_swap_path params) in
  do! long_output := swap_side direction oracle long_path (fst expected_token_outs) (fst token_ins)
                       (fst token_in_amounts) in
  do! short_path := slift (validated_secondary_swap_path params) in
  do! short_output := swap_side direction oracle short_path (snd expected_token_outs) (snd token_ins)
                        (snd token_in_amounts) in
  do! current := sread (fun self => Ok (current self)) in
  let output_market path := if is_into direction then current else default current (last path) in
  let long_market := output_market long_path in
  let short_market := output_market short_path in
  do! current_validated :=
    (if long_market =? short_market then
       validate_output long_market (fst expected_token_outs) (snd expected_token_outs) long_output
         short_output false
     else
       do! v := validate_output long_market (fst expected_token_outs) (fst expected_token_outs)
                  long_output 0 false in
       validate_output short_market (snd expected_token_outs) (snd expected_token_outs)
         short_output 0 v) in
  do! _ := (if current_validated then sret tt else on_current (sm_validate 0 0)) in
  sret (long_output, short_output).
End Definitions.

(** ** What a market does with the tokens *)

(** [amount] of [token], and nothing of the others. *)
Definition pay (token : Pubkey) (amount : Z) (tok : Pubkey) : Z := if tok =? token then amount else 0.

Lemma pay_plus token x y tok : pay token x tok + pay token y tok = pay token (x + y) tok.
Proof. unfold pay. case_if Hb; lia. Qed.

Lemma pay_opp token x tok : pay token (- x) tok = - pay token x tok.
Proof. unfold pay. case_if Hb; lia. Qed.

Lemma pay_0 token tok : pay token 0 tok = 0.
Proof. unfold pay. by case_if Hb. Qed.

Section Moves.
Local Existing Instance u128.
Context {T : Type} {S : SupplyOps T} {SL : SupplyLaws T}.
Implicit Types (mk : SwapMarket T) (tok : Pubkey) (dr dh : Pubkey -> Z).

(** What [Market::init] sets up and the operations keep: the flag of the market is that of its
    mints, and its token pools are pure only if the market is. *)
Record SmWf mk : Prop := {
  sm_wf_market : market_wf (sm_market mk);
  sm_wf_balances : @in_u u64 (plain_long_balance (sm_plain mk)) /\ @in_u u64 (plain_short_balance (sm_plain mk));
  sm_wf_pure : sm_is_pure mk = (long_token_mint (sm_meta mk) =? short_token_mint (sm_meta mk));
  sm_wf_pools : sm_is_pure mk = false -> tokens_impure (sm_market mk);
}.

Lemma sm_view_wf mk : SmWf mk -> ViewWf (sm_view mk).
Proof.
  intros [Hm [Hl Hs] Hp _]. split; [done| |done]. intros side. simpl. unfold sm_balance, in_u in *.
  by case_if Hb.
Qed.

(** Of a token: what the market has recorded, and what its token pools hold. *)
Definition recorded mk tok : Z :=
  pay (long_token_mint (sm_meta mk)) (plain_long_balance (sm_plain mk)) tok
  + (if sm_is_pure mk then 0
     else pay (short_token_mint (sm_meta mk)) (plain_short_balance (sm_plain mk)) tok).

Definition pools_hold mk tok : Z :=
  pay (long_token_mint (sm_meta mk)) (held (sm_market mk) true) tok
  + pay (short_token_mint (sm_meta mk)) (held (sm_market mk) false) tok.

(** [mk'] is [mk] with [dr] more recorded and [dh] more in the pools. *)
Record SmMoved mk dr dh mk' : Prop := {
  sm_moved_meta : sm_meta mk' = sm_meta mk;
  sm_moved_wf : SmWf mk';
  sm_moved_recorded tok : recorded mk' tok = recorded mk tok + dr tok;
  sm_moved_held tok : pools_hold mk' tok = pools_hold mk tok + dh tok;
  sm_moved_supply : m_supply (sm_market mk') = m_supply (sm_market mk);
}.

Definition nothing : Pubkey -> Z := fun _ => 0.

Lemma sm_moved_refl mk : SmWf mk -> SmMoved mk nothing nothing mk.
Proof. intros Hwf. split; [done|done|unfold nothing; lia..|done]. Qed.

Lemma sm_moved_trans mk dr dh mk1 dr' dh' mk2 :
  SmMoved mk dr dh mk1 -> SmMoved mk1 dr' dh' mk2 ->
  SmMoved mk (fun tok => dr tok + dr' tok) (fun tok => dh tok + dh' tok) mk2.
Proof.
  intros [Hm _ Hr Hh Hs] [Hm' Hwf Hr' Hh' Hs']. split; [congruence|done|intros tok..|congruence].
  - rewrite Hr', Hr. lia.
  - rewrite Hh', Hh. lia.
Qed.

Lemma sm_moved_eq mk dr dh mk' dr' dh' :
  SmMoved mk dr dh mk' -> (forall tok, dr tok = dr' tok) -> (forall tok, dh tok = dh' tok) ->
  SmMoved mk dr' dh' mk'.
Proof.
  intros [Hm Hwf Hr Hh Hs] Er Eh. split; [done|done|intros tok; rewrite <- ?Er, <- ?Eh; auto..|done].
Qed.

Lemma model_result_ok {A} (r : result A) a : model_result r = Ok a <-> r = Ok a.
Proof. destruct r; simpl; split; congruence. Qed.

Lemma on_plain_ok {A} (m : ST (Plain T) Error A) mk mk' a :
  on_plain m mk = (mk', Ok a) ->
  exists plain, m (sm_plain mk) = (plain, Ok a)
    /\ mk' = mkSwapMarket (sm_meta mk) (sm_is_pure mk) plain.
Proof.
  unfold on_plain. destruct (m (sm_plain mk)) as [plain r]. intros [= <- Hr].
  apply model_result_ok in Hr as ->. eauto.
Qed.

Lemma on_swap_market_ok {A} (m : MM Pool T A) mk mk' a :
  on_market m mk = (mk', Ok a) ->
  exists market, m (sm_market mk) = (market, Ok a)
    /\ mk' = mkSwapMarket (sm_meta mk) (sm_is_pure mk)
               (mkPlain market (plain_long_balance (sm_plain mk)) (plain_short_balance (sm_plain mk))
                  (plain_trade_count (sm_plain mk))).
Proof.
  intros Hr. apply on_plain_ok in Hr as (plain & Hr & ->). unfold on_plain_market in Hr.
  apply szoom_ok in Hr as (market & Hr & ->). eauto.
Qed.

Lemma to_token_side_ok meta token side :
  to_token_side meta token = Ok side ->
  token = (if side then long_token_mint meta else short_token_mint meta).
Proof.
  unfold to_token_side. destruct (Z.eqb_spec token (long_token_mint meta)); [by intros [= <-]|].
  destruct (Z.eqb_spec token (short_token_mint meta)); [by intros [= <-]|done].
Qed.

(** The opposite token of a side; with one token it is the same token. *)
Lemma opposite_token_ok mk token side token' :
  to_token_side (sm_meta mk) token = Ok side -> opposite_token (sm_meta mk) token = Ok token' ->
  token' = (if side then short_token_mint (sm_meta mk) else long_token_mint (sm_meta mk)).
Proof.
  unfold to_token_side, opposite_token. destruct (token =? long_token_mint (sm_meta mk)).
  - by intros [= <-] [= <-].
  - destruct (token =? short_token_mint (sm_meta mk)); [by intros [= <-] [= <-]|done].
Qed.

(** A transfer that is recorded. *)
Lemma record_ok op sign token amount mk mk' u :
  (forall a b r, @in_u u64 a -> op a b = Some r -> r = a + sign * b /\ @in_u u64 r) ->
  SmWf mk -> record_by_token op token amount mk = (mk', Ok u) ->
  SmMoved mk (pay token (sign * amount)) nothing mk'.
Proof.
  intros Hop Hwf Hr. pose proof Hwf as [Hm [Hl Hs] Hp Hi]. unfold record_by_token in Hr.
  apply sbind_ok in Hr as (? & a & [-> Hside]%sread_ok & Hr).
  apply model_result_ok, to_token_side_ok in Hside.
  apply sbind_ok in Hr as (? & ? & [-> [= <-]]%sread_ok & Hr). apply on_plain_ok in Hr as (plain & Hr & ->).
  unfold plain_transfer in Hr. apply supdate_ok in Hr.
  assert (Hlong : sm_is_pure mk || a = true -> token = long_token_mint (sm_meta mk)).
  { intros Hb. destruct a; [done|]. rewrite orb_false_r in Hb. rewrite Hp in Hb. bool_to_prop. congruence. }
  destruct (sm_is_pure mk || a) eqn:Hb.
  - apply rbind_ok in Hr as (b & Hb' & [= <-]). apply ok_or_ok, Hop in Hb' as [-> Hin]; [|done].
    split; [done|by split|..|done]; intros tok; unfold recorded, pools_hold, sm_market, nothing; simpl; [|lia].
    rewrite Hlong by done. rewrite <- pay_plus. lia.
  - apply orb_false_iff in Hb as [Hpure ->].
    apply rbind_ok in Hr as (b & Hb' & [= <-]). apply ok_or_ok, Hop in Hb' as [-> Hin]; [|done].
    split; [done|by split|..|done]; intros tok; unfold recorded, pools_hold, sm_market, nothing; simpl; [|lia].
    rewrite Hpure, Hside, <- pay_plus. lia.
Qed.

Lemma record_in_ok token amount mk mk' u :
  SmWf mk -> sm_record_in token amount mk = (mk', Ok u) -> SmMoved mk (pay token amount) nothing mk'.
Proof.
  intros Hwf Hr. rewrite <- (Z.mul_1_l amount). apply (record_ok _ 1 _ _ _ _ u) in Hr; [done| |done].
  intros a b r Ha Hab. apply uadd_some in Hab as [-> ?]. by rewrite Z.mul_1_l.
Qed.

Lemma record_out_ok token amount mk mk' u :
  SmWf mk -> sm_record_out token amount mk = (mk', Ok u) -> SmMoved mk (pay token (- amount)) nothing mk'.
Proof.
  intros Hwf Hr. replace (- amount) with (-1 * amount) by lia.
  apply (record_ok _ (-1) _ _ _ _ u) in Hr; [done| |done].
  intros a b r Ha Hab. apply usub_some in Hab as [-> ?]. split; [lia|done].
Qed.

(** A change of the pools, seen per token. *)
Lemma pools_moved mk c market :
  SmWf mk -> Moved (sm_market mk) c market ->
  SmMoved mk nothing
    (fun tok => pay (long_token_mint (sm_meta mk)) (held_change c true) tok
                + pay (short_token_mint (sm_meta mk)) (held_change c false) tok)
    (mkSwapMarket (sm_meta mk) (sm_is_pure mk)
       (mkPlain market (plain_long_balance (sm_plain mk)) (plain_short_balance (sm_plain mk))
          (plain_trade_count (sm_plain mk)))).
Proof.
  intros [Hm Hb Hp Hi] Hmv.
  split; [done| |intros tok; unfold recorded, nothing; simpl; lia| |by apply (moved_supply _ _ _ Hmv)].
  - split; [by eapply moved_wf|done|done|]. intros Hpure. destruct (Hi Hpure) as (H1 & H2 & H3).
    unfold tokens_impure, sm_market. cbn [plain_market sm_plain]. by rewrite !(moved_pure _ _ _ _ Hmv).
  - intros tok. unfold pools_hold. simpl. unfold sm_market in *. simpl. destruct (sm_is_pure mk).
    + symmetry in Hp. apply Z.eqb_eq in Hp. rewrite <- Hp, !pay_plus.
      f_equal. rewrite (held_total _ _ _ Hmv). lia.
    + rewrite !(held_side _ _ _ _ Hmv) by auto. rewrite <- !pay_plus. lia.
Qed.


Definition solvent mk : Prop := validate_market_balances (sm_view mk) 0 0 = Ok tt.

Lemma sm_validate_ok l s mk mk' u :
  sm_validate l s mk = (mk', Ok u) -> mk' = mk /\ validate_market_balances (sm_view mk) l s = Ok tt.
Proof. unfold sm_validate. intros [-> Hv%model_result_ok]%sread_ok. by destruct u. Qed.

(** ** What the markets of a swap do together *)

Implicit Types (s : SwapMarkets T) (bad good : gset Pubkey).

(** The sum of [f] over all markets, the current one included. *)
Definition total (f : SwapMarket T -> Z) s : Z := f (current_market s) + map_sum f (markets s).

Definition MarketsWf s : Prop :=
  SmWf (current_market s) /\ forall k mk, markets s !! k = Some mk -> SmWf mk.

(** [s'] is [s] with [dr] more recorded and [dh] more in the pools, over all markets. The markets
    that have changed are validated but for [bad]; those of [good] are validated. *)
Record PathMoved s dr dh bad good s' : Prop := {
  pm_meta : sm_meta (current_market s') = sm_meta (current_market s);
  pm_wf : MarketsWf s';
  pm_metas k : sm_meta <$> markets s' !! k = sm_meta <$> markets s !! k;
  pm_recorded tok : total (fun mk => recorded mk tok) s' = total (fun mk => recorded mk tok) s + dr tok;
  pm_held tok : total (fun mk => pools_hold mk tok) s' = total (fun mk => pools_hold mk tok) s + dh tok;
  pm_kept k mk : markets s' !! k = Some mk -> k ∉ bad -> solvent mk \/ markets s !! k = Some mk;
  pm_good k mk : markets s' !! k = Some mk -> k ∈ good -> solvent mk;
  pm_supply : m_supply (sm_market (current_market s')) = m_supply (sm_market (current_market s));
}.

Lemma pm_keys s dr dh bad good s' k :
  PathMoved s dr dh bad good s' -> markets s' !! k = None <-> markets s !! k = None.
Proof. intros Hm. by rewrite <- !(fmap_None sm_meta), (pm_metas _ _ _ _ _ _ Hm). Qed.

Lemma pm_current s dr dh bad good s' : PathMoved s dr dh bad good s' -> current s' = current s.
Proof. intros Hm. unfold current. by rewrite (pm_meta _ _ _ _ _ _ Hm). Qed.

Lemma path_moved_refl s : MarketsWf s -> PathMoved s nothing nothing ∅ ∅ s.
Proof.
  intros Hwf. unfold nothing. split; [done|done|done|intros; lia|intros; lia| | |done].
  - intros k mk Hk _. by right.
  - intros k mk _ Hk. set_solver.
Qed.

Lemma path_moved_trans s dr dh bad good s1 dr' dh' bad' good' s2 :
  PathMoved s dr dh bad good s1 -> PathMoved s1 dr' dh' bad' good' s2 ->
  PathMoved s (fun tok => dr tok + dr' tok) (fun tok => dh tok + dh' tok)
    (bad ∖ good' ∪ bad') (good ∖ bad' ∪ good') s2.
Proof.
  intros [Hc Hwf Hk Hr Hh Hb Hg Hs] [Hc' Hwf' Hk' Hr' Hh' Hb' Hg' Hs'].
  split; [congruence|done| | | | | |congruence].
  - intros k. by rewrite Hk'.
  - intros tok. rewrite Hr', Hr. lia.
  - intros tok. rewrite Hh', Hh. lia.
  - intros k mk Hmk Hn. destruct (decide (k ∈ good')) as [Hin|Hin]; [left; by eapply Hg'|].
    destruct (Hb' k mk Hmk) as [?|Hmk1]; [set_solver|by left|]. apply (Hb k mk Hmk1). set_solver.
  - intros k mk Hmk Hn. destruct (decide (k ∈ good')) as [Hin|Hin]; [by eapply Hg'|].
    destruct (Hb' k mk Hmk) as [?|Hmk1]; [set_solver|done|]. apply (Hg k mk Hmk1). set_solver.
Qed.

Lemma path_moved_weaken s dr dh bad good s' dr' dh' bad' good' :
  PathMoved s dr dh bad good s' -> (forall tok, dr tok = dr' tok) -> (forall tok, dh tok = dh' tok) ->
  bad ⊆ bad' -> good' ⊆ good -> PathMoved s dr' dh' bad' good' s'.
Proof.
  intros [Hc Hwf Hk Hr Hh Hb Hg Hs] Er Eh Sb Sg. split; [done|done|done| | | | |done].
  - intros tok. rewrite <- Er. apply Hr.
  - intros tok. rewrite <- Eh. apply Hh.
  - intros k mk Hmk Hn. apply (Hb k mk Hmk). set_solver.
  - intros k mk Hmk Hn. apply (Hg k mk Hmk). set_solver.
Qed.

(** A market that is not there is neither. *)
Lemma path_moved_absent k s dr dh bad good s' :
  markets s !! k = None -> PathMoved s dr dh bad good s' ->
  PathMoved s dr dh (bad ∖ {[k]}) (good ∪ {[k]}) s'.
Proof.
  intros Hn Hm. apply (pm_keys _ _ _ _ _ _ k Hm) in Hn. destruct Hm as [Hc Hwf Hk Hr Hh Hb Hg Hs]. split; [done..| | |done].
  - intros k' mk Hmk Hnot. apply (Hb k' mk Hmk). intros Hin. assert (k' = k) by set_solver. congruence.
  - intros k' mk Hmk Hin. apply (Hg k' mk Hmk). assert (k' <> k) by congruence. set_solver.
Qed.

Lemma on_current_ok {A} (m : SM A) s s' (a : A) dr dh :
  MarketsWf s ->
  (forall mk', m (current_market s) = (mk', Ok a) -> SmMoved (current_market s) dr dh mk') ->
  on_current m s = (s', Ok a) -> PathMoved s dr dh ∅ ∅ s' /\ markets s' = markets s.
Proof.
  intros [_ Hms] Hm Hr. apply szoom_ok in Hr as (mk & Hmk & ->). apply Hm in Hmk as [Hmeta Hwf Hrec Hheld Hsup].
  split; [|done]. split; simpl; [done|done|done| | | | |done].
  - intros tok. unfold total. simpl. rewrite Hrec. lia.
  - intros tok. unfold total. simpl. rewrite Hheld. lia.
  - intros k mk1 Hk _. by right.
  - intros k mk1 _ Hk. set_solver.
Qed.

Lemma on_key_run {A} missing k (m : SM A) s s' (a : A) :
  (forall a, missing <> Ok a) -> on_key missing k m s = (s', Ok a) ->
  exists mk mk', markets s !! k = Some mk /\ m mk = (mk', Ok a)
    /\ s' = mkSwapMarkets (<[k:=mk']> (markets s)) (current_market s).
Proof.
  intros Hn. unfold on_key. destruct (markets s !! k) as [mk|]; [|intros [= _ Hx]; by apply Hn in Hx].
  destruct (m mk) as [mk' r] eqn:Hr. intros [= <- ->]. eauto.
Qed.

Lemma on_key_ok {A} missing k (m : SM A) s s' (a : A) dr dh (validated : bool) :
  MarketsWf s -> (forall a, missing <> Ok a) ->
  (forall mk mk', SmWf mk -> m mk = (mk', Ok a) ->
     SmMoved mk dr dh mk' /\ (validated = true -> solvent mk')) ->
  on_key missing k m s = (s', Ok a) ->
  PathMoved s dr dh (if validated then ∅ else {[k]}) (if validated then {[k]} else ∅) s'.
Proof.
  intros [Hcur Hms] Hn Hm Hr. apply on_key_run in Hr as (mk & mk' & Hk & Hr & ->); [|done].
  apply Hm in Hr as [[Hmeta Hwf Hrec Hheld _] Hsol]; [|by eapply Hms].
  split; unfold total; simpl; [done|split; [done|]| | | | | |done].
  - intros k' mk1 H1. simpl in H1. apply lookup_insert_Some in H1 as [[_ <-]|[_ ?]]; [done|by eapply Hms].
  - intros k'. destruct (decide (k' = k)) as [->|Hne].
    + rewrite lookup_insert_eq, Hk. simpl. by rewrite Hmeta.
    + by rewrite lookup_insert_ne.
  - intros tok. rewrite map_sum_insert, Hk. simpl. rewrite Hrec. lia.
  - intros tok. rewrite map_sum_insert, Hk. simpl. rewrite Hheld. lia.
  - intros k' mk1 [[<- <-]|[_ ?]]%lookup_insert_Some Hb; [|by right]. destruct validated; [left; auto|set_solver].
  - intros k' mk1 [[<- <-]|[? _]]%lookup_insert_Some Hb; destruct validated; [auto|set_solver..].
Qed.
End Moves.

(** ** Steps of a swap *)
Section Steps.
Local Existing Instance u128.
Context {F : FixedPointOps u128} {FOk : FixedPointOk F} {T : Type} {S : SupplyOps T} {SL : SupplyLaws T}.
Context {B : Type} `{BitmapLaws MAX_FLAGS B} (oracle : Oracle.Oracle) (Hgood : GoodPrices oracle).
Implicit Types (s : SwapMarkets T) (mk : SwapMarket T) (tok : Pubkey) (path : list Pubkey).

Lemma borrowing_ok prices mk mk' r :
  SmWf mk -> on_market (update_borrowing prices) mk = (mk', Ok r) -> SmMoved mk nothing nothing mk'.
Proof.
  intros Hwf Hr. apply on_swap_market_ok in Hr as (market & Hr & ->).
  apply update_borrowing_moved in Hr as (last & d & rl & rs & m1 & _ & _ & _ & _ & _ & _ & Hm & _);
    [|apply Hwf].
  set (clocks := mkClocks _ _ _) in Hm.
  set (mk1 := mkSwapMarket (sm_meta mk) (sm_is_pure mk)
    (mkPlain (set_clocks (sm_market mk) clocks) (plain_long_balance (sm_plain mk))
       (plain_short_balance (sm_plain mk)) (plain_trade_count (sm_plain mk)))).
  assert (Hmk1 : SmMoved mk nothing nothing mk1).
  { split; [done|by destruct Hwf|..|done]; intros tok; unfold recorded, pools_hold, nothing; simpl;
      [lia|]. unfold sm_market; simpl. rewrite Z.add_0_r. done. }
  apply (pools_moved mk1) in Hm as Hmv; [|apply Hmk1].
  pose proof (sm_moved_trans _ _ _ _ _ _ _ Hmk1 Hmv) as Ht.
  eapply sm_moved_eq; [exact Ht|..]; intros tok; unfold nothing; [done|].
  rewrite !held_change_plus, !held_change_at. simpl. by rewrite !pay_0.
Qed.

(** A swap takes the token in into the pools and the opposite token out of them. *)
Lemma swap_step_ok side token x prices mk mk' r :
  SmWf mk -> @prices_in_range u128 prices -> prices_ordered prices ->
  to_token_side (sm_meta mk) token = Ok side ->
  on_market (swap side x prices) mk = (mk', Ok r) ->
  SmMoved mk nothing
    (fun tok => pay token x tok
       - pay (if side then short_token_mint (sm_meta mk) else long_token_mint (sm_meta mk))
           (token_out_amount (swap_result r)) tok) mk'.
Proof.
  intros Hwf Hrange Hord Hside Hr. apply to_token_side_ok in Hside.
  apply on_swap_market_ok in Hr as (market & Hr & ->).
  apply swap_moves in Hr as (pin & pout & di & do & Hm & Hin & Hout); [|apply Hwf|done|done].
  apply pools_moved in Hm; [|done]. eapply sm_moved_eq; [exact Hm|done|]. intros tok. simpl.
  unfold held_change, swap_change. rewrite Hside, Hout, <- Hin. unfold pay.
  destruct side; simpl; destruct (tok =? long_token_mint _), (tok =? short_token_mint _); lia.
Qed.

Lemma oracle_prices_ok meta prices :
  oracle_prices oracle meta = Ok prices -> @prices_in_range u128 prices /\ prices_ordered prices.
Proof.
  intros Hp. unfold oracle_prices in Hp.
  destruct (market_prices_spec (index_token_mint meta) (long_token_mint meta) (short_token_mint meta)
    oracle Hgood) as (_ & _ & Hs).
  destruct (Hs prices Hp) as (Hi & Hl & Hsh).
  unfold sound_price, prices_in_range, price_in_range, prices_ordered, price_ordered, in_u in *.
  split_and!; lia.
Qed.

Lemma to_token_amount_ok amount a : to_token_amount amount = Ok a -> a = amount /\ @in_u u64 amount.
Proof. intros Ha%ok_or_ok. by apply try_u_some in Ha. Qed.

(** The three parts that every swap in a market has. *)
Lemma swap_in_ok token x token' x' side prices mk mk' r :
  SmWf mk -> to_token_side (sm_meta mk) token = Ok side -> oracle_prices oracle (sm_meta mk) = Ok prices ->
  on_market (swap side x prices) mk = (mk', Ok r) ->
  opposite_token (sm_meta mk) token = Ok token' ->
  to_token_amount (token_out_amount (swap_result r)) = Ok x' ->
  SmMoved mk nothing (fun tok => pay token x tok - pay token' x' tok) mk'.
Proof.
  intros Hwf Hside Hp Hr Hopp Hx. apply oracle_prices_ok in Hp as [Hrange Hord].
  apply to_token_amount_ok in Hx as [-> _]. rewrite (opposite_token_ok _ _ _ _ Hside Hopp).
  by apply (swap_step_ok _ _ _ _ _ _ _ Hwf Hrange Hord Hside Hr).
Qed.

Lemma swap_with_current_ok token x mk mk' out :
  SmWf mk -> swap_with_current oracle token x mk = (mk', Ok out) ->
  SmMoved mk nothing (fun tok => pay token x tok - pay (fst out) (snd out) tok) mk'.
Proof.
  intros Hwf Hr. unfold swap_with_current in Hr.
  apply sbind_ok in Hr as (? & side & [-> Hside%model_result_ok]%sread_ok & Hr).
  apply sbind_ok in Hr as (? & prices & [-> Hp]%sread_ok & Hr).
  apply sbind_ok in Hr as (mk1 & r & Hswap & Hr).
  apply sbind_ok in Hr as (? & x' & [-> Hx]%slift_ok & Hr).
  apply sbind_ok in Hr as (? & token' & [-> Hopp]%sread_ok & [-> ->]%sret_ok).
  assert (sm_meta mk1 = sm_meta mk) as Hmeta.
  { apply on_swap_market_ok in Hswap as (market & _ & ->). done. }
  rewrite Hmeta in Hopp. by apply (swap_in_ok _ _ _ _ _ _ _ _ _ Hwf Hside Hp Hswap Hopp Hx).
Qed.

(** What comes in by a record of the token in, and leaves by one of the token out. *)
Definition recorded_by (first last : bool) (token : Pubkey) (x : Z) (out : Pubkey * Z) : Pubkey -> Z :=
  fun tok => (if first then 0 else pay token x tok) - (if last then 0 else pay (fst out) (snd out) tok).

Lemma swap_at_ok first last token x mk mk' out :
  SmWf mk -> swap_at first last oracle token x mk = (mk', Ok out) ->
  SmMoved mk (recorded_by first last token x out)
    (fun tok => pay token x tok - pay (fst out) (snd out) tok) mk'
  /\ (last = false -> solvent mk').
Proof.
  intros Hwf Hr. unfold swap_at in Hr. apply sbind_ok in Hr as (mk1 & u & Hin & Hr).
  assert (Hin' : SmMoved mk (if first then nothing else pay token x) nothing mk1).
  { destruct first; [apply sret_ok in Hin as [-> _]; by apply sm_moved_refl|by apply record_in_ok in Hin]. }
  clear Hin. pose proof (sm_moved_meta _ _ _ _ Hin') as Hm1.
  apply sbind_ok in Hr as (? & side & [-> Hside%model_result_ok]%sread_ok & Hr).
  apply sbind_ok in Hr as (? & prices & [-> Hp]%sread_ok & Hr).
  apply sbind_ok in Hr as (mk2 & rb & Hb%borrowing_ok & Hr); [|apply Hin'].
  pose proof (sm_moved_meta _ _ _ _ Hb) as Hm2.
  apply sbind_ok in Hr as (mk3 & r & Hswap & Hr).
  apply sbind_ok in Hr as (? & token' & [-> Hopp]%sread_ok & Hr).
  apply sbind_ok in Hr as (? & x' & [-> Hx]%slift_ok & Hr).
  assert (sm_meta mk3 = sm_meta mk2) as Hm3.
  { apply on_swap_market_ok in Hswap as (market & _ & ->). done. }
  rewrite Hm3 in Hopp. rewrite <- Hm2 in Hside, Hp.
  apply (swap_in_ok _ _ _ _ _ _ _ _ _ (sm_moved_wf _ _ _ _ Hb) Hside Hp) with (1 := Hswap) (2 := Hopp) in Hx as Hs.
  pose proof (sm_moved_trans _ _ _ _ _ _ _ (sm_moved_trans _ _ _ _ _ _ _ Hin' Hb) Hs) as Hmv.
  apply sbind_ok in Hr as (mk4 & [] & Hout & [-> ->]%sret_ok). simpl.
  destruct last.
  - apply sret_ok in Hout as [-> _]. split; [|done]. eapply sm_moved_eq; [exact Hmv|..]; intros tok;
      unfold recorded_by, nothing; simpl; [|lia]. destruct first; unfold nothing; lia.
  - apply sbind_ok in Hout as (mk5 & u5 & Ho & [-> Hv]%sm_validate_ok).
    apply record_out_ok in Ho; [|apply Hmv]. pose proof (sm_moved_trans _ _ _ _ _ _ _ Hmv Ho) as Hmv'.
    split; [|done]. eapply sm_moved_eq; [exact Hmv'|..]; intros tok; unfold recorded_by, nothing; simpl;
      rewrite ?pay_opp; [|lia]. destruct first; unfold nothing; lia.
Qed.

(** *** Along a path *)

Lemma not_provided_not_ok {A} (a : A) : not_provided <> Ok a.
Proof. done. Qed.
Lemma must_exist_not_ok {A} (a : A) : must_exist <> Ok a.
Proof. done. Qed.

(** The market at the end of a path. *)
Definition end_of (path : list Pubkey) : gset Pubkey :=
  match last path with Some l => {[l]} | None => ∅ end.

Definition from_in_to_out (token : Pubkey) (x : Z) (out : Pubkey * Z) : Pubkey -> Z :=
  fun tok => pay token x tok - pay (fst out) (snd out) tok.

Lemma end_of_cons k path : path <> [] -> end_of (k :: path) = end_of path.
Proof. unfold end_of. by destruct path. Qed.

Lemma end_of_sub path : end_of path ⊆ list_to_set path.
Proof.
  unfold end_of. destruct (last path) as [l|] eqn:Hl; [|set_solver].
  apply last_Some in Hl as [p ->]. rewrite list_to_set_app. set_solver.
Qed.

(** All markets of a path but the last one are validated when they have been left. *)
Lemma swap_along_ok first path : forall token x s s' out,
  MarketsWf s -> swap_along first oracle path token x s = (s', Ok out) ->
  PathMoved s (match path with [] => nothing | _ => if first then nothing else pay token x end)
    (from_in_to_out token x out) (end_of path) (list_to_set path ∖ end_of path) s'.
Proof.
  revert first. induction path as [|k path IH]; intros first token x s s' out Hwf Hr.
  - apply sret_ok in Hr as [-> ->]. eapply path_moved_weaken; [by apply path_moved_refl|done| |done|done].
    intros tok. unfold nothing, from_in_to_out. simpl. lia.
  - simpl in Hr. apply sbind_ok in Hr as (s1 & out1 & Hhead & Hr).
    set (last_one := match path with [] => true | _ => false end) in *.
    apply (on_key_ok _ _ _ _ _ _ (recorded_by first last_one token x out1)
      (from_in_to_out token x out1) (negb last_one)) in Hhead; [|done|by apply not_provided_not_ok|].
    2:{ intros mk mk' Hmk Hat. apply swap_at_ok in Hat as [Hm Hv]; [|done]. split; [done|].
        intros Hl. apply Hv. by destruct last_one. }
    apply IH in Hr; [|apply Hhead]. pose proof (path_moved_trans _ _ _ _ _ _ _ _ _ _ _ Hhead Hr) as Hm.
    subst last_one. unfold recorded_by in Hm.
    eapply path_moved_weaken; [exact Hm|..].
    + intros tok. destruct path, first; unfold nothing; simpl; lia.
    + intros tok. unfold from_in_to_out. simpl. lia.
    + destruct path as [|k' path]; [simpl; set_solver|]. rewrite (end_of_cons k) by done. simpl. set_solver.
    + destruct path as [|k' path]; [simpl; unfold end_of; simpl; set_solver|].
      rewrite (end_of_cons k) by done. pose proof (end_of_sub (k' :: path)). simpl in *. set_solver.
Qed.

(** The steps between the current market and the others. *)
Lemma check_provided_ok k s s' u :
  MarketsWf s -> check_provided k s = (s', Ok u) -> s' = s /\ is_Some (markets s !! k).
Proof.
  intros Hwf Hr. apply on_key_run in Hr as (mk & mk' & Hk & [-> _]%sret_ok & ->); [|by apply not_provided_not_ok].
  split; [|eauto]. rewrite insert_id by done. by destruct s.
Qed.

Lemma current_out_ok token x s s' u :
  MarketsWf s -> current_out token x s = (s', Ok u) ->
  PathMoved s (pay token (- x)) nothing ∅ ∅ s' /\ markets s' = markets s.
Proof.
  intros Hwf. apply on_current_ok; [done|]. intros mk' Hr. by apply record_out_ok in Hr; [|apply Hwf].
Qed.

Lemma current_in_ok token x s s' u :
  MarketsWf s -> current_in token x s = (s', Ok u) ->
  PathMoved s (pay token x) nothing ∅ ∅ s' /\ markets s' = markets s.
Proof.
  intros Hwf. apply on_current_ok; [done|]. intros mk' Hr. by apply record_in_ok in Hr; [|apply Hwf].
Qed.

Lemma key_in_ok k token x s s' u :
  MarketsWf s -> on_key not_provided k (sm_record_in token x) s = (s', Ok u) ->
  PathMoved s (pay token x) nothing {[k]} ∅ s'.
Proof.
  intros Hwf Hr. apply (on_key_ok _ _ _ _ _ _ (pay token x) nothing false) in Hr; [done|done|by apply not_provided_not_ok|].
  intros mk mk' Hmk Ho. by apply record_in_ok in Ho.
Qed.

Lemma last_out_ok k token x s s' u :
  MarketsWf s -> last_out k token x s = (s', Ok u) -> PathMoved s (pay token (- x)) nothing ∅ {[k]} s'.
Proof.
  intros Hwf Hr. apply (on_key_ok _ _ _ _ _ _ (pay token (- x)) nothing true) in Hr; [done|done|by apply must_exist_not_ok|].
  intros mk mk' Hmk Ho. apply sbind_ok in Ho as (mk1 & u1 & Ho & [-> Hv]%sm_validate_ok).
  by apply record_out_ok in Ho.
Qed.

(** The last market of a path hands the token to the current one. *)
Lemma into_current_ok k token x s s' :
  MarketsWf s -> (do! _ := last_out k token x in current_in token x) s = (s', Ok tt) ->
  PathMoved s nothing nothing ∅ {[k]} s'.
Proof.
  intros Hwf Hr. apply sbind_ok in Hr as (s1 & u1 & Ho%last_out_ok & Hr); [|done].
  apply current_in_ok in Hr as [Hi _]; [|apply Ho].
  pose proof (path_moved_trans _ _ _ _ _ _ _ _ _ _ _ Ho Hi) as Hm.
  eapply path_moved_weaken; [exact Hm|..]; [|done|set_solver..].
  intros tok. cbv beta. rewrite pay_opp. unfold nothing. lia.
Qed.

Lemma current_swap_ok token x s s' out :
  MarketsWf s -> on_current (swap_with_current oracle token x) s = (s', Ok out) ->
  PathMoved s nothing (from_in_to_out token x out) ∅ ∅ s' /\ markets s' = markets s.
Proof.
  intros Hwf. apply on_current_ok; [done|]. intros mk' Hr. by apply swap_with_current_ok in Hr; [|apply Hwf].
Qed.

(** *** One side of a swap *)

(** Which market a side leaves unvalidated: the one the output stays in. *)
Definition output_of (direction : SwapDirection) (cur : Pubkey) (path : list Pubkey) : gset Pubkey :=
  if is_into direction then ∅ else end_of path ∖ {[cur]}.

Lemma last_split (path : list Pubkey) l :
  last path = Some l -> path = removelast path ++ [l].
Proof.
  intros Hl. rewrite (app_removelast_last l) at 1 by (by intros ->). f_equal. f_equal.
  apply last_Some in Hl as [p ->]. by rewrite List.last_last.
Qed.

(** The end of the path at the current market. *)
Lemma rest_at_current_ok direction path token x s s' out :
  MarketsWf s -> markets s !! current s = None -> last path = Some (current s) ->
  swap_rest direction oracle path (current s) token x s = (s', Ok out) ->
  PathMoved s nothing (from_in_to_out token x out) ∅ (list_to_set path) s'.
Proof.
  intros Hwf Hno Hl Hr. unfold swap_rest in Hr. apply sbind_ok in Hr as (? & ? & [-> [= <-]]%sread_ok & Hr).
  rewrite Z.eqb_refl, andb_false_r in Hr.
  apply sbind_ok in Hr as (s1 & out1 & Ha%swap_along_ok & Hr); [|done].
  apply sbind_ok in Hr as (s2 & out2 & Hc & Hr). apply sbind_ok in Hr as (? & ? & [-> _]%sret_ok & [-> ->]%sret_ok).
  apply sbind_ok in Hc as (s3 & [] & Hm & Hc).
  assert (Hm' : PathMoved s1 nothing nothing ∅ (end_of (removelast path)) s3).
  { unfold end_of. destruct (last (removelast path)); [by apply into_current_ok in Hm; [|apply Ha]|].
    apply sret_ok in Hm as [-> _]. apply path_moved_refl, Ha. }
  clear Hm. apply current_swap_ok in Hc as [Hc _]; [|apply Hm'].
  pose proof (path_moved_trans _ _ _ _ _ _ _ _ _ _ _ (path_moved_trans _ _ _ _ _ _ _ _ _ _ _ Ha Hm') Hc) as Hmv.
  apply (path_moved_absent _ _ _ _ _ _ _ Hno) in Hmv.
  eapply path_moved_weaken; [exact Hmv|..].
  - intros tok. unfold nothing, swap_along_the_path. destruct (removelast path); lia.
  - intros tok. unfold nothing, from_in_to_out. lia.
  - set_solver.
  - rewrite (last_split _ _ Hl) at 1. rewrite list_to_set_app. simpl.
    intros k Hk. destruct (decide (k ∈ end_of (removelast path))); set_solver.
Qed.

(** The end of the path elsewhere. *)
Lemma rest_elsewhere_ok direction path l token x s s' out :
  MarketsWf s -> last path = Some l -> l <> current s ->
  swap_rest direction oracle path l token x s = (s', Ok out) ->
  PathMoved s nothing (from_in_to_out token x out) (if is_into direction then ∅ else {[l]})
    (list_to_set path ∖ (if is_into direction then ∅ else {[l]})) s'.
Proof.
  intros Hwf Hl Hne Hr. unfold swap_rest in Hr. apply sbind_ok in Hr as (? & ? & [-> [= <-]]%sread_ok & Hr).
  apply Z.eqb_neq in Hne as Hneq. rewrite Hneq, andb_true_r in Hr.
  apply sbind_ok in Hr as (s1 & out1 & Ha%swap_along_ok & Hr); [|done].
  apply sbind_ok in Hr as (? & ? & [-> ->]%sret_ok & Hr). apply sbind_ok in Hr as (s2 & [] & Hm & [-> ->]%sret_ok).
  assert (He : end_of path = {[l]}) by (unfold end_of; by rewrite Hl). rewrite He in Ha.
  destruct (is_into direction).
  - apply into_current_ok in Hm; [|apply Ha]. pose proof (path_moved_trans _ _ _ _ _ _ _ _ _ _ _ Ha Hm) as Hmv.
    eapply path_moved_weaken; [exact Hmv|..].
    + intros tok. unfold nothing. destruct path; lia.
    + intros tok. unfold nothing, from_in_to_out. lia.
    + set_solver.
    + intros k Hk. destruct (decide (k ∈ ({[l]} : gset Pubkey))); set_solver.
  - apply sret_ok in Hm as [-> _]. eapply path_moved_weaken; [exact Ha|..]; [|done|done|done].
    intros tok. unfold nothing. by destruct path.
Qed.

Lemma swap_rest_ok direction path l token x s s' out :
  MarketsWf s -> markets s !! current s = None -> last path = Some l ->
  swap_rest direction oracle path l token x s = (s', Ok out) ->
  PathMoved s nothing (from_in_to_out token x out) (output_of direction (current s) path)
    (list_to_set path ∖ output_of direction (current s) path) s'.
Proof.
  intros Hwf Hno Hl Hr. unfold output_of. assert (He : end_of path = {[l]}) by (unfold end_of; by rewrite Hl).
  rewrite He. destruct (decide (l = current s)) as [->|Hne].
  - apply rest_at_current_ok in Hr; [|done..]. eapply path_moved_weaken; [exact Hr|done|done|set_solver..].
  - apply (rest_elsewhere_ok _ _ _ _ _ _ _ _ Hwf Hl Hne) in Hr.
    eapply path_moved_weaken; [exact Hr|done|done|destruct (is_into direction); set_solver..].
Qed.

(** The start of a path. *)
Lemma leave_current_ok direction first token x s s' u :
  MarketsWf s -> leave_current direction first token x s = (s', Ok u) ->
  PathMoved s nothing nothing (if first =? current s then ∅ else {[first]}) ∅ s'
  /\ (first = current s -> s' = s).
Proof.
  intros Hwf Hr. unfold leave_current in Hr. apply sbind_ok in Hr as (? & ? & [-> [= <-]]%sread_ok & Hr).
  destruct (Z.eqb_spec first (current s)) as [->|Hne].
  - rewrite andb_false_r in Hr. apply sret_ok in Hr as [-> _]. split; [by apply path_moved_refl|done].
  - split; [|done]. rewrite andb_true_r in Hr. destruct (negb (is_into direction)).
    + apply sbind_ok in Hr as (? & u1 & [-> _]%check_provided_ok & Hr); [|done].
      apply sbind_ok in Hr as (s1 & u2 & [Ho _]%current_out_ok & Hr); [|done].
      apply sbind_ok in Hr as (s2 & u3 & Hv & Hr).
      apply (on_current_ok _ _ _ _ nothing nothing) in Hv as [Hv _]; [|apply Ho|].
      2:{ intros mk' [-> _]%sread_ok. apply sm_moved_refl, Ho. }
      apply key_in_ok in Hr; [|apply Hv].
      pose proof (path_moved_trans _ _ _ _ _ _ _ _ _ _ _ (path_moved_trans _ _ _ _ _ _ _ _ _ _ _ Ho Hv) Hr) as Hm.
      eapply path_moved_weaken; [exact Hm|..]; [|done|set_solver..].
      intros tok. cbv beta. rewrite pay_opp. unfold nothing. lia.
    + apply sret_ok in Hr as [-> _]. eapply path_moved_weaken; [by apply path_moved_refl|done|done|set_solver..].
Qed.

Lemma first_at_current_ok first rest token x s s' cut :
  MarketsWf s -> first_at_current oracle first rest token x s = (s', Ok cut) ->
  (first <> current s /\ s' = s /\ cut = (first :: rest, (token, x))) \/
  (first = current s /\ fst cut = rest /\
   PathMoved s nothing (from_in_to_out token x (snd cut))
     (match rest with [] => ∅ | next :: _ => {[next]} end) ∅ s').
Proof.
  intros Hwf Hr. unfold first_at_current in Hr. apply sbind_ok in Hr as (? & ? & [-> [= <-]]%sread_ok & Hr).
  destruct (Z.eqb_spec first (current s)) as [->|Hne].
  - right. split; [done|]. apply sbind_ok in Hr as (s1 & out & [Hc _]%current_swap_ok & Hr); [|done].
    apply sbind_ok in Hr as (s2 & u & Hm & [-> ->]%sret_ok). split; [done|]. simpl.
    destruct rest as [|next rest]; [by apply sret_ok in Hm as [-> _]|].
    apply sbind_ok in Hm as (? & u1 & [-> _]%check_provided_ok & Hm); [|apply Hc].
    apply sbind_ok in Hm as (s3 & u2 & [Ho _]%current_out_ok & Hm); [|apply Hc].
    apply key_in_ok in Hm; [|apply Ho].
    pose proof (path_moved_trans _ _ _ _ _ _ _ _ _ _ _ (path_moved_trans _ _ _ _ _ _ _ _ _ _ _ Hc Ho) Hm) as Hmv.
    eapply path_moved_weaken; [exact Hmv|..]; [| |set_solver..]; intros tok; cbv beta;
      rewrite ?pay_opp; unfold nothing; lia.
  - left. apply sret_ok in Hr as [-> ->]. done.
Qed.

(** The path that is left after its start, with the market that the token has come to. *)
Lemma path_run_ok direction first rest token x s s' out :
  MarketsWf s -> markets s !! current s = None ->
  (do! _ := leave_current direction first token x in
   do! cut := first_at_current oracle first rest token x in
   match last (fst cut) with
   | None => sret (snd cut)
   | Some l => swap_rest direction oracle (fst cut) l (fst (snd cut)) (snd (snd cut))
   end) s = (s', Ok out) ->
  PathMoved s nothing (from_in_to_out token x out) (output_of direction (current s) (first :: rest)) ∅ s'.
Proof.
  intros Hwf Hno Hr. apply sbind_ok in Hr as (s1 & u & [Hl He]%leave_current_ok & Hr); [|done].
  pose proof (pm_current _ _ _ _ _ _ Hl) as Hc1. apply (pm_keys _ _ _ _ _ _ _ Hl) in Hno as Hno1.
  apply sbind_ok in Hr as (s2 & cut & Hcut & Hr).
  apply first_at_current_ok in Hcut; [|apply Hl].
  destruct Hcut as [(Hne & -> & ->)|(Heq & Hrest & Hcut)]; rewrite Hc1 in *.
  - simpl in Hr. apply Z.eqb_neq in Hne. rewrite Hne in Hl.
    destruct (last (first :: rest)) as [l|] eqn:Hlast; [|by apply last_None in Hlast].
    apply (swap_rest_ok direction (first :: rest)) in Hr; [|apply Hl|congruence|done]. rewrite Hc1 in Hr.
    pose proof (path_moved_trans _ _ _ _ _ _ _ _ _ _ _ Hl Hr) as Hm.
    eapply path_moved_weaken; [exact Hm|done|done| |set_solver].
    simpl. intros k Hk. destruct (decide (k ∈ output_of direction (current s) (first :: rest))); set_solver.
  - rewrite (He Heq) in *. clear Hl Hc1 Hno1. rewrite Hrest in Hr. destruct rest as [|next rest].
    + apply sret_ok in Hr as [-> ->]. eapply path_moved_weaken; [exact Hcut|done|done|set_solver..].
    + pose proof (pm_current _ _ _ _ _ _ Hcut) as Hc2. apply (pm_keys _ _ _ _ _ _ _ Hcut) in Hno as Hno2.
      rewrite <- Hc2 in Hno2.
      destruct (last (next :: rest)) as [l|] eqn:Hlast; [|by apply last_None in Hlast].
      apply (swap_rest_ok direction (next :: rest)) in Hr; [|apply Hcut|done|done]. rewrite Hc2 in Hr.
      pose proof (path_moved_trans _ _ _ _ _ _ _ _ _ _ _ Hcut Hr) as Hm.
      eapply path_moved_weaken; [exact Hm|done| | |set_solver].
      * intros tok. unfold from_in_to_out. lia.
      * unfold output_of. rewrite (end_of_cons first) by done. fold (output_of direction (current s) (next :: rest)).
        simpl. intros k Hk. destruct (decide (k ∈ output_of direction (current s) (next :: rest))); set_solver.
Qed.

Lemma one_side_ok direction path expected token x s s' x' :
  MarketsWf s -> revertible_swap_for_one_side direction oracle path expected token x s = (s', Ok x') ->
  PathMoved s nothing (fun tok => pay token x tok - pay expected x' tok)
    (output_of direction (current s) path) ∅ s'.
Proof.
  intros Hwf Hr. unfold revertible_swap_for_one_side in Hr.
  apply sbind_ok in Hr as (? & u & [-> Hno]%sread_ok & Hr).
  apply sbind_ok in Hr as (s1 & out & Hout & Hr). apply sbind_ok in Hr as (? & u' & [-> Hexp]%slift_ok & [-> ->]%sret_ok).
  apply require_ok, Z.eqb_eq in Hexp as <-.
  assert (markets s !! current s = None) as Hno' by (by destruct (markets s !! current s)).
  destruct path as [|first rest]; [|by apply path_run_ok in Hout].
  apply sret_ok in Hout as [-> ->]. eapply path_moved_weaken; [by apply path_moved_refl|done| |set_solver..].
  intros tok. unfold nothing. simpl. lia.
Qed.

(** *** Token amounts are [u64] *)

(** What a run yields when it succeeds. *)
Definition Yields {St A} (m : ST St StoreError A) (Q : A -> Prop) : Prop :=
  forall (x x' : St) a, m x = (x', Ok a) -> Q a.

Lemma yields_bind {St A C} (m : ST St StoreError A) (k : A -> ST St StoreError C) Q Q' :
  Yields m Q -> (forall a, Q a -> Yields (k a) Q') -> Yields (sbind m k) Q'.
Proof. intros Hm Hk x x' c Hr. apply sbind_ok in Hr as (x1 & a & Ha%Hm & Hr). by apply (Hk a Ha) in Hr. Qed.

Lemma yields_any {St A} (m : ST St StoreError A) : Yields m (fun _ => True).
Proof. done. Qed.

Lemma yields_ret {St A} (a : A) (Q : A -> Prop) : Q a -> Yields (sret a : ST St StoreError A) Q.
Proof. intros Ha x x' a' [-> ->]%sret_ok. done. Qed.

Definition amount_u64 (out : Pubkey * Z) : Prop := @in_u u64 (snd out).

Lemma on_current_yields {A} (m : SM A) Q : Yields m Q -> Yields (on_current (T := T) m) Q.
Proof. intros Hm s s' a Hr. apply szoom_ok in Hr as (mk & Hr%Hm & _). done. Qed.

Lemma on_key_yields {A} missing k (m : SM A) Q :
  (forall a, missing <> Ok a) -> Yields m Q -> Yields (on_key (T := T) missing k m) Q.
Proof. intros Hn Hm s s' a Hr. apply on_key_run in Hr as (mk & mk' & _ & Hr%Hm & _); done. Qed.

Lemma swap_at_yields first last token x : Yields (swap_at (T := T) first last oracle token x) amount_u64.
Proof.
  intros mk mk' out Hr. unfold swap_at in Hr. do 6 (apply sbind_ok in Hr as (? & ? & _ & Hr)).
  apply sbind_ok in Hr as (? & x' & [_ Hx]%slift_ok & Hr). apply to_token_amount_ok in Hx as [-> Hu].
  apply sbind_ok in Hr as (? & ? & _ & [_ ->]%sret_ok). done.
Qed.

Lemma swap_with_current_yields token x : Yields (swap_with_current (T := T) oracle token x) amount_u64.
Proof.
  intros mk mk' out Hr. unfold swap_with_current in Hr. do 3 (apply sbind_ok in Hr as (? & ? & _ & Hr)).
  apply sbind_ok in Hr as (? & x' & [_ Hx]%slift_ok & Hr). apply to_token_amount_ok in Hx as [-> Hu].
  apply sbind_ok in Hr as (? & ? & _ & [_ ->]%sret_ok). done.
Qed.

Lemma swap_along_yields path : forall first token x,
  @in_u u64 x -> Yields (swap_along (T := T) first oracle path token x) amount_u64.
Proof.
  induction path as [|k path IH]; intros first token x Hx; [by apply yields_ret|].
  eapply yields_bind; [apply on_key_yields; [by apply not_provided_not_ok|apply swap_at_yields]|].
  intros out Hout. by apply IH.
Qed.

Lemma swap_rest_yields direction path l token x :
  @in_u u64 x -> Yields (swap_rest (T := T) direction oracle path l token x) amount_u64.
Proof.
  intros Hx. eapply yields_bind; [apply yields_any|]. intros cur _.
  eapply yields_bind; [by apply swap_along_yields|]. intros out Hout.
  apply yields_bind with (Q := amount_u64).
  - case_if E; [|by apply yields_ret]. eapply yields_bind; [apply yields_any|]. intros _ _.
    apply on_current_yields, swap_with_current_yields.
  - intros out' Hout'. eapply yields_bind; [apply yields_any|]. intros _ _. by apply yields_ret.
Qed.

Lemma one_side_yields direction path expected token x :
  @in_u u64 x ->
  Yields (revertible_swap_for_one_side (T := T) direction oracle path expected token x) (@in_u u64).
Proof.
  intros Hx. eapply yields_bind; [apply yields_any|]. intros _ _.
  apply yields_bind with (Q := amount_u64).
  - destruct path as [|first rest]; [by apply yields_ret|].
    eapply yields_bind; [apply yields_any|]. intros _ _.
    apply yields_bind with (Q := fun cut => amount_u64 (snd cut)).
    + eapply yields_bind; [apply yields_any|]. intros cur _. case_if E; [|by apply yields_ret].
      eapply yields_bind; [apply on_current_yields, swap_with_current_yields|]. intros out Hout.
      eapply yields_bind; [apply yields_any|]. intros _ _. by apply yields_ret.
    + intros cut Hcut. destruct (last (fst cut)); [by apply swap_rest_yields|by apply yields_ret].
  - intros out Hout. eapply yields_bind; [apply yields_any|]. intros _ _. by apply yields_ret.
Qed.

Lemma swap_side_yields direction path expected token x :
  @in_u u64 x -> Yields (swap_side (T := T) direction oracle path expected token x) (@in_u u64).
Proof.
  intros Hx. assert (@in_u u64 0) by by vm_compute.
  unfold swap_side. destruct token; [|by apply yields_ret].
  case_if E; [by apply yields_ret|by apply one_side_yields].
Qed.

(** The outputs of a swap are token amounts. *)
Lemma revertible_swap_u64 direction params outs ins amounts s s' out :
  @in_u u64 (fst amounts) -> @in_u u64 (snd amounts) ->
  revertible_swap (T := T) direction oracle params outs ins amounts s = (s', Ok out) ->
  @in_u u64 (fst out) /\ @in_u u64 (snd out).
Proof.
  intros Hl Hs Hr. unfold revertible_swap in Hr. apply sbind_ok in Hr as (? & ? & _ & Hr).
  apply sbind_ok in Hr as (? & lo & Hlo%swap_side_yields & Hr); [|done].
  apply sbind_ok in Hr as (? & ? & _ & Hr).
  apply sbind_ok in Hr as (? & so & Hso%swap_side_yields & Hr); [|done].
  do 3 (apply sbind_ok in Hr as (? & ? & _ & Hr)). by apply sret_ok in Hr as [_ ->].
Qed.

(** What a side takes in and gives out. *)
Definition side_in (token : option Pubkey) (x : Z) : Pubkey -> Z :=
  match token with Some token => pay token x | None => nothing end.

Lemma swap_side_ok direction path expected token x s s' x' :
  MarketsWf s -> swap_side direction oracle path expected token x s = (s', Ok x') ->
  PathMoved s nothing (fun tok => side_in token x tok - pay expected x' tok)
    (output_of direction (current s) path) ∅ s'.
Proof.
  intros Hwf Hr. unfold swap_side in Hr.
  assert (Hnone : MarketsWf s -> (s, Ok 0) = (s', Ok x' : store_result Z) ->
    PathMoved s nothing (fun tok => - pay expected x' tok) (output_of direction (current s) path) ∅ s').
  { intros _ [= <- <-]. eapply path_moved_weaken; [by apply path_moved_refl|done| |set_solver..].
    intros tok. rewrite pay_0. done. }
  destruct token as [token|]; [|by apply Hnone].
  destruct (Z.eqb_spec x 0) as [->|Hx]; [|by apply one_side_ok].
  eapply path_moved_weaken; [by apply Hnone|done| |done..]. intros tok. simpl. rewrite pay_0. lia.
Qed.

(** *** Both sides *)

(** A market that is validated with amounts left out is validated without. *)
Lemma add_excluding_in_u (v : BalanceView T) a token x a' :
  @in_u u64 (fst a) /\ @in_u u64 (snd a) -> add_excluding v a token x = Ok a' ->
  @in_u u64 (fst a') /\ @in_u u64 (snd a').
Proof.
  intros [Hl Hs] Ha. unfold add_excluding in Ha. case_if_in Ha Hx; [by injection Ha as <-|].
  apply rbind_ok in Ha as ([] & _ & Ha); apply rbind_ok in Ha as (y & Hy & [= <-]);
    apply ok_or_ok, uadd_some in Hy as [-> ?]; done.
Qed.

Lemma excluding_solvent mk t1 t2 x1 x2 :
  SmWf mk ->
  validate_market_balances_excluding_the_given_token_amounts (sm_view mk) t1 t2 x1 x2 = Ok tt -> solvent mk.
Proof.
  intros Hwf Hv. unfold validate_market_balances_excluding_the_given_token_amounts in Hv.
  apply rbind_ok in Hv as (a & Ha & Hv). apply add_excluding_in_u in Ha; [|by split; vm_compute].
  apply rbind_ok in Hv as (a' & Ha' & Hv). apply add_excluding_in_u in Ha'; [|done].
  destruct Ha' as [[Hl _] [Hs _]]. pose proof (sm_view_wf _ Hwf) as Hview.
  apply validate_market_balances_iff in Hv; [|done..]. apply validate_market_balances_iff; [done|lia|lia|].
  unfold covered in *. destruct (view_is_pure (sm_view mk)); [lia|]. destruct Hv as [H1' H2']. split; lia.
Qed.

(** The market of a key, the current one included. *)
Definition market_at s (key : Pubkey) : option (SwapMarket T) :=
  if key =? current s then Some (current_market s) else markets s !! key.

(** The market of [key] can pay the amounts out and still covers its pools and collateral. *)
Definition can_pay s (key t1 t2 : Pubkey) (x1 x2 : Z) : Prop :=
  exists mk, market_at s key = Some mk /\
    validate_market_balances_excluding_the_given_token_amounts (sm_view mk) t1 t2 x1 x2 = Ok tt.

Lemma validate_output_ok key t1 t2 x1 x2 v s s' v' :
  validate_output key t1 t2 x1 x2 v s = (s', Ok v') ->
  s' = s /\ can_pay s key t1 t2 x1 x2 /\ v' = (v || (key =? current s)).
Proof.
  intros Hr. unfold validate_output in Hr. apply sbind_ok in Hr as (? & ? & [-> [= <-]]%sread_ok & Hr).
  unfold can_pay, market_at. destruct (Z.eqb_spec key (current s)) as [->|Hne]; simpl in Hr.
  - apply sbind_ok in Hr as (s1 & u & Hc & [-> ->]%sret_ok). apply szoom_ok in Hc as (mk & Hc & ->).
    apply sread_ok in Hc as [-> Hv%model_result_ok]. rewrite orb_true_r.
    split; [by destruct s|]. split; [|done]. destruct u. eauto.
  - apply sbind_ok in Hr as (s1 & u & Hc & [-> ->]%sret_ok).
    apply on_key_run in Hc as (mk & mk' & Hk & Hc & ->); [|by apply must_exist_not_ok].
    apply sread_ok in Hc as [-> Hv%model_result_ok]. rewrite orb_false_r.
    rewrite insert_id by done. split; [by destruct s|]. split; [|done]. destruct u. eauto.
Qed.

Lemma can_pay_solvent s key t1 t2 x1 x2 mk :
  MarketsWf s -> can_pay s key t1 t2 x1 x2 -> market_at s key = Some mk -> solvent mk.
Proof.
  intros [Hc Hms] (mk' & Hk & Hv) Hmk. rewrite Hmk in Hk. injection Hk as <-.
  eapply excluding_solvent; [|exact Hv]. unfold market_at in Hmk.
  destruct (key =? current s); [by injection Hmk as <-|by eapply Hms].
Qed.

(** The market that an output stays in. *)
Definition output_market (direction : SwapDirection) (cur : Pubkey) (path : list Pubkey) : Pubkey :=
  if is_into direction then cur else default cur (last path).

Lemma output_of_market direction cur path k :
  k ∈ output_of direction cur path -> k = output_market direction cur path /\ k <> cur.
Proof.
  unfold output_of, output_market, end_of. destruct (is_into direction); [set_solver|].
  destruct (last path); simpl; set_solver.
Qed.

(** The run as its two sides, and what is validated after them. *)
Lemma revertible_swap_ok direction params outs ins amounts s s' out :
  MarketsWf s -> revertible_swap direction oracle params outs ins amounts s = (s', Ok out) ->
  exists long_path short_path,
    PathMoved s nothing
      (fun tok => (side_in (fst ins) (fst amounts) tok - pay (fst outs) (fst out) tok)
                  + (side_in (snd ins) (snd amounts) tok - pay (snd outs) (snd out) tok))
      (output_of direction (current s) long_path ∪ output_of direction (current s) short_path) ∅ s'
    /\ validated_primary_swap_path params = Ok long_path
    /\ validated_secondary_swap_path params = Ok short_path
    /\ (let long_market := output_market direction (current s) long_path in
        let short_market := output_market direction (current s) short_path in
        if long_market =? short_market then
          can_pay s' long_market (fst outs) (snd outs) (fst out) (snd out)
        else can_pay s' long_market (fst outs) (fst outs) (fst out) 0
             /\ can_pay s' short_market (snd outs) (snd outs) (snd out) 0)
    /\ solvent (current_market s').
Proof.
  intros Hwf Hr. unfold revertible_swap in Hr.
  apply sbind_ok in Hr as (? & long_path & [-> Hlong]%slift_ok & Hr).
  apply sbind_ok in Hr as (s1 & long_out & H1'%swap_side_ok & Hr); [|done..].
  apply sbind_ok in Hr as (? & short_path & [-> Hshort]%slift_ok & Hr).
  apply sbind_ok in Hr as (s2 & short_out & H2'%swap_side_ok & Hr); [|apply H1'].
  rewrite (pm_current _ _ _ _ _ _ H1') in H2'.
  pose proof (path_moved_trans _ _ _ _ _ _ _ _ _ _ _ H1' H2') as Hm.
  pose proof (pm_current _ _ _ _ _ _ Hm) as Hc.
  apply sbind_ok in Hr as (? & ? & [-> [= <-]]%sread_ok & Hr). rewrite Hc in Hr.
  fold (output_market direction (current s) long_path) in Hr.
  fold (output_market direction (current s) short_path) in Hr.
  apply sbind_ok in Hr as (s3 & v & Hv & Hr). apply sbind_ok in Hr as (s4 & u & Hcur & [-> ->]%sret_ok).
  exists long_path, short_path. simpl in *.
  set (lm := output_market direction (current s) long_path) in *.
  set (sm := output_market direction (current s) short_path) in *.
  assert (Hout : s3 = s2 /\
    (if lm =? sm then can_pay s2 lm (fst outs) (snd outs) long_out short_out
     else can_pay s2 lm (fst outs) (fst outs) long_out 0 /\ can_pay s2 sm (snd outs) (snd outs) short_out 0)
    /\ (v = true -> solvent (current_market s2))).
  { assert (Hcs : forall key t1 t2 x1 x2, can_pay s2 key t1 t2 x1 x2 -> key = current s2 -> solvent (current_market s2)).
    { intros key t1 t2 x1 x2 Hp ->. eapply can_pay_solvent; [apply Hm|exact Hp|]. unfold market_at. by rewrite Z.eqb_refl. }
    destruct (lm =? sm).
    - apply validate_output_ok in Hv as (-> & Hp & ->). split_and!; [done|done|]. intros Hb%Z.eqb_eq. eauto.
    - apply sbind_ok in Hv as (s5 & v1 & Hv1 & Hv). apply validate_output_ok in Hv1 as (-> & Hp1 & ->).
      apply validate_output_ok in Hv as (-> & Hp2 & ->). split_and!; [done..|].
      intros [Hb%Z.eqb_eq|Hb%Z.eqb_eq]%orb_true_iff; eauto. }
  destruct Hout as (-> & Hpay & Hsol).
  assert (s4 = s2 /\ solvent (current_market s2)) as [-> Hs].
  { destruct v; [apply sret_ok in Hcur as [-> _]; by split; [|apply Hsol]|].
    apply szoom_ok in Hcur as (mk & [-> Hval]%sm_validate_ok & ->). by destruct s2. }
  split_and!; try done. eapply path_moved_weaken; [exact Hm| |done|set_solver..].
  intros tok. unfold nothing. lia.
Qed.

(** C16: routing a swap over markets neither creates nor loses tokens. Whatever the two paths and
    whether the swap starts from or goes into the current market, for every token: what all
    markets together have recorded does not change, and what their pools together hold grows by
    exactly what comes in on the two sides and shrinks by exactly the two outputs, in the
    expected tokens. All markets stay well formed. *)
Theorem revertible_swap_conserves direction params outs ins amounts s s' long_out short_out :
  MarketsWf s ->
  revertible_swap direction oracle params outs ins amounts s = (s', Ok (long_out, short_out)) ->
  MarketsWf s' /\
  forall tok,
    total (fun mk => recorded mk tok) s' = total (fun mk => recorded mk tok) s
    /\ total (fun mk => pools_hold mk tok) s' =
       total (fun mk => pools_hold mk tok) s
       + side_in (fst ins) (fst amounts) tok + side_in (snd ins) (snd amounts) tok
       - pay (fst outs) long_out tok - pay (snd outs) short_out tok.
Proof.
  intros Hwf Hr. apply revertible_swap_ok in Hr as (? & ? & Hm & _); [|done].
  split; [apply Hm|]. intros tok. rewrite (pm_recorded _ _ _ _ _ _ Hm), (pm_held _ _ _ _ _ _ Hm).
  unfold nothing. simpl. lia.
Qed.

(** The run validates the markets that the outputs stay in as well. *)
Lemma revertible_swap_kept direction params outs ins amounts s s' out :
  MarketsWf s ->
  revertible_swap direction oracle params outs ins amounts s = (s', Ok out) ->
  solvent (current_market s')
  /\ (forall k mk, markets s' !! k = Some mk -> solvent mk \/ markets s !! k = Some mk)
  /\ exists long_path short_path,
       validated_primary_swap_path params = Ok long_path
       /\ validated_secondary_swap_path params = Ok short_path
       /\ let long_market := output_market direction (current s) long_path in
          let short_market := output_market direction (current s) short_path in
          if long_market =? short_market then
            can_pay s' long_market (fst outs) (snd outs) (fst out) (snd out)
          else can_pay s' long_market (fst outs) (fst outs) (fst out) 0
               /\ can_pay s' short_market (snd outs) (snd outs) (snd out) 0.
Proof.
  intros Hwf Hr. apply revertible_swap_ok in Hr as (lp & sp & Hm & Hlp & Hsp & Hpay & Hcur); [|done].
  split; [done|]. split; [|by exists lp, sp]. intros k mk Hk.
  pose proof (pm_wf _ _ _ _ _ _ Hm) as Hwf'. pose proof (pm_current _ _ _ _ _ _ Hm) as Hc.
  destruct (decide (k ∈ output_of direction (current s) lp ∪ output_of direction (current s) sp)) as [Hin|Hn];
    [left|by apply (pm_kept _ _ _ _ _ _ Hm k mk Hk)].
  assert (Hat : k <> current s -> market_at s' k = Some mk).
  { intros Hne. unfold market_at. rewrite Hc. apply Z.eqb_neq in Hne. by rewrite Hne. }
  cbv zeta in Hpay. set (lm := output_market direction (current s) lp) in *.
  set (sm := output_market direction (current s) sp) in *.
  assert (exists t1 t2 x1 x2, can_pay s' k t1 t2 x1 x2) as (t1 & t2 & x1 & x2 & Hp).
  { apply elem_of_union in Hin as [[-> _]%output_of_market|[-> _]%output_of_market];
      destruct (Z.eqb_spec lm sm) as [Heq|_]; subst lm sm; rewrite <- ?Heq; eauto; destruct Hpay; eauto. }
  eapply can_pay_solvent; [done|exact Hp|]. apply Hat.
  by apply elem_of_union in Hin as [[_ Hne]%output_of_market|[_ Hne]%output_of_market].
Qed.
(** A swap over markets leaves no market short. After a successful swap every market that was
    touched, and the current one always, has a recorded balance that covers its pools and its
    collateral; and the markets that the outputs stay in (the current one when the swap goes into
    it, else the last of each path) still do so when the outputs are left out, so the outputs
    can be paid. *)
Theorem revertible_swap_leaves_solvent direction params outs ins amounts s s' out :
  MarketsWf s ->
  revertible_swap direction oracle params outs ins amounts s = (s', Ok out) ->
  solvent (current_market s')
  /\ (forall k mk, markets s' !! k = Some mk -> solvent mk \/ markets s !! k = Some mk)
  /\ exists long_path short_path,
       validated_primary_swap_path params = Ok long_path
       /\ validated_secondary_swap_path params = Ok short_path
       /\ let long_market := output_market direction (current s) long_path in
          let short_market := output_market direction (current s) short_path in
          if long_market =? short_market then
            can_pay s' long_market (fst outs) (snd outs) (fst out) (snd out)
          else can_pay s' long_market (fst outs) (fst outs) (fst out) 0
               /\ can_pay s' short_market (snd outs) (snd outs) (snd out) 0.
Proof. apply revertible_swap_kept. Qed.
End Steps.

(** ** Setting up a swap *)
Section Setup.
Local Existing Instance u128.
Context {T : Type} {S : SupplyOps T} {SL : SupplyLaws T}.
Implicit Types (loader : MarketLoader (T:=T)) (self : SwapActionParams).

(** The token that a path of markets turns [token] into, if it can. *)
Fixpoint routed (token : Pubkey) (path : list MarketMeta) : option Pubkey :=
  match path with
  | [] => Some token
  | meta :: path =>
      match opposite_token meta token with Ok token => routed token path | _ => None end
  end.

Definition mints_of (metas : list MarketMeta) : list Pubkey := market_token_mint <$> metas.

Lemma market_validate_ok loader store u :
  market_validate loader store = Ok u -> store = loader_store loader /\ loader_is_enabled loader = true.
Proof.
  intros Hv. apply rbind_ok in Hv as (u1 & H1%require_ok%Z.eqb_eq & H2%require_ok). done.
Qed.

Lemma validate_path_ok path : forall tokens seen store token_in token_out tokens' path',
  validate_path tokens seen path store token_in token_out = Ok (tokens', path') ->
  path' = mints_of (loader_meta <$> path)
  /\ routed token_in (loader_meta <$> path) = Some token_out
  /\ NoDup (loader_key <$> path) /\ (forall loader, loader ∈ path -> loader_key loader ∉ seen)
  /\ (forall loader, loader ∈ path -> loader_store loader = store /\ loader_is_enabled loader = true)
  /\ (forall tok, tok ∈ tokens' <->
        tok ∈ tokens \/ exists loader, loader ∈ path /\ tok ∈ ordered_tokens (loader_meta loader)).
Proof.
  induction path as [|loader path IH]; intros tokens seen store token_in token_out tokens' path' Hv; simpl in Hv.
  - apply rbind_ok in Hv as (u & ->%require_ok%Z.eqb_eq & [= <- <-]).
    split_and!; [done|done|constructor|set_solver..].
  - apply rbind_ok in Hv as (u1 & Hseen & Hv). apply require_ok, negb_true_iff, bool_decide_eq_false in Hseen.
    apply rbind_ok in Hv as (meta & Hmeta & Hv). apply rbind_ok in Hmeta as (u2 & Hval%market_validate_ok & [= <-]).
    apply rbind_ok in Hv as (token & Htoken & Hv). apply rbind_ok in Hv as ([tokens1 path1] & Hrest & [= <- <-]).
    apply IH in Hrest as (-> & Hrouted & Hnd & Hnotin & Hall & Htokens). simpl.
    assert (Hopp : opposite_token (loader_meta loader) token_in = Ok token).
    { unfold opposite_token. destruct (token_in =? _); [congruence|]. destruct (token_in =? _); congruence. }
    rewrite Hopp. split_and!; [done|done| |..].
    + constructor; [|done]. intros (l' & Hk & Hl')%list_elem_of_fmap. apply Hnotin in Hl' as Hn.
      rewrite Hk in Hn. apply Hn, elem_of_union_l, elem_of_singleton. done.
    + intros l' [->|Hl']%elem_of_cons; [done|]. apply Hnotin in Hl' as Hn.
      intros Hin. by apply Hn, elem_of_union_r.
    + intros l' [->|Hl']%elem_of_cons; [naive_solver|by apply Hall].
    + intros tok. rewrite Htokens, elem_of_union. setoid_rewrite elem_of_cons. naive_solver.
Qed.

Lemma all_unseen_spec xs : forall seen : gset Pubkey,
  all_unseen seen xs = true <-> NoDup xs /\ forall x, x ∈ xs -> x ∉ seen.
Proof.
  induction xs as [|x xs IH]; intros seen; simpl.
  - split; [|done]. intros _. split; [constructor|set_solver].
  - rewrite andb_true_iff, negb_true_iff, bool_decide_eq_false, IH, NoDup_cons. set_solver.
Qed.

Lemma validated_path_ok path : NoDup path -> validated_path (Ok path) = Ok path.
Proof.
  intros Hnd. unfold validated_path, rbind, require.
  rewrite (proj2 (all_unseen_spec path ∅)); [done|]. split; [done|set_solver].
Qed.

(** Keys are derived from the mints of the market tokens, so the mints differ as the keys do. *)
Lemma mints_nodup (address : Pubkey -> Pubkey) path :
  (forall loader, loader ∈ path -> loader_key loader = address (market_token_mint (loader_meta loader))) ->
  NoDup (loader_key <$> path) -> NoDup (mints_of (loader_meta <$> path)).
Proof.
  unfold mints_of. induction path as [|loader path IH]; intros Hk Hnd; [constructor|]. simpl in *.
  apply NoDup_cons in Hnd as [Hn Hnd]. constructor.
  - intros (m & Hm & (l & -> & Hl)%list_elem_of_fmap)%list_elem_of_fmap. apply Hn. apply list_elem_of_fmap.
    exists l. split; [|done]. rewrite !Hk by (apply elem_of_cons; auto). by rewrite Hm.
  - apply IH; [|done]. intros l Hl. apply Hk, elem_of_cons. auto.
Qed.

Lemma slice_front xs ys array :
  (length xs + length ys <= length array)%nat ->
  slice (write_front (xs ++ ys) array) 0 (Z.of_nat (length xs)) = Ok xs
  /\ slice (write_front (xs ++ ys) array) (Z.of_nat (length xs))
       (Z.of_nat (length xs) + Z.of_nat (length ys)) = Ok ys.
Proof.
  intros Hlen. unfold slice, write_front.
  rewrite length_app, length_drop, length_app. rewrite !(proj2 (Z.leb_le _ _)) by lia. simpl. split; f_equal.
  - rewrite Z.sub_0_r, Nat2Z.id, <- app_assoc. by apply take_app_length.
  - rewrite Z.add_simpl_l, !Nat2Z.id, <- app_assoc, drop_app_length. by apply take_app_length.
Qed.

Lemma stored_paths_ok primary secondary array n cur toks :
  (length primary + length secondary <= length array)%nat -> NoDup primary -> NoDup secondary ->
  let self := mkSwapActionParams (Z.of_nat (length primary)) (Z.of_nat (length secondary)) n cur
                (write_front (primary ++ secondary) array) toks in
  validated_primary_swap_path self = Ok primary /\ validated_secondary_swap_path self = Ok secondary.
Proof.
  intros Hlen H1 H2. destruct (slice_front _ _ _ Hlen) as [Hs1 Hs2].
  unfold validated_primary_swap_path, validated_secondary_swap_path, primary_swap_path, secondary_swap_path.
  simpl. rewrite Hs1, Hs2. split; by apply validated_path_ok.
Qed.

(** The tokens that are stored. *)
Lemma stored_tokens_ok (tokens : gset Pubkey) array tok :
  tok ∈ take (size tokens) (write_front (sorted tokens) array) <-> tok ∈ tokens.
Proof.
  assert (length (sorted tokens) = size tokens) as <- by (unfold sorted; by rewrite merge_sort_Permutation).
  unfold write_front. rewrite take_app_length. unfold sorted.
  by rewrite merge_sort_Permutation, elem_of_elements.
Qed.

(** A swap action that was accepted has paths that can be run. Both stored paths read back
    as the market tokens of the given accounts, without repetition, at most ten in all; every
    market on them is enabled and of this store, and following them turns each token in into
    its token out; and the stored tokens, at most twenty-five, are exactly the tokens of the
    current market and of the markets on the paths. *)
Theorem validate_and_init_spec (address : Pubkey -> Pubkey) current_market primary_length secondary_length
    paths_info store token_ins token_outs self self' :
  length (paths self) = MAX_STEPS -> 0 <= primary_length -> 0 <= secondary_length ->
  (forall loader, loader ∈ paths_info -> loader_key loader = address (market_token_mint (loader_meta loader))) ->
  validate_and_init current_market primary_length secondary_length paths_info store token_ins token_outs self
    = Ok self' ->
  exists primary secondary rest,
    paths_info = primary ++ secondary ++ rest
    /\ length primary = Z.to_nat primary_length /\ length secondary = Z.to_nat secondary_length
    /\ (length (primary ++ secondary) <= MAX_STEPS)%nat
    /\ validated_primary_swap_path self' = Ok (mints_of (loader_meta <$> primary))
    /\ validated_secondary_swap_path self' = Ok (mints_of (loader_meta <$> secondary))
    /\ routed (fst token_ins) (loader_meta <$> primary) = Some (fst token_outs)
    /\ routed (snd token_ins) (loader_meta <$> secondary) = Some (snd token_outs)
    /\ (forall loader, loader ∈ primary ++ secondary ->
          loader_store loader = store /\ loader_is_enabled loader = true)
    /\ 0 <= num_tokens self' <= 25
    /\ (forall tok, tok ∈ take (Z.to_nat (num_tokens self')) (swap_tokens self') <->
          tok ∈ ordered_tokens current_market
          \/ exists loader, loader ∈ primary ++ secondary /\ tok ∈ ordered_tokens (loader_meta loader)).
Proof.
  intros Hlen Hp Hs Haddr Hv. unfold validate_and_init in Hv.
  apply rbind_ok in Hv as (u1 & H1%require_ok%Nat.leb_le & Hv).
  apply rbind_ok in Hv as (u2 & H2%require_ok%Nat.leb_le & Hv).
  set (n := Z.to_nat primary_length) in *. set (k := Z.to_nat secondary_length) in *.
  apply rbind_ok in Hv as ([tokens1 path1] & Hv1 & Hv). apply rbind_ok in Hv as ([tokens2 path2] & Hv2 & Hv).
  apply rbind_ok in Hv as (u3 & H3%require_ok%Nat.leb_le & [= <-]).
  apply validate_path_ok in Hv1 as (-> & Hr1 & Hnd1 & _ & Hall1 & Htok1).
  apply validate_path_ok in Hv2 as (-> & Hr2 & Hnd2 & _ & Hall2 & Htok2).
  replace (n + k - n)%nat with k in * by lia.
  set (primary := take n paths_info) in *. set (secondary := take k (drop n paths_info)) in *.
  assert (Hsplit : paths_info = primary ++ secondary ++ drop k (drop n paths_info))
    by (subst primary secondary; by rewrite !take_drop).
  assert (Hn : length primary = n) by (subst primary; rewrite length_take; lia).
  assert (Hk : length secondary = k) by (subst secondary; rewrite length_take, length_drop; lia).
  exists primary, secondary, (drop k (drop n paths_info)).
  assert (Hsub : forall loader, loader ∈ primary ++ secondary -> loader ∈ paths_info).
  { intros l Hl. rewrite Hsplit, app_assoc. apply elem_of_app. by left. }
  pose proof (mints_nodup address primary) as Hm1. pose proof (mints_nodup address secondary) as Hm2.
  specialize (Hm1 ltac:(intros; apply Haddr, Hsub, elem_of_app; auto) Hnd1).
  specialize (Hm2 ltac:(intros; apply Haddr, Hsub, elem_of_app; auto) Hnd2).
  assert (Hlens : forall l : list (MarketLoader (T:=T)), length (mints_of (loader_meta <$> l)) = length l)
    by (intros l; unfold mints_of; by rewrite !length_fmap).
  destruct (stored_paths_ok (mints_of (loader_meta <$> primary)) (mints_of (loader_meta <$> secondary))
    (paths self) (Z.of_nat (size tokens2)) (market_token_mint current_market)
    (write_front (sorted tokens2) (swap_tokens self))) as [Hs1 Hs2]; [rewrite !Hlens; lia|done|done|].
  rewrite !Hlens, Hn, Hk in Hs1, Hs2. unfold n, k in Hs1, Hs2.
  rewrite !Z2Nat.id in Hs1 by lia. rewrite !Z2Nat.id in Hs2 by lia.
  split_and!; try done.
  - rewrite length_app, Hn, Hk. done.
  - intros l [Hl|Hl]%elem_of_app; [by apply Hall1|by apply Hall2].
  - simpl. lia.
  - simpl. unfold MAX_TOKENS, MAX_STEPS in H3. simpl in H3. lia.
  - intros tok. simpl. rewrite Nat2Z.id, stored_tokens_ok, Htok2, Htok1. setoid_rewrite elem_of_app.
    naive_solver.
Qed.

(** What the markets of a swap are made of: one for each loader, none of them the current one. *)
Lemma swap_markets_new_ok store current loaders : forall map map',
  swap_markets_new store current loaders map = Ok map' ->
  (forall loader market, loader ∈ loaders -> loader_open loader = Ok market -> SmWf market) ->
  (forall k mk, map !! k = Some mk -> SmWf mk /\ Some k <> current) ->
  forall k mk, map' !! k = Some mk -> SmWf mk /\ Some k <> current.
Proof.
  induction loaders as [|loader loaders IH]; intros map map' Hn Hopen Hwf; simpl in Hn; [by injection Hn as <-|].
  apply rbind_ok in Hn as (u & Hc & Hn). apply require_ok, negb_true_iff, bool_decide_eq_false in Hc.
  destruct (map !! market_token_mint (loader_meta loader)); [done|].
  apply rbind_ok in Hn as (u2 & _ & Hn). apply rbind_ok in Hn as (market & Hm & Hn).
  eapply IH; [exact Hn|intros; eapply Hopen; [by apply elem_of_cons; right|done]|].
  intros k mk [[<- <-]|[_ Hk]]%lookup_insert_Some; [|by apply Hwf].
  split; [|congruence]. eapply Hopen; [by apply elem_of_cons; left|done].
Qed.
End Setup.

(** ** Examples

    Two markets with twenty decimals, SOL-USDC and BTC-USDC, and prices for the three tokens. *)
Section Examples.
Local Existing Instance u128.
Local Existing Instance z_bitmap.
Local Existing Instance z_bitmap_laws.
Local Existing Instance Oracle.feed_accounts.
Local Instance example_num : FixedPointOps u128 := u128_fixed (fun _ _ _ => None) 20.

Definition example_token_config (decimals prec feed : Z) : TokenConfig :=
  mkTokenConfig [83] (mkFlagContainer 3) decimals prec 0
    [mkFeedConfig feed 1; mkFeedConfig 0 0; mkFeedConfig 0 0; mkFeedConfig 0 0] 30.

(** SOL, USDC and BTC. *)
Definition example_get_config (token : Pubkey) : option TokenConfig :=
  if token =? 5 then Some (example_token_config 9 4 55)
  else if token =? 6 then Some (example_token_config 6 6 66)
  else if token =? 7 then Some (example_token_config 8 2 77) else None.

Definition example_feed (token feed min mid max : Z) : PriceFeed :=
  mkPriceFeed 255 0 0 9 9 token feed 899 999 (mkPriceFeedPrice 8 (mkFlagContainer 1) 995 mid min max).

Definition example_oracle_run : Oracle.Oracle * store_result unit :=
  set_prices_from_remaining_accounts validator_example example_get_config [5; 6; 7]
    [example_feed 5 55 14950000000 15000000000 15050000000;
     example_feed 6 66 100000000 100000000 100000000;
     example_feed 7 77 6000000000000 6000000000000 6000000000000] false oracle_example.
Definition example_oracle : Oracle.Oracle := fst example_oracle_run.

Definition example_config : MarketConfig := {|
  usd_to_amount_divisor := 10 ^ 11;
  max_pool_amount _ := 10 ^ 18;
  pnl_factor_config _ _ := 6 * 10 ^ 19;
  reserve_factor := 10 ^ 20;
  open_interest_reserve_factor := 10 ^ 20;
  max_open_interest _ := 10 ^ 30;
  ignore_open_interest_for_usage_factor := false;
  swap_impact_params := mkPriceImpactParams (2 * 10 ^ 20) 0 0;
  swap_fee_params := mkFeeParams (10 ^ 17) (10 ^ 17) (3 * 10 ^ 19) None;
  position_impact_params := mkPriceImpactParams (2 * 10 ^ 20) 0 0;
  position_impact_distribution_params := mkPositionImpactDistributionParams 0 0;
  borrowing_fee_params := mkBorrowingFeeParams 0 (10 ^ 20) (10 ^ 20) 28 28 false;
  borrowing_fee_kink_model_params := mkKink (mkKinkOneSide (10 ^ 19) 0 0) (mkKinkOneSide (10 ^ 19) 0 0);
  funding_amount_per_size_adjustment := 10 ^ 10;
  funding_fee_params := mkFundingFeeParams (10 ^ 20) 20 10 0 10 1 (10 ^ 18) 0;
  position_params := mkPositionParams (10 ^ 20) (10 ^ 20) (10 ^ 18) 0 0 0;
  order_fee_params := mkFeeParams 0 0 0 None;
  min_collateral_factor_for_open_interest_multiplier _ := 0;
  liquidation_fee_params := mkLiquidationFeeParams 0 0;
  max_pool_value_for_deposit _ := 10 ^ 40;
|}.

Definition example_swap_market (market_token index long short long_amount short_amount : Z) : SwapMarket LiquiditySupply :=
  mkSwapMarket (mkMeta market_token index long short) false
    (mkPlain
       (mkMarket example_config
          (pools_of (fun k => match k with Primary => mkPool 0 long_amount short_amount | _ => mkPool 0 0 0 end))
          (mkLiquiditySupply (10 ^ 12) 0 0) (mkClocks 900 900 900) 0 1000)
       long_amount short_amount 0).

(** A thousand SOL and as much USDC; ten BTC and as much USDC. *)
Definition sol_usdc : SwapMarket LiquiditySupply := example_swap_market 91 5 5 6 (10 ^ 12) (15 * 10 ^ 10).
Definition btc_usdc : SwapMarket LiquiditySupply := example_swap_market 92 7 7 6 (10 ^ 9) (6 * 10 ^ 11).

(** One SOL has come into the current market. *)
Definition example_swap_state : SwapMarkets LiquiditySupply :=
  mkSwapMarkets {[92 := btc_usdc]}
    (mkSwapMarket (sm_meta sol_usdc) false
       (mkPlain (sm_market sol_usdc) (10 ^ 12 + 10 ^ 9) (15 * 10 ^ 10) 0)).

Definition example_params : SwapActionParams :=
  mkSwapActionParams 2 0 3 91 ([91; 92] ++ replicate 8 0) ([5; 6; 7] ++ replicate 22 0).

(** SOL to BTC, over USDC. *)
Definition example_swap_run : SwapMarkets LiquiditySupply * store_result (Z * Z) :=
  revertible_swap From example_oracle example_params (7, 6) (Some 5, None) (10 ^ 9, 0) example_swap_state.

Lemma example_config_ok token config : example_get_config token = Some config -> config_ok config.
Proof.
  unfold example_get_config. repeat (case_match; [intros [= <-]; split; split; vm_compute; discriminate|]).
  discriminate.
Qed.

Lemma example_oracle_ran : example_oracle_run = (example_oracle, Ok tt).
Proof. unfold example_oracle. apply run_ok. vm_compute. reflexivity. Qed.

Lemma example_oracle_good : GoodPrices example_oracle.
Proof.
  pose proof example_oracle_ran as Hrun. unfold example_oracle_run in Hrun.
  eapply (set_prices_good _ _ _ _ _ _ _ oracle_example_wf); [exact example_config_ok|exact Hrun].
Qed.

Lemma example_markets_wf : MarketsWf example_swap_state.
Proof.
  assert (Hwf : forall l s, 0 <= l <= 10 ^ 13 -> 0 <= s <= 10 ^ 13 ->
    forall k, wf (match k with Primary => mkPool 0 l s | _ => mkPool 0 0 0 end : Pool)).
  { intros l s Hl Hs k. assert (10 ^ 13 <= @u_max u128) by by vm_compute.
    destruct k; unfold wf, in_u; simpl; repeat split; (lia || done). }
  assert (Hs : supply_wf (T:=LiquiditySupply) (mkLiquiditySupply (10 ^ 12) 0 0))
    by (split; vm_compute; try split; discriminate).
  split.
  - split; [split; [|exact Hs]|vm_compute; repeat split; discriminate|reflexivity|repeat split; reflexivity].
    intros k. unfold pool_of. simpl. rewrite pools_get_of. apply Hwf; vm_compute; split; discriminate.
  - intros k mk Hk. unfold example_swap_state in Hk. cbn [markets] in Hk.
    apply lookup_singleton_Some in Hk as [<- <-].
    split; [split; [|exact Hs]|vm_compute; repeat split; discriminate|reflexivity|repeat split; reflexivity].
    intros k. unfold pool_of. simpl. rewrite pools_get_of. apply Hwf; vm_compute; split; discriminate.
Qed.

Lemma example_swap_ran :
  revertible_swap From example_oracle example_params (7, 6) (Some 5, None) (10 ^ 9, 0) example_swap_state
  = (fst example_swap_run, Ok (248668, 0)).
Proof. fold example_swap_run. apply run_ok. vm_compute. reflexivity. Qed.

(** All the SOL that came in is in the pools, and the BTC that went out is not; the USDC only
    moved between the markets. *)
Lemma revertible_swap_conserves_witness :
  total (fun mk => pools_hold mk 5) (fst example_swap_run) = 10 ^ 12 + 10 ^ 9
  /\ total (fun mk => pools_hold mk 6) (fst example_swap_run) = 75 * 10 ^ 10
  /\ total (fun mk => pools_hold mk 7) (fst example_swap_run) = 10 ^ 9 - 248668.
Proof.
  destruct (revertible_swap_conserves example_oracle example_oracle_good From example_params (7, 6)
    (Some 5, None) (10 ^ 9, 0) example_swap_state _ _ _ example_markets_wf example_swap_ran) as [_ H].
  split_and!; (destruct (H 5) as [_ H5], (H 6) as [_ H6], (H 7) as [_ H7]);
    [rewrite H5|rewrite H6|rewrite H7]; vm_compute; reflexivity.
Defined.

Example revertible_swap_leaves_solvent_example : solvent (current_market (fst example_swap_run)).
Proof.
  apply (revertible_swap_leaves_solvent example_oracle example_oracle_good From example_params (7, 6)
    (Some 5, None) (10 ^ 9, 0) example_swap_state _ _ example_markets_wf example_swap_ran).
Defined.

(** The parameters of that swap, from the accounts of the two markets. *)
Definition example_loader (mk : SwapMarket LiquiditySupply) : MarketLoader :=
  mkMarketLoader (1000 + market_token_mint (sm_meta mk)) (sm_meta mk) 9 true (Ok mk).

Definition no_params : SwapActionParams := mkSwapActionParams 0 0 0 0 (replicate 10 0) (replicate 25 0).

Example validate_and_init_spec_example :
  validated_primary_swap_path example_params = Ok [91; 92].
Proof.
  destruct (validate_and_init_spec (T:=LiquiditySupply) (Z.add 1000) (sm_meta sol_usdc) 2 0
    [example_loader sol_usdc; example_loader btc_usdc] 9 (5, 6) (7, 6) no_params example_params)
    as (primary & secondary & rest & Hsplit & Hp & Hs & _ & Hv & _);
    [reflexivity|lia|lia| |vm_compute; reflexivity|].
  - by intros l [->|[->|Hl%elem_of_nil]%elem_of_cons]%elem_of_cons.
  - destruct primary as [|a [|b [|]]]; try discriminate. simplify_eq/=. exact Hv.
Defined.
End Examples.
