(* ===== verification/Tokens.v ===== *)
(** * Tokens: the interface to the token program

    The store program keeps no tokens itself: it asks the token program to move, mint and burn
    them ([utils/internal/transfer.rs]). The token program is a parameter of the development. This
    file states what is used of it: the amount of a token account, the supply of a mint, and the
    operations; the laws say what a successful operation does, which is the documented
    behaviour of the SPL token program (an operation may fail for more reasons than these laws
    name). [ledger] is an implementation, for concrete runs. *)
From stdpp Require Import gmap.
From S2P Require Import Prelude.
From S2P Require Import Num.
From S2P Require Import CoreErrors.
From S2P Require Import Roles.
#[local] Open Scope Z_scope.

(** A token account has one mint; its key stands for both. *)
Class TokenProgram (T : Type) : Type := {
  amount_of : T -> Pubkey -> Z;
  supply_of : T -> Pubkey -> Z;
  transfer : Pubkey -> Pubkey -> Z -> ST T StoreError unit;
  mint_to : Pubkey -> Pubkey -> Z -> ST T StoreError unit;
  burn_from : Pubkey -> Pubkey -> Z -> ST T StoreError unit;
  close_account : Pubkey -> ST T StoreError unit;
}.

Definition at_key (key : Pubkey) (x : Z) (k : Pubkey) : Z := if k =? key then x else 0.

(** [transfer from to amount], [mint_to mint to amount], [burn_from mint from amount],
    [close_account account]. *)
Class TokenProgramLaws (T : Type) {TP : TokenProgram T} : Prop := {
  amount_nonneg t k : 0 <= amount_of t k;
  supply_u64 t m : @in_u u64 (supply_of t m);
  transfer_law t t' from to x : 0 <= x -> transfer from to x t = (t', Ok tt) ->
    x <= amount_of t from /\
    (forall k, amount_of t' k = amount_of t k - at_key from x k + at_key to x k) /\
    (forall m, supply_of t' m = supply_of t m);
  mint_law t t' mint to x : 0 <= x -> mint_to mint to x t = (t', Ok tt) ->
    (forall k, amount_of t' k = amount_of t k + at_key to x k) /\
    (forall m, supply_of t' m = supply_of t m + at_key mint x m);
  burn_law t t' mint from x : 0 <= x -> burn_from mint from x t = (t', Ok tt) ->
    x <= amount_of t from /\
    (forall k, amount_of t' k = amount_of t k - at_key from x k) /\
    (forall m, supply_of t' m = supply_of t m - at_key mint x m);
  close_law t t' k : close_account k t = (t', Ok tt) ->
    (forall k', amount_of t' k' = if k' =? k then 0 else amount_of t k') /\
    (forall m, supply_of t' m = supply_of t m);
}.

(** ** A ledger *)
Record Ledger : Type := mkLedger { accounts : gmap Pubkey N; mints : gmap Pubkey N }.

Definition balance_at (accounts : gmap Pubkey N) (k : Pubkey) : Z := Z.of_N (default 0%N (accounts !! k)).
Definition put_balance (k : Pubkey) (x : Z) (accounts : gmap Pubkey N) : gmap Pubkey N :=
  <[k := Z.to_N x]> accounts.
Definition ledger_supply (self : Ledger) (m : Pubkey) : Z :=
  Z.min (@u_max u64) (balance_at (mints self) m).

Definition insufficient_funds {A} : store_result A := Err (Anchor "insufficient funds").

Definition ledger_debit (k : Pubkey) (x : Z) : ST Ledger StoreError unit := supdate (fun self =>
  if balance_at (accounts self) k <? x then insufficient_funds
  else Ok (mkLedger (put_balance k (balance_at (accounts self) k - x) (accounts self)) (mints self))).
Definition ledger_credit (k : Pubkey) (x : Z) : ST Ledger StoreError unit := smodify (fun self =>
  mkLedger (put_balance k (balance_at (accounts self) k + x) (accounts self)) (mints self)).
Definition ledger_supply_to (m : Pubkey) (f : Z -> Z) : ST Ledger StoreError unit := supdate (fun self =>
  match @try_u u64 (f (ledger_supply self m)) with
  | Some s => Ok (mkLedger (accounts self) (put_balance m s (mints self)))
  | None => Err (Anchor "overflow")
  end).

#[export] Instance ledger_tokens : TokenProgram Ledger := {|
  amount_of self k := balance_at (accounts self) k;
  supply_of := ledger_supply;
  transfer from to x := do! _ := ledger_debit from x in ledger_credit to x;
  mint_to mint to x :=
    do! _ := ledger_supply_to mint (fun s => s + x) in ledger_credit to x;
  burn_from mint from x :=
    do! _ := ledger_debit from x in ledger_supply_to mint (fun s => s - x);
  close_account k := sread (fun self =>
    if balance_at (accounts self) k =? 0 then Ok tt else Err (Anchor "non-native account has balance"));
|}.

Lemma balance_put k x accounts k' :
  0 <= x -> balance_at (put_balance k x accounts) k' = if k' =? k then x else balance_at accounts k'.
Proof.
  intros Hx. unfold balance_at, put_balance. destruct (Z.eqb_spec k' k) as [->|Hne].
  - rewrite lookup_insert_eq. simpl. lia.
  - by rewrite lookup_insert_ne.
Qed.

Lemma balance_nonneg accounts k : 0 <= balance_at accounts k.
Proof. unfold balance_at. lia. Qed.

Lemma ledger_debit_ok k x self self' :
  0 <= x -> ledger_debit k x self = (self', Ok tt) ->
  x <= balance_at (accounts self) k /\ mints self' = mints self /\
  forall k', balance_at (accounts self') k' = balance_at (accounts self) k' - at_key k x k'.
Proof.
  unfold ledger_debit. intros Hx H%supdate_ok. destruct (Z.ltb_spec (balance_at (accounts self) k) x); [done|].
  injection H as <-. split_and!; [done|done|]. intros k'. simpl. rewrite balance_put by lia.
  unfold at_key. destruct (Z.eqb_spec k' k) as [->|]; lia.
Qed.

Lemma ledger_credit_ok k x self self' :
  0 <= x -> ledger_credit k x self = (self', Ok tt) ->
  mints self' = mints self /\
  forall k', balance_at (accounts self') k' = balance_at (accounts self) k' + at_key k x k'.
Proof.
  unfold ledger_credit. intros Hx H%smodify_ok. subst self'. split; [done|]. intros k'. simpl.
  pose proof (balance_nonneg (accounts self) k). rewrite balance_put by lia.
  unfold at_key. destruct (Z.eqb_spec k' k) as [->|]; lia.
Qed.

Lemma ledger_supply_u64 self m : @in_u u64 (ledger_supply self m).
Proof.
  unfold in_u, ledger_supply. pose proof (balance_nonneg (mints self) m). change (@u_max u64) with (2 ^ 64 - 1). lia.
Qed.

Lemma ledger_supply_to_ok m f self self' :
  ledger_supply_to m f self = (self', Ok tt) ->
  accounts self' = accounts self /\
  forall m', ledger_supply self' m' = if m' =? m then f (ledger_supply self m) else ledger_supply self m'.
Proof.
  unfold ledger_supply_to. intros H%supdate_ok. destruct (try_u _) as [s|] eqn:E; [|done].
  apply try_u_some in E as [-> Hs]. injection H as <-. split; [done|]. intros m'.
  destruct Hs as [Hs0 Hs1]. unfold ledger_supply at 1. simpl. rewrite balance_put by done.
  change (@u_max u64) with (2 ^ 64 - 1) in *. destruct (m' =? m); [lia|done].
Qed.

#[export] Instance ledger_laws : TokenProgramLaws Ledger.
Proof.
  split.
  - intros t k. apply balance_nonneg.
  - intros t m. apply ledger_supply_u64.
  - intros t t' from to x Hx H. apply sbind_ok in H as (t1 & [] & Hd & Hc).
    apply ledger_debit_ok in Hd as (Hle & Hm & Hd); [|done].
    apply ledger_credit_ok in Hc as (Hm' & Hc); [|done].
    split_and!; [done| |].
    + intros k. simpl. rewrite Hc, Hd. lia.
    + intros m. simpl. unfold ledger_supply. by rewrite Hm', Hm.
  - intros t t' mint to x Hx H. apply sbind_ok in H as (t1 & [] & Hs & Hc).
    apply ledger_supply_to_ok in Hs as (Ha & Hs). apply ledger_credit_ok in Hc as (Hm & Hc); [|done].
    split.
    + intros k. simpl. by rewrite Hc, Ha.
    + intros m. simpl. transitivity (ledger_supply t1 m); [unfold ledger_supply; by rewrite Hm|].
      rewrite Hs. unfold at_key. destruct (Z.eqb_spec m mint) as [->|]; lia.
  - intros t t' mint from x Hx H. apply sbind_ok in H as (t1 & [] & Hd & Hs).
    apply ledger_debit_ok in Hd as (Hle & Hm & Hd); [|done].
    apply ledger_supply_to_ok in Hs as (Ha & Hs).
    assert (forall m, ledger_supply t1 m = ledger_supply t m) as Hsup
      by (intros m; unfold ledger_supply; by rewrite Hm).
    split_and!; [done| |].
    + intros k. simpl. by rewrite Ha, Hd.
    + intros m. simpl. rewrite Hs, !Hsup. unfold at_key. destruct (Z.eqb_spec m mint) as [->|]; lia.
  - intros t t' k [-> Hb]%sread_ok. simpl. destruct (Z.eqb_spec (balance_at (accounts t) k) 0) as [E|]; [|done].
    split; [|done]. intros k'. by destruct (Z.eqb_spec k' k) as [->|].
Qed.
