(* ===== verification/MarketAccount.v ===== *)
(** * The account of a market ([states/market/mod.rs], [instructions/market.rs])

    [StoredMarket.Market] is the account that the store program keeps for a market: its flags, its
    meta, the configuration of [Config], the counters of actions, and the state and the revertible
    buffer of [Revertible]. The instructions initialize a market, enable it, configure it (also
    through a buffer of entries that an authority prepares), record transfers, claim its fees, and
    update its auto-deleveraging state from oracle prices.

    [World] holds the store, its markets by market token, the config buffers, and the tokens. The
    token program is a parameter ([TokenProgram]): the vault of a mint, which all markets share,
    and transfers into and out of it. The theorems are about every history of instructions: a
    market stays well formed ([MarketWf]), and the vaults cover what the markets record. *)
From stdpp Require Import gmap sets.
From S2P Require Import Prelude.
From S2P Require Import Kinds.
From S2P Require Import Num.
From S2P Require Import Fixed.
From S2P Require Import Price.
From S2P Require Import Params.
From S2P Require Import Pool.
From S2P Require Import Market.
From S2P Require Import MarketFacts.
From S2P Require Import Revertible.
From S2P Require Import CoreErrors.
From S2P Require Import MapSum.
From S2P Require Import Flags.
From S2P Require Import Roles.
From S2P Require Import TokenConfig.
From S2P Require Import Oracle.
From S2P Require Import Users.
From S2P Require Import StoreState.
From S2P Require Import SwapPath.
From S2P Require Import Config.
From S2P Require Import Tokens.
Import OnChain.
#[local] Open Scope Z_scope.

Module StoredMarket.

(** ** The account *)

Definition MAX_FLAGS : nat := 8.
Definition MAX_NAME_LEN : nat := 64.

Inductive MarketFlag : Type :=
| Enabled
| Pure
| AutoDeleveragingEnabledForLong
| AutoDeleveragingEnabledForShort
| GTEnabled.

#[export] Instance MarketFlag_eq_dec : EqDecision MarketFlag.
Proof. solve_decision. Defined.

Definition flag_u8 (self : MarketFlag) : nat :=
  match self with
  | Enabled => 0
  | Pure => 1
  | AutoDeleveragingEnabledForLong => 2
  | AutoDeleveragingEnabledForShort => 3
  | GTEnabled => 4
  end.

(** The counters of the actions created for a market ([trade_count] is not used by the code). *)
Record Indexer : Type := mkIndexer {
  indexer_trade_count : Z;
  deposit_count : Z;
  withdrawal_count : Z;
  order_count : Z;
  shift_count : Z;
  glv_deposit_count : Z;
  glv_withdrawal_count : Z;
}.

Record Market : Type := mkMarket {
  bump : Z;
  flags : FlagContainer;
  market_name : bytes;
  meta : MarketMeta;
  store : Pubkey;
  config : StoreConfig.MarketConfig;
  indexer : Indexer;
  state : State;
  buffer : RevertibleBuffer;
}.

Definition set_flags (fl : FlagContainer) (self : Market) : Market :=
  mkMarket (bump self) fl (market_name self) (meta self) (store self) (config self) (indexer self)
    (state self) (buffer self).
Definition set_config (c : StoreConfig.MarketConfig) (self : Market) : Market :=
  mkMarket (bump self) (flags self) (market_name self) (meta self) (store self) c (indexer self)
    (state self) (buffer self).
Definition set_indexer (i : Indexer) (self : Market) : Market :=
  mkMarket (bump self) (flags self) (market_name self) (meta self) (store self) (config self) i
    (state self) (buffer self).
Definition set_state (s : State) (self : Market) : Market :=
  mkMarket (bump self) (flags self) (market_name self) (meta self) (store self) (config self)
    (indexer self) s (buffer self).

(** ** The counters: [Indexer::next_deposit_id] and the others *)

Definition next_id (count : Indexer -> Z) (put : Z -> Indexer -> Indexer) : ST Indexer StoreError Z :=
  fun self =>
  match @uadd u64 (count self) 1 with
  | Some next_id => (put next_id self, Ok next_id)
  | None => (self, Err (Core CoreError.TokenAmountOverflow))
  end.

Definition next_deposit_id : ST Indexer StoreError Z := next_id deposit_count (fun n i =>
  mkIndexer (indexer_trade_count i) n (withdrawal_count i) (order_count i) (shift_count i)
    (glv_deposit_count i) (glv_withdrawal_count i)).
Definition next_withdrawal_id : ST Indexer StoreError Z := next_id withdrawal_count (fun n i =>
  mkIndexer (indexer_trade_count i) (deposit_count i) n (order_count i) (shift_count i)
    (glv_deposit_count i) (glv_withdrawal_count i)).
Definition next_order_id : ST Indexer StoreError Z := next_id order_count (fun n i =>
  mkIndexer (indexer_trade_count i) (deposit_count i) (withdrawal_count i) n (shift_count i)
    (glv_deposit_count i) (glv_withdrawal_count i)).
Definition next_shift_id : ST Indexer StoreError Z := next_id shift_count (fun n i =>
  mkIndexer (indexer_trade_count i) (deposit_count i) (withdrawal_count i) (order_count i) n
    (glv_deposit_count i) (glv_withdrawal_count i)).
Definition next_glv_deposit_id : ST Indexer StoreError Z := next_id glv_deposit_count (fun n i =>
  mkIndexer (indexer_trade_count i) (deposit_count i) (withdrawal_count i) (order_count i)
    (shift_count i) n (glv_withdrawal_count i)).
Definition next_glv_withdrawal_id : ST Indexer StoreError Z := next_id glv_withdrawal_count (fun n i =>
  mkIndexer (indexer_trade_count i) (deposit_count i) (withdrawal_count i) (order_count i)
    (shift_count i) (glv_deposit_count i) n).

(** ** The meta *)

Definition is_collateral_token (self : MarketMeta) (token : Pubkey) : bool :=
  (token =? long_token_mint self) || (token =? short_token_mint self).

Definition pnl_token (self : MarketMeta) (is_long : bool) : Pubkey :=
  if is_long then long_token_mint self else short_token_mint self.

Definition meta_is_pure (self : MarketMeta) : bool := long_token_mint self =? short_token_mint self.

(** ** Clocks *)

Definition clocks_init_to_current (now : Z) (self : ClocksStorage) : ClocksStorage :=
  mkClocksStorage (clocks_rev self) (mkClocks now now now) (adl_for_long self) (adl_for_short self).

Definition clocks_get (self : ClocksStorage) (kind : ClockKind) : option Z :=
  match kind with
  | AdlForLong => Some (adl_for_long self)
  | AdlForShort => Some (adl_for_short self)
  | _ => Some (clock_get (clocks_last self) kind)
  end.

(** A write through [get_mut]. *)
Definition clocks_set (self : ClocksStorage) (kind : ClockKind) (v : Z) : ClocksStorage :=
  match kind with
  | AdlForLong => mkClocksStorage (clocks_rev self) (clocks_last self) v (adl_for_short self)
  | AdlForShort => mkClocksStorage (clocks_rev self) (clocks_last self) (adl_for_long self) v
  | _ => mkClocksStorage (clocks_rev self) (clock_set (clocks_last self) kind v)
           (adl_for_long self) (adl_for_short self)
  end.

Definition zeroed_state : State :=
  mkState (pools_of (fun _ => mkPoolStorage 0 (mkPool 0 0 0)))
    (mkClocksStorage 0 (mkClocks 0 0 0) 0 0) (mkOtherState 0 0 0 0 0).

Section Account.
#[local] Existing Instance u128.
Context {F : FixedPointOps u128}.
Context {B : Type} {BO : BitmapOps MAX_FLAGS B}.
Context {C : Type} {CO : BitmapOps StoreConfig.MAX_CONFIG_FLAGS C}.
Implicit Types (self : Market).

Definition MS (A : Type) : Type := ST Market StoreError A.

Definition flag self (f : MarketFlag) : bool := get_flag (H := BO) flag_u8 (flags self) f.

Definition set_market_flag (f : MarketFlag) (v : bool) : MS bool := fun self =>
  let (fl, previous) := set_flag (H := BO) flag_u8 (flags self) f v in
  (set_flags fl self, Ok previous).

Definition is_pure self : bool := flag self Pure.
Definition is_enabled self : bool := flag self Enabled.
Definition set_enabled (enabled : bool) : MS bool := set_market_flag Enabled enabled.

Definition adl_flag (is_long : bool) : MarketFlag :=
  if is_long then AutoDeleveragingEnabledForLong else AutoDeleveragingEnabledForShort.
Definition is_adl_enabled self (is_long : bool) : bool := flag self (adl_flag is_long).
Definition set_adl_enabled (is_long enabled : bool) : MS bool :=
    set_market_flag (adl_flag is_long) enabled.

Definition is_gt_minting_enabled self : bool := flag self GTEnabled.
Definition set_is_gt_minting_enbaled (enabled : bool) : MS bool := set_market_flag GTEnabled enabled.

(** The account as it is created. *)
Definition zeroed : Market :=
  mkMarket 0 (default_flags (H := BO)) (replicate MAX_NAME_LEN 0) (mkMeta 0 0 0 0) 0
    StoreConfig.zeroed_config
    (mkIndexer 0 0 0 0 0 0 0) zeroed_state (mkBuffer 0 zeroed_state).

(** [Market::init]; [now] is [Clock::get()]. *)
Definition init (now bump_ : Z) (store_ : Pubkey) (name : bytes)
    (market_token_mint index_token_mint long_token_mint short_token_mint : Pubkey) (enabled : bool)
    : MS unit :=
  do! _ := smodify (fun self =>
    mkMarket bump_ (flags self) (market_name self) (meta self) store_ (config self) (indexer self)
      (state self) (buffer self)) in
  do! name := slift (fixed_str_to_bytes MAX_NAME_LEN name) in
  do! _ := smodify (fun self =>
    mkMarket (bump self) (flags self) name (meta self) (store self) (config self) (indexer self)
      (state self) (buffer self)) in
  do! _ := set_enabled enabled in
  do! _ := smodify (fun self =>
    mkMarket (bump self) (flags self) (market_name self)
      (mkMeta market_token_mint index_token_mint long_token_mint short_token_mint)
      (store self) (config self) (indexer self) (state self) (buffer self)) in
  let pure := long_token_mint =? short_token_mint in
  do! _ := set_market_flag Pure pure in
  do! _ := smodify (fun self =>
    set_state (mkState (pools_init (state_pools (state self)) pure)
                 (clocks_init_to_current now (state_clocks (state self))) (state_other (state self)))
                   self) in
  do! _ := smodify (fun self => set_config (StoreConfig.init (config self)) self) in
  smodify (fun self =>
    mkMarket (bump self) (flags self) (market_name self) (meta self) (store self) (config self)
      (indexer self) (state self) (buffer_init (buffer self))).

Definition name self : store_result bytes := bytes_to_fixed_str (market_name self).

Definition validate self (store_ : Pubkey) : store_result unit :=
  let! _ := require (store_ =? store self) CoreError.StoreMismatched in
  require (is_enabled self) CoreError.DisabledMarket.

Definition validated_meta self (store_ : Pubkey) : store_result MarketMeta :=
  let! _ := validate self store_ in Ok (meta self).

Definition clock self (kind : ClockKind) : option Z := clocks_get (state_clocks (state self)) kind.

(** Configuration by the names of the keys. *)
Definition config_key (key : string) : store_result StoreConfig.MarketConfigKey :=
  ok_or (from_name StoreConfig.key_name StoreConfig.keys key) (Core CoreError.InvalidMarketConfigKey).
Definition config_flag (key : string) : store_result StoreConfig.MarketConfigFlag :=
  ok_or (from_name StoreConfig.flag_name StoreConfig.flags key) (Core CoreError.InvalidMarketConfigKey).

Definition get_config self (key : string) : store_result Z :=
  let! key := config_key key in Ok (StoreConfig.get (config self) key).

(** [*market.get_config_mut(key)? = value]. *)
Definition set_config_by_name (key : string) (value : Z) : MS unit :=
  do! key := slift (config_key key) in
  smodify (fun self => set_config (StoreConfig.set (config self) key value) self).

Definition get_config_flag self (key : string) : store_result bool :=
  let! key := config_flag key in Ok (StoreConfig.flag (config self) key).

Definition set_config_flag (key : string) (value : bool) : MS bool :=
  do! key := slift (config_flag key) in
  fun self =>
    let (c, previous) := StoreConfig.set_config_flag (config self) key value in
    (set_config c self, Ok previous).

Definition update_config_with_buffer (buffer : StoreConfig.MarketConfigBuffer) : MS unit := fun self =>
  match StoreConfig.update_config_with_buffer (config self) buffer with
  | Ok c => (set_config c self, Ok tt)
  | Err e => (self, Err e)
  | Panic msg => (self, Panic msg)
  end.

Definition on_indexer {A} (m : ST Indexer StoreError A) : MS A := szoom indexer set_indexer m.

Definition validate_shiftable self (target : Market) : store_result unit :=
  let! _ := require (long_token_mint (meta self) =? long_token_mint (meta target))
              CoreError.TokenMintMismatched in
  require (short_token_mint (meta self) =? short_token_mint (meta target)) CoreError.TokenMintMismatched.

(** ** As a market of the model crate ([model.rs])

    [now] is the time of the cluster and [supply] the supply of market tokens. *)
Definition as_liquidity_market (now supply : Z) self : Market.Market Pool LiquiditySupply :=
  plain_market (stored (mkLiquiditySupply supply 0 0) now (StoreConfig.model_config (config self))
                  (state self)).

(** The account that [Revertible] works on. *)
Definition as_account self : MarketAccount :=
  mkAccount (is_pure self) (meta self) (StoreConfig.model_config (config self)) (state self) (buffer
    self).

Definition put_account (acct : MarketAccount) self : Market :=
  mkMarket (bump self) (flags self) (market_name self) (meta self) (store self) (config self) (indexer
    self)
    (acct_state acct) (acct_buffer acct).

(** [RevertibleMarket::new], some operations on it, and [commit] if they succeed. Otherwise the
    instruction fails. *)
Definition revertibly {A} (m : ST RevertibleMarket StoreError A) : MS A := fun self =>
  match model_result (revertible_market_new (as_account self)) with
  | Ok rm =>
      match m rm with
      | (rm', Ok a) => (put_account (fst (commit rm')) self, Ok a)
      | (_, Err e) => (self, Err e)
      | (_, Panic msg) => (self, Panic msg)
      end
  | Err e => (self, Err e)
  | Panic msg => (self, Panic msg)
  end.

Definition on_revertible {A} (m : RM A) : ST RevertibleMarket StoreError A := fun rm =>
  let (rm, r) := m rm in (rm, model_result r).

(** ** Auto-deleveraging ([utils.rs]) *)

Definition adl_clock (is_long : bool) : ClockKind := if is_long then AdlForLong else AdlForShort.

Definition latest_adl_time self (is_long : bool) : store_result Z :=
  ok_or (clock self (adl_clock is_long)) (Core CoreError.NotFound).

(** [max_staleness] is a [u64] and the times are [i64]. *)
Definition saturating_add_unsigned (a b : Z) : Z := Z.min (a + b) (2 ^ 63 - 1).

Definition validate_adl self (oracle : Oracle.Oracle) (is_long : bool) (max_staleness : Z)
    : store_result unit :=
  let! _ := require (is_adl_enabled self is_long) CoreError.AdlNotEnabled in
  let! latest := latest_adl_time self is_long in
  if saturating_add_unsigned (max_oracle_ts oracle) max_staleness <? latest then
    Err (Core CoreError.OracleTimestampsAreSmallerThanRequired)
  else Ok tt.

Definition update_adl_state (now : Z) (oracle : Oracle.Oracle) (is_long : bool) : MS unit :=
  do! latest := sread (fun self => latest_adl_time self is_long) in
  do! _ := slift (require (latest <=? max_oracle_ts oracle)
    CoreError.OracleTimestampsAreSmallerThanRequired) in
  do! _ := sread (fun self => require (is_enabled self) CoreError.DisabledMarket) in
  do! prices := sread (fun self => oracle_prices oracle (meta self)) in
  do! exceeded := sread (fun self =>
    model_result (pnl_factor_exceeded (as_liquidity_market now 0 self) prices ForAdl is_long)) in
  do! _ := set_adl_enabled is_long (bool_decide (is_Some exceeded)) in
  smodify (fun self =>
    set_state (mkState (state_pools (state self))
                 (clocks_set (state_clocks (state self)) (adl_clock is_long) now)
                 (state_other (state self))) self).

(** ** The status of a market ([status.rs]) *)

Record MarketStatus : Type := mkMarketStatus {
  status_funding_factor_per_second : Z;
  borrowing_factor_per_second_for_long : Z;
  borrowing_factor_per_second_for_short : Z;
  pending_pnl_for_long : Z;
  pending_pnl_for_short : Z;
  reserve_value_for_long : Z;
  reserve_value_for_short : Z;
  pool_value_without_pnl_for_long : Z;
  pool_value_without_pnl_for_short : Z;
}.

Definition from_market (now : Z) self (prices : Prices) (maximize_pnl maximize_pool_value : bool)
    : result MarketStatus :=
  let market := as_liquidity_market now 0 self in
  let! b_long := borrowing_factor_per_second market true prices in
  let! b_short := borrowing_factor_per_second market false prices in
  let! pnl_long := pnl market (index_token_price prices) true maximize_pnl in
  let! pnl_short := pnl market (index_token_price prices) false maximize_pnl in
  let! r_long := reserved_value market (index_token_price prices) true in
  let! r_short := reserved_value market (index_token_price prices) false in
  let! v_long := pool_value_without_pnl_for_one_side market prices true maximize_pool_value in
  let! v_short := pool_value_without_pnl_for_one_side market prices false maximize_pool_value in
  Ok (mkMarketStatus (m_funding_factor_per_second market) b_long b_short pnl_long pnl_short r_long
    r_short
        v_long v_short).
End Account.

(** ** The world of the instructions *)

Record World (T : Type) : Type := mkWorld {
  world_store : Store;
  world_markets : gmap Pubkey Market;
  world_buffers : gmap Pubkey StoreConfig.MarketConfigBuffer;
  world_tokens : T;
}.
Arguments mkWorld {T}.
Arguments world_store {T}.
Arguments world_markets {T}.
Arguments world_buffers {T}.
Arguments world_tokens {T}.

Definition put_markets {T} (ms : gmap Pubkey Market) (w : World T) : World T :=
  mkWorld (world_store w) ms (world_buffers w) (world_tokens w).
Definition put_buffers {T} (bs : gmap Pubkey StoreConfig.MarketConfigBuffer) (w : World T) : World T :=
  mkWorld (world_store w) (world_markets w) bs (world_tokens w).
Definition put_store {T} (s : Store) (w : World T) : World T :=
  mkWorld s (world_markets w) (world_buffers w) (world_tokens w).
Definition put_tokens {T} (t : T) (w : World T) : World T :=
  mkWorld (world_store w) (world_markets w) (world_buffers w) t.

(** The instructions of this file. *)
Inductive MarketInstruction : Type :=
| InitializeMarket (bump : Z) (index_token long_token short_token : Pubkey) (name : bytes) (enable :
  bool)
| ToggleMarket (market : Pubkey) (enable : bool)
| ToggleGtMinting (market : Pubkey) (enable : bool)
| MarketTransferIn (market from token : Pubkey) (amount : Z)
| UpdateMarketConfig (market : Pubkey) (key : string) (value : Z)
| UpdateMarketConfigFlag (market : Pubkey) (key : string) (value : bool)
| UpdateMarketConfigWithBuffer (market buffer : Pubkey)
| InitializeMarketConfigBuffer (buffer : Pubkey) (expire_after_secs : Z)
| SetMarketConfigBufferAuthority (buffer new_authority : Pubkey)
| CloseMarketConfigBuffer (buffer : Pubkey)
| PushToMarketConfigBuffer (buffer : Pubkey) (new_configs : list (string * Z))
| ClaimFeesFromMarket (market token target : Pubkey)
| UpdateAdlState (market : Pubkey) (oracle : Oracle.Oracle) (is_long : bool).

Section Instructions.
#[local] Existing Instance u128.
Context {F : FixedPointOps u128}.
Context {B : Type} {BO : BitmapOps MAX_FLAGS B}.
Context {C : Type} {CO : BitmapOps StoreConfig.MAX_CONFIG_FLAGS C}.
Context {R : Type} {RO : BitmapOps MAX_ROLES R}.
Context {T : Type} {TP : TokenProgram T}.
(** The hash of a role, the address of the store, the mint of a market's tokens and the vault of a
    mint (addresses that the program derives), the token map of the store, the decimals of a mint,
    the mint of a token account. *)
Context (to_key : bytes -> Z) (this : Pubkey).
Context (market_token_address : Pubkey -> Pubkey -> Pubkey -> Pubkey) (vault_address : Pubkey -> Pubkey).
Context (get_token_config : Pubkey -> option TokenConfig) (mint_decimals account_mint : Pubkey -> Z).

Definition WS (A : Type) : Type := ST (World T) StoreError A.

(** A market account of the store (constraint [has_one = store]). *)
Definition with_market {A} (key : Pubkey) (m : MS A) : WS A := fun w =>
  match world_markets w !! key with
  | None => (w, Err (Anchor "AccountNotInitialized"))
  | Some market =>
      let (market, r) := (do! _ := sread (fun self => has_one (store self =? this)) in m) market in
      (put_markets (<[key := market]> (world_markets w)) w, r)
  end.

Definition on_store {A} (m : SS A) : WS A := szoom world_store put_store m.
Definition on_tokens {A} (m : ST T StoreError A) : WS A := szoom world_tokens put_tokens m.

(** The constraint of a buffer: its authority signs. *)
Definition with_buffer {A} (key signer : Pubkey) (m : ST StoreConfig.MarketConfigBuffer StoreError A)
    : WS A :=
  fun w =>
  match world_buffers w !! key with
  | None => (w, Err (Anchor "AccountNotInitialized"))
  | Some b =>
      let (b, r) := (do! _ := sread (fun b => require (StoreConfig.buffer_authority b =? signer)
                                                 CoreError.PermissionDenied) in m) b in
      (put_buffers (<[key := b]> (world_buffers w)) w, r)
  end.

Section Handlers.
(** The slot of the last restart of the cluster, its time, and the signer. *)
Context (slot now : Z) (signer : Pubkey).

Definition only_market_keeper : WS unit := on_store (only_role to_key slot signer RoleKey.MARKET_KEEPER).
Definition only_order_keeper : WS unit := on_store (only_role to_key slot signer RoleKey.ORDER_KEEPER).

(** The constraints of the instructions on one market: the account, then the role. *)
Definition as_keeper {A} (keeper : WS unit) (key : Pubkey) (m : MS A) : WS A :=
  do! _ := with_market key (sret tt) in
  do! _ := keeper in
  with_market key m.

(** The checks of a pool token of a new market. *)
Definition check_pool_token (token : Pubkey) : store_result unit :=
  let! c := ok_or (get_token_config token) (Core CoreError.NotFound) in
  let! _ := require (is_token_enabled c) CoreError.TokenConfigDisabled in
  let! _ := require (is_valid_pool_token_config c) CoreError.InvalidArgument in
  require (token_decimals c =? mint_decimals token) CoreError.TokenDecimalsMismatched.

Definition unchecked_initialize_market (bump_ : Z) (index_token long_token short_token : Pubkey)
    (name : bytes) (enable : bool) : WS unit :=
  do! _ := slift (let! c := ok_or (get_token_config index_token) (Core CoreError.NotFound) in
                  require (is_token_enabled c) CoreError.InvalidArgument) in
  do! _ := slift (check_pool_token long_token) in
  do! _ := slift (check_pool_token short_token) in
  let key := market_token_address index_token long_token short_token in
  supdate (fun w =>
    match init now bump_ this name key index_token long_token short_token enable zeroed with
    | (market, Ok _) => Ok (put_markets (<[key := market]> (world_markets w)) w)
    | (_, Err e) => Err e
    | (_, Panic msg) => Panic msg
    end).

(** The accounts of the market and of its mint must be new. *)
Definition initialize_market (bump_ : Z) (index_token long_token short_token : Pubkey)
    (name : bytes) (enable : bool) : WS unit :=
  do! _ := sread (fun w =>
    if bool_decide (market_token_address index_token long_token short_token ∈ dom (world_markets w))
    then Err (Anchor "account already in use") else Ok tt) in
  do! _ := only_market_keeper in
  unchecked_initialize_market bump_ index_token long_token short_token name enable.

Definition toggle_market (key : Pubkey) (enable : bool) : WS unit :=
  as_keeper only_market_keeper key (do! _ := set_enabled enable in sret tt).

Definition toggle_gt_minting (key : Pubkey) (enable : bool) : WS unit :=
  as_keeper only_market_keeper key (do! _ := set_is_gt_minting_enbaled enable in sret tt).

(** The constraint [token::mint]. *)
Definition token_account (account mint : Pubkey) : store_result unit :=
  if account_mint account =? mint then Ok tt else Err (Anchor "ConstraintTokenMint").

(** [from] is a token account of the mint [token] other than the vault. *)
Definition market_transfer_in (key from token : Pubkey) (amount : Z) : WS unit :=
  do! _ := with_market key (sret tt) in
  do! _ := slift (token_account from token) in
  do! _ := slift (if from =? vault_address token then Err (Anchor "ConstraintRaw") else Ok tt) in
  do! _ := only_market_keeper in
  do! meta := with_market key (sread (fun self => validated_meta self this)) in
  do! _ := slift (require (is_collateral_token meta token) CoreError.InvalidArgument) in
  if amount =? 0 then sret tt
  else
    do! _ := on_tokens (transfer from (vault_address token) amount) in
    with_market key (revertibly (on_revertible (record_transferred_in_by_token token amount))).

Definition update_market_config (key : Pubkey) (config_key : string) (value : Z) : WS unit :=
  as_keeper only_market_keeper key (set_config_by_name config_key value).

Definition update_market_config_flag (key : Pubkey) (config_key : string) (value : bool) : WS unit :=
  as_keeper only_market_keeper key (do! _ := set_config_flag config_key value in sret tt).

Definition update_market_config_with_buffer (key buffer_key : Pubkey) : WS unit :=
  do! _ := with_market key (sret tt) in
  do! buffer := with_buffer buffer_key signer (sread (fun b =>
    let! _ := has_one (StoreConfig.buffer_store b =? this) in Ok b)) in
  do! _ := only_market_keeper in
  do! _ := slift (require (now <? StoreConfig.expiry buffer) CoreError.InvalidArgument) in
  do! _ := with_market key (update_config_with_buffer buffer) in
  (* the message of the instruction has the name of the market *)
  do! _ := with_market key (sread name) in
  sret tt.

(** *** The config buffers; any signer may have one *)

Definition initialize_market_config_buffer (buffer_key : Pubkey) (expire_after_secs : Z) : WS unit :=
  supdate (fun w =>
    match world_buffers w !! buffer_key with
    | Some _ => Err (Anchor "account already in use")
    | None =>
        Ok (put_buffers (<[buffer_key := StoreConfig.mkBuffer this signer
                                           (saturating_add_unsigned now expire_after_secs) []]>
                           (world_buffers w)) w)
    end).

Definition set_market_config_buffer_authority (buffer_key new_authority : Pubkey) : WS unit :=
  with_buffer buffer_key signer (smodify (fun b =>
    StoreConfig.mkBuffer (StoreConfig.buffer_store b) new_authority (StoreConfig.expiry b)
      (StoreConfig.entries b))).

Definition close_market_config_buffer (buffer_key : Pubkey) : WS unit :=
  do! _ := with_buffer buffer_key signer (sret tt) in
  smodify (fun w => put_buffers (delete buffer_key (world_buffers w)) w).

Fixpoint push_entries (new_configs : list (string * Z)) :
    ST StoreConfig.MarketConfigBuffer StoreError unit :=
  match new_configs with
  | [] => sret tt
  | args :: new_configs =>
      do! e := slift (StoreConfig.entry_try_from args) in
      do! _ := smodify (fun b => StoreConfig.buffer_push b e) in
      push_entries new_configs
  end.

Definition push_to_market_config_buffer (buffer_key : Pubkey) (new_configs : list (string * Z)) :
    WS unit :=
  with_buffer buffer_key signer (push_entries new_configs).

(** ** Claiming fees *)

(** What is claimed of one side of the pool: at most a [u64]. *)
Definition claimable (pool : Pool) (is_long : bool) : store_result Z :=
  let! x := model_result (balance_amount pool is_long) in
  expect (@try_u u64 (Z.min x (@u_max u64))) "must success".

Definition apply_claim (is_long : bool) (delta : Z) (pool : Pool) : result Pool :=
  if delta =? 0 then Ok pool else apply_delta_amount pool is_long delta.

(** The revertible part of [claim_fees_from_market]: the pool is copied into the buffer first. *)
Definition claim_fees (token : Pubkey) : ST RevertibleMarket StoreError Z :=
  do! is_long_token := sread (fun rm => model_result (to_token_side (acct_meta (rm_market rm)) token)) in
  do! pure := sread (fun rm => Ok (meta_is_pure (acct_meta (rm_market rm)))) in
  do! _ := on_revertible (rm_pool_mut ClaimableFee (fun pool => Ok pool)) in
  do! amount := sread (fun rm => claimable (rm_pool rm ClaimableFee) is_long_token) in
  do! delta := slift (model_result (to_opposite_signed amount)) in
  do! opposite := (if pure then
      do! other := sread (fun rm => claimable (rm_pool rm ClaimableFee) (negb is_long_token)) in
      do! other_delta := slift (model_result (to_opposite_signed other)) in
      do! total := slift (ok_or (@uadd u64 amount other) (Core CoreError.TokenAmountOverflow)) in
      sret (total, other_delta)
    else sret (amount, 0)) in
  let '(amount, other_delta) := opposite in
  do! _ := on_revertible (rm_pool_mut ClaimableFee (apply_claim is_long_token delta)) in
  do! _ := on_revertible (rm_pool_mut ClaimableFee (apply_claim (negb is_long_token) other_delta)) in
  do! _ := sread (fun rm =>
    model_result (validate_market_balance_for_the_given_token (rm_view rm) token amount)) in
  sret amount.

(** [MarketTransferOutOperation] ([ops/market.rs]): out of the vault of the token. *)
Definition transfer_out_operation (key to token : Pubkey) (amount : Z) : WS unit :=
  do! meta := with_market key (sread (fun self => validated_meta self this)) in
  do! _ := slift (require (is_collateral_token meta token) CoreError.InvalidCollateralToken) in
  if amount =? 0 then sret tt
  else
    do! _ := on_tokens (transfer (vault_address token) to amount) in
    with_market key (revertibly (on_revertible (record_transferred_out_by_token token amount))).

(** [MarketTransferInOperation]: from an account into the vault of the token. *)
Definition transfer_in_operation (key from token : Pubkey) (amount : Z) : WS unit :=
  do! _ := with_market key (sread (fun self => validate self this)) in
  if amount =? 0 then sret tt
  else
    do! _ := on_tokens (transfer from (vault_address token) amount) in
    with_market key (revertibly (on_revertible (record_transferred_in_by_token token amount))).

Definition claim_fees_from_market (key token target : Pubkey) : WS Z :=
  do! _ := with_market key (sret tt) in
  do! _ := slift (token_account target token) in
  do! _ := on_store (sread (validate_not_restarted slot)) in
  do! _ := on_store (sread (fun self => validate_claim_fees_address self signer)) in
  do! amount := with_market key (revertibly (claim_fees token)) in
  do! _ := transfer_out_operation key target token amount in
  sret amount.

(** The oracle with the prices of the market's tokens ([Oracle.with_prices]). *)
Definition update_adl_state_ix (key : Pubkey) (oracle : Oracle.Oracle) (is_long : bool) : WS unit :=
  as_keeper only_order_keeper key (update_adl_state now oracle is_long).

Definition run_instruction (i : MarketInstruction) : WS unit :=
  match i with
  | InitializeMarket bump index long short name enable => initialize_market bump index long short name
    enable
  | ToggleMarket key enable => toggle_market key enable
  | ToggleGtMinting key enable => toggle_gt_minting key enable
  | MarketTransferIn key from token amount => market_transfer_in key from token amount
  | UpdateMarketConfig key config_key value => update_market_config key config_key value
  | UpdateMarketConfigFlag key config_key value => update_market_config_flag key config_key value
  | UpdateMarketConfigWithBuffer key buffer => update_market_config_with_buffer key buffer
  | InitializeMarketConfigBuffer buffer secs => initialize_market_config_buffer buffer secs
  | SetMarketConfigBufferAuthority buffer authority => set_market_config_buffer_authority buffer
    authority
  | CloseMarketConfigBuffer buffer => close_market_config_buffer buffer
  | PushToMarketConfigBuffer buffer configs => push_to_market_config_buffer buffer configs
  | ClaimFeesFromMarket key token target => do! _ := claim_fees_from_market key token target in sret tt
  | UpdateAdlState key oracle is_long => update_adl_state_ix key oracle is_long
  end.

(** The instructions that only read: the status of a market and the price of its tokens. *)
Definition get_market_status (key : Pubkey) (prices : Prices) (maximize_pnl maximize_pool_value : bool)
    : WS MarketStatus :=
  with_market key (sread (fun self => model_result (from_market now self prices maximize_pnl maximize_pool_value))).

Definition get_market_token_price (key market_token : Pubkey) (prices : Prices) (pnl_factor : PnlFactorKind)
    (maximize : bool) : WS Z := fun w =>
  with_market key (sread (fun self =>
    let! _ := require (market_token_mint (meta self) =? market_token) CoreError.InvalidArgument in
    let supply := supply_of (world_tokens w) market_token in
    model_result (market_token_price (as_liquidity_market now supply self) prices pnl_factor maximize))) w.

(** An instruction that fails changes nothing. *)
Definition market_step (i : MarketInstruction) (w : World T) : World T :=
  match run_instruction i w with (w', Ok _) => w' | _ => w end.
End Handlers.
End Instructions.

(** ** What the operations of a revertible market do to its tokens *)
Section Steps.
#[local] Existing Instance u128.
Implicit Types (rm : RevertibleMarket) (dr dh : Pubkey -> Z).

Definition no_supply : LiquiditySupply := mkLiquiditySupply 0 0 0.

(** The market that a revertible market shows, and the one that a state holds. *)
Definition view rm : SwapMarket LiquiditySupply :=
  mkSwapMarket (acct_meta (rm_market rm)) (acct_is_pure (rm_market rm)) (shown no_supply 0 rm).

(** What the facts about tokens read of a market: not its configuration. *)
Definition same_tokens (a b : SwapMarket LiquiditySupply) : Prop :=
  sm_meta a = sm_meta b /\ sm_is_pure a = sm_is_pure b /\
  plain_long_balance (sm_plain a) = plain_long_balance (sm_plain b) /\
  plain_short_balance (sm_plain a) = plain_short_balance (sm_plain b) /\
  m_pools (sm_market a) = m_pools (sm_market b) /\ m_supply (sm_market a) = m_supply (sm_market b).

Lemma same_tokens_refl a : same_tokens a a.
Proof. done. Qed.

Lemma same_tokens_sym a b : same_tokens a b -> same_tokens b a.
Proof. intros (? & ? & ? & ? & ? & ?). by split_and!. Qed.

Lemma same_tokens_trans a b c : same_tokens a b -> same_tokens b c -> same_tokens a c.
Proof. intros (? & ? & ? & ? & ? & ?) (? & ? & ? & ? & ? & ?). split_and!; congruence. Qed.

Lemma same_tokens_amt a b k side : same_tokens a b -> amt (sm_market a) k side =
    amt (sm_market b) k side.
Proof. intros (_ & _ & _ & _ & Hp & _). unfold amt, pool_of. by rewrite Hp. Qed.

Lemma same_tokens_facts a b :
  same_tokens a b ->
  (SmWf a -> SmWf b) /\ (forall tok, recorded a tok = recorded b tok) /\
  (forall tok, pools_hold a tok = pools_hold b tok).
Proof.
  intros Hs. pose proof Hs as (Hm & Hpure & Hl & Hsh & Hp & Hsup). split_and!.
  - intros [[Hpools Hsupply] Hb Hpure' Hi]. split.
    + split; [|by rewrite <- Hsup]. intros k. specialize (Hpools k). unfold pool_of in *. by rewrite
      <- Hp.
    + by rewrite <- Hl, <- Hsh.
    + by rewrite <- Hpure, <- Hm.
    + rewrite <- Hpure. intros H. specialize (Hi H). unfold tokens_impure,
      pool_of in *. by rewrite <- Hp.
  - intros tok. unfold recorded. by rewrite Hm, Hpure, Hl, Hsh.
  - intros tok. unfold pools_hold, held. by rewrite Hm, !(same_tokens_amt a b _ _ Hs).
Qed.

Lemma sm_moved_same a a' b b' dr dh :
  SmMoved a dr dh b -> same_tokens a a' -> same_tokens b b' -> SmMoved a' dr dh b'.
Proof.
  intros [Hm Hwf Hr Hh Hs] Ha Hb. pose proof Ha as (Hma & _ & _ & _ & _ & Hsa).
  pose proof Hb as (Hmb & _ & _ & _ & _ & Hsb).
  destruct (same_tokens_facts _ _ Ha) as (_ & Hra & Hha).
  destruct (same_tokens_facts _ _ Hb) as (Hwfb & Hrb & Hhb). split.
  - congruence.
  - by apply Hwfb.
  - intros tok. by rewrite <- Hrb, <- Hra.
  - intros tok. by rewrite <- Hhb, <- Hha.
  - congruence.
Qed.

(** A step of a revertible market with [dr] more tokens recorded and [dh] more in the pools. *)
Record RmStep rm dr dh rm' : Prop := {
  step_frame : SameFrame rm rm';
  step_moved : SmMoved (view rm) dr dh (view rm');
}.

Lemma rm_step_refl rm : SmWf (view rm) -> RmStep rm nothing nothing rm.
Proof. intros Hwf. split; [apply same_frame_refl|by apply sm_moved_refl]. Qed.

Lemma rm_step_trans rm dr dh rm1 dr' dh' rm2 :
  RmStep rm dr dh rm1 -> RmStep rm1 dr' dh' rm2 ->
  RmStep rm (fun tok => dr tok + dr' tok) (fun tok => dh tok + dh' tok) rm2.
Proof.
  intros [Hf Hm] [Hf' Hm']. split; [by eapply same_frame_trans|by eapply sm_moved_trans].
Qed.

Lemma rm_step_eq rm dr dh rm' dr' dh' :
  RmStep rm dr dh rm' -> (forall tok, dr tok = dr' tok) -> (forall tok, dh tok = dh' tok) ->
  RmStep rm dr' dh' rm'.
Proof. intros [Hf Hm] Er Eh. split; [done|by eapply sm_moved_eq]. Qed.

Lemma rm_step_wf rm dr dh rm' : RmStep rm dr dh rm' -> SmWf (view rm').
Proof. intros [_ H]. apply H. Qed.

Lemma on_revertible_ok {A} (m : RM A) rm rm' a :
  on_revertible m rm = (rm', Ok a) -> m rm = (rm', Ok a).
Proof. unfold on_revertible. destruct (m rm) as [? r]. intros [= <- Hr]. by apply model_result_ok in
  Hr as ->. Qed.

(** No operation of a revertible market changes its meta. *)
Lemma rm_other_mut_meta f rm rm' r :
  rm_other_mut f rm = (rm', r) -> acct_meta (rm_market rm') = acct_meta (rm_market rm).
Proof. unfold rm_other_mut. destruct (buffer_other_mut _ _ _). by intros [= <- _]. Qed.

Lemma rm_pool_mut_meta k f rm rm' r :
  rm_pool_mut k f rm = (rm', r) -> acct_meta (rm_market rm') = acct_meta (rm_market rm).
Proof. unfold rm_pool_mut. destruct (buffer_pool_mut _ _ _ _). by intros [= <- _]. Qed.

Lemma record_step op sign token amount rm rm' :
  (forall a b r, @in_u u64 a -> op a b = Some r -> r = a + sign * b /\ @in_u u64 r) ->
  SmWf (view rm) ->
  (do! side := sread (fun self => to_token_side (acct_meta (rm_market self)) token) in
   record_transferred op side amount) rm = (rm', Ok tt) ->
  RmStep rm (pay token (sign * amount)) nothing rm'.
Proof.
  intros Hop Hwf H. apply sbind_ok in H as (rm1 & side & [-> Hside]%sread_ok & H).
  assert (acct_meta (rm_market rm') = acct_meta (rm_market rm)) as Hmeta.
  { pose proof H as H'. unfold record_transferred in H'.
    apply sbind_ok in H' as (rm2 & pure & [-> _]%sread_ok & H'). by eapply rm_other_mut_meta. }
  pose proof H as H'. apply (transfer_simulated no_supply 0) in H' as [Hframe Hplain].
  split; [done|].
  apply (record_ok op sign token amount (view rm) (view rm') tt); [done|done|].
  unfold record_by_token, sbind, sread. simpl. rewrite Hside. simpl. unfold on_plain. simpl.
  rewrite Hplain. simpl. unfold view. by rewrite Hmeta, (frame_pure _ _ Hframe).
Qed.

(** Recording a transfer leaves the pools alone. *)
Lemma record_pools op side amount rm rm' :
  record_transferred op side amount rm = (rm', Ok tt) ->
  m_pools (sm_market (view rm')) = m_pools (sm_market (view rm)).
Proof.
  intros H. apply (transfer_simulated no_supply 0) in H as [_ H]. unfold plain_transfer in H.
  apply supdate_ok in H. unfold view, sm_market. cbn [sm_plain].
  case_if_in H E; apply rbind_ok in H as (b & _ & H);
    match type of H with Ok ?x = Ok ?y => assert (y = x) as -> by congruence end; done.
Qed.

Lemma transferred_in_step token amount rm rm' :
  SmWf (view rm) -> on_revertible (record_transferred_in_by_token token amount) rm = (rm', Ok tt) ->
  RmStep rm (pay token amount) nothing rm'.
Proof.
  intros Hwf H%on_revertible_ok. rewrite <- (Z.mul_1_l amount). eapply record_step; [|done|exact H].
  intros a b r Ha Hab. apply uadd_some in Hab as [-> ?]. by rewrite Z.mul_1_l.
Qed.

Lemma transferred_out_step token amount rm rm' :
  SmWf (view rm) -> on_revertible (record_transferred_out_by_token token amount) rm = (rm', Ok tt) ->
  RmStep rm (pay token (- amount)) nothing rm'.
Proof.
  intros Hwf H%on_revertible_ok. replace (- amount) with (-1 * amount) by lia.
  eapply record_step; [|done|exact H].
  intros a b r Ha Hab. apply usub_some in Hab as [-> ?]. split; [lia|done].
Qed.

(** A change of one pool. *)
Lemma pool_step k f l s rm rm' :
  SmWf (view rm) -> on_revertible (rm_pool_mut k f) rm = (rm', Ok tt) ->
  (forall p, f (rm_pool rm k) = Ok p -> pool_moved (rm_pool rm k) l s p) ->
  let c := (change_at k true l + change_at k false s)%change in
  RmStep rm nothing
    (fun tok => pay (long_token_mint (acct_meta (rm_market rm))) (held_change c true) tok
                + pay (short_token_mint (acct_meta (rm_market rm))) (held_change c false) tok) rm'.
Proof.
  intros Hwf H%on_revertible_ok Hf c. pose proof (rm_pool_mut_meta _ _ _ _ _ H) as Hmeta.
  apply (pool_mut_simulated no_supply 0) in H as [Hframe Hplain]. split; [done|].
  unfold on_plain_market in Hplain. apply szoom_ok in Hplain as (market & Hm & Hshown).
  assert (Moved (sm_market (view rm)) c market) as Hmv.
  { eapply update_pool_moved; [apply Hwf| |exact Hm]. intros p Hp. unfold pool_of in *. simpl in *.
    rewrite pools_get_of in *. by apply Hf. }
  apply (pools_moved (view rm) c market Hwf) in Hmv.
  unfold view at 2. rewrite Hshown, Hmeta, (frame_pure _ _ Hframe). exact Hmv.
Qed.
End Steps.

(** ** Claiming fees *)
Section Claims.
#[local] Existing Instance u128.
Implicit Types (rm : RevertibleMarket).

Lemma rm_pool_wf rm k : SmWf (view rm) -> pool_wf (rm_pool rm k).
Proof.
  intros [[Hp _] _ _ _]. specialize (Hp k). unfold pool_of in Hp. simpl in Hp. by rewrite pools_get_of
    in Hp.
Qed.

Lemma claimable_ok pool side x :
  pool_wf pool -> claimable pool side = Ok x -> x = Z.min (pool_amount pool side) (@u_max u64) /\
    @in_u u64 x.
Proof.
  intros Hwf H. apply rbind_ok in H as (y & Hy & H). apply model_result_ok in Hy.
  rewrite balance_amount_ok in Hy by done. injection Hy as <-.
  by apply expect_ok, try_u_some in H as [-> Hx].
Qed.

Lemma claim_change l s b :
  held_change (change_at ClaimableFee true l + change_at ClaimableFee false s)%change b =
    if b then l else s.
Proof.
  unfold held_change, change_plus, change_at.
  rewrite !(decide_False (P := Primary = ClaimableFee)), !(decide_False (P :=
    SwapImpact = ClaimableFee)),
    !(decide_True (P := ClaimableFee = ClaimableFee)) by done.
  destruct b; simpl; lia.
Qed.

Lemma pay_zero token tok : pay token 0 tok = 0.
Proof. unfold pay. by case_if E. Qed.

Lemma claim_step side x rm rm' :
  SmWf (view rm) -> on_revertible (rm_pool_mut ClaimableFee (apply_claim side (- x))) rm =
    (rm', Ok tt) ->
  let mint := if side : bool then long_token_mint (acct_meta (rm_market rm))
              else short_token_mint (acct_meta (rm_market rm)) in
  RmStep rm nothing (pay mint (- x)) rm'.
Proof.
  intros Hwf H mint.
  eapply (pool_step _ _ (if side then - x else 0) (if side then 0 else - x)) in H; [|done|].
  - eapply rm_step_eq; [exact H|done|]. intros tok. rewrite !claim_change. unfold mint.
    destruct side; rewrite pay_zero; lia.
  - intros p. unfold apply_claim. destruct (Z.eqb_spec (- x) 0) as [E|E].
    + intros [= <-]. rewrite E. destruct side; by apply pool_moved_refl, rm_pool_wf.
    + intros Hp. apply apply_delta_amount_moves in Hp; [|by apply rm_pool_wf]. by destruct side.
Qed.

(** A claim takes the fees of the token out of the pools, and leaves enough recorded for what
    the claim will transfer out. *)
Lemma claim_fees_ok token rm rm' amount :
  SmWf (view rm) -> claim_fees token rm = (rm', Ok amount) ->
  RmStep rm nothing (pay token (- amount)) rm' /\ @in_u u64 amount /\
  validate_market_balance_for_the_given_token (rm_view rm') token amount = Ok tt.
Proof.
  intros Hwf H. unfold claim_fees in H.
  apply sbind_ok in H as (r0 & side & [-> Hside%model_result_ok]%sread_ok & H).
  apply sbind_ok in H as (r0 & pure & [-> [= <-]]%sread_ok & H).
  apply sbind_ok in H as (rm1 & [] & H1 & H).
  apply (pool_step _ _ 0 0) in H1; [|done|intros p [= <-]; by apply pool_moved_refl, rm_pool_wf].
  cbv zeta in H1. pose proof (rm_step_wf _ _ _ _ H1) as Hwf1.
  pose proof (sm_moved_meta _ _ _ _ (step_moved _ _ _ _ H1)) as Hmeta1. simpl in Hmeta1.
  apply sbind_ok in H as (r0 & x & [-> Hx]%sread_ok & H). apply claimable_ok in Hx as [_ Hx];
    [|by apply rm_pool_wf].
  apply sbind_ok in H as (r0 & delta & [-> Hdelta%model_result_ok]%slift_ok & H).
  apply to_opposite_signed_ok in Hdelta as [-> _].
  apply sbind_ok in H as (r0 & [total other] & Hother & H).
  cbv beta in Hother.
  set (mint b := if b : bool then long_token_mint (acct_meta (rm_market rm))
                 else short_token_mint (acct_meta (rm_market rm))).
  assert (r0 = rm1 /\ @in_u u64 total /\ exists y, other = - y /\
    forall tok, pay token (- total) tok = pay (mint side) (- x) tok + pay (mint (negb side)) (- y) tok)
    as (-> & Htotal & y & -> & Heq).
  { apply to_token_side_ok in Hside. change (token = mint side) in Hside.
    destruct (meta_is_pure (acct_meta (rm_market rm))) eqn:Hpure.
    - apply sbind_ok in Hother as (r1 & y & [-> Hy]%sread_ok & Hother).
      apply claimable_ok in Hy as [_ Hy]; [|by apply rm_pool_wf].
      apply sbind_ok in Hother as (r1 & d & [-> Hd%model_result_ok]%slift_ok & Hother).
      apply to_opposite_signed_ok in Hd as [-> _].
      apply sbind_ok in Hother as (r1 & t & [-> Ht%ok_or_ok]%slift_ok & Hother).
      apply uadd_some in Ht as [-> Ht]. injection Hother as <- <- <-.
      split_and!; [done|done|]. exists y. split; [done|]. intros tok.
      apply Z.eqb_eq in Hpure. assert (mint (negb side) = token) as ->.
      { rewrite Hside. unfold mint. destruct side; simpl; congruence. }
      rewrite <- Hside, pay_plus. f_equal. lia.
    - injection Hother as <- <- <-. split_and!; [done|done|]. exists 0. split; [done|]. intros tok.
      rewrite <- Hside, pay_zero. lia. }
  apply sbind_ok in H as (rm2 & [] & H2 & H). apply claim_step in H2; [|done].
  pose proof (rm_step_wf _ _ _ _ H2) as Hwf2.
  pose proof (sm_moved_meta _ _ _ _ (step_moved _ _ _ _ H2)) as Hmeta2. simpl in Hmeta2.
  apply sbind_ok in H as (rm3 & [] & H3 & H). apply claim_step in H3; [|done].
  apply sbind_ok in H as (r0 & [] & [-> Hv%model_result_ok]%sread_ok & H). injection H as <- <-.
  split_and!; [|done|done].
  eapply rm_step_eq; [eapply rm_step_trans; [exact H1|eapply rm_step_trans; [exact H2|exact H3]]|done|].
  intros tok. rewrite !claim_change, !pay_zero, Heq. unfold mint. rewrite Hmeta2, Hmeta1. lia.
Qed.
End Claims.

(** ** Well-formed accounts *)
Section Accounts.
#[local] Existing Instance u128.
Context {F : FixedPointOps u128}.
Context {B : Type} {BO : BitmapOps MAX_FLAGS B} {BL : BitmapLaws MAX_FLAGS B}.
Context {C : Type} {CO : BitmapOps StoreConfig.MAX_CONFIG_FLAGS C}.
Implicit Types (self : Market) (dr dh : Pubkey -> Z).

#[export] Instance flag_u8_inj : Inj (=) (=) flag_u8.
Proof. intros f g E. destruct f, g; first [reflexivity|discriminate E]. Qed.

Lemma market_flag_u8_bound f : (flag_u8 f < MAX_FLAGS)%nat.
Proof. unfold MAX_FLAGS. destruct f; simpl; lia. Qed.

Lemma flag_set_flag self f v g :
  get_flag (H := BO) flag_u8 (fst (set_flag (H := BO) flag_u8 (flags self) f v)) g = if decide (f =
    g) then v else flag self g.
Proof. apply get_set_flag; [apply market_flag_u8_bound|apply _]. Qed.

Lemma set_market_flag_ok f v self self' previous :
  set_market_flag f v self = (self', Ok previous) ->
  previous = flag self f /\
  self' = set_flags (fst (set_flag (H := BO) flag_u8 (flags self) f v)) self /\
  (forall g, flag self' g = if decide (f = g) then v else flag self g).
Proof.
  unfold set_market_flag. destruct (set_flag _ _ _ _) as [fl p] eqn:E. intros [= <- <-].
  split_and!; [|done|].
  - unfold set_flag in E. by injection E as _ <-.
  - intros g. rewrite <- flag_set_flag, E. done.
Qed.

Definition as_swap self : SwapMarket LiquiditySupply :=
  mkSwapMarket (meta self) (is_pure self)
    (stored no_supply 0 (StoreConfig.model_config (config self)) (state self)).

Record MarketWf self : Prop := {
  wf_swap : SmWf (as_swap self);
  wf_buffer : BufferWf (buffer self);
}.

(** [self'] is [self] with [dr] more tokens recorded and [dh] more in the pools. *)
Record AcctMoved self dr dh self' : Prop := {
  acct_moved : SmMoved (as_swap self) dr dh (as_swap self');
  acct_buffer_wf : BufferWf (buffer self');
  acct_store : store self' = store self;
}.

Lemma acct_moved_wf self dr dh self' : AcctMoved self dr dh self' -> MarketWf self'.
Proof. intros [H Hb _]. split; [apply H|done]. Qed.

Lemma acct_moved_refl self : MarketWf self -> AcctMoved self nothing nothing self.
Proof. intros [Hs Hb]. split; [by apply sm_moved_refl|done|done]. Qed.

(** A change that the tokens do not see. *)
Lemma acct_moved_same self self' :
  MarketWf self -> same_tokens (as_swap self) (as_swap self') -> buffer self' = buffer self ->
  store self' = store self -> AcctMoved self nothing nothing self'.
Proof.
  intros [Hs Hb] Hsame Hbuf Hstore. split; [|by rewrite Hbuf|done].
  eapply sm_moved_same; [by apply sm_moved_refl|apply same_tokens_refl|done].
Qed.

Lemma set_flag_moved f v self self' previous :
  f <> Pure -> MarketWf self -> set_market_flag f v self = (self', Ok previous) ->
  AcctMoved self nothing nothing self'.
Proof.
  intros Hf Hwf H. apply set_market_flag_ok in H as (_ & -> & Hflag).
  apply acct_moved_same; [done| |done|done]. split_and!; try done.
  simpl. unfold is_pure. rewrite Hflag. by rewrite decide_False.
Qed.

Lemma set_config_moved c self : MarketWf self -> AcctMoved self nothing nothing (set_config c self).
Proof. intros Hwf. by apply acct_moved_same. Qed.

Lemma set_indexer_moved i self : MarketWf self -> AcctMoved self nothing nothing (set_indexer i self).
Proof. intros Hwf. by apply acct_moved_same. Qed.

(** An account after an operation on a revertible market. *)
Lemma revertibly_moved {A} (m : ST RevertibleMarket StoreError A) self self' a dr dh :
  MarketWf self ->
  (forall rm rm', SmWf (view rm) -> m rm = (rm', Ok a) -> RmStep rm dr dh rm') ->
  revertibly m self = (self', Ok a) -> AcctMoved self dr dh self' /\
  exists rm rm', same_tokens (as_swap self) (view rm) /\ SmWf (view rm) /\ m rm = (rm', Ok a) /\
    same_tokens (as_swap self') (view rm').
Proof.
  intros [Hwf Hbuf] Hm H. unfold revertibly in H.
  destruct (model_result _) as [rm| |] eqn:Hnew in H; [|done|done]. apply model_result_ok in Hnew.
  pose proof Hnew as Hmeta. unfold revertible_market_new in Hmeta. apply rbind_ok in Hmeta as (b & _ &
    [= Hrm]).
  apply (new_ok no_supply 0 (as_account self) rm 0 PricingSwap) in Hnew as (Hshown & _ & Hpure &
    Hbuf'); [|done].
  assert (set_swap_pricing_kind (with_order_fee_discount_factor rm 0) PricingSwap = rm) as Hrm'
    by (by rewrite <- Hrm).
  rewrite Hrm' in Hshown, Hpure, Hbuf'.
  assert (same_tokens (as_swap self) (view rm)) as Hsame.
  { unfold view. rewrite Hshown, Hpure. split_and!; try done. by rewrite <- Hrm. }
  destruct (m rm) as [rm' [a'| |]] eqn:Hrun; [|done|done]. injection H as <- ->.
  assert (SmWf (view rm)) as Hwfv by (by apply (same_tokens_facts _ _ Hsame)).
  apply Hm in Hrun as Hstep; [|done].
  destruct (commit rm') as [acct updated] eqn:Hc. apply (commit_ok no_supply 0) in Hc as (Hst & Hbufc
    & _ & _).
  assert (same_tokens (as_swap (put_account acct self)) (view rm')) as Hsame'.
  { destruct Hstep as [Hframe Hmoved]. pose proof (sm_moved_meta _ _ _ _ Hmoved) as Hmt. simpl in Hmt.
    unfold same_tokens, sm_market, view. cbn [sm_meta sm_is_pure sm_plain]. rewrite <- Hst.
    split_and!; try done; [rewrite Hmt|rewrite (frame_pure _ _ Hframe)]; by rewrite <- Hrm. }
  split; [|by exists rm, rm'].
  simpl. split; simpl.
  - eapply sm_moved_same; [apply Hstep|by apply same_tokens_sym|by apply same_tokens_sym].
  - rewrite Hbufc. by apply (frame_buffer _ _ (step_frame _ _ _ _ Hstep)).
  - done.
Qed.
End Accounts.

(** ** A new market *)
Section Init.
#[local] Existing Instance u128.
Context {F : FixedPointOps u128}.
Context {B : Type} {BO : BitmapOps MAX_FLAGS B} {BL : BitmapLaws MAX_FLAGS B}.
Context {C : Type} {CO : BitmapOps StoreConfig.MAX_CONFIG_FLAGS C}.
Implicit Types (self : Market).

(** What [init] leaves of a new account. *)
Record Initialized (now : Z) (store_ : Pubkey) (name_ : bytes) (mt : MarketMeta) (enabled :
  bool) self : Prop := {
  new_meta : meta self = mt;
  new_store : store self = store_;
  new_name : market_name self = name_ ++ replicate (MAX_NAME_LEN - length name_) 0;
  new_flag f : flag self f = match f with
                             | Enabled => enabled
                             | Pure => meta_is_pure mt
                             | _ => false
                             end;
  new_config : config self = StoreConfig.init StoreConfig.zeroed_config;
  new_pool k : storage_pool (pools_get (state_pools (state self)) k) =
               mkPool (if negb (must_be_impure k) && meta_is_pure mt then PURE_VALUE else 0) 0 0;
  new_clocks : state_clocks (state self) = mkClocksStorage 0 (mkClocks now now now) 0 0;
  new_other : state_other (state self) = mkOtherState 0 0 0 0 0;
  new_buffer : buffer self = buffer_init (mkBuffer 0 zeroed_state);
  new_indexer : indexer self = mkIndexer 0 0 0 0 0 0 0;
}.

Lemma pools_get_init ps pure k :
  pools_get (pools_init ps pure) k =
  storage_set_is_pure (pools_get ps k) (if must_be_impure k then false else pure).
Proof. unfold pools_init. by rewrite pools_get_of. Qed.

Lemma flag_zeroed f : flag (B := B) zeroed f = false.
Proof. unfold flag, zeroed. simpl. apply get_flag_default. Qed.

Lemma set_flags_flag f v g self fl p :
  set_flag (H := BO) flag_u8 (flags self) f v = (fl, p) ->
  get_flag (H := BO) flag_u8 fl g = if decide (f = g) then v else flag self g.
Proof. intros E. rewrite <- flag_set_flag, E. done. Qed.

Lemma init_runs now bump_ store_ name_ mt enabled :
  let run := init now bump_ store_ name_ (market_token_mint mt) (index_token_mint mt) (long_token_mint
    mt)
               (short_token_mint mt) enabled zeroed in
  if (length name_ <=? MAX_NAME_LEN)%nat
  then snd run = Ok tt /\ Initialized now store_ name_ mt enabled (fst run)
  else snd run = Err (Core CoreError.ExceedMaxLengthLimit).
Proof.
  unfold init, sbind, smodify, slift, fixed_str_to_bytes, require, set_enabled, set_market_flag.
  destruct (length name_ <=? MAX_NAME_LEN)%nat; [|done].
  unfold rbind. cbn [flags].
  destruct (set_flag flag_u8 (flags zeroed) Enabled enabled) as [fl p] eqn:E1. cbn [flags set_flags].
  destruct (set_flag flag_u8 fl Pure _) as [fl2 p2] eqn:E2. cbn [fst snd]. split; [done|].
  split; try done.
  - cbn [meta set_config set_state]. by destruct mt.
  - intros f. apply (set_flags_flag Enabled enabled f zeroed) in E1.
    unfold flag at 1. cbn [flags set_config set_state set_flags].
    assert (forall g, get_flag (H := BO) flag_u8 fl2 g =
              if decide (Pure = g) then meta_is_pure mt else get_flag (H := BO) flag_u8 fl g) as Hfl2.
    { intros g. apply (set_flags_flag Pure (meta_is_pure mt) g (set_flags fl zeroed) fl2 p2) in E2.
      exact E2. }
    rewrite Hfl2, E1. rewrite flag_zeroed. by destruct f.
  - intros k. cbn [state set_config set_state state_pools]. rewrite pools_get_init.
    cbn [state set_flags zeroed state_pools]. unfold zeroed_state. cbn [state_pools].
    rewrite pools_get_of. unfold meta_is_pure. by destruct (must_be_impure k), (_ =? _).
Qed.

(** A new market is well formed, and has no tokens. *)
Lemma initialized_wf now store_ name_ mt enabled self :
  Initialized now store_ name_ mt enabled self ->
  MarketWf self /\ forall tok, recorded (as_swap self) tok = 0.
Proof.
  intros H. assert (forall k, pool_of (sm_market (as_swap self)) k =
      mkPool (if negb (must_be_impure k) && meta_is_pure mt then PURE_VALUE else 0) 0 0) as Hpool.
  { intros k. unfold pool_of, sm_market, as_swap, stored,
    plain_of. simpl. rewrite pools_get_of. apply H. }
  split; [split|].
  - split.
    + split; [|by repeat split]. intros k. rewrite Hpool. by repeat split.
    + simpl. rewrite (new_other _ _ _ _ _ _ H). by repeat split.
    + simpl. unfold is_pure. rewrite (new_flag _ _ _ _ _ _ H), (new_meta _ _ _ _ _ _ H). done.
    + simpl. unfold is_pure. rewrite (new_flag _ _ _ _ _ _ H). intros Hp.
      unfold tokens_impure. rewrite !Hpool, Hp. done.
  - rewrite (new_buffer _ _ _ _ _ _ H). split.
    + intros k. simpl. by destruct k.
    + simpl. lia.
    + simpl. lia.
  - intros tok. unfold recorded. simpl. rewrite (new_other _ _ _ _ _ _ H). simpl. rewrite !pay_zero.
    by destruct (is_pure self).
Qed.
End Init.

(** ** The markets of a store *)
Section Worlds.
#[local] Existing Instance u128.
Context {F : FixedPointOps u128}.
Context {B : Type} {BO : BitmapOps MAX_FLAGS B} {BL : BitmapLaws MAX_FLAGS B}.
Context {C : Type} {CO : BitmapOps StoreConfig.MAX_CONFIG_FLAGS C}.
Context {R : Type} {RO : BitmapOps MAX_ROLES R} {RL : BitmapLaws MAX_ROLES R}.
Context {T : Type} {TP : TokenProgram T} {TL : TokenProgramLaws T}.
Context (to_key : bytes -> Z) (this : Pubkey).
Context (market_token_address : Pubkey -> Pubkey -> Pubkey -> Pubkey) (vault_address : Pubkey -> Pubkey).
Context (get_token_config : Pubkey -> option TokenConfig) (mint_decimals account_mint : Pubkey -> Z).
(** A vault is a token account of its mint. *)
Context (Hvault : forall mint, account_mint (vault_address mint) = mint).
Implicit Types (w : World T) (m : Market) (dr dh : Pubkey -> Z).

(** What the markets of the store record of a token. *)
Definition all_recorded (ms : gmap Pubkey Market) (tok : Pubkey) : Z :=
  map_sum (fun m => recorded (as_swap m) tok) ms.

(** The account of a market at its key: the store's, and at the address of its mints. *)
Record MarketAt (key : Pubkey) m : Prop := {
  at_wf : MarketWf m;
  at_store : store m = this;
  at_key_ : market_token_mint (meta m) = key;
  at_address : key = market_token_address (index_token_mint (meta m)) (long_token_mint (meta m))
                       (short_token_mint (meta m));
}.

Record WorldWf w : Prop := {
  world_at key m : world_markets w !! key = Some m -> MarketAt key m;
  world_covered tok : all_recorded (world_markets w) tok <= amount_of (world_tokens w) (vault_address
    tok);
}.

(** A step of the markets with [dr] more recorded; what else changes is left open. *)
Record WorldMoved w dr w' : Prop := {
  wm_at key m : world_markets w' !! key = Some m -> MarketAt key m;
  wm_recorded tok : all_recorded (world_markets w') tok = all_recorded (world_markets w) tok + dr tok;
  wm_kept key : is_Some (world_markets w !! key) -> is_Some (world_markets w' !! key);
}.

Definition MarketsAt w : Prop := forall key m, world_markets w !! key = Some m -> MarketAt key m.

Lemma with_market_ok {A} key (op : MS A) w w' a :
  with_market this key op w = (w', Ok a) ->
  exists m m', world_markets w !! key = Some m /\ store m = this /\ op m = (m', Ok a) /\
    w' = put_markets (<[key := m']> (world_markets w)) w.
Proof.
  unfold with_market. destruct (world_markets w !! key) as [m|]; [|done].
  destruct (sbind _ _ m) as [m' r] eqn:E. intros [= <- ->].
  apply sbind_ok in E as (m1 & [] & [-> Hs%has_one_ok%Z.eqb_eq]%sread_ok & E). eauto 8.
Qed.

(** A read leaves the world as it is. *)
Lemma with_market_read {A} key (f : Market -> store_result A) w w' a :
  with_market this key (sread f) w = (w', Ok a) ->
  w' = w /\ exists m, world_markets w !! key = Some m /\ store m = this /\ f m = Ok a.
Proof.
  intros H. apply with_market_ok in H as (m & m' & Hm & Hs & [-> Hf]%sread_ok & ->).
  split; [|eauto]. unfold put_markets. rewrite insert_id by done. by destruct w.
Qed.

Lemma with_market_check key w w' u :
  with_market this key (sret tt) w = (w', Ok u) ->
  w' = w /\ exists m, world_markets w !! key = Some m /\ store m = this.
Proof.
  intros H. apply (with_market_read key (fun _ => Ok tt)) in H as (-> & m & Hm & Hs & _). eauto.
Qed.

Lemma with_market_moved {A} key (op : MS A) w w' a dr dh :
  MarketsAt w -> with_market this key op w = (w', Ok a) ->
  (forall m m', MarketAt key m -> op m = (m', Ok a) -> AcctMoved m dr dh m') ->
  WorldMoved w dr w' /\ world_tokens w' = world_tokens w /\ world_store w' = world_store w.
Proof.
  intros Hat H Hop. apply with_market_ok in H as (m & m' & Hm & Hs & Hrun & ->).
  pose proof (Hat _ _ Hm) as Hk. apply Hop in Hrun as Hmv; [|done].
  split; [|done]. pose proof (acct_moved _ _ _ _ Hmv) as Hsm.
  pose proof (sm_moved_meta _ _ _ _ Hsm) as Hmeta. simpl in Hmeta. split.
  - intros key' m1 H1. simpl in H1. destruct (decide (key' = key)) as [->|Hne].
    + rewrite lookup_insert_eq in H1. injection H1 as <-. destruct Hk as [Hwf _ Hkey Haddr]. split.
      * by eapply acct_moved_wf.
      * by rewrite (acct_store _ _ _ _ Hmv).
      * by rewrite Hmeta.
      * by rewrite Hmeta.
    + rewrite lookup_insert_ne in H1 by done. by apply Hat.
  - intros tok. unfold all_recorded. cbn [world_markets put_markets].
    rewrite map_sum_insert, Hm. cbn [from_option]. rewrite (sm_moved_recorded _ _ _ _ Hsm). lia.
  - intros key' Hk'. simpl. destruct (decide (key' = key)) as [->|Hne].
    + rewrite lookup_insert_eq. eauto.
    + by rewrite lookup_insert_ne.
Qed.

(** A step that touches no market and no token. *)
Lemma on_store_ok {A} (op : SS A) w w' a :
  on_store op w = (w', Ok a) ->
  world_markets w' = world_markets w /\ world_tokens w' = world_tokens w /\ world_buffers w' =
    world_buffers w.
Proof. intros H. unfold on_store in H. by apply szoom_ok in H as (s & _ & ->). Qed.

Lemma on_tokens_ok {A} (op : ST T StoreError A) w w' a :
  on_tokens op w = (w', Ok a) ->
  op (world_tokens w) = (world_tokens w', Ok a) /\ world_markets w' = world_markets w /\
  world_store w' = world_store w.
Proof. intros H. unfold on_tokens in H. by apply szoom_ok in H as (s & ? & ->). Qed.

Lemma with_buffer_ok {A} key signer (op : ST StoreConfig.MarketConfigBuffer StoreError A) w w' a :
  with_buffer key signer op w = (w', Ok a) ->
  exists b b', world_buffers w !! key = Some b /\ StoreConfig.buffer_authority b = signer /\
    op b = (b', Ok a) /\ w' = put_buffers (<[key := b']> (world_buffers w)) w.
Proof.
  unfold with_buffer. destruct (world_buffers w !! key) as [b|]; [|done].
  destruct (sbind _ _ b) as [b' r] eqn:E. intros [= <- ->].
  apply sbind_ok in E as (m1 & [] & [-> Hs%require_ok%Z.eqb_eq]%sread_ok & E). eauto 8.
Qed.

Lemma world_moved_wf w dr w' :
  WorldWf w -> WorldMoved w dr w' ->
  (forall tok, amount_of (world_tokens w) (vault_address tok) + dr tok
               <= amount_of (world_tokens w') (vault_address tok)) -> WorldWf w'.
Proof.
  intros [Hat Hc] [Hat' Hr _] Ht. split; [done|]. intros tok. rewrite Hr. specialize (Hc tok).
  specialize (Ht tok). lia.
Qed.

Lemma world_still_wf w w' :
  WorldWf w -> WorldMoved w nothing w' -> world_tokens w' = world_tokens w -> WorldWf w'.
Proof. intros Hw Hm Ht. eapply world_moved_wf; [done..|]. intros tok. rewrite Ht. unfold nothing. lia.
  Qed.

Lemma world_moved_refl w : MarketsAt w -> WorldMoved w nothing w.
Proof. intros Hat. split; [done|intros tok; unfold nothing; lia|done]. Qed.

Lemma world_same_wf w w' :
  WorldWf w -> world_markets w' = world_markets w -> world_tokens w' = world_tokens w -> WorldWf w'.
Proof. intros [Hat Hc] Hm Ht. split; rewrite ?Hm, ?Ht; [done|]. intros tok. apply Hc. Qed.

Lemma as_keeper_wf {A} keeper key (op : MS A) w w' a :
  (forall w1 w2 u, keeper w1 = (w2, Ok u) ->
     world_markets w2 = world_markets w1 /\ world_tokens w2 = world_tokens w1) ->
  WorldWf w -> as_keeper this keeper key op w = (w', Ok a) ->
  (forall m m', MarketAt key m -> op m = (m', Ok a) -> AcctMoved m nothing nothing m') -> WorldWf w'.
Proof.
  intros Hkeeper Hw H Hop. unfold as_keeper in H.
  apply sbind_ok in H as (w1 & u & Hc & H). apply with_market_check in Hc as (-> & _).
  apply sbind_ok in H as (w1 & u' & Hk & H). apply Hkeeper in Hk as [Hm Ht].
  assert (WorldWf w1) as Hw1 by by eapply world_same_wf.
  eapply with_market_moved in H as (Hmv & Ht' & _); [|exact (world_at _ Hw1)|exact Hop].
  by eapply world_still_wf.
Qed.

Lemma only_keeper_same slot signer role w w' u :
  on_store (only_role to_key slot signer role) w = (w', Ok u) ->
  world_markets w' = world_markets w /\ world_tokens w' = world_tokens w.
Proof. intros H. by apply on_store_ok in H as (? & ? & _). Qed.

(** ** Transfers *)

Lemma at_vault mint x tok : at_key (vault_address mint) x (vault_address tok) =
    if tok =? mint then x else 0.
Proof.
  unfold at_key. destruct (Z.eqb_spec tok mint) as [->|Hne]; [by rewrite Z.eqb_refl|].
  destruct (Z.eqb_spec (vault_address tok) (vault_address mint)) as [E|]; [|done].
  destruct Hne. rewrite <- (Hvault tok), <- (Hvault mint). by rewrite E.
Qed.

Lemma at_key_nonneg k x k' : 0 <= x -> 0 <= at_key k x k'.
Proof. unfold at_key. case_if E; lia. Qed.

(** Tokens that come into the vault from an account of the mint other than the vault. *)
Lemma transfer_in_vault from token x t t' tok :
  account_mint from = token -> from <> vault_address token -> 0 <= x ->
  transfer from (vault_address token) x t = (t', Ok tt) ->
  amount_of t' (vault_address tok) = amount_of t (vault_address tok) + pay token x tok.
Proof.
  intros Hmint Hne Hx H. apply transfer_law in H as (_ & -> & _); [|done]. rewrite at_vault.
  assert (at_key from x (vault_address tok) = 0) as ->; [|unfold pay; lia].
  unfold at_key. destruct (Z.eqb_spec (vault_address tok) from) as [E|]; [|done].
  destruct Hne. rewrite <- E, Hvault in Hmint. by rewrite <- Hmint, E.
Qed.

Lemma transfer_out_vault to token x t t' tok :
  0 <= x -> transfer (vault_address token) to x t = (t', Ok tt) ->
  amount_of t (vault_address tok) + pay token (- x) tok <= amount_of t' (vault_address tok).
Proof.
  intros Hx H. apply transfer_law in H as (_ & -> & _); [|done]. rewrite at_vault.
  pose proof (at_key_nonneg to x (vault_address tok) Hx). unfold pay. case_if E; lia.
Qed.

(** Recording a transfer on the account of a market. *)
Lemma record_in_moved token x m m' :
  MarketWf m -> revertibly (on_revertible (record_transferred_in_by_token token x)) m = (m', Ok tt) ->
  AcctMoved m (pay token x) nothing m'.
Proof.
  intros Hwf H. eapply revertibly_moved in H as [H _]; [exact H|done|].
  intros rm rm' Hrm Hr. by apply transferred_in_step.
Qed.

Lemma record_out_moved token x m m' :
  MarketWf m -> revertibly (on_revertible (record_transferred_out_by_token token x)) m = (m', Ok tt) ->
  AcctMoved m (pay token (- x)) nothing m'.
Proof.
  intros Hwf H. eapply revertibly_moved in H as [H _]; [exact H|done|].
  intros rm rm' Hrm Hr. by apply transferred_out_step.
Qed.

Lemma transferred_in_wf key from token x w w' w1 w2 :
  WorldWf w -> account_mint from = token -> from <> vault_address token -> 0 <= x ->
  world_markets w1 = world_markets w -> world_tokens w1 = world_tokens w ->
  (do! _ := on_tokens (transfer from (vault_address token) x) in
   with_market this key (revertibly (on_revertible (record_transferred_in_by_token token x)))) w1 =
     (w2, Ok tt) ->
  w' = w2 -> WorldWf w'.
Proof.
  intros Hw Hmint Hne Hx Hm1 Ht1 H ->. apply sbind_ok in H as (w3 & [] & Ht & H).
  apply on_tokens_ok in Ht as (Ht & Hm3 & _).
  assert (MarketsAt w3) as Hat3 by (intros k m; rewrite Hm3, Hm1; apply Hw).
  apply (with_market_moved _ _ _ _ _ (pay token x) nothing) in H as (Hmv & Ht' & _); [|done|].
  - destruct Hmv as [Hat Hr Hk]. split; [done|]. intros tok.
    rewrite Hr, Hm3, Hm1, Ht'. rewrite (transfer_in_vault _ _ _ _ _ tok Hmint Hne Hx Ht), Ht1.
    pose proof (world_covered _ Hw tok). lia.
  - intros m m' Hk Hop. apply record_in_moved; [apply Hk|done].
Qed.

Lemma transfer_out_operation_wf key to token x w w' :
  WorldWf w -> 0 <= x -> transfer_out_operation this vault_address key to token x w = (w', Ok tt) ->
    WorldWf w'.
Proof.
  intros Hw Hx H. unfold transfer_out_operation in H.
  apply sbind_ok in H as (w1 & mt & Hr & H). apply with_market_read in Hr as (-> & _).
  apply sbind_ok in H as (w1 & [] & [-> _]%slift_ok & H).
  destruct (x =? 0); [by injection H as <-|].
  apply sbind_ok in H as (w3 & [] & Ht & H). apply on_tokens_ok in Ht as (Ht & Hm3 & _).
  assert (MarketsAt w3) as Hat3 by (intros k m; rewrite Hm3; apply Hw).
  apply (with_market_moved _ _ _ _ _ (pay token (- x)) nothing) in H as (Hmv & Ht' & _); [|done|].
  - destruct Hmv as [Hat Hr Hk]. split; [done|]. intros tok. rewrite Hr, Hm3, Ht'.
    pose proof (transfer_out_vault _ _ _ _ _ tok Hx Ht). pose proof (world_covered _ Hw tok). lia.
  - intros m m' Hk Hop. apply record_out_moved; [apply Hk|done].
Qed.
End Worlds.

(** ** The instructions *)
Section Preservation.
#[local] Existing Instance u128.
Context {F : FixedPointOps u128}.
Context {B : Type} {BO : BitmapOps MAX_FLAGS B} {BL : BitmapLaws MAX_FLAGS B}.
Context {C : Type} {CO : BitmapOps StoreConfig.MAX_CONFIG_FLAGS C}.
Context {R : Type} {RO : BitmapOps MAX_ROLES R} {RL : BitmapLaws MAX_ROLES R}.
Context {T : Type} {TP : TokenProgram T} {TL : TokenProgramLaws T}.
Context (to_key : bytes -> Z) (this : Pubkey).
Context (market_token_address : Pubkey -> Pubkey -> Pubkey -> Pubkey) (vault_address : Pubkey -> Pubkey).
Context (get_token_config : Pubkey -> option TokenConfig) (mint_decimals account_mint : Pubkey -> Z).
Context (Hvault : forall mint, account_mint (vault_address mint) = mint).
Implicit Types (w : World T) (m : Market).
Abbreviation Wf := (WorldWf this market_token_address vault_address).
Abbreviation run := (run_instruction to_key this market_token_address vault_address get_token_config
                       mint_decimals account_mint).

(** The arguments of an instruction are of their types: an amount is a [u64]. *)
Definition instruction_sane (i : MarketInstruction) : Prop :=
  match i with MarketTransferIn _ _ _ amount => @in_u u64 amount | _ => True end.

Lemma update_adl_moved now oracle is_long m m' u :
  MarketWf m -> update_adl_state now oracle is_long m = (m', Ok u) -> AcctMoved m nothing nothing m'.
Proof.
  intros Hwf H. unfold update_adl_state in H.
  apply sbind_ok in H as (m0 & latest & [-> _]%sread_ok & H).
  apply sbind_ok in H as (m0 & u1 & [-> _]%slift_ok & H).
  apply sbind_ok in H as (m0 & u2 & [-> _]%sread_ok & H).
  apply sbind_ok in H as (m0 & prices & [-> _]%sread_ok & H).
  apply sbind_ok in H as (m0 & exceeded & [-> _]%sread_ok & H).
  apply sbind_ok in H as (m1 & previous & Hf & H). apply smodify_ok in H as ->.
  apply set_market_flag_ok in Hf as (_ & -> & Hflag).
  apply acct_moved_same; [done| |done|done]. split_and!; try done.
  specialize (Hflag Pure). rewrite decide_False in Hflag by (by destruct is_long). symmetry. exact Hflag.
Qed.

Lemma initialize_market_wf slot now signer bump_ index long short name_ enable w w' u :
  Wf w -> initialize_market to_key this market_token_address get_token_config mint_decimals slot now
    signer
            bump_ index long short name_ enable w = (w', Ok u) -> Wf w'.
Proof.
  intros Hw H. unfold initialize_market in H.
  apply sbind_ok in H as (w0 & u1 & [-> Hnew]%sread_ok & H). case_bool_decide; [done|].
  apply sbind_ok in H as (w1 & u2 & Hk & H). apply only_keeper_same in Hk as [Hm Ht].
  unfold unchecked_initialize_market in H.
  apply sbind_ok in H as (w0 & u3 & [-> _]%slift_ok & H).
  apply sbind_ok in H as (w0 & u4 & [-> _]%slift_ok & H).
  apply sbind_ok in H as (w0 & u5 & [-> _]%slift_ok & H).
  apply supdate_ok in H. set (key := market_token_address index long short) in *.
  pose proof (init_runs now bump_ this name_ (mkMeta key index long short) enable) as Hinit.
  cbn [market_token_mint index_token_mint long_token_mint short_token_mint] in Hinit.
  destruct (init _ _ _ _ _ _ _ _ _ _) as [m [[]| |]] eqn:E; [|done|done]. injection H as <-.
  cbv zeta in Hinit. cbn [fst snd] in Hinit. destruct (length name_ <=? MAX_NAME_LEN)%nat;
    [|done]. destruct Hinit as [_ Hinit].
  apply initialized_wf in Hinit as Hwf. destruct Hwf as [Hwf Hzero].
  apply not_elem_of_dom in H0. destruct Hw as [Hat Hc]. split.
  - intros k m' Hm'. simpl in Hm'. rewrite Hm in Hm'. destruct (decide (k = key)) as [->|Hne].
    + rewrite lookup_insert_eq in Hm'. injection Hm' as <-.
      split; [done|by destruct Hinit|by rewrite (new_meta _ _ _ _ _ _ Hinit)|].
      by rewrite (new_meta _ _ _ _ _ _ Hinit).
    + rewrite lookup_insert_ne in Hm' by done. by apply Hat.
  - intros tok. simpl. unfold all_recorded. rewrite Hm, Ht, map_sum_insert_new, Hzero by done.
    specialize (Hc tok). unfold all_recorded in Hc. lia.
Qed.

Lemma claim_moved key token m m' amount :
  MarketAt this market_token_address key m -> revertibly (claim_fees token) m = (m', Ok amount) ->
  AcctMoved m nothing (pay token (- amount)) m' /\ @in_u u64 amount.
Proof.
  intros Hk H. apply (revertibly_moved _ _ _ _ nothing (pay token (- amount))) in H as [Hmv H];
    [|apply Hk|intros rm rm' Hrm Hc; by apply claim_fees_ok in Hc as [Hs _]].
  destruct H as (rm & rm' & _ & Hrm & Hc & _). by apply claim_fees_ok in Hc as (_ & Hin & _).
Qed.

Lemma claim_fees_wf slot signer key token target w w' amount :
  Wf w -> claim_fees_from_market this vault_address account_mint slot signer key token target w =
    (w', Ok amount) ->
  Wf w'.
Proof.
  intros Hw H. unfold claim_fees_from_market in H.
  apply sbind_ok in H as (w0 & u1 & Hc & H). apply with_market_check in Hc as (-> & _).
  apply sbind_ok in H as (w0 & u2 & [-> _]%slift_ok & H).
  apply sbind_ok in H as (w1 & u3 & Hs & H). apply on_store_ok in Hs as (Hm1 & Ht1 & _).
  assert (Wf w1) as Hw1 by (by eapply world_same_wf).
  apply sbind_ok in H as (w2 & u4 & Hs & H). apply on_store_ok in Hs as (Hm2 & Ht2 & _).
  assert (Wf w2) as Hw2 by (by eapply (world_same_wf _ _ _ w1)).
  apply sbind_ok in H as (w3 & x & Hx & H).
  assert (@in_u u64 x /\ Wf w3) as [Hin Hw3].
  { apply with_market_ok in Hx as Hx'. destruct Hx' as (m & m' & Hm & _ & Hrun & _).
    pose proof (world_at _ _ _ _ Hw2 _ _ Hm) as Hk. apply (claim_moved _ _ _ _ _ Hk) in Hrun as [_ Hin].
    split; [done|].
    apply (with_market_moved this market_token_address _ _ _ _ _ nothing (pay token (- x))) in Hx
      as (Hmv & Ht3 & _); [|exact (world_at _ _ _ _ Hw2)|intros k1 k2 Hk1 Hr;
        by apply (claim_moved _ _ _ _ _ Hk1)].
    by eapply world_still_wf. }
  apply sbind_ok in H as (w4 & [] & Ho & H). injection H as <- <-.
  eapply transfer_out_operation_wf; [done|exact Hw3| |exact Ho]. apply Hin.
Qed.

Lemma market_transfer_in_wf slot signer key from token amount w w' u :
  @in_u u64 amount -> Wf w ->
  market_transfer_in to_key this vault_address account_mint slot signer key from token amount w =
    (w', Ok u) ->
  Wf w'.
Proof.
  intros Hx Hw H. unfold market_transfer_in in H.
  apply sbind_ok in H as (w0 & u1 & Hc & H). apply with_market_check in Hc as (-> & _).
  apply sbind_ok in H as (w0 & u2 & [-> Hmint]%slift_ok & H). unfold token_account in Hmint.
  destruct (Z.eqb_spec (account_mint from) token) as [Hmint'|]; [|done].
  apply sbind_ok in H as (w0 & u3 & [-> Hne]%slift_ok & H).
  destruct (Z.eqb_spec from (vault_address token)) as [|Hne']; [done|].
  apply sbind_ok in H as (w1 & u4 & Hs & H). apply on_store_ok in Hs as (Hm1 & Ht1 & _).
  apply sbind_ok in H as (w2 & mt & Hr & H). apply with_market_read in Hr as (-> & _).
  apply sbind_ok in H as (w2 & u5 & [-> _]%slift_ok & H).
  destruct (amount =? 0); [injection H as <- _; by eapply world_same_wf|]. destruct u.
  eapply transferred_in_wf; [done|exact Hw|exact Hmint'|exact Hne'|apply Hx|exact Hm1|exact Ht1|exact
    H|done].
Qed.

Lemma update_config_buffer_moved buffer m m' u :
  MarketWf m -> update_config_with_buffer buffer m = (m', Ok u) -> AcctMoved m nothing nothing m'.
Proof.
  intros Hwf H. unfold update_config_with_buffer in H.
  destruct (StoreConfig.update_config_with_buffer _ _); [|done|done]. injection H as <- _.
  by apply set_config_moved.
Qed.

Lemma update_with_buffer_wf slot now signer key buffer_key w w' u :
  Wf w -> update_market_config_with_buffer to_key this slot now signer key buffer_key w =
    (w', Ok u) -> Wf w'.
Proof.
  intros Hw H. unfold update_market_config_with_buffer in H.
  apply sbind_ok in H as (w0 & u1 & Hc & H). apply with_market_check in Hc as (-> & _).
  apply sbind_ok in H as (w1 & b & Hb & H). apply with_buffer_ok in Hb as (b0 & b1 & _ & _ & _ & ->).
  apply sbind_ok in H as (w2 & u2 & Hs & H). apply on_store_ok in Hs as (Hm2 & Ht2 & _).
  assert (Wf w2) as Hw2 by (eapply (world_same_wf _ _ _ w); done).
  apply sbind_ok in H as (w0 & u3 & [-> _]%slift_ok & H).
  apply sbind_ok in H as (w3 & u4 & Hu & H).
  apply (with_market_moved this market_token_address _ _ _ _ _ nothing nothing) in Hu as (Hmv & Ht3 & _);
    [|exact (world_at _ _ _ _ Hw2)|intros m m' Hk; apply update_config_buffer_moved, Hk].
  assert (Wf w3) as Hw3 by (by eapply world_still_wf).
  apply sbind_ok in H as (w4 & n & Hr & H). apply with_market_read in Hr as (-> & _). by injection H
    as <- _.
Qed.

Lemma set_config_by_name_moved key v m m' u :
  MarketWf m -> set_config_by_name key v m = (m', Ok u) -> AcctMoved m nothing nothing m'.
Proof.
  intros Hwf H. unfold set_config_by_name in H. apply sbind_ok in H as (m0 & k & [-> _]%slift_ok & H).
  apply smodify_ok in H as ->. by apply set_config_moved.
Qed.

Lemma set_config_flag_moved key v m m' p :
  MarketWf m -> set_config_flag key v m = (m', Ok p) -> AcctMoved m nothing nothing m'.
Proof.
  intros Hwf H. unfold set_config_flag in H. apply sbind_ok in H as (m0 & k & [-> _]%slift_ok & H).
  destruct (StoreConfig.set_config_flag _ _ _) as [c q]. injection H as <- _. by apply set_config_moved.
Qed.

Lemma buffer_instruction_wf {A} key signer (op : ST StoreConfig.MarketConfigBuffer StoreError A) w w' a :
  Wf w -> with_buffer key signer op w = (w', Ok a) -> Wf w'.
Proof.
  intros Hw H. apply with_buffer_ok in H as (b & b' & _ & _ & _ & ->). by eapply (world_same_wf _ _ _ w).
Qed.

(** Every instruction keeps the invariant. *)
Lemma instruction_wf slot now signer i w w' u :
  instruction_sane i -> Wf w -> run slot now signer i w = (w', Ok u) -> Wf w'.
Proof.
  intros Hi Hw H. destruct i; cbn [run_instruction] in H.
  - by eapply initialize_market_wf.
  - eapply as_keeper_wf; [apply only_keeper_same|exact Hw|exact H|]. intros m m' Hk Hop.
    apply sbind_ok in Hop as (m1 & p & Hop & [= <-]). by eapply set_flag_moved; [|apply Hk|exact Hop].
  - eapply as_keeper_wf; [apply only_keeper_same|exact Hw|exact H|]. intros m m' Hk Hop.
    apply sbind_ok in Hop as (m1 & p & Hop & [= <-]). by eapply set_flag_moved; [|apply Hk|exact Hop].
  - by eapply market_transfer_in_wf.
  - eapply as_keeper_wf; [apply only_keeper_same|exact Hw|exact H|]. intros m m' Hk Hop.
    eapply set_config_by_name_moved; [apply Hk|exact Hop].
  - eapply as_keeper_wf; [apply only_keeper_same|exact Hw|exact H|]. intros m m' Hk Hop.
    apply sbind_ok in Hop as (m1 & p & Hop & [= <-]). eapply set_config_flag_moved; [apply Hk|exact Hop].
  - by eapply update_with_buffer_wf.
  - unfold initialize_market_config_buffer in H. apply supdate_ok in H. destruct (world_buffers w !!
    _); [done|]. injection H as <-.
    by eapply (world_same_wf _ _ _ w).
  - by eapply buffer_instruction_wf.
  - unfold close_market_config_buffer in H. apply sbind_ok in H as (w1 & u1 & Hc & H). apply
    smodify_ok in H as ->.
    apply (buffer_instruction_wf _ _ _ _ _ _ Hw) in Hc. by eapply (world_same_wf _ _ _ w1).
  - by eapply buffer_instruction_wf.
  - apply sbind_ok in H as (w1 & amount & Hc & [= <-]). by eapply claim_fees_wf.
  - eapply as_keeper_wf; [apply only_keeper_same|exact Hw|exact H|]. intros m m' Hk Hop.
    eapply update_adl_moved; [apply Hk|exact Hop].
Qed.
End Preservation.

(** ** Access *)
Section Access.
#[local] Existing Instance u128.
Context {F : FixedPointOps u128}.
Context {B : Type} {BO : BitmapOps MAX_FLAGS B} {BL : BitmapLaws MAX_FLAGS B}.
Context {C : Type} {CO : BitmapOps StoreConfig.MAX_CONFIG_FLAGS C}.
Context {R : Type} {RO : BitmapOps MAX_ROLES R} {RL : BitmapLaws MAX_ROLES R}.
Context {T : Type} {TP : TokenProgram T}.
Context (to_key : bytes -> Z) (this : Pubkey).
Context (market_token_address : Pubkey -> Pubkey -> Pubkey -> Pubkey) (vault_address : Pubkey -> Pubkey).
Context (get_token_config : Pubkey -> option TokenConfig) (mint_decimals account_mint : Pubkey -> Z).
Implicit Types (w : World T) (m : Market).
Abbreviation run := (run_instruction to_key this market_token_address vault_address get_token_config
                       mint_decimals account_mint).

(** The market that an instruction is on. *)
Definition target (i : MarketInstruction) : option Pubkey :=
  match i with
  | InitializeMarket _ index long short _ _ => Some (market_token_address index long short)
  | ToggleMarket key _ | ToggleGtMinting key _ | MarketTransferIn key _ _ _ | UpdateMarketConfig key _ _
  | UpdateMarketConfigFlag key _ _ | UpdateMarketConfigWithBuffer key _ | ClaimFeesFromMarket key _ _
  | UpdateAdlState key _ _ => Some key
  | _ => None
  end.

(** The buffer that an instruction is on. *)
Definition target_buffer (i : MarketInstruction) : option Pubkey :=
  match i with
  | UpdateMarketConfigWithBuffer _ b | InitializeMarketConfigBuffer b _ |
    SetMarketConfigBufferAuthority b _
  | CloseMarketConfigBuffer b | PushToMarketConfigBuffer b _ => Some b
  | _ => None
  end.

Definition owns_buffer w signer (b : Pubkey) (P : StoreConfig.MarketConfigBuffer -> Prop) : Prop :=
  exists buffer, world_buffers w !! b = Some buffer /\ StoreConfig.buffer_authority buffer =
    signer /\ P buffer.

(** What an instruction asks of its signer. *)
Definition permitted slot now signer w (i : MarketInstruction) : Prop :=
  match i with
  | ClaimFeesFromMarket _ _ _ =>
      signer = receiver (treasury (world_store w)) /\ ~ Outdated slot (world_store w)
  | UpdateAdlState _ _ _ => May to_key slot (world_store w) signer RoleKey.ORDER_KEEPER
  | UpdateMarketConfigWithBuffer _ b =>
      May to_key slot (world_store w) signer RoleKey.MARKET_KEEPER /\
      owns_buffer w signer b (fun buffer => StoreConfig.buffer_store buffer =
        this /\ now < StoreConfig.expiry buffer)
  | InitializeMarketConfigBuffer b _ => world_buffers w !! b = None
  | SetMarketConfigBufferAuthority b _ | CloseMarketConfigBuffer b | PushToMarketConfigBuffer b _ =>
      owns_buffer w signer b (fun _ => True)
  | _ => May to_key slot (world_store w) signer RoleKey.MARKET_KEEPER
  end.

(** The frame of a step: only the market [key] may change, and no buffer but [buffer]. *)
Record Frame (key buffer : option Pubkey) w w' : Prop := {
  frame_markets k : Some k <> key -> world_markets w' !! k = world_markets w !! k;
  frame_buffers k : Some k <> buffer -> world_buffers w' !! k = world_buffers w !! k;
  frame_store_ : world_store w' = world_store w;
}.

Lemma frame_refl key buffer w : Frame key buffer w w.
Proof. by split. Qed.

Lemma frame_trans key buffer w w1 w2 : Frame key buffer w w1 -> Frame key buffer w1 w2 ->
    Frame key buffer w w2.
Proof. intros [Hm Hb Hs] [Hm' Hb' Hs']. split; [|..|congruence]; intros k Hk;
  [rewrite Hm', Hm|rewrite Hb', Hb]; done. Qed.

Lemma with_market_frame {A} key buffer (op : MS A) w w' a :
  with_market this key op w = (w', Ok a) -> Frame (Some key) buffer w w'.
Proof.
  intros H. apply with_market_ok in H as (m & m' & _ & _ & _ & ->). split; [|done..].
  intros k Hk. simpl. rewrite lookup_insert_ne; congruence.
Qed.

Lemma with_buffer_frame {A} market key signer (op : ST StoreConfig.MarketConfigBuffer StoreError A) w
    w' a :
  with_buffer key signer op w = (w', Ok a) -> Frame market (Some key) w w'.
Proof.
  intros H. apply with_buffer_ok in H as (b & b' & _ & _ & _ & ->). split; [done| |done].
  intros k Hk. simpl. rewrite lookup_insert_ne; congruence.
Qed.

Lemma on_tokens_frame {A} key buffer (op : ST T StoreError A) w w' a :
  on_tokens op w = (w', Ok a) -> Frame key buffer w w'.
Proof. intros H. unfold on_tokens in H. apply szoom_ok in H as (t & _ & ->). by split. Qed.

Lemma only_keeper_frame slot signer role w w' u key buffer :
  StoreWf (world_store w) -> on_store (only_role to_key slot signer role) w = (w', Ok u) ->
  Frame key buffer w w' /\ May to_key slot (world_store w) signer role /\ w' = w.
Proof.
  intros Hs H. unfold on_store in H. apply szoom_ok in H as (s & Hr & ->).
  apply only_role_ok in Hr as [-> Hr]; [|done]. split_and!; [by split|done|by destruct w].
Qed.

Lemma as_keeper_frame {A} slot signer role key buffer (op : MS A) w w' a :
  StoreWf (world_store w) ->
  as_keeper this (on_store (only_role to_key slot signer role)) key op w = (w', Ok a) ->
  Frame (Some key) buffer w w' /\ May to_key slot (world_store w) signer role.
Proof.
  intros Hs H. unfold as_keeper in H. apply sbind_ok in H as (w1 & u & Hc & H).
  apply with_market_check in Hc as (-> & _). apply sbind_ok in H as (w1 & u' & Hk & H).
  apply (only_keeper_frame _ _ _ _ _ _ (Some key) buffer Hs) in Hk as (_ & Hmay & ->).
  split; [by eapply with_market_frame|done].
Qed.

Lemma transfer_out_frame key buffer to token x w w' u :
  transfer_out_operation this vault_address key to token x w = (w', Ok u) ->
    Frame (Some key) buffer w w'.
Proof.
  intros H. unfold transfer_out_operation in H.
  apply sbind_ok in H as (w1 & mt & Hr & H). apply with_market_read in Hr as (-> & _).
  apply sbind_ok in H as (w1 & u1 & [-> _]%slift_ok & H). case_if_in H E; [by injection H as <- _|].
  apply sbind_ok in H as (w2 & u2 & Ht & H). eapply frame_trans; [by eapply on_tokens_frame|].
  by eapply with_market_frame.
Qed.

Lemma market_transfer_in_frame slot signer key buffer from token x w w' u :
  StoreWf (world_store w) ->
  market_transfer_in to_key this vault_address account_mint slot signer key from token x w =
    (w', Ok u) ->
  Frame (Some key) buffer w w' /\ May to_key slot (world_store w) signer RoleKey.MARKET_KEEPER.
Proof.
  intros Hs H. unfold market_transfer_in in H.
  apply sbind_ok in H as (w0 & u1 & Hc & H). apply with_market_check in Hc as (-> & _).
  apply sbind_ok in H as (w0 & u2 & [-> _]%slift_ok & H).
  apply sbind_ok in H as (w0 & u3 & [-> _]%slift_ok & H).
  apply sbind_ok in H as (w0 & u4 & Hk & H).
  apply (only_keeper_frame _ _ _ _ _ _ (Some key) buffer Hs) in Hk as (_ & Hmay & ->).
  apply sbind_ok in H as (w1 & mt & Hr & H). apply with_market_read in Hr as (-> & _).
  apply sbind_ok in H as (w1 & u5 & [-> _]%slift_ok & H). split; [|done].
  case_if_in H E; [injection H as <- _; apply frame_refl|].
  apply sbind_ok in H as (w2 & u6 & Ht & H). eapply frame_trans; [by eapply on_tokens_frame|].
  by eapply with_market_frame.
Qed.

Lemma initialize_market_frame slot now signer bump_ index long short name_ enable buffer w w' u :
  StoreWf (world_store w) ->
  initialize_market to_key this market_token_address get_token_config mint_decimals slot now signer
    bump_ index long short name_ enable w = (w', Ok u) ->
  Frame (Some (market_token_address index long short)) buffer w w' /\
  May to_key slot (world_store w) signer RoleKey.MARKET_KEEPER.
Proof.
  intros Hs H. unfold initialize_market in H.
  apply sbind_ok in H as (w0 & u1 & [-> _]%sread_ok & H).
  apply sbind_ok in H as (w0 & u2 & Hk & H).
  apply (only_keeper_frame _ _ _ _ _ _ None buffer Hs) in Hk as (_ & Hmay & ->). split; [|done].
  unfold unchecked_initialize_market in H.
  apply sbind_ok in H as (w0 & u3 & [-> _]%slift_ok & H).
  apply sbind_ok in H as (w0 & u4 & [-> _]%slift_ok & H).
  apply sbind_ok in H as (w0 & u5 & [-> _]%slift_ok & H). apply supdate_ok in H.
  destruct (init _ _ _ _ _ _ _ _ _ _) as [m [[]| |]]; [|done|done]. injection H as <-.
  split; [|done..]. intros k Hk. simpl. rewrite lookup_insert_ne; congruence.
Qed.

Lemma claim_fees_frame slot signer key buffer token target_ w w' x :
  claim_fees_from_market this vault_address account_mint slot signer key token target_ w = (w', Ok x) ->
  Frame (Some key) buffer w w' /\ signer = receiver (treasury (world_store w)) /\
    ~ Outdated slot (world_store w).
Proof.
  intros H. unfold claim_fees_from_market in H.
  apply sbind_ok in H as (w0 & u1 & Hc & H). apply with_market_check in Hc as (-> & _).
  apply sbind_ok in H as (w0 & u2 & [-> _]%slift_ok & H).
  apply sbind_ok in H as (w1 & u3 & Hr & H). unfold on_store in Hr.
  apply szoom_ok in Hr as (s & [-> Hr]%sread_ok & ->).
  apply sbind_ok in H as (w2 & u4 & Hv & H). unfold on_store in Hv.
  apply szoom_ok in Hv as (s & [-> Hv]%sread_ok & ->). apply require_ok, Z.eqb_eq in Hr, Hv.
  cbn [put_store world_store world_markets world_buffers world_tokens] in *.
  apply sbind_ok in H as (w3 & y & Hc & H). apply sbind_ok in H as (w4 & u5 & Ho & H). injection H as
    <- <-.
  split; [|split; [congruence|unfold Outdated; by intros []]].
  eapply frame_trans; [|eapply frame_trans; [by eapply with_market_frame|by eapply transfer_out_frame]].
  by split.
Qed.

Lemma update_with_buffer_frame slot now signer key b w w' u :
  StoreWf (world_store w) ->
  update_market_config_with_buffer to_key this slot now signer key b w = (w', Ok u) ->
  Frame (Some key) (Some b) w w' /\ permitted slot now signer w (UpdateMarketConfigWithBuffer key b).
Proof.
  intros Hs H. unfold update_market_config_with_buffer in H.
  apply sbind_ok in H as (w0 & u1 & Hc & H). apply with_market_check in Hc as (-> & _).
  apply sbind_ok in H as (w1 & buffer & Hb & H). pose proof (with_buffer_frame (Some key) _ _ _ _ _ _
    Hb) as Hf1.
  apply with_buffer_ok in Hb as (b0 & b1 & Hb0 & Ha & [-> Hb]%sread_ok & ->).
  apply rbind_ok in Hb as (u2 & Hst%has_one_ok%Z.eqb_eq & [= <-]).
  apply sbind_ok in H as (w2 & u3 & Hk & H).
  apply (only_keeper_frame _ _ _ _ _ _ (Some key) (Some b)) in Hk as (_ & Hmay & ->); [|done].
  apply sbind_ok in H as (w2 & u4 & [-> He%require_ok%Z.ltb_lt]%slift_ok & H).
  apply sbind_ok in H as (w3 & u5 & Hu & H).
  apply sbind_ok in H as (w4 & n & Hn & H). apply with_market_read in Hn as (-> & _). injection H as
    <- _.
  split; [eapply frame_trans; [exact Hf1|by eapply with_market_frame]|]. split; [done|]. by exists b0.
Qed.

Lemma buffer_permitted {A} signer b (op : ST StoreConfig.MarketConfigBuffer StoreError A) w w' a :
  with_buffer b signer op w = (w', Ok a) -> Frame None (Some b) w w' /\
    owns_buffer w signer b (fun _ => True).
Proof.
  intros H. split; [by eapply with_buffer_frame|].
  apply with_buffer_ok in H as (b0 & b1 & Hb0 & Ha & _). by exists b0.
Qed.

Lemma instruction_permitted slot now signer i w w' u :
  StoreWf (world_store w) -> run slot now signer i w = (w', Ok u) ->
  permitted slot now signer w i /\ Frame (target i) (target_buffer i) w w'.
Proof.
  intros Hs H.
  destruct i; cbn [run_instruction] in H; cbn [permitted target target_buffer]; apply and_comm.
  - by eapply initialize_market_frame.
  - by eapply as_keeper_frame.
  - by eapply as_keeper_frame.
  - by eapply market_transfer_in_frame.
  - by eapply as_keeper_frame.
  - by eapply as_keeper_frame.
  - by eapply update_with_buffer_frame.
  - unfold initialize_market_config_buffer in H. apply supdate_ok in H.
    destruct (world_buffers w !! _) eqn:E; [done|]. injection H as <-. split; [|done]. split;
      [done| |done].
    intros k Hk. simpl. rewrite lookup_insert_ne; congruence.
  - by eapply buffer_permitted.
  - unfold close_market_config_buffer in H. apply sbind_ok in H as (w1 & u1 & Hc & H). apply
    smodify_ok in H as ->.
    apply buffer_permitted in Hc as [Hf Ho]; [|done..]. split; [|done]. eapply frame_trans; [exact Hf|].
    split; [done| |done]. intros k Hk. simpl. rewrite lookup_delete_ne; congruence.
  - by eapply buffer_permitted.
  - apply sbind_ok in H as (w1 & x & Hc & [= <- _]). by eapply claim_fees_frame.
  - by eapply as_keeper_frame.
Qed.

(** C18: who may do what to the markets of a store. An instruction that succeeds was permitted:
    a market keeper creates, configures and funds markets, an order keeper updates their
    auto-deleveraging state, the receiver of the treasury claims fees (not after a restart),
    and a config buffer is used, extended, handed over and closed only by its authority,
    and applied only before it expires. It changes no market and no buffer but the one it
    names, and nothing in the store. *)
Theorem market_access slot now signer i w w' u :
  StoreWf (world_store w) -> run slot now signer i w = (w', Ok u) ->
  permitted slot now signer w i /\
  (forall k, Some k <> target i -> world_markets w' !! k = world_markets w !! k) /\
  (forall k, Some k <> target_buffer i -> world_buffers w' !! k = world_buffers w !! k) /\
  world_store w' = world_store w.
Proof. intros Hs H. apply instruction_permitted in H as [Hp [Hm Hb Hst]]; done. Qed.
End Access.

(** ** Every history *)
Section Histories.
#[local] Existing Instance u128.
Context {F : FixedPointOps u128}.
Context {B : Type} {BO : BitmapOps MAX_FLAGS B} {BL : BitmapLaws MAX_FLAGS B}.
Context {C : Type} {CO : BitmapOps StoreConfig.MAX_CONFIG_FLAGS C}.
Context {R : Type} {RO : BitmapOps MAX_ROLES R} {RL : BitmapLaws MAX_ROLES R}.
Context {T : Type} {TP : TokenProgram T} {TL : TokenProgramLaws T}.
Context (to_key : bytes -> Z) (this : Pubkey).
Context (market_token_address : Pubkey -> Pubkey -> Pubkey -> Pubkey) (vault_address : Pubkey -> Pubkey).
Context (get_token_config : Pubkey -> option TokenConfig) (mint_decimals account_mint : Pubkey -> Z).
Implicit Types (w : World T) (m : Market).
Abbreviation run := (run_instruction to_key this market_token_address vault_address get_token_config
                       mint_decimals account_mint).

(** The worlds of a store. It starts without markets. Then any signer runs any instruction, at any
    time; instructions of the store change its account; and tokens move in other ways, none of
    which takes tokens out of a vault, since only the store signs for its vaults. *)
Inductive WorldReach : World T -> Prop :=
| WorldStart s t : WorldReach (mkWorld s ∅ ∅ t)
| WorldInstruction w w' u slot now signer i :
    WorldReach w -> instruction_sane i -> run slot now signer i w = (w', Ok u) -> WorldReach w'
| WorldStore w s : WorldReach w -> WorldReach (put_store s w)
| WorldTokens w t :
    WorldReach w -> (forall mint, amount_of (world_tokens w) (vault_address mint) <= amount_of t
      (vault_address mint)) ->
    WorldReach (put_tokens t w).

(** The vaults back the markets. Whatever the history of the store, the vault of every token
    holds at least what all the markets together have recorded of it; every market is well
    formed (its pools and balances are in range, it is pure exactly when its two tokens are
    the same), and it is the one market of its mints. *)
Theorem markets_backed w :
  (forall mint, account_mint (vault_address mint) = mint) -> WorldReach w ->
  (forall tok, all_recorded (world_markets w) tok <= amount_of (world_tokens w) (vault_address tok)) /\
  (forall key m, world_markets w !! key = Some m ->
     MarketWf m /\ store m = this /\ is_pure m = meta_is_pure (meta m) /\
     key = market_token_mint (meta m) /\
     key = market_token_address (index_token_mint (meta m)) (long_token_mint (meta m))
       (short_token_mint (meta m))).
Proof.
  intros Hvault Hr.
  assert (WorldWf this market_token_address vault_address w) as [Hat Hc].
  { induction Hr as [s t|w w' u slot now signer i _ IH Hi Hrun|w s _ IH|w t _ IH Ht].
    - split; [done|]. intros tok. unfold all_recorded. simpl. rewrite map_sum_empty. apply amount_nonneg.
    - by eapply instruction_wf.
    - by eapply (world_same_wf _ _ _ w).
    - destruct IH as [Hat Hc]. split; [done|]. intros tok. simpl. specialize (Hc tok). specialize (Ht
      tok). lia. }
  split; [done|]. intros key m Hm. destruct (Hat _ _ Hm) as [Hwf Hs Hk Ha].
  split_and!; [done|done|apply (wf_swap _ Hwf)|done|done].
Qed.

(** *** Auto-deleveraging *)

Lemma set_adl_enabled_ok is_long v m m' p :
  set_adl_enabled is_long v m = (m', Ok p) ->
  m' = set_flags (flags m') m /\ is_adl_enabled m' is_long = v /\
  is_adl_enabled m' (negb is_long) = is_adl_enabled m (negb is_long) /\
  is_enabled m' = is_enabled m /\ is_pure m' = is_pure m.
Proof.
  intros H. apply set_market_flag_ok in H as (_ & -> & Hf). split; [done|].
  unfold is_adl_enabled, is_enabled, is_pure. rewrite !Hf. by destruct is_long.
Qed.

(** Updating the auto-deleveraging state. It needs an enabled market and prices not older
    than the last update; then deleveraging is enabled for the side exactly when its profits
    exceed the factor [ForAdl] of the pool at those prices, the other side is as before, and
    the update is timed. Afterwards a deleveraging order for the side is accepted exactly if it
    was enabled and the prices of the order are at most the allowed staleness older than the
    update. *)
Theorem adl_state_spec now oracle is_long m m' u :
  update_adl_state now oracle is_long m = (m', Ok u) ->
  is_enabled m = true /\
  (exists prices exceeded,
     oracle_prices oracle (meta m) = Ok prices /\
     pnl_factor_exceeded (as_liquidity_market now 0 m) prices ForAdl is_long = Ok exceeded /\
     is_adl_enabled m' is_long = bool_decide (is_Some exceeded)) /\
  is_adl_enabled m' (negb is_long) = is_adl_enabled m (negb is_long) /\
  latest_adl_time m' is_long = Ok now /\
  latest_adl_time m' (negb is_long) = latest_adl_time m (negb is_long) /\
  (forall latest, latest_adl_time m is_long = Ok latest -> latest <= max_oracle_ts oracle) /\
  (forall oracle' max_staleness,
     validate_adl m' oracle' is_long max_staleness = Ok tt <->
     is_adl_enabled m' is_long = true /\
     now <= saturating_add_unsigned (max_oracle_ts oracle') max_staleness).
Proof.
  intros H. unfold update_adl_state in H.
  apply sbind_ok in H as (m0 & latest & [-> Hlatest]%sread_ok & H).
  apply sbind_ok in H as (m0 & u1 & [-> Hle%require_ok%Z.leb_le]%slift_ok & H).
  apply sbind_ok in H as (m0 & u2 & [-> Hen%require_ok]%sread_ok & H).
  apply sbind_ok in H as (m0 & prices & [-> Hprices]%sread_ok & H).
  apply sbind_ok in H as (m0 & exceeded & [-> Hex%model_result_ok]%sread_ok & H).
  apply sbind_ok in H as (m1 & previous & Hf & H). apply smodify_ok in H as ->.
  apply set_adl_enabled_ok in Hf as (Hm1 & Hnew & Hother & _ & _).
  set (m2 := set_state _ m1).
  assert (latest_adl_time m2 is_long = Ok now) as Htime by by destruct is_long.
  assert (is_adl_enabled m2 is_long = bool_decide (is_Some exceeded)) as Hnew2 by exact Hnew.
  split_and!; [done|by exists prices, exceeded|exact Hother|done| | |].
  - unfold m2. rewrite Hm1. by destruct is_long.
  - intros latest' Hl. rewrite Hlatest in Hl. by injection Hl as <-.
  - intros oracle' st. unfold validate_adl. rewrite Htime, Hnew2.
    destruct (bool_decide _); [|split; [done|by intros [? _]]]. unfold require, rbind.
    destruct (Z.ltb_spec (saturating_add_unsigned (max_oracle_ts oracle') st) now).
    + split; [done|intros [_ ?]; lia].
    + split; [intros _; by split|done].
Qed.

(** *** Claiming fees *)

(** What a market has to cover depends on its tokens only. *)
Lemma covered_same a b (side : bool) x :
  same_tokens a b -> covered (sm_view a) side x -> covered (sm_view b) side x.
Proof.
  intros Hs. pose proof Hs as (_ & Hpure & Hl & Hsh & _). unfold covered. cbn [view_is_pure
    view_balance view_market sm_view].
  assert (forall c, held (sm_market b) c = held (sm_market a) c) as Hh
    by (intros c; unfold held; by rewrite !(same_tokens_amt a b _ _ Hs)).
  assert (forall c, collateral_held (sm_market b) c = collateral_held (sm_market a) c) as Hc
    by (intros c; unfold collateral_held; by rewrite !(same_tokens_amt a b _ _ Hs)).
  unfold required, sm_balance. by rewrite !Hh, !Hc, Hpure, Hl, Hsh.
Qed.

Lemma record_out_covered token side x rm rm' :
  SmWf (view rm) -> to_token_side (acct_meta (rm_market rm)) token = Ok side -> 0 <= x ->
  record_transferred_out_by_token token x rm = (rm', Ok tt) ->
  covered (sm_view (view rm)) side x -> covered (sm_view (view rm')) side 0.
Proof.
  intros Hwf Hside Hx H. unfold record_transferred_out_by_token in H.
  apply sbind_ok in H as (r0 & b & [-> Hb]%sread_ok & H). assert (b = side) as -> by congruence.
  pose proof (record_pools _ _ _ _ _ H) as Hpools.
  apply (transfer_simulated no_supply 0) in H as [Hframe Hplain]. unfold plain_transfer in Hplain.
  apply supdate_ok in Hplain.
  assert (sm_balance (view rm') side = sm_balance (view rm) side - x) as Hbal.
  { unfold sm_balance. cbn [sm_is_pure view sm_plain]. rewrite (frame_pure _ _ Hframe).
    rewrite orb_comm. case_if_in Hplain E; apply rbind_ok in Hplain as (y & Hy & Hplain);
      apply ok_or_ok, usub_some in Hy as [-> _];
      (match type of Hplain with Ok ?x = Ok ?y => assert (y = x) as -> by congruence end); done. }
  unfold covered. cbn [view_is_pure view_balance view_market sm_view sm_is_pure view].
  change (sm_balance (mkSwapMarket _ _ (shown no_supply 0 ?r))) with (sm_balance (view r)).
  rewrite (frame_pure _ _ Hframe).
  assert (forall c, held (sm_market (view rm')) c = held (sm_market (view rm)) c) as Hh
    by (intros c; unfold held, amt, pool_of; by rewrite Hpools).
  assert (forall c, collateral_held (sm_market (view rm')) c =
    collateral_held (sm_market (view rm)) c) as Hc
    by (intros c; unfold collateral_held, amt, pool_of; by rewrite Hpools).
  fold (view rm) (view rm'). unfold required. rewrite Hbal, !Hh, !Hc. lia.
Qed.

Lemma claim_covered token m m' amount :
  MarketWf m -> revertibly (claim_fees token) m = (m', Ok amount) ->
  exists side, to_token_side (meta m) token = Ok side /\ covered (sm_view (as_swap m')) side amount.
Proof.
  intros Hwf H. apply (revertibly_moved _ _ _ _ nothing (pay token (- amount))) in H as [_ H];
    [|done|intros rm rm' Hrm Hc; by apply claim_fees_ok in Hc as [Hs _]].
  destruct H as (rm & rm' & Hsame & Hrm & Hc & Hsame').
  apply claim_fees_ok in Hc as (Hstep & [Hin _] & Hv); [|done].
  pose proof (sm_moved_meta _ _ _ _ (step_moved _ _ _ _ Hstep)) as Hmeta.
  destruct Hsame as (Hm & _). cbn [sm_meta as_swap view] in Hm, Hmeta.
  assert (exists side, to_token_side (acct_meta (rm_market rm')) token = Ok side) as [side Hside].
  { apply rbind_ok in Hv as (side & Hs & _). by exists side. }
  exists side. split; [by rewrite Hm, <- Hmeta|]. eapply covered_same; [by apply same_tokens_sym|].
  apply (validate_token_iff (sm_view (view rm')) token side); [|done|done|exact Hv].
  apply sm_view_wf. by eapply rm_step_wf.
Qed.

Lemma record_out_valid token x side m m' :
  MarketWf m -> 0 <= x -> to_token_side (meta m) token = Ok side ->
    covered (sm_view (as_swap m)) side x ->
  revertibly (on_revertible (record_transferred_out_by_token token x)) m = (m', Ok tt) ->
  validate_market_balance_for_the_given_token (sm_view (as_swap m')) token 0 = Ok tt.
Proof.
  intros Hwf Hx Hside Hcov H. pose proof (record_out_moved _ _ _ _ Hwf H) as Hmv.
  apply (revertibly_moved _ _ _ _ (pay token (- x)) nothing) in H as [_ H];
    [|done|intros rm rm' Hrm Hc; by apply transferred_out_step].
  destruct H as (rm & rm' & Hsame & Hrm & Hc%on_revertible_ok & Hsame').
  apply (validate_token_iff _ _ side); [|done| |].
  - apply sm_view_wf. by eapply (wf_swap _ (acct_moved_wf _ _ _ _ Hmv)).
  - pose proof (sm_moved_meta _ _ _ _ (acct_moved _ _ _ _ Hmv)) as Hmeta. simpl in Hmeta. simpl. by
    rewrite Hmeta.
  - eapply covered_same; [by apply same_tokens_sym|]. pose proof Hsame as (Hm & _). simpl in Hm.
    eapply (record_out_covered token side x rm); [done|by rewrite <- Hm|done|done|].
    by eapply covered_same.
Qed.

Lemma acct_moved_trans m dr dh m1 dr' dh' m2 :
  AcctMoved m dr dh m1 -> AcctMoved m1 dr' dh' m2 ->
  AcctMoved m (fun tok => dr tok + dr' tok) (fun tok => dh tok + dh' tok) m2.
Proof. intros [Hs _ Hst] [Hs' Hb' Hst']. split; [by eapply sm_moved_trans|done|congruence]. Qed.

Lemma acct_moved_eq m dr dh m' dr' dh' :
  AcctMoved m dr dh m' -> (forall tok, dr tok = dr' tok) -> (forall tok, dh tok = dh' tok) ->
  AcctMoved m dr' dh' m'.
Proof. intros [Hs Hb Hst] Er Eh. split; [by eapply sm_moved_eq|done|done]. Qed.

(** Claiming the fees of a market. The amount claimed leaves the pools of the market and its
    recorded balance alike and nothing else of the market's tokens changes; it is a [u64] and
    goes from the vault to the target; the market was enabled, and what it still records
    covers its pools and its collateral. Only the receiver of the treasury can claim. *)
Theorem claim_fees_spec slot signer key token target_ w w' amount :
  WorldWf this market_token_address vault_address w ->
  claim_fees_from_market this vault_address account_mint slot signer key token target_ w =
    (w', Ok amount) ->
  signer = receiver (treasury (world_store w)) /\ @in_u u64 amount /\
  exists m m', world_markets w !! key = Some m /\ world_markets w' !! key = Some m' /\
    is_enabled m = true /\ AcctMoved m (pay token (- amount)) (pay token (- amount)) m' /\
    validate_market_balance_for_the_given_token (sm_view (as_swap m')) token 0 = Ok tt /\
    (amount <> 0 -> forall k, amount_of (world_tokens w') k =
       amount_of (world_tokens w) k - at_key (vault_address token) amount k + at_key target_ amount k).
Proof.
  intros Hw H. pose proof H as Hwho. apply (claim_fees_frame _ _ _ _ _ _ None) in Hwho as (_ & Hwho & _).
  unfold claim_fees_from_market in H.
  apply sbind_ok in H as (w0 & u1 & Hc & H). apply with_market_check in Hc as (-> & _).
  apply sbind_ok in H as (w0 & u2 & [-> _]%slift_ok & H).
  apply sbind_ok in H as (w1 & u3 & Hs & H). apply on_store_ok in Hs as (Hm1 & Ht1 & _).
  apply sbind_ok in H as (w2 & u4 & Hs & H). apply on_store_ok in Hs as (Hm2 & Ht2 & _).
  apply sbind_ok in H as (w3 & x & Hx & H). apply with_market_ok in Hx as (m & m1 & Hm & _ & Hrun & ->).
  rewrite Hm2, Hm1 in Hm. pose proof (world_at _ _ _ _ Hw _ _ Hm) as Hk.
  pose proof Hrun as Hmv. eapply claim_moved in Hmv as [Hmv Hin]; [|exact Hk].
  pose proof Hrun as Hcov. apply claim_covered in Hcov as (side & Hside & Hcov); [|apply Hk].
  apply sbind_ok in H as (w4 & [] & Ho & H). injection H as <- <-.
  unfold transfer_out_operation in Ho.
  apply sbind_ok in Ho as (w5 & mt & Hr & Ho).
  apply with_market_read in Hr as (-> & m0 & Hm0 & _ & Hmt). cbn [put_markets world_markets] in Hm0.
  rewrite lookup_insert_eq in Hm0. injection Hm0 as <-.
  apply rbind_ok in Hmt as (u5 & Hval & [= <-]). apply rbind_ok in Hval as (u6 & _ & Hen%require_ok).
  apply sbind_ok in Ho as (w5 & u7 & [-> _]%slift_ok & Ho).
  assert (is_enabled m = true) as Hen'.
  { unfold revertibly in Hrun. destruct (model_result _) in Hrun; [|done|done].
    by destruct (claim_fees token _) as [? []] in Hrun; injection Hrun as <- _. }
  split_and!; [done|done|]. destruct (Z.eqb_spec x 0) as [->|Hx0].
  - injection Ho as <-. exists m, m1. rewrite Hm. cbn [put_markets world_markets]. rewrite
    lookup_insert_eq.
    split_and!; [done|done|done| | |done].
    + destruct Hmv as [Hs Hb Hst]. split; [|done..]. eapply sm_moved_eq; [exact Hs| |done].
      intros tok. symmetry. apply pay_zero.
    + apply (validate_token_iff _ _ side); [|done| |done].
      * apply sm_view_wf. by eapply (wf_swap _ (acct_moved_wf _ _ _ _ Hmv)).
      * pose proof (sm_moved_meta _ _ _ _ (acct_moved _ _ _ _ Hmv)) as Hmeta. simpl in Hmeta. simpl.
        by rewrite Hmeta.
  - apply sbind_ok in Ho as (w5 & u8 & Ht & Ho). apply on_tokens_ok in Ht as (Ht & Hm5 & _).
    apply with_market_ok in Ho as (m1' & m2 & Hm1' & _ & Hout & ->).
    rewrite Hm5 in Hm1'. cbn [put_markets world_markets] in Hm1'. rewrite lookup_insert_eq in Hm1'.
      injection Hm1' as <-.
    pose proof (record_out_moved _ _ _ _ (acct_moved_wf _ _ _ _ Hmv) Hout) as Hmv2.
    exists m, m2. rewrite Hm. cbn [put_markets world_markets world_tokens]. rewrite lookup_insert_eq.
    split_and!; [done|done|done| | |].
    + eapply acct_moved_eq; [eapply acct_moved_trans; [exact Hmv|exact Hmv2]|..]; intros tok;
      unfold nothing; lia.
    + eapply (record_out_valid token x side m1); [by eapply acct_moved_wf|apply Hin| |exact Hcov|exact
      Hout].
      pose proof (sm_moved_meta _ _ _ _ (acct_moved _ _ _ _ Hmv)) as Hmeta. simpl in Hmeta. by rewrite
        Hmeta.
    + intros _ k. destruct u8. apply transfer_law in Ht as (_ & Ht & _); [|apply Hin]. rewrite Ht.
      cbn [put_markets world_tokens]. by rewrite Ht2, Ht1.
Qed.
End Histories.

(** ** Counters and names *)

(** A new id is one more than all before; the counter never wraps around. *)
Lemma next_id_spec count put i :
  0 <= count i <= @u_max u64 ->
  next_id count put i =
    if count i =? @u_max u64 then (i, Err (Core CoreError.TokenAmountOverflow))
    else (put (count i + 1) i, Ok (count i + 1)).
Proof.
  intros Hi. unfold next_id. destruct (@uadd u64 (count i) 1) as [n|] eqn:E.
  - apply uadd_some in E as [-> Hn]. unfold in_u in Hn. destruct (Z.eqb_spec (count i) (@u_max u64));
    [lia|done].
  - destruct (Z.eqb_spec (count i) (@u_max u64)); [done|].
    assert (@uadd u64 (count i) 1 = Some (count i + 1)) as E' by (apply uadd_some; unfold in_u; split;
      [done|lia]).
    congruence.
Qed.

(** A name of the maximal length is stored, but cannot be read back: it has no terminating zero. *)
Lemma full_name_unreadable {B C} {BO : BitmapOps MAX_FLAGS B} {CO :
    BitmapOps StoreConfig.MAX_CONFIG_FLAGS C}
    now store_ name_ mt enabled (m : Market) :
  Initialized now store_ name_ mt enabled m -> length name_ = MAX_NAME_LEN -> 0 ∉ name_ ->
  name m = Err (Core CoreError.InvalidArgument).
Proof.
  intros Hi Hlen H0. unfold name. rewrite (new_name _ _ _ _ _ _ Hi), Hlen,
    Nat.sub_diag. simpl. rewrite app_nil_r.
  unfold bytes_to_fixed_str. replace (position_of_zero name_) with (@None nat); [done|].
  symmetry. clear -H0. induction name_ as [|b bs IH]; [done|]. simpl.
  apply not_elem_of_cons in H0 as [Hb Hbs]. destruct (Z.eqb_spec b 0); [congruence|]. by rewrite IH.
Qed.

(** ** Examples *)
Section Examples.
#[local] Existing Instance u128.
#[local] Existing Instance z_bitmap.
#[local] Existing Instance z_bitmap_laws.
#[local] Instance num_example : FixedPointOps u128 := u128_fixed (fun _ _ _ => None) 20.

(** A market keeper 5 and an order keeper 6; the receiver of the treasury is 2. *)
Definition keeper_store_example : Store :=
  foldl (fun s act => store_step key_example 9 10 1 act s) new_store_example
    (RoleAction <$> [EnableRole RoleKey.MARKET_KEEPER; Grant 5 RoleKey.MARKET_KEEPER;
                     EnableRole RoleKey.ORDER_KEEPER; Grant 6 RoleKey.ORDER_KEEPER]).

Definition market_address_example (index long short : Pubkey) : Pubkey :=
    1000000 + index * 10000 + long * 100 + short.
(** Token accounts: twice the mint is its vault, one more is the account of a user. *)
Definition vault_example (mint : Pubkey) : Pubkey := 2 * mint.
Definition account_mint_example (account : Pubkey) : Pubkey := account / 2.
Definition decimals_example (mint : Pubkey) : Z := if mint =? 5 then 9 else if mint =? 6 then 6 else 8.

Lemma vault_of_mint_example mint : account_mint_example (vault_example mint) = mint.
Proof. unfold account_mint_example, vault_example. by rewrite Z.mul_comm, Z.div_mul. Qed.

Abbreviation run_example := (run_instruction key_example 9 market_address_example vault_example
                               example_get_config decimals_example account_mint_example).

Definition ledger_example : Ledger := mkLedger {[11 := 5000%N]} ∅.
Definition start_example : World Ledger := mkWorld keeper_store_example ∅ ∅ ledger_example.

Definition new_market_example : MarketInstruction := InitializeMarket 254 5 5 6 [83; 79; 76] true.
Definition sol_market_key : Pubkey := market_address_example 5 5 6.

(** A market for SOL-USDC is created, funded, and its pool of claimable fees filled by hand. *)
Definition created_example : World Ledger := fst (run_example 10 1000 5 new_market_example
    start_example).
Definition funded_example : World Ledger :=
  fst (run_example 10 1000 5 (MarketTransferIn sol_market_key 11 5 1200) created_example).

Lemma created_runs : run_example 10 1000 5 new_market_example start_example = (created_example, Ok tt).
Proof. vm_compute. reflexivity. Qed.

Lemma funded_runs :
  run_example 10 1000 5 (MarketTransferIn sol_market_key 11 5 1200) created_example =
    (funded_example, Ok tt).
Proof. vm_compute. reflexivity. Qed.

Abbreviation reach_example := (WorldReach key_example 9 market_address_example vault_example
                                 example_get_config decimals_example account_mint_example).

Lemma funded_reach : reach_example funded_example.
Proof.
  apply (WorldInstruction _ _ _ _ _ _ _ created_example funded_example tt 10 1000 5
           (MarketTransferIn sol_market_key 11 5 1200)); [|vm_compute; split;
             discriminate|exact funded_runs].
  apply (WorldInstruction _ _ _ _ _ _ _ start_example created_example tt 10 1000 5 new_market_example);
    [apply WorldStart|exact I|exact created_runs].
Qed.

Example markets_backed_example :
  all_recorded (world_markets funded_example) 5 = 1200 /\
  1200 <= amount_of (world_tokens funded_example) (vault_example 5).
Proof.
  assert (all_recorded (world_markets funded_example) 5 = 1200) as E by (vm_compute; reflexivity).
  split; [exact E|].
  destruct (markets_backed key_example 9 market_address_example vault_example example_get_config
    decimals_example
              account_mint_example funded_example vault_of_mint_example funded_reach) as [H _].
  specialize (H 5). rewrite E in H. exact H.
Defined.

Lemma keeper_store_wf : StoreWf keeper_store_example.
Proof.
  apply (store_reach_wf key_example 9). unfold keeper_store_example. simpl.
  do 4 (apply StoreReachStep; [|split; [done|apply (bool_decide_unpack _); vm_compute; exact I]]).
  by apply (StoreReachInit key_example 9 10 1 [] 254 2 3).
Qed.

(** The market keeper created the market, and nothing else changed. *)
Lemma market_access_witness :
  permitted key_example 9 10 1000 5 start_example new_market_example /\
  world_store created_example = keeper_store_example.
Proof.
  destruct (market_access key_example 9 market_address_example vault_example example_get_config
    decimals_example
              account_mint_example 10 1000 5 new_market_example start_example created_example tt
              keeper_store_wf created_runs) as (Hp & _ & _ & Hs).
  split; [exact Hp|exact Hs].
Defined.

(** The market that is funded, and the same with some pools filled by hand. *)
Definition funded_market_example : Market := Eval vm_compute in
  match world_markets funded_example !! sol_market_key with Some m => m | None => zeroed end.

Definition sol_market (pools : PoolKind -> Pool) : Market :=
  let m := funded_market_example in
  set_state (mkState (pools_of (fun k => mkPoolStorage 0 (pools k))) (state_clocks (state m))
               (state_other (state m))) m.

Lemma sol_market_pool pools k : pool_of (sm_market (as_swap (sol_market pools))) k = pools k.
Proof. unfold pool_of, sm_market, as_swap, stored, plain_of. simpl. by rewrite !pools_get_of. Qed.

Lemma funded_market_facts :
  meta funded_market_example = mkMeta sol_market_key 5 5 6 /\ is_pure funded_market_example = false /\
  store funded_market_example = 9 /\
  state_other (state funded_market_example) = mkOtherState 2 0 1200 0 0 /\
  buffer_rev (buffer funded_market_example) = 2.
Proof. vm_compute. split_and!; reflexivity. Qed.

(** The longs have bought 900 of the pool's 1000 SOL for 10 USD. *)
Definition adl_market_example : Market := sol_market (fun k =>
  match k with
  | Primary => mkPool 0 (10 ^ 12) (15 * 10 ^ 10)
  | OpenInterestForLong => mkPool 0 (10 ^ 21) 0
  | OpenInterestInTokensForLong => mkPool 0 (9 * 10 ^ 11) 0
  | _ => mkPool 0 0 0
  end).

Example adl_state_spec_example :
  let m := fst (update_adl_state 1000 example_oracle true adl_market_example) in
  is_adl_enabled m true = true /\ validate_adl m example_oracle true 10 = Ok tt /\
  validate_adl m example_oracle true 1 <> Ok tt.
Proof.
  assert (Hrun : update_adl_state 1000 example_oracle true adl_market_example
                 = (fst (update_adl_state 1000 example_oracle true adl_market_example), Ok tt))
    by (vm_compute; reflexivity).
  destruct (adl_state_spec _ _ _ _ _ _ Hrun) as (_ & _ & _ & _ & _ & _ & H).
  assert (Hon : is_adl_enabled (fst (update_adl_state 1000 example_oracle true adl_market_example))
    true = true)
    by (vm_compute; reflexivity).
  split; [exact Hon|]. split.
  - apply H. split; [exact Hon|vm_compute; discriminate].
  - intros Hv. apply H in Hv as [_ Hv]. vm_compute in Hv. by apply Hv.
Defined.

Definition fees_market_example : Market := sol_market (fun k =>
  match k with ClaimableFee => mkPool 0 300 0 | Primary => mkPool 0 900 0 | _ => mkPool 0 0 0 end).
Definition fees_example : World Ledger := 
  mkWorld keeper_store_example {[sol_market_key := fees_market_example]} ∅ (mkLedger {[10 := 1200%N]} ∅).

Lemma fees_market_wf : MarketWf fees_market_example.
Proof.
  destruct funded_market_facts as (Hmeta & Hpure & _ & Hother & _). split; [split|].
  - split; [|by repeat split]. intros k. unfold fees_market_example. rewrite sol_market_pool.
    destruct k; by repeat split.
  - by repeat split.
  - change (is_pure funded_market_example = meta_is_pure (meta funded_market_example)). by rewrite
    Hpure, Hmeta.
  - intros _. unfold tokens_impure, fees_market_example.
    split_and!; rewrite sol_market_pool; reflexivity.
  - split; [intros k; destruct k|..]; simpl; lia.
Qed.

Lemma fees_example_wf : WorldWf 9 market_address_example vault_example fees_example.
Proof.
  destruct funded_market_facts as (Hmeta & Hpure & Hstore & Hother & _).
  assert (meta fees_market_example = mkMeta sol_market_key 5 5 6) as Hm by exact Hmeta. split.
  - intros key m H. unfold fees_example in H. cbn [world_markets put_markets] in H.
    apply lookup_singleton_Some in H as [<- <-].
    split; [exact fees_market_wf|exact Hstore|by rewrite Hm|by rewrite Hm].
  - intros tok. unfold all_recorded, fees_example. cbn [world_markets].
    rewrite <- insert_empty, map_sum_insert_new, map_sum_empty by done.
    assert (recorded (as_swap fees_market_example) tok = pay 5 1200 tok) as ->.
    { unfold recorded. cbn [sm_meta sm_is_pure sm_plain as_swap].
      change (is_pure fees_market_example) with (is_pure funded_market_example).
      rewrite Hpure, Hm. simpl. rewrite pay_zero. lia. }
    unfold pay. destruct (Z.eqb_spec tok 5) as [->|]; [by vm_compute|].
    rewrite Z.add_0_l. apply amount_nonneg.
Qed.

Abbreviation claim_example :=
  (claim_fees_from_market 9 vault_example account_mint_example 10 2 sol_market_key 5 11 fees_example).

Example claim_fees_spec_example :
  snd claim_example = Ok 300 /\ amount_of (world_tokens (fst claim_example)) (vault_example 5) = 900.
Proof.
  assert (Hrun : claim_example = (fst claim_example, Ok 300)) by (vm_compute; reflexivity).
  destruct (claim_fees_spec 9 market_address_example vault_example account_mint_example 10 2
    sol_market_key 5 11
              fees_example (fst claim_example) 300 fees_example_wf Hrun)
    as (_ & _ & m & m' & _ & _ & _ & _ & _ & Hmoved).
  split; [rewrite Hrun; reflexivity|]. rewrite (Hmoved ltac:(discriminate) (vault_example 5)).
  vm_compute. reflexivity.
Defined.
End Examples.
End StoredMarket.
