(* ===== verification/MarketOps.v ===== *)
(** * Deposits, withdrawals and shifts in the markets ([ops/market.rs])

    [RevertibleLiquidityMarketOperation] opens a market with the markets that the swap paths of an
    action need, as revertible markets; [Execute] runs the action on them, and commits them at the
    end. Here the opened markets are the [SwapMarkets] of [SwapPath], with the supply of the
    market token and its pending mints and burns ([LiquiditySupply] of [Revertible]); [open] makes
    them of the accounts, and [commit] writes them back and mints or burns in the token program.
    Theorem [revertible_market_refines] of [Revertible] is why it is enough to work with what the
    revertible markets show.

    An action first updates the market ([pre_execute]), then swaps and deposits, or withdraws and
    swaps; a shift withdraws from one market and deposits what it got into another one. The
    theorems say what this does to the tokens of all markets together, to the supply, and what is
    validated at the end; and that opening and committing keeps the vaults backed. *)
From stdpp Require Import gmap sets.
From S2P Require Import Prelude.
From S2P Require Import Kinds.
From S2P Require Import Num.
From S2P Require Import Fixed.
From S2P Require Import Price.
From S2P Require Import Params.
From S2P Require Import Pool.
From S2P Require Import Market.
From S2P Require Import MarketFacts.
From S2P Require Import Deposit.
From S2P Require Import Withdraw.
From S2P Require Import UpdateStates.
From S2P Require Import Funding.
From S2P Require Import Revertible.
From S2P Require Import CoreErrors.
From S2P Require Import MapSum.
From S2P Require Import Flags.
From S2P Require Import Roles.
From S2P Require Import TokenConfig.
From S2P Require Import Oracle.
From S2P Require Import StoreState.
From S2P Require Import SwapPath.
From S2P Require Import Config.
From S2P Require Import Tokens.
From S2P Require Import MarketAccount.
Import OnChain.
#[local] Open Scope Z_scope.

Module MarketOps.

(** ** The parameters of the actions *)

Record DepositActionParams : Type := mkDepositActionParams {
  initial_long_token_amount : Z;
  initial_short_token_amount : Z;
  min_market_token_amount : Z;
}.

Record WithdrawalActionParams : Type := mkWithdrawalActionParams {
  market_token_amount : Z;
  min_long_token_amount : Z;
  min_short_token_amount : Z;
}.

Record ShiftActionParams : Type := mkShiftActionParams {
  from_market_token_amount : Z;
  min_to_market_token_amount : Z;
}.

Definition validate_market_token_amount (self : DepositActionParams) (minted : Z) : store_result unit :=
  require_gte minted (min_market_token_amount self) CoreError.InsufficientOutputAmount.

Definition validate_output_amounts (self : WithdrawalActionParams) (long_amount short_amount : Z)
    : store_result unit :=
  let! _ := require_gte long_amount (min_long_token_amount self) CoreError.InsufficientOutputAmount in
  require_gte short_amount (min_short_token_amount self) CoreError.InsufficientOutputAmount.

(** ** [Execute] *)
Section Execute.
#[local] Existing Instance u128.
Context {F : FixedPointOps u128}.
Context {B : Type} `{BitmapLaws MAX_FLAGS B}.
(** The address that the first deposit of a market goes to. *)
Context (first_deposit_receiver : Pubkey).

Definition EM (A : Type) : Type := PM (T := LiquiditySupply) A.

(** The fees of a swap under a pricing ([swap_fee_params] of a revertible market). *)
Definition pricing_fee_params (kind : SwapPricingKind) (params : FeeParams) : FeeParams :=
  match kind with
  | PricingShift => mkFeeParams 0 0 (fee_receiver_factor params) None
  | PricingSwap | PricingDeposit | PricingWithdrawal => params
  end.

Definition with_swap_fee_params (f : FeeParams -> FeeParams) (c : MarketConfig) : MarketConfig :=
  mkMarketConfig (usd_to_amount_divisor c) (max_pool_amount c) (pnl_factor_config c)
    (reserve_factor c) (open_interest_reserve_factor c) (max_open_interest c)
    (ignore_open_interest_for_usage_factor c) (swap_impact_params c) (f (swap_fee_params c))
    (position_impact_params c) (position_impact_distribution_params c) (borrowing_fee_params c)
    (borrowing_fee_kink_model_params c) (funding_amount_per_size_adjustment c)
    (funding_fee_params c) (position_params c) (order_fee_params c)
    (min_collateral_factor_for_open_interest_multiplier c) (liquidation_fee_params c)
    (max_pool_value_for_deposit c).

(** Called once, on a market with the pricing of swaps. *)
Definition with_swap_pricing_kind (kind : SwapPricingKind) : SM (T := LiquiditySupply) unit :=
  smodify (fun self =>
    let m := sm_market self in
    let p := sm_plain self in
    mkSwapMarket (sm_meta self) (sm_is_pure self)
      (mkPlain (mkMarket (with_swap_fee_params (pricing_fee_params kind) (m_config m)) (m_pools m)
                  (m_supply m) (m_clocks m) (m_funding_factor_per_second m) (m_now m))
         (plain_long_balance p) (plain_short_balance p) (plain_trade_count p))).

(** The reports are for events only. *)
Definition pre_execute (prices : Prices) : SM (T := LiquiditySupply) unit :=
  do! _ := on_market distribute_position_impact in
  do! _ := on_market (update_borrowing prices) in
  do! _ := on_market (update_funding prices) in
  sret tt.

(** [Deposit::validate_first_deposit]; the last argument is the configuration of the market. *)
Definition validate_first_deposit (receiver : Pubkey) (min_amount min_tokens_for_first_deposit : Z)
    : store_result unit :=
  if min_tokens_for_first_deposit =? 0 then Ok tt
  else
    let! _ := require (receiver =? first_deposit_receiver) CoreError.InvalidReceiverForFirstDeposit in
    require_gte min_amount min_tokens_for_first_deposit
      CoreError.NotEnoughMarketTokenAmountForFirstDeposit.

(** [Execute::validate_first_deposit]: when the mint has no supply. *)
Definition execute_validate_first_deposit (receiver : Pubkey) (params : DepositActionParams)
    (min_tokens_for_first_deposit : Z) (s : SwapMarkets LiquiditySupply) : store_result unit :=
  if liquidity_supply (m_supply (sm_market (current_market s))) =? 0 then
    validate_first_deposit receiver (min_market_token_amount params) min_tokens_for_first_deposit
  else Ok tt.

Definition current_meta : EM MarketMeta := sread (fun s => Ok (sm_meta (current_market s))).
Definition current_prices (oracle : Oracle.Oracle) : EM Prices :=
  sread (fun s => oracle_prices oracle (sm_meta (current_market s))).

(** How a deposit and a withdrawal start. *)
Definition prepare (oracle : Oracle.Oracle) (kind : SwapPricingKind) : EM Prices :=
  do! _ := on_current (with_swap_pricing_kind kind) in
  do! prices := current_prices oracle in
  do! _ := on_current (pre_execute prices) in
  sret prices.

(** Without a swap no initial token may be named for an amount. *)
Definition no_initial_token (token : option Pubkey) (amount : Z) : store_result unit :=
  if amount =? 0 then Ok tt else require (bool_decide (token = None)) CoreError.InvalidArgument.

Definition swap_in (oracle : Oracle.Oracle) (swap : option SwapActionParams)
    (params : DepositActionParams) (initial_tokens : option Pubkey * option Pubkey) : EM (Z * Z) :=
  let amounts := (initial_long_token_amount params, initial_short_token_amount params) in
  match swap with
  | Some swap =>
      do! meta := current_meta in
      revertible_swap Into oracle swap (long_token_mint meta, short_token_mint meta) initial_tokens
        amounts
  | None =>
      do! _ := slift (no_initial_token (fst initial_tokens) (fst amounts)) in
      do! _ := slift (no_initial_token (snd initial_tokens) (snd amounts)) in
      sret amounts
  end.

Definition perform_deposit (long_token_amount short_token_amount : Z) (params : DepositActionParams)
    (prices : Prices) : SM (T := LiquiditySupply) Z :=
  do! report := on_market (deposit long_token_amount short_token_amount prices) in
  do! _ := sm_validate 0 0 in
  do! minted := slift (to_token_amount (minted report)) in
  do! _ := slift (validate_market_token_amount params minted) in
  sret minted.

Definition unchecked_deposit (oracle : Oracle.Oracle) (swap : option SwapActionParams)
    (min_tokens_for_first_deposit : Z) (receiver : Pubkey) (params : DepositActionParams)
    (initial_tokens : option Pubkey * option Pubkey) (swap_pricing_kind : option SwapPricingKind) :
      EM Z :=
  do! _ := sread (execute_validate_first_deposit receiver params min_tokens_for_first_deposit) in
  do! prices := prepare oracle (default PricingDeposit swap_pricing_kind) in
  do! amounts := swap_in oracle swap params initial_tokens in
  on_current (perform_deposit (fst amounts) (snd amounts) params prices).

Definition perform_withdraw (params : WithdrawalActionParams) (prices : Prices)
    : SM (T := LiquiditySupply) (Z * Z) :=
  do! report := on_market (withdraw (market_token_amount params) prices) in
  do! long_amount := slift (to_token_amount (long_token_output report)) in
  do! short_amount := slift (to_token_amount (short_token_output report)) in
  do! _ := sm_validate long_amount short_amount in
  sret (long_amount, short_amount).

Definition swap_out (oracle : Oracle.Oracle) (swap : option SwapActionParams)
    (final_tokens : Pubkey * Pubkey) (amounts : Z * Z) : EM (Z * Z) :=
  do! meta := current_meta in
  match swap with
  | Some swap =>
      revertible_swap From oracle swap final_tokens
        (Some (long_token_mint meta), Some (short_token_mint meta)) amounts
  | None =>
      do! _ := slift (require (bool_decide (final_tokens =
        (long_token_mint meta, short_token_mint meta)))
                        CoreError.InvalidSwapPath) in
      sret amounts
  end.

Definition unchecked_withdraw (oracle : Oracle.Oracle) (swap : option SwapActionParams)
    (params : WithdrawalActionParams) (final_tokens : Pubkey * Pubkey)
    (swap_pricing_kind : option SwapPricingKind) : EM (Z * Z) :=
  do! prices := prepare oracle (default PricingWithdrawal swap_pricing_kind) in
  do! amounts := on_current (perform_withdraw params prices) in
  do! final_amounts := swap_out oracle swap final_tokens amounts in
  do! _ := slift (validate_output_amounts params (fst final_amounts) (snd final_amounts)) in
  sret final_amounts.

(** The two executions of a shift. *)
Definition ShM (A : Type) : Type :=
  ST (SwapMarkets LiquiditySupply * SwapMarkets LiquiditySupply) StoreError A.

Definition on_from {A} (m : EM A) : ShM A := szoom fst (fun s p => (s, snd p)) m.
Definition on_to {A} (m : EM A) : ShM A := szoom snd (fun s p => (fst p, s)) m.

(** The vaults are shared: only the records move. *)
Definition move_token (token : Pubkey) (amount : Z) : ShM unit :=
  do! _ := on_from (current_out token amount) in
  on_to (current_in token amount).

Definition unchecked_shift (oracle : Oracle.Oracle) (from_swap to_swap : option SwapActionParams)
    (min_tokens_for_first_deposit : Z) (receiver : Pubkey) (params : ShiftActionParams) : ShM Z :=
  do! meta := on_from current_meta in
  let long_token := long_token_mint meta in
  let short_token := short_token_mint meta in
  do! amounts := on_from (unchecked_withdraw oracle from_swap
    (mkWithdrawalActionParams (from_market_token_amount params) 0 0) (long_token, short_token)
    (Some PricingShift)) in
  do! _ := move_token long_token (fst amounts) in
  do! _ := move_token short_token (snd amounts) in
  on_to (unchecked_deposit oracle to_swap min_tokens_for_first_deposit receiver
    (mkDepositActionParams (fst amounts) (snd amounts) (min_to_market_token_amount params))
    (None, None) (Some PricingShift)).
End Execute.

(** ** Opening and committing the accounts *)
Section Accounts.
#[local] Existing Instance u128.
Context {F : FixedPointOps u128}.
Context {B : Type} {BO : BitmapOps StoredMarket.MAX_FLAGS B}.
Context {C : Type} {CO : BitmapOps StoreConfig.MAX_CONFIG_FLAGS C}.
Context {T : Type} {TP : TokenProgram T}.
(** The address of the store, and the time of the cluster. *)
Context (this : Pubkey) (now : Z).
Implicit Types (w : StoredMarket.World T) (m : StoredMarket.Market).

(** [RevertibleMarket::new], and the supply of the market token. *)
Definition open_market (supply : Z) m : store_result (SwapMarket LiquiditySupply) :=
  let! rm := model_result (revertible_market_new (StoredMarket.as_account m)) in
  Ok (mkSwapMarket (StoredMarket.meta m) (StoredMarket.is_pure m)
        (shown (mkLiquiditySupply supply 0 0) now rm)).

(** A market for swaps; its supply is not used. *)
Definition loader_of w (key : Pubkey) : store_result (MarketLoader (T := LiquiditySupply)) :=
  match StoredMarket.world_markets w !! key with
  | None => Err (Anchor "AccountNotInitialized")
  | Some m =>
      Ok (mkMarketLoader key (StoredMarket.meta m) (StoredMarket.store m) (StoredMarket.is_enabled m)
            (open_market 0 m))
  end.

Fixpoint loaders_of w (keys : list Pubkey) : store_result (list (MarketLoader (T := LiquiditySupply))) :=
  match keys with
  | [] => Ok []
  | key :: keys => let! l := loader_of w key in let! ls := loaders_of w keys in Ok (l :: ls)
  end.

(** [unique_market_tokens_excluding_current(..).count()]. *)
Fixpoint count_unseen (seen : gset Pubkey) (path : list Pubkey) : nat :=
  match path with
  | [] => 0
  | token :: path =>
      if bool_decide (token ∈ seen) then count_unseen seen path
      else S (count_unseen ({[token]} ∪ seen) path)
  end.

(** The remaining accounts of the instruction are markets, by market token. *)
Definition unpack_markets_for_swap (self : SwapActionParams) (current_market_token : Pubkey)
    (remaining_accounts : list Pubkey) w : store_result (list (MarketLoader (T := LiquiditySupply))) :=
  let! primary := primary_swap_path self in
  let! secondary := secondary_swap_path self in
  if (length remaining_accounts <? count_unseen {[current_market_token]} (primary ++ secondary))%nat then
    Err (Anchor "AccountNotEnoughKeys")
  else loaders_of w remaining_accounts.

(** [RevertibleLiquidityMarketOperation::new] and [op]. *)
Definition op (swap : option SwapActionParams) (key : Pubkey) (remaining_accounts : list Pubkey) w
    : store_result (SwapMarkets LiquiditySupply) :=
  let! loaders := match swap with
                  | Some swap => unpack_markets_for_swap swap key remaining_accounts w
                  | None => Ok []
                  end in
  match StoredMarket.world_markets w !! key with
  | None => Err (Anchor "AccountNotInitialized")
  | Some m =>
      let! market := open_market (supply_of (StoredMarket.world_tokens w) key) m in
      let! swap_markets := swap_markets_new this (Some key) loaders ∅ in
      Ok (mkSwapMarkets swap_markets market)
  end.

(** What a commit writes to the storage. The revision numbers are those of before: no operation
    reads the revision of a stored item. *)
Definition state_of (p : Plain LiquiditySupply) (st : State) : State :=
  let market := plain_market p in
  mkState
    (pools_of (fun k => mkPoolStorage (storage_rev (pools_get (state_pools st) k))
                          (pools_get (m_pools market) k)))
    (mkClocksStorage (clocks_rev (state_clocks st)) (m_clocks market) (adl_for_long (state_clocks st))
       (adl_for_short (state_clocks st)))
    (mkOtherState (other_rev (state_other st)) (plain_trade_count p) (plain_long_balance p)
       (plain_short_balance p) (m_funding_factor_per_second market)).

Definition commit_market (p : Plain LiquiditySupply) m : StoredMarket.Market :=
  StoredMarket.set_state (state_of p (StoredMarket.state m)) m.

Definition all_markets (s : SwapMarkets LiquiditySupply) : gmap Pubkey (SwapMarket LiquiditySupply) :=
  <[current s := current_market s]> (markets s).

Definition commit_markets (ms : gmap Pubkey (SwapMarket LiquiditySupply))
    (stored : gmap Pubkey StoredMarket.Market) : gmap Pubkey StoredMarket.Market :=
  map_imap (fun k m => Some (match ms !! k with
                             | Some mk => commit_market (sm_plain mk) m
                             | None => m
                             end)) stored.

(** A call to the token program that panics when it fails. *)
Definition or_panic (msg : string) (m : ST T StoreError unit) : StoredMarket.WS unit := fun w =>
  match StoredMarket.on_tokens m w with
  | (w, Ok u) => (w, Ok u)
  | (w, Err _) => (w, Panic msg)
  | (w, Panic msg) => (w, Panic msg)
  end.

(** [RevertibleLiquidityMarket::commit]: the mint or burn of one market token. *)
Definition commit_tokens (amount : Z) (account : option Pubkey) (not_enabled failed : string)
    (m : Pubkey -> ST T StoreError unit) : StoredMarket.WS unit :=
  if amount =? 0 then sret tt
  else match account with
       | None => slift (Panic not_enabled)
       | Some account => or_panic failed (m account)
       end.

(** [Execute::commit]: the current market with its mints and burns, and the others. *)
Definition commit (receiver vault : option Pubkey) (s : SwapMarkets LiquiditySupply) :
    StoredMarket.WS unit :=
  let supply := m_supply (sm_market (current_market s)) in
  let mint := current s in
  do! _ := commit_tokens (to_mint supply) receiver "mint is not enabled" "mint error"
             (fun to => Tokens.mint_to mint to (to_mint supply)) in
  do! _ := commit_tokens (to_burn supply) vault "burn is not enabled" "burn error"
             (fun from => burn_from mint from (to_burn supply)) in
  smodify (fun w => StoredMarket.put_markets
                      (commit_markets (all_markets s) (StoredMarket.world_markets w)) w).

(** Opening, running and committing; nothing is committed when the run fails. *)
Definition executed {A} (swap : option SwapActionParams) (key : Pubkey) (remaining_accounts :
    list Pubkey)
    (receiver vault : option Pubkey) (m : EM A) : StoredMarket.WS A :=
  do! s := sread (op swap key remaining_accounts) in
  match m s with
  | (s', Ok a) => do! _ := commit receiver vault s' in sret a
  | (_, Err e) => slift (Err e)
  | (_, Panic msg) => slift (Panic msg)
  end.

(** The configuration of the first deposit. *)
Definition min_tokens_for_first_deposit m : Z :=
  StoreConfig.get (StoredMarket.config m) StoreConfig.MinTokensForFirstDeposit.
End Accounts.

(** ** The steps of an action on its market *)
Section Steps.
#[local] Existing Instance u128.
Context {F : FixedPointOps u128} {FOk : FixedPointOk F}.
Context {B : Type} `{BitmapLaws MAX_FLAGS B} (first_deposit_receiver : Pubkey)
  (oracle : Oracle.Oracle) (Hgood : GoodPrices oracle).
Implicit Types (s : SwapMarkets LiquiditySupply) (mk : SwapMarket LiquiditySupply) (tok : Pubkey).

(** A market whose token pools, metas, balances and supply are those of another one. *)
Lemma same_tokens_moved mk mk' :
  SmWf mk -> StoredMarket.same_tokens mk mk' -> SmMoved mk nothing nothing mk'.
Proof.
  intros Hwf Hs. eapply StoredMarket.sm_moved_same; [by apply sm_moved_refl| |done].
  apply StoredMarket.same_tokens_refl.
Qed.

Lemma with_pricing_ok kind mk mk' u :
  SmWf mk -> with_swap_pricing_kind kind mk = (mk', Ok u) -> SmMoved mk nothing nothing mk'.
Proof. intros Hwf ->%smodify_ok. by apply same_tokens_moved. Qed.

(** The market with another state of the model. *)
Definition with_model (market : Market Pool LiquiditySupply) mk : SwapMarket LiquiditySupply :=
  mkSwapMarket (sm_meta mk) (sm_is_pure mk)
    (mkPlain market (plain_long_balance (sm_plain mk)) (plain_short_balance (sm_plain mk))
       (plain_trade_count (sm_plain mk))).

(** An update of clocks, and of pools that hold no tokens. *)
Lemma quiet_moved mk clocks c market market' :
  SmWf mk -> Moved (set_clocks (sm_market mk) clocks) c market ->
  (forall side, held_change c side = 0) ->
  m_pools market' = m_pools market -> m_supply market' = m_supply market ->
  SmMoved mk nothing nothing (with_model market' mk).
Proof.
  intros Hwf Hm Hc Hp Hs. set (mk1 := with_model (set_clocks (sm_market mk) clocks) mk).
  assert (SmMoved mk nothing nothing mk1) as H1 by (by apply same_tokens_moved).
  apply (pools_moved mk1) in Hm as H2; [|apply H1].
  pose proof (sm_moved_trans _ _ _ _ _ _ _ H1 H2) as H3.
  eapply (sm_moved_eq _ _ _ _ nothing nothing) in H3; [|done|].
  2:{ intros tok. unfold nothing. by rewrite !Hc, !pay_0. }
  eapply StoredMarket.sm_moved_same; [exact H3|apply StoredMarket.same_tokens_refl|].
  by unfold StoredMarket.same_tokens, sm_market; simpl; rewrite Hp, Hs.
Qed.

Lemma pre_execute_ok prices mk mk' u :
  SmWf mk -> pre_execute prices mk = (mk', Ok u) -> SmMoved mk nothing nothing mk'.
Proof.
  intros Hwf Hr. apply sbind_ok in Hr as (mk1 & r1 & (m1 & H1 & ->)%on_swap_market_ok & Hr).
  apply distribute_ok in H1 as (last & d & a & n & _ & _ & _ & Hm); [|apply Hwf].
  eapply (quiet_moved _ _ _ _ m1) in Hm as H1; [|done|by intros []; rewrite held_change_at|done..].
  apply sbind_ok in Hr as (mk2 & r2 & H2%borrowing_ok & Hr); [|apply H1].
  apply sbind_ok in Hr as (mk3 & r3 & (m3 & H3 & ->)%on_swap_market_ok & [-> _]%sret_ok).
  apply update_funding_moved in H3 as (last' & d' & m4 & _ & _ & Hm' & ->); [|apply H2].
  eapply (quiet_moved _ _ _ _ (set_funding_factor_per_second m4 _)) in Hm' as H3;
    [|apply H2|by intros []|done..].
  pose proof (sm_moved_trans _ _ _ _ _ _ _ (sm_moved_trans _ _ _ _ _ _ _ H1 H2) H3) as H4.
  eapply sm_moved_eq; [exact H4|done|done].
Qed.

(** A deposit into the market and a withdrawal from it: the supply changes as well. [mk1] is the
    result with the supply of before. *)
Definition with_supply (supply : LiquiditySupply) mk : SwapMarket LiquiditySupply :=
  with_model (set_supply (sm_market mk) supply) mk.

Lemma with_supply_facts supply mk :
  (forall tok, recorded (with_supply supply mk) tok = recorded mk tok) /\
  (forall tok, pools_hold (with_supply supply mk) tok = pools_hold mk tok).
Proof. done. Qed.

Lemma perform_deposit_ok la sa params prices mk mk' x :
  SmWf mk -> 0 <= la -> 0 <= sa -> oracle_prices oracle (sm_meta mk) = Ok prices ->
  perform_deposit la sa params prices mk = (mk', Ok x) ->
  (exists mk1, SmMoved mk nothing
      (fun tok => pay (long_token_mint (sm_meta mk)) la tok + pay (short_token_mint (sm_meta mk)) sa
        tok) mk1
    /\ mk' = with_supply (m_supply (sm_market mk')) mk1)
  /\ SmWf mk' /\ solvent mk' /\ min_market_token_amount params <= x /\ @in_u u64 x
  /\ liquidity_mint (m_supply (sm_market mk)) x = Ok (m_supply (sm_market mk')).
Proof.
  intros Hwf Hla Hsa Hp Hr. apply oracle_prices_ok in Hp as [Hrange Hord]; [|done].
  unfold perform_deposit in Hr. apply sbind_ok in Hr as (mk1 & r & (m' & Hd & ->)%on_swap_market_ok &
    Hr).
  apply sbind_ok in Hr as (? & [] & [-> Hv]%sm_validate_ok & Hr).
  apply sbind_ok in Hr as (? & y & [-> Hy]%slift_ok & Hr). apply to_token_amount_ok in Hy as [-> Hu].
  apply sbind_ok in Hr as (? & [] & [-> Hmin%require_gte_ok]%slift_ok & [-> ->]%sret_ok).
  apply deposit_ok in Hd as (c & pv & m1 & shl & shs & Hm & _ & Hl & Hs & Hwf' & Hset & _ & _ & _ & _
    & _ & _ & _ & _ & Hmint);
    [|apply Hwf|done..].
  pose proof (pools_moved _ _ _ Hwf Hm) as Hmv. rewrite Hl, Hs in Hmv.
  split_and!; try done.
  - eexists. split; [exact Hmv|]. unfold with_supply, with_model, sm_market. simpl. by rewrite <- Hset.
  - destruct (sm_moved_wf _ _ _ _ Hmv) as [_ Hb Hpu Hi]. split; [done..|].
    simpl in *. intros Hpure. specialize (Hi Hpure). unfold sm_market in *. simpl in *. rewrite Hset.
      done.
Qed.

Lemma perform_withdraw_ok params prices mk mk' out :
  SmWf mk -> @in_u u64 (market_token_amount params) -> oracle_prices oracle (sm_meta mk) = Ok prices ->
  perform_withdraw params prices mk = (mk', Ok out) ->
  (exists mk1, SmMoved mk nothing
      (fun tok => - pay (long_token_mint (sm_meta mk)) (fst out) tok
                  - pay (short_token_mint (sm_meta mk)) (snd out) tok) mk1
    /\ mk' = with_supply (m_supply (sm_market mk')) mk1)
  /\ SmWf mk' /\ validate_market_balances (sm_view mk') (fst out) (snd out) = Ok tt
  /\ @in_u u64 (fst out) /\ @in_u u64 (snd out)
  /\ liquidity_burn (m_supply (sm_market mk)) (market_token_amount params) =
    Ok (m_supply (sm_market mk')).
Proof.
  intros Hwf Hx Hp Hr. apply oracle_prices_ok in Hp as [Hrange Hord]; [|done].
  assert (@in_u u128 (market_token_amount params)) as Hx'.
  { destruct Hx. split; [done|]. etransitivity; [eassumption|]. by vm_compute. }
  unfold perform_withdraw in Hr. apply sbind_ok in Hr as (mk1 & r & (m' & Hd & ->)%on_swap_market_ok &
    Hr).
  apply sbind_ok in Hr as (? & y & [-> Hy]%slift_ok & Hr). apply to_token_amount_ok in Hy as [-> Hu].
  apply sbind_ok in Hr as (? & y & [-> Hy]%slift_ok & Hr). apply to_token_amount_ok in Hy as [-> Hu'].
  apply sbind_ok in Hr as (? & [] & [-> Hv]%sm_validate_ok & [-> ->]%sret_ok).
  apply withdraw_ok in Hd as (c & m1 & pv & la & sa & Hm & _ & Hl & Hs & Hset & Hwf' & _ & _ & _ & _ &
    _ & _ & _ & _ & Hburn & _);
    [|apply Hwf|done..].
  pose proof (pools_moved _ _ _ Hwf Hm) as Hmv. rewrite Hl, Hs in Hmv.
  split_and!; try done.
  - eexists. split.
    + eapply sm_moved_eq; [exact Hmv|done|]. intros tok. simpl. rewrite !pay_opp. lia.
    + unfold with_supply, with_model, sm_market. simpl. by rewrite <- Hset.
  - destruct (sm_moved_wf _ _ _ _ Hmv) as [_ Hb Hpu Hi]. split; [done..|].
    simpl in *. intros Hpure. specialize (Hi Hpure). unfold sm_market in *. simpl in *. rewrite Hset.
      done.
Qed.

(** ** An action on all its markets *)

(** [s'] is [s] with [dr] more recorded and [dh] more in the pools, over all markets; every market
    that was touched is solvent. The supply of the current market is left open. *)
Record Executed s dr dh s' : Prop := {
  ex_meta : sm_meta (current_market s') = sm_meta (current_market s);
  ex_wf : MarketsWf s';
  ex_metas k : sm_meta <$> markets s' !! k = sm_meta <$> markets s !! k;
  ex_recorded tok : total (fun mk => recorded mk tok) s' = total (fun mk => recorded mk tok) s + dr tok;
  ex_held tok : total (fun mk => pools_hold mk tok) s' = total (fun mk => pools_hold mk tok) s + dh tok;
  ex_kept k mk : markets s' !! k = Some mk -> solvent mk \/ markets s !! k = Some mk;
}.

Lemma executed_path s dr dh s' :
  (exists good, PathMoved s dr dh ∅ good s') -> Executed s dr dh s'.
Proof. intros (good & [Hc Hwf Hk Hr Hh Hb _ _]). split; try done. intros k mk Hmk.
  apply Hb; [done|set_solver].
Qed.

Lemma executed_trans s dr dh s1 dr' dh' s2 :
  Executed s dr dh s1 -> Executed s1 dr' dh' s2 ->
  Executed s (fun tok => dr tok + dr' tok) (fun tok => dh tok + dh' tok) s2.
Proof.
  intros [Hc _ Hk Hr Hh Hb] [Hc' Hwf Hk' Hr' Hh' Hb'].
  split; [congruence|done|by intros k; rewrite Hk'|..].
  - intros tok. rewrite Hr', Hr. lia.
  - intros tok. rewrite Hh', Hh. lia.
  - intros k mk [?|Hmk]%Hb'; [by left|by apply Hb].
Qed.

Lemma executed_eq s dr dh s' dr' dh' :
  Executed s dr dh s' -> (forall tok, dr tok = dr' tok) -> (forall tok, dh tok = dh' tok) ->
  Executed s dr' dh' s'.
Proof. intros [Hc Hwf Hk Hr Hh Hb] Er Eh. split; try done; intros tok; by rewrite <- ?Er, <- ?Eh. Qed.

(** An operation on the current market, up to its supply. *)
Lemma executed_current {A} (m : SM (T := LiquiditySupply) A) s s' a dr dh :
  MarketsWf s -> on_current m s = (s', Ok a) ->
  (forall mk', m (current_market s) = (mk', Ok a) -> SmWf mk' /\ exists mk1,
     SmMoved (current_market s) dr dh mk1 /\ mk' = with_supply (m_supply (sm_market mk')) mk1) ->
  Executed s dr dh s' /\ markets s' = markets s.
Proof.
  intros [_ Hms] Hr Hm. apply szoom_ok in Hr as (mk & Hmk & ->).
  apply Hm in Hmk as (Hwf' & mk1 & [Hmeta Hwf Hrec Hheld Hsup] & Heq).
  destruct (with_supply_facts (m_supply (sm_market mk)) mk1) as [Hr Hh]. rewrite <- Heq in Hr, Hh.
  split; [|done]. split; simpl; [by rewrite Heq|by split|done|..].
  - intros tok. unfold total. simpl. rewrite Hr, Hrec. lia.
  - intros tok. unfold total. simpl. rewrite Hh, Hheld. lia.
  - auto.
Qed.

Lemma executed_moved {A} (m : SM (T := LiquiditySupply) A) s s' a dr dh :
  MarketsWf s -> on_current m s = (s', Ok a) ->
  (forall mk', m (current_market s) = (mk', Ok a) -> SmMoved (current_market s) dr dh mk') ->
  Executed s dr dh s' /\ m_supply (sm_market (current_market s')) =
    m_supply (sm_market (current_market s)).
Proof.
  intros Hwf Hr Hm. apply (on_current_ok _ _ _ _ dr dh) in Hr as [Hr _]; [|done|done].
  split; [apply executed_path; by exists ∅|by apply (pm_supply _ _ _ _ _ _ Hr)].
Qed.

(** What a deposit brings: the initial tokens, or those of the market without a swap. *)
Definition deposited (meta : MarketMeta) (swap : option SwapActionParams) (params : DepositActionParams)
    (initial_tokens : option Pubkey * option Pubkey) (tok : Pubkey) : Z :=
  match swap with
  | Some _ => side_in (fst initial_tokens) (initial_long_token_amount params) tok
              + side_in (snd initial_tokens) (initial_short_token_amount params) tok
  | None => pay (long_token_mint meta) (initial_long_token_amount params) tok
            + pay (short_token_mint meta) (initial_short_token_amount params) tok
  end.

Definition params_u64 (params : DepositActionParams) : Prop :=
  @in_u u64 (initial_long_token_amount params) /\ @in_u u64 (initial_short_token_amount params).

Lemma swap_in_amounts_ok swap params tokens s s' amounts :
  MarketsWf s -> params_u64 params ->
  swap_in oracle swap params tokens s = (s', Ok amounts) ->
  Executed s nothing (fun tok =>
      deposited (sm_meta (current_market s)) swap params tokens tok
      - pay (long_token_mint (sm_meta (current_market s))) (fst amounts) tok
      - pay (short_token_mint (sm_meta (current_market s))) (snd amounts) tok) s'
  /\ m_supply (sm_market (current_market s')) = m_supply (sm_market (current_market s))
  /\ @in_u u64 (fst amounts) /\ @in_u u64 (snd amounts).
Proof.
  intros Hwf [Hul Hus] Hr. unfold swap_in in Hr. destruct swap as [swap|].
  - apply sbind_ok in Hr as (? & ? & [-> [= <-]]%sread_ok & Hr).
    pose proof Hr as Hu. apply revertible_swap_u64 in Hu as [Hu1 Hu2]; [|done..].
    apply revertible_swap_ok in Hr as (lp & sp & Hm & _); [|done..].
    split_and!; [|by apply (pm_supply _ _ _ _ _ _ Hm)|done..].
    unfold output_of in Hm. simpl in Hm. rewrite union_idemp_L in Hm.
    eapply executed_eq; [apply executed_path; by exists ∅|done|]. intros tok. simpl. lia.
  - apply sbind_ok in Hr as (? & [] & [-> _]%slift_ok & Hr).
    apply sbind_ok in Hr as (? & [] & [-> _]%slift_ok & [-> ->]%sret_ok). simpl.
    split_and!; [|done..]. eapply executed_eq; [apply executed_path; exists ∅;
      by apply path_moved_refl|done|].
    intros tok. unfold nothing. lia.
Qed.

Lemma liquidity_mint_ok l x l' :
  liquidity_mint l x = Ok l' -> l' = mkLiquiditySupply (liquidity_supply l) (to_mint l + x) (to_burn l).
Proof.
  unfold liquidity_mint. intros Hm. apply rbind_ok in Hm as (y & [-> _]%ok_or_ok%try_u_some & Hm).
  apply rbind_ok in Hm as (z & [-> _]%ok_or_ok%uadd_some & Hm). by apply rbind_ok in Hm as (? & _ & [=
    <-]).
Qed.

Lemma liquidity_burn_ok l x l' :
  liquidity_burn l x = Ok l' -> l' = mkLiquiditySupply (liquidity_supply l) (to_mint l) (to_burn l + x).
Proof.
  unfold liquidity_burn. intros Hm. apply rbind_ok in Hm as (y & [-> _]%ok_or_ok%try_u_some & Hm).
  apply rbind_ok in Hm as (z & [-> _]%ok_or_ok%uadd_some & Hm). by apply rbind_ok in Hm as (? & _ & [=
    <-]).
Qed.

Definition supply_at s : LiquiditySupply := m_supply (sm_market (current_market s)).

(** The updates before an action: the pricing and [pre_execute]. *)
Lemma prepare_ok kind s s' prices :
  MarketsWf s -> prepare oracle kind s = (s', Ok prices) ->
  Executed s nothing nothing s' /\ supply_at s' = supply_at s
  /\ oracle_prices oracle (sm_meta (current_market s')) = Ok prices.
Proof.
  intros Hwf Hr. apply sbind_ok in Hr as (s1 & u1 & H1 & Hr).
  apply (executed_moved _ _ _ _ nothing nothing) in H1 as [E1 S1]; [|done|].
  2:{ intros mk' H1'. by apply with_pricing_ok in H1'; [|apply Hwf]. }
  apply sbind_ok in Hr as (? & p & [-> Hp]%sread_ok & Hr).
  apply sbind_ok in Hr as (s2 & u2 & H2 & [-> ->]%sret_ok).
  pose proof (ex_wf _ _ _ _ E1) as Hwf1.
  apply (executed_moved _ _ _ _ nothing nothing) in H2 as [E2 S2]; [|done|].
  2:{ intros mk' H2'. by apply pre_execute_ok in H2'; [|apply Hwf1]. }
  split_and!; [|unfold supply_at; congruence|by rewrite (ex_meta _ _ _ _ E2)].
  eapply executed_eq; [by eapply executed_trans|done|done].
Qed.

Lemma unchecked_deposit_ok swap min_tokens receiver params tokens kind s s' x :
  MarketsWf s -> params_u64 params ->
  unchecked_deposit first_deposit_receiver oracle swap min_tokens receiver params tokens kind s =
    (s', Ok x) ->
  Executed s nothing (deposited (sm_meta (current_market s)) swap params tokens) s'
  /\ solvent (current_market s') /\ min_market_token_amount params <= x /\ @in_u u64 x
  /\ supply_at s' = mkLiquiditySupply (liquidity_supply (supply_at s)) (to_mint (supply_at s) + x)
                      (to_burn (supply_at s))
  /\ (liquidity_supply (supply_at s) = 0 -> min_tokens <> 0 ->
        receiver = first_deposit_receiver /\ min_tokens <= min_market_token_amount params)
  /\ (swap = None -> forall token amount,
        (token, amount) ∈ [(fst tokens, initial_long_token_amount params);
                           (snd tokens, initial_short_token_amount params)] ->
        amount <> 0 -> token = None).
Proof.
  intros Hwf Hu Hr. unfold unchecked_deposit in Hr.
  apply sbind_ok in Hr as (? & [] & [-> Hfirst]%sread_ok & Hr).
  apply sbind_ok in Hr as (s1 & prices & (E1 & S1 & Hp)%prepare_ok & Hr); [|done].
  pose proof (ex_wf _ _ _ _ E1) as Hwf1.
  apply sbind_ok in Hr as (s2 & amounts & Hswap & Hr). pose proof Hswap as Hno.
  apply swap_in_amounts_ok in Hswap as (E2 & S2 & [Hl _] & [Hs _]); [|done..].
  pose proof (ex_wf _ _ _ _ E2) as Hwf2.
  rewrite <- (ex_meta _ _ _ _ E2) in Hp.
  pose proof Hr as Hd. apply szoom_ok in Hd as (mk & Hd & ->).
  apply perform_deposit_ok in Hd as (Hmv & Hwf3 & Hsol & Hmin & Hux & Hmint); [|apply Hwf2|done..].
  apply (executed_current _ _ _ _ nothing (fun tok =>
      pay (long_token_mint (sm_meta (current_market s2))) (fst amounts) tok
      + pay (short_token_mint (sm_meta (current_market s2))) (snd amounts) tok)) in Hr as [E3 _];
        [|done|].
  2:{ intros mk' Hd. apply perform_deposit_ok in Hd as (? & ? & _); [by split|apply Hwf2|done..]. }
  split_and!; [|done|done|done| | |].
  - eapply executed_eq; [eapply executed_trans; [exact E1|eapply executed_trans;
    [exact E2|exact E3]]|done|].
    intros tok. cbv beta. unfold nothing. rewrite (ex_meta _ _ _ _ E2), (ex_meta _ _ _ _ E1). lia.
  - apply liquidity_mint_ok in Hmint. unfold supply_at in *. simpl. by rewrite Hmint, S2, S1.
  - intros Hz Hne. unfold execute_validate_first_deposit, validate_first_deposit in Hfirst.
    fold (supply_at s) in Hfirst. rewrite Hz in Hfirst. apply Z.eqb_neq in Hne. rewrite Hne in Hfirst.
      simpl in Hfirst.
    apply rbind_ok in Hfirst as (? & Hrec%require_ok%Z.eqb_eq & Hge%require_gte_ok). done.
  - intros -> token amount Hin Ha. unfold swap_in in Hno.
    apply sbind_ok in Hno as (? & ? & [_ H1]%slift_ok & Hno).
    apply sbind_ok in Hno as (? & ? & [_ H2]%slift_ok & _). unfold no_initial_token in *. simpl in H1,
      H2.
    apply Z.eqb_neq in Ha.
    apply elem_of_cons in Hin as [[= -> ->]|[[= -> ->]|[]%elem_of_nil]%elem_of_cons];
      [rewrite Ha in H1; apply require_ok, bool_decide_eq_true in H1
      |rewrite Ha in H2; apply require_ok, bool_decide_eq_true in H2]; done.
Qed.

Lemma validate_solvent mk l x :
  SmWf mk -> 0 <= l -> 0 <= x -> validate_market_balances (sm_view mk) l x = Ok tt -> solvent mk.
Proof.
  intros Hwf Hl Hx Hv. pose proof (sm_view_wf _ Hwf) as Hview. unfold solvent.
  apply validate_market_balances_iff in Hv; [|done..]. apply validate_market_balances_iff;
    [done|lia|lia|].
  unfold covered in *. destruct (view_is_pure (sm_view mk)); [lia|]. destruct Hv as [H1' H2']. split;
    lia.
Qed.

(** The outputs of a withdrawal can be paid: by the current market without a swap, otherwise by the
    markets that the paths end in. *)
Definition payable (cur : Pubkey) (swap : option SwapActionParams) (final_tokens : Pubkey * Pubkey)
    (out : Z * Z) s : Prop :=
  match swap with
  | None => validate_market_balances (sm_view (current_market s)) (fst out) (snd out) = Ok tt
  | Some swap => exists long_path short_path,
      validated_primary_swap_path swap = Ok long_path /\
      validated_secondary_swap_path swap = Ok short_path /\
      let long_market := output_market From cur long_path in
      let short_market := output_market From cur short_path in
      if long_market =? short_market then
        can_pay s long_market (fst final_tokens) (snd final_tokens) (fst out) (snd out)
      else can_pay s long_market (fst final_tokens) (fst final_tokens) (fst out) 0
           /\ can_pay s short_market (snd final_tokens) (snd final_tokens) (snd out) 0
  end.

Lemma swap_out_ok swap tokens amounts s s' out :
  MarketsWf s -> @in_u u64 (fst amounts) -> @in_u u64 (snd amounts) ->
  validate_market_balances (sm_view (current_market s)) (fst amounts) (snd amounts) = Ok tt ->
  swap_out oracle swap tokens amounts s = (s', Ok out) ->
  Executed s nothing (fun tok =>
      pay (long_token_mint (sm_meta (current_market s))) (fst amounts) tok
      + pay (short_token_mint (sm_meta (current_market s))) (snd amounts) tok
      - pay (fst tokens) (fst out) tok - pay (snd tokens) (snd out) tok) s'
  /\ supply_at s' = supply_at s /\ solvent (current_market s')
  /\ @in_u u64 (fst out) /\ @in_u u64 (snd out) /\ payable (current s) swap tokens out s'.
Proof.
  intros Hwf Hul Hus Hv Hr. unfold swap_out in Hr.
  apply sbind_ok in Hr as (? & ? & [-> [= <-]]%sread_ok & Hr). destruct swap as [swap|].
  - pose proof Hr as Hu. apply revertible_swap_u64 in Hu as [Hu1 Hu2]; [|done..].
    pose proof Hr as Hk. apply revertible_swap_kept in Hk as (Hsol & Hk & Hpay); [|done..].
    apply revertible_swap_ok in Hr as (lp & sp & [Hm Hwf' Hkeys Hrec Hheld _ _ Hsup] & _); [|done..].
    split_and!; try done. split; try done. intros tok. rewrite Hheld. simpl. lia.
  - apply sbind_ok in Hr as (? & [] & [-> Hto%require_ok%bool_decide_eq_true]%slift_ok & [->
    ->]%sret_ok).
    subst tokens. simpl. split_and!; try done.
    + eapply executed_eq; [apply executed_path; exists ∅; by apply path_moved_refl|done|].
      intros tok. unfold nothing. lia.
    + destruct Hul, Hus. eapply validate_solvent; [apply Hwf| | |exact Hv]; done.
Qed.

Lemma unchecked_withdraw_ok swap params tokens kind s s' out :
  MarketsWf s -> @in_u u64 (market_token_amount params) ->
  unchecked_withdraw oracle swap params tokens kind s = (s', Ok out) ->
  Executed s nothing (fun tok => - pay (fst tokens) (fst out) tok - pay (snd tokens) (snd out) tok) s'
  /\ solvent (current_market s') /\ payable (current s) swap tokens out s'
  /\ @in_u u64 (fst out) /\ @in_u u64 (snd out)
  /\ min_long_token_amount params <= fst out /\ min_short_token_amount params <= snd out
  /\ supply_at s' = mkLiquiditySupply (liquidity_supply (supply_at s)) (to_mint (supply_at s))
                      (to_burn (supply_at s) + market_token_amount params).
Proof.
  intros Hwf Hu Hr. unfold unchecked_withdraw in Hr.
  apply sbind_ok in Hr as (s1 & prices & (E1 & S1 & Hp)%prepare_ok & Hr); [|done].
  pose proof (ex_wf _ _ _ _ E1) as Hwf1.
  apply sbind_ok in Hr as (s2 & amounts & Hd & Hr).
  pose proof Hd as Hd2. apply szoom_ok in Hd2 as (mk & Hd2 & Hs2).
  apply perform_withdraw_ok in Hd2 as (_ & _ & Hv & Hul & Hus & Hburn); [|apply Hwf1|done..].
  apply (executed_current _ _ _ _ nothing (fun tok =>
      - pay (long_token_mint (sm_meta (current_market s1))) (fst amounts) tok
      - pay (short_token_mint (sm_meta (current_market s1))) (snd amounts) tok)) in Hd as [E2 _];
        [|done|].
  2:{ intros mk' Hw. apply perform_withdraw_ok in Hw as (? & ? & _); [by split|apply Hwf1|done..]. }
  assert (mk = current_market s2) as -> by (by rewrite Hs2). clear Hs2.
  apply sbind_ok in Hr as (s3 & out' & (E3 & S3 & Hsol & Ho1 & Ho2 & Hpay)%swap_out_ok & Hr);
    [|apply (ex_wf _ _ _ _ E2)|done..].
  apply sbind_ok in Hr as (? & [] & [-> Hmin]%slift_ok & [-> ->]%sret_ok).
  apply rbind_ok in Hmin as (? & Hm1%require_gte_ok & Hm2%require_gte_ok).
  split_and!; try done.
  - eapply executed_eq; [eapply executed_trans; [exact E1|eapply executed_trans;
    [exact E2|exact E3]]|done|].
    intros tok. cbv beta. unfold nothing. rewrite (ex_meta _ _ _ _ E2). lia.
  - unfold current in *. by rewrite (ex_meta _ _ _ _ E2), (ex_meta _ _ _ _ E1) in Hpay.
  - apply liquidity_burn_ok in Hburn. unfold supply_at in *. by rewrite S3, Hburn, S1.
Qed.

(** What is recorded as transferred out is no longer there to cover anything. *)
Lemma record_out_covers (side side' : bool) x y mk mk' u :
  SmWf mk -> sm_record_out (if side then long_token_mint (sm_meta mk) else short_token_mint (sm_meta
    mk)) x mk
    = (mk', Ok u) ->
  covered (sm_view mk) side' (y + if sm_is_pure mk || Bool.eqb side side' then x else 0) ->
  covered (sm_view mk') side' y.
Proof.
  intros [_ _ Hp _] Hr. unfold sm_record_out, record_by_token in Hr.
  apply sbind_ok in Hr as (? & b & [-> Hside%model_result_ok]%sread_ok & Hr).
  apply sbind_ok in Hr as (? & ? & [-> [= <-]]%sread_ok & Hr).
  apply on_plain_ok in Hr as (plain & Hr & ->). unfold plain_transfer in Hr. apply supdate_ok in Hr.
  assert (sm_is_pure mk = false -> b = side) as Hb.
  { intros Hpure. rewrite Hpure in Hp. symmetry in Hp. apply Z.eqb_neq in Hp.
    apply to_token_side_ok in Hside. destruct b, side; congruence. }
  unfold covered, required. cbn [view_balance sm_view view_market view_is_pure].
  unfold sm_balance, sm_market. cbn [sm_is_pure sm_plain sm_meta].
  destruct (sm_is_pure mk) eqn:Epure.
  - apply rbind_ok in Hr as (z & [-> _]%ok_or_ok%usub_some & [= <-]). rewrite orb_true_r. simpl. lia.
  - rewrite (Hb eq_refl) in Hr. destruct side; simpl in Hr;
      apply rbind_ok in Hr as (z & [-> _]%ok_or_ok%usub_some & [= <-]); destruct side'; simpl; lia.
Qed.

Lemma move_token_ok token x a b a' b' :
  MarketsWf a -> MarketsWf b -> move_token token x (a, b) = ((a', b'), Ok tt) ->
  Executed a (pay token (- x)) nothing a' /\ supply_at a' = supply_at a
  /\ Executed b (pay token x) nothing b' /\ supply_at b' = supply_at b
  /\ sm_record_out token x (current_market a) = (current_market a', Ok tt) /\ markets a' = markets a.
Proof.
  intros Ha Hb Hr. unfold move_token in Hr. apply sbind_ok in Hr as ([a1 b1] & [] & H1 & H2).
  apply szoom_ok in H1 as (a2 & H1 & [= -> ->]). apply szoom_ok in H2 as (b2 & H2 & [= ->
    ->]). simpl in *.
  pose proof H1 as H1'. apply szoom_ok in H1' as (mk & Hmk & Heq).
  apply (executed_moved _ _ _ _ (pay token (- x)) nothing) in H1 as [E1 S1]; [|done|].
  2:{ intros mk' Ho. by apply record_out_ok in Ho; [|apply Ha]. }
  apply (executed_moved _ _ _ _ (pay token x) nothing) in H2 as [E2 S2]; [|done|].
  2:{ intros mk' Hi. by apply record_in_ok in Hi; [|apply Hb]. }
  rewrite Heq in *. by split_and!.
Qed.

Lemma no_swap_payable mk1 mk2 mk3 l x :
  SmWf mk1 -> SmWf mk2 -> 0 <= l -> 0 <= x ->
  validate_market_balances (sm_view mk1) l x = Ok tt ->
  sm_record_out (long_token_mint (sm_meta mk1)) l mk1 = (mk2, Ok tt) ->
  sm_record_out (short_token_mint (sm_meta mk1)) x mk2 = (mk3, Ok tt) -> SmWf mk3 -> solvent mk3.
Proof.
  intros W1 W2 Hl Hx Hv H1 H2 W3.
  pose proof (record_out_ok _ _ _ _ _ W1 H1) as M1. pose proof (record_out_ok _ _ _ _ _ W2 H2) as M2.
  pose proof (sm_moved_meta _ _ _ _ M1) as E1. pose proof (sm_moved_meta _ _ _ _ M2) as E2.
  assert (sm_is_pure mk2 = sm_is_pure mk1) as P1 by (by rewrite (sm_wf_pure _ W1), (sm_wf_pure _ W2),
    E1).
  assert (sm_is_pure mk3 = sm_is_pure mk1) as P2
    by (by rewrite (sm_wf_pure _ W1), (sm_wf_pure _ W3), E2, E1).
  apply validate_market_balances_iff in Hv; [|by apply sm_view_wf|done..].
  unfold solvent. apply validate_market_balances_iff; [by apply sm_view_wf|done|done|].
  cbn [view_is_pure sm_view] in *. rewrite P2. rewrite <- E1 in H2.
  pose proof (record_out_covers true) as Ct. pose proof (record_out_covers false) as Cf.
  destruct (sm_is_pure mk1) eqn:Ep; [|destruct Hv as [Hv1 Hv2]; split].
  - eapply Cf; [exact W2|exact H2|]. rewrite P1. eapply Ct; [exact W1|exact H1|]. rewrite Ep. simpl.
    by replace (0 + 0 + x + l) with (l + x) by lia.
  - eapply Cf; [exact W2|exact H2|]. rewrite P1. eapply Ct; [exact W1|exact H1|]. rewrite Ep. simpl.
    by replace (0 + 0 + l) with l by lia.
  - eapply Cf; [exact W2|exact H2|]. rewrite P1. eapply Ct; [exact W1|exact H1|]. rewrite Ep. simpl.
    by replace (0 + x + 0) with x by lia.
Qed.

Lemma unchecked_shift_ok min_tokens receiver params a b a' b' x :
  MarketsWf a -> MarketsWf b -> @in_u u64 (from_market_token_amount params) ->
  unchecked_shift first_deposit_receiver oracle None None min_tokens receiver params (a, b)
    = ((a', b'), Ok x) ->
  exists l sh,
    let meta := sm_meta (current_market a) in
    let meta' := sm_meta (current_market b) in
    let moved tok := pay (long_token_mint meta) l tok + pay (short_token_mint meta) sh tok in
    @in_u u64 l /\ @in_u u64 sh
    /\ Executed a (fun tok => - moved tok) (fun tok => - moved tok) a'
    /\ Executed b moved
         (fun tok => pay (long_token_mint meta') l tok + pay (short_token_mint meta') sh tok) b'
    /\ solvent (current_market a') /\ solvent (current_market b')
    /\ min_to_market_token_amount params <= x /\ @in_u u64 x
    /\ supply_at a' = mkLiquiditySupply (liquidity_supply (supply_at a)) (to_mint (supply_at a))
                        (to_burn (supply_at a) + from_market_token_amount params)
    /\ supply_at b' = mkLiquiditySupply (liquidity_supply (supply_at b)) (to_mint (supply_at b) + x)
                        (to_burn (supply_at b)).
Proof.
  intros Ha Hb Hu Hr. unfold unchecked_shift in Hr.
  apply sbind_ok in Hr as (? & ? & (? & [-> [= <-]]%sread_ok & ->)%szoom_ok & Hr). simpl in Hr.
  apply sbind_ok in Hr as ([a1 b1] & [l sh] & Hw & Hr). apply szoom_ok in Hw as (a2 & Hw & [= ->
    ->]). simpl in *.
  apply unchecked_withdraw_ok in Hw as (E1 & _ & Hv & Hl & Hs & _ & _ & S1); [|done|done]. simpl in *.
  apply sbind_ok in Hr as ([a3 b3] & [] & H1 & Hr).
  apply move_token_ok in H1 as (E2 & S2 & E2' & S2' & R2 & _); [|apply (ex_wf _ _ _ _ E1)|done].
  apply sbind_ok in Hr as ([a4 b4] & [] & H1 & Hr).
  apply move_token_ok in H1 as (E3 & S3 & E3' & S3' & R3 & _);
    [|apply (ex_wf _ _ _ _ E2)|apply (ex_wf _ _ _ _ E2')].
  apply szoom_ok in Hr as (b5 & Hd & [= -> ->]). simpl in *.
  apply unchecked_deposit_ok in Hd as (E4 & Hsol & Hmin & Hx & S4 & _);
    [|apply (ex_wf _ _ _ _ E3')|by split].
  exists l, sh. cbv zeta. simpl in *.
  rewrite (ex_meta _ _ _ _ E3'), (ex_meta _ _ _ _ E2') in E4.
  split_and!; try done.
  - eapply executed_eq; [eapply executed_trans; [exact E1|eapply executed_trans;
    [exact E2|exact E3]]|..];
      intros tok; cbv beta; rewrite ?pay_opp; unfold nothing; lia.
  - eapply executed_eq; [eapply executed_trans; [exact E2'|eapply executed_trans;
    [exact E3'|exact E4]]|..];
      intros tok; cbv beta; unfold nothing, deposited; simpl; lia.
  - destruct Hl, Hs. eapply no_swap_payable; [| | | |exact Hv| | |].
    + apply (ex_wf _ _ _ _ E1).
    + apply (ex_wf _ _ _ _ E2).
    + done.
    + done.
    + by rewrite (ex_meta _ _ _ _ E1).
    + by rewrite (ex_meta _ _ _ _ E1).
    + apply (ex_wf _ _ _ _ E3).
  - by rewrite S3, S2, S1.
  - by rewrite S4, S3', S2'.
Qed.
End Steps.


(** ** What opening and committing does to the accounts *)
Section Accounting.
#[local] Existing Instance u128.
Context {F : FixedPointOps u128} {FOk : FixedPointOk F}.
Context {B : Type} {BO : BitmapOps StoredMarket.MAX_FLAGS B} {BL : BitmapLaws StoredMarket.MAX_FLAGS B}.
Context {C : Type} {CO : BitmapOps StoreConfig.MAX_CONFIG_FLAGS C}.
Context {T : Type} {TP : TokenProgram T} {TL : TokenProgramLaws T}.
Context (this : Pubkey) (now : Z).
Implicit Types (m : StoredMarket.Market) (mk : SwapMarket LiquiditySupply) (s :
  SwapMarkets LiquiditySupply).
Implicit Types (w : StoredMarket.World T).

(** A market that is opened for an account: the same but for the supply, and the parameters. *)
Definition opened m mk : Prop :=
  sm_meta mk = StoredMarket.meta m /\ sm_is_pure mk = StoredMarket.is_pure m.

Lemma liquidity_new_wf supply : @in_u u64 supply -> LiquidityWf (mkLiquiditySupply supply 0 0).
Proof. intros [Hl Hu]. split; simpl; lia. Qed.

(** A market that is opened with a discount of the order fees. *)
Lemma shown_market_ok discount supply m rm :
  StoredMarket.MarketWf m -> @in_u u64 supply -> revertible_market_new (StoredMarket.as_account m) = Ok rm ->
  let mk := mkSwapMarket (StoredMarket.meta m) (StoredMarket.is_pure m)
              (shown (mkLiquiditySupply supply 0 0) now (with_order_fee_discount_factor rm discount)) in
  SmWf mk /\ m_supply (sm_market mk) = mkLiquiditySupply supply 0 0
  /\ (forall tok, recorded mk tok = recorded (StoredMarket.as_swap m) tok)
  /\ (forall tok, pools_hold mk tok = pools_hold (StoredMarket.as_swap m) tok)
  /\ m_pools (sm_market mk) = m_pools (sm_market (StoredMarket.as_swap m)).
Proof.
  intros [Hwf Hbuf] Hu Hnew. pose proof Hnew as Hrm. unfold revertible_market_new in Hrm.
  apply rbind_ok in Hrm as (b & _ & [= Hrm]).
  apply (new_ok (mkLiquiditySupply supply 0 0) now (StoredMarket.as_account m) rm discount PricingSwap) in Hnew
    as (Hshown & _); [|done].
  assert (set_swap_pricing_kind (with_order_fee_discount_factor rm discount) PricingSwap
          = with_order_fee_discount_factor rm discount) as Hsame by (by rewrite <- Hrm).
  rewrite Hsame in Hshown. rewrite Hshown. destruct Hwf as [[Hp _] Hb Hpure Hi].
  split_and!; try done. split; [|done..]. split; [exact Hp|by apply liquidity_new_wf].
Qed.

Lemma open_market_ok supply m mk :
  StoredMarket.MarketWf m -> @in_u u64 supply -> open_market now supply m = Ok mk ->
  opened m mk /\ SmWf mk /\ m_supply (sm_market mk) = mkLiquiditySupply supply 0 0
  /\ (forall tok, recorded mk tok = recorded (StoredMarket.as_swap m) tok)
  /\ (forall tok, pools_hold mk tok = pools_hold (StoredMarket.as_swap m) tok)
  /\ m_pools (sm_market mk) = m_pools (sm_market (StoredMarket.as_swap m)).
Proof.
  intros Hwf Hu Hr. unfold open_market in Hr. apply rbind_ok in Hr as (rm & Hnew%model_result_ok & [= <-]).
  assert (with_order_fee_discount_factor rm 0 = rm) as Hrm.
  { unfold revertible_market_new in Hnew. by apply rbind_ok in Hnew as (b & _ & [= <-]). }
  pose proof (shown_market_ok 0 supply m rm Hwf Hu Hnew) as Hok. rewrite Hrm in Hok. done.
Qed.

Lemma pools_hold_eq mk mk' :
  sm_meta mk' = sm_meta mk -> (forall k, pool_of (sm_market mk') k = pool_of (sm_market mk) k) ->
  forall tok, pools_hold mk' tok = pools_hold mk tok.
Proof. intros Hm Hp tok. unfold pools_hold, held, amt. by rewrite Hm, !Hp. Qed.

(** What a committed market holds is what was shown. *)
Lemma commit_market_ok m mk :
  StoredMarket.MarketWf m -> opened m mk -> SmWf mk ->
  let m' := commit_market (sm_plain mk) m in
  StoredMarket.MarketWf m'
  /\ (forall tok, recorded (StoredMarket.as_swap m') tok = recorded mk tok)
  /\ (forall tok, pools_hold (StoredMarket.as_swap m') tok = pools_hold mk tok).
Proof.
  intros [_ Hbuf] [Hmeta Hpure] [[Hp _] Hb Hpu Hi] m'.
  assert (forall k, pool_of (sm_market (StoredMarket.as_swap m')) k =
    pool_of (sm_market mk) k) as Hpools.
  { intros k. unfold pool_of. simpl. by rewrite !pools_get_of. }
  split_and!.
  - split; [|exact Hbuf]. split.
    + split; [intros k; by rewrite Hpools|]. by apply liquidity_new_wf.
    + exact Hb.
    + transitivity (sm_is_pure mk); [by rewrite Hpure|by rewrite Hpu, Hmeta].
    + intros Hf. assert (sm_is_pure mk = false) as Himp by (rewrite Hpure; exact Hf).
      unfold tokens_impure in *. rewrite !Hpools. by apply Hi.
  - intros tok. unfold recorded. rewrite Hmeta, Hpure. done.
  - apply pools_hold_eq; [done|exact Hpools].
Qed.

Definition OpenedAt w k mk : Prop :=
  exists m, StoredMarket.world_markets w !! k = Some m /\ opened m mk /\ SmWf mk
    /\ (forall tok, recorded mk tok = recorded (StoredMarket.as_swap m) tok)
    /\ (forall tok, pools_hold mk tok = pools_hold (StoredMarket.as_swap m) tok)
    /\ m_pools (sm_market mk) = m_pools (sm_market (StoredMarket.as_swap m)).

Definition MarketsOk w : Prop := forall k m, StoredMarket.world_markets w !! k = Some m ->
  StoredMarket.MarketWf m /\ market_token_mint (StoredMarket.meta m) = k.

Lemma swap_markets_opened_ok w current keys : forall loaders map map',
  MarketsOk w -> loaders_of now w keys = Ok loaders ->
  (forall k mk, map !! k = Some mk -> OpenedAt w k mk /\ current <> Some k) ->
  swap_markets_new this current loaders map = Ok map' ->
  forall k mk, map' !! k = Some mk -> OpenedAt w k mk /\ current <> Some k.
Proof.
  induction keys as [|key keys IH]; intros loaders map map' Hw Hl Hmap Hr.
  - injection Hl as <-. by injection Hr as <-.
  - simpl in Hl. apply rbind_ok in Hl as (l & Hkey & Hl). apply rbind_ok in Hl as (ls & Hls & [= <-]).
    unfold loader_of in Hkey. destruct (StoredMarket.world_markets w !! key) as [m|] eqn:Hm; [|done].
    injection Hkey as <-. simpl in Hr. destruct (Hw _ _ Hm) as [Hwf Hmint]. rewrite Hmint in Hr.
    apply rbind_ok in Hr as ([] & Hcur%require_ok%negb_true_iff%bool_decide_eq_false & Hr).
    destruct (map !! key) eqn:Hnew; [done|]. apply rbind_ok in Hr as ([] & _ & Hr).
    apply rbind_ok in Hr as (mk & Hopen & Hr). apply open_market_ok in Hopen as (Ho & Hmk & _ & Hrec &
      Hheld);
      [|done|by vm_compute].
    eapply IH; [done|exact Hls| |exact Hr]. intros k mk' [[<- <-]|[_ ?]]%lookup_insert_Some;
      [|by apply Hmap].
    split; [|done]. by exists m.
Qed.

Lemma op_ok swap key remaining w s :
  MarketsOk w ->
  op this now swap key remaining w = Ok s ->
  current s = key /\ MarketsWf s /\ markets s !! key = None
  /\ (forall k mk, all_markets s !! k = Some mk -> OpenedAt w k mk)
  /\ supply_at s = mkLiquiditySupply (supply_of (StoredMarket.world_tokens w) key) 0 0.
Proof.
  intros Hw Hr. unfold op in Hr. apply rbind_ok in Hr as (loaders & Hl & Hr).
  destruct (StoredMarket.world_markets w !! key) as [m|] eqn:Hm; [|done].
  destruct (Hw _ _ Hm) as [Hwf Hmint].
  apply rbind_ok in Hr as (mk & Hopen & Hr). apply rbind_ok in Hr as (ms & Hms & [= <-]).
  apply open_market_ok in Hopen as (Ho & Hmk & Hsup & Hrec & Hheld); [|done|apply supply_u64].
  assert (forall k mk, ms !! k = Some mk -> OpenedAt w k mk /\ Some key <> Some k) as Hall.
  { destruct swap as [swap|].
    - unfold unpack_markets_for_swap in Hl. apply rbind_ok in Hl as (p1 & _ & Hl).
      apply rbind_ok in Hl as (p2 & _ & Hl). case_if_in Hl E; [done|].
      eapply swap_markets_opened_ok; [done|exact Hl| |exact Hms]. intros k mk' Hk. by rewrite
        lookup_empty in Hk.
    - injection Hl as <-. injection Hms as <-. intros k mk' Hk. by rewrite lookup_empty in Hk. }
  assert (current (mkSwapMarkets ms mk) = key) as Hcur.
  { unfold current. simpl. destruct Ho as [-> _]. done. }
  split_and!; [done| | | |exact Hsup].
  - split; [done|]. intros k mk' Hk. apply Hall in Hk as [(m' & _ & _ & ? & _) _]. done.
  - simpl. destruct (ms !! key) as [mk'|] eqn:E; [|done]. by apply Hall in E as [_ ?].
  - intros k mk'. unfold all_markets. rewrite Hcur. simpl. intros [[<- <-]|[_ Hk]]%lookup_insert_Some.
    + by exists m.
    + by apply Hall in Hk as [? _].
Qed.

(** The sum over the accounts after a commit. *)
Lemma commit_sum (f : StoredMarket.Market -> Z) (h : SwapMarket LiquiditySupply -> Z) ms :
  forall ms0 stored,
  (forall k, ms !! k = None <-> ms0 !! k = None) ->
  (forall k mk mk0, ms !! k = Some mk -> ms0 !! k = Some mk0 ->
     exists m, stored !! k = Some m /\ f m = h mk0 /\ f (commit_market (sm_plain mk) m) = h mk) ->
  map_sum f (commit_markets ms stored) = map_sum f stored + map_sum h ms - map_sum h ms0.
Proof.
  induction ms as [|k mk ms Hk IH] using map_ind; intros ms0 stored Hkeys Hf.
  - assert (ms0 = ∅) as -> by (apply map_empty; intros k; by apply Hkeys).
    assert (commit_markets ∅ stored = stored) as ->; [|lia]. apply map_eq. intros k.
    unfold commit_markets. rewrite map_lookup_imap, lookup_empty. by destruct (stored !! k).
  - destruct (ms0 !! k) as [mk0|] eqn:Hk0; [|apply Hkeys in Hk0; by rewrite lookup_insert_eq in Hk0].
    destruct (Hf k mk mk0) as (m & Hm & Hf0 & Hf1); [by rewrite lookup_insert_eq|done|].
    assert (commit_markets (<[k:=mk]> ms) stored
      = <[k := commit_market (sm_plain mk) m]> (commit_markets ms stored)) as ->.
    { apply map_eq. intros j. unfold commit_markets. rewrite map_lookup_imap.
      destruct (decide (j = k)) as [->|Hne].
      - by rewrite !lookup_insert_eq, Hm.
      - by rewrite !lookup_insert_ne, map_lookup_imap by done. }
    assert (commit_markets ms stored !! k = Some m) as Hmk.
    { unfold commit_markets. by rewrite map_lookup_imap, Hm, Hk. }
    rewrite map_sum_insert, Hmk. cbn [from_option]. rewrite (IH (delete k ms0)).
    + rewrite map_sum_insert_new by done. rewrite (map_sum_delete _ _ _ _ Hk0). lia.
    + intros j. destruct (decide (j = k)) as [->|Hne]; [by rewrite Hk, lookup_delete_eq|].
      rewrite lookup_delete_ne by done. rewrite <- Hkeys, lookup_insert_ne by done. done.
    + intros j mk' mk0' Hj [_ Hj0]%lookup_delete_Some. apply (Hf j); [|done].
      rewrite lookup_insert_ne by (intros <-; congruence). done.
Qed.

Definition account_change (account : option Pubkey) (x : Z) (k : Pubkey) : Z :=
  match account with Some a => at_key a x k | None => 0 end.

Lemma or_panic_ok msg (m : ST T StoreError unit) w w' u :
  or_panic msg m w = (w', Ok u) -> StoredMarket.on_tokens m w = (w', Ok u).
Proof. unfold or_panic. destruct (StoredMarket.on_tokens m w) as [w1 [[]| |]];
  [|done|done]. by intros [= <- <-]. Qed.

Lemma account_change_0 account k : account_change account 0 k = 0.
Proof. destruct account; [|done]. simpl. unfold at_key. by case_if E. Qed.

Lemma on_tokens_parts {A} (m : ST T StoreError A) w w' a :
  StoredMarket.on_tokens m w = (w', Ok a) ->
  m (StoredMarket.world_tokens w) = (StoredMarket.world_tokens w', Ok a)
  /\ StoredMarket.world_markets w' = StoredMarket.world_markets w
  /\ StoredMarket.world_store w' = StoredMarket.world_store w
  /\ StoredMarket.world_buffers w' = StoredMarket.world_buffers w.
Proof. intros Hr. apply szoom_ok in Hr as (t & Ht & ->). done. Qed.

(** [w'] is [w] with [x] more in the account, and [y] more of the mint. *)
Record TokensBy w (account : option Pubkey) (mint : Pubkey) (x y : Z) w' : Prop := {
  by_markets : StoredMarket.world_markets w' = StoredMarket.world_markets w;
  by_store : StoredMarket.world_store w' = StoredMarket.world_store w;
  by_buffers : StoredMarket.world_buffers w' = StoredMarket.world_buffers w;
  by_amount k : amount_of (StoredMarket.world_tokens w') k =
                amount_of (StoredMarket.world_tokens w) k + account_change account x k;
  by_supply k : supply_of (StoredMarket.world_tokens w') k =
                supply_of (StoredMarket.world_tokens w) k + at_key mint y k;
  by_account : x <> 0 -> is_Some account;
}.

Lemma commit_tokens_ok amount account mint sign not_enabled failed op_ w w' u :
  (forall a t t', op_ a t = (t', Ok tt) ->
     (forall k, amount_of t' k = amount_of t k + sign * at_key a amount k) /\
     (forall k, supply_of t' k = supply_of t k + sign * at_key mint amount k)) ->
  commit_tokens amount account not_enabled failed op_ w = (w', Ok u) ->
  TokensBy w account mint (sign * amount) (sign * amount) w'.
Proof.
  intros Hop Hr. assert (forall x a k, sign * at_key a x k = at_key a (sign * x) k) as Hsign
    by (intros; unfold at_key; case_if E; lia).
  unfold commit_tokens in Hr. destruct (Z.eqb_spec amount 0) as [->|Hne].
  - apply sret_ok in Hr as [-> _]. rewrite Z.mul_0_r. split; try done.
    + intros k. rewrite account_change_0. lia.
    + intros k. unfold at_key. case_if E; lia.
  - destruct account as [a|]; [|done]. apply or_panic_ok, on_tokens_parts in Hr as (Hr & M & S & Bf).
    destruct u. apply Hop in Hr as (A & P). split; try done.
    + intros k. rewrite A, Hsign. done.
    + intros k. by rewrite P, Hsign.
Qed.

(** What a commit does to the token accounts and to the supply, and that it writes the markets. *)
Lemma commit_world_ok receiver vault s w w' u :
  let l := supply_at s in
  0 <= to_mint l -> 0 <= to_burn l -> commit receiver vault s w = (w', Ok u) ->
  exists w1 w2,
    TokensBy w receiver (current s) (to_mint l) (to_mint l) w1 /\
    TokensBy w1 vault (current s) (- to_burn l) (- to_burn l) w2 /\
    w' = StoredMarket.put_markets (commit_markets (all_markets s) (StoredMarket.world_markets w)) w2.
Proof.
  intros l Hmint Hburn Hr. unfold commit in Hr. change (m_supply (sm_market (current_market s))) with
    l in Hr.
  apply sbind_ok in Hr as (w1 & [] & H1 & Hr). apply sbind_ok in Hr as (w2 & [] & H2 & Hr).
  apply smodify_ok in Hr as ->.
  apply (commit_tokens_ok _ _ (current s) 1) in H1.
  2:{ intros a t t' Ht. apply mint_law in Ht as (A & P); [|done]. split; intros k;
      rewrite ?A, ?P; lia. }
  apply (commit_tokens_ok _ _ (current s) (-1)) in H2.
  2:{ intros a t t' Ht. apply burn_law in Ht as (_ & A & P); [|done]. split; intros k;
      rewrite ?A, ?P; lia. }
  rewrite !Z.mul_1_l in H1. replace (-1 * to_burn l) with (- to_burn l) in H2 by lia.
  exists w1, w2. split_and!; [done|done|]. by rewrite (by_markets _ _ _ _ _ _ H2),
    (by_markets _ _ _ _ _ _ H1).
Qed.

Lemma executed_parts {A} swap key remaining receiver vault (m : EM A) w w' a :
  executed this now swap key remaining receiver vault m w = (w', Ok a) ->
  exists s s', op this now swap key remaining w = Ok s /\ m s = (s', Ok a)
    /\ commit receiver vault s' w = (w', Ok tt).
Proof.
  intros Hr. unfold executed in Hr. apply sbind_ok in Hr as (? & s & [-> Hs]%sread_ok & Hr).
  destruct (m s) as [s' [a'| |]] eqn:Hm; [|done|done].
  apply sbind_ok in Hr as (w1 & [] & Hc & [-> ->]%sret_ok). eauto.
Qed.

Definition all_held (ms : gmap Pubkey StoredMarket.Market) (tok : Pubkey) : Z :=
  map_sum (fun m => pools_hold (StoredMarket.as_swap m) tok) ms.

Lemma total_all f s : markets s !! current s = None -> total f s = map_sum f (all_markets s).
Proof. intros Hn. unfold total, all_markets. rewrite map_sum_insert_new by done. lia. Qed.

(** The markets of [s] were opened for the accounts of [w], and [s'] has the same ones. *)
Record Reopened w s s' : Prop := {
  ro_opened k mk : all_markets s !! k = Some mk -> OpenedAt w k mk;
  ro_metas k : sm_meta <$> all_markets s' !! k = sm_meta <$> all_markets s !! k;
  ro_wf k mk : all_markets s' !! k = Some mk -> SmWf mk;
  ro_current : markets s !! current s = None;
  ro_current' : markets s' !! current s' = None;
}.

Lemma opened_reopened w s s' dr dh :
  (forall k mk, all_markets s !! k = Some mk -> OpenedAt w k mk) -> markets s !! current s = None ->
  Executed s dr dh s' -> Reopened w s s'.
Proof.
  intros Hall Hno [Hmeta Hwf Hkeys _ _ _].
  assert (current s' = current s) as Hcur' by (unfold current; by rewrite Hmeta).
  split; [done| | |done|].
  - intros k. unfold all_markets. rewrite Hcur'. destruct (decide (k = current s)) as [->|Hne].
    + rewrite !lookup_insert_eq. simpl. by rewrite Hmeta.
    + by rewrite !lookup_insert_ne by done.
  - intros k mk. unfold all_markets. intros [[_ <-]|[_ Hin]]%lookup_insert_Some;
    [apply Hwf|by eapply Hwf].
  - rewrite Hcur'. apply (fmap_None sm_meta). rewrite Hkeys. by apply fmap_None.
Qed.

Lemma executed_reopened swap key remaining w s s' dr dh :
  MarketsOk w ->
  op this now swap key remaining w = Ok s -> Executed s dr dh s' -> Reopened w s s'.
Proof.
  intros Hok Hop. apply op_ok in Hop as (Hcur & _ & Hno & Hall & _); [|done].
  rewrite <- Hcur in Hno. by apply opened_reopened.
Qed.

(** A market of [s'] and the account it is committed to. *)
Lemma reopened_at w s s' k mk :
  Reopened w s s' -> all_markets s' !! k = Some mk ->
  SmWf mk /\ exists m mk0, all_markets s !! k = Some mk0 /\ StoredMarket.world_markets w !! k = Some m
    /\ opened m mk
    /\ (forall tok, recorded (StoredMarket.as_swap m) tok = recorded mk0 tok)
    /\ (forall tok, pools_hold (StoredMarket.as_swap m) tok = pools_hold mk0 tok)
    /\ m_pools (sm_market mk0) = m_pools (sm_market (StoredMarket.as_swap m)).
Proof.
  intros [Hall Hmetas Hwf _ _] Hmk. pose proof (Hwf _ _ Hmk) as Hwfmk. split; [done|].
  pose proof (Hmetas k) as E. rewrite Hmk in E.
  destruct (all_markets s !! k) as [mk0|] eqn:Hmk0; [|done]. injection E as E.
  destruct (Hall _ _ Hmk0) as (m & Hm' & [Ho1 Ho2] & Hwf0' & Hr0 & Hh0 & Hp0).
  exists m, mk0. split_and!; try done. split; [congruence|].
  by rewrite (sm_wf_pure _ Hwfmk), E, <- (sm_wf_pure _ Hwf0').
Qed.

Lemma reopened_sum w s s' (f : StoredMarket.Market -> Z) (h : SwapMarket LiquiditySupply -> Z) :
  MarketsOk w -> Reopened w s s' ->
  (forall m mk, StoredMarket.MarketWf m -> opened m mk -> SmWf mk ->
     f (commit_market (sm_plain mk) m) = h mk) ->
  (forall m mk, (forall tok, recorded (StoredMarket.as_swap m) tok = recorded mk tok) ->
     (forall tok, pools_hold (StoredMarket.as_swap m) tok = pools_hold mk tok) -> f m = h mk) ->
  map_sum f (commit_markets (all_markets s') (StoredMarket.world_markets w))
  = map_sum f (StoredMarket.world_markets w) + total h s' - total h s.
Proof.
  intros Hok Hro Hf Hf0. pose proof Hro as [_ Hmetas _ Hc Hc']. rewrite !total_all by done.
  apply commit_sum; [intros k; by rewrite <- !(fmap_None sm_meta), Hmetas|].
  intros k mk mk0 Hmk Hmk0. destruct (reopened_at _ _ _ _ _ Hro Hmk) as (Hwfmk & m & mk1 & Hmk1 & Hm &
    Ho & Hr & Hh & _).
  assert (mk1 = mk0) as -> by congruence. exists m. split_and!; [done|by apply Hf0|].
  apply Hf; [by apply Hok in Hm as []|done|done].
Qed.

(** The accounts after the markets are written back. *)
Lemma commit_markets_moved market_token_address w w2 s s' dr dh :
  StoredMarket.MarketsAt this market_token_address w -> Reopened w s s' -> Executed s dr dh s' ->
  let w' := StoredMarket.put_markets (commit_markets (all_markets s') (StoredMarket.world_markets w)) w2 in
  StoredMarket.WorldMoved this market_token_address w dr w'
  /\ (forall tok, all_held (StoredMarket.world_markets w') tok
                  = all_held (StoredMarket.world_markets w) tok + dh tok).
Proof.
  intros Hat Hro Hex w'. assert (MarketsOk w) as Hok by (intros k m Hk; apply Hat in Hk as []; done).
  split; [|].
  - split; simpl.
    + intros k m Hkm. unfold commit_markets in Hkm. rewrite map_lookup_imap in Hkm.
      destruct (StoredMarket.world_markets w !! k) as [m0|] eqn:Hm0;
        [|done]. simpl in Hkm. injection Hkm as <-.
      destruct (all_markets s' !! k) as [mk|] eqn:Hmk; [|by apply Hat].
      destruct (reopened_at _ _ _ _ _ Hro Hmk) as (Hwfmk & m1 & mk1 & _ & Hm1 & Ho & _).
      assert (m1 = m0) as -> by congruence. destruct (Hat _ _ Hm0) as [Hwfm Hstore Hmint' Haddr].
      by split; [apply commit_market_ok|..].
    + intros tok. unfold StoredMarket.all_recorded. rewrite (reopened_sum w s s' _ (fun mk => recorded
      mk tok)); try done.
      * rewrite (ex_recorded _ _ _ _ Hex). lia.
      * intros m mk H1' H2' H3'. by apply commit_market_ok.
    + intros k [m0 Hm0]. unfold commit_markets. rewrite map_lookup_imap, Hm0. simpl. eauto.
  - intros tok. unfold all_held. simpl. rewrite (reopened_sum w s s' _ (fun mk => pools_hold mk tok));
    try done.
    + rewrite (ex_held _ _ _ _ Hex). lia.
    + intros m mk H1' H2' H3'. by apply commit_market_ok.
Qed.

(** The accounts after an action: what the markets together record and hold has changed as it did
    in the action. *)
Lemma commit_moved market_token_address swap key remaining receiver vault s s' w w' dr dh :
  StoredMarket.MarketsAt this market_token_address w ->
  op this now swap key remaining w = Ok s -> Executed s dr dh s' ->
  0 <= to_mint (supply_at s') -> 0 <= to_burn (supply_at s') ->
  commit receiver vault s' w = (w', Ok tt) ->
  StoredMarket.WorldMoved this market_token_address w dr w'
  /\ (forall tok, all_held (StoredMarket.world_markets w') tok
                  = all_held (StoredMarket.world_markets w) tok + dh tok)
  /\ exists w1 w2,
    TokensBy w receiver key (to_mint (supply_at s')) (to_mint (supply_at s')) w1 /\
    TokensBy w1 vault key (- to_burn (supply_at s')) (- to_burn (supply_at s')) w2 /\
    w' = StoredMarket.put_markets (commit_markets (all_markets s') (StoredMarket.world_markets w)) w2.
Proof.
  intros Hat Hop Hex Hm Hb Hc.
  assert (MarketsOk w) as Hok by (intros k m Hk; apply Hat in Hk as []; done).
  pose proof (executed_reopened _ _ _ _ _ _ _ _ Hok Hop Hex) as Hro.
  apply op_ok in Hop as (Hcur & _); [|done].
  assert (current s' = key) as Hcur' by (unfold current in *; by rewrite (ex_meta _ _ _ _ Hex)).
  apply commit_world_ok in Hc as (w1 & w2 & H1 & H2 & ->); [|done|done]. rewrite Hcur' in H1, H2.
  destruct (commit_markets_moved _ _ w2 _ _ _ _ Hat Hro Hex) as [Hmv Hh].
  split; [done|]. split; [done|]. by exists w1, w2.
Qed.
End Accounting.

End MarketOps.
