(* ===== verification/Actions.v ===== *)
(** * Actions ([states/common/action.rs], [states/common/token.rs], [ops/execution_fee.rs],
    [utils/token.rs])

    Deposits, withdrawals, shifts and orders are accounts that a user creates, a keeper executes and
    somebody closes. This file has what they share: the header with the state of the action, the
    execution fee in lamports, the token accounts of an action ([escrow]s), and how an escrow is
    emptied into the account of its owner when the action is closed.

    The lamports of accounts are a finite map. Whether an associated token account exists and who
    owns it ([TokenAccountState]) is read of the outside. *)
From stdpp Require Import gmap.
From S2P Require Import Prelude.
From S2P Require Import Num.
From S2P Require Import CoreErrors.
From S2P Require Import Flags.
From S2P Require Import Roles.
From S2P Require Import TokenConfig.
From S2P Require Import Oracle.
From S2P Require Import Users.
From S2P Require Import Tokens.
#[local] Open Scope Z_scope.

Module Actions.

Definition optional_address (pubkey : Pubkey) : option Pubkey :=
  if pubkey =? DEFAULT_PUBKEY then None else Some pubkey.

(** ** The header *)

Inductive ActionState : Type := Pending | Completed | Cancelled.

#[export] Instance ActionState_eq_dec : EqDecision ActionState.
Proof. solve_decision. Defined.

Definition action_state_u8 (self : ActionState) : Z :=
  match self with Pending => 0 | Completed => 1 | Cancelled => 2 end.

Definition action_state_try_from (n : Z) : store_result ActionState :=
  if n =? 0 then Ok Pending else if n =? 1 then Ok Completed else if n =? 2 then Ok Cancelled
  else Err (Core CoreError.UnknownActionState).

Definition state_completed (self : ActionState) : store_result ActionState :=
  match self with Pending => Ok Completed | _ => Err (Core CoreError.PreconditionsAreNotMet) end.
Definition state_cancelled (self : ActionState) : store_result ActionState :=
  match self with Pending => Ok Cancelled | _ => Err (Core CoreError.PreconditionsAreNotMet) end.

Definition is_completed_or_cancelled (self : ActionState) : bool :=
  match self with Completed | Cancelled => true | Pending => false end.
Definition is_pending (self : ActionState) : bool :=
  match self with Pending => true | _ => false end.
Definition is_cancelled (self : ActionState) : bool :=
  match self with Cancelled => true | _ => false end.
Definition is_completed (self : ActionState) : bool :=
  match self with Completed => true | _ => false end.

Definition MAX_FLAGS : nat := 8.
Inductive ActionFlag : Type := ShouldUnwrapNativeToken.
Definition action_flag_u8 (self : ActionFlag) : nat := match self with ShouldUnwrapNativeToken => 0 end.

Record ActionHeader : Type := mkHeader {
  header_version : Z;
  header_action_state : Z;
  header_bump : Z;
  header_flags : FlagContainer;
  header_id : Z;
  header_store : Pubkey;
  header_market : Pubkey;
  header_owner : Pubkey;
  header_nonce : Z;
  max_execution_lamports : Z;
  updated_at : Z;
  updated_at_slot : Z;
  header_creator : Pubkey;
  header_rent_receiver : Pubkey;
  header_receiver : Pubkey;
}.

Definition action_state (self : ActionHeader) : store_result ActionState :=
  action_state_try_from (header_action_state self).

Definition set_action_state (new_state : ActionState) (self : ActionHeader) : ActionHeader :=
  mkHeader (header_version self) (action_state_u8 new_state) (header_bump self) (header_flags self)
    (header_id self) (header_store self) (header_market self) (header_owner self) (header_nonce self)
    (max_execution_lamports self) (updated_at self) (updated_at_slot self) (header_creator self)
    (header_rent_receiver self) (header_receiver self).

Definition completed (self : ActionHeader) : store_result ActionHeader :=
  let! s := action_state self in let! s := state_completed s in Ok (set_action_state s self).
Definition cancelled (self : ActionHeader) : store_result ActionHeader :=
  let! s := action_state self in let! s := state_cancelled s in Ok (set_action_state s self).

(** [ActionHeader::receiver]: the owner unless another one is named. *)
Definition receiver (self : ActionHeader) : Pubkey :=
  default (header_owner self) (optional_address (header_receiver self)).

Definition unchecked_set_creator (creator : Pubkey) (self : ActionHeader) : ActionHeader :=
  mkHeader (header_version self) (header_action_state self) (header_bump self) (header_flags self)
    (header_id self) (header_store self) (header_market self) (header_owner self) (header_nonce self)
    (max_execution_lamports self) (updated_at self) (updated_at_slot self) creator
    (header_rent_receiver self) (header_receiver self).

Definition set_rent_receiver (rent_receiver : Pubkey) (self : ActionHeader) : ActionHeader :=
  mkHeader (header_version self) (header_action_state self) (header_bump self) (header_flags self)
    (header_id self) (header_store self) (header_market self) (header_owner self) (header_nonce self)
    (max_execution_lamports self) (updated_at self) (updated_at_slot self) (header_creator self)
    rent_receiver (header_receiver self).

(** [now] and [slot] are those of the clock. *)
Definition header_updated (now slot : Z) (self : ActionHeader) : ActionHeader :=
  mkHeader (header_version self) (header_action_state self) (header_bump self) (header_flags self)
    (header_id self) (header_store self) (header_market self) (header_owner self) (header_nonce self)
    (max_execution_lamports self) now slot (header_creator self) (header_rent_receiver self)
    (header_receiver self).

Definition execution_lamports (self : ActionHeader) (execution_lamports : Z) : Z :=
  Z.min execution_lamports (max_execution_lamports self).

Section Header.
Context {B : Type} {BO : BitmapOps MAX_FLAGS B}.

Definition zeroed_header : ActionHeader :=
  mkHeader 0 0 0 (default_flags (H := BO)) 0 0 0 0 0 0 0 0 0 0 0.

Definition should_unwrap_native_token (self : ActionHeader) : bool :=
  get_flag (H := BO) action_flag_u8 (header_flags self) ShouldUnwrapNativeToken.

(** [ActionHeader::init]; the creator and the receiver of the rent default to the owner. *)
Definition header_init (now slot id : Z) (store market owner receiver_ : Pubkey) (nonce bump
    execution_lamports : Z) (should_unwrap_native_token : bool) (self : ActionHeader)
    : store_result ActionHeader :=
  let! _ := require (bool_decide (is_Some (optional_address receiver_))) CoreError.InvalidArgument in
  Ok (mkHeader (header_version self) (header_action_state self) bump
        (fst (set_flag (H := BO) action_flag_u8 (header_flags self) ShouldUnwrapNativeToken
                should_unwrap_native_token))
        id store market owner nonce execution_lamports now slot owner owner receiver_).
End Header.

(** ** Token accounts of an action *)

Record TokenAndAccount : Type := mkTokenAndAccount { ta_token : Pubkey; ta_account : Pubkey }.

Definition no_token : TokenAndAccount := mkTokenAndAccount DEFAULT_PUBKEY DEFAULT_PUBKEY.
Definition token (self : TokenAndAccount) : option Pubkey := optional_address (ta_token self).
Definition account (self : TokenAndAccount) : option Pubkey := optional_address (ta_account self).
Definition token_and_account (self : TokenAndAccount) : option (Pubkey * Pubkey) :=
  match token self, account self with Some t, Some a => Some (t, a) | _, _ => None end.

(** ** Lamports *)

Definition Lamports : Type := gmap Pubkey Z.
Definition lamports_at (m : Lamports) (k : Pubkey) : Z := default 0 (m !! k).
Definition put_lamports (k : Pubkey) (x : Z) (m : Lamports) : Lamports := <[k := x]> m.

(** A transfer of the system program. *)
Definition system_transfer (from to : Pubkey) (x : Z) : ST Lamports StoreError unit := supdate (fun m =>
  if lamports_at m from <? x then Err (Anchor "insufficient lamports")
  else
    let m := put_lamports from (lamports_at m from - x) m in
    Ok (put_lamports to (lamports_at m to + x) m)).

Definition transfer_execution_fee (payment payer : Pubkey) (execution_lamports : Z)
    : ST Lamports StoreError unit :=
  if execution_lamports =? 0 then sret tt else system_transfer payer payment execution_lamports.

(** [minimum_balance] is the rent of the paying account. *)
Definition pay_execution_fee (minimum_balance : Z) (payer receiver_ : Pubkey) (execution_lamports : Z)
    : ST Lamports StoreError unit :=
  do! _ := sread (fun m => require_gte (Z.max 0 (lamports_at m payer - execution_lamports)) minimum_balance
                             CoreError.NotEnoughExecutionFee) in
  if execution_lamports =? 0 then sret tt else system_transfer payer receiver_ execution_lamports.

(** [ActionExt::validate_balance]. *)
Definition validate_balance (min_execution_lamports minimum_balance : Z) (action : Pubkey)
    (execution_lamports : Z) (m : Lamports) : store_result unit :=
  let! _ := require_gte execution_lamports min_execution_lamports CoreError.NotEnoughExecutionFee in
  require (minimum_balance <=? Z.max 0 (lamports_at m action - execution_lamports))
    CoreError.NotEnoughExecutionFee.

(** Closing an account gives its lamports away. *)
Definition close_lamports (account_ rent_receiver : Pubkey) : ST Lamports StoreError unit :=
  do! x := sread (fun m => Ok (lamports_at m account_)) in
  system_transfer account_ rent_receiver x.

(** ** Emptying an escrow *)

Inductive TokenAccountState : Type := Uninitialized | NotATokenAccount | OwnedBy (authority : Pubkey).

(** The tokens and the lamports. *)
Record Funds (T : Type) : Type := mkFunds { funds_tokens : T; funds_lamports : Lamports }.
Arguments mkFunds {T}.
Arguments funds_tokens {T}.
Arguments funds_lamports {T}.

(** The arguments of [TransferAllFromEscrowToATA] that differ between its uses. *)
Record EscrowTransfer : Type := mkEscrowTransfer {
  payer : Pubkey;
  et_owner : Pubkey;
  et_mint : Pubkey;
  ata : Pubkey;
  escrow : Pubkey;
  init_if_needed : bool;
  skip_owner_check : bool;
  keep_escrow : bool;
  rent_receiver : Pubkey;
  should_unwrap_native : bool;
}.

Section Escrow.
Context {T : Type} {TP : TokenProgram T}.
(** The mint of native tokens, the mint of a token account, the rent of a token account, the wallet of
    the store, and the state of a token account. *)
Context (native_mint : Pubkey) (account_mint : Pubkey -> Pubkey) (token_rent : Z) (store_wallet : Pubkey).
Context (account_state : Pubkey -> TokenAccountState).

Definition FM (A : Type) : Type := ST (Funds T) StoreError A.
Definition on_funds {A} (m : ST T StoreError A) : FM A :=
  szoom funds_tokens (fun t f => mkFunds t (funds_lamports f)) m.
Definition on_lamports {A} (m : ST Lamports StoreError A) : FM A :=
  szoom funds_lamports (fun l f => mkFunds (funds_tokens f) l) m.

Definition escrow_amount (self : EscrowTransfer) : FM Z :=
  sread (fun f => Ok (amount_of (funds_tokens f) (escrow self))).

(** A closed token account gives its lamports away. *)
Definition close_token_account (account_ destination : Pubkey) : FM unit :=
  do! _ := on_funds (close_account account_) in on_lamports (close_lamports account_ destination).

(** Native tokens are paid as lamports, by way of the wallet of the store. *)
Definition unwrap_native_if_needed (self : EscrowTransfer) : FM bool :=
  do! amount := escrow_amount self in
  if (et_mint self =? native_mint) && should_unwrap_native self && negb (amount =? 0) then
    do! _ := slift (require (negb (keep_escrow self)) CoreError.InvalidArgument) in
    do! _ := slift (require (ata self =? et_owner self) CoreError.InvalidArgument) in
    do! _ := slift (if account_mint (escrow self) =? native_mint then Ok tt
                    else Err (Anchor "RequireKeysEqViolated")) in
    do! balance := sread (fun f => Ok (lamports_at (funds_lamports f) (escrow self))) in
    do! rent := slift (ok_or (@usub u64 balance amount) (Core CoreError.Internal)) in
    do! _ := close_token_account (escrow self) store_wallet in
    do! _ :=
      (if rent_receiver self =? et_owner self then
         on_lamports (system_transfer store_wallet (et_owner self) balance)
       else
         do! _ := on_lamports (system_transfer store_wallet (rent_receiver self) rent) in
         on_lamports (system_transfer store_wallet (et_owner self) amount)) in
    sret true
  else sret false.

(** The state of the ATA after it was created if it has to be; [None] if it is missing. *)
Definition prepare_ata (self : EscrowTransfer) : FM (option TokenAccountState) :=
  match account_state (ata self) with
  | Uninitialized =>
      if init_if_needed self then
        do! _ := on_lamports (system_transfer (payer self) (ata self) token_rent) in
        sret (Some (OwnedBy (et_owner self)))
      else sret None
  | s => sret (Some s)
  end.

Definition close_escrow (self : EscrowTransfer) : FM bool :=
  if keep_escrow self then sret true
  else do! _ := close_token_account (escrow self) (rent_receiver self) in sret true.

(** [unchecked_execute]: false when the transfer is skipped. *)
Definition transfer_all_from_escrow_to_ata (self : EscrowTransfer) : FM bool :=
  do! unwrapped := unwrap_native_if_needed self in
  if (unwrapped : bool) then sret true
  else
    do! amount := escrow_amount self in
    if amount =? 0 then close_escrow self
    else
      do! st := prepare_ata self in
      match st with
      | Some (OwnedBy ata_owner) =>
          if negb (ata_owner =? et_owner self) && negb (skip_owner_check self) then sret false
          else
            do! _ := on_funds (transfer (escrow self) (ata self) amount) in
            close_escrow self
      | _ => sret false
      end.
End Escrow.

(** ** The state of an action *)

(** The state of an action changes once, from pending. *)
Lemma completed_ok h h' :
  completed h = Ok h' <-> action_state h = Ok Pending /\ h' = set_action_state Completed h.
Proof.
  unfold completed, rbind. destruct (action_state h) as [[]| |]; simpl; split; try (by intros [? _] || done).
  - by intros [= <-].
  - by intros [_ ->].
Qed.

Lemma cancelled_ok h h' :
  cancelled h = Ok h' <-> action_state h = Ok Pending /\ h' = set_action_state Cancelled h.
Proof.
  unfold cancelled, rbind. destruct (action_state h) as [[]| |]; simpl; split; try (by intros [? _] || done).
  - by intros [= <-].
  - by intros [_ ->].
Qed.

Lemma action_state_set st h : action_state (set_action_state st h) = Ok st.
Proof. by destruct st. Qed.

Lemma action_state_inj st st' : action_state_u8 st = action_state_u8 st' -> st = st'.
Proof. by destruct st, st'. Qed.

(** ** What emptying an escrow does *)
Section EscrowFacts.
Context {T : Type} {TP : TokenProgram T} {TL : TokenProgramLaws T}.
Context (native_mint : Pubkey) (account_mint : Pubkey -> Pubkey) (token_rent : Z) (store_wallet : Pubkey).
Context (account_state : Pubkey -> TokenAccountState).
Implicit Types (f : Funds T) (e : EscrowTransfer) (t : T).

(** [t'] is [t] with the escrow emptied: its tokens are in the ATA, or were paid as lamports. *)
Record Emptied e (unwrapped : bool) t t' : Prop := {
  emptied_others k : k <> escrow e ->
    amount_of t' k = amount_of t k + if unwrapped then 0 else at_key (ata e) (amount_of t (escrow e)) k;
  emptied_escrow : escrow e <> ata e -> amount_of t' (escrow e) = 0;
  emptied_supply m : supply_of t' m = supply_of t m;
}.

Lemma on_lamports_tokens {A} (m : ST Lamports StoreError A) f f' r :
  on_lamports m f = (f', r) -> funds_tokens f' = funds_tokens f.
Proof. unfold on_lamports, szoom. destruct (m (funds_lamports f)). by intros [= <- _]. Qed.

Lemma close_token_account_ok k d f f' u :
  close_token_account k d f = (f', Ok u) ->
  (forall k', amount_of (funds_tokens f') k' = if k' =? k then 0 else amount_of (funds_tokens f) k')
  /\ (forall m, supply_of (funds_tokens f') m = supply_of (funds_tokens f) m).
Proof.
  intros Hr. apply sbind_ok in Hr as (f1 & [] & (t & Ht & ->)%szoom_ok & Hr).
  apply on_lamports_tokens in Hr as ->. by apply close_law in Ht.
Qed.

Lemma close_escrow_ok e f f' b :
  close_escrow e f = (f', Ok b) -> b = true /\ (keep_escrow e = true -> f' = f)
  /\ (keep_escrow e = false -> forall k, amount_of (funds_tokens f') k =
        if k =? escrow e then 0 else amount_of (funds_tokens f) k)
  /\ (forall m, supply_of (funds_tokens f') m = supply_of (funds_tokens f) m).
Proof.
  unfold close_escrow. destruct (keep_escrow e).
  - by intros [-> ->]%sret_ok.
  - intros Hr. apply sbind_ok in Hr as (f1 & [] & [Ha Hs]%close_token_account_ok & [-> ->]%sret_ok). done.
Qed.

(** A token account that is closed is emptied, whatever becomes of its tokens. *)
Lemma closed_emptied e t t' :
  (forall k, amount_of t' k = if k =? escrow e then 0 else amount_of t k) ->
  (forall m, supply_of t' m = supply_of t m) -> Emptied e true t t'.
Proof.
  intros Ha Hs. split; [intros k Hk|intros _|done].
  - rewrite Ha. apply Z.eqb_neq in Hk as ->. lia.
  - by rewrite Ha, Z.eqb_refl.
Qed.

Lemma unwrap_ok e f f' b :
  unwrap_native_if_needed native_mint account_mint store_wallet e f = (f', Ok b) ->
  if b then Emptied e true (funds_tokens f) (funds_tokens f')
            /\ et_mint e = native_mint /\ should_unwrap_native e = true
  else f' = f.
Proof.
  intros Hu. apply sbind_ok in Hu as (? & amount & [-> [= <-]]%sread_ok & Hu).
  destruct ((et_mint e =? native_mint) && _ && _) eqn:Hn; [|by apply sret_ok in Hu as [-> ->]].
  do 4 (apply sbind_ok in Hu as (? & ? & [-> _]%slift_ok & Hu) ||
        apply sbind_ok in Hu as (? & ? & [-> _]%sread_ok & Hu)).
  apply sbind_ok in Hu as (? & rent & [-> _]%slift_ok & Hu).
  apply sbind_ok in Hu as (f2 & [] & [Ha Hs]%close_token_account_ok & Hu).
  apply sbind_ok in Hu as (f3 & [] & Hl & [-> ->]%sret_ok).
  assert (funds_tokens f3 = funds_tokens f2) as ->.
  { case_if_in Hl E; [by apply on_lamports_tokens in Hl|].
    apply sbind_ok in Hl as (f4 & [] & H1%on_lamports_tokens & H2%on_lamports_tokens). congruence. }
  bool_to_prop. by split; [apply closed_emptied|].
Qed.

(** The end of a transfer: the tokens may have been moved, and the escrow may be closed. *)
Lemma close_escrow_emptied e t f f' b :
  (forall k, k <> escrow e -> amount_of (funds_tokens f) k = amount_of t k + at_key (ata e) (amount_of t (escrow e)) k) ->
  (escrow e <> ata e -> amount_of (funds_tokens f) (escrow e) = 0) ->
  (forall m, supply_of (funds_tokens f) m = supply_of t m) ->
  close_escrow e f = (f', Ok b) -> b = true /\ Emptied e false t (funds_tokens f').
Proof.
  intros Ho He Hsup Hr. apply close_escrow_ok in Hr as (-> & Hk & Hc & Hs). split; [done|].
  destruct (keep_escrow e) eqn:E; [rewrite Hk by done; by split|]. split.
  - intros k Hne. rewrite Hc, Ho by done. apply Z.eqb_neq in Hne as ->. done.
  - intros _. by rewrite Hc, Z.eqb_refl.
  - intros m. by rewrite Hs.
Qed.

(** An escrow is emptied completely, or nothing happens to the tokens. *)
Lemma transfer_all_ok e f f' b :
  transfer_all_from_escrow_to_ata native_mint account_mint token_rent store_wallet account_state e f
    = (f', Ok b) ->
  if b then exists unwrapped, Emptied e unwrapped (funds_tokens f) (funds_tokens f')
            /\ (unwrapped = true -> et_mint e = native_mint /\ should_unwrap_native e = true)
  else funds_tokens f' = funds_tokens f.
Proof.
  intros Hr. apply sbind_ok in Hr as (f1 & [] & Hu%unwrap_ok & Hr).
  { apply sret_ok in Hr as [-> ->]. destruct Hu. by exists true. }
  subst f1. apply sbind_ok in Hr as (? & x & [-> [= <-]]%sread_ok & Hr).
  destruct (Z.eqb_spec (amount_of (funds_tokens f) (escrow e)) 0) as [E0|E0].
  - apply (close_escrow_emptied e (funds_tokens f)) in Hr as [-> Hr]; [by exists false| |done|done].
    intros k _. rewrite E0. unfold at_key. case_if E; lia.
  - apply sbind_ok in Hr as (f2 & st & Hp & Hr).
    assert (funds_tokens f2 = funds_tokens f) as Ht.
    { unfold prepare_ata in Hp. destruct (account_state (ata e)); [|by apply sret_ok in Hp as [-> _]..].
      case_if_in Hp E; [|by apply sret_ok in Hp as [-> _]].
      by apply sbind_ok in Hp as (f3 & [] & Hl%on_lamports_tokens & [-> _]%sret_ok). }
    destruct st as [[| |o]|]; try (by apply sret_ok in Hr as [-> ->]).
    case_if_in Hr E; [by apply sret_ok in Hr as [-> ->]|].
    apply sbind_ok in Hr as (f3 & [] & (t & Htr & ->)%szoom_ok & Hr). rewrite Ht in Htr.
    apply transfer_law in Htr as (_ & Ha & Hs); [|by apply amount_nonneg].
    apply (close_escrow_emptied e (funds_tokens f)) in Hr as [-> Hr]; [by exists false|..|done]; simpl.
    + intros k Hne. rewrite Ha. unfold at_key at 1. apply Z.eqb_neq in Hne as ->. lia.
    + intros Hne. rewrite Ha. unfold at_key. apply Z.eqb_neq in Hne as ->. rewrite Z.eqb_refl. lia.
Qed.
End EscrowFacts.

End Actions.
