(* ===== verification/Exchange.v ===== *)
(** * Deposits, withdrawals and shifts ([instructions/exchange], [ops/deposit.rs],
    [ops/withdrawal.rs], [ops/shift.rs], [utils/internal/action.rs])

    A user creates a deposit, a withdrawal or a shift: its account is made, the tokens move into
    an escrow of the action, and the execution fee is paid in. A keeper executes it once: the
    tokens move into the vaults, the action runs on the markets ([MarketOps]), and it is completed,
    or cancelled when it failed, and then the tokens move back. In the end somebody closes it, which
    empties the escrows into the accounts of the owner and the receiver.

    [Exchange] is the state of all this: the world of the markets ([StoredMarket.World]), the
    lamports, and the accounts of the actions by address. An instruction is a function that takes the
    accounts it is given and checks their constraints first, as Anchor does; when it fails, nothing
    has happened ([exchange_step]).

    A market account is named by its market token, and a vault by its mint, of which their addresses
    are derived. The oracle of an execution is the one that [Oracle.with_prices] hands to its
    body, with the prices of the tokens of the action set. *)
From stdpp Require Import gmap sets.
From S2P Require Import Prelude.
From S2P Require Import Kinds.
From S2P Require Import Num.
From S2P Require Import Fixed.
From S2P Require Import Price.
From S2P Require Import Params.
From S2P Require Import Pool.
From S2P Require Import Market.
From S2P Require Import Revertible.
From S2P Require Import CoreErrors.
From S2P Require Import MapSum.
From S2P Require Import Flags.
From S2P Require Import Roles.
From S2P Require Import TokenConfig.
From S2P Require Import Oracle.
From S2P Require Import Users.
From S2P Require Import StoreState.
From S2P Require Import SwapPath.
From S2P Require Import Config.
From S2P Require Import Tokens.
From S2P Require Import MarketAccount.
From S2P Require Import MarketOps.
From S2P Require Import Actions.
Import OnChain.
#[local] Open Scope Z_scope.

Module Exchange.
Import MarketOps Actions.

(** ** The accounts of the actions *)

Record DepositTokenAccounts : Type := mkDepositTokenAccounts {
  initial_long_token : TokenAndAccount;
  initial_short_token : TokenAndAccount;
  deposit_market_token : TokenAndAccount;
}.

Record Deposit : Type := mkDeposit {
  deposit_header : ActionHeader;
  deposit_tokens : DepositTokenAccounts;
  deposit_params : DepositActionParams;
  deposit_swap : SwapActionParams;
}.

Record WithdrawalTokenAccounts : Type := mkWithdrawalTokenAccounts {
  final_long_token : TokenAndAccount;
  final_short_token : TokenAndAccount;
  withdrawal_market_token : TokenAndAccount;
}.

Record Withdrawal : Type := mkWithdrawal {
  withdrawal_header : ActionHeader;
  withdrawal_tokens : WithdrawalTokenAccounts;
  withdrawal_params : WithdrawalActionParams;
  withdrawal_swap : SwapActionParams;
}.

Record ShiftTokenAccounts : Type := mkShiftTokenAccounts {
  from_market_token : TokenAndAccount;
  to_market_token : TokenAndAccount;
  shift_long_token : Pubkey;
  shift_short_token : Pubkey;
}.

Record Shift : Type := mkShift {
  shift_header : ActionHeader;
  shift_tokens : ShiftTokenAccounts;
  shift_params : ShiftActionParams;
}.

(** [MIN_EXECUTION_LAMPORTS] of the three kinds. *)
Definition MIN_EXECUTION_LAMPORTS : Z := 200000.

(** [token().expect(..)] and [account().expect(..)]. *)
Definition token_exists (self : TokenAndAccount) : store_result Pubkey :=
    expect (token self) "must exist".
Definition account_exists (self : TokenAndAccount) : store_result Pubkey :=
    expect (account self) "must exist".

(** *** The parameters of the creations *)

Record CreateDepositParams : Type := mkCreateDepositParams {
  cd_execution_lamports : Z;
  cd_long_token_swap_length : Z;
  cd_short_token_swap_length : Z;
  cd_initial_long_token_amount : Z;
  cd_initial_short_token_amount : Z;
  cd_min_market_token_amount : Z;
  cd_should_unwrap_native_token : bool;
}.

Record CreateWithdrawalParams : Type := mkCreateWithdrawalParams {
  cw_execution_lamports : Z;
  cw_long_token_swap_path_length : Z;
  cw_short_token_swap_path_length : Z;
  cw_market_token_amount : Z;
  cw_min_long_token_amount : Z;
  cw_min_short_token_amount : Z;
  cw_should_unwrap_native_token : bool;
}.

Record CreateShiftParams : Type := mkCreateShiftParams {
  cs_execution_lamports : Z;
  cs_from_market_token_amount : Z;
  cs_min_to_market_token_amount : Z;
}.

(** *** The accounts that the instructions are given *)

(** One of the initial tokens of a deposit. *)
Record SourceAccounts : Type := mkSourceAccounts {
  source_mint : option Pubkey;
  source_escrow : option Pubkey;
  source_account : option Pubkey;
}.

Record CreateDepositAccounts : Type := mkCreateDepositAccounts {
  cd_owner : Pubkey;
  cd_receiver : Pubkey;
  cd_market : Pubkey;
  cd_market_token : Pubkey;
  cd_long : SourceAccounts;
  cd_short : SourceAccounts;
  cd_market_token_escrow : Pubkey;
  cd_market_token_ata : Pubkey;
}.

(** One of the initial tokens in an execution; the vault is named by its mint. *)
Record VaultAccounts : Type := mkVaultAccounts {
  vault_token : option Pubkey;
  vault_escrow : option Pubkey;
  vault_mint : option Pubkey;
}.

Record ExecuteDepositAccounts : Type := mkExecuteDepositAccounts {
  xd_authority : Pubkey;
  xd_market : Pubkey;
  xd_deposit : Pubkey;
  xd_market_token : Pubkey;
  xd_long : VaultAccounts;
  xd_short : VaultAccounts;
  xd_market_token_escrow : Pubkey;
}.

(** One of the initial tokens when a deposit is closed. *)
Record AtaAccounts : Type := mkAtaAccounts {
  ata_token : option Pubkey;
  ata_escrow : option Pubkey;
  ata_account : option Pubkey;
}.

Record CloseDepositAccounts : Type := mkCloseDepositAccounts {
  kd_executor : Pubkey;
  kd_owner : Pubkey;
  kd_receiver : Pubkey;
  kd_deposit : Pubkey;
  kd_market_token : Pubkey;
  kd_long : AtaAccounts;
  kd_short : AtaAccounts;
  kd_market_token_escrow : Pubkey;
  kd_market_token_ata : Pubkey;
}.

Record CreateWithdrawalAccounts : Type := mkCreateWithdrawalAccounts {
  cw_owner : Pubkey;
  cw_receiver : Pubkey;
  cw_market : Pubkey;
  cw_market_token : Pubkey;
  cw_final_long_token : Pubkey;
  cw_final_short_token : Pubkey;
  cw_market_token_escrow : Pubkey;
  cw_final_long_token_escrow : Pubkey;
  cw_final_short_token_escrow : Pubkey;
  cw_market_token_source : Pubkey;
}.

Record ExecuteWithdrawalAccounts : Type := mkExecuteWithdrawalAccounts {
  xw_authority : Pubkey;
  xw_market : Pubkey;
  xw_withdrawal : Pubkey;
  xw_market_token : Pubkey;
  xw_final_long_token : Pubkey;
  xw_final_short_token : Pubkey;
  xw_market_token_escrow : Pubkey;
  xw_final_long_token_escrow : Pubkey;
  xw_final_short_token_escrow : Pubkey;
}.

Record CloseWithdrawalAccounts : Type := mkCloseWithdrawalAccounts {
  kw_executor : Pubkey;
  kw_owner : Pubkey;
  kw_receiver : Pubkey;
  kw_withdrawal : Pubkey;
  kw_market_token : Pubkey;
  kw_final_long_token : Pubkey;
  kw_final_short_token : Pubkey;
  kw_market_token_escrow : Pubkey;
  kw_final_long_token_escrow : Pubkey;
  kw_final_short_token_escrow : Pubkey;
  kw_market_token_ata : Pubkey;
  kw_final_long_token_ata : Pubkey;
  kw_final_short_token_ata : Pubkey;
}.

Record CreateShiftAccounts : Type := mkCreateShiftAccounts {
  cs_owner : Pubkey;
  cs_receiver : Pubkey;
  cs_from_market : Pubkey;
  cs_to_market : Pubkey;
  cs_from_market_token : Pubkey;
  cs_to_market_token : Pubkey;
  cs_from_market_token_escrow : Pubkey;
  cs_to_market_token_escrow : Pubkey;
  cs_from_market_token_source : Pubkey;
  cs_to_market_token_ata : Pubkey;
}.

Record ExecuteShiftAccounts : Type := mkExecuteShiftAccounts {
  xs_authority : Pubkey;
  xs_from_market : Pubkey;
  xs_to_market : Pubkey;
  xs_shift : Pubkey;
  xs_from_market_token : Pubkey;
  xs_to_market_token : Pubkey;
  xs_from_market_token_escrow : Pubkey;
  xs_to_market_token_escrow : Pubkey;
}.

Record CloseShiftAccounts : Type := mkCloseShiftAccounts {
  ks_executor : Pubkey;
  ks_owner : Pubkey;
  ks_receiver : Pubkey;
  ks_shift : Pubkey;
  ks_from_market_token : Pubkey;
  ks_to_market_token : Pubkey;
  ks_from_market_token_escrow : Pubkey;
  ks_to_market_token_escrow : Pubkey;
  ks_from_market_token_ata : Pubkey;
  ks_to_market_token_ata : Pubkey;
}.

(** ** The state *)

Record Exchange (T : Type) : Type := mkExchange {
  ex_world : StoredMarket.World T;
  ex_lamports : Lamports;
  ex_deposits : gmap Pubkey Deposit;
  ex_withdrawals : gmap Pubkey Withdrawal;
  ex_shifts : gmap Pubkey Shift;
}.
Arguments mkExchange {T}.
Arguments ex_world {T}.
Arguments ex_lamports {T}.
Arguments ex_deposits {T}.
Arguments ex_withdrawals {T}.
Arguments ex_shifts {T}.

Definition put_world {T} (w : StoredMarket.World T) (x : Exchange T) : Exchange T :=
  mkExchange w (ex_lamports x) (ex_deposits x) (ex_withdrawals x) (ex_shifts x).
Definition put_ex_lamports {T} (l : Lamports) (x : Exchange T) : Exchange T :=
  mkExchange (ex_world x) l (ex_deposits x) (ex_withdrawals x) (ex_shifts x).
Definition put_deposits {T} (m : gmap Pubkey Deposit) (x : Exchange T) : Exchange T :=
  mkExchange (ex_world x) (ex_lamports x) m (ex_withdrawals x) (ex_shifts x).
Definition put_withdrawals {T} (m : gmap Pubkey Withdrawal) (x : Exchange T) : Exchange T :=
  mkExchange (ex_world x) (ex_lamports x) (ex_deposits x) m (ex_shifts x).
Definition put_shifts {T} (m : gmap Pubkey Shift) (x : Exchange T) : Exchange T :=
  mkExchange (ex_world x) (ex_lamports x) (ex_deposits x) (ex_withdrawals x) m.

(** A kind of actions: where their accounts are, and their headers ([Action]). *)
Record Kind (T A : Type) : Type := mkKind {
  kind_domain : DomainDisabledFlag;
  kind_get : Exchange T -> gmap Pubkey A;
  kind_put : gmap Pubkey A -> Exchange T -> Exchange T;
  header : A -> ActionHeader;
  with_header : ActionHeader -> A -> A;
}.
Arguments mkKind {T A}.
Arguments kind_domain {T A}.
Arguments kind_get {T A}.
Arguments kind_put {T A}.
Arguments header {T A}.
Arguments with_header {T A}.

Definition deposits {T} : Kind T Deposit :=
  mkKind DomDeposit ex_deposits put_deposits deposit_header
    (fun h d => mkDeposit h (deposit_tokens d) (deposit_params d) (deposit_swap d)).
Definition withdrawals {T} : Kind T Withdrawal :=
  mkKind DomWithdrawal ex_withdrawals put_withdrawals withdrawal_header
    (fun h d => mkWithdrawal h (withdrawal_tokens d) (withdrawal_params d) (withdrawal_swap d)).
Definition shifts {T} : Kind T Shift :=
  mkKind DomShift ex_shifts put_shifts shift_header
    (fun h d => mkShift h (shift_tokens d) (shift_params d)).

(** The seeds of an action, from which its address is derived. *)
Inductive ActionSeed : Type := SeedDeposit | SeedWithdrawal | SeedShift.

(** What an instruction reads of the cluster: the slot of its last restart, its time and its slot;
    and of the token accounts: their state, and whether the signer of a transaction may move their
    tokens, as the owner or a delegate. *)
Record Env : Type := mkEnv {
  last_restart_slot : Z;
  now_ : Z;
  clock_slot : Z;
  account_state : Pubkey -> TokenAccountState;
  may_spend : Pubkey -> Pubkey -> bool;
}.

Definition zeroed_swap : SwapActionParams :=
  mkSwapActionParams 0 0 0 0 (replicate MAX_STEPS 0) (replicate MAX_TOKENS 0).

(** A constraint of Anchor's own. *)
Definition anchor (b : bool) (name : string) : store_result unit :=
  if b then Ok tt else Err (Anchor name).

Section Instructions.
#[local] Existing Instance u128.
Context {F : FixedPointOps u128}.
Context {B : Type} {BO : BitmapOps StoredMarket.MAX_FLAGS B}.
Context {C : Type} {CO : BitmapOps StoreConfig.MAX_CONFIG_FLAGS C}.
Context {R : Type} {RO : BitmapOps MAX_ROLES R}.
Context {T : Type} {TP : TokenProgram T}.
(** The hash of a role and the address of the store; the vault of a mint, the mint of a token account
    and the associated token account of an owner and a mint. *)
Context (to_key : bytes -> Z) (this : Pubkey).
Context (vault_address : Pubkey -> Pubkey) (account_mint : Pubkey -> Pubkey)
  (ata_address : Pubkey -> Pubkey -> Pubkey).
(** The address and the bump of an action, of its owner and a nonce, and the rent of its account. *)
Context (action_address action_bump : ActionSeed -> Pubkey -> Z ->
  Pubkey) (action_rent : ActionSeed -> Z).
(** The receiver of first deposits, the mint of native tokens, the rent of a token account, and the
    wallet of the store. *)
Context (first_deposit_receiver native_mint : Pubkey) (token_rent : Z) (store_wallet : Pubkey).
Context (env : Env).

Definition XM (A : Type) : Type := ST (Exchange T) StoreError A.

Definition on_world {A} (m : StoredMarket.WS (T := T) A) : XM A := szoom ex_world put_world m.
Definition on_store {A} (m : SS A) : XM A := on_world (StoredMarket.on_store m).
Definition on_tokens {A} (m : ST T StoreError A) : XM A := on_world (StoredMarket.on_tokens m).
Definition on_ex_lamports {A} (m : ST Lamports StoreError A) : XM A :=
    szoom ex_lamports put_ex_lamports m.
Definition on_ex_funds {A} (m : FM (T := T) A) : XM A :=
  szoom (fun x => mkFunds (StoredMarket.world_tokens (ex_world x)) (ex_lamports x))
    (fun f x => put_ex_lamports (funds_lamports f)
                  (put_world (StoredMarket.put_tokens (funds_tokens f) (ex_world x)) x)) m.

Definition read_market {A} (key : Pubkey) (f : StoredMarket.Market -> store_result A) : XM A :=
  on_world (StoredMarket.with_market this key (sread f)).
Definition market_meta (key : Pubkey) : XM MarketMeta :=
    read_market key (fun m => Ok (StoredMarket.meta m)).

(** ** The accounts of the actions *)

Definition load {A} (k : Kind T A) (addr : Pubkey) : XM A :=
  sread (fun x => ok_or (kind_get k x !! addr) (Anchor "AccountNotInitialized")).

Definition save {A} (k : Kind T A) (addr : Pubkey) (a : A) : XM unit :=
  smodify (fun x => kind_put k (<[addr := a]> (kind_get k x)) x).

Definition update_header {A} (k : Kind T A) (addr : Pubkey)
    (f : ActionHeader -> store_result ActionHeader) : XM unit :=
  do! a := load k addr in
  do! h := slift (f (header k a)) in
  save k addr (with_header k h a).

(** The constraint [init]: a new account with its rent paid by [payer]. *)
Definition init_account {A} (k : Kind T A) (addr payer : Pubkey) (rent : Z) : XM unit :=
  do! _ := sread (fun x => match kind_get k x !! addr with
                           | Some _ => Err (Anchor "account already in use")
                           | None => Ok tt
                           end) in
  do! balance := sread (fun x => Ok (lamports_at (ex_lamports x) addr)) in
  on_ex_lamports (system_transfer payer addr (Z.max 0 (rent - balance))).

(** *** Constraints *)

(** [token::mint]. *)
Definition token_mint (account_ mint : Pubkey) : store_result unit :=
  anchor (account_mint account_ =? mint) "ConstraintTokenMint".

(** [associated_token::mint] and [associated_token::authority]. *)
Definition associated_token (account_ owner mint : Pubkey) : store_result unit :=
  match account_state env account_ with
  | OwnedBy authority =>
      let! _ := anchor (authority =? owner) "ConstraintTokenOwner" in
      anchor (account_ =? ata_address owner mint) "ConstraintAssociated"
  | _ => Err (Anchor "AccountNotInitialized")
  end.

(** An optional account with a constraint that needs the optional mint. *)
Definition with_mint (account_ mint : option Pubkey) (f : Pubkey -> Pubkey -> store_result unit)
    : store_result unit :=
  match account_ with
  | None => Ok tt
  | Some account_ => let! mint := ok_or mint (Anchor "ConstraintAccountIsNone") in f account_ mint
  end.

(** [token().map(|token| mint.key() == token).unwrap_or(true)]. *)
Definition token_matches (self : TokenAndAccount) (mint : option Pubkey) : store_result unit :=
  match mint, token self with
  | Some mint, Some t => require (mint =? t) CoreError.TokenMintMismatched
  | _, _ => Ok tt
  end.

(** [account() == escrow.as_ref().map(|a| a.key())]. *)
Definition escrow_matches (self : TokenAndAccount) (escrow_ : option Pubkey) : store_result unit :=
  require (bool_decide (account self = escrow_)) CoreError.TokenAccountMismatched.

(** The account of a token that must exist. *)
Definition account_is (self : TokenAndAccount) (key : Pubkey) : store_result unit :=
  let! a := account_exists self in require (a =? key) CoreError.MarketTokenAccountMismatched.
Definition token_is (self : TokenAndAccount) (key : Pubkey) (e : CoreError.CoreError) :
    store_result unit :=
  let! t := token_exists self in require (t =? key) e.

(** The constraint [init_if_needed] of an ATA. *)
Definition init_ata_if_needed (payer_ ata_ owner mint : Pubkey) : XM unit :=
  match account_state env ata_ with
  | Uninitialized =>
      do! _ := slift (anchor (ata_ =? ata_address owner mint) "ConstraintAssociated") in
      on_ex_lamports (system_transfer payer_ ata_ token_rent)
  | _ => slift (associated_token ata_ owner mint)
  end.

(** A transfer that the user signs. *)
Definition user_transfer (signer from to : Pubkey) (amount : Z) : XM unit :=
  do! _ := slift (anchor (may_spend env from signer) "owner does not match") in
  on_tokens (transfer from to amount).

(** *** What the instructions share *)

(** [Create::create] up to [create_impl]. *)
Definition start_create (domain : DomainDisabledFlag) (payment payer_ : Pubkey) (execution_lamports_ : Z)
    : XM unit :=
  do! _ := on_store (sread (validate_not_restarted (last_restart_slot env))) in
  do! _ := on_store (validate_feature_enabled domain ActCreate) in
  on_ex_lamports (transfer_execution_fee payment payer_ execution_lamports_).

Definition escrow_amount_of (account_ : Pubkey) : XM Z :=
  sread (fun x => Ok (amount_of (StoredMarket.world_tokens (ex_world x)) account_)).

(** The header of a new action of a market, with the next id of its kind. *)
Definition new_header (next : ST StoredMarket.Indexer StoreError Z) (seed : ActionSeed) (market owner
    receiver_ : Pubkey) (nonce execution_lamports_ : Z) (should_unwrap : bool) : XM ActionHeader :=
  do! id := on_world (StoredMarket.with_market this market (StoredMarket.on_indexer next)) in
  slift (header_init (BO := BO) (now_ env) (clock_slot env) id this market owner receiver_ nonce
           (action_bump seed owner nonce) execution_lamports_ should_unwrap (zeroed_header (BO := BO))).

(** [validate_and_init] of the swap, of the markets that the remaining accounts name. *)
Definition init_swap (meta : MarketMeta) (primary_length secondary_length : Z) (swap_paths : list Pubkey)
    (token_ins token_outs : Pubkey * Pubkey) : XM SwapActionParams :=
  let end_ := (Z.to_nat primary_length + Z.to_nat secondary_length)%nat in
  do! _ := slift (require (end_ <=? MAX_STEPS)%nat CoreError.InvalidSwapPathLength) in
  do! _ := slift (require (end_ <=? length swap_paths)%nat CoreError.NotEnoughSwapMarkets) in
  on_world (sread (fun w =>
    let! loaders := loaders_of (now_ env) w (take end_ swap_paths) in
    validate_and_init meta primary_length secondary_length loaders this token_ins token_outs
      zeroed_swap)).

(** The market that a swap path starts or ends with, among the remaining accounts; otherwise it is the
    current one. *)
Definition find_market (end_of_path : list Pubkey -> option Pubkey) (path : store_result (list Pubkey))
    (swap : SwapActionParams) (remaining : list Pubkey) : store_result (option Pubkey) :=
  let! path := path in
  match end_of_path path with
  | None => Ok None
  | Some key =>
      if existsb (Z.eqb key) remaining then Ok (Some key)
      else if key =? SwapPath.current_market_token swap then Ok None
      else Err (Core CoreError.NotFound)
  end.

Definition swap_path (is_primary : bool) (swap : SwapActionParams) : store_result (list Pubkey) :=
  if is_primary then primary_swap_path swap else secondary_swap_path swap.

Definition find_first_market (is_primary : bool) (swap : SwapActionParams) : list Pubkey ->
    store_result (option Pubkey) := find_market head (swap_path is_primary swap) swap.
Definition find_last_market (is_primary : bool) (swap : SwapActionParams) : list Pubkey ->
    store_result (option Pubkey) := find_market last (swap_path is_primary swap) swap.

(** [find_and_unpack_..(..)?.unwrap_or(market)]. *)
Definition unpack_or (found : store_result (option Pubkey)) (market : Pubkey)
    : StoredMarket.WS (T := T) Pubkey :=
  do! key := slift found in
  match key with
  | None => sret market
  | Some key =>
      do! _ := sread (fun w =>
        let! m := ok_or (StoredMarket.world_markets w !! key) (Anchor "AccountNotInitialized") in
        require (StoredMarket.store m =? this) CoreError.StoreMismatched) in
      sret key
  end.

(** The time check of the execution of an action ([ValidateOracleTime]). *)
Definition oracle_time (h : ActionHeader) (s : Store) : ValidateOracleTime :=
  mkValidateOracleTime (Ok (Some (updated_at h)))
    (let! ts := request_expiration_at s (updated_at h) in Ok (Some ts))
    (Ok (Some (updated_at_slot h))).

(** [Execute..Operation::execute]: [None] when the action has expired or failed, and errors are
    not to be thrown. *)
Definition execute_operation {A} (throw_on_execution_error : bool) (oracle : Oracle.Oracle)
    (h : ActionHeader) (perform : StoredMarket.WS (T := T) A) : StoredMarket.WS (T := T) (option A) :=
      fun w =>
  match validate_time (oracle_time h (StoredMarket.world_store w)) oracle with
  | Ok _ =>
      match perform w with
      | (w', Ok a) => (w', Ok (Some a))
      | (w', Err e) => if throw_on_execution_error then (w', Err e) else (w', Ok None)
      | (w', Panic msg) => (w', Panic msg)
      end
  | Err e =>
      match e with
      | Core CoreError.OracleTimestampsAreLargerThanRequired =>
          if throw_on_execution_error then (w, Err e) else (w, Ok None)
      | _ => (w, Err e)
      end
  | Panic msg => (w, Panic msg)
  end.

Definition pay_fee {A} (k : Kind T A) (seed : ActionSeed) (addr authority : Pubkey) (execution_fee : Z)
    : XM unit :=
  do! a := load k addr in
  on_ex_lamports (pay_execution_fee (action_rent seed) addr authority
                    (execution_lamports (header k a) execution_fee)).

(** ** Deposits *)

(** The constraints on one of the initial tokens, in a creation. *)
Definition check_source (addr : Pubkey) (a : SourceAccounts) : store_result unit :=
  let! _ := with_mint (source_escrow a) (source_mint a) (fun e m => associated_token e addr m) in
  with_mint (source_account a) (source_mint a) token_mint.

(** [CreateDeposit::transfer_tokens], for one token. *)
Definition transfer_from_source (owner : Pubkey) (a : SourceAccounts) (amount : Z) : XM unit :=
  if amount =? 0 then sret tt
  else
    do! source := slift (ok_or (source_account a) (Core CoreError.TokenAccountNotProvided)) in
    do! target := slift (ok_or (source_escrow a) (Core CoreError.TokenAccountNotProvided)) in
    do! _ := slift (ok_or (source_mint a) (Core CoreError.MintAccountNotProvided)) in
    user_transfer owner source target amount.

(** The escrow of an amount that is not zero must hold it. *)
Definition validate_escrow (a : SourceAccounts) (amount : Z) : XM unit :=
  if amount =? 0 then sret tt
  else
    do! e := slift (ok_or (source_escrow a) (Core CoreError.TokenAccountNotProvided)) in
    do! held := escrow_amount_of e in
    slift (require_gte held amount CoreError.NotEnoughTokenAmount).

Definition validate_deposit_params (addr : Pubkey) (long short : SourceAccounts)
    (params : CreateDepositParams) : XM unit :=
  let long_amount := cd_initial_long_token_amount params in
  let short_amount := cd_initial_short_token_amount params in
  do! _ := slift (require (negb (long_amount =? 0) || negb (short_amount =? 0))
    CoreError.EmptyDeposit) in
  do! _ := validate_escrow long long_amount in
  do! _ := validate_escrow short short_amount in
  do! _ :=
    match source_escrow long, source_escrow short with
    | Some l, Some s =>
        if l =? s then
          do! held := escrow_amount_of l in
          do! total_amount := slift (ok_or (@uadd u64 long_amount short_amount)
                                       (Core CoreError.TokenAmountExceedsLimit)) in
          slift (require_gte held total_amount CoreError.NotEnoughTokenAmount)
        else sret tt
    | _, _ => sret tt
    end in
  on_ex_lamports (sread (validate_balance MIN_EXECUTION_LAMPORTS (action_rent SeedDeposit) addr
                           (cd_execution_lamports params))).

(** [TokenAndAccount::init]. *)
Definition init_token (account_ : Pubkey) : TokenAndAccount :=
  mkTokenAndAccount (account_mint account_) account_.
Definition init_token_opt (account_ : option Pubkey) : TokenAndAccount :=
  from_option init_token no_token account_.

Definition create_deposit_operation (addr nonce : Pubkey) (accts : CreateDepositAccounts)
    (swap_paths : list Pubkey) (params : CreateDepositParams) : XM unit :=
  let long := source_escrow (cd_long accts) in
  let short := source_escrow (cd_short accts) in
  do! _ := read_market (cd_market accts) (fun m => StoredMarket.validate m this) in
  do! _ := validate_deposit_params addr (cd_long accts) (cd_short accts) params in
  do! h := new_header StoredMarket.next_deposit_id SeedDeposit (cd_market accts) (cd_owner accts)
             (cd_receiver accts) nonce (cd_execution_lamports params)
             (cd_should_unwrap_native_token params) in
  do! meta := market_meta (cd_market accts) in
  let primary_token_in := default (long_token_mint meta) (account_mint <$> long) in
  let secondary_token_in := default (short_token_mint meta) (account_mint <$> short) in
  do! swap := init_swap meta (cd_long_token_swap_length params) (cd_short_token_swap_length params)
                swap_paths (primary_token_in, secondary_token_in)
                (long_token_mint meta, short_token_mint meta) in
  save deposits addr
    (mkDeposit h
       (mkDepositTokenAccounts (init_token_opt long) (init_token_opt short)
          (init_token (cd_market_token_escrow accts)))
       (mkDepositActionParams (cd_initial_long_token_amount params)
          (cd_initial_short_token_amount params) (cd_min_market_token_amount params))
       swap).

Definition create_deposit (accts : CreateDepositAccounts) (swap_paths : list Pubkey) (nonce : Z)
    (params : CreateDepositParams) : XM unit :=
  let owner := cd_owner accts in
  let addr := action_address SeedDeposit owner nonce in
  do! meta := market_meta (cd_market accts) in
  do! _ := init_account deposits addr owner (action_rent SeedDeposit) in
  do! _ := slift (require (market_token_mint meta =? cd_market_token accts)
                    CoreError.MarketTokenMintMismatched) in
  do! _ := slift (associated_token (cd_market_token_escrow accts) addr (cd_market_token accts)) in
  do! _ := slift (check_source addr (cd_long accts)) in
  do! _ := slift (check_source addr (cd_short accts)) in
  do! _ := init_ata_if_needed owner (cd_market_token_ata accts) (cd_receiver accts) (cd_market_token
    accts) in
  do! _ := start_create DomDeposit addr owner (cd_execution_lamports params) in
  do! _ := transfer_from_source owner (cd_long accts) (cd_initial_long_token_amount params) in
  do! _ := transfer_from_source owner (cd_short accts) (cd_initial_short_token_amount params) in
  create_deposit_operation addr nonce accts swap_paths params.

(** *** The execution of a deposit *)

(** The constraints on one of the initial tokens, in an execution. *)
Definition check_vault (addr : Pubkey) (self : TokenAndAccount) (a : VaultAccounts) :
    store_result unit :=
  let! _ := escrow_matches self (vault_escrow a) in
  let! _ := token_matches self (vault_token a) in
  let! _ := with_mint (vault_escrow a) (vault_token a) (fun e m => associated_token e addr m) in
  with_mint (vault_mint a) (vault_token a) (fun v m => anchor (v =? m) "ConstraintTokenMint").

(** [transfer_tokens_in] and [transfer_tokens_out], for one token. *)
Definition deposit_transfer_in (is_primary : bool) (d : Deposit) (market : Pubkey) (remaining :
    list Pubkey)
    (a : VaultAccounts) (amount : Z) : StoredMarket.WS (T := T) unit :=
  match vault_escrow a with
  | None => sret tt
  | Some escrow_ =>
      do! key := unpack_or (find_first_market is_primary (deposit_swap d) remaining) market in
      do! mint := slift (ok_or (vault_mint a) (Core CoreError.TokenAccountNotProvided)) in
      StoredMarket.transfer_in_operation this vault_address key escrow_ mint amount
  end.

Definition deposit_transfer_out (is_primary : bool) (d : Deposit) (market : Pubkey) (remaining :
    list Pubkey)
    (a : VaultAccounts) (amount : Z) : StoredMarket.WS (T := T) unit :=
  match vault_escrow a with
  | None => sret tt
  | Some escrow_ =>
      do! key := unpack_or (find_first_market is_primary (deposit_swap d) remaining) market in
      do! _ := slift (ok_or (vault_mint a) (Core CoreError.TokenAccountNotProvided)) in
      do! mint := slift (ok_or (vault_token a) (Core CoreError.TokenMintNotProvided)) in
      StoredMarket.transfer_out_operation this vault_address key escrow_ mint amount
  end.

Definition transfer_tokens (both : bool -> VaultAccounts -> Z -> StoredMarket.WS (T := T) unit)
    (accts : ExecuteDepositAccounts) (params : DepositActionParams) : StoredMarket.WS (T := T) unit :=
  do! _ := both true (xd_long accts) (initial_long_token_amount params) in
  both false (xd_short accts) (initial_short_token_amount params).

(** The address of a deposit is derived of its owner and nonce. *)
Definition check_seeds (addr : Pubkey) (h : ActionHeader) : store_result unit :=
  anchor (addr =? action_address SeedDeposit (header_owner h) (header_nonce h)) "ConstraintSeeds".

(** [perfrom_deposit]. *)
Definition perform_deposit_action (d : Deposit) (market market_token_receiver : Pubkey)
    (remaining : list Pubkey) (oracle : Oracle.Oracle) : StoredMarket.WS (T := T) Z :=
  do! min_tokens := StoredMarket.with_market this market (sread (fun m =>
    let! _ := StoredMarket.validate m this in Ok (min_tokens_for_first_deposit m))) in
  executed this (now_ env) (Some (deposit_swap d)) market remaining (Some market_token_receiver) None
    (unchecked_deposit first_deposit_receiver oracle (Some (deposit_swap d)) min_tokens
       (Actions.receiver (deposit_header d)) (deposit_params d)
       (token (initial_long_token (deposit_tokens d)), token (initial_short_token (deposit_tokens d)))
         None).

Definition execute_deposit (accts : ExecuteDepositAccounts) (remaining : list Pubkey)
    (oracle : Oracle.Oracle) (execution_fee : Z) (throw_on_execution_error : bool) : XM unit :=
  let addr := xd_deposit accts in
  let market := xd_market accts in
  do! meta := market_meta market in
  do! d := load deposits addr in
  let tokens := deposit_tokens d in
  do! _ := slift (
    let! _ := require (header_market (deposit_header d) =? market) CoreError.MarketMismatched in
    let! _ := require (header_store (deposit_header d) =? this) CoreError.StoreMismatched in
    let! _ := account_is (deposit_market_token tokens) (xd_market_token_escrow accts) in
    let! _ := require (market_token_mint meta =? xd_market_token accts)
      CoreError.MarketTokenMintMismatched in
    let! _ := associated_token (xd_market_token_escrow accts) addr (xd_market_token accts) in
    let! _ := check_vault addr (initial_long_token tokens) (xd_long accts) in
    let! _ := check_vault addr (initial_short_token tokens) (xd_short accts) in
    check_seeds addr (deposit_header d)) in
  do! _ := on_store (only_role to_key (last_restart_slot env) (xd_authority accts)
    RoleKey.ORDER_KEEPER) in
  do! _ := on_store (validate_feature_enabled DomDeposit ActExecute) in
  do! _ := on_world (transfer_tokens (fun p => deposit_transfer_in p d market remaining) accts
                       (deposit_params d)) in
  do! executed := on_world (execute_operation throw_on_execution_error oracle (deposit_header d)
                    (perform_deposit_action d market (xd_market_token_escrow accts) remaining oracle)) in
  do! _ :=
    match executed with
    | Some _ => update_header deposits addr completed
    | None =>
        do! _ := update_header deposits addr cancelled in
        on_world (transfer_tokens (fun p => deposit_transfer_out p d market remaining) accts
                    (deposit_params d))
    end in
  pay_fee deposits SeedDeposit addr (xd_authority accts) execution_fee.

(** ** Closing an action *)

(** [Close::validate]. *)
Definition validate_close {A} (k : Kind T A) (a : A) : XM unit :=
  do! st := slift (action_state (header k a)) in
  if is_pending st then
    do! _ := on_store (sread (validate_not_restarted (last_restart_slot env))) in
    on_store (validate_feature_enabled (kind_domain k) ActCancel)
  else sret tt.

(** [Close::preprocess]: whether missing ATAs are to be created. *)
Definition preprocess {A} (k : Kind T A) (a : A) (executor : Pubkey) : XM bool :=
  if executor =? header_owner (header k a) then sret true
  else
    do! _ := on_store (only_role to_key (last_restart_slot env) executor RoleKey.ORDER_KEEPER) in
    do! st := slift (action_state (header k a)) in
    if is_completed_or_cancelled st then sret false else slift (Err (Core CoreError.PermissionDenied)).

(** [Close::process]: the transfers in their order, until one is skipped. *)
Fixpoint process (transfers : list (store_result EscrowTransfer)) : XM bool :=
  match transfers with
  | [] => sret true
  | e :: transfers =>
      do! e := slift e in
      do! done := on_ex_funds (transfer_all_from_escrow_to_ata native_mint account_mint token_rent
                                 store_wallet (account_state env) e) in
      if (done : bool) then process transfers else sret false
  end.

Definition close_action_account {A} (k : Kind T A) (addr rent_receiver_ : Pubkey) : XM unit :=
  do! _ := on_ex_lamports (close_lamports addr rent_receiver_) in
  smodify (fun x => kind_put k (delete addr (kind_get k x)) x).

(** [Close::close]; the event needs the state of the action. *)
Definition close {A} (k : Kind T A) (addr executor owner : Pubkey) (check : A -> store_result unit)
    (transfers : A -> bool -> list (store_result EscrowTransfer)) : XM unit :=
  do! a := load k addr in
  do! _ := slift (check a) in
  do! _ := validate_close k a in
  do! init_if_needed_ := preprocess k a executor in
  do! done := process (transfers a init_if_needed_) in
  if (done : bool) then
    do! _ := slift (action_state (header k a)) in
    close_action_account k addr owner
  else sret tt.

(** The constraints on the header. *)
Definition check_close (h : ActionHeader) (owner receiver_ : Pubkey) : store_result unit :=
  let! _ := require (header_owner h =? owner) CoreError.OwnerMismatched in
  let! _ := require (Actions.receiver h =? receiver_) CoreError.ReceiverMismatched in
  let! _ := require (header_rent_receiver h =? owner) CoreError.RentReceiverMismatched in
  require (header_store h =? this) CoreError.StoreMismatched.

Definition is_associated_token_account (pubkey owner mint : Pubkey) : bool :=
    ata_address owner mint =? pubkey.
Definition is_associated_token_account_or_owner (pubkey owner mint : Pubkey) : bool :=
  is_associated_token_account pubkey owner mint || (pubkey =? owner).

(** The transfer of one escrow. *)
Definition escrow_transfer (h : ActionHeader) (executor to rent_receiver_ mint ata_ escrow_ : Pubkey)
    (init_if_needed_ : bool) : EscrowTransfer :=
  mkEscrowTransfer executor to mint ata_ escrow_ init_if_needed_ false false rent_receiver_
    (should_unwrap_native_token (BO := BO) h).

(** The constraints on one of the initial tokens, when a deposit is closed. *)
Definition check_ata (addr owner : Pubkey) (self : TokenAndAccount) (a : AtaAccounts) :
    store_result unit :=
  let! _ := token_matches self (ata_token a) in
  let! _ := escrow_matches self (ata_escrow a) in
  let! _ := with_mint (ata_escrow a) (ata_token a) (fun e m => associated_token e addr m) in
  match ata_account a with
  | None => Ok tt
  | Some x =>
      let! mint := expect (ata_token a) "must provided" in
      require (is_associated_token_account_or_owner x owner mint) CoreError.NotAnATA
  end.

Definition deposit_refund (h : ActionHeader) (executor owner : Pubkey) (a : AtaAccounts)
    (init_if_needed_ : bool) : list (store_result EscrowTransfer) :=
  match ata_escrow a with
  | None => []
  | Some e =>
      [let! x := ok_or (ata_account a) (Core CoreError.TokenAccountNotProvided) in
       let! mint := ok_or (ata_token a) (Core CoreError.MintAccountNotProvided) in
       Ok (escrow_transfer h executor owner owner mint x e init_if_needed_)]
  end.

Definition close_deposit (accts : CloseDepositAccounts) : XM unit :=
  let addr := kd_deposit accts in
  let owner := kd_owner accts in
  close deposits addr (kd_executor accts) owner
    (fun d =>
       let tokens := deposit_tokens d in
       let! _ := token_is (deposit_market_token tokens) (kd_market_token accts)
                   CoreError.MarketTokenMintMismatched in
       let! _ := check_close (deposit_header d) owner (kd_receiver accts) in
       let! _ := check_seeds addr (deposit_header d) in
       let! _ := account_is (deposit_market_token tokens) (kd_market_token_escrow accts) in
       let! _ := associated_token (kd_market_token_escrow accts) addr (kd_market_token accts) in
       let! _ := check_ata addr owner (initial_long_token tokens) (kd_long accts) in
       let! _ := check_ata addr owner (initial_short_token tokens) (kd_short accts) in
       require (is_associated_token_account (kd_market_token_ata accts) (kd_receiver accts)
                  (kd_market_token accts)) CoreError.NotAnATA)
    (fun d init_if_needed_ =>
       let h := deposit_header d in
       Ok (escrow_transfer h (kd_executor accts) (kd_receiver accts) owner (kd_market_token accts)
             (kd_market_token_ata accts) (kd_market_token_escrow accts) init_if_needed_)
       :: deposit_refund h (kd_executor accts) owner (kd_long accts) init_if_needed_
       ++ (if bool_decide (ata_escrow (kd_long accts) = ata_escrow (kd_short accts)) then []
           else deposit_refund h (kd_executor accts) owner (kd_short accts) init_if_needed_)).

(** ** Withdrawals *)

Definition create_withdrawal_operation (addr nonce : Pubkey) (accts : CreateWithdrawalAccounts)
    (swap_paths : list Pubkey) (params : CreateWithdrawalParams) : XM unit :=
  let market := cw_market accts in
  let escrow_ := cw_market_token_escrow accts in
  let amount := cw_market_token_amount params in
  do! _ := read_market market (fun m => StoredMarket.validate m this) in
  do! _ := slift (require (negb (amount =? 0)) CoreError.EmptyWithdrawal) in
  do! held := escrow_amount_of escrow_ in
  do! _ := slift (require_gte held amount CoreError.NotEnoughTokenAmount) in
  do! h := new_header StoredMarket.next_withdrawal_id SeedWithdrawal market (cw_owner accts)
             (cw_receiver accts) nonce (cw_execution_lamports params)
             (cw_should_unwrap_native_token params) in
  do! meta := market_meta market in
  do! swap := init_swap meta (cw_long_token_swap_path_length params)
                (cw_short_token_swap_path_length params) swap_paths
                (long_token_mint meta, short_token_mint meta)
                (account_mint (cw_final_long_token_escrow accts),
                 account_mint (cw_final_short_token_escrow accts)) in
  save withdrawals addr
    (mkWithdrawal h
       (mkWithdrawalTokenAccounts (init_token (cw_final_long_token_escrow accts))
          (init_token (cw_final_short_token_escrow accts)) (init_token escrow_))
       (mkWithdrawalActionParams amount (cw_min_long_token_amount params)
          (cw_min_short_token_amount params))
       swap).

Definition create_withdrawal (accts : CreateWithdrawalAccounts) (swap_paths : list Pubkey) (nonce : Z)
    (params : CreateWithdrawalParams) : XM unit :=
  let owner := cw_owner accts in
  let addr := action_address SeedWithdrawal owner nonce in
  let escrow_ := cw_market_token_escrow accts in
  let amount := cw_market_token_amount params in
  do! meta := market_meta (cw_market accts) in
  do! _ := init_account withdrawals addr owner (action_rent SeedWithdrawal) in
  do! _ := slift (
    let! _ := require (market_token_mint meta =? cw_market_token accts)
                CoreError.MarketTokenMintMismatched in
    let! _ := associated_token escrow_ addr (cw_market_token accts) in
    let! _ := associated_token (cw_final_long_token_escrow accts) addr (cw_final_long_token accts) in
    let! _ := associated_token (cw_final_short_token_escrow accts) addr (cw_final_short_token accts) in
    token_mint (cw_market_token_source accts) (cw_market_token accts)) in
  do! _ := start_create DomWithdrawal addr owner (cw_execution_lamports params) in
  do! _ := (if amount =? 0 then sret tt
            else user_transfer owner (cw_market_token_source accts) escrow_ amount) in
  create_withdrawal_operation addr nonce accts swap_paths params.

(** [perform_withdrawal]. *)
Definition perform_withdrawal (d : Withdrawal) (market market_token : Pubkey) (remaining : list Pubkey)
    (oracle : Oracle.Oracle) : StoredMarket.WS (T := T) (Z * Z) :=
  let tokens := withdrawal_tokens d in
  do! _ := StoredMarket.with_market this market (sread (fun m => StoredMarket.validate m this)) in
  do! final := slift (let! l := token_exists (final_long_token tokens) in
                      let! s := token_exists (final_short_token tokens) in Ok (l, s)) in
  executed this (now_ env) (Some (withdrawal_swap d)) market remaining None (Some (vault_address
    market_token))
    (unchecked_withdraw oracle (Some (withdrawal_swap d)) (withdrawal_params d) final None).

(** [transfer_tokens_out], for one token. *)
Definition withdrawal_transfer_out (is_primary : bool) (d : Withdrawal) (market : Pubkey)
    (remaining : list Pubkey) (escrow_ mint : Pubkey) (amount : Z) : StoredMarket.WS (T := T) unit :=
  if amount =? 0 then sret tt
  else
    do! key := unpack_or (find_last_market is_primary (withdrawal_swap d) remaining) market in
    StoredMarket.transfer_out_operation this vault_address key escrow_ mint amount.

Definition withdrawal_transfer_outs (d : Withdrawal) (accts : ExecuteWithdrawalAccounts)
    (remaining : list Pubkey) (out : Z * Z) : StoredMarket.WS (T := T) unit :=
  do! _ := withdrawal_transfer_out true d (xw_market accts) remaining (xw_final_long_token_escrow accts)
             (xw_final_long_token accts) (fst out) in
  withdrawal_transfer_out false d (xw_market accts) remaining (xw_final_short_token_escrow accts)
    (xw_final_short_token accts) (snd out).

Definition execute_withdrawal (accts : ExecuteWithdrawalAccounts) (remaining : list Pubkey)
    (oracle : Oracle.Oracle) (execution_fee : Z) (throw_on_execution_error : bool) : XM unit :=
  let addr := xw_withdrawal accts in
  let market := xw_market accts in
  let escrow_ := xw_market_token_escrow accts in
  let vault := vault_address (xw_market_token accts) in
  do! _ := market_meta market in
  do! d := load withdrawals addr in
  let tokens := withdrawal_tokens d in
  let amount := market_token_amount (withdrawal_params d) in
  do! _ := slift (
    let! _ := require (header_market (withdrawal_header d) =? market) CoreError.MarketMismatched in
    let! _ := require (header_store (withdrawal_header d) =? this) CoreError.StoreMismatched in
    let! _ := account_is (withdrawal_market_token tokens) escrow_ in
    let! _ := account_is (final_long_token tokens) (xw_final_long_token_escrow accts) in
    let! _ := account_is (final_short_token tokens) (xw_final_short_token_escrow accts) in
    let! _ := token_is (withdrawal_market_token tokens) (xw_market_token accts)
                CoreError.MarketTokenMintMismatched in
    let! _ := token_is (final_long_token tokens) (xw_final_long_token accts)
      CoreError.TokenMintMismatched in
    let! _ := token_is (final_short_token tokens) (xw_final_short_token accts)
      CoreError.TokenMintMismatched in
    let! _ := associated_token escrow_ addr (xw_market_token accts) in
    let! _ := associated_token (xw_final_long_token_escrow accts) addr (xw_final_long_token accts) in
    associated_token (xw_final_short_token_escrow accts) addr (xw_final_short_token accts)) in
  do! _ := on_store (only_role to_key (last_restart_slot env) (xw_authority accts)
    RoleKey.ORDER_KEEPER) in
  do! _ := on_store (validate_feature_enabled DomWithdrawal ActExecute) in
  do! _ := on_tokens (transfer escrow_ vault amount) in
  do! executed := on_world (execute_operation throw_on_execution_error oracle (withdrawal_header d)
                    (perform_withdrawal d market (xw_market_token accts) remaining oracle)) in
  do! _ :=
    match executed with
    | Some out =>
        do! _ := update_header withdrawals addr completed in
        on_world (withdrawal_transfer_outs d accts remaining out)
    | None =>
        do! _ := update_header withdrawals addr cancelled in
        on_tokens (transfer vault escrow_ amount)
    end in
  pay_fee withdrawals SeedWithdrawal addr (xw_authority accts) execution_fee.

Definition close_withdrawal (accts : CloseWithdrawalAccounts) : XM unit :=
  let addr := kw_withdrawal accts in
  let owner := kw_owner accts in
  let receiver_ := kw_receiver accts in
  let long_escrow := kw_final_long_token_escrow accts in
  let short_escrow := kw_final_short_token_escrow accts in
  close withdrawals addr (kw_executor accts) owner
    (fun d =>
       let tokens := withdrawal_tokens d in
       let! _ := token_is (withdrawal_market_token tokens) (kw_market_token accts)
                   CoreError.MarketTokenMintMismatched in
       let! _ := token_is (final_long_token tokens) (kw_final_long_token accts)
         CoreError.TokenMintMismatched in
       let! _ := token_is (final_short_token tokens) (kw_final_short_token accts)
                   CoreError.TokenMintMismatched in
       let! _ := check_close (withdrawal_header d) owner receiver_ in
       let! _ := account_is (withdrawal_market_token tokens) (kw_market_token_escrow accts) in
       let! _ := account_is (final_long_token tokens) long_escrow in
       let! _ := account_is (final_short_token tokens) short_escrow in
       let! _ := associated_token (kw_market_token_escrow accts) addr (kw_market_token accts) in
       let! _ := associated_token long_escrow addr (kw_final_long_token accts) in
       let! _ := associated_token short_escrow addr (kw_final_short_token accts) in
       let! _ := require (is_associated_token_account (kw_market_token_ata accts) owner
         (kw_market_token accts))
                   CoreError.NotAnATA in
       let! _ := require (is_associated_token_account_or_owner (kw_final_long_token_ata accts) receiver_
                            (kw_final_long_token accts)) CoreError.NotAnATA in
       require (is_associated_token_account_or_owner (kw_final_short_token_ata accts) receiver_
                  (kw_final_short_token accts)) CoreError.NotAnATA)
    (fun d init_if_needed_ =>
       let one to mint ata_ escrow_ :=
         Ok (escrow_transfer (withdrawal_header d) (kw_executor accts) to owner mint ata_ escrow_
               init_if_needed_) in
       one owner (kw_market_token accts) (kw_market_token_ata accts) (kw_market_token_escrow accts)
       :: one receiver_ (kw_final_long_token accts) (kw_final_long_token_ata accts) long_escrow
       :: (if long_escrow =? short_escrow then []
           else [one receiver_ (kw_final_short_token accts) (kw_final_short_token_ata accts)
             short_escrow])).

(** ** Shifts *)

Definition two_markets {A} (from to : Pubkey)
    (f : StoredMarket.Market -> StoredMarket.Market -> store_result A) : StoredMarket.WS (T := T) A :=
  do! a := StoredMarket.with_market this from (sread (fun m => Ok m)) in
  do! b := StoredMarket.with_market this to (sread (fun m => Ok m)) in
  slift (f a b).

(** [validate_markets] and [validate_markets_and_shift], up to the mints. *)
Definition validate_shift_markets (from to : Pubkey) (e : CoreError.CoreError)
    (check : StoredMarket.Market -> StoredMarket.Market -> store_result unit)
    : StoredMarket.WS (T := T) unit :=
  do! _ := slift (require (negb (from =? to)) e) in
  two_markets from to (fun a b =>
    let! _ := StoredMarket.validate a this in
    let! _ := StoredMarket.validate b this in
    let! _ := StoredMarket.validate_shiftable a b in
    check a b).

Definition create_shift_operation (addr nonce : Pubkey) (accts : CreateShiftAccounts)
    (params : CreateShiftParams) : XM unit :=
  let from := cs_from_market accts in
  let amount := cs_from_market_token_amount params in
  let escrow_ := cs_from_market_token_escrow accts in
  do! _ := on_world (validate_shift_markets from (cs_to_market accts) CoreError.InvalidShiftMarkets
             (fun a b =>
                let! _ := require (market_token_mint (StoredMarket.meta a) =? account_mint escrow_)
                            CoreError.MarketTokenMintMismatched in
                require (market_token_mint (StoredMarket.meta b)
                         =? account_mint (cs_to_market_token_escrow accts))
                  CoreError.MarketTokenMintMismatched)) in
  do! _ := slift (require (negb (amount =? 0)) CoreError.EmptyShift) in
  do! held := escrow_amount_of escrow_ in
  do! _ := slift (require_gte held amount CoreError.NotEnoughTokenAmount) in
  do! _ := on_ex_lamports (sread (validate_balance MIN_EXECUTION_LAMPORTS (action_rent SeedShift) addr
                                    (cs_execution_lamports params))) in
  do! h := new_header StoredMarket.next_shift_id SeedShift from (cs_owner accts) (cs_receiver accts)
    nonce
             (cs_execution_lamports params) false in
  do! meta := market_meta from in
  save shifts addr
    (mkShift h
       (mkShiftTokenAccounts (init_token escrow_) (init_token (cs_to_market_token_escrow accts))
          (long_token_mint meta) (short_token_mint meta))
       (mkShiftActionParams amount (cs_min_to_market_token_amount params))).

(** The constraint of the mint of [to_market] is that of [from_market]. *)
Definition create_shift (accts : CreateShiftAccounts) (nonce : Z) (params : CreateShiftParams) :
    XM unit :=
  let owner := cs_owner accts in
  let addr := action_address SeedShift owner nonce in
  let from := cs_from_market accts in
  let amount := cs_from_market_token_amount params in
  do! meta := market_meta from in
  do! _ := on_world (two_markets from (cs_to_market accts) (fun a b =>
             map_err (StoredMarket.validate_shiftable a b) (Core CoreError.TokenMintMismatched))) in
  do! _ := init_account shifts addr owner (action_rent SeedShift) in
  do! _ := slift (
    let! _ := require (market_token_mint meta =? cs_from_market_token accts)
                CoreError.MarketTokenMintMismatched in
    let! _ := associated_token (cs_from_market_token_escrow accts) addr (cs_from_market_token accts) in
    let! _ := associated_token (cs_to_market_token_escrow accts) addr (cs_to_market_token accts) in
    let! _ := token_mint (cs_from_market_token_source accts) (cs_from_market_token accts) in
    associated_token (cs_to_market_token_ata accts) (cs_receiver accts) (cs_to_market_token accts)) in
  do! _ := start_create DomShift addr owner (cs_execution_lamports params) in
  do! _ := (if amount =? 0 then sret tt
            else user_transfer owner (cs_from_market_token_source accts) (cs_from_market_token_escrow
              accts)
                   amount) in
  create_shift_operation addr nonce accts params.

(** [perform_shift]: both markets are opened before the shift, and committed after it. *)
Definition perform_shift (d : Shift) (from to vault to_account : Pubkey) (oracle : Oracle.Oracle)
    : StoredMarket.WS (T := T) Z :=
  do! _ := validate_shift_markets from to CoreError.Internal (fun _ _ => Ok tt) in
  do! min_tokens := StoredMarket.with_market this to (sread (fun m => Ok (min_tokens_for_first_deposit
    m))) in
  do! a := sread (op this (now_ env) None from []) in
  do! b := sread (op this (now_ env) None to []) in
  match unchecked_shift first_deposit_receiver oracle None None min_tokens
          (Actions.receiver (shift_header d)) (shift_params d) (a, b) with
  | ((a', b'), Ok received) =>
      do! _ := MarketOps.commit None (Some vault) a' in
      do! _ := MarketOps.commit (Some to_account) None b' in
      sret received
  | (_, Err e) => slift (Err e)
  | (_, Panic msg) => slift (Panic msg)
  end.

(** The constraints on a market of a shift. *)
Definition check_shift_market (d : Shift) (meta : MarketMeta) (market_token : Pubkey) :
    store_result unit :=
  let! _ := require (market_token_mint meta =? market_token) CoreError.MarketTokenMintMismatched in
  let! _ := require (long_token_mint meta =? shift_long_token (shift_tokens d))
    CoreError.TokenMintMismatched in
  require (short_token_mint meta =? shift_short_token (shift_tokens d)) CoreError.TokenMintMismatched.

Definition execute_shift (accts : ExecuteShiftAccounts) (oracle :
    Oracle.Oracle) (execution_lamports_ : Z)
    (throw_on_execution_error : bool) : XM unit :=
  let addr := xs_shift accts in
  let from := xs_from_market accts in
  let to := xs_to_market accts in
  let escrow_ := xs_from_market_token_escrow accts in
  let vault := vault_address (xs_from_market_token accts) in
  do! d := load shifts addr in
  let tokens := shift_tokens d in
  let amount := from_market_token_amount (shift_params d) in
  do! from_meta := market_meta from in
  do! to_meta := market_meta to in
  do! _ := slift (
    let! _ := check_shift_market d from_meta (xs_from_market_token accts) in
    let! _ := check_shift_market d to_meta (xs_to_market_token accts) in
    let! _ := require (header_store (shift_header d) =? this) CoreError.StoreMismatched in
    let! _ := require (header_market (shift_header d) =? from) CoreError.MarketMismatched in
    let! _ := account_is (from_market_token tokens) escrow_ in
    let! _ := account_is (to_market_token tokens) (xs_to_market_token_escrow accts) in
    let! _ := token_is (from_market_token tokens) (xs_from_market_token accts)
                CoreError.MarketTokenMintMismatched in
    let! _ := token_is (to_market_token tokens) (xs_to_market_token accts)
                CoreError.MarketTokenMintMismatched in
    let! _ := associated_token escrow_ addr (xs_from_market_token accts) in
    associated_token (xs_to_market_token_escrow accts) addr (xs_to_market_token accts)) in
  do! _ := on_store (only_role to_key (last_restart_slot env) (xs_authority accts)
    RoleKey.ORDER_KEEPER) in
  do! _ := on_store (validate_feature_enabled DomShift ActExecute) in
  do! _ := on_tokens (transfer escrow_ vault amount) in
  do! executed := on_world (execute_operation throw_on_execution_error oracle (shift_header d)
                    (perform_shift d from to vault (xs_to_market_token_escrow accts) oracle)) in
  do! _ :=
    match executed with
    | Some _ => update_header shifts addr completed
    | None =>
        do! _ := update_header shifts addr cancelled in
        on_tokens (transfer vault escrow_ amount)
    end in
  pay_fee shifts SeedShift addr (xs_authority accts) execution_lamports_.

Definition close_shift (accts : CloseShiftAccounts) : XM unit :=
  let addr := ks_shift accts in
  let owner := ks_owner accts in
  let receiver_ := ks_receiver accts in
  close shifts addr (ks_executor accts) owner
    (fun d =>
       let tokens := shift_tokens d in
       let! _ := check_close (shift_header d) owner receiver_ in
       let! _ := account_is (from_market_token tokens) (ks_from_market_token_escrow accts) in
       let! _ := account_is (to_market_token tokens) (ks_to_market_token_escrow accts) in
       let! _ := token_is (from_market_token tokens) (ks_from_market_token accts)
                   CoreError.MarketTokenMintMismatched in
       let! _ := token_is (to_market_token tokens) (ks_to_market_token accts)
                   CoreError.MarketTokenMintMismatched in
       let! _ := associated_token (ks_from_market_token_escrow accts) addr (ks_from_market_token
         accts) in
       let! _ := associated_token (ks_to_market_token_escrow accts) addr (ks_to_market_token accts) in
       let! _ := require (is_associated_token_account (ks_from_market_token_ata accts) owner
                            (ks_from_market_token accts)) CoreError.NotAnATA in
       require (is_associated_token_account (ks_to_market_token_ata accts) receiver_
                  (ks_to_market_token accts)) CoreError.NotAnATA)
    (fun d init_if_needed_ =>
       let one to mint ata_ escrow_ :=
         Ok (escrow_transfer (shift_header d) (ks_executor accts) to owner mint ata_ escrow_
               init_if_needed_) in
       [one owner (ks_from_market_token accts) (ks_from_market_token_ata accts)
          (ks_from_market_token_escrow accts);
        one receiver_ (ks_to_market_token accts) (ks_to_market_token_ata accts)
          (ks_to_market_token_escrow accts)]).

(** ** The instructions *)

Inductive ExchangeInstruction : Type :=
| CreateDeposit (accts : CreateDepositAccounts) (swap_paths : list Pubkey) (nonce : Z)
    (params : CreateDepositParams)
| ExecuteDeposit (accts : ExecuteDepositAccounts) (remaining : list Pubkey) (oracle : Oracle.Oracle)
    (execution_fee : Z) (throw_on_execution_error : bool)
| CloseDeposit (accts : CloseDepositAccounts)
| CreateWithdrawal (accts : CreateWithdrawalAccounts) (swap_paths : list Pubkey) (nonce : Z)
    (params : CreateWithdrawalParams)
| ExecuteWithdrawal (accts : ExecuteWithdrawalAccounts) (remaining : list Pubkey) (oracle :
  Oracle.Oracle)
    (execution_fee : Z) (throw_on_execution_error : bool)
| CloseWithdrawal (accts : CloseWithdrawalAccounts)
| CreateShift (accts : CreateShiftAccounts) (nonce : Z) (params : CreateShiftParams)
| ExecuteShift (accts : ExecuteShiftAccounts) (oracle : Oracle.Oracle) (execution_lamports : Z)
    (throw_on_execution_error : bool)
| CloseShift (accts : CloseShiftAccounts).

Definition run_exchange (i : ExchangeInstruction) : XM unit :=
  match i with
  | CreateDeposit accts swap_paths nonce params => create_deposit accts swap_paths nonce params
  | ExecuteDeposit accts remaining oracle fee throw => execute_deposit accts remaining oracle fee throw
  | CloseDeposit accts => close_deposit accts
  | CreateWithdrawal accts swap_paths nonce params => create_withdrawal accts swap_paths nonce params
  | ExecuteWithdrawal accts remaining oracle fee throw => execute_withdrawal accts remaining oracle
    fee throw
  | CloseWithdrawal accts => close_withdrawal accts
  | CreateShift accts nonce params => create_shift accts nonce params
  | ExecuteShift accts oracle fee throw => execute_shift accts oracle fee throw
  | CloseShift accts => close_shift accts
  end.

(** An instruction that fails changes nothing. *)
Definition exchange_step (i : ExchangeInstruction) (x : Exchange T) : Exchange T :=
  match run_exchange i x with (x', Ok _) => x' | _ => x end.
End Instructions.

End Exchange.
