(* ===== verification/ExchangeFacts.v ===== *)
(** * What the exchange guarantees

    Every instruction of [Exchange] moves tokens, market tokens and records in a known way
    ([WorldStep]). From this follow the properties of the exchange: whatever is created, executed
    and closed in whatever order, the vaults back the markets; an action is executed once, by a
    keeper; an execution that fails gives back what it took; and only the owner of an action
    closes it while it is pending. *)
From stdpp Require Import gmap sets.
From S2P Require Import Prelude.
From S2P Require Import Kinds.
From S2P Require Import Num.
From S2P Require Import Fixed.
From S2P Require Import Price.
From S2P Require Import Params.
From S2P Require Import Pool.
From S2P Require Import Market.
From S2P Require Import Revertible.
From S2P Require Import CoreErrors.
From S2P Require Import MapSum.
From S2P Require Import Flags.
From S2P Require Import Roles.
From S2P Require Import TokenConfig.
From S2P Require Import Oracle.
From S2P Require Import Users.
From S2P Require Import StoreState.
From S2P Require Import SwapPath.
From S2P Require Import Config.
From S2P Require Import Tokens.
From S2P Require Import MarketAccount.
From S2P Require Import MarketOps.
From S2P Require Import Actions.
From S2P Require Import Exchange.
Import OnChain.
#[local] Open Scope Z_scope.

Module ExchangeFacts.
Import MarketOps Actions Exchange.

(** ** Steps of the world *)
Section Worlds.
#[local] Existing Instance u128.
Context {F : FixedPointOps u128} {FOk : FixedPointOk F}.
Context {B : Type} {BO : BitmapOps StoredMarket.MAX_FLAGS B} {BL : BitmapLaws StoredMarket.MAX_FLAGS B}.
Context {C : Type} {CO : BitmapOps StoreConfig.MAX_CONFIG_FLAGS C}.
Context {T : Type} {TP : TokenProgram T} {TL : TokenProgramLaws T}.
Context (this : Pubkey) (market_token_address : Pubkey -> Pubkey -> Pubkey -> Pubkey)
  (vault_address account_mint : Pubkey -> Pubkey).
Context (Hvault : forall mint, account_mint (vault_address mint) = mint).
Implicit Types (w : StoredMarket.World T) (dr dh da ds : Pubkey -> Z).
Abbreviation MarketsAt := (StoredMarket.MarketsAt this market_token_address).
Abbreviation WorldWf := (StoredMarket.WorldWf this market_token_address vault_address).

Definition tokens_of w : T := StoredMarket.world_tokens w.

(** [w'] has [dr] more recorded by the markets, [dh] more in their pools, [da] more in the token
    accounts, and [ds] more of the mints. *)
Record WorldStep w dr dh da ds w' : Prop := {
  ws_at : MarketsAt w';
  ws_recorded tok : StoredMarket.all_recorded (StoredMarket.world_markets w') tok
                    = StoredMarket.all_recorded (StoredMarket.world_markets w) tok + dr tok;
  ws_held tok : all_held (StoredMarket.world_markets w') tok
                = all_held (StoredMarket.world_markets w) tok + dh tok;
  ws_amount k : amount_of (tokens_of w') k = amount_of (tokens_of w) k + da k;
  ws_supply m : supply_of (tokens_of w') m = supply_of (tokens_of w) m + ds m;
}.

Definition plus (f g : Pubkey -> Z) (k : Pubkey) : Z := f k + g k.
Definition minus (f : Pubkey -> Z) (k : Pubkey) : Z := - f k.
Definition moved (from to : Pubkey) (x : Z) (k : Pubkey) : Z := at_key to x k - at_key from x k.

Lemma world_step_refl w : MarketsAt w -> WorldStep w nothing nothing nothing nothing w.
Proof. intros Hw. by split; [done|intros; unfold nothing; lia..]. Qed.

Lemma world_step_same w w' :
  MarketsAt w -> StoredMarket.world_markets w' = StoredMarket.world_markets w ->
  tokens_of w' = tokens_of w -> WorldStep w nothing nothing nothing nothing w'.
Proof.
  intros Hw Hm Ht. split; rewrite ?Hm, ?Ht; [|intros; unfold nothing; lia..].
  intros k m. rewrite Hm. apply Hw.
Qed.

Lemma world_step_trans w dr dh da ds w1 dr' dh' da' ds' w2 :
  WorldStep w dr dh da ds w1 -> WorldStep w1 dr' dh' da' ds' w2 ->
  WorldStep w (plus dr dr') (plus dh dh') (plus da da') (plus ds ds') w2.
Proof.
  intros [_ R H A S] [Hat R' H' A' S']. unfold plus.
  split; [done|intros; rewrite ?R', ?H', ?A', ?S', ?R, ?H, ?A, ?S; lia..].
Qed.

Lemma world_step_eq w dr dh da ds w' dr' dh' da' ds' :
  WorldStep w dr dh da ds w' ->
  (forall k, dr k = dr' k) -> (forall k, dh k = dh' k) -> (forall k, da k = da' k) ->
  (forall k, ds k = ds' k) -> WorldStep w dr' dh' da' ds' w'.
Proof.
  intros [Hat R H A S] E1 E2 E3 E4.
  split; [done|intros; rewrite <- ?E1, <- ?E2, <- ?E3, <- ?E4; done..].
Qed.

(** The vaults keep backing the markets when they receive what is recorded. *)
Lemma world_step_wf w dr dh da ds w' :
  WorldWf w -> WorldStep w dr dh da ds w' -> (forall tok, dr tok <= da (vault_address tok)) ->
    WorldWf w'.
Proof.
  intros [_ Hc] [Hat R _ A _] Hd. split; [done|]. intros tok. rewrite R. fold (tokens_of w').
  rewrite A. specialize (Hc tok). specialize (Hd tok). unfold tokens_of in *. lia.
Qed.

Lemma with_market_step {A} key (op : StoredMarket.MS A) w w' a dr dh :
  MarketsAt w -> StoredMarket.with_market this key op w = (w', Ok a) ->
  (forall m m', StoredMarket.MarketAt this market_token_address key m -> op m = (m', Ok a) ->
     StoredMarket.AcctMoved m dr dh m') ->
  WorldStep w dr dh nothing nothing w'.
Proof.
  intros Hat H Hop. pose proof H as Hm.
  apply (StoredMarket.with_market_moved _ market_token_address _ _ _ _ _ dr dh) in Hm as ([Hat' R _] &
    Ht & _);
    [|done|done].
  unfold tokens_of. split; [done|done| |unfold tokens_of; rewrite Ht; intros; unfold nothing; lia..].
  apply StoredMarket.with_market_ok in H as (m & m' & Hkey & _ & Hrun & ->).
  apply Hop in Hrun as [Hmv _ _]; [|by apply Hat]. intros tok. unfold all_held.
  cbn [StoredMarket.world_markets StoredMarket.put_markets].
  rewrite map_sum_insert, Hkey. cbn [from_option]. rewrite (sm_moved_held _ _ _ _ Hmv). lia.
Qed.

Lemma at_key_0 k k' : at_key k 0 k' = 0.
Proof. unfold at_key. by case_if E. Qed.

Lemma at_key_opp k x k' : at_key k (- x) k' = - at_key k x k'.
Proof. unfold at_key. case_if E; lia. Qed.

Lemma on_tokens_step (op : ST T StoreError unit) w w' u da ds :
  MarketsAt w -> StoredMarket.on_tokens op w = (w', Ok u) ->
  (forall t t', op t = (t', Ok tt) -> (forall k, amount_of t' k = amount_of t k + da k) /\
     (forall m, supply_of t' m = supply_of t m + ds m)) ->
  WorldStep w nothing nothing da ds w'.
Proof.
  intros Hat Hr Hop. apply StoredMarket.on_tokens_ok in Hr as (Hr & Hm & _). destruct u.
  apply Hop in Hr as [A S]. split; rewrite ?Hm; [|intros; unfold nothing; lia..|exact A|exact S].
  intros k m. rewrite Hm. apply Hat.
Qed.

Lemma transfer_step from to x w w' u :
  MarketsAt w -> 0 <= x -> StoredMarket.on_tokens (transfer from to x) w = (w', Ok u) ->
  WorldStep w nothing nothing (moved from to x) nothing w' /\ x <= amount_of (tokens_of w) from.
Proof.
  intros Hat Hx Hr. split.
  - eapply on_tokens_step; [done|exact Hr|]. intros t t' Ht. apply transfer_law in Ht as (_ & A & S);
    [|done].
    split; intros k; rewrite ?A, ?S; unfold moved, nothing; lia.
  - apply StoredMarket.on_tokens_ok in Hr as (Hr & _). destruct u. by apply transfer_law in Hr as (? &
    _).
Qed.

Lemma transfer_in_step key from mint x w w' u :
  MarketsAt w -> 0 <= x ->
  StoredMarket.transfer_in_operation this vault_address key from mint x w = (w', Ok u) ->
  WorldStep w (pay mint x) nothing (moved from (vault_address mint) x) nothing w'.
Proof.
  intros Hat Hx Hr. apply sbind_ok in Hr as (? & ? & [-> _]%StoredMarket.with_market_read & Hr).
  destruct (Z.eqb_spec x 0) as [->|Hne].
  - apply sret_ok in Hr as [-> _]. eapply world_step_eq; [by apply world_step_refl|..]; intros k;
      unfold nothing, moved; rewrite ?at_key_0, ?pay_0; lia.
  - apply sbind_ok in Hr as (w1 & u1 & [H1 _]%transfer_step & Hr); [|done..].
    apply (with_market_step _ _ _ _ _ (pay mint x) nothing) in Hr; [|apply H1|].
    2:{ intros m m' Hm Ho. destruct u. by eapply StoredMarket.record_in_moved in Ho; [|apply Hm]. }
    eapply world_step_eq; [by eapply world_step_trans|..]; intros k; unfold plus, nothing; lia.
Qed.

Lemma transfer_out_step key to mint x w w' u :
  MarketsAt w -> 0 <= x ->
  StoredMarket.transfer_out_operation this vault_address key to mint x w = (w', Ok u) ->
  WorldStep w (pay mint (- x)) nothing (moved (vault_address mint) to x) nothing w'.
Proof.
  intros Hat Hx Hr. apply sbind_ok in Hr as (? & ? & [-> _]%StoredMarket.with_market_read & Hr).
  apply sbind_ok in Hr as (? & ? & [-> _]%slift_ok & Hr).
  destruct (Z.eqb_spec x 0) as [->|Hne].
  - apply sret_ok in Hr as [-> _]. eapply world_step_eq; [by apply world_step_refl|..]; intros k;
      unfold nothing, moved; rewrite ?at_key_0, ?pay_opp, ?pay_0; lia.
  - apply sbind_ok in Hr as (w1 & u1 & [H1 _]%transfer_step & Hr); [|done..].
    apply (with_market_step _ _ _ _ _ (pay mint (- x)) nothing) in Hr; [|apply H1|].
    2:{ intros m m' Hm Ho. destruct u. by eapply StoredMarket.record_out_moved in Ho; [|apply Hm]. }
    eapply world_step_eq; [by eapply world_step_trans|..]; intros k; unfold plus, nothing; lia.
Qed.
End Worlds.

(** ** Actions on the markets *)
Section Performed.
#[local] Existing Instance u128.
Context {F : FixedPointOps u128} {FOk : FixedPointOk F}.
Context {B : Type} {BO : BitmapOps StoredMarket.MAX_FLAGS B} {BL : BitmapLaws StoredMarket.MAX_FLAGS B}.
Context {C : Type} {CO : BitmapOps StoreConfig.MAX_CONFIG_FLAGS C}.
Context {T : Type} {TP : TokenProgram T} {TL : TokenProgramLaws T}.
Context (this : Pubkey) (market_token_address : Pubkey -> Pubkey -> Pubkey -> Pubkey).
Context (now : Z) (first_deposit_receiver : Pubkey) (oracle : Oracle.Oracle) (Hgood : GoodPrices oracle).
Implicit Types (w : StoredMarket.World T).
Abbreviation MarketsAt := (StoredMarket.MarketsAt this market_token_address).
Abbreviation WorldStep := (WorldStep this market_token_address).

(** An operation that leaves the world alone when it fails. *)
Definition Atomic {S A} (m : ST S StoreError A) : Prop := forall s s' e, m s = (s', Err e) -> s' = s.

Lemma atomic_read {S A} (f : S -> store_result A) : Atomic (sread f).
Proof. by intros s s' e [= <- _]. Qed.

Lemma atomic_lift {S A} (r : store_result A) : Atomic (slift (S := S) r).
Proof. by intros s s' e [= <- _]. Qed.

(** Something that never fails, after something atomic that changes nothing. *)
Lemma atomic_bind {S A D} (m : ST S StoreError A) (f : A -> ST S StoreError D) :
  Atomic m -> (forall s s' a, m s = (s', Ok a) -> s' = s) -> (forall a, Atomic (f a)) ->
    Atomic (sbind m f).
Proof.
  intros Hm Hs Hf s s' e. unfold sbind. destruct (m s) as [s1 [a| |]] eqn:E.
  - apply Hs in E as ->. apply Hf.
  - intros [= <- _]. by eapply Hm.
  - done.
Qed.

Lemma with_market_read_same {A} key (f : StoredMarket.Market -> store_result A) w w' r :
  StoredMarket.with_market this key (sread f) w = (w', r) -> w' = w.
Proof.
  unfold StoredMarket.with_market. destruct (StoredMarket.world_markets w !! key) as [m|] eqn:Hm;
    [|by intros [= <- _]].
  destruct (sbind _ _ m) as [m' r'] eqn:E. assert (m' = m) as ->.
  { unfold sbind, sread in E. destruct (has_one _) in E; by injection E as <- _. }
  intros [= <- _]. unfold StoredMarket.put_markets. rewrite insert_id by done. by destruct w.
Qed.

Lemma atomic_market {A} key (f : StoredMarket.Market -> store_result A) :
  Atomic (StoredMarket.with_market (T := T) this key (sread f)).
Proof. intros w w' e. apply with_market_read_same. Qed.

Lemma commit_tokens_no_error amount account_ a b (f : Pubkey -> ST T StoreError unit) w w' e :
  commit_tokens amount account_ a b f w <> (w', Err e).
Proof.
  unfold commit_tokens. destruct (amount =? 0); [done|]. destruct account_ as [k|]; [|done].
  unfold or_panic. by destruct (StoredMarket.on_tokens _ w) as [? [| |]].
Qed.

Lemma commit_no_error receiver_ vault s w w' e : commit receiver_ vault s w <> (w', Err e).
Proof.
  unfold commit, sbind. destruct (commit_tokens _ receiver_ _ _ _ w) as [w1 [[]|e1|]] eqn:H1; [| |done].
  - destruct (commit_tokens _ vault _ _ _ w1) as [w2 [[]|e2|]] eqn:H2; [done| |done].
    by apply commit_tokens_no_error in H2.
  - by apply commit_tokens_no_error in H1.
Qed.

Lemma executed_atomic {A} swap key remaining receiver_ vault (m : EM A) :
  Atomic (executed (T := T) this now swap key remaining receiver_ vault m).
Proof.
  apply atomic_bind; [apply atomic_read|by intros s s' a [-> _]%sread_ok|]. intros s w w' e.
  destruct (m s) as [s' [a| |]]; [|by intros [= <- _]..]. unfold sbind.
  destruct (commit receiver_ vault s' w) as [w1 [[]| |]] eqn:H1; [done| |done].
  by apply commit_no_error in H1.
Qed.

(** What is committed. *)
Lemma commit_step swap key remaining receiver_ vault s s' w w' dr dh :
  MarketsAt w -> op this now swap key remaining w = Ok s -> Executed s dr dh s' ->
  0 <= to_mint (supply_at s') -> 0 <= to_burn (supply_at s') ->
  commit receiver_ vault s' w = (w', Ok tt) ->
  WorldStep w dr dh
    (plus (account_change receiver_ (to_mint (supply_at s'))) (account_change vault (- to_burn
      (supply_at s'))))
    (plus (at_key key (to_mint (supply_at s'))) (at_key key (- to_burn (supply_at s')))) w'.
Proof.
  intros Hat Hop Hex Hm Hb Hc.
  destruct (commit_moved _ _ market_token_address _ _ _ _ _ _ _ _ _ _ _ Hat Hop Hex Hm Hb Hc)
    as ([Hat' R _] & H & w1 & w2 & [_ _ _ A1 S1 _] & [_ _ _ A2 S2 _] & ->).
  split; [done|done|done|..]; intros k; unfold tokens_of, plus; simpl; rewrite ?A2, ?A1, ?S2, ?S1; lia.
Qed.

Lemma op_new swap key remaining w s :
  MarketsAt w -> op this now swap key remaining w = Ok s ->
  current s = key /\ MarketsWf s /\
  supply_at s = mkLiquiditySupply (supply_of (tokens_of w) key) 0 0.
Proof.
  intros Hat Hop. apply op_ok in Hop as (? & ? & _ & _ & ?); [done|].
  intros k m Hk. by apply Hat in Hk as [].
Qed.

Lemma executed_deposit_step swap key remaining account_ min_tokens r params tokens kind w w' x :
  MarketsAt w -> params_u64 params ->
  executed this now (Some swap) key remaining (Some account_) None
    (unchecked_deposit first_deposit_receiver oracle (Some swap) min_tokens r params tokens kind) w
    = (w', Ok x) ->
  WorldStep w nothing
    (fun tok => side_in (fst tokens) (initial_long_token_amount params) tok
                + side_in (snd tokens) (initial_short_token_amount params) tok)
    (at_key account_ x) (at_key key x) w'
  /\ min_market_token_amount params <= x /\ @in_u u64 x
  /\ (supply_of (tokens_of w) key = 0 -> min_tokens <> 0 ->
        r = first_deposit_receiver /\ min_tokens <= min_market_token_amount params).
Proof.
  intros Hat Hu Hr. apply executed_parts in Hr as (s & s' & Hop & Hrun & Hc).
  destruct (op_new _ _ _ _ _ Hat Hop) as (Hcur & Hwf & Hsup).
  apply unchecked_deposit_ok in Hrun as (Hex & _ & Hmin & Hx & Hs' & Hfirst & _); [|done..].
  rewrite Hsup in Hs', Hfirst. simpl in Hs', Hfirst.
  apply (commit_step _ _ _ _ _ _ _ _ _ _ _ Hat Hop Hex) in Hc; rewrite ?Hs' in *; [|simpl;
    destruct Hx; lia..].
  split; [|done]. eapply world_step_eq; [exact Hc|done..| |]; intros k; unfold plus; simpl;
    rewrite ?Z.add_0_l, ?Z.opp_0, ?at_key_0; lia.
Qed.

Lemma executed_withdraw_step swap key remaining account_ params tokens kind w w' out :
  MarketsAt w -> @in_u u64 (market_token_amount params) ->
  executed this now (Some swap) key remaining None (Some account_)
    (unchecked_withdraw oracle (Some swap) params tokens kind) w = (w', Ok out) ->
  WorldStep w nothing (fun tok => - pay (fst tokens) (fst out) tok - pay (snd tokens) (snd out) tok)
    (at_key account_ (- market_token_amount params)) (at_key key (- market_token_amount params)) w'
  /\ min_long_token_amount params <= fst out /\ min_short_token_amount params <= snd out
  /\ @in_u u64 (fst out) /\ @in_u u64 (snd out).
Proof.
  intros Hat Hu Hr. apply executed_parts in Hr as (s & s' & Hop & Hrun & Hc).
  destruct (op_new _ _ _ _ _ Hat Hop) as (Hcur & Hwf & Hsup).
  apply unchecked_withdraw_ok in Hrun as (Hex & _ & _ & Ho1 & Ho2 & Hm1 & Hm2 & Hs'); [|done..].
  rewrite Hsup in Hs'. simpl in Hs'.
  apply (commit_step _ _ _ _ _ _ _ _ _ _ _ Hat Hop Hex) in Hc; rewrite ?Hs' in *; [|simpl;
    destruct Hu; lia..].
  split; [|done]. eapply world_step_eq; [exact Hc|done..| |]; intros k; unfold plus; simpl;
    rewrite ?Z.add_0_l, ?Z.opp_0, ?at_key_0; lia.
Qed.

(** Opening one market alone depends on that market only. *)
Lemma op_alone key w w1 :
  StoredMarket.world_markets w1 !! key = StoredMarket.world_markets w !! key ->
  supply_of (tokens_of w1) key = supply_of (tokens_of w) key ->
  op this now None key [] w1 = op this now None key [] w.
Proof. unfold op, tokens_of. by intros -> ->. Qed.

(** A commit of one market alone leaves the other ones. *)
Lemma commit_alone receiver_ vault s w w' u k :
  markets s = ∅ -> current s <> k -> commit receiver_ vault s w = (w', Ok u) ->
  0 <= to_mint (supply_at s) -> 0 <= to_burn (supply_at s) ->
  StoredMarket.world_markets w' !! k = StoredMarket.world_markets w !! k
  /\ supply_of (tokens_of w') k = supply_of (tokens_of w) k.
Proof.
  intros He Hk Hc Hm Hb. apply commit_world_ok in Hc as (w1 & w2 & [_ _ _ _ S1 _] & [_ _ _ _ S2 _] &
    ->); [|done..].
  unfold tokens_of. simpl. split.
  - unfold commit_markets, all_markets. rewrite map_lookup_imap, He, lookup_insert_ne,
    lookup_empty by done.
    by destruct (StoredMarket.world_markets w !! k).
  - rewrite S2, S1. unfold at_key. destruct (Z.eqb_spec k (current s)); [congruence|lia].
Qed.

Lemma op_alone_markets key w s : op this now None key [] w = Ok s -> markets s = ∅.
Proof.
  unfold op. simpl. unfold rbind at 1. destruct (StoredMarket.world_markets w !! key) as [m|]; [|done].
  intros Hr. apply rbind_ok in Hr as (mk & _ & Hr). simpl in Hr. by apply rbind_ok in Hr as (? & [=
    <-] & [= <-]).
Qed.
End Performed.

(** ** The instructions *)
Section Steps.
#[local] Existing Instance u128.
Context {F : FixedPointOps u128} {FOk : FixedPointOk F}.
Context {B : Type} {BO : BitmapOps StoredMarket.MAX_FLAGS B} {BL : BitmapLaws StoredMarket.MAX_FLAGS B}.
Context {C : Type} {CO : BitmapOps StoreConfig.MAX_CONFIG_FLAGS C}.
Context {R : Type} {RO : BitmapOps MAX_ROLES R}.
Context {T : Type} {TP : TokenProgram T} {TL : TokenProgramLaws T}.
Context (to_key : bytes -> Z) (this : Pubkey).
Context (vault_address account_mint : Pubkey -> Pubkey) (ata_address : Pubkey -> Pubkey -> Pubkey).
Context (action_address action_bump : ActionSeed -> Pubkey -> Z ->
  Pubkey) (action_rent : ActionSeed -> Z).
Context (first_deposit_receiver native_mint : Pubkey) (token_rent : Z) (store_wallet : Pubkey).
Context (market_token_address : Pubkey -> Pubkey -> Pubkey -> Pubkey).
Implicit Types (w : StoredMarket.World T) (X : Exchange T) (env : Env) (oracle : Oracle.Oracle).
Abbreviation MarketsAt := (StoredMarket.MarketsAt this market_token_address).
Abbreviation WorldStep := (WorldStep this market_token_address).

(** *** Performing an action *)

Lemma perform_deposit_action_ok env oracle d market account_ remaining w w' x :
  GoodPrices oracle -> MarketsAt w -> params_u64 (deposit_params d) ->
  perform_deposit_action this first_deposit_receiver env d market account_ remaining oracle w =
    (w', Ok x) ->
  let tokens := deposit_tokens d in
  let params := deposit_params d in
  WorldStep w nothing
    (fun tok => side_in (token (initial_long_token tokens)) (initial_long_token_amount params) tok
                + side_in (token (initial_short_token tokens)) (initial_short_token_amount params) tok)
    (at_key account_ x) (at_key market x) w'
  /\ min_market_token_amount params <= x /\ @in_u u64 x
  /\ exists m, StoredMarket.world_markets w !! market = Some m
     /\ StoredMarket.is_enabled m = true
     /\ (supply_of (tokens_of w) market = 0 -> min_tokens_for_first_deposit m <> 0 ->
           Actions.receiver (deposit_header d) = first_deposit_receiver
           /\ min_tokens_for_first_deposit m <= min_market_token_amount params).
Proof.
  intros Hgood Hat Hu Hr tokens params.
  apply sbind_ok in Hr as (? & min_tokens & [-> (m & Hm & _ & Hv)]%StoredMarket.with_market_read & Hr).
  apply rbind_ok in Hv as ([] & Hv & [= <-]). apply rbind_ok in Hv as (? & _ & He%require_ok).
  apply (executed_deposit_step _ market_token_address) in Hr as (Hs & Hmin & Hx & Hfirst); [|done..].
  split_and!; [exact Hs|done|done|]. by exists m.
Qed.

Lemma perform_deposit_action_atomic env oracle d market account_ remaining :
  Atomic (perform_deposit_action (T := T) this first_deposit_receiver env d market account_ remaining
    oracle).
Proof.
  apply atomic_bind; [apply atomic_market|by intros w w' a [-> _]%StoredMarket.with_market_read|].
  intros. apply executed_atomic.
Qed.

Lemma token_exists_ok self t : token_exists self = Ok t -> token self = Some t.
Proof. by intros H%expect_ok. Qed.

Lemma perform_withdrawal_ok env oracle d market mint remaining w w' out :
  GoodPrices oracle -> MarketsAt w -> @in_u u64 (market_token_amount (withdrawal_params d)) ->
  perform_withdrawal this vault_address env d market mint remaining oracle w = (w', Ok out) ->
  let amount := market_token_amount (withdrawal_params d) in
  exists long short,
  token (final_long_token (withdrawal_tokens d)) = Some long
  /\ token (final_short_token (withdrawal_tokens d)) = Some short
  /\ WorldStep w nothing (fun tok => - pay long (fst out) tok - pay short (snd out) tok)
       (at_key (vault_address mint) (- amount)) (at_key market (- amount)) w'
  /\ min_long_token_amount (withdrawal_params d) <= fst out
  /\ min_short_token_amount (withdrawal_params d) <= snd out
  /\ @in_u u64 (fst out) /\ @in_u u64 (snd out).
Proof.
  intros Hgood Hat Hu Hr amount.
  apply sbind_ok in Hr as (? & ? & [-> _]%StoredMarket.with_market_read & Hr).
  apply sbind_ok in Hr as (? & [l sh] & [-> Hf]%slift_ok & Hr).
  apply rbind_ok in Hf as (l' & Hl%token_exists_ok & Hf). apply rbind_ok in Hf as (s' &
    Hs%token_exists_ok & [= <- <-]).
  apply (executed_withdraw_step _ market_token_address) in Hr as (Hst & Hm); [|done..]. by exists l', s'.
Qed.

Lemma perform_withdrawal_atomic env oracle d market mint remaining :
  Atomic (perform_withdrawal (T := T) this vault_address env d market mint remaining oracle).
Proof.
  apply atomic_bind; [apply atomic_market|by intros w w' a [-> _]%StoredMarket.with_market_read|intros
    _].
  apply atomic_bind; [apply atomic_lift|by intros w w' a [-> _]%slift_ok|]. intros. apply
    executed_atomic.
Qed.

Lemma two_markets_ok {A} from to (f : _ -> _ -> store_result A) w w' a :
  two_markets this from to f w = (w', Ok a) -> w' = w /\ exists m1 m2,
    StoredMarket.world_markets w !! from = Some m1 /\ StoredMarket.world_markets w !! to = Some m2
    /\ f m1 m2 = Ok a.
Proof.
  intros Hr. apply sbind_ok in Hr as (? & m1 & [-> (? & Hm1 & _ & [=
    <-])]%StoredMarket.with_market_read & Hr).
  apply sbind_ok in Hr as (? & m2 & [-> (? & Hm2 & _ & [= <-])]%StoredMarket.with_market_read & Hr).
  apply slift_ok in Hr as [-> Hf]. split; [done|]. by exists x, x0.
Qed.

Lemma validate_shift_markets_ok from to e check w w' u :
  validate_shift_markets this from to e check w = (w', Ok u) -> w' = w /\ from <> to /\ exists a b,
    StoredMarket.world_markets w !! from = Some a /\ StoredMarket.world_markets w !! to = Some b
    /\ long_token_mint (StoredMarket.meta a) = long_token_mint (StoredMarket.meta b)
    /\ short_token_mint (StoredMarket.meta a) = short_token_mint (StoredMarket.meta b)
    /\ check a b = Ok u.
Proof.
  intros Hr. apply sbind_ok in Hr as (? & ? & [-> Hne%require_ok]%slift_ok & Hr).
  apply two_markets_ok in Hr as (-> & a & b & Ha & Hb & Hr).
  apply rbind_ok in Hr as (? & _ & Hr). apply rbind_ok in Hr as (? & _ & Hr).
  apply rbind_ok in Hr as (? & Hs & Hr). apply rbind_ok in Hs as (? & Hl%require_ok & Hs%require_ok).
  bool_to_prop. split_and!; [done|done|]. by exists a, b.
Qed.

Lemma op_meta key now_ w s m :
  MarketsAt w -> op this now_ None key [] w = Ok s -> StoredMarket.world_markets w !! key = Some m ->
  sm_meta (current_market s) = StoredMarket.meta m.
Proof.
  intros Hat Hop Hm. apply op_ok in Hop as (Hcur & _ & _ & Hall & _); [|intros k m' Hk;
    by apply Hat in Hk as []].
  destruct (Hall key (current_market s)) as (m' & Hm' & [Hmeta _] & _).
  { unfold all_markets. by rewrite Hcur, lookup_insert_eq. }
  congruence.
Qed.

(** A shift: the tokens stay where they are, in the vaults; the records and the pools of the two
    markets together do not change. *)
Lemma perform_shift_ok env oracle d from to vault account_ w w' x :
  GoodPrices oracle -> MarketsAt w -> @in_u u64 (from_market_token_amount (shift_params d)) ->
  perform_shift this first_deposit_receiver env d from to vault account_ oracle w = (w', Ok x) ->
  let amount := from_market_token_amount (shift_params d) in
  from <> to
  /\ WorldStep w nothing nothing (plus (at_key vault (- amount)) (at_key account_ x))
       (plus (at_key from (- amount)) (at_key to x)) w'
  /\ min_to_market_token_amount (shift_params d) <= x /\ @in_u u64 x.
Proof.
  intros Hgood Hat Hu Hr amount.
  apply sbind_ok in Hr as (? & ? & (-> & Hne & ma & mb & Ha & Hb & Hl & Hs &
    _)%validate_shift_markets_ok & Hr).
  apply sbind_ok in Hr as (? & min_tokens & [-> _]%StoredMarket.with_market_read & Hr).
  apply sbind_ok in Hr as (? & a & [-> Hopa]%sread_ok & Hr).
  apply sbind_ok in Hr as (? & b & [-> Hopb]%sread_ok & Hr).
  destruct (op_new _ market_token_address _ _ _ _ _ _ Hat Hopa) as (Hca & Hwa & Hsa).
  destruct (op_new _ market_token_address _ _ _ _ _ _ Hat Hopb) as (Hcb & Hwb & Hsb).
  pose proof (op_meta _ _ _ _ _ Hat Hopa Ha) as Hma. pose proof (op_meta _ _ _ _ _ Hat Hopb Hb) as Hmb.
  destruct (unchecked_shift _ _ _ _ _ _ _ _) as [[a' b'] [y| |]] eqn:Hrun; [|done|done].
  apply sbind_ok in Hr as (w1 & [] & H1 & Hr). apply sbind_ok in Hr as (w2 & [] & H2 & [-> ->]%sret_ok).
  apply unchecked_shift_ok in Hrun as (l & sh & Hul & Hus & Ea & Eb & _ & _ & Hmin & Hx & Sa & Sb);
    [|done..].
  cbv zeta in Ea, Eb. rewrite Hsa in Sa. rewrite Hsb in Sb. rewrite Hma in Ea. rewrite Hma, Hmb,
    <- Hl, <- Hs in Eb.
  simpl in Sa, Sb.
  assert (markets a' = ∅) as Hea.
  { apply map_empty. intros k. apply (fmap_None sm_meta). rewrite (ex_metas _ _ _ _ Ea).
    by rewrite (op_alone_markets _ _ _ _ _ Hopa), lookup_empty. }
  assert (current a' = from) as Hca' by (unfold current in *; by rewrite (ex_meta _ _ _ _ Ea)).
  apply (commit_alone None (Some vault) a' w w1 tt to) in H1 as Hkeep; [|done|congruence|rewrite Sa;
    simpl; destruct Hu; lia..].
  destruct Hkeep as [Hk1 Hk2].
  eapply (commit_step _ market_token_address) in H1 as St1;
    [|exact Hat|exact Hopa|exact Ea|rewrite Sa; simpl; destruct Hu; lia..].
  rewrite <- (op_alone _ _ _ _ w1 Hk1 Hk2) in Hopb.
  eapply (commit_step _ market_token_address) in H2 as St2;
    [|apply St1|exact Hopb|exact Eb|rewrite Sb; simpl; destruct Hx; lia..].
  rewrite Sa in St1. rewrite Sb in St2. simpl in St1, St2.
  split_and!; [done| |done|done].
  eapply world_step_eq; [by eapply world_step_trans|..]; intros k; unfold plus, nothing; simpl;
    rewrite ?Z.add_0_l, ?Z.opp_0, ?at_key_0; unfold amount; lia.
Qed.

Lemma perform_shift_atomic env oracle d from to vault account_ :
  Atomic (perform_shift (T := T) this first_deposit_receiver env d from to vault account_ oracle).
Proof.
  apply atomic_bind.
  { apply atomic_bind; [apply atomic_lift|by intros w w' a [-> _]%slift_ok|intros _].
    apply atomic_bind; [apply atomic_market|by intros w w' a [->
      _]%StoredMarket.with_market_read|intros a].
    apply atomic_bind; [apply atomic_market|by intros w w' b [->
      _]%StoredMarket.with_market_read|intros b].
    apply atomic_lift. }
  { by intros w w' a (-> & _)%validate_shift_markets_ok. }
  intros _. apply atomic_bind; [apply atomic_market|by intros w w' a [->
    _]%StoredMarket.with_market_read|intros mt].
  apply atomic_bind; [apply atomic_read|by intros w w' a [-> _]%sread_ok|intros a].
  apply atomic_bind; [apply atomic_read|by intros w w' b [-> _]%sread_ok|intros b].
  intros w w' e. destruct (unchecked_shift _ _ _ _ _ _ _ _) as [[a' b'] [y| |]];
    [|by intros [= <- _]|done].
  unfold sbind. destruct (commit None _ a' w) as [w1 [[]| |]] eqn:H1;
    [| by apply commit_no_error in H1|done].
  destruct (commit _ None b' w1) as [w2 [[]| |]] eqn:H2; [done|by apply commit_no_error in H2|done].
Qed.

(** *** What a step leaves alone *)

Definition acts X := (ex_deposits X, ex_withdrawals X, ex_shifts X).

Class KindOk {A} (k : Kind T A) : Prop := {
  kind_get_put m X : kind_get k (kind_put k m X) = m;
  kind_put_world m X : ex_world (kind_put k m X) = ex_world X;
  kind_get_acts X X' : acts X = acts X' -> kind_get k X = kind_get k X';
  kind_put_acts m X X' : acts X = acts X' -> acts (kind_put k m X) = acts (kind_put k m X');
  kind_put_put m m' X : acts (kind_put k m (kind_put k m' X)) = acts (kind_put k m X);
  kind_header h a : header k (with_header k h a) = h;
}.

#[local] Instance deposits_ok : KindOk deposits.
Proof. split; try done; unfold acts; simpl; congruence. Qed.
#[local] Instance withdrawals_ok : KindOk withdrawals.
Proof. split; try done; unfold acts; simpl; congruence. Qed.
#[local] Instance shifts_ok : KindOk shifts.
Proof. split; try done; unfold acts; simpl; congruence. Qed.

(** The same markets, tokens and actions. *)
Record Same X X' : Prop := {
  same_markets : StoredMarket.world_markets (ex_world X') = StoredMarket.world_markets (ex_world X);
  same_tokens : tokens_of (ex_world X') = tokens_of (ex_world X);
  same_acts : acts X' = acts X;
}.

Lemma same_refl X : Same X X.
Proof. done. Qed.

Lemma same_trans X X1 X2 : Same X X1 -> Same X1 X2 -> Same X X2.
Proof. intros [] []. split; congruence. Qed.

(** The same actions. *)
Record XStep X (dr dh da ds : Pubkey -> Z) X' : Prop := {
  xs_world : WorldStep (ex_world X) dr dh da ds (ex_world X');
  xs_acts : acts X' = acts X;
}.

(** The action at [addr] becomes [o]. *)
Definition Acted {A} (k : Kind T A) (addr : Pubkey) (o : option A) X X' : Prop :=
  acts X' = acts (kind_put k (partial_alter (fun _ => o) addr (kind_get k X)) X).

Lemma same_step X X' :
  MarketsAt (ex_world X) -> Same X X' -> XStep X nothing nothing nothing nothing X'.
Proof. intros Hat [Hm Ht Ha]. split; [by apply world_step_same|done]. Qed.

Lemma xstep_trans X dr dh da ds X1 dr' dh' da' ds' X2 :
  XStep X dr dh da ds X1 -> XStep X1 dr' dh' da' ds' X2 ->
  XStep X (plus dr dr') (plus dh dh') (plus da da') (plus ds ds') X2.
Proof. intros [W A] [W' A']. split; [by eapply world_step_trans|congruence]. Qed.

Lemma xstep_eq X dr dh da ds X' dr' dh' da' ds' :
  XStep X dr dh da ds X' ->
  (forall k, dr k = dr' k) -> (forall k, dh k = dh' k) -> (forall k, da k = da' k) ->
  (forall k, ds k = ds' k) -> XStep X dr' dh' da' ds' X'.
Proof. intros [W A] ? ? ? ?. split; [by eapply world_step_eq|done]. Qed.

Lemma xstep_same_l X X1 dr dh da ds X2 : Same X X1 -> XStep X1 dr dh da ds X2 -> XStep X dr dh da ds X2.
Proof.
  intros [Hm Ht Ha] [[W1 W2 W3 W4 W5] A]. rewrite Hm in W2, W3. rewrite Ht in W4, W5.
  by split; [|congruence].
Qed.

Lemma xstep_same_r X X1 dr dh da ds X2 : XStep X dr dh da ds X1 -> Same X1 X2 -> XStep X dr dh da ds X2.
Proof.
  intros [[W1 W2 W3 W4 W5] A] [Hm Ht Ha]. rewrite <- Hm in W2, W3. rewrite <- Ht in W4, W5.
  split; [split; try done|congruence]. intros k m. rewrite Hm. apply W1.
Qed.

Lemma same_at X X' : Same X X' -> MarketsAt (ex_world X) -> MarketsAt (ex_world X').
Proof. intros [Hm _ _] Hat k m. rewrite Hm. apply Hat. Qed.

Lemma on_world_step {A} (m : StoredMarket.WS A) X X' a dr dh da ds :
  on_world m X = (X', Ok a) ->
  (forall w', m (ex_world X) = (w', Ok a) -> WorldStep (ex_world X) dr dh da ds w') ->
  XStep X dr dh da ds X'.
Proof. intros (w & Hw & ->)%szoom_ok Hm. by split; [apply Hm|]. Qed.

Lemma on_world_same {A} (m : StoredMarket.WS A) X X' a :
  on_world m X = (X', Ok a) ->
  (forall w', m (ex_world X) = (w', Ok a) ->
     StoredMarket.world_markets w' = StoredMarket.world_markets (ex_world X)
     /\ tokens_of w' = tokens_of (ex_world X)) -> Same X X'.
Proof. intros (w & Hw & ->)%szoom_ok Hm. apply Hm in Hw as []. by split. Qed.

Lemma on_store_same {A} (m : SS A) X X' a : on_store m X = (X', Ok a) -> Same X X'.
Proof.
  intros Hr. eapply on_world_same; [exact Hr|]. by intros w' (Hm & Ht & _)%StoredMarket.on_store_ok.
Qed.

Lemma read_market_ok {A} key (f : StoredMarket.Market -> store_result A) X X' a :
  read_market this key f X = (X', Ok a) -> X' = X /\ exists m,
    StoredMarket.world_markets (ex_world X) !! key = Some m /\ StoredMarket.store m = this /\ f m = Ok a.
Proof.
  intros (w & [-> Hm]%StoredMarket.with_market_read & ->)%szoom_ok. split; [by destruct X|done].
Qed.

Lemma market_meta_ok key X X' meta_ :
  market_meta this key X = (X', Ok meta_) -> X' = X /\ exists m,
    StoredMarket.world_markets (ex_world X) !! key = Some m /\ StoredMarket.meta m = meta_.
Proof. intros (-> & m & Hm & _ & [= <-])%read_market_ok. eauto. Qed.

Lemma on_lamports_same {A} (m : ST Lamports StoreError A) X X' a : on_ex_lamports m X = (X', Ok a) ->
    Same X X'.
Proof. by intros (l & _ & ->)%szoom_ok. Qed.

Lemma load_ok {A} (k : Kind T A) addr X X' a :
  load k addr X = (X', Ok a) -> X' = X /\ kind_get k X !! addr = Some a.
Proof. by intros [-> H%ok_or_ok]%sread_ok. Qed.

Lemma save_ok {A} (k : Kind T A) `{!KindOk k} addr a X X' u :
  save k addr a X = (X', Ok u) -> ex_world X' = ex_world X /\ Acted k addr (Some a) X X'.
Proof. intros ->%smodify_ok. split; [apply kind_put_world|done]. Qed.

Lemma update_header_ok {A} (k : Kind T A) `{!KindOk k} addr f X X' u :
  update_header k addr f X = (X', Ok u) -> exists a h,
    kind_get k X !! addr = Some a /\ f (header k a) = Ok h
    /\ ex_world X' = ex_world X /\ Acted k addr (Some (with_header k h a)) X X'.
Proof.
  intros Hr. apply sbind_ok in Hr as (? & a & [-> Ha]%load_ok & Hr).
  apply sbind_ok in Hr as (? & h & [-> Hh]%slift_ok & [Hw Hacted]%save_ok); [|done]. by exists a, h.
Qed.

Lemma acted_same {A} (k : Kind T A) `{!KindOk k} addr o X X1 X2 X3 :
  acts X1 = acts X -> Acted k addr o X1 X2 -> acts X3 = acts X2 -> Acted k addr o X X3.
Proof.
  unfold Acted. intros H1 H2 ->. rewrite H2, (kind_get_acts X1 X H1). by apply kind_put_acts.
Qed.

Lemma acted_get {A} (k : Kind T A) `{!KindOk k} addr o X X' :
  Acted k addr o X X' -> kind_get k X' = partial_alter (fun _ => o) addr (kind_get k X).
Proof. intros H%kind_get_acts. by rewrite H, kind_get_put. Qed.

Lemma pay_fee_same {A} (k : Kind T A) seed addr authority fee X X' u :
  pay_fee action_rent k seed addr authority fee X = (X', Ok u) -> Same X X'.
Proof. intros Hr. apply sbind_ok in Hr as (? & a & [-> _]%load_ok & Hr). by eapply on_lamports_same. Qed.

(** An action that is performed is completed or cancelled: when it is cancelled, performing it has
    changed nothing. *)
Lemma execute_operation_ok {A} throw oracle h (perform : StoredMarket.WS A) w w' r :
  Atomic perform -> execute_operation throw oracle h perform w = (w', Ok r) ->
  match r with
  | Some a => perform w = (w', Ok a)
              /\ validate_time (oracle_time h (StoredMarket.world_store w)) oracle = Ok tt
  | None => w' = w /\ throw = false
  end.
Proof.
  intros Hat. unfold execute_operation. destruct (validate_time _ oracle) as [[]|e|]; [| |done].
  - destruct (perform w) as [w1 [a|e|]] eqn:Hp; [by intros [= <- <-]| |done].
    destruct throw; [done|]. intros [= <- <-]. split; [by eapply Hat|done].
  - destruct e as [c| | |]; [destruct c|..]; try done. destruct throw; [done|]. by intros [= <- <-].
Qed.
End Steps.

(** ** Executions *)
Section Executions.
#[local] Existing Instance u128.
Context {F : FixedPointOps u128} {FOk : FixedPointOk F}.
Context {B : Type} {BO : BitmapOps StoredMarket.MAX_FLAGS B} {BL : BitmapLaws StoredMarket.MAX_FLAGS B}.
Context {C : Type} {CO : BitmapOps StoreConfig.MAX_CONFIG_FLAGS C}.
Context {R : Type} {RO : BitmapOps MAX_ROLES R} {RL : BitmapLaws MAX_ROLES R}.
Context {T : Type} {TP : TokenProgram T} {TL : TokenProgramLaws T}.
Context (to_key : bytes -> Z) (this : Pubkey).
Context (vault_address account_mint : Pubkey -> Pubkey) (ata_address : Pubkey -> Pubkey -> Pubkey).
Context (action_address action_bump : ActionSeed -> Pubkey -> Z ->
  Pubkey) (action_rent : ActionSeed -> Z).
Context (first_deposit_receiver native_mint : Pubkey) (token_rent : Z) (store_wallet : Pubkey).
Context (market_token_address : Pubkey -> Pubkey -> Pubkey -> Pubkey).
Implicit Types (w : StoredMarket.World T) (X : Exchange T) (env : Env) (oracle : Oracle.Oracle).
Abbreviation MarketsAt := (StoredMarket.MarketsAt this market_token_address).
Abbreviation WorldStep := (WorldStep this market_token_address).
Abbreviation XStep := (XStep this market_token_address).
#[local] Existing Instance deposits_ok.
#[local] Existing Instance withdrawals_ok.
#[local] Existing Instance shifts_ok.

Lemma unpack_or_ok found market w w' key :
  unpack_or this found market w = (w', Ok key) -> w' = w.
Proof.
  intros Hr. apply sbind_ok in Hr as (? & [k|] & [-> _]%slift_ok & Hr);
    [|by apply sret_ok in Hr as [-> _]].
  by apply sbind_ok in Hr as (? & ? & [-> _]%sread_ok & [-> _]%sret_ok).
Qed.

Lemma with_mint_ok account_ mint f a :
  with_mint account_ mint f = Ok tt -> account_ = Some a -> exists m, mint = Some m /\ f a m = Ok tt.
Proof. intros Hr ->. unfold with_mint in Hr. apply rbind_ok in Hr as (m & ->%ok_or_ok & Hf). by exists
  m. Qed.

Lemma anchor_ok b name : anchor b name = Ok tt -> b = true.
Proof. by destruct b. Qed.

Lemma associated_token_ok env account_ owner mint :
  associated_token ata_address env account_ owner mint = Ok tt ->
  account_ = ata_address owner mint /\ account_state env account_ = OwnedBy owner.
Proof.
  unfold associated_token. destruct (account_state env account_) as [| |o]; [done..|].
  intros Hr. apply rbind_ok in Hr as ([] & H1%anchor_ok & H2%anchor_ok). bool_to_prop. by subst.
Qed.

(** The action at [addr] names a token and an escrow for it, which is the associated token account of the
    action. *)
Record EscrowFor (addr : Pubkey) (self : TokenAndAccount) (mint escrow_ : Pubkey) : Prop := {
  ef_token : token self = Some mint;
  ef_account : account self = Some escrow_;
  ef_escrow : escrow_ = ata_address addr mint;
}.

Lemma world_same_r w X1 X2 dr dh da ds :
  WorldStep w dr dh da ds (ex_world X1) -> Same X1 X2 -> WorldStep w dr dh da ds (ex_world X2).
Proof.
  intros [W1 W2 W3 W4 W5] [Hm Ht _]. rewrite <- Hm in W2, W3. rewrite <- Ht in W4, W5.
  split; try done. intros k m. rewrite Hm. apply W1.
Qed.

(** The signer must have the role. *)
Definition signer_may env (signer : Pubkey) (role : bytes) X : Prop :=
  StoreWf (StoredMarket.world_store (ex_world X)) ->
  May to_key (last_restart_slot env) (StoredMarket.world_store (ex_world X)) signer role.

Lemma only_role_same env signer role X X' u :
  on_store (only_role to_key (last_restart_slot env) signer role) X = (X', Ok u) ->
  Same X X' /\ signer_may env signer role X.
Proof.
  intros Hr. split; [by eapply on_store_same|]. intros Hwf.
  apply szoom_ok in Hr as (w & Hm & _). apply szoom_ok in Hm as (s & Hs & _).
  by apply only_role_ok in Hs as [_ Hs].
Qed.

Lemma token_is_ok self key e : token_is self key e = Ok tt -> token self = Some key.
Proof. intros Hr. apply rbind_ok in Hr as (t & Ht%token_exists_ok & Hk%require_ok). bool_to_prop. by
  subst. Qed.

Lemma account_is_ok self key : account_is self key = Ok tt -> account self = Some key.
Proof. intros Hr. apply rbind_ok in Hr as (t & Ht%expect_ok & Hk%require_ok). bool_to_prop. by
  subst. Qed.

Lemma meta_key X key m mint :
  MarketsAt (ex_world X) -> StoredMarket.world_markets (ex_world X) !! key = Some m ->
  market_token_mint (StoredMarket.meta m) = mint -> mint = key.
Proof. intros Hat Hm <-. by apply Hat in Hm as []. Qed.

(** *** The tokens of a deposit *)

(** What one initial token brings into the records and into the accounts when it is taken in. *)
Definition side_recorded (a : VaultAccounts) (amount : Z) (tok : Pubkey) : Z :=
  match vault_escrow a, vault_mint a with Some _, Some m => pay m amount tok | _, _ => 0 end.
Definition side_moved (a : VaultAccounts) (amount : Z) (k : Pubkey) : Z :=
  match vault_escrow a, vault_mint a with
  | Some e, Some m => moved e (vault_address m) amount k
  | _, _ => 0
  end.

Definition taken_recorded (accts : ExecuteDepositAccounts) (params : DepositActionParams) : Pubkey ->
    Z :=
  plus (side_recorded (xd_long accts) (initial_long_token_amount params))
       (side_recorded (xd_short accts) (initial_short_token_amount params)).
Definition taken_moved (accts : ExecuteDepositAccounts) (params : DepositActionParams) : Pubkey -> Z :=
  plus (side_moved (xd_long accts) (initial_long_token_amount params))
       (side_moved (xd_short accts) (initial_short_token_amount params)).

Lemma check_vault_ok env addr self a :
  check_vault ata_address env addr self a = Ok tt ->
  vault_escrow a = account self
  /\ (forall e, vault_escrow a = Some e -> exists m, vault_token a = Some m /\ e = ata_address addr m
        /\ (forall t, token self = Some t -> t = m))
  /\ (forall v, vault_mint a = Some v -> vault_token a = Some v).
Proof.
  intros Hr. apply rbind_ok in Hr as ([] & He%require_ok%bool_decide_eq_true_1 & Hr).
  apply rbind_ok in Hr as ([] & Ht & Hr). apply rbind_ok in Hr as ([] & Ha & Hv). split_and!;
    [done|intros e He'|intros v Hv'].
  - destruct (with_mint_ok _ _ _ _ Ha He') as (m & Hm & [-> _]%associated_token_ok). exists m.
    split_and!; [done|done|]. intros t Hself. unfold token_matches in Ht. rewrite Hm, Hself in Ht.
    apply require_ok in Ht. bool_to_prop. done.
  - destruct (with_mint_ok _ _ _ _ Hv Hv') as (m & Hm & H1%anchor_ok). bool_to_prop. by subst.
Qed.

Lemma deposit_transfer_in_step p d market remaining a amount w w' u :
  MarketsAt w -> 0 <= amount ->
  deposit_transfer_in this vault_address p d market remaining a amount w = (w', Ok u) ->
  WorldStep w (side_recorded a amount) nothing (side_moved a amount) nothing w'
  /\ (is_Some (vault_escrow a) -> is_Some (vault_mint a)).
Proof.
  intros Hat Hx Hr. unfold deposit_transfer_in in Hr. unfold side_recorded, side_moved.
  destruct (vault_escrow a) as [e|].
  - apply sbind_ok in Hr as (? & key & ->%unpack_or_ok & Hr).
    apply sbind_ok in Hr as (? & m & [-> ->%ok_or_ok]%slift_ok & Hr).
    split; [by eapply transfer_in_step|by eauto].
  - apply sret_ok in Hr as [-> _]. split; [by apply world_step_refl|by intros []].
Qed.

Lemma deposit_transfer_out_step p d market remaining a amount w w' u :
  MarketsAt w -> 0 <= amount -> (forall v, vault_mint a = Some v -> vault_token a = Some v) ->
  deposit_transfer_out this vault_address p d market remaining a amount w = (w', Ok u) ->
  WorldStep w (minus (side_recorded a amount)) nothing (minus (side_moved a amount)) nothing w'.
Proof.
  intros Hat Hx Hv Hr. unfold deposit_transfer_out in Hr. unfold minus, side_recorded, side_moved.
  destruct (vault_escrow a) as [e|].
  - apply sbind_ok in Hr as (? & key & ->%unpack_or_ok & Hr).
    apply sbind_ok in Hr as (? & v & [-> Hm%ok_or_ok]%slift_ok & Hr).
    apply sbind_ok in Hr as (? & m & [-> Ht%ok_or_ok]%slift_ok & Hr).
    rewrite Hm. rewrite (Hv _ Hm) in Ht. injection Ht as <-.
    apply (transfer_out_step _ market_token_address) in Hr; [|done..].
    eapply world_step_eq; [exact Hr|..]; intros k; rewrite ?pay_opp; unfold moved; lia.
  - apply sret_ok in Hr as [-> _]. by apply world_step_refl.
Qed.

(** The result of an execution: the action at [addr] was pending and becomes completed or
    cancelled. *)
Definition Settled {A} (k : Kind T A) (addr : Pubkey) (a : A) (st : ActionState) X X' : Prop :=
  action_state (header k a) = Ok Pending
  /\ Acted k addr (Some (with_header k (set_action_state st (header k a)) a)) X X'.

Lemma settled_ok {A} (k : Kind T A) `{!KindOk k} addr a st (f : ActionHeader ->
    store_result ActionHeader) X X' u :
  (forall h h', f h = Ok h' <-> action_state h = Ok Pending /\ h' = set_action_state st h) ->
  kind_get k X !! addr = Some a -> update_header k addr f X = (X', Ok u) ->
  ex_world X' = ex_world X /\ Settled k addr a st X X'.
Proof.
  intros Hf Ha Hr. apply update_header_ok in Hr as (a' & h & Ha' & [Hp ->]%Hf & Hw & Hacted); [|done].
  assert (a' = a) as -> by congruence. done.
Qed.

Lemma settled_acts {A} (k : Kind T A) `{!KindOk k} addr a st X X1 X2 X3 :
  acts X1 = acts X -> Settled k addr a st X1 X2 -> acts X3 = acts X2 -> Settled k addr a st X X3.
Proof. intros H1 [Hp H2] H3. split; [done|]. by eapply acted_same. Qed.

(** An execution of a deposit: either the tokens went from the escrows into the vaults and
    [x] new market tokens into the escrow for them, or no token has moved. *)
Definition DepositMoved (accts : ExecuteDepositAccounts) (d : Deposit) X X' : Prop :=
  let addr := xd_deposit accts in
  let params := deposit_params d in
  let tokens := deposit_tokens d in
  (exists x dh,
     Settled deposits addr d Completed X X'
     /\ WorldStep (ex_world X) (taken_recorded accts params) dh
          (plus (taken_moved accts params) (at_key (xd_market_token_escrow accts) x))
          (at_key (xd_market accts) x) (ex_world X')
     /\ (forall tok, dh tok = side_in (token (initial_long_token tokens)) (initial_long_token_amount
       params) tok
           + side_in (token (initial_short_token tokens)) (initial_short_token_amount params) tok)
     /\ min_market_token_amount params <= x /\ @in_u u64 x)
  \/ (Settled deposits addr d Cancelled X X'
      /\ WorldStep (ex_world X) nothing nothing nothing nothing (ex_world X')).

Lemma transfer_tokens_in_step d market remaining accts X X' u :
  MarketsAt (ex_world X) -> params_u64 (deposit_params d) ->
  on_world (transfer_tokens (fun p => deposit_transfer_in this vault_address p d market remaining) accts
              (deposit_params d)) X = (X', Ok u) ->
  XStep X (taken_recorded accts (deposit_params d)) nothing (taken_moved accts (deposit_params d))
    nothing X'
  /\ (is_Some (vault_escrow (xd_long accts)) -> is_Some (vault_mint (xd_long accts)))
  /\ (is_Some (vault_escrow (xd_short accts)) -> is_Some (vault_mint (xd_short accts))).
Proof.
  intros Hat [[Hl _] [Hs _]] (w3 & H3 & ->)%szoom_ok. apply sbind_ok in H3 as (w & ? & H1 & H2).
  apply deposit_transfer_in_step in H1 as [H1 ?]; [|done|done].
  apply deposit_transfer_in_step in H2 as [H2 ?]; [|apply H1|done].
  split; [|done]. split; [|done].
  eapply world_step_eq; [by eapply world_step_trans|done| |done|]; intros; unfold plus, nothing; lia.
Qed.

Lemma transfer_tokens_out_step d market remaining accts X X' u :
  MarketsAt (ex_world X) -> params_u64 (deposit_params d) ->
  (forall v, vault_mint (xd_long accts) = Some v -> vault_token (xd_long accts) = Some v) ->
  (forall v, vault_mint (xd_short accts) = Some v -> vault_token (xd_short accts) = Some v) ->
  on_world (transfer_tokens (fun p => deposit_transfer_out this vault_address p d market remaining) accts
              (deposit_params d)) X = (X', Ok u) ->
  XStep X (minus (taken_recorded accts (deposit_params d))) nothing
    (minus (taken_moved accts (deposit_params d))) nothing X'.
Proof.
  intros Hat [[Hl _] [Hs _]] Hvl Hvs (w3 & H3 & ->)%szoom_ok. apply sbind_ok in H3 as (w & ? & H1 & H2).
  apply deposit_transfer_out_step in H1 as H1; [|done..].
  apply deposit_transfer_out_step in H2 as H2; [|apply H1|done..]. split; [|done].
  eapply world_step_eq; [by eapply world_step_trans|..]; intros;
    unfold taken_recorded, taken_moved, plus, minus, nothing; lia.
Qed.

(** The end of an execution of a deposit: [X0] is the state before, and [X] the one with the tokens taken
    in. *)
Lemma deposit_end env accts remaining oracle fee throw d X0 X X' u :
  GoodPrices oracle -> params_u64 (deposit_params d) ->
  check_vault ata_address env (xd_deposit accts) (initial_long_token (deposit_tokens d)) (xd_long
    accts) = Ok tt ->
  check_vault ata_address env (xd_deposit accts) (initial_short_token (deposit_tokens d)) (xd_short
    accts) = Ok tt ->
  ex_deposits X0 !! xd_deposit accts = Some d ->
  XStep X0 (taken_recorded accts (deposit_params d)) nothing (taken_moved accts (deposit_params d))
    nothing X ->
  (do! executed := on_world (execute_operation throw oracle (deposit_header d)
                    (perform_deposit_action this first_deposit_receiver env d (xd_market accts)
                       (xd_market_token_escrow accts) remaining oracle)) in
   do! _ :=
     match executed with
     | Some _ => update_header deposits (xd_deposit accts) completed
     | None =>
         do! _ := update_header deposits (xd_deposit accts) cancelled in
         on_world (transfer_tokens (fun p => deposit_transfer_out this vault_address p d (xd_market
           accts) remaining) accts
                     (deposit_params d))
     end in
   pay_fee action_rent deposits SeedDeposit (xd_deposit accts) (xd_authority accts) fee) X =
     (X', Ok u) ->
  DepositMoved accts d X0 X'.
Proof.
  intros Hgood Hu Hvl Hvs Hd [W A] Hr. apply check_vault_ok in Hvl as (_ & _ & Hvl). apply
    check_vault_ok in Hvs as (_ & _ & Hvs).
  apply sbind_ok in Hr as (X4 & executed & (w4 & H4 & ->)%szoom_ok & Hr).
  apply execute_operation_ok in H4; [|apply perform_deposit_action_atomic].
  apply sbind_ok in Hr as (X5 & ? & H5 & Hfee%pay_fee_same).
  assert (ex_deposits (put_world w4 X) !! xd_deposit accts = Some d) as Hd4.
  { pose proof (kind_get_acts (k := deposits) X X0 A) as E. simpl in *. by rewrite E. }
  destruct executed as [y|]; [left|right].
  - destruct H4 as [H4 _].
    apply (perform_deposit_action_ok _ _ market_token_address) in H4 as (St4 & Hmin & Hx & _);
      [|done|apply W|done].
    apply (settled_ok deposits _ d Completed completed) in H5 as [Hw5 Hset]; [|apply completed_ok|done].
    eexists y, _. split_and!; [eapply (settled_acts deposits); [|exact Hset|apply Hfee];
      exact A| |done|done|done].
    eapply world_same_r; [|exact Hfee]. rewrite Hw5. simpl.
    eapply world_step_eq; [by eapply world_step_trans|..]; intros; unfold plus, nothing; lia.
  - destruct H4 as [-> _]. apply sbind_ok in H5 as (X6 & ? & H5 & H6).
    apply (settled_ok deposits _ d Cancelled cancelled) in H5 as [Hw5 Hset]; [|apply cancelled_ok|done].
    apply transfer_tokens_out_step in H6 as [W6 A6]; [|rewrite Hw5; apply W|done..].
    split; [eapply (settled_acts deposits); [|exact Hset|etransitivity; [apply Hfee|exact A6]];
      exact A|].
    eapply world_same_r; [|exact Hfee]. rewrite Hw5 in W6. simpl in W6.
    eapply world_step_eq; [by eapply world_step_trans|..]; intros; unfold plus, minus, nothing; lia.
Qed.

Lemma execute_deposit_outcome_ok env accts remaining oracle fee throw X X' u :
  GoodPrices oracle -> MarketsAt (ex_world X) ->
  (forall d, ex_deposits X !! xd_deposit accts = Some d -> params_u64 (deposit_params d)) ->
  execute_deposit to_key this vault_address ata_address action_address action_rent
    first_deposit_receiver env
    accts remaining oracle fee throw X = (X', Ok u) ->
  exists d, ex_deposits X !! xd_deposit accts = Some d
    /\ header_market (deposit_header d) = xd_market accts
    /\ xd_market_token accts = xd_market accts
    /\ xd_market_token_escrow accts = ata_address (xd_deposit accts) (xd_market_token accts)
    /\ account (deposit_market_token (deposit_tokens d)) = Some (xd_market_token_escrow accts)
    /\ check_vault ata_address env (xd_deposit accts) (initial_long_token (deposit_tokens d)) (xd_long
      accts) = Ok tt
    /\ check_vault ata_address env (xd_deposit accts) (initial_short_token (deposit_tokens d))
      (xd_short accts) = Ok tt
    /\ (is_Some (vault_escrow (xd_long accts)) -> is_Some (vault_mint (xd_long accts)))
    /\ (is_Some (vault_escrow (xd_short accts)) -> is_Some (vault_mint (xd_short accts)))
    /\ signer_may env (xd_authority accts) RoleKey.ORDER_KEEPER X
    /\ DepositMoved accts d X X'.
Proof.
  intros Hgood Hat Hu Hr. unfold execute_deposit in Hr.
  apply sbind_ok in Hr as (? & meta_ & (-> & m & Hm & <-)%market_meta_ok & Hr).
  apply sbind_ok in Hr as (? & d & [-> Hd]%load_ok & Hr). specialize (Hu d Hd). destruct Hu as [Hu1 Hu2].
  apply sbind_ok in Hr as (? & [] & [-> Hck]%slift_ok & Hr).
  apply rbind_ok in Hck as ([] & Hmk%require_ok%Z.eqb_eq & Hck).
  apply rbind_ok in Hck as ([] & _ & Hck). apply rbind_ok in Hck as ([] & Hac & Hck).
  apply rbind_ok in Hck as ([] & Hkey%require_ok%Z.eqb_eq & Hck).
  apply (meta_key _ _ _ _ Hat Hm) in Hkey.
  apply rbind_ok in Hck as ([] & [Hesc _]%associated_token_ok & Hck). apply rbind_ok in Hck as ([] &
    Hvl & Hck).
  apply rbind_ok in Hck as ([] & Hvs & _).
  apply rbind_ok in Hac as (e & He%expect_ok & Hac%require_ok). apply Z.eqb_eq in Hac as ->.
  apply sbind_ok in Hr as (X1 & ? & [S1 Hmay]%only_role_same & Hr).
  apply sbind_ok in Hr as (X2 & ? & S2%on_store_same & Hr).
  pose proof (same_trans _ _ _ S1 S2) as S12. clear S1 S2 X1.
  pose proof (same_at _ market_token_address _ _ S12 Hat) as Hat2.
  apply sbind_ok in Hr as (X3 & ? & H3 & Hr).
  apply transfer_tokens_in_step in H3 as (St3 & Hil & His); [|done..].
  exists d. split_and!; try done.
  eapply deposit_end; [done|done|exact Hvl|exact Hvs|exact Hd|by eapply xstep_same_l|exact Hr].
Qed.
(** *** Withdrawals and shifts *)

(** The market tokens are taken out of the escrow and burnt, and the vaults pay the outputs into the
    escrows; or no token has moved. *)
Definition WithdrawalMoved (accts : ExecuteWithdrawalAccounts) (d : Withdrawal) X X' : Prop :=
  let addr := xw_withdrawal accts in
  let params := withdrawal_params d in
  let amount := market_token_amount params in
  let long := xw_final_long_token accts in
  let short := xw_final_short_token accts in
  (exists x y,
     let paid tok := - pay long x tok - pay short y tok in
     Settled withdrawals addr d Completed X X'
     /\ WorldStep (ex_world X) paid paid
          (plus (at_key (xw_market_token_escrow accts) (- amount))
             (plus (moved (vault_address long) (xw_final_long_token_escrow accts) x)
                (moved (vault_address short) (xw_final_short_token_escrow accts) y)))
          (at_key (xw_market accts) (- amount)) (ex_world X')
     /\ min_long_token_amount params <= x /\ min_short_token_amount params <= y
     /\ @in_u u64 x /\ @in_u u64 y)
  \/ (Settled withdrawals addr d Cancelled X X'
      /\ WorldStep (ex_world X) nothing nothing nothing nothing (ex_world X')).

Lemma withdrawal_transfer_out_step p d market remaining escrow_ mint amount w w' u :
  MarketsAt w -> 0 <= amount ->
  withdrawal_transfer_out this vault_address p d market remaining escrow_ mint amount w = (w', Ok u) ->
  WorldStep w (pay mint (- amount)) nothing (moved (vault_address mint) escrow_ amount) nothing w'.
Proof.
  intros Hat Hx Hr. unfold withdrawal_transfer_out in Hr. destruct (Z.eqb_spec amount 0) as [->|Hne].
  - apply sret_ok in Hr as [-> _]. eapply world_step_eq; [by apply world_step_refl|..]; intros k;
      unfold nothing, moved; rewrite ?at_key_0, ?pay_opp, ?pay_0; lia.
  - apply sbind_ok in Hr as (? & key & ->%unpack_or_ok & Hr).
    by apply (transfer_out_step _ market_token_address) in Hr.
Qed.


(** The accounts that an execution is given are those that the withdrawal names. *)
Record WithdrawalAccounts (accts : ExecuteWithdrawalAccounts) (d : Withdrawal) : Prop := {
  wa_market : header_market (withdrawal_header d) = xw_market accts;
  wa_burnt : EscrowFor (xw_withdrawal accts) (withdrawal_market_token (withdrawal_tokens d))
    (xw_market_token accts) (xw_market_token_escrow accts);
  wa_long : EscrowFor (xw_withdrawal accts) (final_long_token (withdrawal_tokens d))
    (xw_final_long_token accts) (xw_final_long_token_escrow accts);
  wa_short : EscrowFor (xw_withdrawal accts) (final_short_token (withdrawal_tokens d))
    (xw_final_short_token accts) (xw_final_short_token_escrow accts);
}.

Lemma on_tokens_transfer_step from to x X X' u :
  MarketsAt (ex_world X) -> 0 <= x -> on_tokens (transfer from to x) X = (X', Ok u) ->
  XStep X nothing nothing (moved from to x) nothing X'.
Proof. intros Hat Hx (w & Hw & ->)%szoom_ok. split; [by eapply transfer_step|done]. Qed.

Lemma execute_withdrawal_ok env accts remaining oracle fee throw X X' u :
  GoodPrices oracle -> MarketsAt (ex_world X) ->
  (forall d, ex_withdrawals X !! xw_withdrawal accts = Some d ->
    @in_u u64 (market_token_amount (withdrawal_params d))) ->
  execute_withdrawal to_key this vault_address ata_address action_rent env accts remaining oracle fee
    throw X
    = (X', Ok u) ->
  exists d, ex_withdrawals X !! xw_withdrawal accts = Some d
    /\ WithdrawalAccounts accts d
    /\ signer_may env (xw_authority accts) RoleKey.ORDER_KEEPER X
    /\ WithdrawalMoved accts d X X'.
Proof.
  intros Hgood Hat Hu Hr. unfold execute_withdrawal in Hr.
  apply sbind_ok in Hr as (? & meta_ & (-> & _)%market_meta_ok & Hr).
  apply sbind_ok in Hr as (? & d & [-> Hd]%load_ok & Hr). specialize (Hu d Hd).
  apply sbind_ok in Hr as (? & [] & [-> Hck]%slift_ok & Hr).
  apply rbind_ok in Hck as ([] & Hmk%require_ok%Z.eqb_eq & Hck). apply rbind_ok in Hck as ([] & _ & Hck).
  apply rbind_ok in Hck as ([] & A0%account_is_ok & Hck). apply rbind_ok in Hck as ([] &
    A1%account_is_ok & Hck).
  apply rbind_ok in Hck as ([] & A2%account_is_ok & Hck). apply rbind_ok in Hck as ([] &
    T0%token_is_ok & Hck).
  apply rbind_ok in Hck as ([] & Hlong%token_is_ok & Hck). apply rbind_ok in Hck as ([] &
    Hshort%token_is_ok & Hck).
  apply rbind_ok in Hck as ([] & [He _]%associated_token_ok & Hck).
  apply rbind_ok in Hck as ([] & [He1 _]%associated_token_ok & [He2 _]%associated_token_ok).
  apply sbind_ok in Hr as (X1 & ? & [S1 Hmay]%only_role_same & Hr).
  apply sbind_ok in Hr as (X2 & ? & S2%on_store_same & Hr).
  pose proof (same_trans _ _ _ S1 S2) as S12. clear S1 S2 X1.
  pose proof (same_at _ market_token_address _ _ S12 Hat) as Hat2.
  set (amount := market_token_amount (withdrawal_params d)) in *.
  apply sbind_ok in Hr as (X3 & ? & H3%on_tokens_transfer_step & Hr); [|done|apply Hu].
  pose proof (xstep_same_l _ _ _ _ _ _ _ _ _ S12 H3) as [W A]. clear H3 S12 Hat2 X2.
  exists d. split_and!; try done.
  apply sbind_ok in Hr as (X4 & executed & (w4 & H4 & ->)%szoom_ok & Hr).
  apply execute_operation_ok in H4; [|apply perform_withdrawal_atomic].
  apply sbind_ok in Hr as (X5 & ? & H5 & Hfee%pay_fee_same).
  assert (ex_withdrawals (put_world w4 X3) !! xw_withdrawal accts = Some d) as Hd4.
  { pose proof (kind_get_acts (k := withdrawals) X3 X A) as E. simpl in *. by rewrite E. }
  destruct executed as [[y1 y2]|]; [left|right].
  - destruct H4 as [H4 _].
    apply (perform_withdrawal_ok _ _ market_token_address) in H4 as (l & sh & Hl & Hs & St4 & Hm1 &
      Hm2 & Hu1 & Hu2);
      [|done|apply W|done].
    rewrite Hlong in Hl. injection Hl as <-. rewrite Hshort in Hs. injection Hs as <-.
    apply sbind_ok in H5 as (X6 & ? & H5 & H6).
    apply (settled_ok withdrawals _ d Completed completed) in H5 as [Hw5 Hset];
      [|apply completed_ok|done].
    apply szoom_ok in H6 as (w6 & H6 & ->). apply sbind_ok in H6 as (w7 & ? & H6 & H7). simpl in Hm1,
      Hm2, Hu1, Hu2.
    apply withdrawal_transfer_out_step in H6; [|rewrite Hw5; apply St4|apply Hu1].
    apply withdrawal_transfer_out_step in H7; [|apply H6|apply Hu2].
    rewrite Hw5 in H6. simpl in *.
    exists y1, y2. split_and!; [eapply (settled_acts withdrawals); [|exact Hset|apply Hfee];
      exact A| |done..].
    eapply world_same_r; [|exact Hfee]. simpl.
    eapply world_step_eq; [eapply world_step_trans; [exact W|];
      eapply world_step_trans; [exact St4|]; by eapply world_step_trans| | | |]; intros;
        unfold plus, nothing, moved; simpl;
      fold amount; [rewrite !pay_opp|rewrite ?pay_opp|rewrite !at_key_opp|]; lia.
  - destruct H4 as [-> _]. apply sbind_ok in H5 as (X6 & ? & H5 & H6).
    apply (settled_ok withdrawals _ d Cancelled cancelled) in H5 as [Hw5 Hset];
      [|apply cancelled_ok|done].
    apply on_tokens_transfer_step in H6 as [W6 A6]; [|rewrite Hw5; apply W|apply Hu].
    split; [eapply (settled_acts withdrawals); [|exact Hset|etransitivity; [apply Hfee|exact A6]];
      exact A|].
    eapply world_same_r; [|exact Hfee]. rewrite Hw5 in W6. simpl in W6.
    eapply world_step_eq; [by eapply world_step_trans|..]; intros; unfold plus, moved, nothing; lia.
Qed.

(** The market tokens of one market are burnt, and market tokens of the other one are minted into the
    escrow; no other token has moved. *)
Definition ShiftMoved (accts : ExecuteShiftAccounts) (d : Shift) X X' : Prop :=
  let addr := xs_shift accts in
  let amount := from_market_token_amount (shift_params d) in
  (exists x,
     Settled shifts addr d Completed X X'
     /\ WorldStep (ex_world X) nothing nothing
          (plus (at_key (xs_from_market_token_escrow accts) (- amount)) (at_key
            (xs_to_market_token_escrow accts) x))
          (plus (at_key (xs_from_market accts) (- amount)) (at_key (xs_to_market accts) x)) (ex_world X')
     /\ xs_from_market accts <> xs_to_market accts
     /\ min_to_market_token_amount (shift_params d) <= x /\ @in_u u64 x)
  \/ (Settled shifts addr d Cancelled X X'
      /\ WorldStep (ex_world X) nothing nothing nothing nothing (ex_world X')).

(** The accounts that an execution is given are those that the shift names. *)
Record ShiftAccounts (accts : ExecuteShiftAccounts) (d : Shift) : Prop := {
  sa_market : header_market (shift_header d) = xs_from_market accts;
  sa_from : EscrowFor (xs_shift accts) (from_market_token (shift_tokens d))
    (xs_from_market_token accts) (xs_from_market_token_escrow accts);
  sa_to : EscrowFor (xs_shift accts) (to_market_token (shift_tokens d))
    (xs_to_market_token accts) (xs_to_market_token_escrow accts);
  sa_from_key : xs_from_market_token accts = xs_from_market accts;
  sa_to_key : xs_to_market_token accts = xs_to_market accts;
}.

Lemma check_shift_market_ok d meta_ mint :
  check_shift_market d meta_ mint = Ok tt -> market_token_mint meta_ = mint.
Proof. by intros ([] & ?%require_ok%Z.eqb_eq & _)%rbind_ok. Qed.

Lemma execute_shift_ok env accts oracle fee throw X X' u :
  GoodPrices oracle -> MarketsAt (ex_world X) ->
  (forall d, ex_shifts X !! xs_shift accts = Some d -> @in_u u64 (from_market_token_amount
    (shift_params d))) ->
  execute_shift to_key this vault_address ata_address action_rent first_deposit_receiver env accts
    oracle fee throw X
    = (X', Ok u) ->
  exists d, ex_shifts X !! xs_shift accts = Some d
    /\ ShiftAccounts accts d
    /\ signer_may env (xs_authority accts) RoleKey.ORDER_KEEPER X
    /\ ShiftMoved accts d X X'.
Proof.
  intros Hgood Hat Hu Hr. unfold execute_shift in Hr.
  apply sbind_ok in Hr as (? & d & [-> Hd]%load_ok & Hr). specialize (Hu d Hd).
  apply sbind_ok in Hr as (? & m1 & (-> & mk1 & Hk1 & <-)%market_meta_ok & Hr).
  apply sbind_ok in Hr as (? & m2 & (-> & mk2 & Hk2 & <-)%market_meta_ok & Hr).
  apply sbind_ok in Hr as (? & [] & [-> Hck]%slift_ok & Hr).
  apply rbind_ok in Hck as ([] & K1%check_shift_market_ok & Hck).
  apply rbind_ok in Hck as ([] & K2%check_shift_market_ok & Hck).
  apply (meta_key _ _ _ _ Hat Hk1) in K1. apply (meta_key _ _ _ _ Hat Hk2) in K2.
  apply rbind_ok in Hck as ([] & _ & Hck). apply rbind_ok in Hck as ([] & Hmk%require_ok%Z.eqb_eq & Hck).
  apply rbind_ok in Hck as ([] & A0%account_is_ok & Hck). apply rbind_ok in Hck as ([] &
    A1%account_is_ok & Hck).
  apply rbind_ok in Hck as ([] & T0%token_is_ok & Hck). apply rbind_ok in Hck as ([] &
    T1%token_is_ok & Hck).
  apply rbind_ok in Hck as ([] & [He _]%associated_token_ok & [He1 _]%associated_token_ok).
  apply sbind_ok in Hr as (X1 & ? & [S1 Hmay]%only_role_same & Hr).
  apply sbind_ok in Hr as (X2 & ? & S2%on_store_same & Hr).
  pose proof (same_trans _ _ _ S1 S2) as S12. clear S1 S2 X1.
  pose proof (same_at _ market_token_address _ _ S12 Hat) as Hat2.
  set (amount := from_market_token_amount (shift_params d)) in *.
  apply sbind_ok in Hr as (X3 & ? & H3%on_tokens_transfer_step & Hr); [|done|apply Hu].
  pose proof (xstep_same_l _ _ _ _ _ _ _ _ _ S12 H3) as [W A]. clear H3 S12 Hat2 X2.
  exists d. split_and!; try done.
  apply sbind_ok in Hr as (X4 & executed & (w4 & H4 & ->)%szoom_ok & Hr).
  apply execute_operation_ok in H4; [|apply perform_shift_atomic].
  apply sbind_ok in Hr as (X5 & ? & H5 & Hfee%pay_fee_same).
  assert (ex_shifts (put_world w4 X3) !! xs_shift accts = Some d) as Hd4.
  { pose proof (kind_get_acts (k := shifts) X3 X A) as E. simpl in *. by rewrite E. }
  destruct executed as [y|]; [left|right].
  - destruct H4 as [H4 _].
    apply (perform_shift_ok _ _ market_token_address) in H4 as (Hne & St4 & Hmin & Hy);
      [|done|apply W|done].
    apply (settled_ok shifts _ d Completed completed) in H5 as [Hw5 Hset]; [|apply completed_ok|done].
    exists y. split_and!; [eapply (settled_acts shifts); [|exact Hset|apply Hfee]; exact A| |done..].
    eapply world_same_r; [|exact Hfee]. rewrite Hw5. simpl.
    eapply world_step_eq; [eapply world_step_trans; [exact W|exact St4]|..]; intros;
      unfold plus, nothing, moved;
      fold amount; rewrite ?at_key_opp; lia.
  - destruct H4 as [-> _]. apply sbind_ok in H5 as (X6 & ? & H5 & H6).
    apply (settled_ok shifts _ d Cancelled cancelled) in H5 as [Hw5 Hset]; [|apply cancelled_ok|done].
    apply on_tokens_transfer_step in H6 as [W6 A6]; [|rewrite Hw5; apply W|apply Hu].
    split; [eapply (settled_acts shifts); [|exact Hset|etransitivity; [apply Hfee|exact A6]]; exact A|].
    eapply world_same_r; [|exact Hfee]. rewrite Hw5 in W6. simpl in W6.
    eapply world_step_eq; [by eapply world_step_trans|..]; intros; unfold plus, moved, nothing; lia.
Qed.

(** *** The outcomes, as the actions name their tokens

    An execution is given its accounts by the keeper. Whatever they are, what moves is what the
    action says: its tokens, out of and into the associated token accounts of the action. *)

(** An initial token of the deposit at [addr]: the deposit has an escrow for it, and it brings nothing of a
    token it does not name. *)
Record InitialToken (addr : Pubkey) (self : TokenAndAccount) (amount : Z) : Prop := {
  it_escrow : account self = ata_address addr <$> token self;
  it_none : token self = None -> amount = 0;
}.

(** What moves out of the escrow into the vault of the token. *)
Definition initial_moved (addr : Pubkey) (self : TokenAndAccount) (amount : Z) (k : Pubkey) : Z :=
  match token self with
  | Some m => moved (ata_address addr m) (vault_address m) amount k
  | None => 0
  end.

(** The tokens that a deposit brings. *)
Definition taken (d : Deposit) (tok : Pubkey) : Z :=
  side_in (token (initial_long_token (deposit_tokens d))) (initial_long_token_amount (deposit_params d)) tok
  + side_in (token (initial_short_token (deposit_tokens d))) (initial_short_token_amount
      (deposit_params d)) tok.

(** An execution of the deposit [d] at [addr]: either what it brings went from its escrows into the vaults,
    the records and the pools, and new market tokens of its market into its escrow for them; or no token
    has moved. *)
Definition DepositOutcome (addr : Pubkey) (d : Deposit) X X' : Prop :=
  let market := header_market (deposit_header d) in
  let tokens := deposit_tokens d in
  let params := deposit_params d in
  InitialToken addr (initial_long_token tokens) (initial_long_token_amount params)
  /\ InitialToken addr (initial_short_token tokens) (initial_short_token_amount params)
  /\ account (deposit_market_token tokens) = Some (ata_address addr market)
  /\ ((exists x,
         Settled deposits addr d Completed X X'
         /\ WorldStep (ex_world X) (taken d) (taken d)
              (plus (plus (initial_moved addr (initial_long_token tokens) (initial_long_token_amount
                       params))
                     (initial_moved addr (initial_short_token tokens) (initial_short_token_amount
                       params)))
                 (at_key (ata_address addr market) x))
              (at_key market x) (ex_world X')
         /\ min_market_token_amount params <= x /\ @in_u u64 x)
      \/ (Settled deposits addr d Cancelled X X'
          /\ WorldStep (ex_world X) nothing nothing nothing nothing (ex_world X'))).

(** How an initial token is stored: with its escrow, or not at all. *)
Definition StoredSide (self : TokenAndAccount) (amount : Z) : Prop :=
  match account self with
  | Some _ => is_Some (token self)
  | None => token self = None /\ amount = 0
  end.
Definition StoredSides (d : Deposit) : Prop :=
  StoredSide (initial_long_token (deposit_tokens d)) (initial_long_token_amount (deposit_params d))
  /\ StoredSide (initial_short_token (deposit_tokens d)) (initial_short_token_amount
       (deposit_params d)).

Lemma stored_side env addr self amount a :
  StoredSide self amount -> check_vault ata_address env addr self a = Ok tt ->
  (is_Some (vault_escrow a) -> is_Some (vault_mint a)) ->
  InitialToken addr self amount
  /\ (forall tok, side_recorded a amount tok = side_in (token self) amount tok)
  /\ (forall k, side_moved a amount k = initial_moved addr self amount k).
Proof.
  unfold StoredSide, side_recorded, side_moved, initial_moved. intros Hs (E & He & Hv)%check_vault_ok Hm.
  rewrite <- E in Hs. destruct (vault_escrow a) as [e|].
  - destruct (He e eq_refl) as (m & Hm' & -> & Ht). destruct Hs as [t Hself].
    pose proof (Ht _ Hself) as ->. destruct Hm as [v Hv']; [done|]. pose proof (Hv _ Hv') as Hvm.
    assert (v = m) as -> by congruence. rewrite Hv', Hself. split_and!; [|done|done].
    split; [by rewrite <- E, Hself|by rewrite Hself].
  - destruct Hs as [Hself ->]. rewrite Hself. split_and!; [|done|done].
    split; [by rewrite <- E, Hself|done].
Qed.

Lemma execute_deposit_stored env accts remaining oracle fee throw X X' u :
  GoodPrices oracle -> MarketsAt (ex_world X) ->
  (forall d, ex_deposits X !! xd_deposit accts = Some d -> params_u64 (deposit_params d)
     /\ StoredSides d) ->
  execute_deposit to_key this vault_address ata_address action_address action_rent
    first_deposit_receiver env accts remaining oracle fee throw X = (X', Ok u) ->
  exists d, ex_deposits X !! xd_deposit accts = Some d
    /\ signer_may env (xd_authority accts) RoleKey.ORDER_KEEPER X
    /\ DepositOutcome (xd_deposit accts) d X X'.
Proof.
  intros Hg Hat Hd Hr. apply execute_deposit_outcome_ok in Hr
    as (d & Hl & Hmk & Hkey & He & Ha & V1 & V2 & M1 & M2 & Hmay & Hout); [|done|done|by apply Hd].
  exists d. split_and!; [done|done|]. destruct (Hd d Hl) as [_ [S1 S2]].
  destruct (stored_side _ _ _ _ _ S1 V1 M1) as (I1 & R1 & K1).
  destruct (stored_side _ _ _ _ _ S2 V2 M2) as (I2 & R2 & K2).
  unfold DepositOutcome. rewrite Hmk. rewrite Hkey in He. rewrite He in Ha. split_and!; [done|done|done|].
  destruct Hout as [(x & dh & Hset & Hs & Hdh & Hmin & Hx)|Hout]; [left|by right].
  exists x. split_and!; [done| |done|done].
  eapply world_step_eq; [exact Hs| |exact Hdh| |done]; intros k; unfold taken_recorded, taken_moved,
    taken, plus; rewrite ?R1, ?R2, ?K1, ?K2, ?He; done.
Qed.

(** An execution of the withdrawal [d] at [addr]: the market tokens are taken out of its escrow and burnt,
    and the vaults pay the outputs into its escrows for the final tokens; or no token has moved. *)
Definition WithdrawalOutcome (addr : Pubkey) (d : Withdrawal) X X' : Prop :=
  let market := header_market (withdrawal_header d) in
  let tokens := withdrawal_tokens d in
  let params := withdrawal_params d in
  let amount := market_token_amount params in
  exists market_token long short escrow_ long_escrow short_escrow,
  EscrowFor addr (withdrawal_market_token tokens) market_token escrow_
  /\ EscrowFor addr (final_long_token tokens) long long_escrow
  /\ EscrowFor addr (final_short_token tokens) short short_escrow
  /\ ((exists x y,
         let paid tok := - pay long x tok - pay short y tok in
         Settled withdrawals addr d Completed X X'
         /\ WorldStep (ex_world X) paid paid
              (plus (at_key escrow_ (- amount))
                 (plus (moved (vault_address long) long_escrow x)
                    (moved (vault_address short) short_escrow y)))
              (at_key market (- amount)) (ex_world X')
         /\ min_long_token_amount params <= x /\ min_short_token_amount params <= y
         /\ @in_u u64 x /\ @in_u u64 y)
      \/ (Settled withdrawals addr d Cancelled X X'
          /\ WorldStep (ex_world X) nothing nothing nothing nothing (ex_world X'))).

Lemma withdrawal_outcome accts d X X' :
  WithdrawalAccounts accts d -> WithdrawalMoved accts d X X' ->
  WithdrawalOutcome (xw_withdrawal accts) d X X'.
Proof.
  intros [Hmk A0 A1 A2] Hout. unfold WithdrawalOutcome. rewrite Hmk.
  exists (xw_market_token accts), (xw_final_long_token accts), (xw_final_short_token accts),
    (xw_market_token_escrow accts), (xw_final_long_token_escrow accts), (xw_final_short_token_escrow accts).
  split_and!; [done..|]. exact Hout.
Qed.

(** An execution of the shift [d] at [addr]: the market tokens of its market are taken out of its escrow and
    burnt, and market tokens of the other market are minted into its escrow for them; no other token has
    moved. *)
Definition ShiftOutcome (addr : Pubkey) (d : Shift) X X' : Prop :=
  let amount := from_market_token_amount (shift_params d) in
  exists from to from_escrow to_escrow,
  EscrowFor addr (from_market_token (shift_tokens d)) from from_escrow
  /\ EscrowFor addr (to_market_token (shift_tokens d)) to to_escrow
  /\ from = header_market (shift_header d)
  /\ ((exists x,
         Settled shifts addr d Completed X X'
         /\ WorldStep (ex_world X) nothing nothing
              (plus (at_key from_escrow (- amount)) (at_key to_escrow x))
              (plus (at_key from (- amount)) (at_key to x)) (ex_world X')
         /\ from <> to /\ min_to_market_token_amount (shift_params d) <= x /\ @in_u u64 x)
      \/ (Settled shifts addr d Cancelled X X'
          /\ WorldStep (ex_world X) nothing nothing nothing nothing (ex_world X'))).

Lemma shift_outcome accts d X X' :
  ShiftAccounts accts d -> ShiftMoved accts d X X' -> ShiftOutcome (xs_shift accts) d X X'.
Proof.
  intros [Hmk A0 A1 K0 K1] Hout. unfold ShiftOutcome. rewrite Hmk.
  exists (xs_from_market_token accts), (xs_to_market_token accts),
    (xs_from_market_token_escrow accts), (xs_to_market_token_escrow accts).
  split_and!; [done..|]. rewrite K0, K1. exact Hout.
Qed.
End Executions.

End ExchangeFacts.
