(* ===== verification/Lifecycle.v ===== *)
(** * The life of an action

    A deposit, a withdrawal or a shift is created by its owner, settled once by a keeper, and closed
    by its owner or, when it is settled, by a keeper ([Stage]). This file says what the creations and the
    closings of [Exchange] do to the tokens and to the actions, as [ExchangeFacts] does for the
    executions, and puts them together: the life of an action, and the invariant of the exchange
    over every history. *)
From stdpp Require Import gmap sets.
From S2P Require Import Prelude.
From S2P Require Import Kinds.
From S2P Require Import Num.
From S2P Require Import Fixed.
From S2P Require Import Price.
From S2P Require Import Params.
From S2P Require Import Pool.
From S2P Require Import Market.
From S2P Require Import Revertible.
From S2P Require Import CoreErrors.
From S2P Require Import MapSum.
From S2P Require Import Flags.
From S2P Require Import Roles.
From S2P Require Import TokenConfig.
From S2P Require Import Oracle.
From S2P Require Import Users.
From S2P Require Import StoreState.
From S2P Require Import SwapPath.
From S2P Require Import Config.
From S2P Require Import Tokens.
From S2P Require Import MarketAccount.
From S2P Require Import MarketOps.
From S2P Require Import Actions.
From S2P Require Import Exchange.
From S2P Require Import ExchangeFacts.
Import OnChain.
#[local] Open Scope Z_scope.

Module Lifecycle.
Import MarketOps Actions Exchange ExchangeFacts.

(** ** Creations *)
Section Creations.
#[local] Existing Instance u128.
Context {F : FixedPointOps u128} {FOk : FixedPointOk F}.
Context {B : Type} {BO : BitmapOps StoredMarket.MAX_FLAGS B} {BL : BitmapLaws StoredMarket.MAX_FLAGS B}.
Context {C : Type} {CO : BitmapOps StoreConfig.MAX_CONFIG_FLAGS C}.
Context {R : Type} {RO : BitmapOps MAX_ROLES R} {RL : BitmapLaws MAX_ROLES R}.
Context {T : Type} {TP : TokenProgram T} {TL : TokenProgramLaws T}.
Context (to_key : bytes -> Z) (this : Pubkey).
Context (vault_address account_mint : Pubkey -> Pubkey) (ata_address : Pubkey -> Pubkey -> Pubkey).
Context (action_address action_bump : ActionSeed -> Pubkey -> Z ->
  Pubkey) (action_rent : ActionSeed -> Z).
Context (first_deposit_receiver native_mint : Pubkey) (token_rent : Z) (store_wallet : Pubkey).
Context (market_token_address : Pubkey -> Pubkey -> Pubkey -> Pubkey).
Implicit Types (w : StoredMarket.World T) (X : Exchange T) (env : Env).
Abbreviation MarketsAt := (StoredMarket.MarketsAt this market_token_address).
Abbreviation WorldStep := (WorldStep this market_token_address).
Abbreviation XStep := (XStep this market_token_address).
#[local] Existing Instance deposits_ok.
#[local] Existing Instance withdrawals_ok.
#[local] Existing Instance shifts_ok.

Lemma init_account_ok {A} (k : Kind T A) addr p rent X X' u :
  init_account k addr p rent X = (X', Ok u) -> Same X X' /\ kind_get k X !! addr = None.
Proof.
  intros Hr. apply sbind_ok in Hr as (? & ? & [-> Hn]%sread_ok & Hr).
  apply sbind_ok in Hr as (? & b & [-> _]%sread_ok & Hr).
  split; [by eapply on_lamports_same|]. by destruct (kind_get k X !! addr).
Qed.

Lemma init_ata_same env p a o m X X' u :
  init_ata_if_needed ata_address token_rent env p a o m X = (X', Ok u) -> Same X X'.
Proof.
  unfold init_ata_if_needed. destruct (account_state env a); [|by intros [-> _]%slift_ok..].
  intros Hr. apply sbind_ok in Hr as (? & ? & [-> _]%slift_ok & Hr). by eapply on_lamports_same.
Qed.

Lemma start_create_same env d a p l X X' u : start_create env d a p l X = (X', Ok u) -> Same X X'.
Proof.
  intros Hr. apply sbind_ok in Hr as (X1 & ? & H1%on_store_same & Hr).
  apply sbind_ok in Hr as (X2 & ? & H2%on_store_same & H3%on_lamports_same).
  eapply same_trans; [exact H1|by eapply same_trans].
Qed.

Lemma user_transfer_step env signer from to x X X' u :
  MarketsAt (ex_world X) -> 0 <= x -> user_transfer env signer from to x X = (X', Ok u) ->
  XStep X nothing nothing (moved from to x) nothing X' /\ may_spend env from signer = true.
Proof.
  intros Hat Hx Hr. apply sbind_ok in Hr as (? & [] & [-> Hm%anchor_ok]%slift_ok & Hr).
  split; [by eapply on_tokens_transfer_step|done].
Qed.

(** What moves from a source into an escrow. *)
Definition sourced (a : SourceAccounts) (amount : Z) (k : Pubkey) : Z :=
  match source_account a, source_escrow a with Some s, Some e => moved s e amount k | _, _ => 0 end.

(** Tokens that a signer may move, into an escrow. *)
Definition may_source env (signer : Pubkey) (a : SourceAccounts) (amount : Z) : Prop :=
  forall s, source_account a = Some s -> amount <> 0 -> may_spend env s signer = true.

Lemma moved_0 from to k : moved from to 0 k = 0.
Proof. unfold moved. rewrite !at_key_0. lia. Qed.

Lemma transfer_from_source_step env owner a amount X X' u :
  MarketsAt (ex_world X) -> 0 <= amount -> transfer_from_source env owner a amount X = (X', Ok u) ->
  XStep X nothing nothing (sourced a amount) nothing X' /\ may_source env owner a amount.
Proof.
  intros Hat Hx Hr. unfold transfer_from_source in Hr. unfold sourced, may_source.
  destruct (Z.eqb_spec amount 0) as [->|Hne].
  - apply sret_ok in Hr as [-> _]. split; [|done]. split; [|done].
    eapply world_step_eq; [by apply world_step_refl|done|done| |done]. intros k.
    unfold nothing. destruct (source_account a), (source_escrow a); by rewrite ?moved_0.
  - apply sbind_ok in Hr as (? & s & [-> Hs%ok_or_ok]%slift_ok & Hr).
    apply sbind_ok in Hr as (? & e & [-> He%ok_or_ok]%slift_ok & Hr).
    apply sbind_ok in Hr as (? & ? & [-> _]%slift_ok & Hr).
    apply user_transfer_step in Hr as [Hr Hm]; [|done..]. rewrite Hs, He. split; [done|].
    by intros s' [= <-] _.
Qed.

Lemma read_same {A} (f : Exchange T -> store_result A) X X' a : sread f X = (X', Ok a) -> X' = X.
Proof. by intros [-> _]%sread_ok. Qed.

Lemma validate_escrow_ok a amount X X' u :
  validate_escrow a amount X = (X', Ok u) -> X' = X /\
  (forall e, source_escrow a = Some e -> amount <= amount_of (tokens_of (ex_world X)) e \/ amount = 0)
  /\ (amount <> 0 -> is_Some (source_escrow a)).
Proof.
  unfold validate_escrow. destruct (Z.eqb_spec amount 0) as [->|Hne]; [intros [-> _]%sret_ok;
    split_and!; auto; by intros|].
  intros Hr. apply sbind_ok in Hr as (? & e & [-> He%ok_or_ok]%slift_ok & Hr).
  apply sbind_ok in Hr as (? & x & [-> [= <-]]%sread_ok & [-> Hx%require_gte_ok]%slift_ok).
  split_and!; [done| |by rewrite He]. intros e'. rewrite He. intros [= <-]. by left.
Qed.

Lemma header_init_ok now_ slot_ id store_ market owner receiver_ nonce bump_ l unwrap self h :
  header_init (BO := BO) now_ slot_ id store_ market owner receiver_ nonce bump_ l unwrap self = Ok h ->
  header_action_state h = header_action_state self /\ header_store h = store_ /\ header_market h = market
  /\ header_owner h = owner /\ header_nonce h = nonce /\ header_id h = id /\ header_rent_receiver h =
    owner
  /\ Actions.receiver h = receiver_ /\ updated_at h = now_ /\ updated_at_slot h = slot_
  /\ max_execution_lamports h = l.
Proof.
  intros Hr. apply rbind_ok in Hr as ([] & Hreq%require_ok%bool_decide_eq_true_1 & [= <-]).
  split_and!; try done. unfold Actions.receiver. simpl. unfold optional_address in *.
  destruct (receiver_ =? DEFAULT_PUBKEY); [by destruct Hreq|done].
Qed.

Lemma new_header_ok env next seed market owner receiver_ nonce l unwrap X X' h :
  MarketsAt (ex_world X) -> 
  new_header (BO := BO) this action_bump env next seed market owner receiver_ nonce l unwrap X =
    (X', Ok h) ->
  XStep X nothing nothing nothing nothing X'
  /\ action_state h = Ok Pending /\ header_store h = this /\ header_market h = market
  /\ header_owner h = owner /\ header_nonce h = nonce /\ header_rent_receiver h = owner
  /\ Actions.receiver h = receiver_ /\ updated_at h = now_ env /\ max_execution_lamports h = l.
Proof.
  intros Hat Hr. apply sbind_ok in Hr as (X1 & id & H1 & [-> Hh]%slift_ok).
  apply header_init_ok in Hh as (Hst & Hs & Hm & Ho & Hn & _ & Hrr & Hrec & Hup & _ & Hl).
  split_and!; try done.
  - eapply on_world_step; [exact H1|]. intros w' Hw. eapply with_market_step; [done|exact Hw|].
    intros m m' Hm' Hop. apply szoom_ok in Hop as (i & _ & ->). apply StoredMarket.set_indexer_moved,
      Hm'.
  - unfold action_state. by rewrite Hst.
Qed.

Lemma init_swap_same env meta_ p s paths ins outs X X' a :
  init_swap this env meta_ p s paths ins outs X = (X', Ok a) -> X' = X.
Proof.
  intros Hr. apply sbind_ok in Hr as (? & ? & [-> _]%slift_ok & Hr).
  apply sbind_ok in Hr as (? & ? & [-> _]%slift_ok & Hr).
  apply szoom_ok in Hr as (w & [-> _]%sread_ok & ->). by destruct X.
Qed.

(** A new action: it is pending, and its header says what the creation was asked for. *)
Record Fresh {A} (k : Kind T A) (env : Env) (addr market owner receiver_ nonce lamports : Pubkey) (a : A)
    X X' : Prop := {
  fresh_new : kind_get k X !! addr = None;
  fresh_acted : Acted k addr (Some a) X X';
  fresh_pending : action_state (header k a) = Ok Pending;
  fresh_store : header_store (header k a) = this;
  fresh_market : header_market (header k a) = market;
  fresh_owner : header_owner (header k a) = owner;
  fresh_nonce : header_nonce (header k a) = nonce;
  fresh_rent : header_rent_receiver (header k a) = owner;
  fresh_receiver : Actions.receiver (header k a) = receiver_;
  fresh_time : updated_at (header k a) = now_ env;
  fresh_lamports : max_execution_lamports (header k a) = lamports;
}.

Definition deposit_params_of (params : CreateDepositParams) : DepositActionParams :=
  mkDepositActionParams (cd_initial_long_token_amount params) (cd_initial_short_token_amount params)
    (cd_min_market_token_amount params).

(** No associated token account, and not the mint of one, is the default key, which is the address of the
    system program. *)
Definition KeysOk : Prop :=
  forall owner mint, ata_address owner mint <> DEFAULT_PUBKEY
    /\ account_mint (ata_address owner mint) <> DEFAULT_PUBKEY.

Lemma source_stored env addr a amount :
  KeysOk -> check_source account_mint ata_address env addr a = Ok tt ->
  (amount <> 0 -> is_Some (source_escrow a)) ->
  StoredSide (init_token_opt account_mint (source_escrow a)) amount.
Proof.
  intros Hk ([] & Hc & _)%rbind_ok Ha. unfold StoredSide, init_token_opt, account, token.
  destruct (source_escrow a) as [e|]; simpl.
  - destruct (with_mint_ok _ _ _ _ Hc eq_refl) as (m & _ & [-> _]%associated_token_ok).
    destruct (Hk addr m) as [H1 H2]. unfold optional_address.
    apply Z.eqb_neq in H1 as ->. apply Z.eqb_neq in H2 as ->. by eexists.
  - split; [done|]. destruct (Z.eq_dec amount 0) as [|Hne]; [done|]. by destruct (Ha Hne).
Qed.

Lemma validate_deposit_params_ok addr long short params X X' u :
  validate_deposit_params action_rent addr long short params X = (X', Ok u) -> X' = X
  /\ (cd_initial_long_token_amount params <> 0 -> is_Some (source_escrow long))
  /\ (cd_initial_short_token_amount params <> 0 -> is_Some (source_escrow short)).
Proof.
  intros Hv. apply sbind_ok in Hv as (? & ? & [-> _]%slift_ok & Hv).
  apply sbind_ok in Hv as (? & ? & (-> & _ & H1)%validate_escrow_ok & Hv).
  apply sbind_ok in Hv as (? & ? & (-> & _ & H2)%validate_escrow_ok & Hv). split; [|done].
  apply sbind_ok in Hv as (X7 & ? & Hsame & Hv). apply szoom_ok in Hv as (l & [-> _]%sread_ok & ->).
  transitivity X7; [by destruct X7|].
  destruct (source_escrow long), (source_escrow short); try by apply sret_ok in Hsame as [-> _].
  case_if_in Hsame E; [|by apply sret_ok in Hsame as [-> _]].
  apply sbind_ok in Hsame as (? & ? & [-> _]%sread_ok & Hsame).
  by apply sbind_ok in Hsame as (? & ? & [-> _]%slift_ok & [-> _]%slift_ok).
Qed.

Lemma create_deposit_ok env accts paths nonce params X X' u :
  MarketsAt (ex_world X) -> params_u64 (deposit_params_of params) ->
  create_deposit this account_mint ata_address action_address action_bump action_rent token_rent env
    accts paths nonce params X = (X', Ok u) ->
  let owner := cd_owner accts in
  let addr := action_address SeedDeposit owner nonce in
  exists d,
    Fresh deposits env addr (cd_market accts) owner (cd_receiver accts) nonce
      (cd_execution_lamports params) d X X'
    /\ deposit_params d = deposit_params_of params
    /\ WorldStep (ex_world X) nothing nothing
         (plus (sourced (cd_long accts) (cd_initial_long_token_amount params))
               (sourced (cd_short accts) (cd_initial_short_token_amount params))) nothing (ex_world X')
    /\ may_source env owner (cd_long accts) (cd_initial_long_token_amount params)
    /\ may_source env owner (cd_short accts) (cd_initial_short_token_amount params)
    /\ (KeysOk -> StoredSides d).
Proof.
  intros Hat [[Hl _] [Hs _]] Hr owner addr. unfold create_deposit in Hr. simpl in Hl, Hs.
  apply sbind_ok in Hr as (? & meta_ & (-> & _)%market_meta_ok & Hr).
  apply sbind_ok in Hr as (X1 & ? & [S1 Hnew]%init_account_ok & Hr).
  do 2 apply sbind_ok in Hr as (? & ? & [-> _]%slift_ok & Hr).
  apply sbind_ok in Hr as (? & [] & [-> C1]%slift_ok & Hr).
  apply sbind_ok in Hr as (? & [] & [-> C2]%slift_ok & Hr).
  apply sbind_ok in Hr as (X2 & ? & S2%init_ata_same & Hr).
  apply sbind_ok in Hr as (X3 & ? & S3%start_create_same & Hr).
  pose proof (same_trans _ _ _ S1 (same_trans _ _ _ S2 S3)) as S. clear S1 S2 S3.
  pose proof (same_at _ market_token_address _ _ S Hat) as Hat3.
  apply sbind_ok in Hr as (X4 & ? & H4 & Hr). apply transfer_from_source_step in H4 as [H4 M1];
    [|done..].
  apply sbind_ok in Hr as (X5 & ? & H5 & Hr). apply transfer_from_source_step in H5 as [H5 M2];
    [|apply H4|done].
  apply (xstep_same_l _ _ _ _ _ _ _ _ _ S) in H4. clear S Hat3.
  unfold create_deposit_operation in Hr.
  apply sbind_ok in Hr as (? & ? & (-> & _)%read_market_ok & Hr).
  apply sbind_ok in Hr as (? & ? & (-> & N1 & N2)%validate_deposit_params_ok & Hr).
  apply sbind_ok in Hr as (X6 & h & H6 & Hr).
  apply new_header_ok in H6 as (H6 & Hp & Hst & Hm & Ho & Hn & Hrr & Hrec & Hup & Hlam); [|apply H5].
  apply sbind_ok in Hr as (? & meta' & (-> & _)%market_meta_ok & Hr).
  apply sbind_ok in Hr as (? & swap & ->%init_swap_same & [Hw Hacted]%save_ok); [|apply _].
  pose proof (xstep_trans _ _ _ _ _ _ _ _ _ _ _ _ _ H4 (xstep_trans _ _ _ _ _ _ _ _ _ _ _ _ _ H5 H6))
    as [W A].
  eexists. split_and!; [| | |done|done|].
  - eapply Build_Fresh; [done|by eapply (acted_same deposits); [|exact Hacted|]|done..].
  - done.
  - rewrite Hw. eapply world_step_eq; [exact W|..]; intros k; unfold plus, nothing; try fold amount; lia.
  - intros Hk. by split; simpl; eapply source_stored.
Qed.

(** A transfer that is left out when there is nothing to transfer. *)
Lemma user_transfer_opt env signer from to x X X' u :
  MarketsAt (ex_world X) -> 0 <= x ->
  (if x =? 0 then sret tt else user_transfer env signer from to x) X = (X', Ok u) ->
  XStep X nothing nothing (moved from to x) nothing X' /\ (x <> 0 -> may_spend env from signer = true).
Proof.
  intros Hat Hx Hr. destruct (Z.eqb_spec x 0) as [->|Hne].
  - apply sret_ok in Hr as [-> _]. split; [|done]. split; [|done].
    eapply world_step_eq; [by apply world_step_refl|done|done| |done]. intros k. by rewrite moved_0.
  - by apply user_transfer_step in Hr as [Hr Hm].
Qed.

Lemma create_withdrawal_ok env accts paths nonce params X X' u :
  MarketsAt (ex_world X) -> @in_u u64 (cw_market_token_amount params) ->
  create_withdrawal this account_mint ata_address action_address action_bump action_rent env
    accts paths nonce params X = (X', Ok u) ->
  let owner := cw_owner accts in
  let addr := action_address SeedWithdrawal owner nonce in
  let amount := cw_market_token_amount params in
  exists d,
    Fresh withdrawals env addr (cw_market accts) owner (cw_receiver accts) nonce
      (cw_execution_lamports params) d X X'
    /\ withdrawal_params d = mkWithdrawalActionParams amount (cw_min_long_token_amount params)
         (cw_min_short_token_amount params)
    /\ WorldStep (ex_world X) nothing nothing
         (moved (cw_market_token_source accts) (cw_market_token_escrow accts) amount) nothing
           (ex_world X')
    /\ amount <> 0 /\ may_spend env (cw_market_token_source accts) owner = true.
Proof.
  intros Hat [Hx _] Hr owner addr amount. unfold create_withdrawal in Hr.
  apply sbind_ok in Hr as (? & meta_ & (-> & _)%market_meta_ok & Hr).
  apply sbind_ok in Hr as (X1 & ? & [S1 Hnew]%init_account_ok & Hr).
  apply sbind_ok in Hr as (? & ? & [-> _]%slift_ok & Hr).
  apply sbind_ok in Hr as (X3 & ? & S3%start_create_same & Hr).
  pose proof (same_trans _ _ _ S1 S3) as S. clear S1 S3.
  pose proof (same_at _ market_token_address _ _ S Hat) as Hat3.
  apply sbind_ok in Hr as (X4 & ? & H4 & Hr). apply user_transfer_opt in H4 as [H4 M1]; [|done..].
  apply (xstep_same_l _ _ _ _ _ _ _ _ _ S) in H4. clear S Hat3.
  unfold create_withdrawal_operation in Hr.
  apply sbind_ok in Hr as (? & ? & (-> & _)%read_market_ok & Hr).
  apply sbind_ok in Hr as (? & ? & [-> Hne%require_ok]%slift_ok & Hr). bool_to_prop.
  apply sbind_ok in Hr as (? & held & [-> _]%sread_ok & Hr).
  apply sbind_ok in Hr as (? & ? & [-> _]%slift_ok & Hr).
  apply sbind_ok in Hr as (X6 & h & H6 & Hr).
  apply new_header_ok in H6 as (H6 & Hp & Hst & Hm & Ho & Hn & Hrr & Hrec & Hup & Hlam); [|apply H4].
  apply sbind_ok in Hr as (? & meta' & (-> & _)%market_meta_ok & Hr).
  apply sbind_ok in Hr as (? & swap & ->%init_swap_same & [Hw Hacted]%save_ok); [|apply _].
  pose proof (xstep_trans _ _ _ _ _ _ _ _ _ _ _ _ _ H4 H6) as [W A].
  eexists. split_and!; [| | |done|by apply M1].
  - eapply Build_Fresh; [done|by eapply (acted_same withdrawals); [|exact Hacted|]|done..].
  - done.
  - rewrite Hw. eapply world_step_eq; [exact W|..]; intros k; unfold plus, nothing; try fold amount; lia.
Qed.

Lemma create_shift_ok env accts nonce params X X' u :
  MarketsAt (ex_world X) -> @in_u u64 (cs_from_market_token_amount params) ->
  create_shift this account_mint ata_address action_address action_bump action_rent env accts nonce
    params X
    = (X', Ok u) ->
  let owner := cs_owner accts in
  let addr := action_address SeedShift owner nonce in
  let amount := cs_from_market_token_amount params in
  exists d,
    Fresh shifts env addr (cs_from_market accts) owner (cs_receiver accts) nonce
      (cs_execution_lamports params) d X X'
    /\ shift_params d = mkShiftActionParams amount (cs_min_to_market_token_amount params)
    /\ WorldStep (ex_world X) nothing nothing
         (moved (cs_from_market_token_source accts) (cs_from_market_token_escrow accts) amount) nothing
         (ex_world X')
    /\ amount <> 0 /\ may_spend env (cs_from_market_token_source accts) owner = true.
Proof.
  intros Hat [Hx _] Hr owner addr amount. unfold create_shift in Hr.
  apply sbind_ok in Hr as (? & meta_ & (-> & _)%market_meta_ok & Hr).
  apply sbind_ok in Hr as (X0 & ? & S0 & Hr).
  assert (X0 = X) as ->. { apply szoom_ok in S0 as (w & (-> & _)%two_markets_ok & ->). by destruct X. }
  apply sbind_ok in Hr as (X1 & ? & [S1 Hnew]%init_account_ok & Hr).
  apply sbind_ok in Hr as (? & ? & [-> _]%slift_ok & Hr).
  apply sbind_ok in Hr as (X3 & ? & S3%start_create_same & Hr).
  pose proof (same_trans _ _ _ S1 S3) as S. clear S0 S1 S3.
  pose proof (same_at _ market_token_address _ _ S Hat) as Hat3.
  apply sbind_ok in Hr as (X4 & ? & H4 & Hr). apply user_transfer_opt in H4 as [H4 M1]; [|done..].
  apply (xstep_same_l _ _ _ _ _ _ _ _ _ S) in H4. clear S Hat3. unfold create_shift_operation in Hr.
  apply sbind_ok in Hr as (X5 & ? & S5 & Hr).
  assert (X5 = X4) as ->. { apply szoom_ok in S5 as (w & (-> & _)%validate_shift_markets_ok & ->). by
    destruct X4. }
  apply sbind_ok in Hr as (? & ? & [-> Hne%require_ok]%slift_ok & Hr). bool_to_prop.
  apply sbind_ok in Hr as (? & held & [-> _]%sread_ok & Hr).
  apply sbind_ok in Hr as (? & ? & [-> _]%slift_ok & Hr).
  apply sbind_ok in Hr as (X5 & ? & S5' & Hr).
  assert (X5 = X4) as ->. { apply szoom_ok in S5' as (l & [-> _]%sread_ok & ->). by destruct X4. }
  apply sbind_ok in Hr as (X6 & h & H6 & Hr).
  apply new_header_ok in H6 as (H6 & Hp & Hst & Hm & Ho & Hn & Hrr & Hrec & Hup & Hlam); [|apply H4].
  apply sbind_ok in Hr as (? & meta' & (-> & _)%market_meta_ok & [Hw Hacted]%save_ok); [|apply _].
  pose proof (xstep_trans _ _ _ _ _ _ _ _ _ _ _ _ _ H4 H6) as [W A].
  eexists. split_and!; [| | |done|by apply M1].
  - eapply Build_Fresh; [done|by eapply (acted_same shifts); [|exact Hacted|]|done..].
  - done.
  - rewrite Hw. eapply world_step_eq; [exact W|..]; intros k; unfold plus, nothing; try fold amount; lia.
Qed.
End Creations.

(** ** Closings *)
Section Closings.
#[local] Existing Instance u128.
Context {F : FixedPointOps u128} {FOk : FixedPointOk F}.
Context {B : Type} {BO : BitmapOps StoredMarket.MAX_FLAGS B} {BL : BitmapLaws StoredMarket.MAX_FLAGS B}.
Context {C : Type} {CO : BitmapOps StoreConfig.MAX_CONFIG_FLAGS C}.
Context {R : Type} {RO : BitmapOps MAX_ROLES R} {RL : BitmapLaws MAX_ROLES R}.
Context {T : Type} {TP : TokenProgram T} {TL : TokenProgramLaws T}.
Context (to_key : bytes -> Z) (this : Pubkey).
Context (vault_address account_mint : Pubkey -> Pubkey) (ata_address : Pubkey -> Pubkey -> Pubkey).
Context (action_address action_bump : ActionSeed -> Pubkey -> Z ->
  Pubkey) (action_rent : ActionSeed -> Z).
Context (first_deposit_receiver native_mint : Pubkey) (token_rent : Z) (store_wallet : Pubkey).
Context (market_token_address : Pubkey -> Pubkey -> Pubkey -> Pubkey).
Implicit Types (w : StoredMarket.World T) (X : Exchange T) (env : Env) (e : EscrowTransfer).
Abbreviation amount X k := (amount_of (tokens_of (ex_world X)) k).
Abbreviation run_process := (process account_mint native_mint token_rent store_wallet).

(** Tokens that arrive as tokens, and not as lamports. *)
Definition as_tokens e : Prop := et_mint e = native_mint -> should_unwrap_native e = false.

(** Some escrows were emptied: nothing else has lost a token, and when all of it was done, the
    escrows that are not themselves the target of a transfer are empty, and what was in them has arrived at
    the target of a transfer out of them. *)
Record Processed (transfers : list (store_result EscrowTransfer)) (done : bool) X X' : Prop := {
  pr_markets : StoredMarket.world_markets (ex_world X') = StoredMarket.world_markets (ex_world X);
  pr_supply m : supply_of (tokens_of (ex_world X')) m = supply_of (tokens_of (ex_world X)) m;
  pr_others k : (forall e, Ok e ∈ transfers -> k <> escrow e) -> amount X k <= amount X' k;
  pr_done r : done = true -> r ∈ transfers -> exists e, r = Ok e;
  pr_empty e : done = true -> Ok e ∈ transfers -> (forall e', Ok e' ∈ transfers -> escrow e <> ata e') ->
    amount X' (escrow e) = 0;
  pr_paid e : done = true -> Ok e ∈ transfers ->
    (forall e', Ok e' ∈ transfers -> escrow e' = escrow e -> as_tokens e') ->
    (forall e' e'', Ok e' ∈ transfers -> Ok e'' ∈ transfers -> ata e' <> escrow e'') ->
    exists e', Ok e' ∈ transfers /\ escrow e' = escrow e
      /\ amount X (escrow e) + amount X (ata e') <= amount X' (ata e');
}.

Lemma processed_stopped e transfers X X' :
  StoredMarket.world_markets (ex_world X') = StoredMarket.world_markets (ex_world X) ->
  tokens_of (ex_world X') = tokens_of (ex_world X) ->
  Processed (Ok e :: transfers) false X X'.
Proof. intros Hm Ht. by split; rewrite ?Ht. Qed.

Lemma processed_same_l transfers b X X0 X' : Same X X0 -> Processed transfers b X0 X' ->
    Processed transfers b X X'.
Proof. intros [Hm Ht _] [H1 H2 H3 H4 H5 H6]. rewrite Hm in H1. rewrite Ht in H2, H3, H6. by split. Qed.

Lemma emptied_grows e b t t' k :
  Emptied (T := T) e b t t' -> k <> escrow e -> amount_of t k <= amount_of t' k.
Proof.
  intros [Ho _ _] Hk. rewrite Ho by done. destruct b; [lia|].
  pose proof (amount_nonneg t (escrow e)). unfold at_key. case_if E; lia.
Qed.

Lemma emptied_stays e e' b t t' :
  Emptied (T := T) e' b t t' -> escrow e <> ata e' -> amount_of t (escrow e) = 0 ->
  amount_of t' (escrow e) = 0.
Proof.
  intros [Ho He _] Hne H0. destruct (decide (escrow e = escrow e')) as [E|E]; [rewrite E in *;
    by apply He|].
  rewrite Ho by done. rewrite H0. destruct b; [done|]. unfold at_key. apply Z.eqb_neq in Hne as ->. done.
Qed.

(** An escrow that is empty stays so. *)
Lemma process_escrows_ok env : forall transfers X X' done,
  run_process env transfers X = (X', Ok done) ->
  Processed transfers done X X' /\ acts X' = acts X
  /\ forall e, amount X (escrow e) = 0 -> (forall e', Ok e' ∈ transfers -> escrow e <> ata e') ->
       amount X' (escrow e) = 0.
Proof.
  intros transfers. induction transfers as [|r transfers IH]; simpl; intros X X' done Hr.
  { apply sret_ok in Hr as [-> ->]. split; [split; try done; by intros ? _ ?%elem_of_nil|done]. }
  apply sbind_ok in Hr as (? & e & [-> ->]%slift_ok & Hr).
  apply sbind_ok in Hr as (X1 & b & (f & Hf & ->)%szoom_ok & Hr). apply transfer_all_ok in Hf. simpl
    in Hf.
  destruct b.
  - apply IH in Hr as [[Hm Hs Ho Hok He Hp] [Ha Hk]]. destruct Hf as (b & Hemp & Hnat). fold (tokens_of
    (ex_world X)) in Hemp.
    unfold tokens_of in Hs, Ho, He, Hk, Hp. simpl in *.
    assert (forall e0, amount X (escrow e0) = 0 -> (forall e', Ok e' ∈ Ok e :: transfers ->
      escrow e0 <> ata e') ->
              amount X' (escrow e0) = 0) as Hstay.
    { intros e0 H0 Hne. apply Hk; [|intros e' Hin; apply Hne; set_solver].
      eapply emptied_stays; [exact Hemp|apply Hne; set_solver|done]. }
    split; [|done]. split; [done|..].
    + intros m. unfold tokens_of. rewrite Hs. apply (emptied_supply _ _ _ _ Hemp).
    + intros k Hne. etransitivity; [|apply Ho; intros e' Hin; apply Hne; set_solver].
      eapply emptied_grows; [exact Hemp|apply Hne; set_solver].
    + intros r Hd [->|Hin]%elem_of_cons; [by eexists|by apply Hok].
    + intros e0 Hd [[= ->]|Hin]%elem_of_cons Hne; [|apply He; [done|done|intros e' Hin'; apply Hne;
      set_solver]].
      apply Hk; [|intros e' Hin; apply Hne; set_solver]. apply (emptied_escrow _ _ _ _ Hemp),
        Hne. set_solver.
    + intros e0 Hd Hin Hnat' Hne. destruct (decide (escrow e = escrow e0)) as [E|E].
      * assert (b = false) as -> by (destruct b; [|done]; destruct Hnat as [Hm1 Hu]; [done|];
          rewrite (Hnat' e) in Hu; set_solver).
        assert (ata e <> escrow e) as Ha' by (apply Hne; set_solver).
        exists e. split_and!; [set_solver|done|].
        etransitivity; [|apply Ho; intros e' Hin'; apply Hne; set_solver].
        rewrite (emptied_others _ _ _ _ Hemp) by done. unfold at_key. rewrite Z.eqb_refl, E.
        unfold tokens_of. lia.
      * apply elem_of_cons in Hin as [[= ->]|Hin]; [done|].
        destruct (Hp e0 Hd Hin) as (e' & Hin' & E' & Hle);
          [intros e' Hin'; apply Hnat'; set_solver|intros e' e'' ? ?; apply Hne; set_solver|].
        exists e'. split_and!; [set_solver|done|]. etransitivity; [|exact Hle].
        assert (ata e' <> escrow e) as Hn by (apply Hne; set_solver).
        pose proof (emptied_grows _ _ _ _ _ Hemp (not_eq_sym E)).
        pose proof (emptied_grows _ _ _ _ _ Hemp Hn). lia.
  - apply sret_ok in Hr as [-> ->]. split; [by apply processed_stopped|]. split; [done|]. intros e0 H0 _.
    unfold tokens_of. simpl. by rewrite Hf.
Qed.

Lemma feature_enabled_keeps domain action X X' u :
  on_store (validate_feature_enabled domain action) X = (X', Ok u) ->
  StoreWf (StoredMarket.world_store (ex_world X)) ->
  StoredMarket.world_store (ex_world X') = StoredMarket.world_store (ex_world X).
Proof.
  intros Hr [_ Hf]. apply szoom_ok in Hr as (w & Hr & ->). apply szoom_ok in Hr as (s & Hr & ->). simpl.
  apply sbind_ok in Hr as (s1 & d & Hd & Hr).
  assert (s = s1) as -> by (destruct d; [by apply slift_ok in Hr as [_ ?]|by apply sret_ok in Hr as
    [-> _]]).
  apply sbind_ok in Hd as (s2 & o & Hd & [-> _]%sret_ok). apply szoom_ok in Hd as (fs & Hd & ->).
  rewrite get_disabled_eq in Hd by done. injection Hd as <- _. by destruct (StoredMarket.world_store
    (ex_world X)).
Qed.

(** Who may close an action: its owner, or an order keeper once it is settled. *)
Definition may_close {A} (k : Kind T A) env (executor : Pubkey) (a : A) X : Prop :=
  executor = header_owner (header k a)
  \/ signer_may to_key env executor RoleKey.ORDER_KEEPER X
     /\ (action_state (header k a) = Ok Completed \/ action_state (header k a) = Ok Cancelled).

Lemma close_ok {A} (k : Kind T A) `{!KindOk k} env addr executor owner check transfers X X' u :
  close to_key account_mint native_mint token_rent store_wallet env k addr executor owner check
    transfers X
    = (X', Ok u) ->
  exists a init done, kind_get k X !! addr = Some a /\ check a = Ok tt /\ may_close k env executor a X
    /\ Processed (transfers a init) done X X'
    /\ if done then Acted k addr None X X' else acts X' = acts X.
Proof.
  intros Hr. apply sbind_ok in Hr as (? & a & [-> Ha]%load_ok & Hr).
  apply sbind_ok in Hr as (? & [] & [-> Hc]%slift_ok & Hr).
  apply sbind_ok in Hr as (X1 & ? & Hv & Hr).
  assert (Same X X1) as S1.
  { apply sbind_ok in Hv as (? & st & [-> _]%slift_ok & Hv). destruct (is_pending st).
    - apply sbind_ok in Hv as (X0 & ? & H1%on_store_same & H2%on_store_same). by eapply same_trans.
    - by apply sret_ok in Hv as [-> _]. }
  apply sbind_ok in Hr as (X2 & init & Hp & Hr).
  assert (StoreWf (StoredMarket.world_store (ex_world X)) ->
          StoredMarket.world_store (ex_world X1) = StoredMarket.world_store (ex_world X)) as Hst.
  { intros Hwf. apply sbind_ok in Hv as (? & st & [-> _]%slift_ok & Hv). destruct (is_pending st).
    - apply sbind_ok in Hv as (X0 & ? & H1 & H2). apply szoom_ok in H1 as (w1 & H1 & ->).
      apply szoom_ok in H1 as (s1 & [-> _]%sread_ok & ->). by apply feature_enabled_keeps in H2.
    - by apply sret_ok in Hv as [-> _]. }
  assert (may_close k env executor a X /\ Same X1 X2) as [Hmay S2].
  { unfold preprocess in Hp. destruct (Z.eqb_spec executor (header_owner (header k a))) as [->|Hne].
    - apply sret_ok in Hp as [-> _]. split; [by left|apply same_refl].
    - apply sbind_ok in Hp as (X3 & ? & [S2 Hrole]%only_role_same & Hp).
      apply sbind_ok in Hp as (? & st & [-> Hs]%slift_ok & Hp). split; [right; split|].
      + intros Hwf. rewrite <- (Hst Hwf). apply Hrole. by rewrite Hst.
      + rewrite Hs. destruct st; [by apply slift_ok in Hp as [_ ?]|by left|by right].
      + destruct (is_completed_or_cancelled st); [by apply sret_ok in Hp as [-> _]|by apply slift_ok
        in Hp as [_ ?]]. }
  apply sbind_ok in Hr as (X3 & done & (H3 & Ha3 & _)%process_escrows_ok & Hr).
  pose proof (same_trans _ _ _ S1 S2) as S.
  rewrite (same_acts _ _ S) in Ha3. apply (processed_same_l _ _ _ _ _ S) in H3.
  destruct done; [|apply sret_ok in Hr as [-> _]; by exists a, init, false].
  apply sbind_ok in Hr as (? & ? & [-> _]%slift_ok & Hr).
  apply sbind_ok in Hr as (X4 & ? & S4%on_lamports_same & ->%smodify_ok).
  exists a, init, true. split_and!; try done.
  - destruct H3 as [Hm Hsup Ho Hok He Hpaid]. destruct S4 as [Em Et Ea].
    split; unfold tokens_of in *; rewrite ?kind_put_world, ?Em, ?Et; try done.
  - unfold Acted. rewrite <- (kind_get_acts X4 X); [|by rewrite (same_acts _ _ S4)].
    apply kind_put_acts. by rewrite (same_acts _ _ S4).
Qed.
End Closings.

(** ** Every history *)
Section Histories.
#[local] Existing Instance u128.
Context {F : FixedPointOps u128} {FOk : FixedPointOk F}.
Context {B : Type} {BO : BitmapOps StoredMarket.MAX_FLAGS B} {BL : BitmapLaws StoredMarket.MAX_FLAGS B}.
Context {C : Type} {CO : BitmapOps StoreConfig.MAX_CONFIG_FLAGS C}.
Context {R : Type} {RO : BitmapOps MAX_ROLES R} {RL : BitmapLaws MAX_ROLES R}.
Context {T : Type} {TP : TokenProgram T} {TL : TokenProgramLaws T}.
Context (to_key : bytes -> Z) (this : Pubkey).
Context (vault_address account_mint : Pubkey -> Pubkey) (ata_address : Pubkey -> Pubkey -> Pubkey).
Context (action_address action_bump : ActionSeed -> Pubkey -> Z ->
  Pubkey) (action_rent : ActionSeed -> Z).
Context (first_deposit_receiver native_mint : Pubkey) (token_rent : Z) (store_wallet : Pubkey).
Context (market_token_address : Pubkey -> Pubkey -> Pubkey -> Pubkey).
(** A vault is of its mint, and no associated token account is a vault, which are derived of other seeds. *)
Context (Hvault : forall mint, account_mint (vault_address mint) = mint).
Context (Hata : forall owner mint tok, ata_address owner mint <> vault_address tok).
Implicit Types (w : StoredMarket.World T) (X : Exchange T) (env : Env).
Abbreviation MarketsAt := (StoredMarket.MarketsAt this market_token_address).
Abbreviation WorldWf := (StoredMarket.WorldWf this market_token_address vault_address).
Abbreviation WorldStep := (WorldStep this market_token_address).
Abbreviation run := (run_exchange to_key this vault_address account_mint ata_address action_address
  action_bump
                       action_rent first_deposit_receiver native_mint token_rent store_wallet).
#[local] Existing Instance deposits_ok.
#[local] Existing Instance withdrawals_ok.
#[local] Existing Instance shifts_ok.

(** The amounts that the actions name are amounts of tokens. *)
Record ActsOk X : Prop := {
  ao_deposits addr d : ex_deposits X !! addr = Some d -> params_u64 (deposit_params d);
  ao_withdrawals addr d :
    ex_withdrawals X !! addr = Some d -> @in_u u64 (market_token_amount (withdrawal_params d));
  ao_shifts addr d :
    ex_shifts X !! addr = Some d -> @in_u u64 (from_market_token_amount (shift_params d));
}.

(** The arguments of an instruction are of their types, and the prices of the oracle are sound. *)
Definition exchange_sane (i : ExchangeInstruction) : Prop :=
  match i with
  | CreateDeposit _ _ _ params => params_u64 (deposit_params_of params)
  | CreateWithdrawal _ _ _ params => @in_u u64 (cw_market_token_amount params)
  | CreateShift _ _ params => @in_u u64 (cs_from_market_token_amount params)
  | ExecuteDeposit _ _ oracle _ _ | ExecuteWithdrawal _ _ oracle _ _ | ExecuteShift _ oracle _ _ =>
      GoodPrices oracle
  | CloseDeposit _ | CloseWithdrawal _ | CloseShift _ => True
  end.

(** Nobody but the store signs for its vaults. *)
Definition vaults_locked env : Prop := forall tok signer, may_spend env (vault_address tok) signer =
    false.

Definition signer_of (i : ExchangeInstruction) : Pubkey :=
  match i with
  | CreateDeposit accts _ _ _ => cd_owner accts
  | ExecuteDeposit accts _ _ _ _ => xd_authority accts
  | CloseDeposit accts => kd_executor accts
  | CreateWithdrawal accts _ _ _ => cw_owner accts
  | ExecuteWithdrawal accts _ _ _ _ => xw_authority accts
  | CloseWithdrawal accts => kw_executor accts
  | CreateShift accts _ _ => cs_owner accts
  | ExecuteShift accts _ _ _ => xs_authority accts
  | CloseShift accts => ks_executor accts
  end.

(** *** What the actions name *)

Lemma acts_ok_eq X X' : acts X' = acts X -> ActsOk X -> ActsOk X'.
Proof. unfold acts. intros [= E1 E2 E3] [H1 H2 H3]. by split; rewrite ?E1, ?E2, ?E3. Qed.

Lemma altered {A} (m : gmap Pubkey A) addr o addr' a (P : A -> Prop) :
  (forall k x, m !! k = Some x -> P x) -> (forall x, o = Some x -> P x) ->
  partial_alter (fun _ => o) addr m !! addr' = Some a -> P a.
Proof.
  intros Hm Ho. destruct (decide (addr = addr')) as [->|Hne].
  - rewrite lookup_partial_alter_eq. apply Ho.
  - rewrite lookup_partial_alter_ne by done. apply Hm.
Qed.

Lemma acted_deposits_ok addr o X X' :
  Acted deposits addr o X X' -> ActsOk X -> (forall d, o = Some d -> params_u64 (deposit_params d)) ->
    ActsOk X'.
Proof.
  unfold Acted, acts. simpl. intros [= E1 E2 E3] [H1 H2 H3] Ho. split; rewrite ?E1, ?E2, ?E3; [|done..].
  intros k d. by eapply (altered _ _ _ _ _ (fun d => params_u64 (deposit_params d))).
Qed.

Lemma acted_withdrawals_ok addr o X X' :
  Acted withdrawals addr o X X' -> ActsOk X ->
  (forall d, o = Some d -> @in_u u64 (market_token_amount (withdrawal_params d))) -> ActsOk X'.
Proof.
  unfold Acted, acts. simpl. intros [= E1 E2 E3] [H1 H2 H3] Ho. split; rewrite ?E1, ?E2, ?E3;
    [done| |done].
  intros k d. by eapply (altered _ _ _ _ _ (fun d => @in_u u64 (market_token_amount (withdrawal_params
    d)))).
Qed.

Lemma acted_shifts_ok addr o X X' :
  Acted shifts addr o X X' -> ActsOk X ->
  (forall d, o = Some d -> @in_u u64 (from_market_token_amount (shift_params d))) -> ActsOk X'.
Proof.
  unfold Acted, acts. simpl. intros [= E1 E2 E3] [H1 H2 H3] Ho. split; rewrite ?E1, ?E2, ?E3;
    [done|done|].
  intros k d. by eapply (altered _ _ _ _ _ (fun d => @in_u u64 (from_market_token_amount (shift_params
    d)))).
Qed.

(** Every initial token of a deposit is stored with its escrow, or not at all. *)
Definition StoredOk X : Prop := forall addr d, ex_deposits X !! addr = Some d -> StoredSides d.

Lemma stored_eq X X' : ex_deposits X' = ex_deposits X -> StoredOk X -> StoredOk X'.
Proof. unfold StoredOk. by intros ->. Qed.

Lemma acts_stored X X' : acts X' = acts X -> StoredOk X -> StoredOk X'.
Proof. unfold acts. intros [= E _ _]. by apply stored_eq. Qed.

Lemma acted_stored addr o X X' :
  Acted deposits addr o X X' -> StoredOk X -> (forall d, o = Some d -> StoredSides d) -> StoredOk X'.
Proof.
  unfold Acted, acts. simpl. intros [= E _ _] H1 Ho k d. rewrite E. by apply altered.
Qed.

Lemma withdrawal_stored addr o X X' : Acted withdrawals addr o X X' -> StoredOk X -> StoredOk X'.
Proof. unfold Acted, acts. simpl. intros [= E _ _]. by apply stored_eq. Qed.

Lemma shift_stored addr o X X' : Acted shifts addr o X X' -> StoredOk X -> StoredOk X'.
Proof. unfold Acted, acts. simpl. intros [= E _ _]. by apply stored_eq. Qed.

(** *** The vaults keep backing the markets *)

Lemma moved_vault_in from to x tok :
  0 <= x -> from <> vault_address tok -> 0 <= moved from to x (vault_address tok).
Proof.
  intros Hx Hne. unfold moved, at_key. destruct (Z.eqb_spec (vault_address tok) from); [congruence|].
  destruct (_ =? _); lia.
Qed.

Lemma sourced_vault env owner a x tok :
  vaults_locked env -> 0 <= x -> may_source env owner a x -> 0 <= sourced a x (vault_address tok).
Proof.
  intros Hl Hx Hm. unfold sourced. destruct (source_account a) as [s|] eqn:Hs,
    (source_escrow a) as [e|]; try done.
  destruct (Z.eq_dec x 0) as [->|Hne]; [by rewrite moved_0|]. apply moved_vault_in; [done|]. intros ->.
  specialize (Hm _ Hs Hne). by rewrite Hl in Hm.
Qed.

Lemma user_vault env signer from to x tok :
  vaults_locked env -> 0 <= x -> may_spend env from signer = true ->
    0 <= moved from to x (vault_address tok).
Proof. intros Hl Hx Hm. apply moved_vault_in; [done|]. intros ->. by rewrite Hl in Hm. Qed.

Lemma at_vault_eq tok tok' x : at_key (vault_address tok) x (vault_address tok') = pay tok x tok'.
Proof.
  unfold at_key, pay. destruct (Z.eqb_spec (vault_address tok') (vault_address tok)) as [E|E].
  - assert (tok' = tok) as -> by (rewrite <- (Hvault tok'), <- (Hvault tok);
    congruence). by rewrite Z.eqb_refl.
  - destruct (Z.eqb_spec tok' tok) as [->|]; [done|lia].
Qed.

Lemma at_ata owner mint x tok : at_key (ata_address owner mint) x (vault_address tok) = 0.
Proof. unfold at_key. destruct (Z.eqb_spec (vault_address tok) (ata_address owner mint)) as [E|];
  [by destruct (Hata owner mint tok)|done]. Qed.

(** What is taken out of escrows arrives in the vaults. *)
Lemma side_backed env addr self a x tok :
  check_vault ata_address env addr self a = Ok tt ->
  side_recorded a x tok = side_moved vault_address a x (vault_address tok).
Proof.
  intros (_ & He & _)%check_vault_ok. unfold side_recorded, side_moved.
  destruct (vault_escrow a) as [e|] eqn:E; [|done]. destruct (vault_mint a) as [v|]; [|done].
  destruct (He e) as (m & _ & -> & _); [done|]. unfold moved. rewrite at_ata, at_vault_eq. lia.
Qed.

(** *** The stages of an action *)

(** How the header of the action at [addr] may change in an instruction that [signer] runs: it is created
    by its owner, at the address of its owner and a nonce; it is completed or cancelled by an order
    keeper, while it is pending; and it is closed by its owner, or by an order keeper when it
    is no longer pending. *)
Inductive Stage (env : Env) (signer : Pubkey) X (seed : ActionSeed) (addr : Pubkey)
    : option ActionHeader -> option ActionHeader -> Prop :=
| StageSame o : Stage env signer X seed addr o o
| StageCreated h :
    action_state h = Ok Pending -> header_store h = this -> header_owner h = signer ->
    addr = action_address seed (header_owner h) (header_nonce h) ->
    Stage env signer X seed addr None (Some h)
| StageSettled st h :
    action_state h = Ok Pending -> st <> Pending ->
    signer_may to_key env signer RoleKey.ORDER_KEEPER X ->
    Stage env signer X seed addr (Some h) (Some (set_action_state st h))
| StageClosed h :
    signer = header_owner h
    \/ signer_may to_key env signer RoleKey.ORDER_KEEPER X
       /\ (action_state h = Ok Completed \/ action_state h = Ok Cancelled) ->
    Stage env signer X seed addr (Some h) None.

Definition header_at {A} (k : Kind T A) X (addr : Pubkey) : option ActionHeader :=
  header k <$> kind_get k X !! addr.

(** The life of all actions. *)
Record Life (env : Env) (signer : Pubkey) X X' : Prop := {
  life_deposits addr :
    Stage env signer X SeedDeposit addr (header_at deposits X addr) (header_at deposits X' addr);
  life_withdrawals addr :
    Stage env signer X SeedWithdrawal addr (header_at withdrawals X addr) (header_at withdrawals X'
      addr);
  life_shifts addr :
    Stage env signer X SeedShift addr (header_at shifts X addr) (header_at shifts X' addr);
}.

Lemma life_same env signer X X' : acts X' = acts X -> Life env signer X X'.
Proof. unfold acts. intros [= E1 E2 E3]. split; intros addr; unfold header_at; simpl;
  rewrite ?E1, ?E2, ?E3; constructor. Qed.

Lemma stage_altered {A} env signer X seed (h : A -> ActionHeader) (m : gmap Pubkey A) addr o addr' :
  Stage env signer X seed addr (h <$> m !! addr) (h <$> o) ->
  Stage env signer X seed addr' (h <$> m !! addr') (h <$> partial_alter (fun _ => o) addr m !! addr').
Proof.
  destruct (decide (addr = addr')) as [->|Hne].
  - by rewrite lookup_partial_alter_eq.
  - rewrite lookup_partial_alter_ne by done. constructor.
Qed.

Lemma life_deposit env signer X X' addr o :
  Acted deposits addr o X X' ->
  Stage env signer X SeedDeposit addr (header_at deposits X addr) (deposit_header <$> o) ->
    Life env signer X X'.
Proof.
  unfold Acted, acts. simpl. intros [= E1 E2 E3] Hs. split; intros k; unfold header_at; simpl;
    rewrite ?E1, ?E2, ?E3;
    [by apply stage_altered|constructor..].
Qed.

Lemma life_withdrawal env signer X X' addr o :
  Acted withdrawals addr o X X' ->
  Stage env signer X SeedWithdrawal addr (header_at withdrawals X addr) (withdrawal_header <$> o) ->
  Life env signer X X'.
Proof.
  unfold Acted, acts. simpl. intros [= E1 E2 E3] Hs. split; intros k; unfold header_at; simpl;
    rewrite ?E1, ?E2, ?E3;
    [constructor|by apply stage_altered|constructor].
Qed.

Lemma life_shift env signer X X' addr o :
  Acted shifts addr o X X' ->
  Stage env signer X SeedShift addr (header_at shifts X addr) (shift_header <$> o) ->
    Life env signer X X'.
Proof.
  unfold Acted, acts. simpl. intros [= E1 E2 E3] Hs. split; intros k; unfold header_at; simpl;
    rewrite ?E1, ?E2, ?E3;
    [constructor|constructor|by apply stage_altered].
Qed.

Lemma fresh_stage {A} (k : Kind T A) `{!KindOk k} env seed market owner receiver_ nonce lamports a X X' :
  Fresh this k env (action_address seed owner nonce) market owner receiver_ nonce lamports a X X' ->
  Stage env owner X seed (action_address seed owner nonce)
    (header_at k X (action_address seed owner nonce)) (header k <$> Some a).
Proof.
  intros [Hn _ Hp Hs _ Ho Hno _ _ _ _]. unfold header_at. rewrite Hn. simpl. by constructor;
    rewrite ?Ho, ?Hno.
Qed.

Lemma settled_stage {A} (k : Kind T A) `{!KindOk k} env signer seed addr a st X X' :
  kind_get k X !! addr = Some a -> st <> Pending -> signer_may to_key env signer RoleKey.ORDER_KEEPER
    X ->
  Settled k addr a st X X' ->
  Stage env signer X seed addr (header_at k X addr)
    (header k <$> Some (with_header k (set_action_state st (header k a)) a)).
Proof.
  intros Ha Hst Hm [Hp _]. unfold header_at. rewrite Ha. simpl. rewrite kind_header. by constructor.
Qed.

Lemma closed_stage {A} (k : Kind T A) env signer seed addr a X :
  kind_get k X !! addr = Some a -> may_close to_key k env signer a X ->
  Stage env signer X seed addr (header_at k X addr) None.
Proof. intros Ha Hm. unfold header_at. rewrite Ha. simpl. by constructor. Qed.

(** *** One instruction *)

Record RunOk env (i : ExchangeInstruction) X X' : Prop := {
  ro_world : WorldWf (ex_world X');
  ro_acts : ActsOk X';
  ro_life : Life env (signer_of i) X X';
  ro_stored : KeysOk account_mint ata_address -> StoredOk X -> StoredOk X';
}.

Lemma wf_at w : WorldWf w -> MarketsAt w.
Proof. intros [Hat _] k m Hk. by apply Hat. Qed.

Lemma world_ok X X' dr dh da ds :
  WorldWf (ex_world X) -> WorldStep (ex_world X) dr dh da ds (ex_world X') ->
  (forall tok, dr tok <= da (vault_address tok)) -> WorldWf (ex_world X').
Proof. intros Hw Hs Hd. by eapply world_step_wf. Qed.

Lemma create_deposit_run env accts paths nonce params X X' u :
  WorldWf (ex_world X) -> ActsOk X -> vaults_locked env -> params_u64 (deposit_params_of params) ->
  run env (CreateDeposit accts paths nonce params) X = (X', Ok u) ->
  RunOk env (CreateDeposit accts paths nonce params) X X'.
Proof.
  intros Hw Ha Hl Hp Hr. simpl in Hr.
  apply create_deposit_ok with (market_token_address := market_token_address) in Hr as (d & Hf & Hd &
    Hs & M1 & M2 & Hst); [|by apply wf_at|done].
  pose proof Hp as [[H1 _] [H2 _]]. simpl in H1, H2. split.
  - eapply world_ok; [exact Hw|exact Hs|]. intros tok. unfold plus, nothing.
    pose proof (sourced_vault _ _ _ _ tok Hl H1 M1). pose proof (sourced_vault _ _ _ _ tok Hl H2 M2).
      lia.
  - eapply acted_deposits_ok; [apply Hf|done|]. intros ? [= <-]. by rewrite Hd.
  - eapply life_deposit; [apply Hf|]. by apply (fresh_stage deposits) in Hf.
  - intros Hk Hso. eapply acted_stored; [apply Hf|done|]. intros ? [= <-]. by apply Hst.
Qed.

Lemma create_withdrawal_run env accts paths nonce params X X' u :
  WorldWf (ex_world X) -> ActsOk X -> vaults_locked env -> @in_u u64 (cw_market_token_amount params) ->
  run env (CreateWithdrawal accts paths nonce params) X = (X', Ok u) ->
  RunOk env (CreateWithdrawal accts paths nonce params) X X'.
Proof.
  intros Hw Ha Hl Hp Hr. simpl in Hr.
  apply create_withdrawal_ok with (market_token_address :=
    market_token_address) in Hr as (d & Hf & Hd & Hs & _ & M); [|by apply wf_at|done].
  split.
  - eapply world_ok; [exact Hw|exact Hs|]. intros tok. unfold nothing. eapply user_vault;
    [done|apply Hp|done].
  - eapply acted_withdrawals_ok; [apply Hf|done|]. intros ? [= <-]. by rewrite Hd.
  - eapply life_withdrawal; [apply Hf|]. by apply (fresh_stage withdrawals) in Hf.
  - intros _. eapply withdrawal_stored, Hf.
Qed.

Lemma create_shift_run env accts nonce params X X' u :
  WorldWf (ex_world X) -> ActsOk X -> vaults_locked env ->
    @in_u u64 (cs_from_market_token_amount params) ->
  run env (CreateShift accts nonce params) X = (X', Ok u) ->
    RunOk env (CreateShift accts nonce params) X X'.
Proof.
  intros Hw Ha Hl Hp Hr. simpl in Hr.
  apply create_shift_ok with (market_token_address := market_token_address) in Hr as (d & Hf & Hd & Hs
    & _ & M); [|by apply wf_at|done].
  split.
  - eapply world_ok; [exact Hw|exact Hs|]. intros tok. unfold nothing. eapply user_vault;
    [done|apply Hp|done].
  - eapply acted_shifts_ok; [apply Hf|done|]. intros ? [= <-]. by rewrite Hd.
  - eapply life_shift; [apply Hf|]. by apply (fresh_stage shifts) in Hf.
  - intros _. eapply shift_stored, Hf.
Qed.

Lemma settled_deposit env accts d st X X' :
  ActsOk X -> ex_deposits X !! xd_deposit accts = Some d -> st <> Pending ->
  signer_may to_key env (xd_authority accts) RoleKey.ORDER_KEEPER X ->
  Settled deposits (xd_deposit accts) d st X X' ->
  ActsOk X' /\ Life env (xd_authority accts) X X' /\ (StoredOk X -> StoredOk X').
Proof.
  intros Ha Hd Hst Hm Hs. split_and!.
  - eapply acted_deposits_ok; [apply Hs|done|]. intros ? [= <-]. simpl. by eapply ao_deposits.
  - eapply life_deposit; [apply Hs|]. by eapply (settled_stage deposits).
  - intros Hso. eapply acted_stored; [apply Hs|done|]. intros ? [= <-]. exact (Hso _ _ Hd).
Qed.

Lemma execute_deposit_run env accts remaining oracle fee throw X X' u :
  WorldWf (ex_world X) -> ActsOk X -> GoodPrices oracle ->
  run env (ExecuteDeposit accts remaining oracle fee throw) X = (X', Ok u) ->
  RunOk env (ExecuteDeposit accts remaining oracle fee throw) X X'.
Proof.
  intros Hw Ha Hg Hr. simpl in Hr.
  apply execute_deposit_outcome_ok with (market_token_address := market_token_address) in Hr
    as (d & Hd & _ & _ & He & _ & V1 & V2 & _ & _ & Hm & Hout); [|done|by apply wf_at|by apply Ha].
  destruct Hout as [(x & dh & Hset & Hs & _ & _ & Hx)|[Hset Hs]];
    (edestruct (settled_deposit env accts d) as (Ha' & Hlife & Hso);
      [exact Ha|exact Hd| |exact Hm|exact Hset|]; [done|]);
    (split; [|done..]);
    (eapply world_ok; [exact Hw|exact Hs|]); intros tok; [|unfold nothing; lia].
  unfold taken_recorded, taken_moved, plus. rewrite (side_backed _ _ _ _ _ _ V1),
    (side_backed _ _ _ _ _ _ V2).
  pose proof (StoredMarket.at_key_nonneg (xd_market_token_escrow accts) x (vault_address tok)).
  destruct Hx. lia.
Qed.

Lemma settled_withdrawal env accts d st X X' :
  ActsOk X -> ex_withdrawals X !! xw_withdrawal accts = Some d ->
  st <> Pending -> signer_may to_key env (xw_authority accts) RoleKey.ORDER_KEEPER X ->
  Settled withdrawals (xw_withdrawal accts) d st X X' ->
  ActsOk X' /\ Life env (xw_authority accts) X X' /\ (StoredOk X -> StoredOk X').
Proof.
  intros Ha Hd Hst Hm Hs. split_and!.
  - eapply acted_withdrawals_ok; [apply Hs|done|]. intros ? [= <-]. simpl. by eapply ao_withdrawals.
  - eapply life_withdrawal; [apply Hs|]. by eapply (settled_stage withdrawals).
  - eapply withdrawal_stored, Hs.
Qed.

Lemma execute_withdrawal_run env accts remaining oracle fee throw X X' u :
  WorldWf (ex_world X) -> ActsOk X -> GoodPrices oracle ->
  run env (ExecuteWithdrawal accts remaining oracle fee throw) X = (X', Ok u) ->
  RunOk env (ExecuteWithdrawal accts remaining oracle fee throw) X X'.
Proof.
  intros Hw Ha Hg Hr. simpl in Hr.
  apply execute_withdrawal_ok with (market_token_address := market_token_address) in Hr
    as (d & Hd & [_ [_ _ He] [_ _ He1] [_ _ He2]] & Hm & Hout); [|done|by apply wf_at|by apply Ha].
  destruct Hout as [(x & y & Hset & Hs & _)|[Hset Hs]];
    (edestruct (settled_withdrawal env accts d) as (Ha' & Hlife & Hso);
      [exact Ha|exact Hd| |exact Hm|exact Hset|]; [done|]);
    (split; [|done..]);
    (eapply world_ok; [exact Hw|exact Hs|]); intros tok; [|unfold nothing; lia].
  unfold plus, moved. rewrite He, He1, He2, !at_ata, !at_vault_eq. lia.
Qed.

Lemma settled_shift env accts d st X X' :
  ActsOk X -> ex_shifts X !! xs_shift accts = Some d ->
  st <> Pending -> signer_may to_key env (xs_authority accts) RoleKey.ORDER_KEEPER X ->
  Settled shifts (xs_shift accts) d st X X' ->
  ActsOk X' /\ Life env (xs_authority accts) X X' /\ (StoredOk X -> StoredOk X').
Proof.
  intros Ha Hd Hst Hm Hs. split_and!.
  - eapply acted_shifts_ok; [apply Hs|done|]. intros ? [= <-]. simpl. by eapply ao_shifts.
  - eapply life_shift; [apply Hs|]. by eapply (settled_stage shifts).
  - eapply shift_stored, Hs.
Qed.

Lemma execute_shift_run env accts oracle fee throw X X' u :
  WorldWf (ex_world X) -> ActsOk X -> GoodPrices oracle ->
  run env (ExecuteShift accts oracle fee throw) X = (X', Ok u) ->
  RunOk env (ExecuteShift accts oracle fee throw) X X'.
Proof.
  intros Hw Ha Hg Hr. simpl in Hr.
  apply execute_shift_ok with (market_token_address := market_token_address) in Hr
    as (d & Hd & [_ [_ _ He] [_ _ He1] _ _] & Hm & Hout); [|done|by apply wf_at|by apply Ha].
  destruct Hout as [(x & Hset & Hs & _)|[Hset Hs]];
    (edestruct (settled_shift env accts d) as (Ha' & Hlife & Hso); [exact Ha|exact Hd| |exact Hm|exact Hset|];
      [done|]);
    (split; [|done..]);
    (eapply world_ok; [exact Hw|exact Hs|]); intros tok; [|unfold nothing; lia].
  unfold plus, nothing. rewrite He, He1, !at_ata. lia.
Qed.

(** *** Closings *)

(** A part of what is owed to somebody: the tokens of an escrow, to its associated token account, or to the
    wallet itself where that is allowed, as it is for native tokens. *)
Record Part : Type := mkPart { pt_to : Pubkey; pt_token : TokenAndAccount; pt_wallet : bool }.

(** What an action owes when it is closed. *)
Definition deposit_owed (d : Deposit) : list Part :=
  [mkPart (Actions.receiver (deposit_header d)) (deposit_market_token (deposit_tokens d)) false;
   mkPart (header_owner (deposit_header d)) (initial_long_token (deposit_tokens d)) true;
   mkPart (header_owner (deposit_header d)) (initial_short_token (deposit_tokens d)) true].
Definition withdrawal_owed (d : Withdrawal) : list Part :=
  [mkPart (header_owner (withdrawal_header d)) (withdrawal_market_token (withdrawal_tokens d)) false;
   mkPart (Actions.receiver (withdrawal_header d)) (final_long_token (withdrawal_tokens d)) true;
   mkPart (Actions.receiver (withdrawal_header d)) (final_short_token (withdrawal_tokens d)) true].
Definition shift_owed (d : Shift) : list Part :=
  [mkPart (header_owner (shift_header d)) (from_market_token (shift_tokens d)) false;
   mkPart (Actions.receiver (shift_header d)) (to_market_token (shift_tokens d)) false].

(** The account that a part may be paid to. *)
Definition target_of (part : Part) (mint target : Pubkey) : Prop :=
  target = ata_address (pt_to part) mint \/ pt_wallet part = true /\ target = pt_to part.

(** The transfer of a part. *)
Record TransferOf (addr : Pubkey) (h : ActionHeader) (part : Part) (e : EscrowTransfer) : Prop := {
  to_account : account (pt_token part) = Some (escrow e);
  to_escrow : escrow e = ata_address addr (et_mint e);
  to_mint t : token (pt_token part) = Some t -> t = et_mint e;
  to_target : target_of part (et_mint e) (ata e);
  to_unwrap : should_unwrap_native e = should_unwrap_native_token (BO := BO) h;
}.

(** The escrow of a part is the associated token account of the action at [addr] for its token. *)
Definition PartOk (addr : Pubkey) (part : Part) : Prop := forall key t,
  account (pt_token part) = Some key -> token (pt_token part) = Some t -> key = ata_address addr t.

(** The transfers pay what is owed, all of it. *)
Record Pays (addr : Pubkey) (h : ActionHeader) (owed : list Part)
    (transfers : list (store_result EscrowTransfer)) : Prop := {
  pays_part e : Ok e ∈ transfers -> exists part, part ∈ owed /\ TransferOf addr h part e;
  pays_all part key : part ∈ owed -> account (pt_token part) = Some key ->
    exists r, r ∈ transfers /\ forall e, r = Ok e -> escrow e = key;
  pays_ok part : part ∈ owed -> PartOk addr part;
}.

Lemma pays_nil addr h : Pays addr h [] [].
Proof. by split; [intros ? ?%elem_of_nil|intros ? ? ?%elem_of_nil|intros ? ?%elem_of_nil]. Qed.

Lemma pays_cons addr h part r owed transfers :
  PartOk addr part -> (forall e, r = Ok e -> TransferOf addr h part e) -> Pays addr h owed transfers ->
  Pays addr h (part :: owed) (r :: transfers).
Proof.
  intros Hok Hw [H1 H2 H3]. split; [..|by intros part' [->|Hin]%elem_of_cons; auto].
  - intros e [Hr|He]%elem_of_cons; [exists part; split; [set_solver|by apply Hw]|].
    apply H1 in He as (part' & ? & ?). exists part'. set_solver.
  - intros part' key [->|Hin]%elem_of_cons Ha.
    + exists r. split; [set_solver|]. intros e Hr. pose proof (to_account _ _ _ _ (Hw _ Hr)). congruence.
    + destruct (H2 _ _ Hin Ha) as (r' & ? & ?). exists r'. set_solver.
Qed.

(** A part that needs no transfer: it has no escrow, or one that is emptied already. *)
Lemma pays_covered addr h part owed owed' transfers :
  (forall part', part' ∈ owed' <-> part' = part \/ part' ∈ owed) -> Pays addr h owed transfers ->
  PartOk addr part ->
  (forall key, account (pt_token part) = Some key ->
     exists r, r ∈ transfers /\ forall e, r = Ok e -> escrow e = key) ->
  Pays addr h owed' transfers.
Proof.
  intros Heq [H1 H2 H3] Hok Hw. split; [..|by intros part' [->|Hin]%Heq; auto].
  - intros e He. apply H1 in He as (part' & ? & ?). exists part'. rewrite Heq. auto.
  - intros part' key [->|Hin]%Heq Ha; [by apply Hw|by eapply H2].
Qed.

Lemma target_ata part mint a :
  is_associated_token_account ata_address a (pt_to part) mint = true -> target_of part mint a.
Proof. intros <-%Z.eqb_eq. by left. Qed.

Lemma target_wallet part mint a :
  pt_wallet part = true -> is_associated_token_account_or_owner ata_address a (pt_to part) mint = true ->
  target_of part mint a.
Proof. intros Hw [H| ->%Z.eqb_eq]%orb_true_iff; [by apply target_ata|by right]. Qed.

(** The transfer out of an escrow that the action names. *)
Lemma transfer_of env addr h executor part rr mint a escrow_ init :
  account (pt_token part) = Some escrow_ -> token (pt_token part) = Some mint ->
  associated_token ata_address env escrow_ addr mint = Ok tt -> target_of part mint a ->
  forall e, Ok (escrow_transfer (BO := BO) h executor (pt_to part) rr mint a escrow_ init) = Ok e
    :> store_result EscrowTransfer -> TransferOf addr h part e.
Proof.
  intros Ha Ht [He _]%associated_token_ok Hto e [= <-]. split; try done. simpl. congruence.
Qed.

Lemma part_ok env addr part escrow_ mint :
  account (pt_token part) = Some escrow_ -> token (pt_token part) = Some mint ->
  associated_token ata_address env escrow_ addr mint = Ok tt -> PartOk addr part.
Proof. intros Ha Ht [He _]%associated_token_ok key t. rewrite Ha, Ht. by intros [= <-] [= <-]. Qed.

(** The refund of an initial token. *)
Lemma check_ata_ok env addr owner self a :
  check_ata ata_address env addr owner self a = Ok tt ->
  account self = ata_escrow a /\ PartOk addr (mkPart owner self true)
  /\ forall h executor init r, r ∈ deposit_refund (BO := BO) h executor owner a init ->
       forall e, r = Ok e -> TransferOf addr h (mkPart owner self true) e.
Proof.
  intros Hr. apply rbind_ok in Hr as ([] & Ht & Hr).
  apply rbind_ok in Hr as ([] & E%require_ok%bool_decide_eq_true_1 & Hr).
  apply rbind_ok in Hr as ([] & He & Hx). split_and!; [done| |].
  { intros k t Hk Hself. simpl in *. rewrite E in Hk.
    destruct (with_mint_ok _ _ _ _ He Hk) as (m & Hm & [-> _]%associated_token_ok).
    unfold token_matches in Ht. rewrite Hm, Hself in Ht. by apply require_ok, Z.eqb_eq in Ht as ->. }
  intros h executor init r Hin e ->. unfold deposit_refund in Hin. destruct (ata_escrow a) as [k|]; [|by apply elem_of_nil in Hin].
  apply list_elem_of_singleton in Hin.
  destruct (with_mint_ok _ _ _ _ He eq_refl) as (m & Hm & [-> _]%associated_token_ok).
  rewrite Hm in Hin, Hx, Ht. destruct (ata_account a) as [x|]; [|done]. injection Hin as ->.
  apply rbind_ok in Hx as (? & [= <-] & Hx%require_ok). split; simpl; try done.
  - intros t Hself. unfold token_matches in Ht. rewrite Hself in Ht. by apply require_ok, Z.eqb_eq in Ht.
  - by apply target_wallet.
Qed.

Lemma pays_refund env addr owner self a h executor init owed transfers :
  check_ata ata_address env addr owner self a = Ok tt -> Pays addr h owed transfers ->
  Pays addr h (mkPart owner self true :: owed)
    (deposit_refund (BO := BO) h executor owner a init ++ transfers).
Proof.
  intros (E & Hok & Hr)%check_ata_ok Hp. specialize (Hr h executor init). unfold deposit_refund in *.
  destruct (ata_escrow a) as [k|].
  - apply pays_cons; [done| |done]. apply Hr. set_solver.
  - apply pays_covered with (mkPart owner self true) owed; [set_solver|exact Hp|done|].
    simpl. by rewrite E.
Qed.

(** What a closing does, for every kind. *)
Definition Apart (addr : Pubkey) (owed : list Part) : Prop :=
  forall part, part ∈ owed -> pt_to part <> addr /\ forall mint, pt_to part <> ata_address addr mint.

(** The escrow [key] of the part [part] is empty, and its tokens, unless they are paid as lamports, have arrived
    at an account of somebody to whom they are owed. *)
Definition PaidOut (addr : Pubkey) (h : ActionHeader) (owed : list Part) (part : Part) (key : Pubkey) X X' :
    Prop :=
  exists mint, token (pt_token part) = Some mint /\ key = ata_address addr mint
  /\ amount_of (tokens_of (ex_world X')) key = 0
  /\ ((mint = native_mint -> should_unwrap_native_token (BO := BO) h = false) ->
        exists part' target, part' ∈ owed /\ account (pt_token part') = Some key /\ target_of part' mint target
        /\ amount_of (tokens_of (ex_world X)) target + amount_of (tokens_of (ex_world X)) key
           <= amount_of (tokens_of (ex_world X')) target).

(** The tokens that an action must name to be closed. *)
Definition deposit_named (d : Deposit) : Prop := is_Some (token (deposit_market_token (deposit_tokens d))).
Definition withdrawal_named (d : Withdrawal) : Prop :=
  forall part, part ∈ withdrawal_owed d -> is_Some (token (pt_token part)).
Definition shift_named (d : Shift) : Prop :=
  forall part, part ∈ shift_owed d -> is_Some (token (pt_token part)).

Record Closed {A} (k : Kind T A) (owed : A -> list Part) (named : A -> Prop) env executor addr (a : A) X X' : Prop := {
  cl_action : kind_get k X !! addr = Some a;
  cl_may : may_close to_key k env executor a X;
  cl_named : named a;
  cl_paid : exists transfers fin, Processed native_mint transfers fin X X'
    /\ Pays addr (header k a) (owed a) transfers
    /\ if fin then Acted k addr None X X' else acts X' = acts X;
}.

Lemma closing {A} (k : Kind T A) `{!KindOk k} (owed : A -> list Part) (named : A -> Prop) env addr executor
    owner check transfers X X' u :
  close to_key account_mint native_mint token_rent store_wallet env k addr executor owner check
    transfers X
    = (X', Ok u) ->
  (forall a init, check a = Ok tt -> named a /\ Pays addr (header k a) (owed a) (transfers a init)) ->
  exists a, Closed k owed named env executor addr a X X'.
Proof.
  intros Hr Hp. apply (close_ok to_key vault_address account_mint ata_address native_mint
    token_rent store_wallet
           market_token_address) in Hr as (a & init & fin & Ha & Hc & Hm & Hpr & Hd); [|done].
  destruct (Hp a init Hc) as [Hn Hp']. exists a. split; [done|done|done|]. by exists (transfers a init), fin.
Qed.

Lemma check_close_header_ok h owner receiver_ :
  check_close this h owner receiver_ = Ok tt ->
  header_owner h = owner /\ Actions.receiver h = receiver_.
Proof. by intros ([] & ?%require_ok%Z.eqb_eq & ([] & ?%require_ok%Z.eqb_eq & _)%rbind_ok)%rbind_ok. Qed.

Lemma close_deposit_closed env accts X X' u :
  run env (CloseDeposit accts) X = (X', Ok u) ->
  exists d, Closed deposits deposit_owed deposit_named env (kd_executor accts) (kd_deposit accts) d X X'.
Proof.
  intros Hr. simpl in Hr. eapply (closing deposits deposit_owed deposit_named); [exact Hr|].
  intros d init Hc. apply rbind_ok in Hc as ([] & T0%token_is_ok & Hc).
  apply rbind_ok in Hc as ([] & [Ho Hrec]%check_close_header_ok & Hc). apply rbind_ok in Hc as ([] & _ & Hc).
  apply rbind_ok in Hc as ([] & A0%account_is_ok & Hc). apply rbind_ok in Hc as ([] & He & Hc).
  apply rbind_ok in Hc as ([] & Hl & Hc). apply rbind_ok in Hc as ([] & Hs & Hx%require_ok).
  split; [by eexists|]. unfold deposit_owed. rewrite Ho, Hrec. apply pays_cons; [by eapply part_ok| |].
  { eapply (transfer_of _ _ _ _ (mkPart (kd_receiver accts) _ false)); try done. by apply target_ata. }
  case_bool_decide as E.
  - set (long := mkPart (kd_owner accts) (initial_long_token (deposit_tokens d)) true).
    assert (Pays (kd_deposit accts) (deposit_header d) [long]
              (deposit_refund (BO := BO) (deposit_header d) (kd_executor accts) (kd_owner accts)
                 (kd_long accts) init ++ [])) as Hp by (eapply pays_refund; [exact Hl|apply pays_nil]).
    eapply (pays_covered _ _ (mkPart (kd_owner accts) (initial_short_token (deposit_tokens d)) true));
      [|exact Hp|by apply check_ata_ok in Hs as (_ & ? & _)|]; [set_solver|].
    intros key Hkey. apply (pays_all _ _ _ _ Hp long key); [set_solver|]. simpl in *.
    apply check_ata_ok in Hl as [-> _]. apply check_ata_ok in Hs as (E' & _). congruence.
  - eapply pays_refund; [exact Hl|]. rewrite <- (app_nil_r (deposit_refund _ _ _ _ _)).
    eapply pays_refund; [exact Hs|apply pays_nil].
Qed.

Lemma close_withdrawal_closed env accts X X' u :
  run env (CloseWithdrawal accts) X = (X', Ok u) ->
  exists d, Closed withdrawals withdrawal_owed withdrawal_named env (kw_executor accts) (kw_withdrawal accts) d X X'.
Proof.
  intros Hr. simpl in Hr. eapply (closing withdrawals withdrawal_owed withdrawal_named); [exact Hr|].
  intros d init Hc. apply rbind_ok in Hc as ([] & T0%token_is_ok & Hc).
  apply rbind_ok in Hc as ([] & T1%token_is_ok & Hc). apply rbind_ok in Hc as ([] & T2%token_is_ok & Hc).
  apply rbind_ok in Hc as ([] & [Ho Hrec]%check_close_header_ok & Hc).
  apply rbind_ok in Hc as ([] & A0%account_is_ok & Hc).
  apply rbind_ok in Hc as ([] & A1%account_is_ok & Hc). apply rbind_ok in Hc as ([] & A2%account_is_ok & Hc).
  apply rbind_ok in Hc as ([] & E0 & Hc). apply rbind_ok in Hc as ([] & E1 & Hc).
  apply rbind_ok in Hc as ([] & E2 & Hc). apply rbind_ok in Hc as ([] & X0%require_ok & Hc).
  apply rbind_ok in Hc as ([] & X1%require_ok & X2%require_ok).
  split; [by intros part [->|[->|[->|[]%elem_of_nil]%elem_of_cons]%elem_of_cons]%elem_of_cons; eexists|].
  unfold withdrawal_owed. rewrite Ho, Hrec. apply pays_cons; [by eapply part_ok| |].
  { eapply (transfer_of _ _ _ _ (mkPart (kw_owner accts) _ false)); try done. by apply target_ata. }
  assert (forall e, Ok (escrow_transfer (BO := BO) (withdrawal_header d) (kw_executor accts)
      (kw_receiver accts) (kw_owner accts) (kw_final_long_token accts) (kw_final_long_token_ata accts)
      (kw_final_long_token_escrow accts) init) = Ok e :> store_result EscrowTransfer ->
      TransferOf (kw_withdrawal accts) (withdrawal_header d)
        (mkPart (kw_receiver accts) (final_long_token (withdrawal_tokens d)) true) e) as Hlong.
  { eapply (transfer_of _ _ _ _ (mkPart (kw_receiver accts) _ true)); try done. by apply target_wallet. }
  destruct (Z.eqb_spec (kw_final_long_token_escrow accts) (kw_final_short_token_escrow accts)) as [E|E].
  - apply pays_covered with (mkPart (kw_receiver accts) (final_short_token (withdrawal_tokens d)) true)
      [mkPart (kw_receiver accts) (final_long_token (withdrawal_tokens d)) true]; [set_solver| |by eapply part_ok|].
    + apply pays_cons; [by eapply part_ok|exact Hlong|apply pays_nil].
    + simpl. rewrite A2, <- E. intros key [= <-]. eexists. split; [by apply elem_of_cons; left|].
      by intros e [= <-].
  - apply pays_cons; [by eapply part_ok|exact Hlong|].
    apply pays_cons; [by eapply part_ok| |apply pays_nil].
    eapply (transfer_of _ _ _ _ (mkPart (kw_receiver accts) _ true)); try done. by apply target_wallet.
Qed.

Lemma close_shift_closed env accts X X' u :
  run env (CloseShift accts) X = (X', Ok u) ->
  exists d, Closed shifts shift_owed shift_named env (ks_executor accts) (ks_shift accts) d X X'.
Proof.
  intros Hr. simpl in Hr. eapply (closing shifts shift_owed shift_named); [exact Hr|].
  intros d init Hc. apply rbind_ok in Hc as ([] & [Ho Hrec]%check_close_header_ok & Hc).
  apply rbind_ok in Hc as ([] & A0%account_is_ok & Hc). apply rbind_ok in Hc as ([] & A1%account_is_ok & Hc).
  apply rbind_ok in Hc as ([] & T0%token_is_ok & Hc). apply rbind_ok in Hc as ([] & T1%token_is_ok & Hc).
  apply rbind_ok in Hc as ([] & E0 & Hc). apply rbind_ok in Hc as ([] & E1 & Hc).
  apply rbind_ok in Hc as ([] & X0%require_ok & X1%require_ok).
  split; [by intros part [->|[->|[]%elem_of_nil]%elem_of_cons]%elem_of_cons; eexists|].
  unfold shift_owed. rewrite Ho, Hrec.
  apply pays_cons; [by eapply part_ok| |apply pays_cons; [by eapply part_ok| |apply pays_nil]].
  - eapply (transfer_of _ _ _ _ (mkPart (ks_owner accts) _ false)); try done. by apply target_ata.
  - eapply (transfer_of _ _ _ _ (mkPart (ks_receiver accts) _ false)); try done. by apply target_ata.
Qed.

(** A closing keeps the vaults, and the life of the action. *)
Lemma closed_world {A} (k : Kind T A) owed named env executor addr a X X' :
  WorldWf (ex_world X) -> Closed k owed named env executor addr a X X' -> WorldWf (ex_world X').
Proof.
  intros [Hat Hc] [_ _ _ (transfers & fin & [Hm _ Ho _ _ _] & [Hp _ _] & _)]. split; rewrite Hm; [done|].
  intros tok. etransitivity; [apply Hc|]. apply Ho.
  intros e (w & _ & [_ -> _ _ _])%Hp E. by destruct (Hata addr (et_mint e) tok).
Qed.

Lemma closed_acts {A} (k : Kind T A) owed named env executor addr a X X' :
  Closed k owed named env executor addr a X X' -> acts X' = acts X \/ Acted k addr None X X'.
Proof. intros [_ _ _ (? & [] & _ & _ & Hd)]; auto. Qed.

Lemma close_deposit_run env accts X X' u :
  WorldWf (ex_world X) -> ActsOk X -> run env (CloseDeposit accts) X = (X', Ok u) ->
  RunOk env (CloseDeposit accts) X X'.
Proof.
  intros Hw Ha (d & Hc)%close_deposit_closed. pose proof (closed_world _ _ _ _ _ _ _ _ _ Hw Hc) as Hw'.
  pose proof Hc as [Hk Hm _ _]. destruct (closed_acts _ _ _ _ _ _ _ _ _ Hc) as [E|Hacted].
  - split; [done|by eapply acts_ok_eq|by apply life_same|intros _; by apply acts_stored].
  - split; [done|by eapply acted_deposits_ok| |].
    + eapply life_deposit; [exact Hacted|]. by eapply (closed_stage deposits).
    + intros _ Hso. by eapply acted_stored.
Qed.

Lemma close_withdrawal_run env accts X X' u :
  WorldWf (ex_world X) -> ActsOk X -> run env (CloseWithdrawal accts) X = (X', Ok u) ->
  RunOk env (CloseWithdrawal accts) X X'.
Proof.
  intros Hw Ha (d & Hc)%close_withdrawal_closed. pose proof (closed_world _ _ _ _ _ _ _ _ _ Hw Hc) as Hw'.
  pose proof Hc as [Hk Hm _ _]. destruct (closed_acts _ _ _ _ _ _ _ _ _ Hc) as [E|Hacted].
  - split; [done|by eapply acts_ok_eq|by apply life_same|intros _; by apply acts_stored].
  - split; [done|by eapply acted_withdrawals_ok| |].
    + eapply life_withdrawal; [exact Hacted|]. by eapply (closed_stage withdrawals).
    + intros _. by eapply withdrawal_stored.
Qed.

Lemma close_shift_run env accts X X' u :
  WorldWf (ex_world X) -> ActsOk X -> run env (CloseShift accts) X = (X', Ok u) ->
  RunOk env (CloseShift accts) X X'.
Proof.
  intros Hw Ha (d & Hc)%close_shift_closed. pose proof (closed_world _ _ _ _ _ _ _ _ _ Hw Hc) as Hw'.
  pose proof Hc as [Hk Hm _ _]. destruct (closed_acts _ _ _ _ _ _ _ _ _ Hc) as [E|Hacted].
  - split; [done|by eapply acts_ok_eq|by apply life_same|intros _; by apply acts_stored].
  - split; [done|by eapply acted_shifts_ok| |].
    + eapply life_shift; [exact Hacted|]. by eapply (closed_stage shifts).
    + intros _. by eapply shift_stored.
Qed.

(** Every instruction. *)
Lemma instruction_run env i X X' u :
  WorldWf (ex_world X) -> ActsOk X -> vaults_locked env -> exchange_sane i ->
  run env i X = (X', Ok u) -> RunOk env i X X'.
Proof.
  intros Hw Ha Hl Hi Hr. destruct i.
  - by eapply create_deposit_run.
  - by eapply execute_deposit_run.
  - by eapply close_deposit_run.
  - by eapply create_withdrawal_run.
  - by eapply execute_withdrawal_run.
  - by eapply close_withdrawal_run.
  - by eapply create_shift_run.
  - by eapply execute_shift_run.
  - by eapply close_shift_run.
Qed.

(** *** Histories *)

Context (get_token_config : Pubkey -> option TokenConfig) (mint_decimals : Pubkey -> Z).

(** The states of a store with its actions. It starts without markets and without actions. Then any
    signer runs any instruction, of the exchange or of the markets; instructions of the store
    change its account; and tokens and lamports move in other ways, none of which takes tokens out
    of a vault. *)
Inductive ExchangeReach : Exchange T -> Prop :=
| ExchangeStart s t l : ExchangeReach (mkExchange (StoredMarket.mkWorld s ∅ ∅ t) l ∅ ∅ ∅)
| ExchangeRun X X' u env i :
    ExchangeReach X -> vaults_locked env -> exchange_sane i -> run env i X = (X', Ok u) ->
      ExchangeReach X'
| ExchangeMarket X w' u slot now signer i :
    ExchangeReach X -> StoredMarket.instruction_sane i ->
    StoredMarket.run_instruction to_key this market_token_address vault_address get_token_config
      mint_decimals account_mint slot now signer i (ex_world X) = (w', Ok u) ->
    ExchangeReach (put_world w' X)
| ExchangeStore X s : ExchangeReach X -> ExchangeReach (put_world (StoredMarket.put_store s (ex_world
  X)) X)
| ExchangeTokens X t l :
    ExchangeReach X ->
    (forall tok, amount_of (tokens_of (ex_world X)) (vault_address tok) <= amount_of t (vault_address
      tok)) ->
    ExchangeReach (put_ex_lamports l (put_world (StoredMarket.put_tokens t (ex_world X)) X)).

Lemma reach_wf X : ExchangeReach X -> WorldWf (ex_world X) /\ ActsOk X.
Proof.
  induction 1 as [s t l|X X' u env i _ [Hw Ha] Hl Hi Hr|X w' u slot now signer i _ [Hw Ha] Hi Hr
                 |X s _ [Hw Ha]|X t l _ [Hw Ha] Ht].
  - split; [|by split; simpl; intros addr d ?%lookup_empty_Some].
    split; [by simpl; intros ? ? ?%lookup_empty_Some|].
    intros tok. unfold StoredMarket.all_recorded. simpl. rewrite map_sum_empty. apply amount_nonneg.
  - by apply instruction_run in Hr as [? ? _ _].
  - split; [by eapply StoredMarket.instruction_wf|]. by eapply acts_ok_eq; [|exact Ha].
  - split; [by eapply (StoredMarket.world_same_wf _ _ _ (ex_world X))|]. by eapply acts_ok_eq;
    [|exact Ha].
  - split; [|by eapply acts_ok_eq; [|exact Ha]]. destruct Hw as [Hat Hc]. split;
    [done|]. intros tok. simpl.
    specialize (Hc tok). specialize (Ht tok). unfold tokens_of in Ht. lia.
Qed.

(** C1: the exchange is backed. Whatever is created, executed, cancelled and closed, in whatever
    order and by whomever, together with the instructions of the markets: the vault of every token
    holds at least what all the markets together have recorded of it, and every market is well
    formed (its pools and balances are in range) and is the one of its market token. *)
Theorem exchange_backed X :
  ExchangeReach X ->
  (forall tok, StoredMarket.all_recorded (StoredMarket.world_markets (ex_world X)) tok
               <= amount_of (tokens_of (ex_world X)) (vault_address tok))
  /\ (forall key m, StoredMarket.world_markets (ex_world X) !! key = Some m ->
        StoredMarket.MarketWf m /\ key = market_token_mint (StoredMarket.meta m)).
Proof.
  intros [[Hat Hc] _]%reach_wf. split; [exact Hc|]. intros key m [Hwf _ Hk _]%Hat. done.
Qed.

(** C2: the life of an action. In every history, a successful instruction changes the actions only
    as [Stage] says: a new one is pending and belongs to the signer, at the address of its owner
    and nonce; a pending one is completed or cancelled by an order keeper, never twice, and keeps
    the rest of its header; and only its owner closes a pending one, and a settled one its owner or
    an order keeper. *)
Theorem action_life env i X X' u :
  ExchangeReach X -> vaults_locked env -> exchange_sane i -> run env i X = (X', Ok u) ->
  Life env (signer_of i) X X'.
Proof. intros [Hw Ha]%reach_wf Hl Hi Hr. by apply instruction_run in Hr as [_ _ ? _]. Qed.

(** Associated token accounts are derived of their owner and their mint, as their addresses say. *)
Context (Hkeys : KeysOk account_mint ata_address).
Context (Hinj : forall owner mint owner' mint',
  ata_address owner mint = ata_address owner' mint' -> owner = owner' /\ mint = mint').

Lemma reach_stored X : ExchangeReach X -> StoredOk X.
Proof.
  induction 1 as [s t l|X X' u env i HX IH Hl Hi Hr|X w' u slot now signer i _ IH Hi Hr
                 |X s _ IH|X t l _ IH Ht]; [|by apply reach_wf in HX as [Hw Ha];
    apply instruction_run in Hr as [_ _ _ Hs]; auto|by eapply stored_eq; [|exact IH]..].
  intros addr d Hd. simpl in Hd. by apply lookup_empty_Some in Hd.
Qed.

(** C3: the execution of a deposit, where no associated token account and no mint of one is the default
    key. It needs an order keeper. Whatever accounts it is given, it either takes exactly the amounts of the deposit out of the deposit's own escrows (its associated token
    accounts for its initial tokens) into the vaults, records them for the markets, adds them to the
    pools, and mints at least the minimum of market tokens of the deposit's market, all of them into the
    deposit's escrow for them; or the deposit is cancelled, and no token, record, pool or supply has
    changed. *)
Theorem deposit_executed env accts remaining oracle fee throw X X' u :
  ExchangeReach X -> GoodPrices oracle ->
  run env (ExecuteDeposit accts remaining oracle fee throw) X = (X', Ok u) ->
  exists d, ex_deposits X !! xd_deposit accts = Some d
    /\ signer_may to_key env (xd_authority accts) RoleKey.ORDER_KEEPER X
    /\ DepositOutcome this vault_address ata_address market_token_address (xd_deposit accts) d X X'.
Proof.
  intros HX Hg Hr. pose proof (reach_stored _ HX) as Hs. apply reach_wf in HX as [Hw Ha].
  eapply execute_deposit_stored; [done|by apply wf_at| |exact Hr].
  intros d Hd. split; [by eapply ao_deposits|by eapply Hs].
Qed.

(** C4: the execution of a withdrawal. It needs an order keeper. Whatever accounts it is given, it either
    takes exactly the market tokens of the withdrawal out of the withdrawal's own escrow, burns them, and
    pays at least the minimum of each final token out of the vaults into the withdrawal's own escrows
    (its associated token accounts), taking as much out of the records and the pools; or the withdrawal is
    cancelled, and no token, record, pool or supply has changed. *)
Theorem withdrawal_executed env accts remaining oracle fee throw X X' u :
  ExchangeReach X -> GoodPrices oracle ->
  run env (ExecuteWithdrawal accts remaining oracle fee throw) X = (X', Ok u) ->
  exists d, ex_withdrawals X !! xw_withdrawal accts = Some d
    /\ signer_may to_key env (xw_authority accts) RoleKey.ORDER_KEEPER X
    /\ WithdrawalOutcome this vault_address ata_address market_token_address (xw_withdrawal accts) d X X'.
Proof.
  intros [Hw Ha]%reach_wf Hg Hr. simpl in Hr.
  apply execute_withdrawal_ok with (market_token_address := market_token_address) in Hr
    as (d & Hd & Hac & Hm & Hout); [|done|by apply wf_at|by apply Ha].
  exists d. split_and!; [done|done|]. by apply withdrawal_outcome.
Qed.

(** C5: the execution of a shift. It needs an order keeper. Whatever accounts it is given, it either takes
    exactly the market tokens of the shift out of the shift's own escrow, burns them, and mints at least
    the minimum of the other market's tokens into the shift's own escrow for them (both are its associated
    token accounts), while every vault, and the records and the pools of the two markets together, stay
    as they were; or the shift is cancelled, and nothing of this has changed. *)
Theorem shift_executed env accts oracle fee throw X X' u :
  ExchangeReach X -> GoodPrices oracle ->
  run env (ExecuteShift accts oracle fee throw) X = (X', Ok u) ->
  exists d, ex_shifts X !! xs_shift accts = Some d
    /\ signer_may to_key env (xs_authority accts) RoleKey.ORDER_KEEPER X
    /\ ShiftOutcome this ata_address market_token_address (xs_shift accts) d X X'.
Proof.
  intros [Hw Ha]%reach_wf Hg Hr. simpl in Hr.
  apply execute_shift_ok with (market_token_address := market_token_address) in Hr
    as (d & Hd & Hac & Hm & Hout); [|done|by apply wf_at|by apply Ha].
  exists d. split_and!; [done|done|]. by apply shift_outcome.
Qed.

(** *** Closings *)

(** A closing of the action at [addr]: [executor] may close it; no supply and no market changes, and only
    the escrows of the action lose tokens. When the action is removed, every escrow that it names is paid
    out, if those to whom it owes are neither the action itself nor one of its escrows. *)
Definition Closes {A} (k : Kind T A) (owed : A -> list Part) env executor addr X X' : Prop :=
  exists a, kind_get k X !! addr = Some a /\ may_close to_key k env executor a X
  /\ StoredMarket.world_markets (ex_world X') = StoredMarket.world_markets (ex_world X)
  /\ (forall m, supply_of (tokens_of (ex_world X')) m = supply_of (tokens_of (ex_world X)) m)
  /\ (forall key, (forall part, part ∈ owed a -> account (pt_token part) <> Some key) ->
        amount_of (tokens_of (ex_world X)) key <= amount_of (tokens_of (ex_world X')) key)
  /\ (acts X' = acts X
      \/ Acted k addr None X X'
         /\ (Apart addr (owed a) -> forall part key, part ∈ owed a ->
               account (pt_token part) = Some key ->
               PaidOut addr (header k a) (owed a) part key X X')).

Lemma closed_closes {A} (k : Kind T A) (owed : A -> list Part) (named : A -> Prop) env executor addr X X' :
  (exists a, Closed k owed named env executor addr a X X') ->
  (forall a part key, kind_get k X !! addr = Some a -> named a -> part ∈ owed a ->
     account (pt_token part) = Some key -> is_Some (token (pt_token part))) ->
  Closes k owed env executor addr X X'.
Proof.
  intros (a & [Ha Hm Hnamed (transfers & fin & [Pm Ps Po Pk Pe Pp] & [Hp Hall Hok] & Hd)]) Ht.
  exists a. split_and!; [done..| |].
  { intros key Hk. apply Po. intros e (part & Hin & Hto)%Hp ->. by apply (Hk part), (to_account _ _ _ _ Hto). }
  destruct fin; [right|by left]. split; [done|]. intros Hap part key Hin Hkey.
  destruct (Hall _ _ Hin Hkey) as (r & Hr & He). destruct (Pk r eq_refl Hr) as [e ->].
  specialize (He e eq_refl) as <-. destruct (Ht _ _ _ Ha Hnamed Hin Hkey) as [mint Hmint].
  assert (forall e' e'', Ok e' ∈ transfers -> Ok e'' ∈ transfers -> ata e' <> escrow e'') as Hne.
  { intros e' e'' (p' & Hin' & T')%Hp (p'' & Hin'' & T'')%Hp. destruct (Hap _ Hin') as [Hn1 Hn2].
    rewrite (to_escrow _ _ _ _ T''). destruct (to_target _ _ _ _ T') as [->|[_ ->]]; [|done].
    by intros [E _]%Hinj. }
  pose proof (Hok _ Hin _ _ Hkey Hmint) as Hk.
  assert (forall e' part', TransferOf addr (header k a) part' e' -> escrow e' = escrow e ->
    et_mint e' = mint) as Hsame.
  { intros e' part' T' E. rewrite (to_escrow _ _ _ _ T'), Hk in E. by apply Hinj in E as [_ ->]. }
  exists mint. split_and!; [done|done|by apply Pe; auto using not_eq_sym|]. intros Hnat.
  destruct (Pp e eq_refl Hr) as (e' & Hr' & E' & Hle); [|done|].
  - intros e' (p' & _ & T')%Hp E' Hn. rewrite (to_unwrap _ _ _ _ T'). apply Hnat.
    by rewrite <- (Hsame _ _ T' E').
  - destruct (Hp _ Hr') as (p' & Hin' & T'). exists p', (ata e'). rewrite Z.add_comm. split_and!; [done| | |done].
    + by rewrite (to_account _ _ _ _ T'), E'.
    + rewrite <- (Hsame _ _ T' E'). apply (to_target _ _ _ _ T').
Qed.

(** C6: who may close an action, and where its tokens go; no two associated token accounts have the same
    address, and neither they nor their mints are the default key. Whatever accounts the closing is given: the
    executor is the owner, or an order keeper when the action is settled; no market and no supply changes,
    and nobody loses a token but the escrows that the action names. If the action is removed, and its owner
    and its receiver are neither the action itself nor one of its escrows: every escrow that it names is
    empty, and what was in it, unless it is paid as unwrapped lamports, has arrived at the associated
    token account of one to whom the action owes it (the owner for what was put in, the receiver for
    what was put out), or at the wallet itself where that is allowed. *)
Theorem closing_pays_out env i X X' u :
  ExchangeReach X -> run env i X = (X', Ok u) ->
  match i with
  | CloseDeposit accts =>
      Closes deposits deposit_owed env (kd_executor accts) (kd_deposit accts) X X'
  | CloseWithdrawal accts =>
      Closes withdrawals withdrawal_owed env (kw_executor accts) (kw_withdrawal accts) X X'
  | CloseShift accts => Closes shifts shift_owed env (ks_executor accts) (ks_shift accts) X X'
  | _ => True
  end.
Proof.
  intros HX Hr. destruct i; try done.
  - eapply closed_closes; [by eapply close_deposit_closed|]. intros d part key Hd Hn Hin Hkey.
    destruct (reach_stored _ HX _ _ Hd) as [S1 S2]. unfold StoredSide in *.
    apply list_elem_of_In in Hin. simpl in Hin. destruct Hin as [<-|[<-|[<-|[]]]]; simpl in *.
    + exact Hn.
    + by rewrite Hkey in S1.
    + by rewrite Hkey in S2.
  - eapply closed_closes; [by eapply close_withdrawal_closed|]. intros d part key _ Hn Hin _. by apply Hn.
  - eapply closed_closes; [by eapply close_shift_closed|]. intros d part key _ Hn Hin _. by apply Hn.
Qed.

End Histories.

(** ** Examples

    Two markets of SOL (5) and USDC (6), one of SOL and one of BTC (7). The owner 3 deposits into the
    first one; the order keeper 6 executes the deposit; the owner withdraws a part,
      and shifts another part into
    the second market. *)
Section Examples.
#[local] Existing Instance u128.
#[local] Existing Instance z_bitmap.
#[local] Existing Instance z_bitmap_laws.
#[local] Instance exchange_num : FixedPointOps u128 := u128_fixed (fun _ _ _ => None) 20.

(** Even token accounts are vaults, odd ones are associated token accounts, which encode their owners and
    mints. *)
Definition vault_at (mint : Pubkey) : Pubkey := 2 * mint.
Definition ata_at (owner mint : Pubkey) : Pubkey := 2 * (Z.pos (encode (owner, mint)) + 10 ^ 4) + 1.
Definition pair_at (account : Pubkey) : Pubkey * Pubkey :=
  default (0, 0) (decode (Z.to_pos (account / 2 - 10 ^ 4))).
Definition owner_at (account : Pubkey) : Pubkey := fst (pair_at account).
Definition mint_at (account : Pubkey) : Pubkey :=
  if Z.even account then account / 2
  else if snd (pair_at account) =? 0 then 1 else snd (pair_at account).
Definition action_at (seed : ActionSeed) (owner nonce : Pubkey) : Pubkey :=
  match seed with SeedDeposit => 1000 | SeedWithdrawal => 2000 | SeedShift => 3000 end + 100 * owner +
    nonce.
Definition bump_at (seed : ActionSeed) (owner nonce : Pubkey) : Pubkey := 255.
Definition rent_at (seed : ActionSeed) : Z := 1000.

Definition env_at (now slot : Z) : Env :=
  mkEnv 10 now slot (fun a => if Z.even a then NotATokenAccount else OwnedBy (owner_at a))
    (fun a signer => Z.odd a && (owner_at a =? signer)).

Abbreviation run_at := (run_exchange key_example 9 vault_at mint_at ata_at action_at bump_at rent_at 1
  4 10 8).
Abbreviation run_market := (StoredMarket.run_instruction key_example 9
  StoredMarket.market_address_example
  vault_at example_get_config StoredMarket.decimals_example mint_at).

Definition sol_key : Pubkey := StoredMarket.market_address_example 5 5 6.
Definition btc_key : Pubkey := StoredMarket.market_address_example 7 5 6.

Definition ledger_at : Ledger := mkLedger {[ata_at 3 5 := (10 ^ 12)%N; ata_at 3 6 := (10 ^ 12)%N]} ∅.
Definition start_at : Exchange Ledger :=
  mkExchange (StoredMarket.mkWorld StoredMarket.keeper_store_example ∅ ∅ ledger_at)
    {[3 := 10 ^ 10; 6 := 10 ^ 10; 8 := 10 ^ 6]} ∅ ∅ ∅.

Definition market_run (i : StoredMarket.MarketInstruction) (X : Exchange Ledger) :=
  run_market 10 900 5 i (ex_world X).
Definition sol_world := fst (market_run (StoredMarket.InitializeMarket 254 5 5 6 [83; 79;
    76] true) start_at).
Definition sol_at := put_world sol_world start_at.
Definition btc_world := fst (market_run (StoredMarket.InitializeMarket 254 7 5 6 [66; 84;
    67] true) sol_at).
Definition btc_at := put_world btc_world sol_at.

Definition deposit_accts : CreateDepositAccounts :=
  mkCreateDepositAccounts 3 3 sol_key sol_key
    (mkSourceAccounts (Some 5) (Some (ata_at 1301 5)) (Some (ata_at 3 5)))
    (mkSourceAccounts (Some 6) (Some (ata_at 1301 6)) (Some (ata_at 3 6)))
    (ata_at 1301 sol_key) (ata_at 3 sol_key).
Definition create_deposit_example : ExchangeInstruction :=
  CreateDeposit deposit_accts [] 1 (mkCreateDepositParams 300000 0 0 (10 ^ 10) (15 * 10 ^ 8) 1 false).
Definition created_run := run_at (env_at 990 890) create_deposit_example btc_at.
Definition created_at := fst created_run.

Definition execute_deposit_example : ExchangeInstruction :=
  ExecuteDeposit (mkExecuteDepositAccounts 6 sol_key 1301 sol_key
    (mkVaultAccounts (Some 5) (Some (ata_at 1301 5)) (Some 5))
    (mkVaultAccounts (Some 6) (Some (ata_at 1301 6)) (Some 6)) (ata_at 1301 sol_key)) []
      example_oracle 200000 true.
Definition executed_run := run_at (env_at 1000 1000) execute_deposit_example created_at.
Definition executed_at := fst executed_run.

(** A withdrawal of 10^9 market tokens, and a shift of as many. *)
Definition create_withdrawal_example : ExchangeInstruction :=
  CreateWithdrawal (mkCreateWithdrawalAccounts 3 3 sol_key sol_key 5 6 (ata_at 2301 sol_key) (ata_at
    2301 5)
    (ata_at 2301 6) (ata_at 3 sol_key)) [] 1 (mkCreateWithdrawalParams 300000 0 0 (10 ^ 9) 1 1 false).
Definition create_shift_example : ExchangeInstruction :=
  CreateShift (mkCreateShiftAccounts 3 3 sol_key btc_key sol_key btc_key (ata_at 3301 sol_key)
    (ata_at 3301 btc_key) (ata_at 3 sol_key) (ata_at 3 btc_key)) 1 (mkCreateShiftParams 300000 (10 ^
      9) 1).
Definition execute_withdrawal_example : ExchangeInstruction :=
  ExecuteWithdrawal (mkExecuteWithdrawalAccounts 6 sol_key 2301 sol_key 5 6 (ata_at 2301 sol_key)
    (ata_at 2301 5)
    (ata_at 2301 6)) [] example_oracle 200000 true.
Definition execute_shift_example : ExchangeInstruction :=
  ExecuteShift (mkExecuteShiftAccounts 6 sol_key btc_key 3301 sol_key btc_key (ata_at 3301 sol_key)
    (ata_at 3301 btc_key)) example_oracle 200000 true.
Definition close_deposit_example : ExchangeInstruction :=
  CloseDeposit (mkCloseDepositAccounts 6 3 3 1301 sol_key
    (mkAtaAccounts (Some 5) (Some (ata_at 1301 5)) (Some (ata_at 3 5)))
    (mkAtaAccounts (Some 6) (Some (ata_at 1301 6)) (Some (ata_at 3 6)))
    (ata_at 1301 sol_key) (ata_at 3 sol_key)).
Definition closed_run := run_at (env_at 1000 1000) close_deposit_example executed_at.
Definition closed_at := fst closed_run.
Definition withdrawal_run := run_at (env_at 990 890) create_withdrawal_example closed_at.
Definition withdrawal_at := fst withdrawal_run.
Definition withdrawn_run := run_at (env_at 1000 1000) execute_withdrawal_example withdrawal_at.
Definition withdrawn_at := fst withdrawn_run.
Definition shift_run := run_at (env_at 990 890) create_shift_example withdrawn_at.
Definition shift_at := fst shift_run.
Definition shifted_run := run_at (env_at 1000 1000) execute_shift_example shift_at.
Definition shifted_at := fst shifted_run.

(** Every step runs. *)
Lemma sol_runs : market_run (StoredMarket.InitializeMarket 254 5 5 6 [83; 79; 76] true) start_at =
    (sol_world, Ok tt).
Proof. vm_compute. reflexivity. Qed.
Lemma btc_runs : market_run (StoredMarket.InitializeMarket 254 7 5 6 [66; 84; 67] true) sol_at =
    (btc_world, Ok tt).
Proof. vm_compute. reflexivity. Qed.
Lemma deposit_created_runs : run_at (env_at 990 890) create_deposit_example btc_at = (created_at, Ok tt).
Proof. fold created_run. unfold created_at. apply run_ok. vm_compute. reflexivity. Qed.
Lemma executed_runs : run_at (env_at 1000 1000) execute_deposit_example created_at =
    (executed_at, Ok tt).
Proof. fold executed_run. unfold executed_at. apply run_ok. vm_compute. reflexivity. Qed.
Lemma closed_runs : run_at (env_at 1000 1000) close_deposit_example executed_at = (closed_at, Ok tt).
Proof. fold closed_run. unfold closed_at. apply run_ok. vm_compute. reflexivity. Qed.
Lemma withdrawal_runs : run_at (env_at 990 890) create_withdrawal_example closed_at =
    (withdrawal_at, Ok tt).
Proof. fold withdrawal_run. unfold withdrawal_at. apply run_ok. vm_compute. reflexivity. Qed.
Lemma withdrawn_runs : run_at (env_at 1000 1000) execute_withdrawal_example withdrawal_at =
    (withdrawn_at, Ok tt).
Proof. fold withdrawn_run. unfold withdrawn_at. apply run_ok. vm_compute. reflexivity. Qed.
Lemma shift_runs : run_at (env_at 990 890) create_shift_example withdrawn_at = (shift_at, Ok tt).
Proof. fold shift_run. unfold shift_at. apply run_ok. vm_compute. reflexivity. Qed.
Lemma shifted_runs : run_at (env_at 1000 1000) execute_shift_example shift_at = (shifted_at, Ok tt).
Proof. fold shifted_run. unfold shifted_at. apply run_ok. vm_compute. reflexivity. Qed.

Lemma vault_at_mint mint : mint_at (vault_at mint) = mint.
Proof.
  unfold mint_at, vault_at. rewrite Z.even_mul. simpl. by rewrite Z.mul_comm, Z.div_mul.
Qed.

Lemma ata_not_vault owner mint tok : ata_at owner mint <> vault_at tok.
Proof. unfold ata_at, vault_at. lia. Qed.

Lemma pair_at_ata owner mint : pair_at (ata_at owner mint) = (owner, mint).
Proof.
  unfold pair_at, ata_at. rewrite (Z.mul_comm 2), Z.div_add_l by done.
  rewrite Z.add_0_r, Z.add_simpl_r, Pos2Z.id, decode_encode. done.
Qed.

Lemma ata_injective owner mint owner' mint' :
  ata_at owner mint = ata_at owner' mint' -> owner = owner' /\ mint = mint'.
Proof.
  intros E. pose proof (pair_at_ata owner mint) as E1. rewrite E, pair_at_ata in E1. by injection E1.
Qed.

Lemma keys_at : KeysOk mint_at ata_at.
Proof.
  intros owner mint. split; [unfold ata_at, DEFAULT_PUBKEY; lia|]. unfold mint_at. rewrite pair_at_ata.
  assert (Z.even (ata_at owner mint) = false) as ->.
  { unfold ata_at. by rewrite Z.even_add, Z.even_mul. }
  unfold DEFAULT_PUBKEY. simpl. destruct (Z.eqb_spec mint 0); lia.
Qed.

Lemma locked_at now slot : vaults_locked vault_at (env_at now slot).
Proof. intros tok signer. unfold vault_at. simpl. by rewrite Z.odd_mul. Qed.

Abbreviation reach_at := (ExchangeReach key_example 9 vault_at mint_at ata_at action_at bump_at
  rent_at 1 4 10 8
  StoredMarket.market_address_example example_get_config StoredMarket.decimals_example).

Lemma btc_reach : reach_at btc_at.
Proof.
  eapply ExchangeMarket; [| |exact btc_runs]; [|exact I]. eapply ExchangeMarket; [| |exact sol_runs];
    [|exact I].
  apply ExchangeStart.
Qed.

Lemma created_reach : reach_at created_at.
Proof.
  eapply ExchangeRun; [exact btc_reach|apply locked_at| |exact deposit_created_runs].
  split; split; vm_compute; discriminate.
Qed.

Lemma executed_reach : reach_at executed_at.
Proof. eapply ExchangeRun; [exact created_reach|apply locked_at| |exact executed_runs]. exact
  example_oracle_good. Qed.

Lemma withdrawal_reach : reach_at withdrawal_at.
Proof.
  eapply ExchangeRun; [|apply locked_at| |exact withdrawal_runs]; [|split; vm_compute; discriminate].
  eapply ExchangeRun; [exact executed_reach|apply locked_at| |exact closed_runs]. exact I.
Qed.

Lemma shift_reach : reach_at shift_at.
Proof.
  eapply ExchangeRun; [|apply locked_at| |exact shift_runs]; [|split; vm_compute; discriminate].
  eapply ExchangeRun; [exact withdrawal_reach|apply locked_at| |exact withdrawn_runs]. exact
    example_oracle_good.
Qed.

Lemma exchange_backed_witness :
  StoredMarket.all_recorded (StoredMarket.world_markets (ex_world executed_at)) 5 = 10 ^ 10
  /\ 10 ^ 10 <= amount_of (tokens_of (ex_world executed_at)) (vault_at 5).
Proof.
  assert (StoredMarket.all_recorded (StoredMarket.world_markets (ex_world executed_at)) 5 = 10 ^ 10) as E
    by (vm_compute; reflexivity).
  split; [exact E|].
  destruct (exchange_backed _ _ _ _ _ _ _ _ _ _ _ _ _ vault_at_mint ata_not_vault _ _ _ executed_reach) as [H _].
  specialize (H 5). rewrite E in H. exact H.
Defined.

Lemma action_life_witness :
  Life key_example 9 action_at (env_at 1000 1000) 6 created_at executed_at
  /\ option_map action_state (header_at deposits created_at 1301) = Some (Ok Pending)
  /\ option_map action_state (header_at deposits executed_at 1301) = Some (Ok Completed).
Proof.
  split; [|split; vm_compute; reflexivity].
  exact (action_life _ _ _ _ _ _ _ _ _ _ _ _ _ vault_at_mint ata_not_vault _ _ _
    execute_deposit_example _ _ _
           created_reach (locked_at _ _) example_oracle_good executed_runs).
Defined.

Lemma deposit_executed_witness :
  (exists d, ex_deposits created_at !! 1301 = Some d
     /\ DepositOutcome 9 vault_at ata_at StoredMarket.market_address_example 1301 d created_at executed_at)
  /\ amount_of (tokens_of (ex_world created_at)) (ata_at 1301 5) = 10 ^ 10
  /\ amount_of (tokens_of (ex_world executed_at)) (ata_at 1301 5) = 0
  /\ amount_of (tokens_of (ex_world executed_at)) (ata_at 1301 sol_key) = 2995000000000.
Proof.
  split; [|split_and!; vm_compute; reflexivity].
  destruct (deposit_executed _ _ _ _ _ _ _ _ _ _ _ _ _ vault_at_mint ata_not_vault _ _ keys_at _ _ _ _ _
              _ _ _ _ created_reach example_oracle_good executed_runs) as (d & Hd & _ & Hout).
  exists d. split; [exact Hd|exact Hout].
Defined.

Lemma withdrawal_executed_witness :
  (exists d, ex_withdrawals withdrawal_at !! 2301 = Some d
     /\ WithdrawalOutcome 9 vault_at ata_at StoredMarket.market_address_example 2301 d withdrawal_at
          withdrawn_at)
  /\ amount_of (tokens_of (ex_world withdrawn_at)) (ata_at 2301 5) = 3327787
  /\ amount_of (tokens_of (ex_world withdrawn_at)) (ata_at 2301 6) = 499168.
Proof.
  split; [|split; vm_compute; reflexivity].
  destruct (withdrawal_executed _ _ _ _ _ _ _ _ _ _ _ _ _ vault_at_mint ata_not_vault _ _ _ _ _ _ _ _
    _ _ _
              withdrawal_reach example_oracle_good withdrawn_runs) as (d & Hd & _ & Hout).
  exists d. split; [exact Hd|exact Hout].
Defined.

Lemma shift_executed_witness :
  (exists d, ex_shifts shift_at !! 3301 = Some d
     /\ ShiftOutcome 9 ata_at StoredMarket.market_address_example 3301 d shift_at shifted_at)
  /\ amount_of (tokens_of (ex_world shifted_at)) (ata_at 3301 btc_key) = 996672605.
Proof.
  split; [|vm_compute; reflexivity].
  destruct (shift_executed _ _ _ _ _ _ _ _ _ _ _ _ _ vault_at_mint ata_not_vault _ _ _ _ _ _ _ _ _ _
              shift_reach example_oracle_good shifted_runs) as (d & Hd & _ & Hout).
  exists d. split; [exact Hd|exact Hout].
Defined.

(** The deposit as it was created, completed. *)
Definition settled_deposit_at : Deposit :=
  Eval vm_compute in
    default (mkDeposit zeroed_header (mkDepositTokenAccounts no_token no_token no_token)
               (mkDepositActionParams 0 0 0) zeroed_swap) (ex_deposits executed_at !! 1301).

Lemma settled_deposit_apart : Apart ata_at 1301 (deposit_owed settled_deposit_at).
Proof.
  intros part Hin. assert (pt_to part = 3) as ->; [|split; [done|intros mint; unfold ata_at; lia]].
  apply list_elem_of_In in Hin. by destruct Hin as [<-|[<-|[<-|[]]]].
Qed.

Lemma closing_pays_out_witness :
  (ex_deposits executed_at !! 1301 = Some settled_deposit_at
   /\ Apart ata_at 1301 (deposit_owed settled_deposit_at))
  /\ Closes key_example ata_at 4 deposits deposit_owed (env_at 1000 1000) 6 1301 executed_at closed_at
  /\ amount_of (tokens_of (ex_world executed_at)) (ata_at 1301 sol_key) = 2995000000000
  /\ amount_of (tokens_of (ex_world closed_at)) (ata_at 1301 sol_key) = 0
  /\ amount_of (tokens_of (ex_world closed_at)) (ata_at 3 sol_key) = 2995000000000.
Proof.
  split; [split; [vm_compute; reflexivity|exact settled_deposit_apart]|].
  split; [|split; [|split]; vm_compute; reflexivity].
  exact (closing_pays_out _ _ _ _ _ _ _ _ _ _ _ _ _ vault_at_mint ata_not_vault _ _ keys_at
           ata_injective _ close_deposit_example _ _ _ executed_reach closed_runs).
Defined.
End Examples.

End Lifecycle.
