(* ===== verification/Timelock.v ===== *)
(** * The timelock program ([programs/gmsol-timelock])

    The authority of a store is handed to the wallet of an executor of the timelock. What the wallet
      is to
    sign is then buffered first: a keeper creates a buffer with the instruction
      ([create_instruction_buffer]),
    somebody with the timelocked role of the executor approves it, and once the delay has passed a
    keeper executes it, if the approver still has the role. Some instructions bypass the delay:
    a timelocked administrator may revoke most roles, and a timelocked market keeper may switch the
    price provider of a token.

    [World] is the state: the accounts of the timelock for one store, and what is outside of it
    ([Outside]), of which the store, its token map and the lamports are used here. The executed
      instruction is
    one of any program: what it does to the outside is the parameter [invoke]. The addresses derived of
    seeds, their bumps and the rents are parameters, too. [timelock_step] runs one instruction;
    when it fails, nothing has happened. Left out are the constraint that a wallet is owned by the
    system program, and executed instructions of the timelock itself. *)
From stdpp Require Import gmap.
From S2P Require Import Prelude.
From S2P Require Import Num.
From S2P Require Import CoreErrors.
From S2P Require Import FixedMap.
From S2P Require Import Flags.
From S2P Require Import Roles.
From S2P Require Import Decimal.
From S2P Require Import TokenConfig.
From S2P Require Import Oracle.
From S2P Require Import Users.
From S2P Require Import StoreState.
From S2P Require Import Actions.
#[local] Open Scope Z_scope.

Module Timelock.
Import Actions.

(** ** Roles *)

Definition TIMELOCK_ADMIN : bytes := str_bytes "TIMELOCK_ADMIN".
Definition TIMELOCK_KEEPER : bytes := str_bytes "TIMELOCK_KEEPER".
Definition TIMELOCKED : bytes := str_bytes "__TLD_".
Definition ADMIN : bytes := str_bytes "ADMIN".
Definition TIMELOCKED_ADMIN : bytes := str_bytes "__TLD_ADMIN".
Definition TIMELOCKED_MARKET_KEEPER : bytes := str_bytes "__TLD_MARKET_KEEPER".

Definition timelocked_role (role : bytes) : bytes := TIMELOCKED ++ role.

Definition NOT_BYPASSABLE_ROLES : list bytes := [TIMELOCKED_ADMIN; TIMELOCK_ADMIN; TIMELOCK_KEEPER].

(** ** The accounts *)

Record TimelockConfig : Type := mkTimelockConfig {
  config_bump : Z;
  delay : Z;
  config_store : Pubkey;
}.

Definition increase_delay (delta : Z) (self : TimelockConfig) : store_result TimelockConfig :=
  let! new_delay := ok_or (@uadd u32 (delay self) delta) (Core CoreError.InvalidArgument) in
  Ok (mkTimelockConfig (config_bump self) new_delay (config_store self)).

Record Executor : Type := mkExecutor {
  executor_bump : Z;
  executor_wallet_bump : Z;
  executor_store : Pubkey;
  executor_role_name : bytes;
}.

Definition role_name (self : Executor) : store_result bytes :=
    bytes_to_fixed_str (executor_role_name self).

(** [Executor::try_init]. *)
Definition try_init (bump wallet_bump : Z) (store : Pubkey) (role_name : bytes) :
    store_result Executor :=
  let! role_name := fixed_str_to_bytes MAX_ROLE_NAME_LEN role_name in
  Ok (mkExecutor bump wallet_bump store role_name).

Definition MAX_FLAGS : nat := 8.
Inductive InstructionFlag : Type := Approved.
Definition instruction_flag_u8 (self : InstructionFlag) : nat := match self with Approved => 0 end.
Inductive InstructionAccountFlag : Type := Signer | Writable.
Definition account_flag_u8 (self : InstructionAccountFlag) : nat :=
  match self with Signer => 0 | Writable => 1 end.

Record InstructionHeader : Type := mkInstructionHeader {
  ih_flags : FlagContainer;
  wallet_bump : Z;
  header_approved_at : Z;
  executor : Pubkey;
  program_id : Pubkey;
  num_accounts : Z;
  data_len : Z;
  rent_receiver : Pubkey;
  header_approver : Pubkey;
}.

Record InstructionAccount : Type := mkInstructionAccount {
  account_flags : FlagContainer;
  pubkey : Pubkey;
}.

(** [size_of::<InstructionHeader>()] and [size_of::<InstructionAccount>()]. *)
Definition HEADER_SIZE : Z := 224.
Definition INSTRUCTION_ACCOUNT_SIZE : Z := 33.

Definition init_space (num_accounts data_len : Z) : Z :=
  HEADER_SIZE + data_len + num_accounts * INSTRUCTION_ACCOUNT_SIZE.

(** A buffer: the header, the data, and the bytes of the accounts as a list of accounts. *)
Record InstructionBuffer : Type := mkInstructionBuffer {
  header : InstructionHeader;
  data : bytes;
  accounts : list InstructionAccount;
}.

(** The length of the bytes of the accounts. *)
Definition accounts_len (self : InstructionBuffer) : Z :=
  Z.of_nat (length (accounts self)) * INSTRUCTION_ACCOUNT_SIZE.

(** An instruction of Solana. *)
Record AccountMeta : Type := mkAccountMeta { meta_pubkey : Pubkey; is_signer : bool; is_writable :
  bool }.
Record Instruction : Type := mkInstruction {
  ix_program_id : Pubkey;
  ix_accounts : list AccountMeta;
  ix_data : bytes;
}.

(** ** The world *)

Record Outside : Type := mkOutside {
  out_store : Store;
  out_token_map : TokenMap;
  out_lamports : Lamports;
}.

Record World : Type := mkWorld {
  outside : Outside;
  config : option TimelockConfig;
  executors : gmap Pubkey Executor;
  buffers : gmap Pubkey InstructionBuffer;
}.

Definition put_outside (o : Outside) (w : World) : World :=
    mkWorld o (config w) (executors w) (buffers w).
Definition put_config (c : option TimelockConfig) (w : World) : World :=
  mkWorld (outside w) c (executors w) (buffers w).
Definition put_executors (e : gmap Pubkey Executor) (w : World) : World :=
  mkWorld (outside w) (config w) e (buffers w).
Definition put_buffers (b : gmap Pubkey InstructionBuffer) (w : World) : World :=
  mkWorld (outside w) (config w) (executors w) b.

Section Handlers.
Context {B : Type} {BO : BitmapOps MAX_FLAGS B}.
Context {R : Type} {RO : BitmapOps MAX_ROLES R}.
(** The hash of a role, the store, and its address derivations: the executor of a role, with its bump; the
    wallet of an executor, with its bump; the address that is created with a given bump. *)
Context (to_key : bytes -> Z) (this : Pubkey).
Context (executor_address : Pubkey -> bytes -> Pubkey) (executor_bump_of : Pubkey -> bytes -> Z).
Context (wallet_address : Pubkey -> Pubkey) (wallet_bump_of : Pubkey -> Z)
  (create_wallet : Pubkey -> Z -> option Pubkey).
Context (config_address : Pubkey -> Pubkey) (config_bump_of : Pubkey -> Z).
(** The rent of an account of a size; the execution of an instruction that a wallet signs. *)
Context (rent : Z -> Z) (invoke : Pubkey -> Instruction -> ST Outside StoreError unit).

(** *** Headers and buffers *)

Definition is_approved (self : InstructionHeader) : bool :=
  get_flag (H := BO) instruction_flag_u8 (ih_flags self) Approved.

Definition approved_at (self : InstructionHeader) : option Z :=
  if is_approved self then Some (header_approved_at self) else None.

Definition approver (self : InstructionHeader) : option Pubkey :=
    optional_address (header_approver self).

(** [InstructionHeader::approve]; [now] is the time of the clock. *)
Definition approve (now : Z) (approver : Pubkey) (self : InstructionHeader) :
    store_result InstructionHeader :=
  let! _ := require (negb (is_approved self)) CoreError.PreconditionsAreNotMet in
  let! _ := require (header_approver self =? DEFAULT_PUBKEY) CoreError.PreconditionsAreNotMet in
  let! _ := require (negb (approver =? DEFAULT_PUBKEY)) CoreError.InvalidArgument in
  Ok (mkInstructionHeader (fst (set_flag (H := BO) instruction_flag_u8 (ih_flags self) Approved true))
        (wallet_bump self) now (executor self) (program_id self) (num_accounts self) (data_len self)
        (rent_receiver self) approver).

Definition is_executable (now delay : Z) (self : InstructionHeader) : bool :=
  match approved_at self with
  | None => false
  | Some approved_at => saturating_add approved_at delay <=? now
  end.

Definition wallet (self : InstructionHeader) : store_result Pubkey :=
  ok_or (create_wallet (executor self) (wallet_bump self)) (Core CoreError.Internal).

(** [load_instruction]: the length of the bytes of the accounts must be the number of accounts. *)
Definition load_instruction (self : InstructionBuffer) : store_result InstructionBuffer :=
  let! _ := require (accounts_len self =? num_accounts (header self)) CoreError.Internal in
  Ok self.

(** The accounts of an instruction, from the index [idx]. *)
Fixpoint init_accounts (wallet : Pubkey) (signers : list Z) (idx : Z) (accts : list (Pubkey * bool))
    : store_result (list InstructionAccount) :=
  match accts with
  | [] => Ok []
  | (address, writable) :: accts =>
      let is_signer := existsb (Z.eqb idx) signers in
      let! _ := (if is_signer then require (wallet =? address) CoreError.InvalidArgument else Ok tt) in
      let flags := default_flags (H := BO) in
      let flags := fst (set_flag (H := BO) account_flag_u8 flags Signer is_signer) in
      let flags := fst (set_flag (H := BO) account_flag_u8 flags Writable writable) in
      let! rest := init_accounts wallet signers (idx + 1) accts in
      Ok (mkInstructionAccount flags address :: rest)
  end.

Definition load_and_init_instruction (executor : Pubkey) (wallet_bump : Z) (rent_receiver program_id :
    Pubkey)
    (instruction_data : bytes) (instruction_accounts : list (Pubkey * bool)) (signers : list Z)
    : store_result InstructionBuffer :=
  let header := mkInstructionHeader (default_flags (H := BO)) wallet_bump 0 executor program_id
                  (Z.of_nat (length instruction_accounts)) (Z.of_nat (length instruction_data))
                  rent_receiver DEFAULT_PUBKEY in
  let! wallet := wallet header in
  let! accounts := init_accounts wallet signers 0 instruction_accounts in
  load_instruction (mkInstructionBuffer header instruction_data accounts).

Definition account_meta (a : InstructionAccount) : AccountMeta :=
  mkAccountMeta (pubkey a) (get_flag (H := BO) account_flag_u8 (account_flags a) Signer)
    (get_flag (H := BO) account_flag_u8 (account_flags a) Writable).

Definition to_instruction (mark_executor_wallet_as_signer : bool) (self : InstructionBuffer)
    : store_result Instruction :=
  let accounts := account_meta <$> accounts self in
  let! accounts :=
    (if mark_executor_wallet_as_signer then
       let! executor_wallet := wallet (header self) in
       Ok ((fun a => if meta_pubkey a =? executor_wallet
                     then mkAccountMeta (meta_pubkey a) true (is_writable a) else a) <$> accounts)
     else Ok accounts) in
  Ok (mkInstruction (program_id (header self)) accounts (data self)).

(** *** Access to the world *)

(** The slot of the last restart, the time, and the signer of the instruction. *)
Context (slot now : Z) (authority : Pubkey).

Definition WM (A : Type) : Type := ST World StoreError A.

Definition on_outside {A} (m : ST Outside StoreError A) : WM A := szoom outside put_outside m.
Definition out_on_store {A} (m : SS A) : ST Outside StoreError A :=
  szoom out_store (fun s o => mkOutside s (out_token_map o) (out_lamports o)) m.
Definition out_on_lamports {A} (m : ST Lamports StoreError A) : ST Outside StoreError A :=
  szoom out_lamports (fun l o => mkOutside (out_store o) (out_token_map o) l) m.
Definition on_store {A} (m : SS A) : WM A := on_outside (out_on_store m).
Definition on_lamports {A} (m : ST Lamports StoreError A) : WM A := on_outside (out_on_lamports m).

(** [CpiAuthenticate::only]: the store is asked whether the signer has the role. *)
Definition only (role : bytes) : WM unit := on_store (only_role to_key slot authority role).

Definition not_initialized : StoreError := Anchor "AccountNotInitialized".

(** [has_one = store]. *)
Definition load_executor (key : Pubkey) : WM Executor :=
  do! e := sread (fun w => ok_or (executors w !! key) not_initialized) in
  do! _ := slift (has_one (executor_store e =? this)) in
  sret e.

(** The executor of a role, by its seeds. *)
Definition load_executor_of (role : bytes) : WM Pubkey :=
  do! bs := slift (fixed_str_to_bytes MAX_ROLE_NAME_LEN role) in
  let key := executor_address this bs in
  do! e := load_executor key in
  do! name := slift (role_name e) in
  do! _ := slift (require (bool_decide (name = role)) CoreError.InvalidArgument) in
  sret key.

Definition load_config : WM TimelockConfig :=
  do! c := sread (fun w => ok_or (config w) not_initialized) in
  do! _ := slift (has_one (config_store c =? this)) in
  sret c.

Definition load_buffer (addr : Pubkey) : WM InstructionBuffer :=
  sread (fun w => ok_or (buffers w !! addr) not_initialized).

Definition save_buffer (addr : Pubkey) (b : InstructionBuffer) : WM unit :=
  smodify (fun w => put_buffers (<[addr := b]> (buffers w)) w).

(** The rent of a new account. *)
Definition pay_rent (addr : Pubkey) (space : Z) : WM unit :=
  do! balance := sread (fun w => Ok (lamports_at (out_lamports (outside w)) addr)) in
  on_lamports (system_transfer authority addr (Z.max 0 (rent (8 + space) - balance))).

(** A buffer that is closed gives its lamports to the receiver of its rent. *)
Definition close_buffer (addr rent_receiver : Pubkey) : WM unit :=
  do! _ := on_lamports (close_lamports addr rent_receiver) in
  smodify (fun w => put_buffers (delete addr (buffers w)) w).

(** *** The configuration and the executors *)

(** [InitializeExecutor]: the store is not checked. *)
Definition EXECUTOR_SIZE : Z := 336.
Definition CONFIG_SIZE : Z := 304.

Definition initialize_executor (store : Pubkey) (role : bytes) : WM unit :=
  do! bs := slift (fixed_str_to_bytes MAX_ROLE_NAME_LEN role) in
  let key := executor_address store bs in
  do! _ := sread (fun w => match executors w !! key with
                           | Some _ => Err (Anchor "account already in use") | None => Ok tt end) in
  do! _ := pay_rent key EXECUTOR_SIZE in
  do! e := slift (try_init (executor_bump_of store bs) (wallet_bump_of key) store role) in
  smodify (fun w => put_executors (<[key := e]> (executors w)) w).

Definition accept_authority (wallet : Pubkey) : WM unit :=
  do! b := on_store (sread (fun s => Ok (is_authority s wallet))) in
  if b then sret tt else on_store (run_store_action to_key this slot wallet AcceptStoreAuthority).

Definition initialize_config (delay : Z) : WM unit :=
  do! _ := sread (fun w => match config w with
                           | Some _ => Err (Anchor "account already in use") | None => Ok tt end) in
  do! _ := pay_rent (config_address this) CONFIG_SIZE in
  do! executor := load_executor_of ADMIN in
  do! _ := only TIMELOCK_ADMIN in
  do! _ := only TIMELOCK_KEEPER in
  do! _ := only TIMELOCKED_ADMIN in
  do! _ := accept_authority (wallet_address executor) in
  smodify (put_config (Some (mkTimelockConfig (config_bump_of this) delay this))).

Definition increase_delay_ix (delta : Z) : WM unit :=
  do! c := load_config in
  do! _ := only TIMELOCK_ADMIN in
  do! _ := slift (require (negb (delta =? 0)) CoreError.InvalidArgument) in
  do! c := slift (increase_delay delta c) in
  smodify (put_config (Some c)).

(** *** Instruction buffers *)

Definition create_instruction_buffer (executor_key addr instruction_program : Pubkey)
    (num_accounts data_len : Z) (data : bytes) (signers : list Z) (remaining_accounts :
      list (Pubkey * bool))
    : WM unit :=
  do! e := load_executor executor_key in
  do! _ := sread (fun w => match buffers w !! addr with
                           | Some _ => Err (Anchor "account already in use") | None => Ok tt end) in
  do! _ := pay_rent addr (init_space num_accounts data_len) in
  do! _ := only TIMELOCK_KEEPER in
  do! _ := slift (require_gte (Z.of_nat (length remaining_accounts)) num_accounts
    CoreError.InvalidArgument) in
  do! _ := slift (require (Z.of_nat (length data) =? data_len) CoreError.InvalidArgument) in
  do! _ := slift (role_name e) in
  do! b := slift (load_and_init_instruction executor_key (executor_wallet_bump e) authority
                    instruction_program data (take (Z.to_nat num_accounts) remaining_accounts)
                      signers) in
  save_buffer addr b.

(** [approve] of the buffer at [addr]. *)
Definition approve_buffer (executor_key addr : Pubkey) (mismatch : StoreError) : WM unit :=
  do! b := load_buffer addr in
  do! _ := slift (if executor (header b) =? executor_key then Ok tt else Err mismatch) in
  do! h := slift (approve now authority (header b)) in
  save_buffer addr (mkInstructionBuffer h (data b) (accounts b)).

Definition approve_instruction (role : bytes) (addr : Pubkey) : WM unit :=
  do! executor_key := load_executor_of role in
  do! b := load_buffer addr in
  do! _ := slift (has_one (executor (header b) =? executor_key)) in
  do! _ := only (timelocked_role role) in
  approve_buffer executor_key addr (Anchor "ConstraintHasOne").

Definition approve_instructions (role : bytes) (remaining_accounts : list (Pubkey * bool)) : WM unit :=
  do! executor_key := load_executor_of role in
  do! _ := only (timelocked_role role) in
  sfor_each (fun account : Pubkey * bool =>
    do! _ := slift (if snd account then Ok tt else Err (Anchor "AccountNotMutable")) in
    approve_buffer executor_key (fst account) (Core CoreError.InvalidArgument)) remaining_accounts.

(** The constraints on a buffer that is closed. *)
Definition load_buffer_of (executor_key rent_receiver_key addr : Pubkey) : WM InstructionBuffer :=
  do! b := load_buffer addr in
  do! _ := slift (has_one (executor (header b) =? executor_key)) in
  do! _ := slift (has_one (rent_receiver (header b) =? rent_receiver_key)) in
  sret b.

Definition cancel_instruction (executor_key rent_receiver_key addr : Pubkey) : WM unit :=
  do! _ := load_executor executor_key in
  do! _ := load_buffer_of executor_key rent_receiver_key addr in
  do! _ := only TIMELOCK_ADMIN in
  close_buffer addr rent_receiver_key.

Definition cancel_instructions (executor_key rent_receiver_key : Pubkey)
    (remaining_accounts : list (Pubkey * bool)) : WM unit :=
  do! _ := load_executor executor_key in
  do! _ := only TIMELOCK_ADMIN in
  sfor_each (fun account : Pubkey * bool =>
    do! _ := slift (if snd account then Ok tt else Err (Anchor "AccountNotMutable")) in
    do! b := load_buffer (fst account) in
    do! _ := slift (require (executor (header b) =? executor_key) CoreError.InvalidArgument) in
    do! _ := slift (require (rent_receiver (header b) =? rent_receiver_key) CoreError.InvalidArgument) in
    close_buffer (fst account) rent_receiver_key) remaining_accounts.

(** The wallet of an executor, with the bump that the executor keeps. *)
Definition check_wallet (executor_key : Pubkey) (e : Executor) (wallet : Pubkey) : store_result unit :=
  match create_wallet executor_key (executor_wallet_bump e) with
  | Some address => if address =? wallet then Ok tt else Err (Anchor "ConstraintSeeds")
  | None => Err (Anchor "ConstraintSeeds")
  end.

Definition execute_instruction (executor_key wallet rent_receiver_key addr : Pubkey) : WM unit :=
  do! c := load_config in
  do! e := load_executor executor_key in
  do! _ := slift (check_wallet executor_key e wallet) in
  do! b := load_buffer_of executor_key rent_receiver_key addr in
  do! _ := only TIMELOCK_KEEPER in
  do! b := slift (load_instruction b) in
  do! approver := slift (ok_or (approver (header b)) (Core CoreError.PreconditionsAreNotMet)) in
  do! role := slift (role_name e) in
  do! still := on_store (store_has_role to_key slot approver (timelocked_role role)) in
  do! _ := slift (require still CoreError.PreconditionsAreNotMet) in
  do! _ := slift (require (is_executable now (delay c) (header b)) CoreError.PreconditionsAreNotMet) in
  do! ix := slift (to_instruction false b) in
  do! _ := on_outside (invoke wallet ix) in
  close_buffer addr rent_receiver_key.

(** *** Instructions that bypass the timelock *)

Definition revoke_role (user : Pubkey) (role : bytes) : WM unit :=
  do! executor_key := load_executor_of ADMIN in
  do! _ := only TIMELOCKED_ADMIN in
  do! _ := slift (require (negb (existsb (fun r => bool_decide (r = role)) NOT_BYPASSABLE_ROLES))
                    CoreError.InvalidArgument) in
  on_store (run_store_action to_key this slot (wallet_address executor_key) (RoleAction (Revoke user
    role))).

(** The instruction [set_expected_provider] of the store. *)
Definition set_expected_provider_ix (signer token : Pubkey) (provider : Z) :
    ST Outside StoreError unit :=
  do! _ := out_on_store (only_role to_key slot signer RoleKey.MARKET_KEEPER) in
  do! provider := slift (ok_or (provider_from_u8 provider) (Core CoreError.InvalidProviderKindIndex)) in
  szoom out_token_map (fun m o => mkOutside (out_store o) m (out_lamports o))
    (do! index := on_tokens (FixedMap.get pubkey_to_bytes token) in
     do! index := slift (ok_or index (Core CoreError.NotFound)) in
     do! config := sread (fun self => ok_or (config_at index self) (Core CoreError.NotFound)) in
     do! kind := slift (expected_provider config) in
     do! _ := slift (require (negb (bool_decide (kind = provider))) CoreError.PreconditionsAreNotMet) in
     smodify (fun self =>
       mkTokenMap (tokens self) (<[Z.to_nat index := set_expected_provider config provider]> (configs
         self)))).

Definition set_expected_price_provider (token : Pubkey) (new_expected_price_provider : Z) : WM unit :=
  do! executor_key := load_executor_of RoleKey.MARKET_KEEPER in
  do! _ := only TIMELOCKED_MARKET_KEEPER in
  do! kind := slift (ok_or (provider_from_u8 new_expected_price_provider)
                       (Core CoreError.InvalidProviderKindIndex)) in
  on_outside (set_expected_provider_ix (wallet_address executor_key) token (provider_to_u8 kind)).

(** ** The instructions *)

Inductive TimelockInstruction : Type :=
| InitializeConfig (delay : Z)
| IncreaseDelay (delta : Z)
| InitializeExecutor (store : Pubkey) (role : bytes)
| CreateInstructionBuffer (executor_key addr instruction_program : Pubkey) (num_accounts data_len : Z)
    (data : bytes) (signers : list Z) (remaining_accounts : list (Pubkey * bool))
| ApproveInstruction (role : bytes) (addr : Pubkey)
| ApproveInstructions (role : bytes) (remaining_accounts : list (Pubkey * bool))
| CancelInstruction (executor_key rent_receiver addr : Pubkey)
| CancelInstructions (executor_key rent_receiver : Pubkey) (remaining_accounts : list (Pubkey * bool))
| ExecuteInstruction (executor_key wallet rent_receiver addr : Pubkey)
| RevokeRole (user : Pubkey) (role : bytes)
| SetExpectedPriceProvider (token : Pubkey) (provider : Z).

Definition run_timelock (i : TimelockInstruction) : WM unit :=
  match i with
  | InitializeConfig delay => initialize_config delay
  | IncreaseDelay delta => increase_delay_ix delta
  | InitializeExecutor store role => initialize_executor store role
  | CreateInstructionBuffer executor_key addr program num_accounts data_len data signers remaining =>
      create_instruction_buffer executor_key addr program num_accounts data_len data signers remaining
  | ApproveInstruction role addr => approve_instruction role addr
  | ApproveInstructions role remaining => approve_instructions role remaining
  | CancelInstruction executor_key receiver addr => cancel_instruction executor_key receiver addr
  | CancelInstructions executor_key receiver remaining => cancel_instructions executor_key receiver
    remaining
  | ExecuteInstruction executor_key wallet receiver addr =>
      execute_instruction executor_key wallet receiver addr
  | RevokeRole user role => revoke_role user role
  | SetExpectedPriceProvider token provider => set_expected_price_provider token provider
  end.

(** An instruction that fails changes nothing. *)
Definition timelock_step (i : TimelockInstruction) (w : World) : World :=
  match run_timelock i w with (w', Ok _) => w' | _ => w end.
End Handlers.


(** ** What a successful instruction does

    The executors are never removed or changed, the delay never decreases, and a buffer is created,
    approved once or removed; the rest is the store's business. *)
Section Effects.
Context {B : Type} {BO : BitmapOps MAX_FLAGS B} {BL : BitmapLaws MAX_FLAGS B}.
Context {R : Type} {RO : BitmapOps MAX_ROLES R} {RL : BitmapLaws MAX_ROLES R}.
Context (to_key : bytes -> Z) (this : Pubkey).
Context (executor_address : Pubkey -> bytes -> Pubkey) (executor_bump_of : Pubkey -> bytes -> Z).
Context (wallet_address : Pubkey -> Pubkey) (wallet_bump_of : Pubkey -> Z)
  (create_wallet : Pubkey -> Z -> option Pubkey).
Context (config_address : Pubkey -> Pubkey) (config_bump_of : Pubkey -> Z).
Context (rent : Z -> Z) (invoke : Pubkey -> Instruction -> ST Outside StoreError unit).
Implicit Types (w : World) (o : Outside) (b : InstructionBuffer) (slot now : Z) (role : bytes).

#[local] Notation run :=
  (run_timelock to_key this executor_address executor_bump_of wallet_address wallet_bump_of create_wallet
     config_address config_bump_of rent invoke).

#[export] Instance InstructionFlag_eq_dec : EqDecision InstructionFlag. Proof. solve_decision. Defined.
#[export] Instance InstructionAccountFlag_eq_dec : EqDecision InstructionAccountFlag.
Proof. solve_decision. Defined.

(** The store of the world, and who may act with a role. *)
Definition the_store w : Store := out_store (outside w).
Definition may slot w (a : Pubkey) role : Prop := May to_key slot (the_store w) a role.

(** Two worlds with the same timelock accounts. *)
Definition SameTimelock w w' : Prop := exists o, w' = put_outside o w.

#[export] Instance same_timelock_preorder : PreOrder SameTimelock.
Proof.
  split.
  - intros w. exists (outside w). by destruct w.
  - intros w1 w2 w3 [o2 ->] [o3 ->]. by exists o3.
Qed.

Lemma on_outside_ok {A} (m : ST Outside StoreError A) w w' a :
  on_outside m w = (w', Ok a) <-> exists o, m (outside w) = (o, Ok a) /\ w' = put_outside o w.
Proof. apply szoom_ok. Qed.

Lemma on_outside_same {A} (m : ST Outside StoreError A) w w' a :
  on_outside m w = (w', Ok a) -> SameTimelock w w'.
Proof. intros (o & _ & ->)%on_outside_ok. by exists o. Qed.

Lemma on_the_store_ok {A} (m : SS A) w w' a :
  on_store m w = (w', Ok a) ->
  exists s, m (the_store w) = (s, Ok a)
    /\ w' = put_outside (mkOutside s (out_token_map (outside w)) (out_lamports (outside w))) w.
Proof. intros (o & (s & Hs & ->)%szoom_ok & ->)%on_outside_ok. by exists s. Qed.

Lemma put_outside_same w : put_outside (mkOutside (the_store w) (out_token_map (outside w))
    (out_lamports (outside w))) w = w.
Proof. by destruct w as [[]]. Qed.

Lemma only_ok slot a role w w' u :
  StoreWf (the_store w) -> only to_key slot a role w = (w', Ok u) -> w' = w /\ may slot w a role.
Proof.
  intros Hwf (s & [-> Hmay]%only_role_ok & ->)%on_the_store_ok; [|done]. by rewrite put_outside_same.
Qed.

Lemma pay_rent_ok a addr space w w' u :
  pay_rent rent a addr space w = (w', Ok u) -> SameTimelock w w' /\ the_store w' = the_store w.
Proof.
  intros (w1 & x & [-> _]%sread_ok & (o & (l & _ & ->)%szoom_ok & ->)%on_outside_ok)%sbind_ok.
  split; [by eexists|done].
Qed.

Lemma close_buffer_ok addr receiver w w' u :
  close_buffer addr receiver w = (w', Ok u) ->
  exists o, w' = put_buffers (delete addr (buffers w)) (put_outside o w) /\ out_store o = the_store w.
Proof.
  intros (w1 & x & (o & (l & _ & ->)%szoom_ok & ->)%on_outside_ok & ->%smodify_ok)%sbind_ok. by eexists.
Qed.

Lemma load_executor_ok key w w' e :
  load_executor this key w = (w', Ok e) -> w' = w /\ executors w !! key = Some e /\ executor_store e =
    this.
Proof.
  intros (w1 & e' & [-> He%ok_or_ok]%sread_ok & (w2 & [] & [-> Hs]%slift_ok & [->
    <-]%sret_ok)%sbind_ok)%sbind_ok.
  apply has_one_ok, Z.eqb_eq in Hs. done.
Qed.

(** The executor at a key is the one of a role. *)
Definition executor_of w key role : Prop := exists e, executors w !! key = Some e /\ role_name e =
    Ok role.

Lemma load_executor_of_ok role w w' key :
  load_executor_of this executor_address role w = (w', Ok key) -> w' = w /\ executor_of w key role.
Proof.
  intros (w1 & bs & [-> _]%slift_ok & (w2 & e & (-> & He & _)%load_executor_ok & H)%sbind_ok)%sbind_ok.
  apply sbind_ok in H as (w3 & n & [-> Hn]%slift_ok & H).
  apply sbind_ok in H as (w4 & [] & [-> Hr%require_ok%bool_decide_eq_true_1]%slift_ok & [Hw Hk]%sret_ok).
  subst key. split; [done|]. exists e. split; [exact He|]. congruence.
Qed.

Lemma load_config_ok w w' c : load_config this w = (w', Ok c) -> w' = w /\ config w = Some c.
Proof.
  intros (w1 & c' & [-> He%ok_or_ok]%sread_ok & (w2 & [] & [-> _]%slift_ok & [->
    <-]%sret_ok)%sbind_ok)%sbind_ok.
  done.
Qed.

Lemma load_buffer_ok addr w w' b : load_buffer addr w = (w', Ok b) ->
    w' = w /\ buffers w !! addr = Some b.
Proof. by intros [-> Hb%ok_or_ok]%sread_ok. Qed.

Lemma load_buffer_of_ok key receiver addr w w' b :
  load_buffer_of key receiver addr w = (w', Ok b) ->
  w' = w /\ buffers w !! addr = Some b /\ executor (header b) = key /\ rent_receiver (header b) =
    receiver.
Proof.
  intros (w1 & b' & [-> Hb]%load_buffer_ok & (w2 & [] & [-> He]%slift_ok & H)%sbind_ok)%sbind_ok.
  apply sbind_ok in H as (w3 & [] & [-> Hr]%slift_ok & [-> <-]%sret_ok).
  apply has_one_ok, Z.eqb_eq in He, Hr. done.
Qed.

(** *** Approvals *)

(** [b'] is the buffer [b] after an approval by [a] at the time [now]. *)
Definition approved now (a : Pubkey) b b' : Prop :=
  exists h, approve (BO := BO) now a (header b) = Ok h /\ b' =
    mkInstructionBuffer h (data b) (accounts b).

Lemma is_approved_set h now a h' :
  approve (BO := BO) now a h = Ok h' ->
  is_approved (BO := BO) h = false /\ is_approved (BO := BO) h' = true
  /\ header_approved_at h' = now /\ header_approver h' = a /\ a <> DEFAULT_PUBKEY
  /\ executor h' = executor h /\ wallet_bump h' = wallet_bump h /\ program_id h' = program_id h
  /\ num_accounts h' = num_accounts h /\ rent_receiver h' = rent_receiver h.
Proof.
  intros ([] & Hn%require_ok & ([] & _ & ([] & Ha%require_ok & [= <-])%rbind_ok)%rbind_ok)%rbind_ok.
  apply negb_true_iff in Hn, Ha. apply Z.eqb_neq in Ha. split; [done|]. split;
    [|done]. unfold is_approved. cbn [ih_flags].
  refine (eq_trans (get_set_flag (H := BO) instruction_flag_u8 (ih_flags h) Approved Approved true _
    _) _).
  - intros []; unfold MAX_FLAGS; simpl; lia.
  - intros [] []; done.
  - by rewrite decide_True.
Qed.

(** Approving keeps the rest, and nothing is approved twice. *)
Lemma approve_buffer_ok now a key addr mismatch w w' u :
  approve_buffer (BO := BO) now a key addr mismatch w = (w', Ok u) ->
  exists b b', buffers w !! addr = Some b /\ executor (header b) = key /\ approved now a b b'
    /\ w' = put_buffers (<[addr := b']> (buffers w)) w.
Proof.
  intros (w1 & b & [-> Hb]%load_buffer_ok & (w2 & [] & [-> He]%slift_ok & H)%sbind_ok)%sbind_ok.
  apply sbind_ok in H as (w3 & h & [-> Hh]%slift_ok & ->%smodify_ok).
  destruct (Z.eqb_spec (executor (header b)) key); [|done].
  exists b, (mkInstructionBuffer h (data b) (accounts b)). repeat split; try done. by exists h.
Qed.

(** *** Creations *)

(** What the accounts of a new buffer stand for, from the index [idx]. *)
Fixpoint account_metas (signers : list Z) (idx : Z) (accts : list (Pubkey * bool)) : list AccountMeta :=
  match accts with
  | [] => []
  | (address, writable) :: accts =>
      mkAccountMeta address (existsb (Z.eqb idx) signers) writable :: account_metas signers (idx + 1)
        accts
  end.

Lemma account_meta_new flags address signer writable :
  let flags := fst (set_flag (H := BO) account_flag_u8 flags Signer signer) in
  let flags := fst (set_flag (H := BO) account_flag_u8 flags Writable writable) in
  account_meta (BO := BO) (mkInstructionAccount flags address) = mkAccountMeta address signer writable.
Proof.
  intros fs fs'. subst fs fs'. unfold account_meta. cbn [pubkey account_flags].
  assert (Hb : forall f, (account_flag_u8 f < MAX_FLAGS)%nat) by (intros []; unfold MAX_FLAGS; simpl;
    lia).
  assert (Inj (=) (=) account_flag_u8) by (intros [] []; done).
  rewrite !(get_set_flag (H := BO)) by done. by rewrite decide_False, !decide_True.
Qed.

(** Only the wallet may be a signer. *)
Lemma init_accounts_ok wallet signers accts : forall idx l,
  init_accounts (BO := BO) wallet signers idx accts = Ok l ->
  account_meta (BO := BO) <$> l = account_metas signers idx accts
  /\ length l = length accts
  /\ Forall (fun m => is_signer m = true -> meta_pubkey m = wallet) (account_metas signers idx accts).
Proof.
  induction accts as [|[address writable] accts IH]; intros idx l Hl; cbn in Hl;
    [by injection Hl as <-|].
  apply rbind_ok in Hl as ([] & Hs & (l' & Hl' & [= <-])%rbind_ok).
  destruct (IH _ _ Hl') as (Hm & Hlen & Hall). cbn [account_metas]. split; [|split].
  - rewrite fmap_cons, Hm. f_equal. apply account_meta_new.
  - simpl. congruence.
  - constructor; [|done]. simpl. intros Hsig. rewrite Hsig in Hs. by apply require_ok, Z.eqb_eq in Hs.
Qed.

(** A buffer as it is created by [a]: what it holds, and that nobody has approved it. *)
Record created (a key program : Pubkey) (d : bytes) (signers : list Z) (accts :
  list (Pubkey * bool)) b : Prop := {
  cr_executor : executor (header b) = key;
  cr_program : program_id (header b) = program;
  cr_data : data b = d;
  cr_receiver : rent_receiver (header b) = a;
  cr_accounts : account_meta (BO := BO) <$> accounts b = account_metas signers 0 accts;
  cr_signers : Forall (fun m => is_signer m = true -> wallet create_wallet (header b) =
    Ok (meta_pubkey m))
                 (account_metas signers 0 accts);
  cr_fresh : is_approved (BO := BO) (header b) = false;
}.

Lemma load_and_init_instruction_ok key bump a program d accts signers b :
  load_and_init_instruction (BO := BO) create_wallet key bump a program d accts signers = Ok b ->
  created a key program d signers accts b /\ accts = [].
Proof.
  intros (wa & Hwa & (l & Hl & ([] & Hlen%require_ok%Z.eqb_eq & [= <-])%rbind_ok)%rbind_ok)%rbind_ok.
  destruct (init_accounts_ok _ _ _ _ _ Hl) as (Hm & Hn & Hall). split.
  - split; try done.
    + cbn [header accounts]. apply (Forall_impl _ _ _ Hall). intros m Hi Hs. by rewrite (Hi Hs).
    + unfold is_approved. cbn [header ih_flags]. apply get_flag_default.
  - unfold accounts_len, INSTRUCTION_ACCOUNT_SIZE in Hlen. simpl in Hlen. rewrite Hn in Hlen.
    apply length_zero_iff_nil. lia.
Qed.

(** *** The effect of an instruction on the accounts of the timelock *)

(** The instruction [i] creates or approves the buffer at [addr]. *)
Definition creates (a : Pubkey) (i : TimelockInstruction) (addr : Pubkey) b : Prop :=
  match i with
  | CreateInstructionBuffer key x program n _ d signers remaining =>
      x = addr /\ created a key program d signers (take (Z.to_nat n) remaining) b
  | _ => False
  end.

Definition approves (i : TimelockInstruction) (addr : Pubkey) (role : bytes) : Prop :=
  match i with
  | ApproveInstruction r x => r = role /\ x = addr
  | ApproveInstructions r remaining => r = role /\ (addr, true) ∈ remaining
  | _ => False
  end.

Record Effect slot now (a : Pubkey) (i : TimelockInstruction) w w' : Prop := {
  ef_executors : executors w ⊆ executors w';
  ef_config c : config w = Some c -> exists c', config w' = Some c' /\ delay c <= delay c';
  ef_buffers addr b' : buffers w' !! addr = Some b' ->
    buffers w !! addr = Some b'
    \/ creates a i addr b' /\ may slot w a TIMELOCK_KEEPER
    \/ exists b role, buffers w !! addr = Some b /\ approves i addr role
         /\ executor_of w (executor (header b)) role /\ approved now a b b'
         /\ may slot w a (timelocked_role role);
}.

(** An instruction that only takes buffers away. *)
Lemma effect_fewer slot now a i w w' :
  executors w' = executors w -> config w' = config w -> buffers w' ⊆ buffers w ->
    Effect slot now a i w w'.
Proof.
  intros He Hc Hb. split; [by rewrite He|rewrite Hc; eauto with lia|].
  intros addr b' H. left. by eapply lookup_weaken.
Qed.

Lemma effect_same slot now a i w w' : SameTimelock w w' -> Effect slot now a i w w'.
Proof. intros [o ->]. by apply effect_fewer. Qed.

Lemma effect_trans_l slot now a i w w1 w2 :
  SameTimelock w w1 -> the_store w1 = the_store w -> Effect slot now a i w1 w2 ->
    Effect slot now a i w w2.
Proof.
  intros [o ->] Hs [He Hc Hb]. split; [done|done|]. intros addr b' Hl.
  destruct (Hb _ _ Hl) as [H|[[H Hm]|(b & role & H & Ha & Hr & Hp & Hm)]]; unfold may in *.
  - by left.
  - right; left. by rewrite <- Hs.
  - right; right. exists b, role. by rewrite <- Hs.
Qed.

(** *** Every instruction *)

#[local] Notation Runs slot now a i w w' := (run slot now a i w = (w', Ok tt)).

Lemma only_same slot a role w w' u : only to_key slot a role w = (w', Ok u) -> SameTimelock w w'.
Proof. apply on_outside_same. Qed.

Lemma initialize_config_effect slot now a d w w' :
  Runs slot now a (InitializeConfig d) w w' -> Effect slot now a (InitializeConfig d) w w'.
Proof.
  cbn [run_timelock]. unfold initialize_config.
  intros (w1 & x & [-> Hnone]%sread_ok & (w2 & [] & [H1 _]%pay_rent_ok & H)%sbind_ok)%sbind_ok.
  apply sbind_ok in H as (w3 & key & (-> & _)%load_executor_of_ok & H).
  apply sbind_ok in H as (w4 & [] & H2%only_same & H). apply sbind_ok in H as (w5 & [] & H3%only_same
    & H).
  apply sbind_ok in H as (w6 & [] & H4%only_same & H). apply sbind_ok in H as (w7 & [] & H5 &
    ->%smodify_ok).
  assert (H6 : SameTimelock w6 w7).
  { unfold accept_authority in H5. apply sbind_ok in H5 as (w8 & auth & Hq%on_outside_same & H5).
    rewrite Hq. destruct auth; [by apply sret_ok in H5 as [-> _]|]. by eapply on_outside_same. }
  assert (SameTimelock w w7) as [o ->] by (rewrite H1, H2, H3, H4; done).
  split; [done| |by left]. intros c Hc. simpl in *. by rewrite Hc in Hnone.
Qed.

Lemma increase_delay_effect slot now a delta w w' :
  0 <= delta -> Runs slot now a (IncreaseDelay delta) w w' ->
    Effect slot now a (IncreaseDelay delta) w w'.
Proof.
  cbn [run_timelock]. unfold increase_delay_ix.
  intros Hd (w1 & c & [-> Hc]%load_config_ok & (w2 & [] & [o ->]%only_same & H)%sbind_ok)%sbind_ok.
  apply sbind_ok in H as (w3 & [] & [-> _]%slift_ok & H).
  apply sbind_ok in H as (w4 & c' & [-> (n & Hn%ok_or_ok & [= <-])%rbind_ok]%slift_ok & ->%smodify_ok).
  split; [done| |by left]. intros c0 Hc0. rewrite Hc in Hc0. injection Hc0 as <-. eexists. split;
    [done|].
  simpl. apply uadd_some in Hn. lia.
Qed.

Lemma initialize_executor_effect slot now a store role w w' :
  Runs slot now a (InitializeExecutor store role) w w' ->
  Effect slot now a (InitializeExecutor store role) w w'.
Proof.
  cbn [run_timelock]. unfold initialize_executor.
  intros (w1 & bs & [-> _]%slift_ok & (w2 & x & [-> Hnone]%sread_ok & H)%sbind_ok)%sbind_ok.
  apply sbind_ok in H as (w3 & [] & [[o ->] _]%pay_rent_ok & H).
  apply sbind_ok in H as (w4 & e & [-> _]%slift_ok & ->%smodify_ok).
  split; simpl; [|eauto with lia|by left]. destruct (executors w !! _) eqn:He;
    [done|]. by apply insert_subseteq.
Qed.

Lemma create_instruction_buffer_effect slot now a key addr program n dl d signers remaining w w' :
  let i := CreateInstructionBuffer key addr program n dl d signers remaining in
  StoreWf (the_store w) -> Runs slot now a i w w' -> Effect slot now a i w w'.
Proof.
  intros i Hwf. subst i. cbn [run_timelock]. unfold create_instruction_buffer.
  intros (w1 & e & (-> & He & _)%load_executor_ok & (w2 & x & [-> Hnone]%sread_ok &
    H)%sbind_ok)%sbind_ok.
  apply sbind_ok in H as (w3 & [] & [Hsame Hs]%pay_rent_ok & H). apply (effect_trans_l _ _ _ _ _ _ _
    Hsame Hs).
  apply sbind_ok in H as (w4 & [] & [-> Hmay]%only_ok & H); [|by rewrite Hs].
  apply sbind_ok in H as (w5 & [] & [-> _]%slift_ok & H). apply sbind_ok in H as (w6 & [] & [->
    _]%slift_ok & H).
  apply sbind_ok in H as (w7 & nm & [-> _]%slift_ok & H).
  apply sbind_ok in H as (w8 & b & [-> [Hb _]%load_and_init_instruction_ok]%slift_ok & ->%smodify_ok).
  split; simpl; [done|eauto with lia|]. intros addr' b' [[<- <-]|[_ Hl]]%lookup_insert_Some; [|by left].
  right; left. done.
Qed.

Lemma approve_instruction_effect slot now a role addr w w' :
  StoreWf (the_store w) -> Runs slot now a (ApproveInstruction role addr) w w' ->
  Effect slot now a (ApproveInstruction role addr) w w'.
Proof.
  intros Hwf. cbn [run_timelock]. unfold approve_instruction.
  intros (w1 & key & (-> & Hk)%load_executor_of_ok & (w2 & b0 & [-> _]%load_buffer_ok &
    H)%sbind_ok)%sbind_ok.
  apply sbind_ok in H as (w3 & [] & [-> _]%slift_ok & H).
  apply sbind_ok in H as (w4 & [] & [-> Hmay]%only_ok & H); [|done].
  apply approve_buffer_ok in H as (b & b' & Hb & <- & Happ & ->).
  split; simpl; [done|eauto with lia|]. intros addr' b1 [[<- <-]|[_ Hl]]%lookup_insert_Some; [|by left].
  right; right. by exists b, role.
Qed.

(** Several approvals: each buffer is approved at most once, since no approval succeeds twice. *)
Lemma approve_all_ok now a key remaining : forall w w',
  sfor_each (fun account : Pubkey * bool =>
    do! _ := slift (if snd account then Ok tt else Err (Anchor "AccountNotMutable")) in
    approve_buffer (BO := BO) now a key (fst account) (Core CoreError.InvalidArgument)) remaining w =
      (w', Ok tt) ->
  executors w' = executors w /\ config w' = config w
  /\ forall addr b', buffers w' !! addr = Some b' ->
       buffers w !! addr = Some b'
       \/ exists b, buffers w !! addr = Some b /\ (addr, true) ∈ remaining /\ executor (header b) = key
            /\ approved now a b b'.
Proof.
  induction remaining as [|[x mut] remaining IH]; intros w w' H; cbn [sfor_each] in H.
  { apply sret_ok in H as [-> _]. split; [done|]. split; [done|]. by left. }
  apply sbind_ok in H as (w1 & [] & H1 & H). apply sbind_ok in H1 as (w2 & [] & [-> Hmut]%slift_ok & H1).
  simpl in Hmut. destruct mut; [|done].
  apply approve_buffer_ok in H1 as (b & b1 & Hb & Hk & Happ & ->). cbn [fst] in Hb.
  apply IH in H as (-> & -> & IHb). split; [done|]. split; [done|]. cbn [put_buffers buffers fst] in IHb.
  intros addr b' [Hl|(b2 & Hl & Hin & Hk2 & Happ2)]%IHb;
    apply lookup_insert_Some in Hl as [[<- <-]|[Hne Hl]].
  - right. exists b. split; [done|]. split; [by left|done].
  - by left.
  - destruct Happ as (h & Hh%is_approved_set & ->), Happ2 as (h2 & Hh2%is_approved_set & _).
    cbn [header] in Hh2. destruct Hh as (_ & ? & _), Hh2 as (? & _). congruence.
  - right. exists b2. split; [done|]. split; [by right|done].
Qed.

Lemma approve_instructions_effect slot now a role remaining w w' :
  StoreWf (the_store w) -> Runs slot now a (ApproveInstructions role remaining) w w' ->
  Effect slot now a (ApproveInstructions role remaining) w w'.
Proof.
  intros Hwf. cbn [run_timelock]. unfold approve_instructions.
  intros (w1 & key & (-> & Hk)%load_executor_of_ok & (w2 & [] & [-> Hmay]%only_ok &
    H)%sbind_ok)%sbind_ok; [|done].
  apply approve_all_ok in H as (He & Hc & Hb). split; [by rewrite He|rewrite Hc; eauto with lia|].
  intros addr b' [Hl|(b & Hl & Hin & <- & Happ)]%Hb; [by left|]. right; right. by exists b, role.
Qed.

(** Only buffers are lost. *)
Definition Fewer w w' : Prop :=
  executors w' = executors w /\ config w' = config w /\ buffers w' ⊆ buffers w.

#[export] Instance fewer_preorder : PreOrder Fewer.
Proof.
  split; [by intros w|]. intros w1 w2 w3 (E2 & C2 & B2) (E3 & C3 & B3).
  split; [congruence|]. split; [congruence|]. by etrans.
Qed.

Lemma close_buffer_fewer addr receiver w w' u : close_buffer addr receiver w = (w', Ok u) -> Fewer w w'.
Proof. intros (o & -> & _)%close_buffer_ok. split; [done|]. split; [done|]. apply delete_subseteq. Qed.

Lemma same_fewer w w' : SameTimelock w w' -> Fewer w w'.
Proof. by intros [o ->]. Qed.

Lemma fewer_effect slot now a i w w' : Fewer w w' -> Effect slot now a i w w'.
Proof. intros (? & ? & ?). by apply effect_fewer. Qed.

Lemma cancel_all_ok key receiver remaining : forall w w',
  sfor_each (fun account : Pubkey * bool =>
    do! _ := slift (if snd account then Ok tt else Err (Anchor "AccountNotMutable")) in
    do! b := load_buffer (fst account) in
    do! _ := slift (require (executor (header b) =? key) CoreError.InvalidArgument) in
    do! _ := slift (require (rent_receiver (header b) =? receiver) CoreError.InvalidArgument) in
    close_buffer (fst account) receiver) remaining w = (w', Ok tt) -> Fewer w w'.
Proof.
  induction remaining as [|x remaining IH]; intros w w' H; cbn [sfor_each] in H.
  { by apply sret_ok in H as [-> _]. }
  apply sbind_ok in H as (w1 & [] & H1 & H%IH). rewrite <- H.
  apply sbind_ok in H1 as (w2 & [] & [-> _]%slift_ok & H1).
  apply sbind_ok in H1 as (w3 & b & [-> _]%load_buffer_ok & H1).
  apply sbind_ok in H1 as (w4 & [] & [-> _]%slift_ok & H1). apply sbind_ok in H1 as (w5 & [] & [->
    _]%slift_ok & H1).
  by eapply close_buffer_fewer.
Qed.

(** An execution, in full. *)
Lemma execute_instruction_ok slot now a key wallet receiver addr w w' :
  StoreWf (the_store w) -> Runs slot now a (ExecuteInstruction key wallet receiver addr) w w' ->
  exists c e b role ap ix o o',
    config w = Some c /\ executors w !! key = Some e /\ create_wallet key (executor_wallet_bump e) =
      Some wallet
    /\ buffers w !! addr = Some b /\ executor (header b) = key /\ rent_receiver (header b) = receiver
    /\ may slot w a TIMELOCK_KEEPER
    /\ approver (header b) = Some ap /\ role_name e = Ok role /\ may slot w ap (timelocked_role role)
    /\ is_executable (BO := BO) now (delay c) (header b) = true
    /\ ix = mkInstruction (program_id (header b)) (account_meta (BO := BO) <$> accounts b) (data b)
    /\ invoke wallet ix (outside w) = (o, Ok tt)
    /\ w' = put_buffers (delete addr (buffers w)) (put_outside o' w) /\ out_store o' = out_store o.
Proof.
  intros Hwf. cbn [run_timelock]. unfold execute_instruction.
  intros (w1 & c & [-> Hc]%load_config_ok & (w2 & e & (-> & He & _)%load_executor_ok &
    H)%sbind_ok)%sbind_ok.
  apply sbind_ok in H as (w3 & [] & [-> Hwallet]%slift_ok & H).
  apply sbind_ok in H as (w4 & b & (-> & Hb & Hk & Hr)%load_buffer_of_ok & H).
  apply sbind_ok in H as (w5 & [] & [-> Hmay]%only_ok & H); [|done].
  apply sbind_ok in H as (w6 & b' & [-> ([] & _ & [= <-])%rbind_ok]%slift_ok & H).
  apply sbind_ok in H as (w7 & ap & [-> Hap%ok_or_ok]%slift_ok & H).
  apply sbind_ok in H as (w8 & role & [-> Hrole]%slift_ok & H).
  apply sbind_ok in H as (w9 & still & Hstill & H).
  apply sbind_ok in H as (w10 & [] & [-> ->%require_ok]%slift_ok & H).
  assert (Honly : on_store (only_role to_key slot ap (timelocked_role role)) w = (w9, Ok tt)).
  { apply on_outside_ok in Hstill as (o & (s & Hs & ->)%szoom_ok & ->).
    apply on_outside_ok. eexists. split; [|done]. apply szoom_ok. exists s. split; [|done].
    unfold only_role. apply sbind_ok. by exists s, true. }
  apply only_ok in Honly as [-> Hap_may]; [|done].
  apply sbind_ok in H as (w10 & [] & [-> Hexec%require_ok]%slift_ok & H).
  apply sbind_ok in H as (w11 & ix & [-> Hix]%slift_ok & H). cbn in Hix. injection Hix as <-.
  apply sbind_ok in H as (w12 & [] & (o & Hinv & ->)%on_outside_ok & (o' & -> & Ho')%close_buffer_ok).
  unfold check_wallet in Hwallet. destruct (create_wallet _ _) as [wa|] eqn:Hcw; [|done].
  destruct (Z.eqb_spec wa wallet) as [->|]; [|done].
  exists c, e, b, role, ap. eexists _, o, o'. repeat (split; [done|]). done.
Qed.

Definition ix_ok (i : TimelockInstruction) : Prop := match i with IncreaseDelay delta => 0 <= delta |
    _ => True end.

Lemma run_effect slot now a i w w' :
  StoreWf (the_store w) -> ix_ok i -> Runs slot now a i w w' -> Effect slot now a i w w'.
Proof.
  intros Hwf Hok H. destruct i.
  - by apply initialize_config_effect.
  - by apply increase_delay_effect.
  - by apply initialize_executor_effect.
  - by apply create_instruction_buffer_effect.
  - by apply approve_instruction_effect.
  - by apply approve_instructions_effect.
  - apply fewer_effect. cbn [run_timelock] in H. unfold cancel_instruction in H.
    apply sbind_ok in H as (w1 & e & (-> & _)%load_executor_ok & H).
    apply sbind_ok in H as (w2 & b & (-> & _)%load_buffer_of_ok & H).
    apply sbind_ok in H as (w3 & [] & ->%only_same%same_fewer & H%close_buffer_fewer). done.
  - apply fewer_effect. cbn [run_timelock] in H. unfold cancel_instructions in H.
    apply sbind_ok in H as (w1 & e & (-> & _)%load_executor_ok & H).
    apply sbind_ok in H as (w3 & [] & ->%only_same%same_fewer & H%cancel_all_ok). done.
  - apply execute_instruction_ok in H as (? & ? & ? & ? & ? & ? & ? & o' & H); [|done].
    destruct H as (_ & _ & _ & _ & _ & _ & _ & _ & _ & _ & _ & _ & _ & -> & _).
    apply effect_fewer; [done|done|apply delete_subseteq].
  - apply effect_same. cbn [run_timelock] in H. unfold revoke_role in H.
    apply sbind_ok in H as (w1 & e & (-> & _)%load_executor_of_ok & H).
    apply sbind_ok in H as (w2 & [] & ->%only_same & H). apply sbind_ok in H as (w3 & [] & [->
      _]%slift_ok & H).
    by eapply on_outside_same.
  - apply effect_same. cbn [run_timelock] in H. unfold set_expected_price_provider in H.
    apply sbind_ok in H as (w1 & e & (-> & _)%load_executor_of_ok & H).
    apply sbind_ok in H as (w2 & [] & ->%only_same & H). apply sbind_ok in H as (w3 & k & [->
      _]%slift_ok & H).
    by eapply on_outside_same.
Qed.

(** ** Histories

    An instruction that succeeded, with the world it ran in, the slot of the last restart,
      the time and its
    signer. A history starts with no accounts of the timelock; between the instructions, the outside
    changes in any way that keeps the tables of the store in order, as the instructions of the store do. *)
Record Entry : Type := mkEntry {
  en_world : World;
  en_slot : Z;
  en_now : Z;
  en_signer : Pubkey;
  en_ix : TimelockInstruction;
}.

Inductive TimelockReach : list Entry -> World -> Prop :=
| TimelockStart w :
    config w = None -> executors w = ∅ -> buffers w = ∅ -> StoreWf (the_store w) -> TimelockReach [] w
| TimelockRun tr w slot now a i w' :
    TimelockReach tr w -> ix_ok i -> Runs slot now a i w w' -> StoreWf (the_store w') ->
    TimelockReach (mkEntry w slot now a i :: tr) w'
| TimelockOutside tr w o :
    TimelockReach tr w -> StoreWf (out_store o) -> TimelockReach tr (put_outside o w).

Lemma timelock_reach_wf tr w : TimelockReach tr w -> StoreWf (the_store w).
Proof. by destruct 1. Qed.

(** The signer of an entry could act with a role. *)
Definition en_may (en : Entry) role : Prop := may (en_slot en) (en_world en) (en_signer en) role.

(** The approval of a buffer by an entry. *)
Record Approval (en : Entry) (addr : Pubkey) b0 b role : Prop := {
  ap_ix : approves (en_ix en) addr role;
  ap_executor : executor_of (en_world en) (executor (header b0)) role;
  ap_may : en_may en (timelocked_role role);
  ap_approved : approved (en_now en) (en_signer en) b0 b;
}.

(** Where a buffer comes from: it was created by a keeper, and has not been touched since but for an
    approval. *)
Definition Origin (tr : list Entry) (addr : Pubkey) b : Prop :=
  exists later cr before b0, tr = later ++ cr :: before
    /\ creates (en_signer cr) (en_ix cr) addr b0 /\ en_may cr TIMELOCK_KEEPER
    /\ (b = b0 \/ exists l1 ap l2 role, later = l1 ++ ap :: l2 /\ Approval ap addr b0 b role).

Lemma origin_cons en tr addr b : Origin tr addr b -> Origin (en :: tr) addr b.
Proof.
  intros (later & cr & before & b0 & -> & Hc & Hm & Hb). exists (en :: later), cr, before, b0.
  do 3 (split; [done|]). destruct Hb as [Hb|(l1 & ap & l2 & role & -> & Hap)]; [by left|].
  right. by exists (en :: l1), ap, l2, role.
Qed.

(** Nothing that was there in an earlier world is gone but buffers, and the delay has not decreased. *)
Definition Older w0 w : Prop :=
  executors w0 ⊆ executors w
  /\ forall c, config w0 = Some c -> exists c', config w = Some c' /\ delay c <= delay c'.

Lemma older_effect w0 w w' slot now a i : Older w0 w -> Effect slot now a i w w' -> Older w0 w'.
Proof.
  intros [He Hc] [He' Hc' _]. split; [by etrans|]. intros c (c1 & Hc1 & Hle)%Hc.
  destruct (Hc' _ Hc1) as (c2 & ? & ?). exists c2. split; [done|lia].
Qed.

Lemma origin_step tr w slot now a i w' :
  (forall addr b, buffers w !! addr = Some b -> Origin tr addr b) -> Effect slot now a i w w' ->
  forall addr b, buffers w' !! addr = Some b -> Origin (mkEntry w slot now a i :: tr) addr b.
Proof.
  intros IH [_ _ Hb] addr b [Hl|[[Hc Hm]|(b1 & role & Hl & Hi & Hx & Hap & Hm)]]%Hb.
  - by apply origin_cons, IH.
  - exists [], (mkEntry w slot now a i), tr, b. do 3 (split; [done|]). by left.
  - destruct (IH _ _ Hl) as (later & cr & before & b0 & -> & Hc & Hcm & [->|H]).
    + exists (mkEntry w slot now a i :: later), cr, before, b0. do 3 (split; [done|]). right.
      by exists [], (mkEntry w slot now a i), later, role.
    + destruct H as (l1 & ap & l2 & role' & _ & [_ _ _ (h & Hh%is_approved_set & ->)]).
      destruct Hap as (h2 & Hh2%is_approved_set & _). cbn [header] in Hh2.
      destruct Hh as (_ & ? & _), Hh2 as (? & _). congruence.
Qed.

Lemma timelock_reach_inv tr w :
  TimelockReach tr w ->
  Forall (fun en => Older (en_world en) w) tr
  /\ forall addr b, buffers w !! addr = Some b -> Origin tr addr b.
Proof.
  induction 1 as [w Hc He Hb Hwf|tr w slot now a i w' Hr [IHo IHb] Hok Hrun _|tr w o Hr [IHo IHb] _].
  - split; [done|]. intros addr b. by rewrite Hb, lookup_empty.
  - apply run_effect in Hrun; [|by eapply timelock_reach_wf|done]. split; [|by eapply origin_step].
    constructor; [cbn; split; [apply (ef_executors _ _ _ _ _ _ Hrun)|apply (ef_config _ _ _ _ _ _
      Hrun)]|].
    eapply Forall_impl; [exact IHo|]. intros en. cbn. intros Hold. by eapply older_effect.
  - split; [|done]. exact IHo.
Qed.

(** C10: the timelock is respected. What the wallet of an executor signs was buffered before by a timelock
    keeper, exactly as it is executed, and afterwards approved by somebody who had the timelocked role
      of the
    executor and who still has it; since the approval, at least the delay has passed,
      which is not less than
    it was at the approval. A timelock keeper executes it, the wallet is the one of the executor,
    and the buffer is gone afterwards, so nothing is executed twice. *)
Theorem timelock_respected tr w slot now a key wallet receiver addr w' :
  TimelockReach tr w -> Runs slot now a (ExecuteInstruction key wallet receiver addr) w w' ->
  exists c e role ix o,
    config w = Some c /\ executors w !! key = Some e /\ role_name e = Ok role
    /\ create_wallet key (executor_wallet_bump e) = Some wallet
    /\ may slot w a TIMELOCK_KEEPER
    /\ (exists l1 ap l2 cr l3, tr = l1 ++ ap :: l2 ++ cr :: l3
        /\ approves (en_ix ap) addr role /\ en_may ap (timelocked_role role)
        /\ may slot w (en_signer ap) (timelocked_role role)
        /\ saturating_add (en_now ap) (delay c) <= now
        /\ (forall c0, config (en_world ap) = Some c0 -> delay c0 <= delay c)
        /\ en_may cr TIMELOCK_KEEPER /\ en_signer cr = receiver
        /\ exists program n dl d signers remaining,
             en_ix cr = CreateInstructionBuffer key addr program n dl d signers remaining
             /\ ix = mkInstruction program (account_metas signers 0 (take (Z.to_nat n) remaining)) d)
    /\ invoke wallet ix (outside w) = (o, Ok tt) /\ the_store w' = out_store o
    /\ buffers w' = delete addr (buffers w).
Proof.
  intros Hreach (c & e & b & role & ap & ix & o & o' & Hc & He & Hw & Hb & Hkey & Hrr & Hmay & Hap &
    Hrole & Hstill
    & Hexec & Hix & Hinv & -> & Ho)%execute_instruction_ok; [|by eapply timelock_reach_wf].
  destruct (timelock_reach_inv _ _ Hreach) as [Hold Horigin].
  destruct (Horigin _ _ Hb) as (later & cr & before & b0 & -> & Hcr & Hcm & [->|Happ]).
  { unfold creates in Hcr. destruct (en_ix cr); try done. destruct Hcr as [_ [_ _ _ _ _ _ Hf]].
    unfold is_executable, approved_at in Hexec. by rewrite Hf in Hexec. }
  destruct Happ as (l1 & en & l2 & role' & -> & [Hi (e0 & He0 & Hr0) Hm (h & Hh%is_approved_set & ->)]).
  destruct Hh as (_ & Hset & Hat & Hwho & Hne & Hx & _ & Hprog & _ & Hrec). cbn [header data accounts]
    in *.
  rewrite !Forall_app, Forall_cons in Hold. destruct Hold as [(_ & [Hsub Hdelay] & _) _].
  assert (e0 = e) as -> by (rewrite <- Hx, Hkey in He0; apply (lookup_weaken _ _ _ _ He0) in Hsub;
    congruence).
  assert (role' = role) as -> by congruence.
  assert (ap = en_signer en) as ->.
  { unfold approver, optional_address in Hap. destruct (_ =? _); congruence. }
  exists c, e, role, ix, o. do 5 (split; [done|]). split; [|done].
  exists l1, en, l2, cr, before. split; [by rewrite <- app_assoc|]. do 3 (split; [done|]).
  unfold is_executable, approved_at in Hexec. rewrite Hset, Hat in Hexec. split; [lia|].
  split. { intros c0 Hc0. destruct (Hdelay _ Hc0) as (c' & Hc' & Hle). congruence. }
  split; [done|]. unfold creates in Hcr. destruct (en_ix cr); try done.
  destruct Hcr as [-> [Hk0 Hp0 Hd0 Hr0' Hm0 _ _]]. split; [congruence|].
  eexists _, _, _, _, _, _. split; [f_equal; congruence|]. rewrite Hix, <- Hm0. f_equal; congruence.
Qed.

(** C38: a buffered instruction has no accounts. Loading a buffer compares the length of the bytes of its
    accounts, 33 for each, with their number; so the creation of a buffer for an instruction with any
      account
    fails, and only instructions without accounts can go through the timelock. *)
Theorem buffered_without_accounts slot a key addr program n dl d signers remaining w w' :
  0 <= n ->
  create_instruction_buffer (BO := BO) to_key this create_wallet rent slot a key addr program n dl d signers
    remaining w = (w', Ok tt) ->
  n = 0.
Proof.
  intros Hn. unfold create_instruction_buffer.
  intros (w1 & e & (-> & He & _)%load_executor_ok & (w2 & x & [-> Hnone]%sread_ok &
    H)%sbind_ok)%sbind_ok.
  apply sbind_ok in H as (w3 & [] & _ & H). apply sbind_ok in H as (w4 & [] & _ & H).
  apply sbind_ok in H as (w5 & [] & [-> Hlen%require_gte_ok]%slift_ok & H).
  apply sbind_ok in H as (w6 & [] & [-> _]%slift_ok & H). apply sbind_ok in H as (w7 & nm & [->
    _]%slift_ok & H).
  apply sbind_ok in H as (w8 & b & [-> [_ Hb]%load_and_init_instruction_ok]%slift_ok & _).
  apply (f_equal length) in Hb. rewrite length_take in Hb. simpl in Hb. lia.
Qed.

(** What a store action does with the roles by itself. *)
Lemma revoke_role_store signer slot user role s s' u :
  StoreWf s -> run_store_action to_key this slot signer (RoleAction (Revoke user role)) s = (s', Ok u) ->
  exists rs, s' = with_role rs s
    /\ (forall a r, Has to_key s' a r <-> Has to_key s a r /\ ~ (a = user /\ r = role)).
Proof.
  intros Hwf H. simpl in H. unfold role_instruction in H. apply sbind_ok in H as (s1 & [] & Hadm & H).
  apply only_admin_ok in Hadm as [-> _]; [|done]. apply szoom_ok in H as (rs & H & ->). exists rs.
    split; [done|].
  destruct u. simpl in H. destruct (revoke_ok to_key user role _ _ (sw_roles _ Hwf) H) as (_ & He & Hg).
  intros a r. unfold Has. simpl. rewrite He, Hg. destruct (decide _); naive_solver.
Qed.

(** The instructions that do not touch the store. *)
Lemma approve_all_store now a key remaining : forall w w',
  sfor_each (fun account : Pubkey * bool =>
    do! _ := slift (if snd account then Ok tt else Err (Anchor "AccountNotMutable")) in
    approve_buffer (BO := BO) now a key (fst account) (Core CoreError.InvalidArgument)) remaining w =
      (w', Ok tt) ->
  the_store w' = the_store w.
Proof.
  induction remaining as [|x remaining IH]; intros w w' H; cbn [sfor_each] in H.
  { by apply sret_ok in H as [-> _]. }
  apply sbind_ok in H as (w1 & [] & H1 & ->%IH). apply sbind_ok in H1 as (w2 & [] & [-> _]%slift_ok &
    H1).
  apply approve_buffer_ok in H1 as (b & b1 & _ & _ & _ & ->). done.
Qed.

Lemma cancel_all_store key receiver remaining : forall w w',
  sfor_each (fun account : Pubkey * bool =>
    do! _ := slift (if snd account then Ok tt else Err (Anchor "AccountNotMutable")) in
    do! b := load_buffer (fst account) in
    do! _ := slift (require (executor (header b) =? key) CoreError.InvalidArgument) in
    do! _ := slift (require (rent_receiver (header b) =? receiver) CoreError.InvalidArgument) in
    close_buffer (fst account) receiver) remaining w = (w', Ok tt) -> the_store w' = the_store w.
Proof.
  induction remaining as [|x remaining IH]; intros w w' H; cbn [sfor_each] in H.
  { by apply sret_ok in H as [-> _]. }
  apply sbind_ok in H as (w1 & [] & H1 & ->%IH). apply sbind_ok in H1 as (w2 & [] & [-> _]%slift_ok &
    H1).
  apply sbind_ok in H1 as (w3 & b & [-> _]%load_buffer_ok & H1).
  apply sbind_ok in H1 as (w4 & [] & [-> _]%slift_ok & H1). apply sbind_ok in H1 as (w5 & [] & [->
    _]%slift_ok & H1).
  by apply close_buffer_ok in H1 as (o & -> & Ho).
Qed.

(** The wallet becomes the authority of the store, which has named it, if it is not yet. *)
Lemma accept_authority_ok slot wa w w' u :
  accept_authority to_key this slot wa w = (w', Ok u) ->
  authority (the_store w) = wa /\ the_store w' = the_store w
  \/ next_authority (the_store w) = wa /\ the_store w' = with_authorities wa wa (the_store w).
Proof.
  intros (w1 & b & (s & [-> [= <-]]%sread_ok & ->)%on_the_store_ok & H)%sbind_ok. rewrite put_outside_same
    in H.
  unfold is_authority in H. destruct (Z.eqb_spec (authority (the_store w)) wa) as [Ha|_].
  { apply sret_ok in H as [-> _]. by left. }
  apply on_the_store_ok in H as (s & H & ->). cbn [run_store_action] in H. unfold accept_store_authority
    in H.
  apply sbind_ok in H as (s1 & [] & [-> Hn%has_one_ok%Z.eqb_eq]%sread_ok & H).
  apply sbind_ok in H as (s2 & [] & [-> _]%sread_ok & H%supdate_ok).
  apply rbind_ok in H as ([] & _ & [= <-]). right. by rewrite Hn.
Qed.

Lemma set_expected_provider_store slot wa token kind w w' u :
  StoreWf (the_store w) ->
  on_outside (set_expected_provider_ix to_key slot wa token kind) w = (w', Ok u) ->
    the_store w' = the_store w.
Proof.
  intros Hwf (o & (o1 & [] & (s & Hs & ->)%szoom_ok & H)%sbind_ok & ->)%on_outside_ok.
  apply only_role_ok in Hs as [-> _]; [|done].
  apply sbind_ok in H as (o2 & k & [-> _]%slift_ok & (m & _ & ->)%szoom_ok). done.
Qed.

(** The instructions that never touch the store. *)
Definition keeps_store (i : TimelockInstruction) : bool :=
  match i with
  | InitializeConfig _ | ExecuteInstruction _ _ _ _ | RevokeRole _ _ | SetExpectedPriceProvider _ _ =>
    false
  | _ => true
  end.

Lemma keeps_store_ok slot now a i w w' :
  StoreWf (the_store w) -> keeps_store i = true -> Runs slot now a i w w' -> the_store w' = the_store w.
Proof.
  intros Hwf Hi H. destruct i; try done; cbn [run_timelock] in H; clear Hi.
  - unfold increase_delay_ix in H. apply sbind_ok in H as (w1 & c & [-> _]%load_config_ok & H).
    apply sbind_ok in H as (w2 & [] & [-> _]%only_ok & H); [|done].
    apply sbind_ok in H as (w3 & [] & [-> _]%slift_ok & H). by apply sbind_ok in H as (w4 & c' & [->
      _]%slift_ok & ->%smodify_ok).
  - unfold initialize_executor in H. apply sbind_ok in H as (w1 & bs & [-> _]%slift_ok & H).
    apply sbind_ok in H as (w2 & x & [-> _]%sread_ok & H). apply sbind_ok in H as (w3 & [] & [_
      <-]%pay_rent_ok & H).
    by apply sbind_ok in H as (w4 & e & [-> _]%slift_ok & ->%smodify_ok).
  - unfold create_instruction_buffer in H. apply sbind_ok in H as (w1 & e & (-> & _)%load_executor_ok
    & H).
    apply sbind_ok in H as (w2 & x & [-> _]%sread_ok & H). apply sbind_ok in H as (w3 & [] & [_
      Hs]%pay_rent_ok & H).
    apply sbind_ok in H as (w4 & [] & [-> _]%only_ok & H); [|by rewrite Hs].
    do 3 (apply sbind_ok in H as (? & ? & [-> _]%slift_ok & H)).
    by apply sbind_ok in H as (w8 & b & [-> _]%slift_ok & ->%smodify_ok).
  - unfold approve_instruction in H. apply sbind_ok in H as (w1 & key & (-> & _)%load_executor_of_ok &
    H).
    apply sbind_ok in H as (w2 & b0 & [-> _]%load_buffer_ok & H). apply sbind_ok in H as (w3 & [] &
      [-> _]%slift_ok & H).
    apply sbind_ok in H as (w4 & [] & [-> _]%only_ok & H); [|done].
    by apply approve_buffer_ok in H as (b & b' & _ & _ & _ & ->).
  - unfold approve_instructions in H. apply sbind_ok in H as (w1 & key & (-> & _)%load_executor_of_ok
    & H).
    apply sbind_ok in H as (w4 & [] & [-> _]%only_ok & H%approve_all_store); done.
  - unfold cancel_instruction in H. apply sbind_ok in H as (w1 & e & (-> & _)%load_executor_ok & H).
    apply sbind_ok in H as (w2 & b & (-> & _)%load_buffer_of_ok & H).
    by apply sbind_ok in H as (w3 & [] & [-> _]%only_ok & (o & -> & Ho)%close_buffer_ok).
  - unfold cancel_instructions in H. apply sbind_ok in H as (w1 & e & (-> & _)%load_executor_ok & H).
    by apply sbind_ok in H as (w3 & [] & [-> _]%only_ok & H%cancel_all_store).
Qed.

(** C21: what bypasses the timelock. Apart from executing a buffered instruction, no instruction of the
    timelock changes anything of the store, except three kinds. A timelocked administrator may take a
    role from a user, unless it is one of the three roles that guard the timelock, and nobody else loses
    or gets any role. Initializing the configuration, for a signer with all three roles of
    administration, makes the wallet of the administrator's executor the authority of the store, which
    must have named it as the next one if it is not the authority already, and keeps the rest of the
    store, all roles included. And a timelocked market keeper may change the provider of a token in the
    token map, not the store. *)
Theorem timelock_bypass slot now a i w w' :
  StoreWf (the_store w) -> Runs slot now a i w w' ->
  match i with
  | ExecuteInstruction _ _ _ _ => True
  | RevokeRole user role =>
      may slot w a TIMELOCKED_ADMIN
      /\ role <> TIMELOCKED_ADMIN /\ role <> TIMELOCK_ADMIN /\ role <> TIMELOCK_KEEPER
      /\ (exists rs, the_store w' = with_role rs (the_store w))
      /\ (forall u r, Has to_key (the_store w') u r
            <-> Has to_key (the_store w) u r /\ ~ (u = user /\ r = role))
  | InitializeConfig _ =>
      may slot w a TIMELOCK_ADMIN /\ may slot w a TIMELOCK_KEEPER /\ may slot w a TIMELOCKED_ADMIN
      /\ exists key, executor_of w key ADMIN
         /\ (authority (the_store w) = wallet_address key /\ the_store w' = the_store w
             \/ next_authority (the_store w) = wallet_address key
                /\ the_store w' = with_authorities (wallet_address key) (wallet_address key) (the_store w))
  | SetExpectedPriceProvider _ _ => may slot w a TIMELOCKED_MARKET_KEEPER /\ the_store w' = the_store w
  | _ => the_store w' = the_store w
  end.
Proof.
  intros Hwf H. pose proof (fun Hi => keeps_store_ok _ _ _ _ _ _ Hwf Hi H) as Hkeep.
  destruct i; try exact I; try exact (Hkeep eq_refl); clear Hkeep; cbn [run_timelock] in H.
  - unfold initialize_config in H. apply sbind_ok in H as (w1 & x & [-> _]%sread_ok & H).
    apply sbind_ok in H as (w2 & [] & [[o ->] Hs]%pay_rent_ok & H).
    apply sbind_ok in H as (w3 & key & (-> & Hkey)%load_executor_of_ok & H).
    assert (Hwf' : StoreWf (the_store (put_outside o w))) by by rewrite Hs.
    do 3 (let Hm := fresh "Hm" in apply sbind_ok in H as (? & [] & Hm & H);
      apply only_ok in Hm as [-> Hm]; [|done]).
    apply sbind_ok in H as (w7 & [] & Ha%accept_authority_ok & ->%smodify_ok).
    unfold may in *. rewrite <- Hs. do 3 (split; [done|]). by exists key.
  - unfold revoke_role in H. apply sbind_ok in H as (w1 & e & (-> & _)%load_executor_of_ok & H).
    apply sbind_ok in H as (w2 & [] & [-> Hmay]%only_ok & H); [|done].
    apply sbind_ok in H as (w3 & [] & [-> Hrole%require_ok]%slift_ok & H).
    apply on_the_store_ok in H as (s & (rs & -> & Hh)%revoke_role_store & ->); [|done].
    split; [done|]. apply negb_true_iff in Hrole. cbn [existsb NOT_BYPASSABLE_ROLES] in Hrole.
    rewrite !orb_false_iff, !bool_decide_eq_false in Hrole. destruct Hrole as (? & ? & ? & _).
    do 3 (split; [congruence|]). split; [by exists rs|exact Hh].
  - unfold set_expected_price_provider in H. apply sbind_ok in H as (w1 & e & (-> &
    _)%load_executor_of_ok & H).
    apply sbind_ok in H as (w2 & [] & [-> Hmay]%only_ok & H); [|done].
    apply sbind_ok in H as (w3 & k & [-> _]%slift_ok & H). split; [done|].
    by eapply set_expected_provider_store.
Qed.


End Effects.

(** ** Example

    A store has an executor for administrators, whose wallet becomes the authority of the store with the
    initialization of the timelock, with a delay of an hour. The user 5 has the three roles of
    administration, the user 6 may approve. *)
Section Examples.
#[local] Existing Instance z_bitmap.
#[local] Existing Instance z_bitmap_laws.

Definition hash_example (name : bytes) : Z := foldl (fun h b => (257 * h + b) mod 2 ^ 64) 0 name.
Definition executor_address_example (store : Pubkey) (role : bytes) : Pubkey :=
    1000 + store + hash_example role.
Definition wallet_address_example (executor : Pubkey) : Pubkey := executor + 2 ^ 70.
(** What is executed pays the wallet. *)
Definition invoke_example (wallet : Pubkey) (ix : Instruction) : ST Outside StoreError unit :=
  smodify (fun o => mkOutside (out_store o) (out_token_map o) (put_lamports wallet (ix_program_id ix)
    (out_lamports o))).

Definition run_example : Z -> Z -> Pubkey -> TimelockInstruction -> WM unit :=
  run_timelock hash_example 9 executor_address_example (fun _ _ => 255) wallet_address_example (fun _
    => 254)
    (fun key _ => Some (wallet_address_example key)) (fun store => store + 2 ^ 71) (fun _ => 253) (fun
      size => size)
    invoke_example.

Definition admin_executor : Pubkey :=
  executor_address_example 9 (ADMIN ++ replicate (MAX_ROLE_NAME_LEN - length ADMIN) 0).
Definition admin_wallet : Pubkey := wallet_address_example admin_executor.

Definition timelock_actions_example : list StoreAction :=
  (RoleAction <$> [EnableRole TIMELOCK_ADMIN; Grant 5 TIMELOCK_ADMIN; EnableRole TIMELOCK_KEEPER;
     Grant 5 TIMELOCK_KEEPER; EnableRole TIMELOCKED_ADMIN; Grant 5 TIMELOCKED_ADMIN;
       Grant 6 TIMELOCKED_ADMIN])
  ++ [TransferStoreAuthority admin_wallet].

Definition timelock_store_example : Store :=
  foldl (fun s act => store_step hash_example 9 10 1 act s) new_store_example timelock_actions_example.

Lemma timelock_store_reach : StoreReach hash_example 9 timelock_store_example.
Proof.
  unfold timelock_store_example, timelock_actions_example. simpl.
  do 8 (apply StoreReachStep; [|first [exact I|split; [done|apply (bool_decide_unpack _); vm_compute;
    exact I]]]).
  by apply (StoreReachInit hash_example 9 10 1 [] 254 2 3).
Qed.

Definition timelock_start : World :=
  mkWorld (mkOutside timelock_store_example (mkTokenMap (FixedMap.zeroed 0 0) []) (<[5 :=
    100000]> ∅)) None ∅ ∅.

Definition executor_run := run_example 10 100 5 (InitializeExecutor 9 ADMIN) timelock_start.
Definition executor_at := fst executor_run.
Definition config_run := run_example 10 200 5 (InitializeConfig 3600) executor_at.
Definition config_at := fst config_run.
Definition buffer_example : TimelockInstruction := CreateInstructionBuffer admin_executor 77 42 0 2
    [1; 2] [] [].
Definition buffer_run := run_example 10 300 5 buffer_example config_at.
Definition buffer_at := fst buffer_run.
Definition approve_run := run_example 10 1000 6 (ApproveInstruction ADMIN 77) buffer_at.
Definition approve_at := fst approve_run.
Definition execute_run := run_example 10 4600 5 (ExecuteInstruction admin_executor admin_wallet 5 77)
    approve_at.
Definition execute_at := fst execute_run.

Lemma executor_runs : run_example 10 100 5 (InitializeExecutor 9 ADMIN) timelock_start =
    (executor_at, Ok tt).
Proof. fold executor_run. unfold executor_at. apply run_ok. vm_compute. reflexivity. Qed.
Lemma config_runs : run_example 10 200 5 (InitializeConfig 3600) executor_at = (config_at, Ok tt).
Proof. fold config_run. unfold config_at. apply run_ok. vm_compute. reflexivity. Qed.
Lemma buffer_runs : run_example 10 300 5 buffer_example config_at = (buffer_at, Ok tt).
Proof. fold buffer_run. unfold buffer_at. apply run_ok. vm_compute. reflexivity. Qed.
Lemma approve_runs : run_example 10 1000 6 (ApproveInstruction ADMIN 77) buffer_at = (approve_at, Ok tt).
Proof. fold approve_run. unfold approve_at. apply run_ok. vm_compute. reflexivity. Qed.
Lemma execute_runs :
  run_example 10 4600 5 (ExecuteInstruction admin_executor admin_wallet 5 77) approve_at =
    (execute_at, Ok tt).
Proof. fold execute_run. unfold execute_at. apply run_ok. vm_compute. reflexivity. Qed.

Lemma start_wf : StoreWf (the_store timelock_start).
Proof. exact (store_reach_wf _ _ _ timelock_store_reach). Qed.

(** The store with the wallet as its authority. *)
Lemma config_wf : StoreWf (the_store config_at).
Proof.
  assert (the_store config_at = store_step hash_example 9 10 admin_wallet AcceptStoreAuthority
    timelock_store_example)
    as -> by (vm_compute; reflexivity).
  apply (store_reach_wf hash_example 9). apply StoreReachStep; [exact timelock_store_reach|exact I].
Qed.

Definition timelock_history : list Entry :=
  [mkEntry buffer_at 10 1000 6 (ApproveInstruction ADMIN 77);
   mkEntry config_at 10 300 5 buffer_example;
   mkEntry executor_at 10 200 5 (InitializeConfig 3600);
   mkEntry timelock_start 10 100 5 (InitializeExecutor 9 ADMIN)].

#[local] Notation reach_example :=
  (TimelockReach hash_example 9 executor_address_example (fun _ _ => 255) wallet_address_example (fun
    _ => 254)
    (fun key _ => Some (wallet_address_example key)) (fun store => store + 2 ^ 71) (fun _ => 253) (fun
      size => size)
    invoke_example).

Lemma history_reached : reach_example timelock_history approve_at.
Proof.
  assert (He : the_store executor_at = the_store timelock_start) by (vm_compute; reflexivity).
  assert (Hb : the_store buffer_at = the_store config_at) by (vm_compute; reflexivity).
  assert (Ha : the_store approve_at = the_store config_at) by (vm_compute; reflexivity).
  apply TimelockRun; [|exact I|exact approve_runs|rewrite Ha; exact config_wf].
  apply TimelockRun; [|exact I|exact buffer_runs|rewrite Hb; exact config_wf].
  apply TimelockRun; [|exact I|exact config_runs|exact config_wf].
  apply TimelockRun; [|exact I|exact executor_runs|rewrite He; exact start_wf].
  apply TimelockStart; [reflexivity|reflexivity|reflexivity|exact start_wf].
Qed.

(** An hour after the approval, the instruction is executed, and not a second earlier. *)
Lemma timelock_respected_witness :
  is_ok (snd (run_example 10 4599 5 (ExecuteInstruction admin_executor admin_wallet 5 77) approve_at))
    = false
  /\ buffers execute_at = delete 77 (buffers approve_at)
  /\ exists role, May hash_example 10 (the_store approve_at) 5 TIMELOCK_KEEPER
       /\ exists ap, ap ∈ timelock_history /\ approves (en_ix ap) 77 role.
Proof.
  split; [vm_compute; reflexivity|].
  destruct (timelock_respected hash_example 9 executor_address_example (fun _ _ => 255)
    wallet_address_example
    (fun _ => 254) (fun key _ => Some (wallet_address_example key)) (fun store => store + 2 ^ 71) (fun
      _ => 253)
    (fun size => size) invoke_example timelock_history approve_at 10 4600 5 admin_executor
      admin_wallet 5 77 execute_at
    history_reached execute_runs)
    as (c & e & role & ix & o & _ & _ & _ & _ & Hmay & (l1 & ap & l2 & cr & l3 & Htr & Happ & _) & _ &
      _ & Hb).
  split; [exact Hb|]. exists role. split; [exact Hmay|]. exists ap. split; [|exact Happ].
  rewrite Htr. apply elem_of_app. right. left.
Defined.

(** The instruction above has no accounts. *)
Lemma buffered_without_accounts_witness :
  0 = 0 /\ is_ok (snd (run_example 10 300 5
    (CreateInstructionBuffer admin_executor 78 42 1 2 [1; 2] [] [(8, true)]) config_at)) = false.
Proof.
  split; [|vm_compute; reflexivity].
  pose proof buffer_runs as Hrun. unfold run_example, buffer_example in Hrun. cbn [run_timelock] in Hrun.
  exact (buffered_without_accounts hash_example 9 (fun key _ => Some (wallet_address_example key)) (fun size => size)
    10 5 admin_executor 77 42 0 2 [1; 2] [] [] config_at buffer_at (Z.le_refl 0) Hrun).
Defined.

(** The administrators of the executor may not take the role of a keeper of the timelock. *)
Lemma timelock_bypass_witness :
  authority (the_store config_at) = admin_wallet /\ next_authority (the_store executor_at) = admin_wallet
  /\ is_ok (snd (run_example 10 300 6 (RevokeRole 5 TIMELOCK_KEEPER) config_at)) = false.
Proof.
  assert (Hother : authority (the_store executor_at) = 1) by (vm_compute; reflexivity).
  enough (authority (the_store config_at) = admin_wallet
          /\ next_authority (the_store executor_at) = admin_wallet) as [H1 H2]
    by (split; [exact H1|split; [exact H2|vm_compute; reflexivity]]).
  assert (Hwf : StoreWf (the_store executor_at)).
  { assert (the_store executor_at = the_store timelock_start) as ->
    by (vm_compute; reflexivity). exact start_wf. }
  pose proof config_runs as Hrun. unfold run_example in Hrun.
  destruct (timelock_bypass hash_example 9 executor_address_example (fun _ _ => 255)
    wallet_address_example
    (fun _ => 254) (fun key _ => Some (wallet_address_example key)) (fun store => store + 2 ^ 71) (fun
      _ => 253)
    (fun size => size) invoke_example 10 200 5 (InitializeConfig 3600) executor_at config_at Hwf Hrun)
    as (_ & _ & _ & key & (e & He & _) & Ha).
  assert (executors executor_at !! key = Some e -> key = admin_executor) as Hkey.
  { intros H. apply elem_of_map_to_list in H.
    assert (map_to_list (executors executor_at)
      = [(admin_executor, default (mkExecutor 0 0 0 []) (executors executor_at !! admin_executor))])
        as Hl
      by (vm_compute; reflexivity).
    rewrite Hl in H. apply list_elem_of_singleton in H. by apply (f_equal fst) in H. }
  rewrite (Hkey He) in Ha. destruct Ha as [[Ha _]|[Ha ->]]; [|by split].
  rewrite Hother in Ha. vm_compute in Ha. discriminate Ha.
Defined.
End Examples.

End Timelock.
