(* ===== verification/Orders.v ===== *)
(** * Orders and positions as accounts ([states/order.rs], [states/position.rs],
    [revertible/revertible_position.rs])

    An order of a user says what to do with a position of a market, or what to swap, and under which
    conditions: a trigger price, an acceptable price, a minimum output, a time from which it is
    valid. A [PositionAccount] is the position of an owner in a market for a side and a collateral
    token; [as_position] is the position of the model crate it stands for, and [with_position] writes it
    back. [TransferOut] collects what the execution of an order has to pay. *)
From stdpp Require Import gmap.
From S2P Require Import Prelude.
From S2P Require Import Kinds.
From S2P Require Import Num.
From S2P Require Import Price.
From S2P Require Import Params.
From S2P Require Import Pool.
From S2P Require Import Market.
From S2P Require Import Position.
From S2P Require Import CollateralProcessor.
From S2P Require Import IncreasePosition.
From S2P Require Import DecreasePosition.
From S2P Require Import Revertible.
From S2P Require Import CoreErrors.
From S2P Require Import Flags.
From S2P Require Import Roles.
From S2P Require Import Decimal.
From S2P Require Import TokenConfig.
From S2P Require Import Oracle.
From S2P Require Import SwapPath.
From S2P Require Import MarketAccount.
From S2P Require Import Actions.
Import OnChain.
#[local] Open Scope Z_scope.

(** ** The kinds *)

Module OrderKind.
Inductive OrderKind : Type :=
| Liquidation | AutoDeleveraging
| MarketSwap | MarketIncrease | MarketDecrease
| LimitSwap | LimitIncrease | LimitDecrease | StopLossDecrease.
End OrderKind.

Module OrderSide.
Inductive OrderSide : Type := Long | Short.
End OrderSide.

Module PositionKind.
Inductive PositionKind : Type := Uninitialized | Long | Short.
End PositionKind.

Module Orders.
Import Actions OrderKind.
#[local] Existing Instance u128.

#[export] Instance OrderKind_eq_dec : EqDecision OrderKind.
Proof. solve_decision. Defined.

Definition order_kinds : list OrderKind :=
  [Liquidation; AutoDeleveraging; MarketSwap; MarketIncrease; MarketDecrease; LimitSwap; LimitIncrease;
   LimitDecrease; StopLossDecrease].

Definition order_kind_u8 (self : OrderKind) : Z :=
  match self with
  | Liquidation => 0 | AutoDeleveraging => 1 | MarketSwap => 2 | MarketIncrease => 3 | MarketDecrease => 4
  | LimitSwap => 5 | LimitIncrease => 6 | LimitDecrease => 7 | StopLossDecrease => 8
  end.
Definition order_kind_try_from (v : Z) : store_result OrderKind :=
  ok_or (if v <? 0 then None else order_kinds !! Z.to_nat v) (Core CoreError.UnknownOrderKind).

Definition is_market (self : OrderKind) : bool :=
  match self with MarketSwap | MarketIncrease | MarketDecrease => true | _ => false end.
Definition is_swap (self : OrderKind) : bool :=
  match self with MarketSwap | LimitSwap => true | _ => false end.
Definition is_increase_position (self : OrderKind) : bool :=
  match self with LimitIncrease | MarketIncrease => true | _ => false end.
Definition is_decrease_position (self : OrderKind) : bool :=
  match self with
  | LimitDecrease | MarketDecrease | Liquidation | AutoDeleveraging | StopLossDecrease => true
  | _ => false
  end.
Definition is_market_decrease (self : OrderKind) : bool :=
  match self with MarketDecrease => true | _ => false end.

Definition order_side_u8 (self : OrderSide.OrderSide) : Z :=
  match self with OrderSide.Long => 0 | OrderSide.Short => 1 end.
Definition order_side_try_from (v : Z) : store_result OrderSide.OrderSide :=
  if v =? 0 then Ok OrderSide.Long else if v =? 1 then Ok OrderSide.Short
  else Err (Core CoreError.UnknownOrderSide).
Definition side_is_long (self : OrderSide.OrderSide) : bool :=
  match self with OrderSide.Long => true | OrderSide.Short => false end.
Definition side_of (is_long : bool) : OrderSide.OrderSide := if is_long then OrderSide.Long else OrderSide.Short.

Definition swap_type_u8 (self : DecreasePositionSwapType) : Z :=
  match self with NoSwap => 0 | PnlTokenToCollateralToken => 1 | CollateralToPnlToken => 2 end.
Definition swap_type_try_from (v : Z) : option DecreasePositionSwapType :=
  if v =? 0 then Some NoSwap else if v =? 1 then Some PnlTokenToCollateralToken
  else if v =? 2 then Some CollateralToPnlToken else None.

(** ** What is to be paid *)

Record TransferOut : Type := mkTransferOut {
  executed_ : Z;
  to_final_output_token : Z;
  to_secondary_output_token : Z;
  to_long_token : Z;
  to_short_token : Z;
  long_token_for_claimable_account_of_user : Z;
  short_token_for_claimable_account_of_user : Z;
  long_token_for_claimable_account_of_holding : Z;
  short_token_for_claimable_account_of_holding : Z;
}.

Definition EXECUTED : Z := 255.
Definition NOT_EXECUTED : Z := 0.

Definition transfer_out_default : TransferOut := mkTransferOut 0 0 0 0 0 0 0 0 0.
Definition new_failed : TransferOut := mkTransferOut NOT_EXECUTED 0 0 0 0 0 0 0 0.

(** The bitwise negation of the byte is compared with [NOT_EXECUTED]. *)
Definition executed (self : TransferOut) : bool := Z.lxor 255 (executed_ self) =? NOT_EXECUTED.

Definition is_user_output_empty (self : TransferOut) : bool :=
  (to_final_output_token self =? 0) && (to_secondary_output_token self =? 0) && (to_long_token self =? 0)
  && (to_short_token self =? 0) && (long_token_for_claimable_account_of_user self =? 0)
  && (short_token_for_claimable_account_of_user self =? 0).

Definition set_executed (executed : bool) (self : TransferOut) : TransferOut :=
  mkTransferOut (if executed then EXECUTED else NOT_EXECUTED) (to_final_output_token self)
    (to_secondary_output_token self) (to_long_token self) (to_short_token self)
    (long_token_for_claimable_account_of_user self) (short_token_for_claimable_account_of_user self)
    (long_token_for_claimable_account_of_holding self) (short_token_for_claimable_account_of_holding self).

Definition token_overflow : StoreError := Core CoreError.TokenAmountOverflow.
Definition add_u64 (a b : Z) : store_result Z := ok_or (@uadd u64 a b) token_overflow.

Definition total_long_token_amount (self : TransferOut) : store_result Z :=
  let! x := add_u64 (to_long_token self) (long_token_for_claimable_account_of_user self) in
  add_u64 x (long_token_for_claimable_account_of_holding self).
Definition total_short_token_amount (self : TransferOut) : store_result Z :=
  let! x := add_u64 (to_short_token self) (short_token_for_claimable_account_of_user self) in
  add_u64 x (short_token_for_claimable_account_of_holding self).

Definition transfer_out (is_secondary : bool) (amount : Z) (self : TransferOut) : store_result TransferOut :=
  let 'mkTransferOut e f s l sh lu su lh sh' := self in
  if amount =? 0 then Ok self
  else if is_secondary then let! s := add_u64 s amount in Ok (mkTransferOut e f s l sh lu su lh sh')
  else let! f := add_u64 f amount in Ok (mkTransferOut e f s l sh lu su lh sh').

Inductive CollateralReceiver : Type := Collateral | ClaimableForHolding | ClaimableForUser.

Definition transfer_out_collateral (is_long : bool) (to : CollateralReceiver) (amount : Z)
    (self : TransferOut) : store_result TransferOut :=
  let 'mkTransferOut e f s l sh lu su lh sh' := self in
  if amount =? 0 then Ok self
  else
    match to, is_long with
    | Collateral, true => let! l := add_u64 l amount in Ok (mkTransferOut e f s l sh lu su lh sh')
    | Collateral, false => let! sh := add_u64 sh amount in Ok (mkTransferOut e f s l sh lu su lh sh')
    | ClaimableForHolding, true => let! lh := add_u64 lh amount in Ok (mkTransferOut e f s l sh lu su lh sh')
    | ClaimableForHolding, false => let! sh' := add_u64 sh' amount in Ok (mkTransferOut e f s l sh lu su lh sh')
    | ClaimableForUser, true => let! lu := add_u64 lu amount in Ok (mkTransferOut e f s l sh lu su lh sh')
    | ClaimableForUser, false => let! su := add_u64 su amount in Ok (mkTransferOut e f s l sh lu su lh sh')
    end.

Definition transfer_out_funding_amounts (long_amount short_amount : Z) (self : TransferOut)
    : store_result TransferOut :=
  let! long_amount := to_token_amount long_amount in
  let! self := transfer_out_collateral true Collateral long_amount self in
  let! short_amount := to_token_amount short_amount in
  transfer_out_collateral false Collateral short_amount self.

Definition process_claimable_collateral_for_decrease (report : DecreasePositionReport) (self : TransferOut)
    : store_result TransferOut :=
  let! _ := require (output_token_amount (report_for_holding report) =? 0)
              CoreError.ClaimableCollateralForHoldingCannotBeInOutputTokens in
  let is_output_token_long := report_is_output_token_long report in
  let is_secondary_token_long := report_is_secondary_output_token_long report in
  let! amount := to_token_amount (secondary_output_token_amount (report_for_holding report)) in
  let! self := transfer_out_collateral is_secondary_token_long ClaimableForHolding amount self in
  let! amount := to_token_amount (output_token_amount (report_for_user report)) in
  let! self := transfer_out_collateral is_output_token_long ClaimableForUser amount self in
  let! amount := to_token_amount (secondary_output_token_amount (report_for_user report)) in
  transfer_out_collateral is_secondary_token_long ClaimableForUser amount self.

(** ** Orders *)

Record OrderTokenAccounts : Type := mkOrderTokenAccounts {
  initial_collateral : TokenAndAccount;
  final_output_token : TokenAndAccount;
  long_token : TokenAndAccount;
  short_token : TokenAndAccount;
}.

(** The kind, the side and the swap type as bytes. *)
Record OrderActionParams : Type := mkOrderActionParams {
  op_kind : Z;
  op_side : Z;
  op_swap_type : Z;
  op_collateral_token : Pubkey;
  op_position : Pubkey;
  initial_collateral_delta_amount : Z;
  size_delta_value : Z;
  min_output : Z;
  trigger_price : Z;
  acceptable_price : Z;
  valid_from_ts : Z;
}.

Definition zeroed_params : OrderActionParams := mkOrderActionParams 0 0 0 0 0 0 0 0 0 0 0.

Record Order : Type := mkOrder {
  order_header : ActionHeader;
  order_market_token : Pubkey;
  order_tokens : OrderTokenAccounts;
  order_swap : SwapActionParams;
  order_params : OrderActionParams;
  gt_reward : Z;
}.

Definition ORDER_MIN_EXECUTION_LAMPORTS : Z := 300000.
Definition DEFAULT_VALID_FROM_TS : Z := 0.

Definition kind (self : OrderActionParams) : store_result OrderKind := order_kind_try_from (op_kind self).
Definition side (self : OrderActionParams) : store_result OrderSide.OrderSide := order_side_try_from (op_side self).
Definition decrease_position_swap_type (self : OrderActionParams) : store_result DecreasePositionSwapType :=
  ok_or (swap_type_try_from (op_swap_type self)) (Core CoreError.UnknownDecreasePositionSwapType).

(** Kinds that wait for their conditions. *)
Definition is_pending_kind (kind : OrderKind) : bool :=
  match kind with LimitSwap | LimitIncrease | LimitDecrease | StopLossDecrease => true | _ => false end.
Definition is_updatable (self : OrderActionParams) : store_result bool :=
  let! k := kind self in Ok (is_pending_kind k).

(** [OrderActionParams::init_swap]. *)
Definition init_swap (k : OrderKind) (collateral_token : Pubkey) (swap_in_amount : Z)
    (min_output valid_from_ts : option Z) (self : OrderActionParams) : store_result OrderActionParams :=
  let with_ min_output valid_from_ts :=
    mkOrderActionParams (order_kind_u8 k) (op_side self) (op_swap_type self) collateral_token (op_position self)
      swap_in_amount (size_delta_value self) min_output (trigger_price self) (acceptable_price self)
      valid_from_ts in
  match k with
  | MarketSwap => Ok (with_ (default 0 min_output) DEFAULT_VALID_FROM_TS)
  | LimitSwap =>
      let! min_output := ok_or min_output (Core CoreError.InvalidMinOutputAmount) in
      let! _ := require (negb (min_output =? 0)) CoreError.Internal in
      Ok (with_ min_output (default DEFAULT_VALID_FROM_TS valid_from_ts))
  | _ => Err (Core CoreError.Internal)
  end.

Definition MAX_U128 : Z := @u_max u128.

(** The trigger price and the time from which an order for a position is valid: kinds that wait need a
    trigger price, the others must not have one. *)
Definition init_trigger (waits executes_now : bool) (trigger_price valid_from_ts : option Z)
    (current_trigger_price : Z) : store_result (Z * Z) :=
  if executes_now then
    let! _ := require (bool_decide (trigger_price = None)) CoreError.InvalidTriggerPrice in
    Ok (current_trigger_price, DEFAULT_VALID_FROM_TS)
  else if waits then
    let! price := ok_or trigger_price (Core CoreError.InvalidTriggerPrice) in
    Ok (price, default DEFAULT_VALID_FROM_TS valid_from_ts)
  else Err (Core CoreError.Internal).

Definition init_increase (is_long : bool) (k : OrderKind) (position collateral_token : Pubkey)
    (initial_collateral_delta_amount size_delta_value : Z) (trigger_price_ acceptable_price min_output
    valid_from_ts : option Z) (self : OrderActionParams) : store_result OrderActionParams :=
  let acceptable_price := default (if is_long then MAX_U128 else 0) acceptable_price in
  let! (trigger, from) :=
    init_trigger (bool_decide (k = LimitIncrease)) (bool_decide (k = MarketIncrease)) trigger_price_
      valid_from_ts (trigger_price self) in
  Ok (mkOrderActionParams (order_kind_u8 k) (order_side_u8 (side_of is_long)) (op_swap_type self)
        collateral_token position initial_collateral_delta_amount size_delta_value (default 0 min_output)
        trigger acceptable_price from).

Definition init_decrease (is_long : bool) (k : OrderKind) (position collateral_token : Pubkey)
    (initial_collateral_delta_amount size_delta_value : Z) (trigger_price_ acceptable_price min_output :
    option Z) (swap_type : DecreasePositionSwapType) (valid_from_ts : option Z) (self : OrderActionParams)
    : store_result OrderActionParams :=
  let acceptable_price := default (if is_long then 0 else MAX_U128) acceptable_price in
  let! (trigger, from) :=
    init_trigger (bool_decide (k = LimitDecrease) || bool_decide (k = StopLossDecrease))
      (bool_decide (k = MarketDecrease) || bool_decide (k = Liquidation) || bool_decide (k = AutoDeleveraging))
      trigger_price_ valid_from_ts (trigger_price self) in
  Ok (mkOrderActionParams (order_kind_u8 k) (order_side_u8 (side_of is_long)) (swap_type_u8 swap_type)
        collateral_token position initial_collateral_delta_amount size_delta_value (default 0 min_output)
        trigger acceptable_price from).

(** *** Validation *)

(** [now] is the time of the clock. *)
Definition validate_valid_from_ts (now : Z) (self : Order) : store_result unit :=
  let! k := kind (order_params self) in
  if is_market k then Ok tt
  else if valid_from_ts (order_params self) <=? now then Ok tt
  else Err (Anchor "RequireGteViolated").

Definition validate_trigger_price (index_price : Price) (self : Order) : store_result unit :=
  let params := order_params self in
  let! k := kind params in
  let! s := side params in
  let is_long := side_is_long s in
  let trigger := trigger_price params in
  let below maximize := require_gte trigger (pick_price index_price maximize) CoreError.InvalidTriggerPrice in
  let above maximize := require_gte (pick_price index_price maximize) trigger CoreError.InvalidTriggerPrice in
  match k with
  | LimitIncrease => if is_long then below true else above false
  | LimitDecrease => if is_long then above false else below true
  | StopLossDecrease => if is_long then below false else above true
  | _ => Ok tt
  end.

Definition validate_output_amount (output_amount : Z) (self : Order) : store_result unit :=
  require_gte output_amount (min_output (order_params self)) CoreError.InsufficientOutputAmount.

(** The value of a token amount at its low price; the multiplication and the addition saturate. *)
Definition saturating_value (oracle : Oracle.Oracle) (token : Pubkey) (amount total : Z) : store_result Z :=
  let! price := snd (get_primary_price token false oracle) in
  Ok (Z.min (total + Z.min (amount * price_min price) MAX_U128) MAX_U128).

Definition validate_decrease_output_amounts (oracle : Oracle.Oracle) (output_token : Pubkey)
    (output_amount : Z) (secondary_output_token : Pubkey) (secondary_output_amount : Z) (self : Order)
    : store_result unit :=
  let! total := saturating_value oracle output_token output_amount 0 in
  let! total := saturating_value oracle secondary_output_token secondary_output_amount total in
  validate_output_amount total self.

(** The token of the pnl. *)
Definition secondary_output_token (self : Order) : store_result Pubkey :=
  let! s := side (order_params self) in
  ok_or (token (if side_is_long s then long_token (order_tokens self) else short_token (order_tokens self)))
    (Core CoreError.MissingPoolTokens).

(** *** Updates *)

Record UpdateOrderParams : Type := mkUpdateOrderParams {
  up_size_delta_value : option Z;
  up_acceptable_price : option Z;
  up_trigger_price : option Z;
  up_min_output : option Z;
  up_valid_from_ts : option Z;
}.

Definition update_is_empty (self : UpdateOrderParams) : bool :=
  bool_decide (up_size_delta_value self = None) && bool_decide (up_acceptable_price self = None)
  && bool_decide (up_trigger_price self = None) && bool_decide (up_min_output self = None)
  && bool_decide (up_valid_from_ts self = None).

Definition set_header_id (id : Z) (self : ActionHeader) : ActionHeader :=
  mkHeader (header_version self) (header_action_state self) (header_bump self) (header_flags self)
    id (header_store self) (header_market self) (header_owner self) (header_nonce self)
    (max_execution_lamports self) (updated_at self) (updated_at_slot self) (header_creator self)
    (header_rent_receiver self) (header_receiver self).

(** [Order::update]; [now] and [slot] are those of the clock. *)
Definition update_order (now slot id : Z) (params : UpdateOrderParams) (self : Order) : store_result Order :=
  let current := order_params self in
  let! updatable := is_updatable current in
  let! _ := require updatable CoreError.InvalidArgument in
  let! _ := require (negb (update_is_empty params)) CoreError.InvalidArgument in
  let! k := kind current in
  let! _ := match up_min_output params with
            | Some min_output =>
                if bool_decide (k = LimitSwap) then
                  require (negb (min_output =? 0)) CoreError.InvalidArgument
                else Ok tt
            | None => Ok tt
            end in
  Ok (mkOrder (header_updated now slot (set_header_id id (order_header self))) (order_market_token self)
        (order_tokens self) (order_swap self)
        (mkOrderActionParams (op_kind current) (op_side current) (op_swap_type current)
           (op_collateral_token current) (op_position current) (initial_collateral_delta_amount current)
           (default (size_delta_value current) (up_size_delta_value params))
           (default (min_output current) (up_min_output params))
           (default (trigger_price current) (up_trigger_price params))
           (default (acceptable_price current) (up_acceptable_price params))
           (default (valid_from_ts current) (up_valid_from_ts params)))
        (gt_reward self)).

Definition with_order_header (h : ActionHeader) (self : Order) : Order :=
  mkOrder h (order_market_token self) (order_tokens self) (order_swap self) (order_params self) (gt_reward self).
Definition with_gt_reward (reward : Z) (self : Order) : Order :=
  mkOrder (order_header self) (order_market_token self) (order_tokens self) (order_swap self)
    (order_params self) reward.

(** ** Positions *)

Record PositionState : Type := mkPositionState {
  trade_id : Z;
  increased_at : Z;
  state_updated_at_slot : Z;
  decreased_at : Z;
  state_size_in_tokens : Z;
  state_collateral_amount : Z;
  state_size_in_usd : Z;
  state_borrowing_factor : Z;
  state_funding_fee_amount_per_size : Z;
  long_token_claimable_funding_amount_per_size : Z;
  short_token_claimable_funding_amount_per_size : Z;
}.

Definition zeroed_position_state : PositionState := mkPositionState 0 0 0 0 0 0 0 0 0 0 0.

(** [Position] of the store program; the kind is a byte. *)
Record PositionAccount : Type := mkPositionAccount {
  position_bump : Z;
  position_store : Pubkey;
  position_kind : Z;
  position_owner : Pubkey;
  position_market_token : Pubkey;
  position_collateral_token : Pubkey;
  position_state : PositionState;
}.

Definition zeroed_position : PositionAccount := mkPositionAccount 0 0 0 0 0 0 zeroed_position_state.

Definition position_kind_u8 (self : PositionKind.PositionKind) : Z :=
  match self with PositionKind.Uninitialized => 0 | PositionKind.Long => 1 | PositionKind.Short => 2 end.

Definition kind_unchecked (self : PositionAccount) : store_result PositionKind.PositionKind :=
  let k := position_kind self in
  if k =? 0 then Ok PositionKind.Uninitialized else if k =? 1 then Ok PositionKind.Long
  else if k =? 2 then Ok PositionKind.Short else Err (Core CoreError.InvalidPositionKind).

(** [Position::kind]: the kind of an initialized position. *)
Definition initialized_kind (self : PositionAccount) : store_result PositionKind.PositionKind :=
  let! k := kind_unchecked self in
  match k with PositionKind.Uninitialized => Err (Core CoreError.InvalidPosition) | k => Ok k end.

Definition try_is_long (self : PositionAccount) : store_result bool :=
  let! k := initialized_kind self in
  Ok (match k with PositionKind.Long => true | _ => false end).

(** [Position::try_init]. *)
Definition position_try_init (kind : PositionKind.PositionKind) (bump : Z) (store owner market_token
    collateral_token : Pubkey) (self : PositionAccount) : store_result PositionAccount :=
  let! k := kind_unchecked self in
  match k, kind with
  | PositionKind.Uninitialized, (PositionKind.Long | PositionKind.Short) =>
      Ok (mkPositionAccount bump store (position_kind_u8 kind) owner market_token collateral_token
            (position_state self))
  | _, _ => Err (Core CoreError.InvalidPosition)
  end.

Section Markets.
Context {B : Type} {BO : BitmapOps StoredMarket.MAX_FLAGS B}.

(** [Position::validate_for_market], with an error of the model crate. *)
Definition validate_for_market (market : StoredMarket.Market) (self : PositionAccount) : result unit :=
  let! meta := map_err (StoredMarket.validated_meta market (position_store self))
                 (InvalidPosition "invalid or disabled market") in
  let! _ := (if market_token_mint meta =? position_market_token self then Ok tt
             else Err (InvalidPosition "position's market token does not match the market's")) in
  if StoredMarket.is_collateral_token meta (position_collateral_token self) then Ok tt
  else Err (InvalidPosition "invalid collateral token for market").
End Markets.

(** *** The position of the model *)

(** [RevertiblePosition]: the two sides, read when it is opened, and the state. *)
Definition as_position (is_long is_collateral_token_long is_pure : bool) (self : PositionState) : Position :=
  mkPosition is_long is_collateral_token_long (eqb is_long is_collateral_token_long || is_pure)
    (state_collateral_amount self) (state_size_in_usd self) (state_size_in_tokens self)
    (state_borrowing_factor self) (state_funding_fee_amount_per_size self)
    (long_token_claimable_funding_amount_per_size self) (short_token_claimable_funding_amount_per_size self).

Definition with_position (p : Position) (self : PositionState) : PositionState :=
  mkPositionState (trade_id self) (increased_at self) (state_updated_at_slot self) (decreased_at self)
    (size_in_tokens p) (collateral_amount p) (size_in_usd p) (position_borrowing_factor p)
    (position_funding_fee_amount_per_size p) (position_claimable_long p) (position_claimable_short p).

(** [PositionStateExt::is_empty] of the state of the account. *)
Definition position_state_is_empty (self : PositionState) : bool :=
  is_empty (as_position true true true self).

(** The hooks [on_increased] and [on_decreased] with the trade id that the market gave. *)
Definition set_increased (now slot id : Z) (self : PositionState) : PositionState :=
  mkPositionState id now slot (decreased_at self) (state_size_in_tokens self) (state_collateral_amount self)
    (state_size_in_usd self) (state_borrowing_factor self) (state_funding_fee_amount_per_size self)
    (long_token_claimable_funding_amount_per_size self) (short_token_claimable_funding_amount_per_size self).
Definition set_decreased (now slot id : Z) (self : PositionState) : PositionState :=
  mkPositionState id (increased_at self) slot now (state_size_in_tokens self) (state_collateral_amount self)
    (state_size_in_usd self) (state_borrowing_factor self) (state_funding_fee_amount_per_size self)
    (long_token_claimable_funding_amount_per_size self) (short_token_claimable_funding_amount_per_size self).

Definition with_position_state (s : PositionState) (self : PositionAccount) : PositionAccount :=
  mkPositionAccount (position_bump self) (position_store self) (position_kind self) (position_owner self)
    (position_market_token self) (position_collateral_token self) s.

End Orders.
