(* ===== verification/OrderOps.v ===== *)
(** * Execution of orders ([ops/order.rs], [events/trade/data.rs])

    The execution of an order opens its market and the markets of its swap path as revertible markets
    ([MarketOps]), updates the market, and then swaps, increases or decreases the position. All of it
    happens on copies: [Run] is the state of an execution, and only at the end [perform_execution]
    writes the markets, the position, the order and the GT back. So an execution that fails
    leaves the accounts as they were; whether its error is the error of the instruction, or only
    cancels the order, is what [run_throw] and the flag of the instruction decide ([execute_order]).

    What has to be paid is collected in a [TransferOut], which [process_transfer_out] pays out of the
    vaults. [OrderWorld] is what the accounts of an order are: the world of the markets, the lamports,
    the order, its position and the user.

    The trade event is only its checks here ([validate_trade]): its data are copied from the
    position, the reports and the order. *)
From stdpp Require Import gmap.
From S2P Require Import Prelude.
From S2P Require Import Kinds.
From S2P Require Import Num.
From S2P Require Import Fixed.
From S2P Require Import Price.
From S2P Require Import Params.
From S2P Require Import Pool.
From S2P Require Import Market.
From S2P Require Import MarketFacts.
From S2P Require Import Position.
From S2P Require Import Ledger.
From S2P Require Import CollateralProcessor.
From S2P Require Import IncreasePosition.
From S2P Require Import DecreasePosition.
From S2P Require Import Revertible.
From S2P Require Import CoreErrors.
From S2P Require Import MapSum.
From S2P Require Import Flags.
From S2P Require Import Config.
From S2P Require Import Roles.
From S2P Require Import TokenConfig.
From S2P Require Import Oracle.
From S2P Require Import Users.
From S2P Require Import Gt.
From S2P Require Import StoreState.
From S2P Require Import SwapPath.
From S2P Require Import Tokens.
From S2P Require Import MarketAccount.
From S2P Require Import MarketOps.
From S2P Require Import Actions.
From S2P Require Import Orders.
Import OnChain.
#[local] Open Scope Z_scope.

Module OrderOps.
Import MarketOps Actions Orders OrderKind.
#[local] Existing Instance u128.

(** ** The accounts of an order *)

Record OrderWorld (T : Type) : Type := mkOrderWorld {
  ow_world : StoredMarket.World T;
  ow_lamports : Lamports;
  ow_order : Order;
  ow_position : option PositionAccount;
  ow_user : UserHeader;
}.
Arguments mkOrderWorld {T}.
Arguments ow_world {T}.
Arguments ow_lamports {T}.
Arguments ow_order {T}.
Arguments ow_position {T}.
Arguments ow_user {T}.

(** The addresses; the event buffer is given as the store that it belongs to. *)
Record ExecuteOrderAccounts : Type := mkExecuteOrderAccounts {
  xo_executor : Pubkey;
  xo_market : Pubkey;
  xo_order : Pubkey;
  xo_owner : Pubkey;
  xo_position : Pubkey;
  xo_event_store : option Pubkey;
  xo_remaining_accounts : list Pubkey;
  xo_throw_on_execution_error : bool;
  xo_refund : Z;
}.

Inductive SecondaryOrderType : Type := SecondaryLiquidation | SecondaryAutoDeleveraging.

(** [TradeData::validate]: the id of the trade grows, the sizes change in the direction of the order,
    and the factors never go back. *)
Definition validate_trade (is_increase : bool) (before after : PositionState) : store_result unit :=
  let gte f e := require_gte (f after) (f before) e in
  let! _ := require (trade_id before <? trade_id after) CoreError.InvalidTradeID in
  let! _ :=
    (if is_increase then
       let! _ := gte state_size_in_usd CoreError.InvalidTradeDeltaSize in
       gte state_size_in_tokens CoreError.InvalidTradeDeltaTokens
     else
       let! _ := require_gte (state_size_in_usd before) (state_size_in_usd after)
                   CoreError.InvalidTradeDeltaSize in
       require_gte (state_size_in_tokens before) (state_size_in_tokens after)
         CoreError.InvalidTradeDeltaTokens) in
  let! _ := gte state_borrowing_factor CoreError.InvalidBorrowingFactor in
  let! _ := gte state_funding_fee_amount_per_size CoreError.InvalidFundingFactors in
  let! _ := gte long_token_claimable_funding_amount_per_size CoreError.InvalidFundingFactors in
  gte short_token_claimable_funding_amount_per_size CoreError.InvalidFundingFactors.

(** ** Validation of an order *)

Definition is_empty_order (k : OrderKind) (params : OrderActionParams) : bool :=
  (size_delta_value params =? 0) && (initial_collateral_delta_amount params =? 0).

(** An empty market decrease is allowed: it claims funding rebates. *)
Definition validate_non_empty_order (order : Order) : store_result unit :=
  let params := order_params order in
  let! k := kind params in
  if is_increase_position k || is_decrease_position k then
    require (negb (is_empty_order k params) || is_market_decrease k) CoreError.EmptyOrder
  else if is_swap k then
    require (negb (initial_collateral_delta_amount params =? 0)) CoreError.EmptyOrder
  else Panic "internal error: entered unreachable code".

(** Whether a check that fails makes the execution throw: for kinds that wait for their conditions. *)
Definition throws (order : Order) (check : store_result unit) : bool :=
  match check, kind (order_params order) with
  | Err _, Ok k => negb (is_market k)
  | _, _ => false
  end.

(** [validate_order], with [should_throw_error]. *)
Definition validate_order (prices : Prices) (order : Order) : bool * store_result unit :=
  match validate_non_empty_order order with
  | Ok _ =>
      let check := validate_trigger_price (index_token_price prices) order in
      (throws order check, check)
  | r => (false, r)
  end.

(** ** The state of an execution *)

Record Run : Type := mkRun {
  run_throw : bool;
  run_markets : SwapMarkets LiquiditySupply;
  run_state : PositionState;
  run_transfer : TransferOut;
}.

Definition RunM (A : Type) : Type := ST Run StoreError A.

Definition put_run_throw (b : bool) (r : Run) : Run :=
  mkRun b (run_markets r) (run_state r) (run_transfer r).
Definition put_run_markets (s : SwapMarkets LiquiditySupply) (r : Run) : Run :=
  mkRun (run_throw r) s (run_state r) (run_transfer r).
Definition put_run_state (s : PositionState) (r : Run) : Run :=
  mkRun (run_throw r) (run_markets r) s (run_transfer r).
Definition put_run_transfer (t : TransferOut) (r : Run) : Run :=
  mkRun (run_throw r) (run_markets r) (run_state r) t.

Definition on_markets {A} (m : EM A) : RunM A := szoom run_markets put_run_markets m.
Definition on_transfer (f : TransferOut -> store_result TransferOut) : RunM unit :=
  szoom run_transfer put_run_transfer (supdate f).

(** A check that makes the execution throw when it fails. *)
Definition checked (order : Order) (check : store_result unit) : RunM unit :=
  do! _ := smodify (fun r => put_run_throw (run_throw r || throws order check) r) in
  slift check.

Section Run.
Context {F : FixedPointOps u128}.
Context {B : Type} `{BitmapLaws TokenConfig.MAX_FLAGS B}.
(** The time and the slot of the clock, the oracle and the order. *)
Context (now slot : Z) (oracle : Oracle.Oracle) (order : Order).

Definition run_meta : RunM MarketMeta := on_markets current_meta.

(** The position in its market. *)
Definition run_position (is_long is_collateral_token_long : bool) (r : Run) : PState Pool LiquiditySupply :=
  let mk := current_market (run_markets r) in
  mkPState (sm_market mk)
    (as_position is_long is_collateral_token_long (sm_is_pure mk) (run_state r)).

Definition put_run_position (s : PState Pool LiquiditySupply) (r : Run) : Run :=
  let ms := run_markets r in
  put_run_state (with_position (ps_position s) (run_state r))
    (put_run_markets (mkSwapMarkets (markets ms) (with_model (ps_market s) (current_market ms))) r).

(** What the model does with a revertible position. *)
Definition on_run_position {A} (is_long is_collateral_token_long : bool)
    (m : Position.PM Pool LiquiditySupply A) : RunM A := fun r =>
  let (s, res) := m (run_position is_long is_collateral_token_long r) in
  (put_run_position s r, model_result res).

(** [on_increased] and [on_decreased], with the next trade id of the market. *)
Definition on_trade (set : Z -> Z -> Z -> PositionState -> PositionState) : RunM unit :=
  do! id := on_markets (on_current (on_plain (fun p => plain_trade_id (plain_trade_count p) p))) in
  smodify (fun r => put_run_state (set now slot id (run_state r)) r).

Definition order_token (t : OrderTokenAccounts -> TokenAndAccount) (e : CoreError.CoreError) : RunM Pubkey :=
  slift (ok_or (token (t (order_tokens order))) (Core e)).

Definition execute_swap : RunM unit :=
  let amount := initial_collateral_delta_amount (order_params order) in
  do! swap_out_token := order_token final_output_token CoreError.MissingFinalOutputToken in
  do! token_in := order_token initial_collateral CoreError.MissingInitialCollateralToken in
  do! out := on_markets (revertible_swap Into oracle (order_swap order)
               (swap_out_token, swap_out_token) (Some token_in, None) (amount, 0)) in
  do! _ := checked order (validate_output_amount (fst out) order) in
  on_transfer (transfer_out false (fst out)).

(** The amounts that are about to leave the market must be covered. *)
Definition validate_current (long_amount short_amount : Z) : RunM unit :=
  on_markets (on_current (sm_validate long_amount short_amount)).

(** [execute_increase_position]; it returns the order fee that was paid. *)
Definition execute_increase_position (is_long is_collateral_token_long : bool) (collateral_token : Pubkey)
    (prices : Prices) : RunM Z :=
  let params := order_params order in
  do! token_in := order_token initial_collateral CoreError.MissingInitialCollateralToken in
  do! out := on_markets (revertible_swap Into oracle (order_swap order)
               (collateral_token, collateral_token) (Some token_in, None)
               (initial_collateral_delta_amount params, 0)) in
  do! _ := slift (validate_output_amount (fst out) order) in
  do! action := slift (model_result (increase_position_try_new prices (fst out)
                 (size_delta_value params) (Some (acceptable_price params)))) in
  do! report := on_run_position is_long is_collateral_token_long (execute_increase action) in
  do! _ := on_trade set_increased in
  let long_amount := increase_report_claimable_funding_long_token_amount report in
  let short_amount := increase_report_claimable_funding_short_token_amount report in
  do! _ := on_transfer (transfer_out_funding_amounts long_amount short_amount) in
  do! long_amount := slift (to_token_amount long_amount) in
  do! short_amount := slift (to_token_amount short_amount) in
  do! _ := validate_current long_amount short_amount in
  sret (paid_order_fee_value (increase_report_fees report)).

(** *** Decreasing *)

(** Auto-deleveraging: the pnl factor before, when it is required. *)
Definition adl_required (prices : Prices) : RunM Z :=
  do! s := slift (side (order_params order)) in
  do! exceeded := sread (fun r =>
    model_result (pnl_factor_exceeded (sm_market (current_market (run_markets r))) prices ForAdl
                    (side_is_long s))) in
  slift (ok_or (exceeded_pnl_factor <$> exceeded) (Core CoreError.AdlNotRequired)).

(** It must lower the factor, but not below the minimum. *)
Definition adl_valid (prices : Prices) (before : Z) : RunM unit :=
  do! s := slift (side (order_params order)) in
  let is_long := side_is_long s in
  do! after := sread (fun r =>
    model_result (pnl_factor (sm_market (current_market (run_markets r))) prices is_long true)) in
  do! _ := slift (require (after <? before) CoreError.InvalidAdl) in
  do! min_pnl_factor := sread (fun r =>
    model_result (to_signed (pnl_factor_config
      (m_config (sm_market (current_market (run_markets r)))) MinAfterAdl is_long))) in
  slift (require_gte after min_pnl_factor CoreError.InvalidAdl).

(** The decrease itself, with the checks of the two special kinds. The hook [on_decreased] is run
    after the final swap of the output here, which does not read what it writes. *)
Definition decrease_with_checks (is_long is_collateral_token_long : bool) (prices : Prices)
    (is_insolvent_close_allowed_ : bool) (secondary_order_type : option SecondaryOrderType)
    : RunM DecreasePositionReport :=
  let params := order_params order in
  do! swap_type := slift (decrease_position_swap_type params) in
  let is_liquidation_order_ :=
    match secondary_order_type with Some SecondaryLiquidation => true | _ => false end in
  let is_adl_order :=
    match secondary_order_type with Some SecondaryAutoDeleveraging => true | _ => false end in
  do! k := slift (kind params) in
  let is_cap_size_delta_usd_allowed_ :=
    match k with LimitDecrease | StopLossDecrease => true | _ => false end in
  do! _ := (if is_liquidation_order_ then
              sread (fun r => require_gte (size_delta_value params) (state_size_in_usd (run_state r))
                                CoreError.InvalidArgument)
            else sret tt) in
  do! before := (if is_adl_order then do! x := adl_required prices in sret (Some x) else sret None) in
  do! action := sread (fun r => model_result (decrease_position_try_new
    (ps_position (run_position is_long is_collateral_token_long r)) prices (size_delta_value params)
    (Some (acceptable_price params)) (initial_collateral_delta_amount params)
    (mkDecreasePositionFlags is_insolvent_close_allowed_ is_liquidation_order_
       is_cap_size_delta_usd_allowed_))) in
  do! report := on_run_position is_long is_collateral_token_long
                  (execute_decrease (set_swap action swap_type)) in
  do! _ := on_trade set_decreased in
  do! _ := match before with Some before => adl_valid prices before | None => sret tt end in
  sret report.

(** The swap of the outputs into the tokens that the order asks for. *)
Definition swap_outputs (report : DecreasePositionReport) : RunM unit :=
  do! _ := slift (require ((report_secondary_output_amount report =? 0)
                  || negb (Bool.eqb (report_is_output_token_long report)
                                    (report_is_secondary_output_token_long report)))
                    CoreError.SameOutputTokensNotMerged) in
  do! output_amount := slift (to_token_amount (report_output_amount report)) in
  do! secondary_output_amount := slift (to_token_amount (report_secondary_output_amount report)) in
  do! meta := run_meta in
  let token_ins :=
    if report_is_output_token_long report then (Some (long_token_mint meta), Some (short_token_mint meta))
    else (Some (short_token_mint meta), Some (long_token_mint meta)) in
  do! final_output := order_token final_output_token CoreError.MissingFinalOutputToken in
  do! secondary_output := slift (secondary_output_token order) in
  do! out := on_markets (revertible_swap From oracle (order_swap order)
               (final_output, secondary_output) token_ins (output_amount, secondary_output_amount)) in
  do! _ := slift (validate_decrease_output_amounts oracle final_output (fst out) secondary_output (snd out)
                    order) in
  do! _ := on_transfer (transfer_out false (fst out)) in
  on_transfer (transfer_out true (snd out)).

(** [add_to_amount] when the output leaves from the current market. *)
Definition add_to_amount (leaves : bool) (is_long_token : store_result bool) (amount : Z) (totals : Z * Z)
    : store_result (Z * Z) :=
  if negb (amount =? 0) && leaves then
    let! side := is_long_token in
    if side then let! l := add_u64 (fst totals) amount in Ok (l, snd totals)
    else let! s := add_u64 (snd totals) amount in Ok (fst totals, s)
  else Ok totals.

(** The last market of a swap path is the current one. *)
Definition ends_in_current (path : store_result (list Pubkey)) (current : Pubkey) : store_result bool :=
  let! path := path in Ok (default current (last path) =? current).

(** What leaves the current market, by token. *)
Definition leaving_amounts (meta : MarketMeta) (t : TransferOut) : store_result (Z * Z) :=
  let! long_transfer_out := total_long_token_amount t in
  let! short_transfer_out := total_short_token_amount t in
  let! primary := ends_in_current (primary_swap_path (order_swap order)) (market_token_mint meta) in
  let! secondary := ends_in_current (secondary_swap_path (order_swap order)) (market_token_mint meta) in
  let! totals := add_to_amount primary
    (let! tok := ok_or (token (final_output_token (order_tokens order)))
                   (Core CoreError.MissingFinalOutputToken) in
     model_result (to_token_side meta tok))
    (to_final_output_token t) (long_transfer_out, short_transfer_out) in
  add_to_amount secondary
    (let! s := side (order_params order) in Ok (side_is_long s)) (to_secondary_output_token t) totals.

(** [execute_decrease_position]; whether the position is to be removed, and the order fee. *)
Definition execute_decrease_position (is_long is_collateral_token_long : bool) (prices : Prices)
    (is_insolvent_close_allowed_ : bool) (secondary_order_type : option SecondaryOrderType)
    : RunM (bool * Z) :=
  do! report := decrease_with_checks is_long is_collateral_token_long prices is_insolvent_close_allowed_
                  secondary_order_type in
  do! _ := swap_outputs report in
  do! _ := on_transfer (transfer_out_funding_amounts
             (report_claimable_funding_long_token_amount report)
             (report_claimable_funding_short_token_amount report)) in
  do! _ := on_transfer (process_claimable_collateral_for_decrease report) in
  do! meta := run_meta in
  do! amounts := sread (fun r => leaving_amounts meta (run_transfer r)) in
  do! _ := validate_current (fst amounts) (snd amounts) in
  sret (should_remove report, paid_order_fee_value (report_fees report)).

(** *** An order for a position *)

(** Whether an insolvent close is allowed, and the special kinds. *)
Definition decrease_kind (k : OrderKind) : bool * option SecondaryOrderType :=
  match k with
  | Liquidation => (true, Some SecondaryLiquidation)
  | AutoDeleveraging => (true, Some SecondaryAutoDeleveraging)
  | _ => (false, None)
  end.

Definition execute_position (k : OrderKind) (is_long is_collateral_token_long : bool)
    (collateral_token : Pubkey) (prices : Prices) : RunM (bool * Z) :=
  if is_increase_position k then
    do! paid := execute_increase_position is_long is_collateral_token_long collateral_token prices in
    sret (false, paid)
  else
    let (insolvent, ty) := decrease_kind k in
    execute_decrease_position is_long is_collateral_token_long prices insolvent ty.

(** The position and the event buffer, and what is read of the position before the run:
    [TradeData::init] and [RevertiblePosition::new]; then the position, and the check of the event. *)
Definition run_position_order {B' : Type} {BO : BitmapOps StoredMarket.MAX_FLAGS B'} (k : OrderKind)
    (market : StoredMarket.Market) (position : option PositionAccount)
    (event_store : option Pubkey) (prices : Prices) : RunM (bool * Z) :=
  do! position := slift (ok_or position (Core CoreError.PositionIsRequired)) in
  do! event_store := slift (ok_or event_store (Core CoreError.EventBufferNotProvided)) in
  do! meta := run_meta in
  do! is_collateral_long := slift (model_result (to_token_side meta (position_collateral_token position))) in
  do! is_long := slift (try_is_long position) in
  do! _ := slift (require (event_store =? position_store position) CoreError.PermissionDenied) in
  do! _ := slift (require (position_market_token position =? market_token_mint meta)
                    CoreError.MarketTokenMintMismatched) in
  do! _ := slift (model_result (validate_for_market (BO := BO) market position)) in
  do! _ := smodify (put_run_state (position_state position)) in
  do! res := execute_position k is_long is_collateral_long (position_collateral_token position) prices in
  do! _ := sread (fun r => validate_trade (is_increase_position k) (position_state position) (run_state r)) in
  sret res.

(** What happens between opening and committing the markets; [None] is the result of a swap, which
    has no position. *)
Definition run_order {B' : Type} {BO : BitmapOps StoredMarket.MAX_FLAGS B'}
    (market : StoredMarket.Market) (position : option PositionAccount)
    (event_store : option Pubkey) (prices : Prices) : RunM (option (bool * Z)) :=
  do! _ := on_markets (on_current (pre_execute prices)) in
  do! k := slift (kind (order_params order)) in
  if is_swap k then do! _ := execute_swap in sret None
  else do! res := run_position_order (BO := BO) k market position event_store prices in sret (Some res).
End Run.

(** ** The execution with its accounts *)
Section Accounts.
Context {F : FixedPointOps u128}.
Context {B : Type} `{BitmapLaws TokenConfig.MAX_FLAGS B}.
Context {M : Type} {MO : BitmapOps StoredMarket.MAX_FLAGS M}.
Context {C : Type} {CO : BitmapOps StoreConfig.MAX_CONFIG_FLAGS C}.
Context {T : Type} {TP : TokenProgram T}.
(** The address of the store, the vault of a mint; the time and the slot of the clock. *)
Context (this : Pubkey) (vault_address : Pubkey -> Pubkey) (now slot : Z) (oracle : Oracle.Oracle).
Implicit Types (x : OrderWorld T) (a : ExecuteOrderAccounts).

Definition OM (A : Type) : Type := ST (OrderWorld T) StoreError A.

Definition put_ow_world (w : StoredMarket.World T) x : OrderWorld T :=
  mkOrderWorld w (ow_lamports x) (ow_order x) (ow_position x) (ow_user x).
Definition put_ow_lamports (l : Lamports) x : OrderWorld T :=
  mkOrderWorld (ow_world x) l (ow_order x) (ow_position x) (ow_user x).
Definition put_ow_order (o : Order) x : OrderWorld T :=
  mkOrderWorld (ow_world x) (ow_lamports x) o (ow_position x) (ow_user x).
Definition put_ow_position (p : option PositionAccount) x : OrderWorld T :=
  mkOrderWorld (ow_world x) (ow_lamports x) (ow_order x) p (ow_user x).
Definition put_ow_user (u : UserHeader) x : OrderWorld T :=
  mkOrderWorld (ow_world x) (ow_lamports x) (ow_order x) (ow_position x) u.

Definition on_ow_world {A} (m : StoredMarket.WS (T := T) A) : OM A := szoom ow_world put_ow_world m.
Definition on_ow_lamports {A} (m : ST Lamports StoreError A) : OM A := szoom ow_lamports put_ow_lamports m.

Definition find_market_account (key : Pubkey) (w : StoredMarket.World T) : store_result StoredMarket.Market :=
  ok_or (StoredMarket.world_markets w !! key) (Anchor "AccountNotInitialized").

(** The market of the order with its discount, and the markets of the swap path. The supply is not
    used. *)
Definition open_order_market (discount : Z) (m : StoredMarket.Market) : store_result (SwapMarket LiquiditySupply) :=
  let! rm := model_result (revertible_market_new (StoredMarket.as_account (BO := MO) m)) in
  Ok (mkSwapMarket (StoredMarket.meta m) (StoredMarket.is_pure (BO := MO) m)
        (shown (mkLiquiditySupply 0 0 0) now (with_order_fee_discount_factor rm discount))).

Definition open_order (discount : Z) (order : Order) (m : StoredMarket.Market) (remaining_accounts : list Pubkey)
    (w : StoredMarket.World T) : store_result (SwapMarkets LiquiditySupply) :=
  let key := market_token_mint (StoredMarket.meta m) in
  let! market := open_order_market discount m in
  let! loaders := unpack_markets_for_swap (BO := MO) now (order_swap order) key remaining_accounts w in
  let! swap_markets := swap_markets_new this (Some key) loaders ∅ in
  Ok (mkSwapMarkets swap_markets market).

(** GT for the order fee that was paid. *)
Definition mint_order_gt (enabled : bool) (paid_fee_value : Z) (s : Store) (user : UserHeader) (order : Order)
    : store_result (Store * UserHeader * Order) :=
  if enabled then
    let! (minted, amount) := Gt.unchecked_process_gt now (store_gt s) user paid_fee_value in
    let (state, user) := minted in
    Ok (with_gt state s, user, if paid_fee_value =? 0 then order else with_gt_reward amount order)
  else Ok (s, user, order).

(** The outcome of an execution: whether the position is to be removed, what is to be paid, and
    whether the trade event is to be sent. *)
Definition Outcome : Type := bool * TransferOut * bool.

(** Writing everything back. *)
Definition commit_order (gt_minting_enabled : bool) (r : Run) (res : option (bool * Z)) x
    : store_result (OrderWorld T * Outcome) :=
  let w := ow_world x in
  let w' := StoredMarket.put_markets
              (commit_markets (all_markets (run_markets r)) (StoredMarket.world_markets w)) w in
  match res with
  | None => Ok (put_ow_world w' x, (false, run_transfer r, false))
  | Some (remove, paid) =>
      let! (su, order) := mint_order_gt gt_minting_enabled paid (StoredMarket.world_store w) (ow_user x)
                            (ow_order x) in
      let (s, user) := su in
      Ok (mkOrderWorld (StoredMarket.put_store s w') (ow_lamports x) order
            (with_position_state (run_state r) <$> ow_position x) user,
          (remove, run_transfer r, true))
  end.

(** The result of an execution with whether its error must be thrown. *)
Definition perform_execution a (prices : Prices) (discount : Z) x
    : bool * store_result (OrderWorld T * Outcome) :=
  let order := ow_order x in
  match (let! m := find_market_account (xo_market a) (ow_world x) in
         let! _ := StoredMarket.validate (BO := MO) m this in Ok m) with
  | Err e => (false, Err e)
  | Panic msg => (false, Panic msg)
  | Ok m =>
      let (throw, valid) := validate_order prices order in
      match (let! _ := valid in open_order discount order m (xo_remaining_accounts a) (ow_world x)) with
      | Err e => (throw, Err e)
      | Panic msg => (throw, Panic msg)
      | Ok s =>
          let (r, res) := run_order now slot oracle order (BO := MO) m (ow_position x) (xo_event_store a) prices
                            (mkRun throw s zeroed_position_state transfer_out_default) in
          (run_throw r,
           let! res := res in
           commit_order (StoredMarket.is_gt_minting_enabled (BO := MO) m) r res x)
      end
  end.

(** *** Times and auto-deleveraging *)

(** Errors of reading a byte of the order become this one. *)
Definition order_kind (order : Order) : store_result OrderKind :=
  Oracle.map_err (kind (order_params order)) (Core CoreError.InvalidArgument).

Definition position_of x : store_result PositionState :=
  let! p := ok_or (ow_position x) (Core CoreError.PositionIsRequired) in Ok (position_state p).

Definition order_updated_after x : store_result (option Z) :=
  let order := ow_order x in
  let at_ := updated_at (order_header order) in
  let from := valid_from_ts (order_params order) in
  let! k := order_kind order in
  match k with
  | MarketSwap | MarketIncrease => Ok (Some at_)
  | MarketDecrease => let! p := position_of x in Ok (Some (Z.max at_ (increased_at p)))
  | LimitSwap | LimitIncrease => Ok (Some (Z.max at_ from))
  | LimitDecrease | StopLossDecrease =>
      let! p := position_of x in Ok (Some (Z.max (Z.max at_ (increased_at p)) from))
  | Liquidation => let! p := position_of x in Ok (Some (Z.max (increased_at p) (decreased_at p)))
  | AutoDeleveraging => Ok None
  end.

(** Orders of market kinds expire. *)
Definition order_updated_before x : store_result (option Z) :=
  let order := ow_order x in
  let! k := order_kind order in
  if is_market k then
    let! ts := request_expiration_at (StoredMarket.world_store (ow_world x)) (updated_at (order_header order)) in
    Ok (Some ts)
  else Ok None.

Definition order_updated_after_slot x : store_result (option Z) :=
  let! k := order_kind (ow_order x) in
  Ok (match k with
      | Liquidation | AutoDeleveraging => None
      | _ => Some (updated_at_slot (order_header (ow_order x)))
      end).

Definition order_oracle_time x : ValidateOracleTime :=
  mkValidateOracleTime (order_updated_after x) (order_updated_before x) (order_updated_after_slot x).

Definition validate_oracle_and_adl a x : store_result unit :=
  let! _ := validate_time (order_oracle_time x) oracle in
  let! k := order_kind (ow_order x) in
  let! s := Oracle.map_err (side (order_params (ow_order x))) (Core CoreError.InvalidArgument) in
  match k with
  | AutoDeleveraging =>
      let! m := find_market_account (xo_market a) (ow_world x) in
      StoredMarket.validate_adl (BO := MO) m oracle (side_is_long s)
        (amounts_get (StoreState.amount (StoredMarket.world_store (ow_world x))) AdlPricesMaxStaleness)
  | _ => Ok tt
  end.

(** [validate_and_get_order_fee_discount]. *)
Definition order_discount x : store_result Z :=
  let user := ow_user x in
  let! _ := require (user_is_initialized user) CoreError.InvalidUserAccount in
  store_order_fee_discount_factor (StoredMarket.world_store (ow_world x)) (rank (gt user))
    (bool_decide (is_Some (referrer_of (referral user)))).

(** *** [execute] *)

(** The lamports of the position go to the executor, up to the refund, and to the owner. *)
Definition close_position a : OM unit :=
  do! _ := sread (fun x => ok_or (ow_position x) (Core CoreError.PositionIsRequired)) in
  do! balance := sread (fun x => Ok (lamports_at (ow_lamports x) (xo_position a))) in
  let refund_to_owner := Z.max 0 (balance - xo_refund a) in
  let refund_to_executor := balance - refund_to_owner in
  do! _ := on_ow_lamports (close_lamports (xo_position a) (xo_order a)) in
  do! _ := smodify (put_ow_position None) in
  do! _ := (if refund_to_owner =? 0 then sret tt
            else on_ow_lamports (system_transfer (xo_order a) (xo_owner a) refund_to_owner)) in
  if refund_to_executor =? 0 then sret tt
  else on_ow_lamports (system_transfer (xo_order a) (xo_executor a) refund_to_executor).

(** An execution whose error only cancels the order leaves the accounts as they are; a position that
    is empty is removed then. *)
Definition attempt_execution a (prices : Prices) (discount : Z) : OM Outcome := fun x =>
  match perform_execution a prices discount x with
  | (_, Ok (x', (remove, t, send))) => (x', Ok (remove, set_executed true t, send))
  | (throw, Err e) =>
      if throw || xo_throw_on_execution_error a then (x, Err e)
      else
        (x, Ok (from_option (fun p => position_state_is_empty (position_state p)) false (ow_position x),
                transfer_out_default, false))
  | (_, Panic msg) => (x, Panic msg)
  end.

Definition is_expired (e : StoreError) : bool :=
  match e with Core CoreError.OracleTimestampsAreLargerThanRequired => true | _ => false end.

Definition execute_valid_order a : OM Outcome :=
  do! prices := sread (fun x =>
    let! m := find_market_account (xo_market a) (ow_world x) in
    oracle_prices oracle (StoredMarket.meta m)) in
  do! discount := sread order_discount in
  do! out := attempt_execution a prices discount in
  let '(remove, _, _) := out in
  do! _ := (if remove : bool then close_position a else sret tt) in
  sret out.

(** [ExecuteOrderOperation::execute]. *)
Definition execute_order a : OM Outcome :=
  do! _ := sread (fun x => validate_valid_from_ts now (ow_order x)) in
  do! valid := stry (sread (validate_oracle_and_adl a)) in
  match valid with
  | Ok _ => execute_valid_order a
  | Err e =>
      if is_expired e && negb (xo_throw_on_execution_error a) then
        do! _ := sread (fun x => match order_updated_before x with
                                 | Ok (Some ts) => Ok ts
                                 | _ => Panic "must have an expiration time"
                                 end) in
        sret (false, new_failed, false)
      else slift (Err e)
  | Panic msg => slift (Panic msg)
  end.

(** ** Paying out *)

(** The accounts of one of the tokens. *)
Record PayAccounts : Type := mkPayAccounts {
  pay_token : option Pubkey;
  pay_vault : option Pubkey;
  pay_account : option Pubkey;
}.

Record TransferOutAccounts : Type := mkTransferOutAccounts {
  to_market : Pubkey;
  to_is_pnl_token_long_token : bool;
  to_final_output_market : option Pubkey;
  to_final_output : PayAccounts;
  to_long : PayAccounts;
  to_short : PayAccounts;
  to_claimable_long_for_user : option Pubkey;
  to_claimable_short_for_user : option Pubkey;
  to_claimable_pnl_for_holding : option Pubkey;
}.

Definition with_account (p : PayAccounts) (account_ : option Pubkey) : PayAccounts :=
  mkPayAccounts (pay_token p) (pay_vault p) account_.

(** One transfer, out of the vault at the address derived of the mint. *)
Definition pay_out (market : store_result Pubkey) (p : PayAccounts) (amount_ : Z)
    : StoredMarket.WS (T := T) unit :=
  if amount_ =? 0 then sret tt
  else
    do! token_ := slift (ok_or (pay_token p) (Core CoreError.TokenMintNotProvided)) in
    do! market := slift market in
    do! _ := slift (ok_or (pay_vault p) (Core CoreError.TokenAccountNotProvided)) in
    do! account_ := slift (ok_or (pay_account p) (Core CoreError.TokenAccountNotProvided)) in
    StoredMarket.transfer_out_operation (BO := MO) this vault_address market account_ token_ amount_.

(** [ProcessTransferOutOperation::execute]. *)
Definition process_transfer_out (p : TransferOutAccounts) (t : TransferOut) : StoredMarket.WS (T := T) unit :=
  let market := Ok (to_market p) in
  do! _ := pay_out (ok_or (to_final_output_market p) (Core CoreError.MarketMismatched)) (to_final_output p)
             (to_final_output_token t) in
  do! amounts := slift (
    if to_is_pnl_token_long_token p then
      let! l := add_u64 (to_secondary_output_token t) (to_long_token t) in Ok (l, to_short_token t)
    else
      let! s := add_u64 (to_secondary_output_token t) (to_short_token t) in Ok (to_long_token t, s)) in
  do! _ := pay_out market (to_long p) (fst amounts) in
  do! _ := pay_out market (to_short p) (snd amounts) in
  do! _ := pay_out market (with_account (to_long p) (to_claimable_long_for_user p))
             (long_token_for_claimable_account_of_user t) in
  do! _ := pay_out market (with_account (to_short p) (to_claimable_short_for_user p))
             (short_token_for_claimable_account_of_user t) in
  do! _ := pay_out market (with_account (to_long p) (to_claimable_pnl_for_holding p))
             (long_token_for_claimable_account_of_holding t) in
  pay_out market (with_account (to_short p) (to_claimable_pnl_for_holding p))
    (short_token_for_claimable_account_of_holding t).

(** ** Creating orders *)

Record CreateOrderParams : Type := mkCreateOrderParams {
  co_kind : OrderKind;
  co_decrease_position_swap_type : option DecreasePositionSwapType;
  co_execution_lamports : Z;
  co_swap_path_length : Z;
  co_initial_collateral_delta_amount : Z;
  co_size_delta_value : Z;
  co_is_long : bool;
  co_is_collateral_long : bool;
  co_min_output : option Z;
  co_trigger_price : option Z;
  co_acceptable_price : option Z;
  co_should_unwrap_native_token : bool;
  co_valid_from_ts : option Z;
}.

Definition to_position_kind (self : CreateOrderParams) : store_result PositionKind.PositionKind :=
  if is_swap (co_kind self) then Err (Core CoreError.PositionItNotRequired)
  else Ok (if co_is_long self then PositionKind.Long else PositionKind.Short).

Definition create_collateral_token (meta : MarketMeta) (self : CreateOrderParams) : Pubkey :=
  if co_is_collateral_long self then long_token_mint meta else short_token_mint meta.

Record CreateOrderAccounts : Type := mkCreateOrderAccounts {
  oc_order : Pubkey;
  oc_market : Pubkey;
  oc_owner : Pubkey;
  oc_receiver : Pubkey;
  oc_creator : option Pubkey;
  oc_nonce : Z;
  oc_bump : Z;
  oc_swap_path : list Pubkey;
}.

Section Create.
(** The mint of a token account, and the rent of an order. *)
Context (account_mint : Pubkey -> Pubkey) (order_rent : Z).
Implicit Types (c : CreateOrderAccounts) (params : CreateOrderParams).

Definition read_order_market {A} (key : Pubkey) (f : StoredMarket.Market -> store_result A) : OM A :=
  sread (fun x => let! m := find_market_account key (ow_world x) in f m).

(** [CreateOrderOperation::validate]. *)
Definition validate_create c params : OM unit :=
  do! _ := read_order_market (oc_market c) (fun m => StoredMarket.validate (BO := MO) m this) in
  on_ow_lamports (sread (validate_balance ORDER_MIN_EXECUTION_LAMPORTS order_rent (oc_order c)
                           (co_execution_lamports params))).

Definition no_tokens : OrderTokenAccounts := mkOrderTokenAccounts no_token no_token no_token no_token.
Definition order_init_token (account_ : Pubkey) : TokenAndAccount :=
  mkTokenAndAccount (account_mint account_) account_.

(** The swap path of an order; it has no secondary path. *)
Definition init_order_swap (meta : MarketMeta) (length_ : Z) (swap_path : list Pubkey) (from to : Pubkey)
    (w : StoredMarket.World T) : store_result SwapActionParams :=
  let! _ := require (Z.to_nat length_ <=? MAX_STEPS)%nat CoreError.InvalidSwapPathLength in
  let! _ := require (Z.to_nat length_ <=? length swap_path)%nat CoreError.NotEnoughSwapMarkets in
  let! loaders := loaders_of (BO := MO) now w (take (Z.to_nat length_) swap_path) in
  validate_and_init meta length_ 0 loaders this (from, from) (to, from)
    (mkSwapActionParams 0 0 0 0 (replicate MAX_STEPS 0) (replicate MAX_TOKENS 0)).

(** [init_with]: what is particular to the kind is the tokens, the parameters, and the two ends of the
    swap. *)
Definition init_with c params (tokens : OrderTokenAccounts)
    (init : OrderActionParams -> store_result OrderActionParams) (from to : Pubkey) : OM unit :=
  do! id := on_ow_world (StoredMarket.with_market this (oc_market c)
              (StoredMarket.on_indexer StoredMarket.next_order_id)) in
  do! header := slift (header_init (BO := MO) now slot id this (oc_market c) (oc_owner c) (oc_receiver c)
                  (oc_nonce c) (oc_bump c) (co_execution_lamports params)
                  (co_should_unwrap_native_token params) (zeroed_header (BO := MO))) in
  let header := from_option (fun k => unchecked_set_creator k header) header (oc_creator c) in
  do! meta := read_order_market (oc_market c) (fun m => Ok (StoredMarket.meta m)) in
  do! action_params := slift (init zeroed_params) in
  do! swap := sread (fun x => init_order_swap meta (co_swap_path_length params) (oc_swap_path c) from to
                                (ow_world x)) in
  smodify (put_ow_order (mkOrder header (market_token_mint meta) tokens swap action_params 0)).

Definition token_amount (account_ : Pubkey) : OM Z :=
  sread (fun x => Ok (amount_of (StoredMarket.world_tokens (ow_world x)) account_)).

(** [CreateSwapOrderOperation]. *)
Definition create_swap_order c (swap_in_token swap_out_token : Pubkey) params : OM unit :=
  do! _ := validate_create c params in
  do! _ := slift (require (is_swap (co_kind params)) CoreError.Internal) in
  do! _ := slift (require (negb (co_initial_collateral_delta_amount params =? 0)) CoreError.EmptyOrder) in
  do! held := token_amount swap_in_token in
  do! _ := slift (require_gte held (co_initial_collateral_delta_amount params) CoreError.NotEnoughTokenAmount) in
  do! _ := read_order_market (oc_market c) (fun m =>
    require (StoredMarket.is_collateral_token (StoredMarket.meta m) (account_mint swap_out_token))
      CoreError.TokenMintMismatched) in
  init_with c params
    (mkOrderTokenAccounts (order_init_token swap_in_token) (order_init_token swap_out_token) no_token no_token)
    (init_swap (co_kind params) (account_mint swap_out_token) (co_initial_collateral_delta_amount params)
       (co_min_output params) (co_valid_from_ts params))
    (account_mint swap_in_token) (account_mint swap_out_token).

(** The accounts of the two tokens of the market, and the position. *)
Definition validate_order_market c (long_token_ short_token_ : Pubkey) : OM unit :=
  do! _ := read_order_market (oc_market c) (fun m =>
    let! _ := require (long_token_mint (StoredMarket.meta m) =? account_mint long_token_)
                CoreError.TokenMintMismatched in
    require (short_token_mint (StoredMarket.meta m) =? account_mint short_token_)
      CoreError.TokenMintMismatched) in
  do! p := sread (fun x => ok_or (ow_position x) (Core CoreError.PositionIsRequired)) in
  read_order_market (oc_market c) (fun m => model_result (validate_for_market (BO := MO) m p)).

(** [CreateIncreaseOrderOperation]. *)
Definition create_increase_order c (position initial_collateral_token long_token_ short_token_ : Pubkey) params
    : OM unit :=
  do! _ := validate_create c params in
  do! _ := slift (require (is_increase_position (co_kind params)) CoreError.Internal) in
  do! _ := slift (require (negb (co_size_delta_value params =? 0)
                           || negb (co_initial_collateral_delta_amount params =? 0)) CoreError.EmptyOrder) in
  do! held := token_amount initial_collateral_token in
  do! _ := slift (require_gte held (co_initial_collateral_delta_amount params) CoreError.NotEnoughTokenAmount) in
  do! _ := validate_order_market c long_token_ short_token_ in
  do! collateral := read_order_market (oc_market c) (fun m =>
    Ok (create_collateral_token (StoredMarket.meta m) params)) in
  init_with c params
    (mkOrderTokenAccounts (order_init_token initial_collateral_token) no_token
       (order_init_token long_token_) (order_init_token short_token_))
    (init_increase (co_is_long params) (co_kind params) position collateral
       (co_initial_collateral_delta_amount params) (co_size_delta_value params) (co_trigger_price params)
       (co_acceptable_price params) (co_min_output params) (co_valid_from_ts params))
    (account_mint initial_collateral_token) collateral.

(** [CreateDecreaseOrderOperation]; an empty market decrease is allowed. *)
Definition create_decrease_order c (position final_output long_token_ short_token_ : Pubkey) params : OM unit :=
  do! _ := validate_create c params in
  do! _ := slift (require (is_decrease_position (co_kind params)) CoreError.Internal) in
  do! _ := slift (require (negb (co_size_delta_value params =? 0)
                           || negb (co_initial_collateral_delta_amount params =? 0)
                           || is_market_decrease (co_kind params)) CoreError.EmptyOrder) in
  do! _ := validate_order_market c long_token_ short_token_ in
  do! collateral := read_order_market (oc_market c) (fun m =>
    Ok (create_collateral_token (StoredMarket.meta m) params)) in
  init_with c params
    (mkOrderTokenAccounts no_token (order_init_token final_output)
       (order_init_token long_token_) (order_init_token short_token_))
    (init_decrease (co_is_long params) (co_kind params) position collateral
       (co_initial_collateral_delta_amount params) (co_size_delta_value params) (co_trigger_price params)
       (co_acceptable_price params) (co_min_output params)
       (default NoSwap (co_decrease_position_swap_type params)) (co_valid_from_ts params))
    collateral (account_mint final_output).

(** ** Cutting a position: liquidations and auto-deleveraging *)

Inductive PositionCutKind : Type := Liquidate | AutoDeleverage (delta : Z).

Definition size_delta_usd (self : PositionCutKind) (size_in_usd : Z) : Z :=
  match self with Liquidate => size_in_usd | AutoDeleverage delta => Z.min size_in_usd delta end.
Definition to_order_kind (self : PositionCutKind) : OrderKind :=
  match self with Liquidate => Liquidation | AutoDeleverage _ => AutoDeleveraging end.

Record PositionCutAccounts : Type := mkPositionCutAccounts {
  pc_create : CreateOrderAccounts;
  pc_executor : Pubkey;
  pc_position : Pubkey;
  pc_event_store : Pubkey;
  pc_long_token_mint : Pubkey;
  pc_short_token_mint : Pubkey;
  pc_long_token_account : Pubkey;
  pc_short_token_account : Pubkey;
  pc_claimable_long_for_user : Pubkey;
  pc_claimable_short_for_user : Pubkey;
  pc_claimable_pnl_for_holding : Pubkey;
  pc_refund : Z;
  pc_should_unwrap_native_token : bool;
}.

Definition cut_params (kind : PositionCutKind) (p : PositionCutAccounts) (size_in_usd : Z)
    (is_long is_collateral_long : bool) : CreateOrderParams :=
  mkCreateOrderParams (to_order_kind kind) (Some PnlTokenToCollateralToken) ORDER_MIN_EXECUTION_LAMPORTS 0 0
    (size_delta_usd kind size_in_usd) is_long is_collateral_long None None None
    (pc_should_unwrap_native_token p) None.

(** The order is created for the executor, who pays for it. *)
Definition cut_create (kind : PositionCutKind) (p : PositionCutAccounts) (size_in_usd : Z)
    (is_long is_collateral_long : bool) : OM unit :=
  let c := pc_create p in
  do! _ := on_ow_lamports (transfer_execution_fee (oc_order c) (pc_executor p) ORDER_MIN_EXECUTION_LAMPORTS) in
  create_decrease_order
    (mkCreateOrderAccounts (oc_order c) (oc_market c) (oc_owner c) (oc_owner c) (Some (pc_executor p))
       (oc_nonce c) (oc_bump c) [])
    (pc_position p)
    (if is_collateral_long then pc_long_token_account p else pc_short_token_account p)
    (pc_long_token_account p) (pc_short_token_account p)
    (cut_params kind p size_in_usd is_long is_collateral_long).

Definition cut_execute (p : PositionCutAccounts) : OM Outcome :=
  execute_order (mkExecuteOrderAccounts (pc_executor p) (oc_market (pc_create p)) (oc_order (pc_create p))
    (oc_owner (pc_create p)) (pc_position p) (Some (pc_event_store p)) [] true (pc_refund p)).

Definition cut_transfer_out_accounts (p : PositionCutAccounts) (is_long is_collateral_long : bool)
    : TransferOutAccounts :=
  let market := oc_market (pc_create p) in
  let pays mint account_ := mkPayAccounts (Some mint) (Some mint) (Some account_) in
  let long := pays (pc_long_token_mint p) (pc_long_token_account p) in
  let short := pays (pc_short_token_mint p) (pc_short_token_account p) in
  mkTransferOutAccounts market is_long (Some market) (if is_collateral_long then long else short) long short
    (Some (pc_claimable_long_for_user p)) (Some (pc_claimable_short_for_user p))
    (Some (pc_claimable_pnl_for_holding p)).

Definition update_order_header (f : ActionHeader -> store_result ActionHeader) : OM unit :=
  do! x := sget in
  do! h := slift (f (order_header (ow_order x))) in
  smodify (put_ow_order (with_order_header h (ow_order x))).

(** [PositionCutOperation::execute]. *)
Definition position_cut (kind : PositionCutKind) (p : PositionCutAccounts) : OM bool :=
  do! pos := sread (fun x => ok_or (ow_position x) (Core CoreError.PositionIsRequired)) in
  do! is_collateral_long := read_order_market (oc_market (pc_create p)) (fun m =>
    model_result (to_token_side (StoredMarket.meta m) (position_collateral_token pos))) in
  do! is_long := slift (try_is_long pos) in
  do! _ := cut_create kind p (state_size_in_usd (position_state pos)) is_long is_collateral_long in
  do! out := cut_execute p in
  let '(removed, t, send) := out in
  do! _ := slift (require (Orders.executed t) CoreError.Internal) in
  do! _ := update_order_header completed in
  do! _ := (if removed : bool then sret tt
            else update_order_header (fun h => Ok (set_rent_receiver (pc_executor p) h))) in
  do! _ := on_ow_world (process_transfer_out (cut_transfer_out_accounts p is_long is_collateral_long) t) in
  sret send.
End Create.
End Accounts.

End OrderOps.
