(* ===== verification/OrderFacts.v ===== *)
(** * What executed orders do

    First, that nothing of an execution but the action on the position touches what a market keeps
    of its positions ([LedgerKept]): not the updates of the market, not a swap along a path. Then
    the runs of [OrderOps] are inverted, and the theorems about them follow. *)
From stdpp Require Import gmap.
From S2P Require Import Prelude.
From S2P Require Import Kinds.
From S2P Require Import Num.
From S2P Require Import Fixed.
From S2P Require Import Price.
From S2P Require Import Params.
From S2P Require Import Pool.
From S2P Require Import Market.
From S2P Require Import MarketFacts.
From S2P Require Import Swap.
From S2P Require Import UpdateStates.
From S2P Require Import Funding.
From S2P Require Import Position.
From S2P Require Import Ledger.
From S2P Require Import CollateralProcessor.
From S2P Require Import IncreasePosition.
From S2P Require Import DecreasePosition.
From S2P Require Import Revertible.
From S2P Require Import CoreErrors.
From S2P Require Import MapSum.
From S2P Require Import Flags.
From S2P Require Import Config.
From S2P Require Import Roles.
From S2P Require Import TokenConfig.
From S2P Require Import Oracle.
From S2P Require Import Users.
From S2P Require Import Gt.
From S2P Require Import StoreState.
From S2P Require Import SwapPath.
From S2P Require Import Tokens.
From S2P Require Import MarketAccount.
From S2P Require Import MarketOps.
From S2P Require Import Actions.
From S2P Require Import Orders.
From S2P Require Import OrderOps.
Import OnChain.
#[local] Open Scope Z_scope.

Module OrderFacts.
Import MarketOps Actions Orders OrderKind OrderOps.
#[local] Existing Instance u128.

(** ** What a market keeps of its positions *)
Section Kept.
Context {F : FixedPointOps u128} {FOk : FixedPointOk F} {T : Type} {S : SupplyOps T} {SL : SupplyLaws T}.
Context {B : Type} `{BitmapLaws TokenConfig.MAX_FLAGS B} (oracle : Oracle.Oracle) (Hgood : GoodPrices oracle).
Implicit Types (m : Market Pool T) (mk : SwapMarket T) (s : SwapMarkets T) (ps : list Position).

(** The pools that follow the positions are as before, and no pool has changed its kind. *)
Record LedgerKept m m' : Prop := {
  kept_total k : is_ledger_pool k = true -> total_amt m' k = total_amt m k;
  kept_pure k : pool_pure (pool_of m' k) = pool_pure (pool_of m k);
  kept_amt k b : is_ledger_pool k = true -> pool_pure (pool_of m k) = false -> amt m' k b = amt m k b;
}.

Lemma ledger_kept_refl m : LedgerKept m m.
Proof. done. Qed.

Lemma ledger_kept_trans m m1 m2 : LedgerKept m m1 -> LedgerKept m1 m2 -> LedgerKept m m2.
Proof.
  intros [Ht Hp Ha] [Ht' Hp' Ha']. split; intros.
  - by rewrite Ht', Ht.
  - by rewrite Hp', Hp.
  - by rewrite Ha', Ha by (rewrite ?Hp; done).
Qed.

(** Only the pools matter. *)
Lemma ledger_kept_pools m m' : m_pools m' = m_pools m -> LedgerKept m m'.
Proof. intros Hp. split; intros; unfold total_amt, amt, pool_of; by rewrite Hp. Qed.

Lemma ledger_kept_moved m c m' :
  Moved m c m' -> (forall k b, is_ledger_pool k = true -> c k b = 0) -> LedgerKept m m'.
Proof.
  intros Hm Hc. split; intros.
  - rewrite (moved_total _ _ _ k Hm), !Hc by done. lia.
  - apply (moved_pure _ _ _ k Hm).
  - rewrite (moved_amt _ _ _ _ _ Hm), Hc by done. lia.
Qed.

Lemma ledger_kept_tracks m m' ps : LedgerKept m m' -> Tracks m ps -> Tracks m' ps.
Proof.
  intros [Ht Hp Ha] Htr k Hk. destruct (Htr k Hk) as [H1 H2]. rewrite Ht by done. split; [done|].
  rewrite Hp. intros Hpure b. rewrite Ha by done. by apply H2.
Qed.

(** *** One market *)

Definition SKeeps {A} (m : SM (T := T) A) : Prop := forall mk mk' a,
  SmWf mk -> m mk = (mk', Ok a) -> SmWf mk' /\ LedgerKept (sm_market mk) (sm_market mk').

Lemma s_bind {A C} (m : SM A) (k : A -> SM C) : SKeeps m -> (forall a, SKeeps (k a)) -> SKeeps (sbind m k).
Proof.
  intros Hm Hk mk mk' a Hwf Hr. apply sbind_ok in Hr as (mk1 & x & H1 & H2).
  apply Hm in H1 as [W1 K1]; [|done]. apply Hk in H2 as [W2 K2]; [|done].
  split; [done|]. by eapply ledger_kept_trans.
Qed.

Lemma s_read {A} (f : SwapMarket T -> store_result A) : SKeeps (sread f).
Proof. intros mk mk' a Hwf [-> _]%sread_ok. done. Qed.
Lemma s_lift {A} (r : store_result A) : SKeeps (slift r).
Proof. intros mk mk' a Hwf [-> _]%slift_ok. done. Qed.
Lemma s_ret {A} (a : A) : SKeeps (sret a).
Proof. intros mk mk' x Hwf [-> _]%sret_ok. done. Qed.

Lemma s_record_market op token x mk mk' u :
  record_by_token (T := T) op token x mk = (mk', Ok u) -> sm_market mk' = sm_market mk.
Proof.
  unfold record_by_token. intros Hr. apply sbind_ok in Hr as (? & side & [-> _]%sread_ok & Hr).
  apply sbind_ok in Hr as (? & p & [-> _]%sread_ok & Hr). apply on_plain_ok in Hr as (plain & Hr & ->).
  unfold plain_transfer in Hr. apply supdate_ok in Hr. unfold sm_market. cbn [sm_plain]. destruct (p || side);
    by apply rbind_ok in Hr as (y & _ & [= <-]).
Qed.

Lemma s_in token x : SKeeps (sm_record_in token x).
Proof.
  intros mk mk' u Hwf Hr. pose proof Hr as Hm. apply s_record_market in Hm. apply record_in_ok in Hr; [|done].
  rewrite Hm. split; [apply Hr|done].
Qed.
Lemma s_out token x : SKeeps (sm_record_out token x).
Proof.
  intros mk mk' u Hwf Hr. pose proof Hr as Hm. apply s_record_market in Hm. apply record_out_ok in Hr; [|done].
  rewrite Hm. split; [apply Hr|done].
Qed.

Lemma s_borrowing prices : SKeeps (SwapPath.on_market (update_borrowing prices)).
Proof.
  intros mk mk' r Hwf Hr. pose proof Hr as Hb. apply borrowing_ok in Hb; [|done]. split; [apply Hb|].
  apply on_swap_market_ok in Hr as (m & Hr & ->).
  apply update_borrowing_moved in Hr as (last & d & rl & rs & m1 & _ & _ & _ & _ & _ & _ & Hm & _); [|apply Hwf].
  eapply ledger_kept_trans; [|eapply ledger_kept_moved; [exact Hm|]]; [by apply ledger_kept_pools|].
  intros k b Hk. unfold change_plus. rewrite !change_at_other; [done|by intros ->..].
Qed.

Lemma s_swap side x oracle_meta prices mk mk' r :
  SmWf mk -> oracle_prices oracle oracle_meta = Ok prices ->
  SwapPath.on_market (swap side x prices) mk = (mk', Ok r) ->
  SmWf mk' /\ LedgerKept (sm_market mk) (sm_market mk').
Proof.
  intros Hwf Hp Hr. apply oracle_prices_ok in Hp as [Hrange Hord]; [|done].
  apply on_swap_market_ok in Hr as (m & Hr & ->).
  apply swap_moves in Hr as (pin & pout & di & do & Hm & _); [|apply Hwf|done..].
  pose proof (pools_moved _ _ _ Hwf Hm) as Hmv. split; [apply Hmv|].
  eapply ledger_kept_moved; [exact Hm|]. intros k b Hk. by destruct k.
Qed.

Lemma s_swap_with_current token x : SKeeps (swap_with_current oracle token x).
Proof.
  intros mk mk' out Hwf Hr. unfold swap_with_current in Hr.
  apply sbind_ok in Hr as (? & side & [-> _]%sread_ok & Hr).
  apply sbind_ok in Hr as (? & prices & [-> Hp]%sread_ok & Hr).
  apply sbind_ok in Hr as (mk1 & r & Hs & Hr). apply (s_swap _ _ _ _ _ _ _ Hwf Hp) in Hs as [W1 K1].
  assert (SKeeps (do! amount := slift (to_token_amount (token_out_amount (swap_result r))) in
                  do! token := sread (fun self => opposite_token (sm_meta self) token) in
                  sret (token, amount))) as Hrest.
  { apply s_bind; [apply s_lift|intros ?]. apply s_bind; [apply s_read|intros ?]. apply s_ret. }
  apply Hrest in Hr as [W2 K2]; [|done]. split; [done|by eapply ledger_kept_trans].
Qed.

Lemma s_swap_at first last token x : SKeeps (swap_at first last oracle token x).
Proof.
  unfold swap_at. apply s_bind; [destruct first; [apply s_ret|apply s_in]|intros _].
  apply s_bind; [apply s_read|intros side].
  intros mk mk' out Hwf Hr. apply sbind_ok in Hr as (? & prices & [-> Hp]%sread_ok & Hr).
  apply sbind_ok in Hr as (mk1 & rb & H1 & Hr). apply s_borrowing in H1 as [W1 K1]; [|done].
  apply sbind_ok in Hr as (mk2 & r & H2 & Hr). apply (s_swap _ _ _ _ _ _ _ W1 Hp) in H2 as [W2 K2].
  match type of Hr with ?rest mk2 = _ => assert (SKeeps rest) as Hrest end.
  { apply s_bind; [apply s_read|intros ?]. apply s_bind; [apply s_lift|intros ?].
    apply s_bind; [|intros ?; apply s_ret]. destruct last; [apply s_ret|].
    apply s_bind; [apply s_out|intros ?; apply s_read]. }
  apply Hrest in Hr as [W3 K3]; [|done]. split; [done|]. do 2 (eapply ledger_kept_trans; [eassumption|]). done.
Qed.

(** *** All markets of a swap *)

Definition SwapKept s s' : Prop :=
  LedgerKept (sm_market (current_market s)) (sm_market (current_market s'))
  /\ forall k mk', markets s' !! k = Some mk' ->
       exists mk, markets s !! k = Some mk /\ LedgerKept (sm_market mk) (sm_market mk').

Lemma swap_kept_refl s : SwapKept s s.
Proof. split; [done|]. intros k mk Hk. by exists mk. Qed.

Lemma swap_kept_trans s s1 s2 : SwapKept s s1 -> SwapKept s1 s2 -> SwapKept s s2.
Proof.
  intros [H1 H2] [H1' H2']. split; [by eapply ledger_kept_trans|].
  intros k mk Hk. apply H2' in Hk as (mk1 & Hk & L1). apply H2 in Hk as (mk0 & Hk & L0).
  exists mk0. split; [done|]. by eapply ledger_kept_trans.
Qed.

Definition PKeeps {A} (m : SwapPath.PM (T := T) A) : Prop := forall s s' a,
  MarketsWf s -> m s = (s', Ok a) -> MarketsWf s' /\ SwapKept s s'.

Lemma p_bind {A C} (m : SwapPath.PM A) (k : A -> SwapPath.PM C) :
  PKeeps m -> (forall a, PKeeps (k a)) -> PKeeps (sbind m k).
Proof.
  intros Hm Hk s s' a Hwf Hr. apply sbind_ok in Hr as (s1 & x & H1 & H2).
  apply Hm in H1 as [W1 K1]; [|done]. apply Hk in H2 as [W2 K2]; [|done].
  split; [done|]. by eapply swap_kept_trans.
Qed.

Lemma p_read {A} (f : SwapMarkets T -> store_result A) : PKeeps (sread f).
Proof. intros s s' a Hwf [-> _]%sread_ok. split; [done|apply swap_kept_refl]. Qed.
Lemma p_lift {A} (r : store_result A) : PKeeps (slift r).
Proof. intros s s' a Hwf [-> _]%slift_ok. split; [done|apply swap_kept_refl]. Qed.
Lemma p_ret {A} (a : A) : PKeeps (sret a).
Proof. intros s s' x Hwf [-> _]%sret_ok. split; [done|apply swap_kept_refl]. Qed.

Lemma p_current {A} (m : SM A) : SKeeps m -> PKeeps (on_current m).
Proof.
  intros Hm s s' a [Hc Hms] Hr. apply szoom_ok in Hr as (mk & Hmk & ->). apply Hm in Hmk as [W K]; [|done].
  split; [done|]. split; [done|]. intros k mk1 Hk. by exists mk1.
Qed.

Lemma p_key {A} missing k (m : SM A) : (forall a, missing <> Ok a) -> SKeeps m -> PKeeps (on_key missing k m).
Proof.
  intros Hn Hm s s' a [Hc Hms] Hr. apply on_key_run in Hr as (mk & mk' & Hk & Hr & ->); [|done].
  apply Hm in Hr as [W K]; [|by eapply Hms]. split; [split; [done|]|split; [done|]]; simpl.
  - intros k' mk1 [[_ <-]|[_ ?]]%lookup_insert_Some; [done|by eapply Hms].
  - intros k' mk1 [[<- <-]|[_ ?]]%lookup_insert_Some; [by exists mk|by exists mk1].
Qed.

Lemma p_key_provided {A} k (m : SM A) : SKeeps m -> PKeeps (on_key not_provided k m).
Proof. apply p_key, not_provided_not_ok. Qed.
Lemma p_key_exists {A} k (m : SM A) : SKeeps m -> PKeeps (on_key must_exist k m).
Proof. apply p_key, must_exist_not_ok. Qed.

(** Each step of a swap is one of these. *)
Ltac keeps :=
  repeat match goal with
    | |- PKeeps (sbind _ _) => apply p_bind; [|intros ?]
    | |- SKeeps (sbind _ _) => apply s_bind; [|intros ?]
    | |- PKeeps (sret _) => apply p_ret
    | |- SKeeps (sret _) => apply s_ret
    | |- PKeeps (slift _) => apply p_lift
    | |- PKeeps (sread _) => apply p_read
    | |- SKeeps (sread _) => apply s_read
    | |- SKeeps (sm_record_in _ _) => apply s_in
    | |- SKeeps (sm_record_out _ _) => apply s_out
    | |- SKeeps (sm_validate _ _) => apply s_read
    | |- SKeeps (sm_validate_token _ _) => apply s_read
    | |- SKeeps (sm_validate_excluding _ _ _ _) => apply s_read
    | |- PKeeps (current_out _ _) => apply p_current
    | |- PKeeps (current_in _ _) => apply p_current
    | |- PKeeps (on_current _) => apply p_current
    | |- PKeeps (on_key not_provided _ _) => apply p_key; [apply not_provided_not_ok|]
    | |- PKeeps (on_key must_exist _ _) => apply p_key; [apply must_exist_not_ok|]
    | |- SKeeps (swap_with_current _ _ _) => apply s_swap_with_current
    | |- SKeeps (swap_at _ _ _ _ _) => apply s_swap_at
    | |- PKeeps (if ?c then _ else _) => destruct c
    | |- PKeeps (match ?c with _ => _ end) => destruct c
    | |- PKeeps (let _ := _ in _) => cbv zeta
    end.

Lemma p_swap_along path : forall first token x, PKeeps (swap_along first oracle path token x).
Proof. induction path as [|k path IH]; intros first token x; simpl; keeps. apply IH. Qed.

Lemma p_one_side direction path expected token x :
  PKeeps (revertible_swap_for_one_side direction oracle path expected token x).
Proof.
  unfold revertible_swap_for_one_side, leave_current, first_at_current, swap_rest, swap_along_the_path,
    last_out, check_provided.
  keeps; apply p_swap_along.
Qed.

Lemma p_revertible_swap direction params outs ins amounts :
  PKeeps (revertible_swap direction oracle params outs ins amounts).
Proof. unfold revertible_swap, swap_side, validate_output. keeps; apply p_one_side. Qed.
End Kept.

(** ** The steps of an execution *)
Section Steps.
Context {F : FixedPointOps u128} {FOk : FixedPointOk F}.
Context {B : Type} `{BitmapLaws TokenConfig.MAX_FLAGS B} (oracle : Oracle.Oracle) (Hgood : GoodPrices oracle).
Implicit Types (m : Market Pool LiquiditySupply) (mk : SwapMarket LiquiditySupply)
  (s : SwapMarkets LiquiditySupply) (r : Run) (p : Position) (ps : list Position).

Lemma s_pre_execute prices : SKeeps (pre_execute prices).
Proof.
  intros mk mk' u Hwf Hr. pose proof Hr as Hm. apply pre_execute_ok in Hm; [|done]. split; [apply Hm|].
  apply sbind_ok in Hr as (mk1 & r1 & (m1 & H1 & ->)%on_swap_market_ok & Hr).
  apply distribute_ok in H1 as (last & d & a & n & _ & _ & _ & H1); [|apply Hwf].
  set (mk1 := mkSwapMarket _ _ _) in Hr. assert (SmWf mk1) as W1.
  { eapply (quiet_moved _ _ _ _ m1) in H1 as Hq; [apply Hq|done|by intros []; rewrite held_change_at|done..]. }
  apply sbind_ok in Hr as (mk2 & r2 & H2%s_borrowing & Hr); [|done]. destruct H2 as [W2 K2].
  apply sbind_ok in Hr as (mk3 & r3 & (m3 & H3 & ->)%on_swap_market_ok & [-> _]%sret_ok).
  apply update_funding_moved in H3 as (last' & d' & m4 & _ & _ & H3 & ->); [|apply W2].
  eapply ledger_kept_trans; [|eapply ledger_kept_trans; [exact K2|]].
  - eapply ledger_kept_trans; [|eapply ledger_kept_moved; [exact H1|]]; [by apply ledger_kept_pools|].
    intros k b Hk. rewrite change_at_other; [done|by intros ->].
  - apply (ledger_kept_trans _ m4); [|by apply ledger_kept_pools].
    eapply ledger_kept_trans; [|eapply ledger_kept_moved; [exact H3|]]; [by apply ledger_kept_pools|].
    intros k b Hk. by destruct k.
Qed.

(** *** What happens to the tokens *)

(** A swap touches only markets that it leaves solvent, and the output can be paid. *)
Lemma revertible_swap_executed direction params outs ins amounts s s' out :
  MarketsWf s -> revertible_swap direction oracle params outs ins amounts s = (s', Ok out) ->
  Executed s nothing
    (fun tok => (side_in (fst ins) (fst amounts) tok - pay (fst outs) (fst out) tok)
                + (side_in (snd ins) (snd amounts) tok - pay (snd outs) (snd out) tok)) s'
  /\ solvent (current_market s') /\ supply_at s' = supply_at s.
Proof.
  intros Hwf Hr. pose proof Hr as Hk. apply revertible_swap_kept in Hk as (Hsol & Hk & _); [|done..].
  apply revertible_swap_ok in Hr as (lp & sp & [Hm Hwf' Hkeys Hrec Hheld _ _ Hsup] & _); [|done..]. done.
Qed.

Lemma executed_same_current s mk :
  MarketsWf s -> SmMoved (current_market s) nothing nothing mk ->
  Executed s nothing nothing (mkSwapMarkets (markets s) mk).
Proof.
  intros [Hc Hms] [Hmeta Hwf Hrec Hheld _]. split; simpl; [done|by split|done|..|auto].
  - intros tok. unfold total. simpl. rewrite Hrec. lia.
  - intros tok. unfold total. simpl. rewrite Hheld. lia.
Qed.

(** The current market with another state of the model, whose pools have moved. *)
Lemma with_model_executed s c m :
  MarketsWf s -> Moved (sm_market (current_market s)) c m ->
  let mk := current_market s in
  Executed s nothing
    (fun tok => pay (long_token_mint (sm_meta mk)) (held_change c true) tok
                + pay (short_token_mint (sm_meta mk)) (held_change c false) tok)
    (mkSwapMarkets (markets s) (with_model m mk)).
Proof.
  intros [Hc Hms] Hm mk. subst mk. pose proof (pools_moved _ _ _ Hc Hm) as Hmv.
  change (mkSwapMarket _ _ _) with (with_model m (current_market s)) in Hmv.
  destruct Hmv as [Hmeta Hwf Hrec Hheld _].
  split; cbn [current_market markets]; [done|by split|done|..|auto].
  - intros tok. unfold total. cbn [current_market markets]. rewrite (Hrec tok). lia.
  - intros tok. unfold total. cbn [current_market markets]. rewrite (Hheld tok). lia.
Qed.

(** *** The position in its market *)

Lemma as_position_with p l c pure st :
  is_long p = l -> is_collateral_token_long p = c ->
  are_pnl_and_collateral_tokens_the_same p = eqb l c || pure -> as_position l c pure (with_position p st) = p.
Proof. destruct p; simpl; intros -> -> ->. done. Qed.

Lemma as_position_trade set now slot id l c pure st :
  set = set_increased \/ set = set_decreased -> as_position l c pure (set now slot id st) = as_position l c pure st.
Proof. by intros [->| ->]. Qed.

Lemma ledger_step_kept p m0 m p' m' m1 :
  LedgerKept m0 m -> LedgerStep p m p' m' -> LedgerKept m' m1 -> LedgerStep p m0 p' m1.
Proof.
  intros K0 Hs K1 ps i Ht Hi. destruct (Hs ps i) as (q & Hq & Ht'); [by eapply ledger_kept_tracks|done|].
  exists q. split; [done|by eapply ledger_kept_tracks].
Qed.

Lemma increased_ledger_step params rep m p m' p' :
  Increased params rep m p m' p' -> LedgerStep p m p' m'.
Proof.
  intros Hinc ps i Ht Hi. exists p'. split; [apply left_behind_refl|].
  destruct (increased_market _ _ _ _ _ _ Hinc) as (pool & receiver & _ & _ & _ & Hm).
  destruct (increased_kind _ _ _ _ _ _ Hinc) as (Hl & Hc & _).
  eapply tracks_update; [exact Ht|exact Hi|exact Hm|]. intros k b Hk.
  rewrite contribution_diff by done. unfold change_plus at 1 2 3.
  rewrite !change_at_other; [lia|by intros ->..].
Qed.

End Steps.

(** ** The runs *)
Section Runs.
Context {F : FixedPointOps u128} {FOk : FixedPointOk F}.
Context {B : Type} `{BitmapLaws TokenConfig.MAX_FLAGS B}.
Context (now slot : Z) (oracle : Oracle.Oracle) (Hgood : GoodPrices oracle) (order : Order).
Implicit Types (m : Market Pool LiquiditySupply) (mk : SwapMarket LiquiditySupply)
  (s : SwapMarkets LiquiditySupply) (r : Run) (p : Position) (ps : list Position).

(** The order amounts are unsigned. *)
Definition order_unsigned : Prop :=
  0 <= initial_collateral_delta_amount (order_params order) /\ 0 <= size_delta_value (order_params order).

Lemma on_markets_ok {A} (m : EM A) r r' a :
  on_markets m r = (r', Ok a) -> exists s', m (run_markets r) = (s', Ok a) /\ r' = put_run_markets s' r.
Proof. apply szoom_ok. Qed.

Lemma on_transfer_ok f r r' u :
  on_transfer f r = (r', Ok u) -> exists t, f (run_transfer r) = Ok t /\ r' = put_run_transfer t r.
Proof. intros Hr. apply szoom_ok in Hr as (t & Ht%supdate_ok & ->). eauto. Qed.

Lemma on_run_position_ok {A} l c (m : Position.PM Pool LiquiditySupply A) r r' a :
  on_run_position l c m r = (r', Ok a) ->
  exists q, m (run_position l c r) = (q, Ok a) /\ r' = put_run_position q r.
Proof.
  unfold on_run_position. destruct (m (run_position l c r)) as [q res]. intros [= <- Hres].
  apply model_result_ok in Hres as ->. eauto.
Qed.

(** A part of a run that does not touch the position. *)
Record RunQuiet r r' : Prop := {
  quiet_executed : exists dh, Executed (run_markets r) nothing dh (run_markets r');
  quiet_kept : SwapKept (run_markets r) (run_markets r');
  quiet_state : run_state r' = run_state r;
}.

Lemma quiet_markets_wf r r' : RunQuiet r r' -> MarketsWf (run_markets r').
Proof. intros [[dh He] _ _]. apply (ex_wf _ _ _ _ He). Qed.

Lemma quiet_refl r : MarketsWf (run_markets r) -> RunQuiet r r.
Proof.
  intros Hwf. split; [|apply swap_kept_refl|done]. exists nothing. apply (executed_path oracle Hgood). exists ∅.
  by apply path_moved_refl.
Qed.

Lemma quiet_trans r r1 r2 : RunQuiet r r1 -> RunQuiet r1 r2 -> RunQuiet r r2.
Proof.
  intros [[dh He] Hk Hs] [[dh' He'] Hk' Hs']. split; [|by eapply swap_kept_trans|congruence].
  eexists. eapply executed_eq; [by eapply executed_trans|done|done].
Qed.

(** The markets have not changed. *)
Lemma quiet_same r r' :
  MarketsWf (run_markets r) -> run_markets r' = run_markets r -> run_state r' = run_state r -> RunQuiet r r'.
Proof. intros Hwf Hm Hs. destruct (quiet_refl r Hwf) as [? ? ?]. split; rewrite ?Hm, ?Hs; done. Qed.

Lemma quiet_transfer f r r' u : MarketsWf (run_markets r) -> on_transfer f r = (r', Ok u) -> RunQuiet r r'.
Proof. intros Hwf Hr. apply on_transfer_ok in Hr as (t & _ & ->). by apply quiet_same. Qed.

Lemma quiet_swap direction params outs ins amounts r r' out :
  MarketsWf (run_markets r) ->
  on_markets (revertible_swap direction oracle params outs ins amounts) r = (r', Ok out) ->
  RunQuiet r r' /\ solvent (current_market (run_markets r')) /\ run_transfer r' = run_transfer r.
Proof.
  intros Hwf Hr. apply on_markets_ok in Hr as (s' & Hr & ->).
  pose proof Hr as Hk. apply p_revertible_swap in Hk as [_ Hk]; [|done..].
  apply revertible_swap_executed in Hr as (He & Hsol & _); [|done..]. split; [|done].
  split; [by eexists|exact Hk|done].
Qed.

Lemma quiet_pre_execute prices r r' u :
  MarketsWf (run_markets r) -> on_markets (on_current (pre_execute prices)) r = (r', Ok u) -> RunQuiet r r'.
Proof.
  intros Hwf Hr. apply on_markets_ok in Hr as (s' & Hr & ->).
  pose proof Hr as Hk. apply (p_current _ (s_pre_execute prices)) in Hk as [_ Hk]; [|done].
  apply (executed_moved oracle Hgood _ _ _ _ nothing nothing) in Hr as [He _]; [|done|].
  - split; [by eexists|exact Hk|done].
  - intros mk' Hm. apply pre_execute_ok in Hm; [done|apply Hwf].
Qed.

(** The current market of a part of a run. *)
Definition run_market r : SwapMarket LiquiditySupply := current_market (run_markets r).
Definition position_at l c r : Position := ps_position (run_position l c r).

Lemma quiet_pure r r' : MarketsWf (run_markets r) -> RunQuiet r r' -> sm_is_pure (run_market r') = sm_is_pure (run_market r).
Proof.
  intros [Hwf _] [[dh He] _ _]. destruct (ex_wf _ _ _ _ He) as [Hwf' _].
  unfold run_market. by rewrite (sm_wf_pure _ Hwf), (sm_wf_pure _ Hwf'), (ex_meta _ _ _ _ He).
Qed.

Lemma quiet_position l c r r' : MarketsWf (run_markets r) -> RunQuiet r r' -> position_at l c r' = position_at l c r.
Proof.
  intros Hwf Hq. pose proof (quiet_pure _ _ Hwf Hq) as Hp. destruct Hq as [_ _ Hs]. unfold position_at, run_position, run_market in *.
  cbn [ps_position]. by rewrite Hs, Hp.
Qed.

Definition borrowing_impure mk : Prop := pool_pure (pool_of (sm_market mk) BorrowingFactor) = false.

(** A run that executes an action on the position. *)
Record PositionRun l c r r' : Prop := {
  prun_executed : exists dh, Executed (run_markets r) nothing dh (run_markets r');
  prun_others k mk' : markets (run_markets r') !! k = Some mk' ->
    exists mk, markets (run_markets r) !! k = Some mk /\ LedgerKept (sm_market mk) (sm_market mk');
  prun_step : LedgerStep (position_at l c r) (sm_market (run_market r))
                (position_at l c r') (sm_market (run_market r'));
  prun_wf : PositionWf (position_at l c r');
}.

Lemma prun_after l c r r1 r2 :
  MarketsWf (run_markets r) -> RunQuiet r r1 -> PositionRun l c r1 r2 -> PositionRun l c r r2.
Proof.
  intros Hwf Hq [[dh He] Ho Hs Hp]. pose proof (quiet_position l c _ _ Hwf Hq) as Hpos.
  destruct Hq as [[dh' He'] [Kc Ko] _]. split.
  - eexists. eapply executed_eq; [by eapply executed_trans|done|done].
  - intros k mk' Hk. apply Ho in Hk as (mk1 & Hk & K1). apply Ko in Hk as (mk0 & Hk & K0).
    exists mk0. split; [done|by eapply ledger_kept_trans].
  - rewrite <- Hpos. eapply ledger_step_kept; [exact Kc|exact Hs|done].
  - done.
Qed.

Lemma prun_before l c r r1 r2 : PositionRun l c r r1 -> RunQuiet r1 r2 -> PositionRun l c r r2.
Proof.
  intros [[dh He] Ho Hs Hp] Hq. pose proof (ex_wf _ _ _ _ He) as Hwf1.
  pose proof (quiet_position l c _ _ Hwf1 Hq) as Hpos. destruct Hq as [[dh' He'] [Kc Ko] _]. split.
  - eexists. eapply executed_eq; [by eapply executed_trans|done|done].
  - intros k mk' Hk. apply Ko in Hk as (mk1 & Hk & K1). apply Ho in Hk as (mk0 & Hk & K0).
    exists mk0. split; [done|by eapply ledger_kept_trans].
  - rewrite Hpos. eapply ledger_step_kept; [done|exact Hs|exact Kc].
  - by rewrite Hpos.
Qed.

Lemma prun_markets_wf l c r r' : PositionRun l c r r' -> MarketsWf (run_markets r').
Proof. intros [[dh He] _ _ _]. apply (ex_wf _ _ _ _ He). Qed.

(** The action: the market and the position of the result are those of the model. *)
Lemma action_run l c ch r m' p' :
  MarketsWf (run_markets r) ->
  Moved (sm_market (run_market r)) ch m' -> same_kind (position_at l c r) p' -> PositionWf p' ->
  LedgerStep (position_at l c r) (sm_market (run_market r)) p' m' ->
  let r' := put_run_position (mkPState m' p') r in
  PositionRun l c r r' /\ position_at l c r' = p' /\ sm_market (run_market r') = m'.
Proof.
  intros Hwf Hm (Hl & Hc & Hsame) Hp Hs r'.
  assert (position_at l c r' = p') as Hp'.
  { unfold position_at, run_position. cbn [ps_position]. unfold r', put_run_position. cbn.
    apply as_position_with; [by rewrite Hl|by rewrite Hc|by rewrite Hsame]. }
  split; [|split; [exact Hp'|done]]. split.
  - eexists. by apply with_model_executed.
  - intros k mk' Hk. exists mk'. done.
  - rewrite Hp'. exact Hs.
  - by rewrite Hp'.
Qed.

(** The trade id. *)
Lemma on_trade_run set l c r r' u :
  MarketsWf (run_markets r) -> set = set_increased \/ set = set_decreased ->
  on_trade now slot set r = (r', Ok u) ->
  exists id mk', run_markets r' = mkSwapMarkets (markets (run_markets r)) mk'
    /\ sm_market mk' = sm_market (run_market r) /\ sm_view mk' = sm_view (run_market r)
    /\ SmMoved (run_market r) nothing nothing mk'
    /\ run_state r' = set now slot id (run_state r) /\ position_at l c r' = position_at l c r
    /\ id = plain_trade_count (sm_plain (run_market r)) + 1 /\ run_transfer r' = run_transfer r.
Proof.
  intros [Hwf _] Hset Hr. unfold on_trade in Hr. apply sbind_ok in Hr as (r1 & id & H1 & Hr%smodify_ok).
  apply on_markets_ok in H1 as (s' & H1 & ->). apply szoom_ok in H1 as (mk' & H1 & ->).
  apply on_plain_ok in H1 as (plain & H1 & ->). unfold plain_trade_id in H1.
  apply sbind_ok in H1 as (? & n & [-> Hn%ok_or_ok%uadd_some]%slift_ok & H1).
  apply sbind_ok in H1 as (? & ? & ->%smodify_ok & [-> ->]%sret_ok). destruct Hn as [-> _].
  eexists _, _. rewrite Hr. split_and!; try done.
  - eapply StoredMarket.sm_moved_same; [by apply sm_moved_refl|apply StoredMarket.same_tokens_refl|done].
  - unfold position_at, run_position. cbn. by apply as_position_trade.
Qed.

(** A trade id does not change what the position and the markets hold. *)
Lemma prun_trade set l c r r1 r2 u :
  PositionRun l c r r1 -> set = set_increased \/ set = set_decreased -> on_trade now slot set r1 = (r2, Ok u) ->
  PositionRun l c r r2 /\ run_transfer r2 = run_transfer r1
  /\ sm_market (run_market r2) = sm_market (run_market r1)
  /\ exists st, run_state r2 = set now slot (plain_trade_count (sm_plain (run_market r1)) + 1) st.
Proof.
  intros HP Hset Hr. pose proof (prun_markets_wf _ _ _ _ HP) as W. destruct HP as [[dh He] Ho Hs Hp].
  apply (on_trade_run _ l c) in Hr as (id & mk' & Hmk & Hsm & Hview & Hmv & Hst & Hpos & Hid & HT); [|done..].
  assert (run_market r2 = mk') as Hcur by (unfold run_market; by rewrite Hmk).
  split_and!; [|done|by rewrite Hcur|by eexists; rewrite Hst, Hid]. split.
  - eexists. rewrite Hmk. eapply executed_eq; [eapply executed_trans; [exact He|by apply executed_same_current]|done|done].
  - intros k mk. rewrite Hmk. apply Ho.
  - by rewrite Hpos, Hcur, Hsm.
  - by rewrite Hpos.
Qed.

(** *** An increase *)

Lemma order_token_ok t e r r' tok :
  order_token order t e r = (r', Ok tok) -> r' = r /\ token (t (order_tokens order)) = Some tok.
Proof. intros [-> Ht%ok_or_ok]%slift_ok. done. Qed.

Lemma validate_current_ok long short r r' u :
  validate_current long short r = (r', Ok u) ->
  r' = r /\ validate_market_balances (sm_view (run_market r)) long short = Ok tt.
Proof.
  intros Hr. apply on_markets_ok in Hr as (s' & Hr & ->). apply szoom_ok in Hr as (mk & [-> Hv]%sm_validate_ok & ->).
  split; [|done]. unfold put_run_markets. by destruct r as [? [] ? ?].
Qed.

Lemma increase_position_ok l c collateral prices r r' paid :
  MarketsWf (run_markets r) -> order_unsigned -> PositionWf (position_at l c r) ->
  borrowing_impure (run_market r) ->
  execute_increase_position now slot oracle order l c collateral prices r = (r', Ok paid) ->
  PositionRun l c r r'
  /\ exists long_amount short_amount,
       transfer_out_funding_amounts long_amount short_amount (run_transfer r) = Ok (run_transfer r')
       /\ @in_u u64 long_amount /\ @in_u u64 short_amount
       /\ validate_market_balances (sm_view (run_market r')) long_amount short_amount = Ok tt.
Proof.
  intros Hwf [_ Hsize] Hp Himp Hr. unfold execute_increase_position in Hr.
  apply sbind_ok in Hr as (? & token_in & [-> _]%order_token_ok & Hr).
  apply sbind_ok in Hr as (r1 & out & (Q1 & _ & T1)%quiet_swap & Hr); [|done].
  pose proof (quiet_markets_wf _ _ Q1) as W1.
  apply sbind_ok in Hr as (? & [] & [-> _]%slift_ok & Hr).
  apply sbind_ok in Hr as (? & action & [-> Hact%model_result_ok]%slift_ok & Hr).
  assert (0 <= increase_size_delta_usd action) as Hsz.
  { unfold increase_position_try_new in Hact. case_if_in Hact E; [done|]. by injection Hact as <-. }
  apply sbind_ok in Hr as (r2 & report & H2 & Hr). apply on_run_position_ok in H2 as ([m' p'] & H2 & ->).
  apply execute_increase_ok in H2 as (Hinc & _); [|apply W1|by rewrite <- (quiet_position l c _ _ Hwf Q1) in Hp|done|].
  2:{ destruct (quiet_kept _ _ Q1) as [[_ Hpure _] _]. exact (eq_trans (Hpure BorrowingFactor) Himp). }
  pose proof Hinc as Hstep. apply increased_ledger_step in Hstep.
  destruct (increased_market _ _ _ _ _ _ Hinc) as (pool & receiver & _ & _ & _ & Hm).
  destruct (action_run l c _ r1 m' p' W1 Hm (increased_kind _ _ _ _ _ _ Hinc) (increased_wf _ _ _ _ _ _ Hinc) Hstep)
    as (P2 & _ & _).
  apply (prun_after l c _ _ _ Hwf Q1) in P2.
  set (r2 := put_run_position (mkPState m' p') r1) in *.
  apply sbind_ok in Hr as (r3 & u3 & H3 & Hr).
  apply (prun_trade _ l c r) in H3 as (P3 & T3 & _); [|done|by left].
  pose proof (prun_markets_wf _ _ _ _ P3) as W3.
  apply sbind_ok in Hr as (r4 & u4 & H4 & Hr). pose proof H4 as Q4. apply quiet_transfer in Q4; [|done].
  apply on_transfer_ok in H4 as (t & Ht & ->).
  apply sbind_ok in Hr as (? & la & [-> [-> Hla]%to_token_amount_ok]%slift_ok & Hr).
  apply sbind_ok in Hr as (? & sa & [-> [-> Hsa]%to_token_amount_ok]%slift_ok & Hr).
  apply sbind_ok in Hr as (? & [] & [-> Hv]%validate_current_ok & [-> _]%sret_ok).
  split; [eapply prun_before; [exact P3|exact Q4]|]. eexists _, _. split_and!; [|exact Hla|exact Hsa|exact Hv].
  rewrite <- T1. change (run_transfer r1) with (run_transfer r2). rewrite <- T3. exact Ht.
Qed.

(** *** A decrease *)

Definition is_liquidation (ty : option SecondaryOrderType) : bool :=
  match ty with Some SecondaryLiquidation => true | _ => false end.

(** What auto-deleveraging has checked: the factor was exceeded, it is lower now, and not too low. *)
Definition Deleveraged prices (is_long : bool) m m' : Prop :=
  exists exceeded after min_factor,
    pnl_factor_exceeded m prices ForAdl is_long = Ok (Some exceeded)
    /\ pnl_factor m' prices is_long true = Ok after
    /\ to_signed (pnl_factor_config (m_config m') MinAfterAdl is_long) = Ok min_factor
    /\ min_factor <= after < exceeded_pnl_factor exceeded.

(** The decrease of the model that an order runs. *)
Record ModelDecrease l c prices (insolvent : bool) ty r r' (rep : DecreasePositionReport) : Prop := {
  md_action : exists action swap_type,
    decrease_position_try_new (position_at l c r) prices (size_delta_value (order_params order))
      (Some (acceptable_price (order_params order))) (initial_collateral_delta_amount (order_params order))
      (mkDecreasePositionFlags insolvent (is_liquidation ty)
         (match kind (order_params order) with Ok (LimitDecrease | StopLossDecrease) => true | _ => false end))
      = Ok action
    /\ execute_decrease (set_swap action swap_type) (mkPState (sm_market (run_market r)) (position_at l c r))
       = (mkPState (sm_market (run_market r')) (position_at l c r'), Ok rep);
  md_whole : is_liquidation ty = true ->
    size_in_usd (position_at l c r) <= size_delta_value (order_params order) /\ should_remove rep = true;
  md_liquidatable : is_liquidation ty = true -> exists reason,
    check_liquidatable (sm_market (run_market r)) (position_at l c r) prices true = Ok (Some reason);
  md_removed : should_remove rep = true -> is_empty (position_at l c r') = true;
  md_adl : ty = Some SecondaryAutoDeleveraging -> exists sd, side (order_params order) = Ok sd
    /\ Deleveraged prices (side_is_long sd) (sm_market (run_market r)) (sm_market (run_market r'));
}.

Lemma adl_required_ok prices r r' x :
  adl_required order prices r = (r', Ok x) ->
  r' = r /\ exists sd exceeded, side (order_params order) = Ok sd
    /\ pnl_factor_exceeded (sm_market (run_market r)) prices ForAdl (side_is_long sd) = Ok (Some exceeded)
    /\ x = exceeded_pnl_factor exceeded.
Proof.
  intros Hr. apply sbind_ok in Hr as (? & sd & [-> Hs]%slift_ok & Hr).
  apply sbind_ok in Hr as (? & e & [-> He%model_result_ok]%sread_ok & [-> Hx%ok_or_ok]%slift_ok).
  split; [done|]. destruct e as [e|]; [|done]. injection Hx as <-. eauto.
Qed.

Lemma adl_valid_ok prices before r r' u :
  adl_valid order prices before r = (r', Ok u) ->
  r' = r /\ exists sd after min_factor, side (order_params order) = Ok sd
    /\ pnl_factor (sm_market (run_market r)) prices (side_is_long sd) true = Ok after
    /\ to_signed (pnl_factor_config (m_config (sm_market (run_market r))) MinAfterAdl (side_is_long sd)) = Ok min_factor
    /\ min_factor <= after < before.
Proof.
  intros Hr. apply sbind_ok in Hr as (? & sd & [-> Hs]%slift_ok & Hr).
  apply sbind_ok in Hr as (? & after & [-> Ha%model_result_ok]%sread_ok & Hr).
  apply sbind_ok in Hr as (? & [] & [-> Hlt%require_ok]%slift_ok & Hr).
  apply sbind_ok in Hr as (? & mf & [-> Hm%model_result_ok]%sread_ok & [-> Hge%require_gte_ok]%slift_ok).
  split; [done|]. exists sd, after, mf. split_and!; try done. lia.
Qed.

Lemma decrease_action p prices size acceptable withdraw flags action :
  decrease_position_try_new p prices size acceptable withdraw flags = Ok action ->
  decrease_prices (decrease_params action) = prices
  /\ is_liquidation_order (decrease_flags (decrease_params action)) = is_liquidation_order flags.
Proof.
  intros Hact. unfold decrease_position_try_new in Hact. case_if_in Hact E1; [done|]. case_if_in Hact E2; [done|].
  apply rbind_ok in Hact as ([f' ?] & Hf & [= <-]). split; [done|]. unfold flags_init in Hf.
  repeat case_match; try done; by injection Hf as <- _.
Qed.

Lemma whole_action p prices size acceptable withdraw flags action :
  PositionWf p -> 0 <= size -> 0 <= withdraw ->
  decrease_position_try_new p prices size acceptable withdraw flags = Ok action ->
  size_in_usd p <= size -> decrease_size_delta_usd action = size_in_usd p.
Proof.
  intros Hp Hs Hw Hr Hle. apply decrease_try_new_ok in Hr as (_ & _ & Hcap & Hexact); [|done..].
  destruct (Z.lt_ge_cases (size_in_usd p) size); [by apply Hcap|]. rewrite Hexact by lia. lia.
Qed.

Lemma decrease_with_checks_ok l c prices insolvent ty r r' rep :
  MarketsWf (run_markets r) -> order_unsigned -> PositionWf (position_at l c r) ->
  @prices_in_range u128 prices -> prices_ordered prices ->
  decrease_with_checks now slot order l c prices insolvent ty r = (r', Ok rep) ->
  PositionRun l c r r' /\ run_transfer r' = run_transfer r
  /\ ModelDecrease l c prices insolvent ty r r' rep
  /\ exists st, run_state r' = set_decreased now slot (plain_trade_count (sm_plain (run_market r)) + 1) st.
Proof.
  intros Hwf [Hcoll Hsize] Hp Hrange Hord Hr. unfold decrease_with_checks in Hr.
  apply sbind_ok in Hr as (? & swap_type & [-> _]%slift_ok & Hr).
  apply sbind_ok in Hr as (? & k & [-> Hk]%slift_ok & Hr).
  apply sbind_ok in Hr as (? & ? & Hwhole & Hr).
  match type of Hwhole with _ = (?rr, _) => assert (rr = r /\ (is_liquidation ty = true ->
    size_in_usd (position_at l c r) <= size_delta_value (order_params order))) as [-> Hw] end.
  { destruct ty as [[]|]; simpl in *;
      [apply sread_ok in Hwhole as [-> Hge%require_gte_ok]; done|apply sret_ok in Hwhole as [-> _]; done..]. }
  apply sbind_ok in Hr as (? & before & Hbefore & Hr).
  match type of Hbefore with _ = (?rr, _) => assert (rr = r /\ (ty = Some SecondaryAutoDeleveraging ->
    exists sd e, side (order_params order) = Ok sd /\ before = Some (exceeded_pnl_factor e)
    /\ pnl_factor_exceeded (sm_market (run_market r)) prices ForAdl (side_is_long sd) = Ok (Some e))) as [-> Hb] end.
  { destruct ty as [[]|]; simpl in *; [apply sret_ok in Hbefore as [-> _]; done| |apply sret_ok in Hbefore as [-> _]; done].
    apply sbind_ok in Hbefore as (? & y & (-> & sd & e & Hs & He & ->)%adl_required_ok & [-> ->]%sret_ok).
    split; [done|]. intros _. eauto. }
  apply sbind_ok in Hr as (? & action & [-> Hact%model_result_ok]%sread_ok & Hr).
  pose proof Hact as Htry. apply decrease_try_new_ok in Htry as (Hself & _); [|done..].
  destruct (decrease_action _ _ _ _ _ _ _ Hact) as [Hprices Hflags].
  apply sbind_ok in Hr as (r2 & rep' & H2 & Hr). apply on_run_position_ok in H2 as ([m' p'] & H2 & ->).
  pose proof H2 as Hd. apply execute_decrease_ok in Hd; [|apply Hwf|done|by apply set_swap_wf|by simpl; rewrite Hprices..].
  destruct (decreased_market _ _ _ _ _ _ Hd) as (ch & funding & fees & factor & _ & _ & _ & Hm & _ & _).
  destruct (action_run l c _ r m' p' Hwf Hm (decreased_kind _ _ _ _ _ _ Hd) (decreased_wf _ _ _ _ _ _ Hp Hd)
    (decreased_ledger_step _ _ _ _ _ _ Hd)) as (P2 & Hpos & Hmk).
  set (r2 := put_run_position (mkPState m' p') r) in *.
  apply sbind_ok in Hr as (r3 & u3 & H3 & Hr). pose proof H3 as Hpos3.
  apply (on_trade_run _ l c) in Hpos3 as (? & ? & _ & _ & _ & _ & _ & Hpos3 & _); [|by eapply prun_markets_wf|by right].
  apply (prun_trade _ l c r) in H3 as (P3 & T3 & Hmk3 & Hst); [|done|by right].
  apply sbind_ok in Hr as (? & [] & Hadl & [-> ->]%sret_ok).
  match type of Hadl with _ = (?rr, _) => assert (rr = r3 /\ (ty = Some SecondaryAutoDeleveraging ->
    exists sd, side (order_params order) = Ok sd /\
    Deleveraged prices (side_is_long sd) (sm_market (run_market r)) (sm_market (run_market r3)))) as [-> Ha] end.
  { destruct before as [b|].
    - apply adl_valid_ok in Hadl as (-> & sd & after & mf & Hs & Hafter & Hmf & Hle). split; [done|].
      intros Hty. destruct (Hb Hty) as (sd' & e & Hs' & [= ->] & He). assert (sd' = sd) as -> by congruence.
      exists sd. split; [done|]. exists e, after, mf. done.
    - apply sret_ok in Hadl as [-> _]. split; [done|]. intros Hty. by destruct (Hb Hty) as (? & ? & _ & ? & _). }
  split_and!; [done|by rewrite T3| |exact Hst]. split; [| | | |done].
  - exists action, swap_type. rewrite Hk. split; [exact Hact|]. rewrite Hmk3, Hmk, Hpos3, Hpos. exact H2.
  - intros Hliq. split; [by apply Hw|]. apply (decreased_removed _ _ _ _ _ _ Hd). left.
    apply (decreased_full _ _ _ _ _ _ Hd). exact (whole_action _ _ _ _ _ _ _ Hp Hsize Hcoll Hact (Hw Hliq)).
  - intros Hliq. rewrite <- Hprices. apply (decreased_liquidatable (set_swap action swap_type) _ _ _ _ Hp) in H2;
      [exact H2|by apply set_swap_wf|]. simpl. by rewrite Hflags.
  - rewrite Hpos3, Hpos. exact (decreased_empty _ _ _ _ _ _ Hd).
Qed.

Lemma run_meta_ok r r' mt : run_meta r = (r', Ok mt) -> r' = r /\ mt = sm_meta (run_market r).
Proof.
  intros Hr. apply on_markets_ok in Hr as (s' & [-> [= <-]]%sread_ok & ->). by destruct r.
Qed.

Lemma swap_outputs_ok rep r r' u :
  MarketsWf (run_markets r) -> swap_outputs oracle order rep r = (r', Ok u) -> RunQuiet r r'.
Proof.
  intros Hwf Hr. unfold swap_outputs in Hr.
  apply sbind_ok in Hr as (? & [] & [-> _]%slift_ok & Hr).
  apply sbind_ok in Hr as (? & o & [-> _]%slift_ok & Hr).
  apply sbind_ok in Hr as (? & so & [-> _]%slift_ok & Hr).
  apply sbind_ok in Hr as (? & mt & [-> _]%run_meta_ok & Hr).
  apply sbind_ok in Hr as (? & tok & [-> _]%order_token_ok & Hr).
  apply sbind_ok in Hr as (? & stok & [-> _]%slift_ok & Hr).
  apply sbind_ok in Hr as (r1 & out & (Q1 & _ & _)%quiet_swap & Hr); [|done].
  pose proof (quiet_markets_wf _ _ Q1) as W1.
  apply sbind_ok in Hr as (? & [] & [-> _]%slift_ok & Hr).
  apply sbind_ok in Hr as (r2 & u2 & H2 & H3). apply quiet_transfer in H2 as Q2; [|done].
  pose proof (quiet_markets_wf _ _ Q2) as W2. apply quiet_transfer in H3 as Q3; [|done].
  eapply quiet_trans; [exact Q1|]. by eapply quiet_trans.
Qed.

(** What leaves the current market is covered. *)
Definition Covers r : Prop := exists long short,
  leaving_amounts order (sm_meta (run_market r)) (run_transfer r) = Ok (long, short)
  /\ validate_market_balances (sm_view (run_market r)) long short = Ok tt.

Lemma decrease_position_ok l c prices insolvent ty r r' remove paid :
  MarketsWf (run_markets r) -> order_unsigned -> PositionWf (position_at l c r) ->
  @prices_in_range u128 prices -> prices_ordered prices ->
  execute_decrease_position now slot oracle order l c prices insolvent ty r = (r', Ok (remove, paid)) ->
  PositionRun l c r r' /\ Covers r'
  /\ exists r1 rep, ModelDecrease l c prices insolvent ty r r1 rep /\ should_remove rep = remove
       /\ position_at l c r' = position_at l c r1.
Proof.
  intros Hwf Hun Hp Hrange Hord Hr. unfold execute_decrease_position in Hr.
  apply sbind_ok in Hr as (r1 & rep & H1 & Hr).
  apply (decrease_with_checks_ok l c) in H1 as (P1 & _ & Hmd & _); [|done..].
  pose proof (prun_markets_wf _ _ _ _ P1) as W1.
  apply sbind_ok in Hr as (r2 & u2 & H2 & Hr). apply swap_outputs_ok in H2 as Q2; [|done].
  pose proof (quiet_markets_wf _ _ Q2) as W2.
  apply sbind_ok in Hr as (r3 & u3 & H3 & Hr). apply quiet_transfer in H3 as Q3; [|done].
  pose proof (quiet_markets_wf _ _ Q3) as W3.
  apply sbind_ok in Hr as (r4 & u4 & H4 & Hr). apply quiet_transfer in H4 as Q4; [|done].
  apply sbind_ok in Hr as (? & mt & [-> ->]%run_meta_ok & Hr).
  apply sbind_ok in Hr as (? & [long short] & [-> Hl]%sread_ok & Hr).
  apply sbind_ok in Hr as (? & [] & [-> Hv]%validate_current_ok & [-> [= -> ->]]%sret_ok).
  pose proof (quiet_trans _ _ _ Q2 (quiet_trans _ _ _ Q3 Q4)) as Q.
  split_and!; [eapply prun_before; [exact P1|exact Q]|by exists long, short|].
  exists r1, rep. split_and!; [done|done|by apply quiet_position].
Qed.

(** *** The three orders *)

Lemma checked_ok check r r' u :
  checked order check r = (r', Ok u) ->
  check = Ok tt /\ run_markets r' = run_markets r /\ run_state r' = run_state r /\ run_transfer r' = run_transfer r.
Proof.
  intros Hr. apply sbind_ok in Hr as (? & ? & ->%smodify_ok & [-> Hc]%slift_ok). by destruct u.
Qed.

Lemma execute_swap_ok r r' u :
  MarketsWf (run_markets r) -> execute_swap oracle order r = (r', Ok u) ->
  RunQuiet r r' /\ solvent (run_market r')
  /\ exists out, min_output (order_params order) <= out
       /\ transfer_out false out (run_transfer r) = Ok (run_transfer r').
Proof.
  intros Hwf Hr. unfold execute_swap in Hr.
  apply sbind_ok in Hr as (? & tok & [-> _]%order_token_ok & Hr).
  apply sbind_ok in Hr as (? & tin & [-> _]%order_token_ok & Hr).
  apply sbind_ok in Hr as (r1 & out & (Q1 & Hsol & HT1)%quiet_swap & Hr); [|done].
  apply sbind_ok in Hr as (r2 & [] & (Hmin%require_gte_ok & HM2 & HS2 & HT2)%checked_ok & Hr).
  pose proof (quiet_same r1 r2 (quiet_markets_wf _ _ Q1) HM2 HS2) as Q2.
  pose proof Hr as Q3. apply quiet_transfer in Q3; [|by apply (quiet_markets_wf _ _ Q2)].
  apply on_transfer_ok in Hr as (t & Ht & ->). split_and!.
  - eapply quiet_trans; [exact Q1|]. by eapply quiet_trans.
  - unfold run_market. cbn. by rewrite HM2.
  - exists (fst out). split; [done|]. by rewrite <- HT1, <- HT2.
Qed.

Definition StateWf (st : PositionState) : Prop := PositionWf (as_position true true true st).

Lemma state_wf l c pure st : StateWf st -> PositionWf (as_position l c pure st).
Proof. intros [? ? ? ?]. by split. Qed.

(** The funding amounts that an increase pays are covered too. *)
Definition CoversFunding r : Prop := exists long short,
  transfer_out_funding_amounts long short transfer_out_default = Ok (run_transfer r)
  /\ @in_u u64 long /\ @in_u u64 short
  /\ validate_market_balances (sm_view (run_market r)) long short = Ok tt.

(** An order that runs on a position: on the side and the collateral of the position, in its market.
    [r0] is the run when the position is loaded. *)
Record PositionOrder k (position : PositionAccount) prices l c r r' (remove : bool) : Prop := {
  po_side : try_is_long position = Ok l;
  po_collateral : to_token_side (sm_meta (run_market r)) (position_collateral_token position) = Ok c;
  po_market : position_market_token position = market_token_mint (sm_meta (run_market r));
  po_run : PositionRun l c (put_run_state (position_state position) r) r';
  po_trade : validate_trade (is_increase_position k) (position_state position) (run_state r') = Ok tt;
  po_increase : is_increase_position k = true -> remove = false /\ CoversFunding r';
  po_decrease : is_increase_position k = false -> Covers r' /\ exists r1 rep,
    ModelDecrease l c prices (fst (decrease_kind k)) (snd (decrease_kind k))
      (put_run_state (position_state position) r) r1 rep
    /\ should_remove rep = remove /\ position_at l c r' = position_at l c r1;
}.

Lemma position_order_ok {B'} {BO : BitmapOps StoredMarket.MAX_FLAGS B'} k market position event_store prices r r'
    remove paid :
  MarketsWf (run_markets r) -> order_unsigned -> borrowing_impure (run_market r) ->
  run_transfer r = transfer_out_default ->
  (forall pa, position = Some pa -> StateWf (position_state pa)) ->
  @prices_in_range u128 prices -> prices_ordered prices ->
  run_position_order now slot oracle order (BO := BO) k market position event_store prices r
    = (r', Ok (remove, paid)) ->
  exists pa l c, position = Some pa /\ PositionOrder k pa prices l c r r' remove.
Proof.
  intros Hwf Hun Himp HT Hst Hrange Hord Hr. unfold run_position_order in Hr.
  apply sbind_ok in Hr as (? & p & [-> Hp%ok_or_ok]%slift_ok & Hr).
  apply sbind_ok in Hr as (? & es & [-> _]%slift_ok & Hr).
  apply sbind_ok in Hr as (? & mt & [-> ->]%run_meta_ok & Hr).
  apply sbind_ok in Hr as (? & c & [-> Hc%model_result_ok]%slift_ok & Hr).
  apply sbind_ok in Hr as (? & l & [-> Hl]%slift_ok & Hr).
  apply sbind_ok in Hr as (? & [] & [-> _]%slift_ok & Hr).
  apply sbind_ok in Hr as (? & [] & [-> Hm%require_ok%Z.eqb_eq]%slift_ok & Hr).
  apply sbind_ok in Hr as (? & [] & [-> _]%slift_ok & Hr).
  apply sbind_ok in Hr as (r0 & ? & Hr0%smodify_ok & Hr).
  apply sbind_ok in Hr as (r1 & res & Hex & Hr).
  apply sbind_ok in Hr as (? & [] & [-> Htr]%sread_ok & [-> <-]%sret_ok).
  exists p, l, c. split; [done|]. pose proof (state_wf l c (sm_is_pure (run_market r)) _ (Hst _ Hp)) as Hpwf.
  assert (run_transfer r0 = transfer_out_default /\ MarketsWf (run_markets r0)
    /\ borrowing_impure (run_market r0) /\ PositionWf (position_at l c r0)) as (HT0 & W0 & I0 & P0) by (by rewrite Hr0).
  unfold execute_position in Hex. destruct (is_increase_position k) eqn:Hk.
  - apply sbind_ok in Hex as (r2 & paid' & Hi & [-> [= -> ->]]%sret_ok).
    apply (increase_position_ok l c) in Hi as (Hrun & la & sa & Hta & Hla & Hsa & Hv); [|done..].
    split; rewrite <- ?Hr0, ?Hk; try done. intros _. split; [done|]. exists la, sa. by rewrite <- HT0.
  - destruct (decrease_kind k) as [insolvent ty] eqn:Hdk.
    apply (decrease_position_ok l c) in Hex as (Hrun & Hcov & Hdec); [|done..].
    split; rewrite <- ?Hr0, ?Hk, ?Hdk; done.
Qed.

(** What runs between opening and committing. *)
Definition OrderRun (position : option PositionAccount) prices r r' (res : option (bool * Z)) : Prop :=
  exists r1 k, kind (order_params order) = Ok k
  /\ (RunQuiet r r1 /\ pre_execute prices (run_market r) = (run_market r1, Ok tt))
  /\ match res with
     | None => is_swap k = true /\ RunQuiet r1 r' /\ solvent (run_market r')
               /\ exists out, min_output (order_params order) <= out
                    /\ transfer_out false out (run_transfer r) = Ok (run_transfer r')
     | Some (remove, paid) => is_swap k = false
               /\ exists pa l c, position = Some pa /\ PositionOrder k pa prices l c r1 r' remove
     end.

Lemma pre_execute_run prices r r' u :
  on_markets (on_current (pre_execute prices)) r = (r', Ok u) ->
  pre_execute prices (run_market r) = (run_market r', Ok tt) /\ run_transfer r' = run_transfer r.
Proof. intros (s' & (mk & Hmk & ->)%szoom_ok & ->)%on_markets_ok. by destruct u. Qed.

Lemma run_order_ok {B'} {BO : BitmapOps StoredMarket.MAX_FLAGS B'} market position event_store prices r r' res :
  MarketsWf (run_markets r) -> order_unsigned -> borrowing_impure (run_market r) ->
  run_transfer r = transfer_out_default ->
  (forall pa, position = Some pa -> StateWf (position_state pa)) ->
  @prices_in_range u128 prices -> prices_ordered prices ->
  run_order now slot oracle order (BO := BO) market position event_store prices r = (r', Ok res) ->
  OrderRun position prices r r' res.
Proof.
  intros Hwf Hun Himp HT Hst Hrange Hord Hr. unfold run_order in Hr.
  apply sbind_ok in Hr as (r1 & u1 & H1 & Hr). pose proof H1 as Q1. apply quiet_pre_execute in Q1; [|done].
  apply pre_execute_run in H1 as [Hpre HT1]. pose proof (quiet_markets_wf _ _ Q1) as W1.
  apply sbind_ok in Hr as (? & k & [-> Hk]%slift_ok & Hr). exists r1, k. split; [done|]. split; [done|].
  destruct (is_swap k) eqn:Hs.
  - apply sbind_ok in Hr as (r2 & u2 & Hx & [-> ->]%sret_ok).
    apply execute_swap_ok in Hx as (Q2 & Hsol & out & Hmin & Ht); [|done]. split_and!; try done.
    exists out. by rewrite <- HT1.
  - apply sbind_ok in Hr as (r2 & [remove paid] & Hx & [-> ->]%sret_ok). split; [done|].
    eapply position_order_ok; [done|done| |by rewrite HT1|done|done|done|exact Hx].
    destruct (quiet_kept _ _ Q1) as [[_ Hpure _] _]. exact (eq_trans (Hpure BorrowingFactor) Himp).
Qed.
End Runs.
End OrderFacts.
