(* ===== verification/OrderSafety.v ===== *)
(** * What the execution of an order does to the accounts

    [OrderFacts] says what a run does to the opened markets; here the accounts are opened, run and
    written back ([execute_order]), and the theorems about orders are stated on the accounts: the
    tokens, what the markets keep of their positions, and the conditions under which an order is
    executed, expires, or is left as it was. *)
From stdpp Require Import gmap.
From S2P Require Import Prelude.
From S2P Require Import Kinds.
From S2P Require Import Num.
From S2P Require Import Fixed.
From S2P Require Import Price.
From S2P Require Import Params.
From S2P Require Import Pool.
From S2P Require Import Market.
From S2P Require Import MarketFacts.
From S2P Require Import Position.
From S2P Require Import Ledger.
From S2P Require Import CollateralProcessor.
From S2P Require Import IncreasePosition.
From S2P Require Import DecreasePosition.
From S2P Require Import Revertible.
From S2P Require Import CoreErrors.
From S2P Require Import MapSum.
From S2P Require Import Flags.
From S2P Require Import Config.
From S2P Require Import Roles.
From S2P Require Import TokenConfig.
From S2P Require Import Oracle.
From S2P Require Import Users.
From S2P Require Import Gt.
From S2P Require Import StoreState.
From S2P Require Import SwapPath.
From S2P Require Import Tokens.
From S2P Require Import MarketAccount.
From S2P Require Import MarketOps.
From S2P Require Import Actions.
From S2P Require Import Exchange.
From S2P Require Import Lifecycle.
From S2P Require Import Orders.
From S2P Require Import OrderOps.
From S2P Require Import OrderFacts.
Import OnChain.
#[local] Open Scope Z_scope.

Module OrderSafety.
Import MarketOps Actions Orders OrderKind OrderOps OrderFacts.
#[local] Existing Instance u128.

(** ** Opening and committing *)
Section Accounts.
Context {F : FixedPointOps u128} {FOk : FixedPointOk F}.
Context {B : Type} `{BitmapLaws TokenConfig.MAX_FLAGS B}.
Context {M : Type} {MO : BitmapOps StoredMarket.MAX_FLAGS M} {ML : BitmapLaws StoredMarket.MAX_FLAGS M}.
Context {C : Type} {CO : BitmapOps StoreConfig.MAX_CONFIG_FLAGS C}.
Context {T : Type} {TP : TokenProgram T} {TL : TokenProgramLaws T}.
Context (this : Pubkey) (now slot : Z) (oracle : Oracle.Oracle) (Hgood : GoodPrices oracle).
Implicit Types (w : StoredMarket.World T) (x : OrderWorld T) (a : ExecuteOrderAccounts)
  (s : SwapMarkets LiquiditySupply) (r : Run) (mk : SwapMarket LiquiditySupply) (pa : PositionAccount).

Lemma opened_map_ok w key remaining discount order m s :
  MarketsOk w -> StoredMarket.world_markets w !! key = Some m ->
  open_order this now discount order m remaining w = Ok s ->
  current s = key /\ MarketsWf s /\ markets s !! current s = None
  /\ (forall k mk, all_markets s !! k = Some mk -> OpenedAt w k mk).
Proof.
  intros Hw Hm Hr. unfold open_order in Hr. destruct (Hw _ _ Hm) as [Hwf Hmint].
  apply rbind_ok in Hr as (mk & Hopen & Hr). apply rbind_ok in Hr as (loaders & Hl & Hr).
  apply rbind_ok in Hr as (ms & Hms & [= <-]). rewrite Hmint in Hl, Hms.
  unfold open_order_market in Hopen. apply rbind_ok in Hopen as (rm & Hnew%model_result_ok & Hopen).
  pose proof (shown_market_ok now discount 0 m rm Hwf ltac:(by vm_compute) Hnew) as (Hmk & _ & Hrec & Hheld & Hpools).
  injection Hopen as Hopen. rewrite Hopen in Hmk, Hrec, Hheld, Hpools.
  assert (opened m mk) as Ho by (by rewrite <- Hopen).
  assert (forall k mk, ms !! k = Some mk -> OpenedAt w k mk /\ Some key <> Some k) as Hall.
  { unfold unpack_markets_for_swap in Hl. apply rbind_ok in Hl as (p1 & _ & Hl).
    apply rbind_ok in Hl as (p2 & _ & Hl). case_if_in Hl E; [done|].
    eapply swap_markets_opened_ok; [done|exact Hl| |exact Hms]. intros k mk' Hk. by rewrite lookup_empty in Hk. }
  assert (current (mkSwapMarkets ms mk) = key) as Hcur.
  { unfold current. cbn [current_market]. destruct Ho as [-> _]. done. }
  split_and!; [done|split; [done|]| |].
  - intros k mk' Hk. apply Hall in Hk as [(m' & _ & _ & ? & _) _]. done.
  - rewrite Hcur. cbn [markets]. destruct (ms !! key) as [mk'|] eqn:E; [|done]. by apply Hall in E as [_ ?].
  - intros k mk'. unfold all_markets. rewrite Hcur. intros [[<- <-]|[_ Hk]]%lookup_insert_Some.
    + by exists m.
    + by apply Hall in Hk as [? _].
Qed.

(** A market with its tracked pools, as it is stored. *)
Definition stored_model (m : StoredMarket.Market) : Market Pool LiquiditySupply := sm_market (StoredMarket.as_swap m).

Lemma ledger_kept_of m m' : (forall k, pool_of m' k = pool_of m k) ->
  LedgerKept (T := LiquiditySupply) m m'.
Proof. intros Hp. split; intros; unfold total_amt, amt; by rewrite Hp. Qed.

Lemma commit_pool mk m k :
  pool_of (stored_model (commit_market (sm_plain mk) m)) k = pool_of (sm_market mk) k.
Proof. unfold pool_of. simpl. by rewrite !pools_get_of. Qed.

(** A committed market, as it was stored, opened, and as it is stored now. *)
Lemma committed_at w w2 s s' k m' :
  Reopened w s s' ->
  StoredMarket.world_markets
    (StoredMarket.put_markets (commit_markets (all_markets s') (StoredMarket.world_markets w)) w2) !! k = Some m' ->
  (StoredMarket.world_markets w !! k = Some m' /\ all_markets s' !! k = None)
  \/ exists m mk mk', StoredMarket.world_markets w !! k = Some m /\ all_markets s !! k = Some mk
       /\ all_markets s' !! k = Some mk' /\ opened m mk /\ opened m mk'
       /\ m' = commit_market (sm_plain mk') m
       /\ (forall i, pool_of (sm_market mk) i = pool_of (stored_model m) i)
       /\ (forall i, pool_of (stored_model m') i = pool_of (sm_market mk') i).
Proof.
  intros Hro Hm'. simpl in Hm'. unfold commit_markets in Hm'. rewrite map_lookup_imap in Hm'.
  destruct (StoredMarket.world_markets w !! k) as [m|] eqn:Hm; [|done]. simpl in Hm'.
  destruct (all_markets s' !! k) as [mk'|] eqn:Hmk'; injection Hm' as <-; [right|by left].
  destruct (reopened_at _ _ _ _ _ Hro Hmk') as (_ & m1 & mk & Hmk & Hm1 & Ho & _ & _ & Hp).
  assert (m1 = m) as -> by congruence. exists m, mk, mk'. split_and!; try done.
  - destruct (ro_opened _ _ _ Hro _ _ Hmk) as (m2 & Hm2 & Ho2 & _). assert (m2 = m) as -> by congruence. done.
  - intros i. unfold pool_of. by rewrite Hp.
Qed.

(** ** The books of the markets *)

(** Every market of the accounts tracks the positions that are listed for it. *)
Definition Books w (ps : gmap Pubkey (list Position)) : Prop := forall k m,
  StoredMarket.world_markets w !! k = Some m -> Tracks (stored_model m) (default [] (ps !! k)).

Lemma all_current s : all_markets s !! current s = Some (current_market s).
Proof. apply lookup_insert_eq. Qed.
Lemma all_others s k : k <> current s -> all_markets s !! k = markets s !! k.
Proof. intros Hne. apply lookup_insert_ne. done. Qed.

(** Committing keeps the books when the current market tracks [l] now, and the others have kept theirs. *)
Lemma books_committed w w2 s s' ps l :
  Reopened w s s' -> current s' = current s -> Books w ps ->
  (forall k mk', markets s' !! k = Some mk' ->
     exists mk, markets s !! k = Some mk /\ LedgerKept (sm_market mk) (sm_market mk')) ->
  (Tracks (sm_market (current_market s)) (default [] (ps !! current s)) ->
     Tracks (sm_market (current_market s')) l) ->
  Books (StoredMarket.put_markets (commit_markets (all_markets s') (StoredMarket.world_markets w)) w2)
    (<[current s := l]> ps).
Proof.
  intros Hro Hcur Hb Hothers Hl k m' Hm'.
  apply (committed_at _ _ _ _ _ _ Hro) in Hm' as [[Hm Hno]|(m & mk & mk' & Hm & Hmk & Hmk' & _ & _ & _ & Hp & Hp')].
  - destruct (decide (k = current s)) as [->|Hne]; [by rewrite <- Hcur, all_current in Hno|].
    rewrite lookup_insert_ne by done. by apply Hb.
  - apply (ledger_kept_tracks (sm_market mk')); [by apply ledger_kept_of|]. specialize (Hb _ _ Hm).
    apply (ledger_kept_tracks _ (sm_market mk)) in Hb; [|by apply ledger_kept_of].
    destruct (decide (k = current s)) as [->|Hne].
    + rewrite lookup_insert_eq. rewrite all_current in Hmk. rewrite <- Hcur, all_current in Hmk'.
      injection Hmk as <-. injection Hmk' as <-. by apply Hl.
    + rewrite lookup_insert_ne by done. rewrite all_others in Hmk by done. rewrite all_others in Hmk' by congruence.
      apply Hothers in Hmk' as (mk0 & Hmk0 & Hk). assert (mk0 = mk) as -> by congruence.
      by eapply ledger_kept_tracks.
Qed.

Lemma books_same w ps k : Books w (<[k := default [] (ps !! k)]> ps) -> Books w ps.
Proof.
  intros Hb k' m Hm. specialize (Hb _ _ Hm). destruct (decide (k' = k)) as [->|Hne].
  - by rewrite lookup_insert_eq in Hb.
  - by rewrite lookup_insert_ne in Hb.
Qed.

(** ** A run, with what was loaded *)

Lemma quiet_put_state st r r1 :
  RunQuiet r r1 -> RunQuiet (put_run_state st r) (put_run_state st r1).
Proof. by intros [He Hk _]. Qed.

(** The position of an order, from the state that was loaded. *)
Lemma order_position_run order position prices r r' remove paid :
  MarketsWf (run_markets r) ->
  OrderRun order position prices r r' (Some (remove, paid)) -> exists pa l c, position = Some pa
  /\ try_is_long pa = Ok l
  /\ to_token_side (sm_meta (run_market r)) (position_collateral_token pa) = Ok c
  /\ position_market_token pa = market_token_mint (sm_meta (run_market r))
  /\ PositionRun l c (put_run_state (position_state pa) r) r'
  /\ (remove = true -> is_empty (position_at l c r') = true).
Proof.
  intros Hwf (r1 & k & Hk & [Q _] & _ & pa & l & c & Hpa & [Hl Hc Hm Hrun _ Hinc Hdec]).
  assert (sm_meta (run_market r1) = sm_meta (run_market r)) as Hmeta.
  { destruct Q as [[dh He] _ _]. apply (ex_meta _ _ _ _ He). }
  exists pa, l, c. rewrite <- Hmeta. split_and!; try done.
  - eapply prun_after; [done|by apply quiet_put_state|exact Hrun].
  - destruct (is_increase_position k); [by destruct (Hinc eq_refl) as [-> _]|].
    destruct (Hdec eq_refl) as (_ & r2 & rep & Hmd & <- & ->). apply (md_removed _ _ _ _ _ _ _ _ _ Hmd).
Qed.

(** ** The execution *)

(** The world that is written back. *)
Definition written x (su : Store) r : StoredMarket.World T :=
  StoredMarket.put_store su (StoredMarket.put_markets
    (commit_markets (all_markets (run_markets r)) (StoredMarket.world_markets (ow_world x))) (ow_world x)).

Lemma mint_order_gt_ok enabled paid su user order su' user' order' :
  mint_order_gt now enabled paid su user order = Ok (su', user', order') ->
  order_params order' = order_params order /\ order_header order' = order_header order
  /\ exists gt_state, su' = with_gt gt_state su.
Proof.
  intros Hr. unfold mint_order_gt in Hr. destruct enabled; simpl in Hr.
  - apply rbind_ok in Hr as ([[st u] amount] & _ & [= <- <- <-]). split_and!; [by case_match..|eauto].
  - injection Hr as <- <- <-. split_and!; [done..|]. exists (store_gt su). by destruct su.
Qed.

Lemma commit_order_ok enabled r res x x' remove t send :
  commit_order now enabled r res x = Ok (x', (remove, t, send)) ->
  t = run_transfer r /\ ow_lamports x' = ow_lamports x
  /\ order_params (ow_order x') = order_params (ow_order x)
  /\ order_header (ow_order x') = order_header (ow_order x)
  /\ (exists su gt_state, ow_world x' = written x su r
        /\ su = with_gt gt_state (StoredMarket.world_store (ow_world x)))
  /\ match res with
     | None => remove = false /\ send = false /\ ow_position x' = ow_position x
     | Some (remove', _) => remove = remove' /\ send = true
                            /\ ow_position x' = with_position_state (run_state r) <$> ow_position x
     end.
Proof.
  intros Hr. unfold commit_order in Hr. destruct res as [[remove' paid]|].
  - apply rbind_ok in Hr as ([[su user] order] & Hgt & [= <- <- <- <-]).
    apply mint_order_gt_ok in Hgt as (Hp & Hh & st & ->). split_and!; [done..| |done|done|done].
    eexists _, st. done.
  - injection Hr as <- <- <- <-. split_and!; [done..| |done|done|done].
    exists (with_gt (store_gt (StoredMarket.world_store (ow_world x))) (StoredMarket.world_store (ow_world x))).
    eexists. split; [|done]. unfold written. destruct x as [[su ms bs tk] ? ? ? ?]; simpl. by destruct su.
Qed.

(** An execution that succeeds: the market, what was opened, and how it ran. *)
Record Performed a prices x x' remove t send m s r res : Prop := {
  pf_market : StoredMarket.world_markets (ow_world x) !! xo_market a = Some m;
  pf_valid : StoredMarket.validate (BO := MO) m this = Ok tt;
  pf_nonempty : validate_non_empty_order (ow_order x) = Ok tt;
  pf_trigger : validate_trigger_price (index_token_price prices) (ow_order x) = Ok tt;
  pf_opened : exists discount, open_order this now discount (ow_order x) m (xo_remaining_accounts a) (ow_world x) = Ok s;
  pf_run : exists throw, run_order now slot oracle (ow_order x) (BO := MO) m (ow_position x) (xo_event_store a) prices
             (mkRun throw s zeroed_position_state transfer_out_default) = (r, Ok res);
  pf_commit : commit_order now (StoredMarket.is_gt_minting_enabled (BO := MO) m) r res x
                = Ok (x', (remove, t, send));
}.

Lemma perform_execution_ok a prices discount x throw x' remove t send :
  perform_execution this now slot oracle a prices discount x = (throw, Ok (x', (remove, t, send))) ->
  exists m s r res, Performed a prices x x' remove t send m s r res.
Proof.
  intros Hr. unfold perform_execution in Hr.
  destruct (let! m := find_market_account (xo_market a) (ow_world x) in _) as [m|e|msg] eqn:Em; [|done..].
  apply rbind_ok in Em as (m0 & Hm%ok_or_ok & Em). apply rbind_ok in Em as ([] & Hv & [= ->]).
  destruct (validate_order prices (ow_order x)) as [throw0 valid] eqn:Evalid.
  destruct (let! _ := valid in _) as [s|e|msg] eqn:Es; [|done..].
  apply rbind_ok in Es as ([] & -> & Hopen).
  destruct (run_order _ _ _ _ _ _ _ _ _) as [r res0] eqn:Erun.
  injection Hr as Hr1 Hr. apply rbind_ok in Hr as (res & -> & Hcommit).
  unfold validate_order in Evalid. destruct (validate_non_empty_order (ow_order x)) as [[]| |] eqn:Ene; [|done..].
  injection Evalid as _ Htr. exists m, s, r, res. split; eauto.
Qed.

(** What is checked before an execution. *)
Record Ready a x prices : Prop := {
  rd_from : validate_valid_from_ts now (ow_order x) = Ok tt;
  rd_oracle : validate_oracle_and_adl oracle a x = Ok tt;
  rd_prices : exists m, StoredMarket.world_markets (ow_world x) !! xo_market a = Some m
                /\ oracle_prices oracle (StoredMarket.meta m) = Ok prices;
  rd_discount : exists discount, order_discount x = Ok discount;
}.

Definition no_effect t := executed t = false /\ is_user_output_empty t = true.

(** How an execution ends: the order has expired, it was executed, or its error has cancelled it. *)
Lemma execute_order_ok a x x' remove t send :
  execute_order this now slot oracle a x = (x', Ok (remove, t, send)) ->
  (executed t = false /\ x' = x /\ remove = false /\ xo_throw_on_execution_error a = false
   /\ validate_oracle_and_adl oracle a x = Err (Core CoreError.OracleTimestampsAreLargerThanRequired)
   /\ t = new_failed /\ send = false)
  \/ exists prices x1, Ready a x prices
     /\ (if remove : bool then close_position a x1 = (x', Ok tt) else x' = x1)
     /\ ((executed t = true /\ exists t0 m s r res, t = set_executed true t0 /\ Performed a prices x x1 remove t0 send m s r res)
         \/ (t = transfer_out_default /\ send = false /\ x1 = x /\ xo_throw_on_execution_error a = false
             /\ remove = from_option (fun p => position_state_is_empty (position_state p)) false (ow_position x)
             /\ exists discount e, perform_execution this now slot oracle a prices discount x = (false, Err e))).
Proof.
  intros Hr. unfold execute_order in Hr. apply sbind_ok in Hr as (? & [] & [-> Hfrom]%sread_ok & Hr).
  apply sbind_ok in Hr as (? & valid & [[= <- Hv] _]%stry_ok & Hr). destruct valid as [[]|e|msg]; [| |done].
  - right. unfold execute_valid_order in Hr.
    apply sbind_ok in Hr as (? & prices & [-> Hp]%sread_ok & Hr). apply rbind_ok in Hp as (m & Hm%ok_or_ok & Hp).
    apply sbind_ok in Hr as (? & discount & [-> Hd]%sread_ok & Hr).
    apply sbind_ok in Hr as (x1 & [[remove' t'] send'] & Hatt & Hr).
    apply sbind_ok in Hr as (x2 & [] & Hclose & [-> [= -> -> ->]]%sret_ok). exists prices, x1. split_and!.
    + split; eauto.
    + destruct remove'; [done|]. by apply sret_ok in Hclose as [-> _].
    + unfold attempt_execution in Hatt.
      destruct (perform_execution this now slot oracle a prices discount x) as [throw [[x0 [[rm t0] sd]]|e|msg]] eqn:Eperf.
      * injection Hatt as <- <- <- <-. left. split; [done|].
        apply perform_execution_ok in Eperf as (m' & s & r & res & Hperf). by exists t0, m', s, r, res.
      * destruct (throw || xo_throw_on_execution_error a) eqn:Ethrow; [done|].
        apply orb_false_iff in Ethrow as [-> Hth]. injection Hatt as <- <- <- <-. right.
        split_and!; try done. by exists discount, e.
      * done.
  - left. destruct (is_expired e && negb (xo_throw_on_execution_error a)) eqn:E; [|by apply slift_ok in Hr as [_ ?]].
    apply andb_true_iff in E as [He Hth%negb_true_iff].
    apply sbind_ok in Hr as (? & ts & [-> _]%sread_ok & [-> [= -> -> ->]]%sret_ok). split_and!; try done.
    rewrite Hv. by destruct e as [[]| | |].
Qed.

(** ** What leaves a market *)

(** The tokens of the outcome that leave the current market: none of a swap, the funding of an
    increase, and whatever a decrease pays out of it. *)
Definition Leaves (order : Order) (meta : MarketMeta) t (long short : Z) : Prop :=
  exists k, kind (order_params order) = Ok k /\
  if is_swap k then long = 0 /\ short = 0
  else if is_increase_position k then to_long_token t = long /\ to_short_token t = short
  else leaving_amounts order meta t = Ok (long, short).

(** The market covers what its pools hold and what leaves it. *)
Definition CoversLeaving (order : Order) mk t : Prop := exists long short,
  Leaves order (sm_meta mk) t long short /\ 0 <= long /\ 0 <= short
  /\ validate_market_balances (sm_view mk) long short = Ok tt.


Lemma add_u64_ok u v z : add_u64 u v = Ok z -> z = u + v /\ 0 <= z.
Proof. intros Hz%ok_or_ok%uadd_some. destruct Hz as [-> [? ?]]. done. Qed.

Lemma funding_fields long short t :
  transfer_out_funding_amounts long short transfer_out_default = Ok t ->
  to_long_token t = long /\ to_short_token t = short.
Proof.
  intros Ht. unfold transfer_out_funding_amounts in Ht.
  apply rbind_ok in Ht as (? & [-> Hl]%to_token_amount_ok & Ht). apply rbind_ok in Ht as (t1 & H1 & Ht).
  apply rbind_ok in Ht as (? & [-> Hs]%to_token_amount_ok & H2). unfold transfer_out_collateral in H1, H2.
  cbn in H1. case_if_in H1 E1.
  - injection H1 as <-. apply Z.eqb_eq in E1 as ->. cbn in H2. case_if_in H2 E2.
    + injection H2 as <-. apply Z.eqb_eq in E2 as ->. done.
    + apply rbind_ok in H2 as (z & [-> _]%add_u64_ok & [= <-]). done.
  - apply rbind_ok in H1 as (z & [-> _]%add_u64_ok & [= <-]). cbn in H2. case_if_in H2 E2.
    + injection H2 as <-. apply Z.eqb_eq in E2 as ->. done.
    + apply rbind_ok in H2 as (z & [-> _]%add_u64_ok & [= <-]). done.
Qed.

Lemma add_to_amount_ok leaves is_long amount totals totals' :
  0 <= fst totals -> 0 <= snd totals -> add_to_amount leaves is_long amount totals = Ok totals' ->
  0 <= fst totals' /\ 0 <= snd totals'.
Proof.
  intros Hl Hs Ht. unfold add_to_amount in Ht. case_if_in Ht E; [|by injection Ht as <-].
  apply rbind_ok in Ht as ([] & _ & Ht); apply rbind_ok in Ht as (z & [_ Hz]%add_u64_ok & [= <-]); done.
Qed.

Lemma leaving_nonneg order meta t long short :
  leaving_amounts order meta t = Ok (long, short) -> 0 <= long /\ 0 <= short.
Proof.
  intros Hr. unfold leaving_amounts, total_long_token_amount, total_short_token_amount in Hr.
  apply rbind_ok in Hr as (l & Hl & Hr). apply rbind_ok in Hl as (? & _ & [_ Hl]%add_u64_ok).
  apply rbind_ok in Hr as (s & Hs & Hr). apply rbind_ok in Hs as (? & _ & [_ Hs]%add_u64_ok).
  apply rbind_ok in Hr as (b1 & _ & Hr). apply rbind_ok in Hr as (b2 & _ & Hr).
  apply rbind_ok in Hr as (t1 & [H1 H2]%add_to_amount_ok & Hr); [|done..].
  by apply add_to_amount_ok in Hr.
Qed.

(** A run keeps what the markets record; every market is solvent then, or was not touched; and the
    current one covers what leaves it. *)
Lemma order_run_covers order position prices r r' res :
  MarketsWf (run_markets r) -> OrderRun order position prices r r' res ->
  (exists dh, Executed (run_markets r) nothing dh (run_markets r'))
  /\ CoversLeaving order (run_market r') (run_transfer r').
Proof.
  intros Hwf Hr. pose proof Hr as (r1 & k & Hk & [Q _] & Hres). destruct res as [[remove paid]|].
  - destruct (order_position_run _ _ _ _ _ _ _ Hwf Hr) as (pa & l & c & _ & _ & _ & _ & [He _ _ _] & _).
    split; [exact He|]. destruct Hres as (Hs & pa' & l' & c' & _ & [_ _ _ _ _ Hinc Hdec]).
    unfold CoversLeaving, Leaves. destruct (is_increase_position k) eqn:Hi.
    + destruct (Hinc eq_refl) as (_ & la & sa & Ht & Hl & Hsh & Hv). apply funding_fields in Ht.
      exists la, sa. split_and!; [|apply Hl|apply Hsh|exact Hv]. exists k. by rewrite Hs, Hi.
    + destruct (Hdec eq_refl) as [(la & sa & Hl & Hv) _]. exists la, sa. apply leaving_nonneg in Hl as Hnn.
      split_and!; [|apply Hnn..|exact Hv]. exists k. by rewrite Hs, Hi.
  - destruct Hres as (Hs & Q2 & Hsol & _). split.
    + destruct (quiet_trans _ _ _ Q Q2) as [He _ _]. exact He.
    + exists 0, 0. split_and!; [|done..|exact Hsol]. exists k. by rewrite Hs.
Qed.


(** ** The accounts after an execution *)

(** What is asked of the accounts: unsigned amounts in the order, a sound position, and pools of
    borrowing factors that are not pure, as those of every market are ([pools_init_ok]). *)
Record OrderInput x : Prop := {
  in_unsigned : order_unsigned (ow_order x);
  in_state pa : ow_position x = Some pa -> StateWf (position_state pa);
  in_impure k m : StoredMarket.world_markets (ow_world x) !! k = Some m -> borrowing_impure (StoredMarket.as_swap m);
}.

(** An execution, run from the opened markets. *)
Record Ran a prices x (m : StoredMarket.Market) s r r' res : Prop := {
  ran_markets : run_markets r = s;
  ran_at : StoredMarket.world_markets (ow_world x) !! xo_market a = Some m;
  ran_opened : opened m (current_market s);
  ran_current : current s = xo_market a;
  ran_current' : current (run_markets r') = xo_market a;
  ran_wf : MarketsWf s;
  ran_reopened : Reopened (ow_world x) s (run_markets r');
  ran_run : OrderRun (ow_order x) (ow_position x) prices r r' res;
  ran_executed : exists dh, Executed s nothing dh (run_markets r');
  ran_covers : CoversLeaving (ow_order x) (run_market r') (run_transfer r');
  ran_transfer : run_transfer r = transfer_out_default;
}.

Lemma performed_ran market_token_address a prices x x' remove t send m s r' res :
  StoredMarket.MarketsAt this market_token_address (ow_world x) -> OrderInput x ->
  @prices_in_range u128 prices -> prices_ordered prices ->
  Performed a prices x x' remove t send m s r' res -> exists r, Ran a prices x m s r r' res.
Proof.
  intros Hat [Hun Hst Himp] Hrange Hord [Hm _ _ _ [discount Hopen] [throw Hrun] _].
  assert (MarketsOk (ow_world x)) as Hok by (intros k m' Hk; apply Hat in Hk as []; done).
  apply (opened_map_ok _ _ _ _ _ _ _ Hok Hm) in Hopen as (Hcur & Hwf & Hno & Hall).
  set (r := mkRun throw s zeroed_position_state transfer_out_default) in *. exists r.
  destruct (Hall _ _ (all_current s)) as (m0 & Hm0 & Hop & _ & _ & _ & Hpools). rewrite Hcur in Hm0.
  assert (m0 = m) as -> by congruence.
  assert (OrderRun (ow_order x) (ow_position x) prices r r' res) as HR.
  { eapply run_order_ok; [exact Hgood|exact Hwf|exact Hun| |done|exact Hst|exact Hrange|exact Hord|exact Hrun].
    unfold borrowing_impure, pool_of. unfold run_market. cbn [run_markets r]. rewrite Hpools. exact (Himp _ _ Hm). }
  destruct (order_run_covers _ _ _ r _ _ Hwf HR) as [[dh He] Hc]. cbn [run_markets r] in He.
  split; try done; [|by eapply opened_reopened|by exists dh].
  unfold current in *. by rewrite (ex_meta _ _ _ _ He).
Qed.




Lemma close_position_ok a x x' :
  close_position a x = (x', Ok tt) ->
  ow_world x' = ow_world x /\ ow_order x' = ow_order x /\ ow_user x' = ow_user x /\ ow_position x' = None
  /\ is_Some (ow_position x).
Proof.
  intros Hr. unfold close_position in Hr.
  apply sbind_ok in Hr as (? & pa & [-> Hp%ok_or_ok]%sread_ok & Hr).
  apply sbind_ok in Hr as (? & b & [-> _]%sread_ok & Hr).
  apply sbind_ok in Hr as (x1 & [] & (l & _ & ->)%szoom_ok & Hr).
  apply sbind_ok in Hr as (x2 & [] & Hx2%smodify_ok & Hr).
  apply sbind_ok in Hr as (x3 & [] & H3 & Hr).
  assert (forall (y y' : OrderWorld T) (u : unit) (c : bool) acct b, (if c then sret tt else on_ow_lamports (system_transfer (xo_order a) acct b)) y
    = (y', Ok u) -> exists l, y' = put_ow_lamports l y) as Hpay.
  { intros y y' u c acct b0 Hy. destruct c.
    - apply sret_ok in Hy as [-> _]. exists (ow_lamports y). by destruct y.
    - apply szoom_ok in Hy as (l0 & _ & ->). eauto. }
  apply Hpay in H3 as [l3 ->]. apply Hpay in Hr as [l4 ->]. subst x2. split_and!; try done; by eexists.
Qed.

(** The world after an execution is the one before, or the one that was written back. *)
Lemma execute_order_world market_token_address a x x' remove t send :
  StoredMarket.MarketsAt this market_token_address (ow_world x) -> OrderInput x ->
  execute_order this now slot oracle a x = (x', Ok (remove, t, send)) ->
  (executed t = false /\ ow_world x' = ow_world x /\ ow_position x' = (if remove then None else ow_position x)
   /\ (remove = true -> exists pa, ow_position x = Some pa /\ position_state_is_empty (position_state pa) = true))
  \/ exists prices x1 m s r r' res, executed t = true /\ Ready a x prices
       /\ Performed a prices x x1 remove (run_transfer r') send m s r' res
       /\ t = set_executed true (run_transfer r')
       /\ Ran a prices x m s r r' res /\ ow_world x' = ow_world x1
       /\ (exists su gt_state, ow_world x1 = written x su r'
             /\ su = with_gt gt_state (StoredMarket.world_store (ow_world x)))
       /\ ow_position x' = if remove then None else ow_position x1.
Proof.
  intros Hat Hin Hr. apply execute_order_ok in Hr
    as [(Ht & -> & -> & _)|(prices & x1 & Hready & Hclose & Hr)]; [by left|].
  assert (ow_world x' = ow_world x1 /\ ow_position x' = if remove then None else ow_position x1) as [Hw Hp].
  { destruct remove; [|by subst x']. by apply close_position_ok in Hclose as (? & _ & _ & ? & _). }
  destruct Hr as [(Ht & t0 & m & s & r' & res & -> & Hperf)|(-> & _ & -> & _ & Hrem & _)]; [right|left].
  2:{ split_and!; try done. intros ->. destruct (ow_position x) as [pa|]; [by exists pa|done]. }
  destruct (rd_prices _ _ _ Hready) as (m0 & _ & Hpr). apply (oracle_prices_ok oracle Hgood) in Hpr as [Hrange Hord].
  destruct (commit_order_ok _ _ _ _ _ _ _ _ (pf_commit _ _ _ _ _ _ _ _ _ _ _ Hperf)) as (-> & _ & _ & _ & Hwr & _).
  destruct (performed_ran _ _ _ _ _ _ _ _ _ _ _ _ Hat Hin Hrange Hord Hperf) as [r Hran].
  exists prices, x1, m, s, r, r', res. done.
Qed.




(** ** The books *)

(** The position of an account, in its market. *)
Definition PositionIn (m : StoredMarket.Market) pa (p : Position) : Prop := exists l c,
  try_is_long pa = Ok l /\ to_token_side (StoredMarket.meta m) (position_collateral_token pa) = Ok c
  /\ p = as_position l c (StoredMarket.is_pure (BO := MO) m) (position_state pa).

Definition listed (ps : gmap Pubkey (list Position)) (k : Pubkey) : list Position := default [] (ps !! k).

(** The position of a run, before and after. *)
Lemma ran_position a prices x m s r r' remove paid :
  Ran a prices x m s r r' (Some (remove, paid)) ->
  exists pa l c, ow_position x = Some pa /\ position_market_token pa = xo_market a
    /\ PositionIn m pa (position_at l c (put_run_state (position_state pa) r))
    /\ PositionIn m (with_position_state (run_state r') pa) (position_at l c r')
    /\ PositionRun l c (put_run_state (position_state pa) r) r'
    /\ (remove = true -> is_empty (position_at l c r') = true).
Proof.
  intros [<- Hm [Hmeta Hpure] Hcur Hcur' Hwf Hro HR [dh He] _].
  destruct (order_position_run _ _ _ _ _ _ _ Hwf HR) as (pa & l & c & Hpa & Hl & Hc & Hmk & Hrun & Hrem).
  pose proof (ex_wf _ _ _ _ He) as [Wc' _]. pose proof Hwf as [Wc _].
  assert (sm_is_pure (run_market r') = sm_is_pure (run_market r)) as Hp.
  { unfold run_market. by rewrite (sm_wf_pure _ Wc), (sm_wf_pure _ Wc'), (ex_meta _ _ _ _ He). }
  unfold run_market in *. rewrite Hmeta in Hc. exists pa, l, c. split_and!; try done.
  - rewrite Hmk. exact Hcur.
  - exists l, c. split_and!; [done|done|]. unfold position_at, run_position. cbn. by rewrite Hpure.
  - exists l, c. split_and!; [done|done|]. unfold position_at, run_position. cbn. by rewrite Hp, Hpure.
Qed.

(** A run without a position keeps the books. *)
Lemma ran_swap_kept a prices x m s r r' :
  Ran a prices x m s r r' None -> RunQuiet r r'.
Proof. intros [_ _ _ _ _ _ _ (r1 & k & _ & [Q _] & _ & Q2 & _) _ _]. by eapply quiet_trans. Qed.

Lemma ran_books a prices x m s r r' res w2 ps l :
  Ran a prices x m s r r' res -> Books (ow_world x) ps ->
  (forall k mk', markets (run_markets r') !! k = Some mk' ->
     exists mk, markets s !! k = Some mk /\ LedgerKept (sm_market mk) (sm_market mk')) ->
  (Tracks (sm_market (current_market s)) (listed ps (xo_market a)) -> Tracks (sm_market (run_market r')) l) ->
  Books (StoredMarket.put_markets (commit_markets (all_markets (run_markets r'))
    (StoredMarket.world_markets (ow_world x))) w2) (<[xo_market a := l]> ps).
Proof.
  intros [_ _ _ Hcur Hcur' _ Hro _ _ _] Hb Ho Hl. rewrite <- Hcur. rewrite <- Hcur in Hl.
  eapply books_committed; [exact Hro|congruence|exact Hb|exact Ho|exact Hl].
Qed.

(** C9: the markets keep the books of their positions. The order has unsigned amounts, its position, if
    any, is well formed, and the pools of borrowing factors are not pure, as every market is created.
    When every market tracks a list of positions,
    an instruction that succeeds keeps that: for a swap, and for an order that is not executed, the lists
    are the same, and the position of the account, but that an empty one may be removed; an executed order
    for a position replaces that position in the list of its market by what the
    execution has left in its account. A position that is removed is empty, and so is what the
    market tracks in its place, but for a rest of its size in usd. *)
Theorem executed_order_books market_token_address a x x' remove t send ps :
  StoredMarket.MarketsAt this market_token_address (ow_world x) -> OrderInput x -> Books (ow_world x) ps ->
  execute_order this now slot oracle a x = (x', Ok (remove, t, send)) ->
  (Books (ow_world x') ps
   /\ (executed t = true -> exists k, kind (order_params (ow_order x)) = Ok k /\ is_swap k = true)
   /\ (ow_position x' = ow_position x
       \/ exists pa, ow_position x = Some pa /\ position_state_is_empty (position_state pa) = true /\ ow_position x' = None))
  \/ exists m pa p p', executed t = true
       /\ StoredMarket.world_markets (ow_world x) !! xo_market a = Some m
       /\ ow_position x = Some pa /\ position_market_token pa = xo_market a /\ PositionIn m pa p
       /\ PositionWf p'
       /\ (if remove then ow_position x' = None /\ is_empty p' = true
           else exists pa', ow_position x' = Some pa' /\ PositionIn m pa' p')
       /\ forall i, listed ps (xo_market a) !! i = Some p -> exists q, left_behind p' q
            /\ Books (ow_world x') (<[xo_market a := <[i := q]> (listed ps (xo_market a))]> ps).
Proof.
  intros Hat Hin Hb Hr.
  apply (execute_order_world _ _ _ _ _ _ _ Hat Hin) in Hr
    as [(Ht & -> & -> & Hrem)|(prices & x1 & m & s & r & r' & res & Ht & _ & Hperf & -> & Hran & -> & Hwr & ->)].
  - left. split_and!; [done|congruence|]. destruct remove; [right|by left]. destruct (Hrem eq_refl) as (pa & ? & ?). by exists pa.
  - destruct (commit_order_ok _ _ _ _ _ _ _ _ (pf_commit _ _ _ _ _ _ _ _ _ _ _ Hperf)) as (_ & _ & _ & _ & _ & Hpos).
    destruct Hwr as (su & g & -> & _). unfold written. destruct res as [[remove' paid]|].
    + right. destruct Hpos as (-> & _ & ->).
      destruct (ran_position _ _ _ _ _ _ _ _ _ Hran) as (pa & l & c & Hpa & Hmk & Hp & Hp' & [He Ho Hs Hwf'] & Hrm).
      rewrite Hpa. exists m, pa, (position_at l c (put_run_state (position_state pa) r)), (position_at l c r').
      split_and!; try done; [exact (ran_at _ _ _ _ _ _ _ _ Hran)| |].
      * destruct remove'; [by split; [|apply Hrm]|]. by eexists.
      * intros i Hi.
        assert (Tracks (sm_market (current_market s)) (listed ps (xo_market a))) as Htr.
        { rewrite <- (ran_current _ _ _ _ _ _ _ _ Hran).
          destruct (ro_opened _ _ _ (ran_reopened _ _ _ _ _ _ _ _ Hran) _ _ (all_current s))
            as (m0 & Hm0 & _ & _ & _ & _ & Hpools).
          eapply ledger_kept_tracks; [by apply ledger_kept_pools|]. by apply Hb. }
        destruct (Hs (listed ps (xo_market a)) i) as (q & Hq & Htr'); [by rewrite <- (ran_markets _ _ _ _ _ _ _ _ Hran) in Htr|exact Hi|].
        exists q. split; [exact Hq|]. eapply (ran_books _ _ _ _ _ _ _ _ (ow_world x)); [exact Hran|exact Hb| |done].
        rewrite <- (ran_markets _ _ _ _ _ _ _ _ Hran). exact Ho.
    + left. destruct Hpos as (-> & _ & ->). split_and!; [| |by left].
      2:{ destruct (ran_run _ _ _ _ _ _ _ _ Hran) as (_ & k & Hk & _ & Hsw & _). by exists k. }
      apply (books_same _ ps (xo_market a)).
      pose proof (ran_swap_kept _ _ _ _ _ _ _ Hran) as [_ [Kc Ko] _].
      rewrite (ran_markets _ _ _ _ _ _ _ _ Hran) in Kc, Ko.
      eapply (ran_books _ _ _ _ _ _ _ _ (ow_world x)); [exact Hran|exact Hb|exact Ko|]. by apply ledger_kept_tracks.
Qed.

(** ** Conditions *)
















(** ** Orders that are not executed *)









End Accounts.

(** ** Examples

    In the market of SOL and USDC after the deposit of [Lifecycle], the owner 3 opens a long position
    of 600 dollars with a collateral of 13 USDC, by a limit order; when the price of SOL has
    fallen to 148 dollars, the position is liquidated. *)
Section Examples.
#[local] Existing Instance z_bitmap.
#[local] Existing Instance z_bitmap_laws.
#[local] Existing Instance Oracle.feed_accounts.
#[local] Instance order_num : FixedPointOps u128 := u128_fixed (fun _ _ _ => None) 20.

Abbreviation sol_key := Lifecycle.sol_key.
Abbreviation vault_at := Lifecycle.vault_at.
Abbreviation address_at := StoredMarket.market_address_example.

(** The collateral is in the vault. *)
Definition collateral_run : StoredMarket.World Ledger * store_result unit :=
  StoredMarket.run_instruction key_example 9 address_at vault_at example_get_config StoredMarket.decimals_example
    Lifecycle.mint_at 10 900 5
    (StoredMarket.MarketTransferIn sol_key (Lifecycle.ata_at 3 6) 6 (13 * 10 ^ 6))
    (Exchange.ex_world Lifecycle.executed_at).
Definition order_world : StoredMarket.World Ledger := fst collateral_run.

Definition header_example : ActionHeader :=
  mkHeader 0 0 0 (default_flags (H := z_bitmap Actions.MAX_FLAGS)) 1 9 sol_key 3 4100 300000 990 890 3 3 3.
Definition tokens_example : OrderTokenAccounts :=
  let pays tok := mkTokenAndAccount tok (Lifecycle.ata_at 4100 tok) in
  mkOrderTokenAccounts (pays 6) (pays 6) (pays 5) (pays 6).
Definition no_swap : SwapActionParams :=
  mkSwapActionParams 0 0 2 sol_key (replicate MAX_STEPS 0) ([5; 6] ++ replicate 8 0).
Definition usd (x : Z) : Z := x * 10 ^ 20.

(** An increase of 600 dollars; the acceptable price is a limit. *)
Definition increase_order (k : OrderKind) (acceptable : Z) : Order :=
  mkOrder header_example sol_key tokens_example no_swap
    (mkOrderActionParams (order_kind_u8 k) 0 0 6 4101 (13 * 10 ^ 6) (usd 600) 0 15050000000000 acceptable 0) 0.
Definition no_position : PositionAccount := mkPositionAccount 255 9 1 3 sol_key 6 zeroed_position_state.
Definition user_example : UserHeader := mkUserHeader 255 true 3 9 (mkReferral 0 0 0) zero_gt.
Definition accts (throw : bool) : ExecuteOrderAccounts :=
  mkExecuteOrderAccounts 6 sol_key 4100 3 4101 (Some 9) [] throw 0.

Definition order_at (k : OrderKind) (acceptable : Z) : OrderWorld Ledger :=
  mkOrderWorld order_world {[4100 := 10 ^ 6; 4101 := 10 ^ 6; 3 := 10 ^ 10]} (increase_order k acceptable)
    (Some no_position) user_example.
Abbreviation run_order_at := (execute_order 9).

(** The price has reached the trigger price. *)
Definition limit_run := run_order_at 950 900 example_oracle (accts true) (order_at LimitIncrease MAX_U128).
Definition limit_at := fst limit_run.



(** Every step runs. *)
Definition paid_output (out : Z) : TransferOut := mkTransferOut EXECUTED out 0 0 0 0 0 0 0.

Lemma collateral_runs : collateral_run = (order_world, Ok tt).
Proof. vm_compute. reflexivity. Qed.
Lemma limit_runs : limit_run = (limit_at, Ok (false, paid_output 0, true)).
Proof. unfold limit_at. apply run_ok. vm_compute. reflexivity. Qed.


Lemma order_world_wf : StoredMarket.WorldWf 9 address_at vault_at order_world.
Proof.
  assert (Lifecycle.ExchangeReach key_example 9 vault_at Lifecycle.mint_at Lifecycle.ata_at Lifecycle.action_at
    Lifecycle.bump_at Lifecycle.rent_at 1 4 10 8 address_at example_get_config StoredMarket.decimals_example
    (Exchange.put_world order_world Lifecycle.executed_at)) as Hr.
  { eapply Lifecycle.ExchangeMarket; [exact Lifecycle.executed_reach| |exact collateral_runs].
    split; vm_compute; discriminate. }
  apply (Lifecycle.reach_wf _ _ _ _ _ _ _ _ _ _ _ _ _ Lifecycle.vault_at_mint Lifecycle.ata_not_vault) in Hr as [Hw _].
  exact Hw.
Qed.

Definition all_impure (w : StoredMarket.World Ledger) : bool :=
  forallb (fun km => negb (pool_pure (pool_of (sm_market (StoredMarket.as_swap (snd km))) BorrowingFactor)))
    (map_to_list (StoredMarket.world_markets w)).

Lemma all_impure_ok w k m : all_impure w = true -> StoredMarket.world_markets w !! k = Some m ->
  borrowing_impure (StoredMarket.as_swap m).
Proof.
  intros Hall Hm. apply elem_of_map_to_list, list_elem_of_In in Hm.
  unfold all_impure in Hall. rewrite forallb_forall in Hall. apply Hall in Hm. by apply negb_true_iff in Hm.
Qed.

Lemma order_input (x : OrderWorld Ledger) :
  all_impure (ow_world x) = true ->
  bool_decide (0 <= initial_collateral_delta_amount (order_params (ow_order x))) = true ->
  bool_decide (0 <= size_delta_value (order_params (ow_order x))) = true ->
  (forall pa, ow_position x = Some pa -> StateWf (position_state pa)) -> OrderInput x.
Proof.
  intros Hi H1%bool_decide_eq_true H2%bool_decide_eq_true Hp. split; [done|done|].
  intros k m. by apply all_impure_ok.
Qed.

Lemma zeroed_state_wf : StateWf zeroed_position_state.
Proof. split; (split; vm_compute; discriminate) || done. Qed.

Lemma order_at_input k acceptable : OrderInput (order_at k acceptable).
Proof.
  apply order_input; [vm_compute; reflexivity..|]. intros pa [= <-]. apply zeroed_state_wf.
Qed.

(** No market has positions yet. *)
Definition ledger_pools : list PoolKind :=
  [OpenInterestForLong; OpenInterestForShort; OpenInterestInTokensForLong; OpenInterestInTokensForShort;
   CollateralSumForLong; CollateralSumForShort; TotalBorrowing].
Definition no_positions (w : StoredMarket.World Ledger) : bool :=
  forallb (fun km => forallb (fun k =>
    (amt (stored_model (snd km)) k true =? 0) && (amt (stored_model (snd km)) k false =? 0)) ledger_pools)
    (map_to_list (StoredMarket.world_markets w)).

Lemma no_positions_books (w : StoredMarket.World Ledger) : no_positions w = true -> Books w ∅.
Proof.
  intros Hall k m Hm. rewrite lookup_empty. simpl. apply elem_of_map_to_list, list_elem_of_In in Hm.
  unfold no_positions in Hall. rewrite forallb_forall in Hall. specialize (Hall _ Hm). cbn [snd] in Hall.
  assert (forall kd, is_ledger_pool kd = true -> amt (stored_model m) kd true = 0 /\ amt (stored_model m) kd false = 0) as Hz.
  { intros kd Hkd. assert (In kd ledger_pools) as Hin by (destruct kd; try done; simpl; tauto).
    rewrite forallb_forall in Hall. apply Hall, andb_true_iff in Hin as [?%Z.eqb_eq ?%Z.eqb_eq]. done. }
  intros kd Hkd. destruct (Hz kd Hkd) as [H1 H2]. split; [by unfold total_amt; rewrite H1, H2|].
  intros _ []; done.
Qed.

(** The state that the liquidation starts from. *)
Definition opened_state : PositionState := mkPositionState 1 950 900 0 3986229357 12580000 (usd 600) 0 0 0 0.





Lemma fmap_at {A C} (f : A -> C) o u v : f <$> o = Some v -> o = Some u -> f u = v.
Proof. intros Hf ->. by injection Hf. Qed.

Lemma sol_side : (fun m => to_token_side (StoredMarket.meta m) 6)
  <$> StoredMarket.world_markets order_world !! sol_key = Some (Ok false).
Proof. vm_compute. reflexivity. Qed.
Lemma sol_impure : (fun m => StoredMarket.is_pure m)
  <$> StoredMarket.world_markets order_world !! sol_key = Some false.
Proof. vm_compute. reflexivity. Qed.

Lemma sol_market_side m : StoredMarket.world_markets order_world !! sol_key = Some m ->
  to_token_side (StoredMarket.meta m) 6 = Ok false /\ StoredMarket.is_pure m = false.
Proof.
  intros Hm. split.
  - apply (fmap_at (fun m => to_token_side (StoredMarket.meta m) 6) _ _ _ sol_side Hm).
  - apply (fmap_at (fun m => StoredMarket.is_pure m) _ _ _ sol_impure Hm).
Qed.

(** The position of an account of that market: long, with a collateral of USDC. *)
Lemma sol_position m st p : StoredMarket.world_markets order_world !! sol_key = Some m ->
  PositionIn m (with_position_state st no_position) p -> p = as_position true false false st.
Proof.
  intros [Hside Hpure]%sol_market_side (l & c & [= <-] & Hc & ->). rewrite Hpure.
  unfold with_position_state in Hc. cbn [position_collateral_token no_position] in Hc. rewrite Hside in Hc.
  injection Hc as <-. reflexivity.
Qed.

Lemma books_with_empty (w : StoredMarket.World Ledger) k : Books w ∅ ->
  Books w {[k := [as_position true false false zeroed_position_state]]}.
Proof.
  intros Hb k' m Hm. specialize (Hb _ _ Hm). rewrite lookup_empty in Hb. destruct (decide (k' = k)) as [->|Hne].
  - rewrite lookup_singleton_eq. simpl. by apply tracks_cons_empty.
  - by rewrite lookup_singleton_ne.
Qed.

Lemma limit_position : ow_position limit_at = Some (with_position_state opened_state no_position).
Proof. vm_compute. reflexivity. Qed.

Lemma executed_order_books_witness : exists q,
  size_in_usd q = usd 600 /\ collateral_amount q = 12580000
  /\ Books (ow_world limit_at) (<[sol_key := [q]]> {[sol_key := [as_position true false false zeroed_position_state]]}).
Proof.
  pose proof limit_runs as Hr. unfold limit_run in Hr. destruct order_world_wf as [Hat _].
  destruct (executed_order_books 9 950 900 example_oracle example_oracle_good address_at (accts true)
    (order_at LimitIncrease MAX_U128) limit_at false (paid_output 0) true
    {[sol_key := [as_position true false false zeroed_position_state]]}
    Hat (order_at_input LimitIncrease MAX_U128)
    (books_with_empty _ _ (no_positions_books order_world eq_refl)) Hr)
    as [(_ & _ & [E|(pa & _ & _ & E)])|(m & pa & p & p' & _ & Hm & Hpa & _ & Hp & _ & Hend & Hbooks)];
    [by rewrite limit_position in E..|].
  injection Hpa as <-. apply (sol_position m zeroed_position_state p Hm) in Hp as ->.
  destruct Hend as (pa' & Hpa' & Hp'). rewrite limit_position in Hpa'. injection Hpa' as <-.
  apply (sol_position m opened_state p' Hm) in Hp' as ->.
  destruct (Hbooks 0%nat eq_refl) as (q & (x & -> & [->|E]) & Hq); [|discriminate E].
  exists (as_position true false false opened_state). split; [reflexivity|split; [reflexivity|exact Hq]].
Defined.

End Examples.

End OrderSafety.
